(* ===== verification/_CoqProject ===== *)
-Q . S2P
Prelude.v
Bytes.v
Interfaces.v
Currency.v
Instances.v
Types.v
Params.v
Target.v
Encoding.v
EncodingFacts.v
Decoding.v
Codec.v
Transactions.v
Subsidy.v
Revisions.v
Signatures.v
SignaturesFacts.v
ValidTransaction.v
ConsensusDB.v
ApplyTransaction.v
ConsensusValid.v
GenerateDiffs.v
ProcessedBlock.v
Difficulty.v
BlockValidation.v
Fork.v
Accept.v
ConsensusSubscribe.v
Journal.v
Agree.v
Records.v
Steps.v
Revert.v
RevertApply.v
Conservation.v
ConservationBlock.v
Frames.v
Chain.v
ChainFork.v
ChainAccept.v
ChainState.v
ChangeLog.v
Subscription.v
Replay.v
Node.v
Ledger.v
HostTree.v
HostTreeFacts.v
HostTreeSelect.v
MinimumSet.v
TransactionPool.v
TransactionPoolUpdate.v
FindSets.v
TransactionPoolFacts.v
TransactionPoolSubscribers.v
TransactionPoolConsensus.v
TransactionPoolFollow.v
NodePool.v
Wallet.v
WalletUpdate.v
WalletBuilder.v
WalletKeys.v
WalletHistory.v
WalletMoves.v
NodeWallet.v
WalletSpend.v
WalletPool.v
SeedScan.v
MapHeap.v
Miner.v
MinerSelect.v
MinerPool.v
MinerWork.v
NodeMiner.v
Examples.v
ExamplesChain.v
ExamplesPool.v
ExamplesNode.v
ExamplesWallet.v
ExamplesMiner.v
