(* ===== verification/Prelude.v ===== *)
(** * Verification of the ScPrime node: consensus, pool, wallet, miner

    This library models the part of the node that decides who owns what, and
    proves it correct: the consensus types and their encoding, the consensus
    set with its database, forks and subscribers, the transaction pool, the
    wallet, the miner, and the tree from which the renter draws hosts.  The definitions
    are translations of the Go sources under src/; a definition keeps the
    source's name, with the type in front where two methods share one
    ([Wallet_ProcessConsensusChange]).

    ** How the program works

    Package types has transactions, blocks and contracts, the rules they follow
    on their own, and the bytes they are hashed and stored as.  The consensus
    set (modules/consensus) keeps a tree of blocks and, for the blocks of the
    heaviest chain, the outputs, contracts and pools they leave.  A block is
    applied by recording diffs and committing them, and reverted by committing
    the same diffs backwards.  Each change of the current path is appended to a
    change log and handed to the subscribers as a consensus change.  The
    transaction pool (modules/transactionpool) subscribes to the consensus set;
    it keeps sets of unconfirmed transactions that are valid on top of it, and
    tells its own subscribers about them.  The wallet (modules/wallet)
    subscribes to both, tracks the outputs and the history of its addresses,
    and builds, signs and submits transactions.  The miner (modules/miner)
    subscribes to both as well; it keeps a block that extends the current one,
    filled with the sets that pay most, gives out headers of it to work on, and
    turns a solved header back into its block.

    ** How it is modelled

    - [uint64] and [int64] are integers of [Z] kept at their width by [u64] and
      [i64]; a [Currency] is an [N]; an array of bytes is a [vec], a slice a
      list; a bolt bucket is a [gmap] from decoded keys to decoded values.
    - Stateful code is a computation of the monad [M S], whose outcome is a
      value, an error or a panic, with the state that is left.  Pure validation
      returns an [err].  An index out of range, a nil dereference and a failed
      sanity check of a debug build are panics.
    - The build is an argument ([Build]), and so are the network constants
      ([Params], [PoolParams], [WalletParams], [ScanParams], [MinerParams], with
      one value per release).
    - Objects that the source shares through pointers and writes to, the elements
      of the miner's heaps and its source blocks, are in a memory in the state;
      a pointer is an index into it.
    - Code outside the repository enters through type classes: [Crypto],
      [Ed25519], [SiaEncoding] and [SiaDecoder], with laws as separate classes
      for the theorems that need them ([SiaEncodingLaws], [Ed25519Laws]).
      Instances.v has functions that satisfy the laws.
    - What the source leaves open is an argument: clocks, random numbers, the
      resolver, the iteration order of Go maps and of bolt cursors, the order
      [sort.Sort] gives to equal elements, and what a thread finds when it takes
      a lock again.

    ** The files

    - Prelude, Bytes, Interfaces, Instances: integers, the monad and its
      tactics, bytes, and the interfaces above.
    - Currency, Types, Params, Target, Transactions, Subsidy, Revisions:
      types/currency.go, transactions.go, block.go, filecontracts.go,
      constants.go, target.go.  [Tax_bounds], [CalculateSubsidies_split],
      [CalculateNumSiacoins_standard], and that the three ways to revise a
      contract move exactly what they say.
    - Encoding, EncodingFacts, Decoding, Codec: types/encoding.go.  Round trips,
      injectivity, sizes, the shortest encoding of a currency, and the offsets
      at which the database reads stored blocks.
    - Signatures, SignaturesFacts, ValidTransaction: types/signatures.go and
      types/validtransaction.go.  The code accepts exactly the transactions that
      follow declarative rules.
    - ConsensusDB, ApplyTransaction, ConsensusValid, GenerateDiffs: the database
      of the consensus set and what a block does to it
      (modules/consensus/consensusdb.go, diffs.go, applytransaction.go,
      maintenance.go, validtransaction.go).
    - ProcessedBlock, Difficulty, BlockValidation: processedblock.go,
      difficulty.go, block_rules.go, block_validation.go.  [ValidateBlock_spec],
      the median timestamp, and bounds of the Oak adjustment where int64
      arithmetic wraps.
    - Fork, Accept, ConsensusSubscribe: fork.go, consistency.go,
      accept.go, changelog.go, subscribe.go and the creation of the database.
    - Journal, Agree, Records, Steps, Revert, RevertApply: the diffs of a block
      are a legal journal, so committing them backwards restores the database
      and committing them again repeats the block; and a release build computes
      what a debug build does where the latter does not panic.
    - Conservation, ConservationBlock: no transaction creates coins or siafunds,
      and a block adds exactly its coinbase.
    - Frames, Chain, ChainFork, ChainAccept, ChainState: the invariant of the
      consensus set over any sequence of calls that accept blocks ([reachable]).  Its state is that of the current
      path, validated block by block from the genesis block; the supply is that
      of the path; the published changes lead along the path; a call that
      succeeds ends on a chain with more work and one that fails changes
      nothing it should not; the loops of a reorganisation end.
    - ChangeLog, Replay, Subscription: what the change log holds
      and what a change tells; its diffs lead from the old state to the new;
      a module that subscribes while blocks arrive misses none of them.
    - Node: the consensus set composed with a subscriber given by its handler
      and its own operations, and the rule by which an invariant of the
      subscriber is carried along.  NodePool, NodeWallet and NodeMiner use it.
    - TransactionPool, TransactionPoolUpdate, FindSets, MinimumSet,
      TransactionPoolFacts, TransactionPoolSubscribers,
      TransactionPoolConsensus, TransactionPoolFollow, Ledger, NodePool:
      modules/transactionpool and types/typesutil.  The pool only holds sets
      that are valid on the consensus set and share no object; accepting a set
      and following a change keep this, with the fee window and its median
      exactly those of the blocks; subscribers keep up; and in a node the pool
      is always at the current block ([node_pool_follows]).
    - Wallet, WalletUpdate, WalletBuilder, WalletKeys, WalletHistory,
      WalletMoves, NodeWallet, WalletSpend: modules/wallet (wallet.go,
      database.go, seed.go, update.go, transactionbuilder.go, money.go,
      defrag.go).  In a node the wallet knows exactly the outputs of its
      addresses, and its history is that of the current path, through
      reorganisations and its own operations, until it starts a rescan; the
      state of the node records the threads the handler starts ([walletNode]).
      Sending coins builds transactions that are balanced and signed as
      consensus asks for, or reports why not.
    - WalletPool: the wallet composed with the transaction pool it subscribed to.
      It lists the transactions with a siacoin input or output of its addresses.
    - SeedScan: modules/wallet/scan.go.  A scan ends, and finds the outputs of the
      addresses of a seed while blocks arrive.
    - MapHeap, Miner, MinerSelect, MinerPool, MinerWork, NodeMiner: modules/miner
      (splitsetheap.go, miner.go, update.go, blockmanager.go).  The heaps
      implement maps with access to the set that pays least or most; the block
      holds sets of the pool as a whole and in order ([miner_follows_pool]); a
      header that was given out is turned into its block again for as long as it
      should be ([header_round_trip]); and in a node the miner works on a child
      of the current block, which passes the checks on headers and blocks once
      it is solved, if it is new, not too large and the clocks agree
      ([node_miner_follows]).
    - HostTree, HostTreeFacts, HostTreeSelect: modules/renter/hostdb/hosttree.
      The tree implements a weighted map; random selection is proportional to
      weight, without repetition, and ends.
    - Examples, ExamplesChain, ExamplesPool, ExamplesNode, ExamplesWallet,
      ExamplesMiner: concrete runs, among them a reorganisation with a pool, a
      wallet and a miner that follow it, at which the theorems are applied.

    ** Bounds, fuel and hypotheses

    Loops that are not structural take fuel.  Reverting and backtracking take
    one round per block of the path ([fork_loops_terminate] shows it is enough),
    [forward] one per set and the search of MinimumSet one per input, which
    [findSets_spec] and [MinimumTransactionSet_spec] show; selecting hosts takes
    one per host, as each round removes one; for the batches of a subscription
    [ConsensusSetSubscribe_delivers] says how much fuel is enough, and for the
    rounds of a scan [seedScanner_scan_spec].  In the miner an element of a heap
    moves up or down at most once per element; a set that is added displaces
    every set of the block at most once, and one that is removed makes room for
    every set of the overflow at most once ([mapHeap_refines_map] and
    [miner_follows_pool] exclude running out); [newSourceBlock] leaves fewer
    slots than a source block has ([header_round_trip]).  Running out is a panic
    or [None], so that a theorem that excludes these also shows that the loop
    ends.

    The theorems about chains are for debug builds whose checks pass (Agree
    carries the application of blocks over to release builds), for heights
    below the airdrop and the siafund hardforks ([below_forks]), and for blocks
    that do not spend siafunds of the address [devAddr] and whose ID is not
    zero ([admissible]): at the airdrop and for that address reverting a block
    does not restore what was there.  The theorems about the wallet take
    distinct addresses for distinct indices, IDs that do not repeat on a path,
    and payments within the first lookahead.  A change that makes the wallet
    generate more than [lookaheadRescanThreshold] keys at once starts a rescan;
    the theorems speak of the time before that, and show that none is started
    if the payments stay that close to the first progress.  Those about the wallet and the miner on the pool take sets that
    share no transaction, and that about the miner sets of positive size whose
    sum fits into 64 bits ([proper_sets]), and a miner that starts with an empty
    block; that all sets are taken in needs that none was left out before.  The
    fee of a block is characterised for blocks within the size limit.

    ** Not modelled

    - Locks, thread groups, logging, and the disk: code that holds a lock is one
      step, and errors of bolt are left out.
    - JSON and human-readable forms, ciphers, files, network connections, HTTP
      and command-line front ends.
    - Synchronisation with peers, the gateway, the CPU miner, mining pools and the
      stratum miner.
    - Of the miner: files, and the assembly of the module.  [AcceptBlock] is an
      argument of [SubmitHeader]; what accepting a block does to the miner is in
      NodeMiner.
    - Of the wallet: encryption, seed files, backups, keys from files, offline
      signing, queries, and the rescan that [threadedResetSubscriptions] does.
    - The host with its contract manager and the machine that runs programs,
      and the renter apart from the host tree: they live in files behind
      write-ahead logs of libraries, in network sessions and in concurrent
      workers.  Scores of hosts are floating-point numbers; the weight function
      of the host tree is an argument. *)

From stdpp Require Export base gmap list sorting vector strings.
From Stdlib Require Export ZArith NArith Lia.

Open Scope Z_scope.

(** ** Machine integers

    Go's [uint64] and [int64] are integers of [Z] kept at their width: every
    operation of the source that can wrap is written with [u64] or [i64]. *)

Definition u64 (z : Z) : Z := z mod 2 ^ 64.

Definition i64 (z : Z) : Z :=
  let m := z mod 2 ^ 64 in if m <? 2 ^ 63 then m else m - 2 ^ 64.

Definition is_u64 (z : Z) : Prop := 0 <= z < 2 ^ 64.

#[export] Instance is_u64_dec z : Decision (is_u64 z).
Proof. unfold is_u64. apply _. Defined.

(** [math.MaxInt64] and [math.MaxUint64]. *)
Definition MaxInt64 : Z := 2 ^ 63 - 1.
Definition MaxUint64 : Z := 2 ^ 64 - 1.

Lemma u64_range z : is_u64 (u64 z).
Proof. apply Z.mod_pos_bound. lia. Qed.

Lemma u64_small z : is_u64 z -> u64 z = z.
Proof. apply Z.mod_small. Qed.

Lemma i64_small z : - 2 ^ 63 <= z < 2 ^ 63 -> i64 z = z.
Proof.
  intros Hz. unfold i64. destruct (Z.ltb_spec z 0) as [Hn|Hp].
  - replace (z mod 2 ^ 64) with (z + 2 ^ 64)
      by (symmetry; rewrite <- (Z.mod_add z 1) by lia; apply Z.mod_small; lia).
    destruct (Z.ltb_spec (z + 2 ^ 64) (2 ^ 63)); lia.
  - rewrite Z.mod_small by lia. destruct (Z.ltb_spec z (2 ^ 63)); lia.
Qed.

(** ** Booleans of the source as propositions *)

Ltac bool_prop :=
  repeat match goal with
  | H : (_ <? _)%Z = true |- _ => apply Z.ltb_lt in H
  | H : (_ <? _)%Z = false |- _ => apply Z.ltb_ge in H
  | H : (_ <=? _)%Z = true |- _ => apply Z.leb_le in H
  | H : (_ <=? _)%Z = false |- _ => apply Z.leb_gt in H
  | H : (_ =? _)%Z = true |- _ => apply Z.eqb_eq in H
  | H : (_ =? _)%Z = false |- _ => apply Z.eqb_neq in H
  | H : (_ <? _)%N = true |- _ => apply N.ltb_lt in H
  | H : (_ <? _)%N = false |- _ => apply N.ltb_ge in H
  | H : (_ <=? _)%N = true |- _ => apply N.leb_le in H
  | H : (_ <=? _)%N = false |- _ => apply N.leb_gt in H
  | H : (_ =? _)%N = true |- _ => apply N.eqb_eq in H
  | H : (_ =? _)%N = false |- _ => apply N.eqb_neq in H
  | H : (_ && _)%bool = true |- _ => apply andb_true_iff in H; destruct H
  | H : (_ || _)%bool = false |- _ => apply orb_false_iff in H; destruct H
  | H : negb _ = true |- _ => apply negb_true_iff in H
  | H : negb _ = false |- _ => apply negb_false_iff in H
  | H : bool_decide _ = true |- _ => apply bool_decide_eq_true_1 in H
  | H : bool_decide _ = false |- _ => apply bool_decide_eq_false_1 in H
  end.

(** Case analysis on the scrutinee of an innermost match or conditional of a
    hypothesis. *)
Ltac case_in H :=
  match type of H with
  | context [match ?x with _ => _ end] =>
      lazymatch x with
      | context [match _ with _ => _ end] => fail
      | _ => let E := fresh "E" in destruct x eqn:E
      end
  end.

(** ** Sums of currency values

    [Nsum] adds up a list, [msum] the image of a finite map.  They are what
    the loops of the source that accumulate with [Currency.Add] compute. *)

Definition Nsum (l : list N) : N := foldr N.add 0%N l.

Definition sum_of {A} (f : A -> N) (l : list A) : N := Nsum (f <$> l).

Definition msum {K} `{Countable K} {V} (f : V -> N) (m : gmap K V) : N :=
  map_fold (fun _ v acc => (f v + acc)%N) 0%N m.

Section sums.
Context {A : Type} (f : A -> N).
Local Open Scope N_scope.

Lemma sum_of_nil : sum_of f [] = 0.
Proof. done. Qed.

Lemma sum_of_cons x l : sum_of f (x :: l) = f x + sum_of f l.
Proof. done. Qed.

Lemma sum_of_app l1 l2 : sum_of f (l1 ++ l2) = sum_of f l1 + sum_of f l2.
Proof.
  induction l1 as [|x l1 IH]; simpl; [done|].
  rewrite !sum_of_cons, IH. lia.
Qed.

Lemma sum_of_Permutation l1 l2 : l1 ≡ₚ l2 -> sum_of f l1 = sum_of f l2.
Proof.
  induction 1; rewrite ?sum_of_cons in *; lia || congruence.
Qed.

Lemma fold_left_add_acc l acc :
  fold_left (fun s x => s + f x) l acc = acc + sum_of f l.
Proof.
  revert acc. induction l as [|x l IH]; intros acc; simpl.
  - rewrite sum_of_nil. lia.
  - rewrite IH, sum_of_cons. lia.
Qed.
End sums.

(** Sizes are summed as [int]s. *)
Definition Zsum (l : list Z) : Z := foldr Z.add 0 l.

Lemma Zsum_cons x l : Zsum (x :: l) = x + Zsum l.
Proof. done. Qed.
Lemma Zsum_app l1 l2 : Zsum (l1 ++ l2) = Zsum l1 + Zsum l2.
Proof. induction l1 as [|x l1 IH]; [done|]. cbn [app]. rewrite !Zsum_cons. lia. Qed.
Lemma Zsum_Permutation l1 l2 : l1 ≡ₚ l2 -> Zsum l1 = Zsum l2.
Proof. induction 1; rewrite ?Zsum_cons in *; lia || congruence. Qed.
Lemma Zsum_nonneg l : Forall (fun x => 0 <= x) l -> 0 <= Zsum l.
Proof. induction 1; rewrite ?Zsum_cons; [done|lia]. Qed.
Lemma Zsum_elem x l : Forall (fun x => 0 <= x) l -> x ∈ l -> x <= Zsum l.
Proof.
  induction 1 as [|y l Hy Hl IH]; [by intros ?%elem_of_nil|]. rewrite Zsum_cons. pose proof (Zsum_nonneg _ Hl).
  intros [->|Hx]%elem_of_cons; [lia|]. specialize (IH Hx). lia.
Qed.
(** A sum that stays small does not wrap around. *)
Lemma fold_i64 {A} (f : A -> Z) l : forall n, Forall (fun x => 0 <= f x) l -> 0 <= n ->
  n + Zsum (f <$> l) < 2 ^ 63 -> fold_left (fun n x => i64 (n + f x)) l n = n + Zsum (f <$> l).
Proof.
  induction l as [|x l IH]; intros n Hl Hn Hs; cbn [fold_left fmap list_fmap] in *; [cbn; lia|].
  rewrite Zsum_cons in *. inversion Hl as [|? ? Hx Hl']; subst.
  assert (0 <= Zsum (f <$> l)) by (apply Zsum_nonneg; by apply Forall_fmap).
  rewrite i64_small by lia. rewrite IH by (done || lia). lia.
Qed.

Lemma sum_of_ext {A} (f g : A -> N) l :
  (forall x, x ∈ l -> f x = g x) -> sum_of f l = sum_of g l.
Proof.
  induction l as [|x l IH]; intros Hfg; [done|].
  rewrite !sum_of_cons, Hfg, IH; [done| |left].
  intros y Hy. apply Hfg. by right.
Qed.

Section map_sums.
Context {K : Type} `{Countable K} {V : Type}.
Implicit Types (f : V -> N) (m : gmap K V).
Local Open Scope N_scope.

Lemma msum_empty f : msum f (∅ : gmap K V) = 0.
Proof. apply map_fold_empty. Qed.

Lemma msum_insert f m k v :
  m !! k = None -> msum f (<[k:=v]> m) = f v + msum f m.
Proof.
  intros Hk. unfold msum. rewrite map_fold_insert_L; [done| |done]. lia.
Qed.

Lemma msum_delete f m k v :
  m !! k = Some v -> msum f m = f v + msum f (delete k m).
Proof.
  intros Hk. rewrite <- (insert_delete_id m k v Hk) at 1.
  by apply msum_insert, lookup_delete_eq.
Qed.

Lemma msum_update f m k v v' :
  m !! k = Some v -> msum f (<[k:=v']> m) + f v = f v' + msum f m.
Proof.
  intros Hk. rewrite (msum_delete f m k v Hk), <- insert_delete_eq.
  rewrite msum_insert by apply lookup_delete_eq. lia.
Qed.

Lemma msum_map_to_list f m :
  msum f m = sum_of f (snd <$> map_to_list m).
Proof.
  induction m as [|k v m Hk IH] using map_ind.
  - by rewrite msum_empty, map_to_list_empty.
  - rewrite msum_insert, IH by done.
    rewrite (sum_of_Permutation _ (snd <$> map_to_list (<[k:=v]> m))
               (snd <$> ((k, v) :: map_to_list m)))
      by (by apply fmap_Permutation, map_to_list_insert).
    done.
Qed.

Lemma msum_lookup_le f m k v : m !! k = Some v -> f v <= msum f m.
Proof. intros Hk. rewrite (msum_delete f m k v Hk). lia. Qed.

Lemma msum_ext f g m :
  (forall k v, m !! k = Some v -> f v = g v) -> msum f m = msum g m.
Proof.
  induction m as [|k v m Hk IH] using map_ind; intros Hfg.
  - by rewrite !msum_empty.
  - rewrite !msum_insert by done. f_equal.
    + apply (Hfg k). by rewrite lookup_insert_eq.
    + apply IH. intros k' v' Hk'. apply (Hfg k').
      rewrite lookup_insert_ne; [done|]. intros ->. congruence.
Qed.

Lemma msum_add f g m : msum (fun v => f v + g v) m = msum f m + msum g m.
Proof.
  induction m as [|k v m Hk IH] using map_ind.
  - by rewrite !msum_empty.
  - rewrite !msum_insert by done. lia.
Qed.

Lemma msum_mul c f m : msum (fun v => c * f v) m = c * msum f m.
Proof.
  induction m as [|k v m Hk IH] using map_ind.
  - rewrite !msum_empty. lia.
  - rewrite !msum_insert by done. lia.
Qed.
End map_sums.

Create Rewrite HintDb sums.
#[export] Hint Rewrite @sum_of_nil @sum_of_cons @sum_of_app @msum_empty : sums.

(** ** Lists *)

(** Removing the first occurrence of an element. *)
Fixpoint remove_first {A} `{EqDecision A} (x : A) (l : list A) : list A :=
  match l with
  | [] => []
  | y :: l => if bool_decide (y = x) then l else y :: remove_first x l
  end.

Lemma remove_first_sublist {A} `{EqDecision A} (x : A) l : remove_first x l `sublist_of` l.
Proof.
  induction l as [|y l IH]; cbn [remove_first]; [done|].
  case_bool_decide; [by apply sublist_cons|by apply sublist_skip].
Qed.

(** ** Errors

    The error values the modelled code returns, under the source's names. *)

(** modules/wallet.go, modules/wallet; errors without a name of their own are
    named after what they say. *)
Inductive wallet_error :=
| ErrIncompleteTransactions | ErrLockedWallet | ErrLowBalance
| errBuilderAlreadySigned | errDustOutput | errOutputTimelock | errSpendHeightTooHigh
| errReplaceIndexOutOfBounds | errDefragNotNeeded | errNoKey | errOutOfBounds
| errMaxKeys | errEmptyBucket | errDecode | errRollbackRequested | errCannotSign
| errNotSynced | errNoUnlockConditions | errSignatureNotPresent | errIDNotPresent
| errNoSigningKey | errEmptyToSign.

#[export] Instance wallet_error_eq_dec : EqDecision wallet_error.
Proof. solve_decision. Defined.

Inductive error :=
(* types/currency.go, types/filecontracts.go *)
| ErrNegativeCurrency | ErrUint64Overflow
| ErrRevisionCostTooHigh | ErrMissingVoidOutput | ErrRevisionNotIncremented
(* types/signatures.go *)
| ErrEntropyKey | ErrFrivolousSignature | ErrInvalidPubKeyIndex
| ErrInvalidUnlockHashChecksum | ErrMissingSignatures | ErrPrematureSignature
| ErrPublicKeyOveruse | ErrSortedUniqueViolation | ErrUnlockHashWrongLen
| ErrWholeTransactionViolation
(* types/validtransaction.go *)
| ErrDoubleSpend | ErrFileContractOutputSumViolation
| ErrFileContractWindowEndViolation | ErrFileContractWindowStartViolation
| ErrNonZeroClaimStart | ErrStorageProofWithOutputs | ErrTimelockNotSatisfied
| ErrTransactionTooLarge | ErrZeroMinerFee | ErrZeroOutput
(* crypto/signatures.go *)
| ErrInvalidSignature
(* modules/consensus *)
| errAlteredRevisionPayouts | errInvalidStorageProof | errLateRevision
| errLowRevisionNumber | errMissingSiacoinOutput
| errSiacoinInputOutputMismatch | errSiafundInputOutputMismatch
| errUnfinishedFileContract | errUnrecognizedFileContractID
| errWrongUnlockConditions | errNilItem
| ErrBadMinerPayouts | ErrEarlyTimestamp | ErrExtremeFutureTimestamp
| ErrFutureTimestamp | ErrLargeBlock | ErrBlockUnsolved | errNonceRequirements
| errDoSBlock | errNoBlockMap | errNonLinearChain | errOrphan | ErrBlockKnown
| ErrNonExtendingBlock | errMoreRevertedThanApplied | errWrongGenesis
(* modules/renter/hostdb/hosttree *)
| ErrHostExists | ErrNoSuchHost
(* modules/transactionpool.go, modules/transactionpool *)
| errEmptySet | errLowMinerFees | ErrDuplicateTransactionSet | ErrInvalidArbPrefix
| ErrLargeTransaction | ErrLargeTransactionSet | errUnrecognizedKeyType
(* modules/miner *)
| errLateHeader
| WalletError (e : wallet_error)
| ErrStopped | ErrInvalidConsensusChangeID | errNoRecentConsensusChangeID
| ConsensusConflict (msg : string) (e : error).

#[export] Instance error_eq_dec : EqDecision error.
Proof. solve_decision. Defined.

(** A Go function that only returns an [error]: [None] is [nil].  [for_err]
    is a loop that returns the first error of its body, [err_seq] two checks
    one after the other. *)

Definition err := option error.

Definition err_seq (e1 e2 : err) : err :=
  match e1 with Some e => Some e | None => e2 end.

Notation "e1 ;;? e2" := (err_seq e1 e2) (at level 60, right associativity).

Definition err_if (b : bool) (e : error) : err := if b then Some e else None.

Fixpoint for_err {A} (body : A -> err) (l : list A) : err :=
  match l with
  | [] => None
  | x :: l => body x ;;? for_err body l
  end.

Lemma err_seq_None e1 e2 : (e1 ;;? e2) = None <-> e1 = None /\ e2 = None.
Proof. destruct e1; simpl; naive_solver. Qed.

Lemma err_if_None b e : err_if b e = None <-> b = false.
Proof. destruct b; simpl; naive_solver. Qed.

Lemma for_err_None {A} (body : A -> err) l :
  for_err body l = None <-> forall x, x ∈ l -> body x = None.
Proof.
  induction l as [|x l IH]; simpl.
  - split; [|done]. intros _ x Hx. by apply not_elem_of_nil in Hx.
  - rewrite err_seq_None, IH. setoid_rewrite elem_of_cons. naive_solver.
Qed.

(** ** Stateful computations that can fail or panic

    [M S A] is a Go function on a state [S] that returns an [A], returns an
    error with the state it leaves behind, or panics. *)

Inductive outcome (S A : Type) :=
| Ret (a : A) (s : S)
| Err (e : error) (s : S)
| Panic (msg : string).
Arguments Ret {S A} a s.
Arguments Err {S A} e s.
Arguments Panic {S A} msg.

Definition M (S A : Type) : Type := S -> outcome S A.

#[export] Instance M_ret S : MRet (M S) := fun A a s => Ret a s.
#[export] Instance M_bind S : MBind (M S) := fun A B f m s =>
  match m s with
  | Ret a s' => f a s'
  | Err e s' => Err e s'
  | Panic msg => Panic msg
  end.

Definition get {S} : M S S := fun s => Ret s s.
Definition gets {S A} (f : S -> A) : M S A := fun s => Ret (f s) s.
Definition modify {S} (f : S -> S) : M S () := fun s => Ret () (f s).
Definition throw {S A} (e : error) : M S A := fun s => Err e s.
Definition panic {S A} (msg : string) : M S A := fun _ => Panic msg.

(** [if cond { panic(msg) }] and [if err != nil { return err }]. *)
Definition panic_if {S} (b : bool) (msg : string) : M S () :=
  if b then panic msg else mret ().
Definition check {S} (e : err) : M S () :=
  match e with Some e => throw e | None => mret () end.

(** [for _, x := range l { body }]; [for_fold] threads an accumulator and the
    index of the element. *)
Fixpoint for_each {S A} (body : A -> M S ()) (l : list A) : M S () :=
  match l with
  | [] => mret ()
  | x :: l => body x ≫= fun _ => for_each body l
  end.

Fixpoint for_fold {S A B} (body : Z -> A -> B -> M S B) (i : Z) (l : list A) (b : B)
  : M S B :=
  match l with
  | [] => mret b
  | x :: l => body i x b ≫= fun b' => for_fold body (i + 1) l b'
  end.

Section outcomes.
Context {S : Type}.

Lemma bind_Ret {A B} (m : M S A) (f : A -> M S B) s b s' :
  (m ≫= f) s = Ret b s' <-> exists a s1, m s = Ret a s1 /\ f a s1 = Ret b s'.
Proof.
  unfold mbind, M_bind. destruct (m s); split; naive_solver.
Qed.

Lemma bind_Err {A B} (m : M S A) (f : A -> M S B) s e s' :
  (m ≫= f) s = Err e s' <->
  m s = Err e s' \/ exists a s1, m s = Ret a s1 /\ f a s1 = Err e s'.
Proof.
  unfold mbind, M_bind. destruct (m s); split; naive_solver.
Qed.

Lemma panic_if_Ret b msg s a s' :
  @panic_if S b msg s = Ret a s' <-> b = false /\ s' = s.
Proof. destruct b, a; unfold panic_if, panic, mret, M_ret; naive_solver. Qed.

Lemma check_Ret e s a s' : @check S e s = Ret a s' <-> e = None /\ s' = s.
Proof. destruct e, a; unfold check, throw, mret, M_ret; naive_solver. Qed.

Lemma check_Err e s e' s' : @check S e s = Err e' s' <-> e = Some e' /\ s' = s.
Proof. destruct e; unfold check, throw, mret, M_ret; naive_solver. Qed.

Lemma for_fold_cons {A B} (body : Z -> A -> B -> M S B) i x l b s :
  for_fold body i (x :: l) b s =
  match body i x b s with
  | Ret b' s' => for_fold body (i + 1) l b' s'
  | Err e s' => Err e s'
  | Panic msg => Panic msg
  end.
Proof. done. Qed.

Lemma for_each_app {A} (body : A -> M S ()) l1 l2 s :
  for_each body (l1 ++ l2) s =
  match for_each body l1 s with
  | Ret _ s' => for_each body l2 s'
  | Err e s' => Err e s'
  | Panic msg => Panic msg
  end.
Proof.
  revert s. induction l1 as [|x l1 IH]; intros s; [done|].
  cbn [for_each app]. unfold mbind, M_bind. destruct (body x s); [apply IH|done..].
Qed.

(** A loop body that preserves [P] makes a loop that preserves [P]. *)
Lemma for_each_inv {A} (body : A -> M S ()) (P : S -> Prop) l s s' :
  (forall x s s', x ∈ l -> P s -> body x s = Ret () s' -> P s') ->
  P s -> for_each body l s = Ret () s' -> P s'.
Proof.
  revert s. induction l as [|x l IH]; intros s Hbody HP; simpl.
  - unfold mret, M_ret. naive_solver.
  - rewrite bind_Ret. intros ([] & s1 & H1 & H2).
    eapply IH; [| |exact H2].
    + intros y ? ? Hy. apply Hbody. by right.
    + eapply Hbody; [left|done|done].
Qed.
End outcomes.

(** Turns a successful run of a sequence of operations into the runs of its
    parts. *)
Ltac inv_run :=
  repeat match goal with
  | H : (_ ≫= _) _ = Ret _ _ |- _ =>
      apply bind_Ret in H; destruct H as (? & ? & ? & ?)
  | H : panic_if _ _ _ = Ret _ _ |- _ =>
      apply panic_if_Ret in H; destruct H as [? ->]
  | H : check _ _ = Ret _ _ |- _ => apply check_Ret in H; destruct H as [? ->]
  | H : mret _ _ = Ret _ _ |- _ => first [injection H as <- <- | injection H as <-]
  | H : get _ = Ret _ _ |- _ => injection H as <- <-
  | H : gets _ _ = Ret _ _ |- _ => injection H as <- <-
  | H : modify _ _ = Ret _ _ |- _ => first [injection H as <- <- | injection H as <-]
  | H : throw _ _ = Ret _ _ |- _ => discriminate H
  | H : panic _ _ = Ret _ _ |- _ => discriminate H
  | H : Err _ _ = Ret _ _ |- _ => discriminate H
  | H : Panic _ = Ret _ _ |- _ => discriminate H
  | x : () |- _ => destruct x
  end.
