(* ===== verification/Bytes.v ===== *)
(** * Bytes, byte arrays and the integers they spell

    Go's [byte], [[n]byte] and [[]byte], with the conversions of [math/big],
    [encoding/binary] and [bytes] the code relies on.  An array [[n]byte] is a
    [vec byte n], a slice a [list byte]. *)

From S2P Require Import Prelude.
From Stdlib Require Strings.Byte.

Open Scope Z_scope.

Abbreviation byte := Byte.byte.
Abbreviation bytes := (list byte).

#[export] Instance byte_eq_dec : EqDecision byte := Byte.byte_eq_dec.

#[export] Program Instance byte_countable : Countable byte :=
  inj_countable Byte.to_N Byte.of_N _.
Next Obligation. intros b. apply Byte.of_to_N. Qed.

(** ** One byte *)

Definition bz (b : byte) : Z := Z.of_N (Byte.to_N b).

Definition zb (z : Z) : byte :=
  match Byte.of_N (Z.to_N (z mod 256)) with Some b => b | None => Byte.x00 end.

Lemma bz_range b : 0 <= bz b < 256.
Proof. unfold bz. pose proof (Byte.to_N_bounded b). lia. Qed.

Lemma zb_bz b : zb (bz b) = b.
Proof.
  unfold zb. rewrite Z.mod_small by apply bz_range.
  unfold bz. by rewrite N2Z.id, Byte.of_to_N.
Qed.

Lemma bz_zb z : bz (zb z) = z mod 256.
Proof.
  pose proof (Z.mod_pos_bound z 256 ltac:(lia)) as Hz.
  unfold zb. destruct (Byte.of_N _) as [b|] eqn:E.
  - apply Byte.to_of_N in E. unfold bz. rewrite E. lia.
  - apply Byte.of_N_None_iff in E. lia.
Qed.

Lemma bz_inj b1 b2 : bz b1 = bz b2 -> b1 = b2.
Proof. intros E. by rewrite <- (zb_bz b1), <- (zb_bz b2), E. Qed.

(** ** Big-endian integers: [big.Int.SetBytes] and [big.Int.Bytes] *)

Definition be_val (l : bytes) : Z :=
  fold_left (fun acc b => acc * 256 + bz b) l 0.

(** The [n] low-order bytes of [z], most significant first. *)
Fixpoint be_bytes (n : nat) (z : Z) : bytes :=
  match n with
  | O => []
  | S n => be_bytes n (z / 256) ++ [zb z]
  end.

Lemma be_val_nil : be_val [] = 0.
Proof. done. Qed.

Lemma be_val_snoc l b : be_val (l ++ [b]) = be_val l * 256 + bz b.
Proof. unfold be_val. by rewrite fold_left_app. Qed.

Lemma be_val_app l1 l2 :
  be_val (l1 ++ l2) = be_val l1 * 256 ^ Z.of_nat (length l2) + be_val l2.
Proof.
  induction l2 as [|b l2 IH] using rev_ind.
  - rewrite app_nil_r. cbn. lia.
  - rewrite (assoc_L (++)), !be_val_snoc, IH, length_app. simpl length.
    rewrite Nat2Z.inj_add, Z.pow_add_r by lia.
    replace (256 ^ Z.of_nat 1) with 256 by done. ring.
Qed.

Lemma be_val_cons b l :
  be_val (b :: l) = bz b * 256 ^ Z.of_nat (length l) + be_val l.
Proof.
  change (b :: l) with ([b] ++ l). by rewrite be_val_app.
Qed.

Lemma be_val_range l : 0 <= be_val l < 256 ^ Z.of_nat (length l).
Proof.
  induction l as [|b l IH] using rev_ind; [done|].
  rewrite be_val_snoc, length_app. simpl length.
  rewrite Nat2Z.inj_add, Z.pow_add_r by lia.
  replace (256 ^ Z.of_nat 1) with 256 by done.
  pose proof (bz_range b). lia.
Qed.

Lemma length_be_bytes n z : length (be_bytes n z) = n.
Proof.
  revert z. induction n as [|n IH]; intros z; simpl; [done|].
  rewrite length_app, IH. simpl. lia.
Qed.

Lemma be_val_be_bytes n z : be_val (be_bytes n z) = z mod 256 ^ Z.of_nat n.
Proof.
  revert z. induction n as [|n IH]; intros z; cbn [be_bytes].
  - change (256 ^ Z.of_nat 0) with 1. by rewrite Z.mod_1_r.
  - rewrite be_val_snoc, IH, bz_zb, Nat2Z.inj_succ, Z.pow_succ_r by lia.
    rewrite Z.rem_mul_r by (try apply Z.pow_nonzero; lia). lia.
Qed.

Lemma be_val_inj l1 l2 :
  length l1 = length l2 -> be_val l1 = be_val l2 -> l1 = l2.
Proof.
  revert l2. induction l1 as [|b1 l1 IH] using rev_ind; intros l2 Hlen Hval.
  - by destruct l2.
  - destruct l2 as [|b2 l2 _] using rev_ind.
    { rewrite length_app in Hlen. simpl in Hlen. lia. }
    rewrite !length_app in Hlen. simpl in Hlen.
    rewrite !be_val_snoc in Hval.
    pose proof (bz_range b1). pose proof (bz_range b2).
    assert (bz b1 = bz b2 /\ be_val l1 = be_val l2) as [Hb Hl] by lia.
    by rewrite (bz_inj _ _ Hb), (IH l2) by (lia || done).
Qed.

Lemma be_bytes_be_val l : be_bytes (length l) (be_val l) = l.
Proof.
  apply be_val_inj; [apply length_be_bytes|].
  rewrite be_val_be_bytes. apply Z.mod_small, be_val_range.
Qed.

(** ** Little-endian integers: [encoding/binary.LittleEndian] *)

Fixpoint le_bytes (n : nat) (z : Z) : bytes :=
  match n with
  | O => []
  | S n => zb z :: le_bytes n (z / 256)
  end.

Fixpoint le_val (l : bytes) : Z :=
  match l with
  | [] => 0
  | b :: l => bz b + 256 * le_val l
  end.

Lemma length_le_bytes n z : length (le_bytes n z) = n.
Proof. revert z. induction n; intros z; simpl; auto. Qed.

Lemma le_val_le_bytes n z : le_val (le_bytes n z) = z mod 256 ^ Z.of_nat n.
Proof.
  revert z. induction n as [|n IH]; intros z; cbn [le_bytes le_val].
  - change (256 ^ Z.of_nat 0) with 1. by rewrite Z.mod_1_r.
  - rewrite IH, bz_zb, Nat2Z.inj_succ, Z.pow_succ_r by lia.
    rewrite Z.rem_mul_r by (try apply Z.pow_nonzero; lia). lia.
Qed.

Lemma le_val_range l : 0 <= le_val l < 256 ^ Z.of_nat (length l).
Proof.
  induction l as [|b l IH]; [done|]. cbn [le_val length].
  rewrite Nat2Z.inj_succ, Z.pow_succ_r by lia. pose proof (bz_range b). lia.
Qed.

(** ** [bytes.Compare] *)

Fixpoint bytes_Compare (a b : bytes) : comparison :=
  match a, b with
  | [], [] => Eq
  | [], _ :: _ => Lt
  | _ :: _, [] => Gt
  | x :: a, y :: b =>
      match bz x ?= bz y with Eq => bytes_Compare a b | c => c end
  end.

Lemma bytes_Compare_be_val a b :
  length a = length b -> bytes_Compare a b = (be_val a ?= be_val b).
Proof.
  revert b. induction a as [|x a IH]; intros [|y b] Hlen; try done.
  injection Hlen as Hlen. cbn [bytes_Compare]. rewrite (IH b Hlen).
  rewrite !be_val_cons, Hlen.
  pose proof (be_val_range a) as Ha. pose proof (be_val_range b) as Hb.
  rewrite Hlen in Ha.
  set (k := 256 ^ Z.of_nat (length b)) in *.
  destruct (Z.compare_spec (bz x) (bz y)) as [E|E|E]; symmetry.
  - rewrite E. destruct (Z.compare_spec (be_val a) (be_val b)).
    + by apply Z.compare_eq_iff; f_equal.
    + apply Z.compare_lt_iff. lia.
    + apply Z.compare_gt_iff. lia.
  - apply Z.compare_lt_iff. nia.
  - apply Z.compare_gt_iff. nia.
Qed.

Definition bytes_le (a b : bytes) : Prop := bytes_Compare a b ≠ Gt.

#[export] Instance bytes_le_dec : RelDecision bytes_le.
Proof. intros a b. unfold bytes_le. apply _. Defined.

(** ** Arrays *)

Abbreviation array n := (vec byte n).

(** The zero value of an array. *)
Definition zero_array (n : nat) : array n := vreplicate n Byte.x00.

(** [var a [n]byte; copy(a[:], l)]: as many bytes as fit, zeroes behind. *)
Fixpoint copy_array (n : nat) (l : bytes) : array n :=
  match n with
  | O => vnil
  | S n =>
      match l with
      | [] => vcons Byte.x00 (copy_array n [])
      | b :: l => vcons b (copy_array n l)
      end
  end.

Lemma copy_array_to_list n l :
  length l = n -> vec_to_list (copy_array n l) = l.
Proof.
  revert n. induction l as [|b l IH]; intros [|n] Hlen; try done.
  simpl. injection Hlen as Hlen. by rewrite IH.
Qed.

Lemma copy_array_vec n (v : array n) : copy_array n (vec_to_list v) = v.
Proof.
  apply vec_to_list_inj2, copy_array_to_list, length_vec_to_list.
Qed.

(** The integer an array spells, most significant byte first. *)
Definition array_int {n} (v : array n) : Z := be_val (vec_to_list v).

Definition int_array (n : nat) (z : Z) : array n := copy_array n (be_bytes n z).

Lemma array_int_range {n} (v : array n) : 0 <= array_int v < 256 ^ Z.of_nat n.
Proof.
  unfold array_int. rewrite <- (length_vec_to_list v) at 3.
  apply be_val_range.
Qed.

Lemma array_int_array n z :
  0 <= z < 256 ^ Z.of_nat n -> array_int (int_array n z) = z.
Proof.
  intros Hz. unfold array_int, int_array.
  rewrite copy_array_to_list by apply length_be_bytes.
  rewrite be_val_be_bytes. by apply Z.mod_small.
Qed.

Lemma array_int_inj {n} (v w : array n) : array_int v = array_int w -> v = w.
Proof.
  intros E. apply vec_to_list_inj2, be_val_inj; [|done].
  by rewrite !length_vec_to_list.
Qed.

(** Arrays as keys of finite maps, by their integer. *)
#[export] Program Instance array_countable n : Countable (array n) := {|
  encode v := Z.to_pos (array_int v + 1);
  decode p := Some (int_array n (Zpos p - 1))
|}.
Next Obligation.
  intros n v. cbn. f_equal. apply array_int_inj.
  pose proof (array_int_range v).
  rewrite Z2Pos.id by lia. rewrite array_int_array by lia. lia.
Qed.
