(* ===== verification/Interfaces.v ===== *)
(** * What the modelled code takes from packages outside the repository

    The hash function (golang.org/x/crypto/blake2b), the Merkle tree
    (gitlab.com/scpcorp/merkletree), ed25519 and the wire encoding
    (gitlab.com/NebulousLabs/encoding) are not part of the repository.  They
    enter as type classes: the operations the code calls, and, where a theorem
    needs one, their documented behaviour as a class of laws.  The encoding's
    behaviour is documented in doc/Encoding.md; [Instances.v] gives concrete
    functions that satisfy the laws. *)

From S2P Require Import Prelude Bytes.

Open Scope Z_scope.

(** crypto.Hash: [[32]byte]. *)
Abbreviation Hash := (array 32).

Definition zero_hash : Hash := zero_array 32.

(** ** Cryptography *)

Class Crypto := {
  (* blake2b.Sum256 *)
  blake2b : bytes -> Hash;
  (* merkletree.New, one Push per leaf, Root *)
  merkle_root : list bytes -> Hash;
  (* merkletree.LeafSum *)
  merkle_leaf_sum : bytes -> Hash;
  (* merkletree.VerifyProof(root, proofSet, proofIndex, numLeaves) *)
  merkle_verify : Hash -> list Hash -> Z -> Z -> bool;
  (* ed25519.Verify(publicKey, message, sig) *)
  ed25519_verify : array 32 -> bytes -> array 64 -> bool
}.

(** crypto.VerifyHash. *)
Definition VerifyHash `{Crypto} (data : Hash) (pk : array 32) (sig : array 64) : err :=
  if ed25519_verify pk (vec_to_list data) sig then None else Some ErrInvalidSignature.

(** crypto.VerifySegment: the leaf sum of the base in front of the hash set. *)
Definition VerifySegment `{Crypto} (base : bytes) (hashSet : list Hash)
    (numSegments proofIndex : Z) (root : Hash) : bool :=
  merkle_verify root (merkle_leaf_sum base :: hashSet) proofIndex numSegments.

(** crypto.SegmentSize. *)
Definition SegmentSize : Z := 64.

(** crypto.CalculateLeaves, on a [uint64]. *)
Definition CalculateLeaves (dataSize : Z) : Z :=
  let numSegments := dataSize / SegmentSize in
  if (dataSize =? 0) || negb (dataSize mod SegmentSize =? 0)
  then u64 (numSegments + 1) else numSegments.

(** ** The encoder *)

Class SiaEncoding := {
  WriteUint64 : Z -> bytes;
  WriteInt : Z -> bytes;
  WriteBool : bool -> bytes;
  WritePrefixedBytes : bytes -> bytes;
  DecUint64 : bytes -> Z
}.

(** doc/Encoding.md: integers are little-endian and always take 8 bytes,
    booleans take one byte, zero or one, and variable-length values carry an
    8-byte length prefix. *)
Class SiaEncodingLaws (E : SiaEncoding) : Prop := {
  WriteUint64_le z : is_u64 z -> WriteUint64 z = le_bytes 8 z;
  WriteInt_uint64 n : 0 <= n < 2 ^ 63 -> WriteInt n = WriteUint64 n;
  WriteBool_byte b : WriteBool b = [if b then Byte.x01 else Byte.x00];
  WritePrefixedBytes_app l :
    Z.of_nat (length l) < 2 ^ 63 ->
    WritePrefixedBytes l = WriteInt (Z.of_nat (length l)) ++ l;
  DecUint64_WriteUint64 z : is_u64 z -> DecUint64 (WriteUint64 z) = z
}.

Section encoding_laws.
Context {E : SiaEncoding} {EL : SiaEncodingLaws E}.

Lemma length_WriteUint64 z : is_u64 z -> length (WriteUint64 z) = 8%nat.
Proof. intros Hz. rewrite WriteUint64_le by done. apply length_le_bytes. Qed.

Lemma length_WriteInt n : 0 <= n < 2 ^ 63 -> length (WriteInt n) = 8%nat.
Proof.
  intros Hn. rewrite WriteInt_uint64 by done.
  apply length_WriteUint64. unfold is_u64. lia.
Qed.

Lemma length_WriteBool b : length (WriteBool b) = 1%nat.
Proof. by rewrite WriteBool_byte. Qed.

Lemma length_WritePrefixedBytes l :
  Z.of_nat (length l) < 2 ^ 63 ->
  length (WritePrefixedBytes l) = (8 + length l)%nat.
Proof.
  intros Hl. rewrite WritePrefixedBytes_app by done.
  rewrite length_app, length_WriteInt by lia. done.
Qed.
End encoding_laws.

(** ** The decoder

    A [Decoder] is a reader with a sticky error and an allocation limit.  Its
    state is abstract; the laws speak of a decoder [d] that has met no error,
    has the bytes [bs] in front of it and may still account for [a] bytes of
    allocation: [at_input d bs a]. *)

Class SiaDecoder := {
  dec : Type;
  NewDecoder : bytes -> Z -> dec;
  NextUint64 : dec -> Z * dec;
  NextPrefix : Z -> dec -> Z * dec;
  ReadFull : forall n : nat, dec -> array n * dec;
  ReadPrefixedBytes : dec -> bytes * dec;
  dec_Err : dec -> bool
}.

Class SiaDecoderLaws (E : SiaEncoding) (D : SiaDecoder) := {
  at_input : dec -> bytes -> Z -> Prop;
  at_input_new bs limit : 0 <= limit -> at_input (NewDecoder bs limit) bs limit;
  at_input_Err d bs a : at_input d bs a -> dec_Err d = false;
  NextUint64_at d z bs a :
    is_u64 z -> 0 <= a -> at_input d (WriteUint64 z ++ bs) (8 + a) ->
    (NextUint64 d).1 = z /\ at_input (NextUint64 d).2 bs a;
  NextPrefix_at elemSize d n bs a :
    0 <= n < 2 ^ 31 -> 0 <= elemSize -> 0 <= a ->
    at_input d (WriteInt n ++ bs) (8 + n * elemSize + a) ->
    (NextPrefix elemSize d).1 = n /\ at_input (NextPrefix elemSize d).2 bs a;
  ReadFull_at n d (v : array n) bs a :
    0 <= a -> at_input d (vec_to_list v ++ bs) (Z.of_nat n + a) ->
    (ReadFull n d).1 = v /\ at_input (ReadFull n d).2 bs a;
  ReadPrefixedBytes_at d l bs a :
    Z.of_nat (length l) < 2 ^ 31 -> 0 <= a ->
    at_input d (WritePrefixedBytes l ++ bs) (8 + 2 * Z.of_nat (length l) + a) ->
    (ReadPrefixedBytes d).1 = l /\ at_input (ReadPrefixedBytes d).2 bs a
}.

(** Decoding functions thread the decoder. *)
Definition Dec {D : SiaDecoder} (A : Type) : Type := dec -> A * dec.

#[export] Instance Dec_ret {D : SiaDecoder} : MRet Dec := fun A a d => (a, d).
#[export] Instance Dec_bind {D : SiaDecoder} : MBind Dec := fun A B f m d =>
  let '(a, d') := m d in f a d'.

(** [make([]T, n)] and a loop that decodes each element in place. *)
Fixpoint repeat_dec {D : SiaDecoder} {A} (n : nat) (m : Dec A) : Dec (list A) :=
  match n with
  | O => mret []
  | S n => x ← m; l ← repeat_dec n m; mret (x :: l)
  end.

Definition next_slice {D : SiaDecoder} {A} (elemSize : Z) (m : Dec A) : Dec (list A) :=
  n ← NextPrefix elemSize; repeat_dec (Z.to_nat n) m.
