(* ===== verification/Currency.v ===== *)
(** * types/currency.go

    A [Currency] wraps a [big.Int] that is never negative; it is an [N] here.
    [build.Critical] only reports in a release build, so the operations give
    the value the release build returns; [Sub_critical] and the like say when
    a debug build would stop. *)

From S2P Require Import Prelude.

Open Scope N_scope.

Abbreviation Currency := N.

Module Currency.

(** The zero value and [ZeroCurrency]. *)
Definition ZeroCurrency : Currency := 0.

(** A negative [big.Int] leaves the zero value. *)
Definition NewCurrency (b : Z) : Currency :=
  if (b <? 0)%Z then ZeroCurrency else Z.to_N b.

Definition NewCurrency64 (x : Z) : Currency := Z.to_N x.

Definition Add (x y : Currency) : Currency := x + y.
Definition Add64 (x : Currency) (y : Z) : Currency := x + Z.to_N y.
Definition Big (x : Currency) : Z := Z.of_N x.

(** -1, 0 or +1. *)
Definition Cmp (x y : Currency) : Z :=
  match (x ?= y)%N with Lt => (-1)%Z | Eq => 0%Z | Gt => 1%Z end.
Definition Cmp64 (x : Currency) (y : Z) : Z := Cmp x (Z.to_N y).

(** Go panics on a zero divisor; every divisor in the modelled code is a
    nonzero constant or guarded by the caller. *)
Definition Div (x y : Currency) : Currency := x / y.
Definition Div64 (x : Currency) (y : Z) : Currency := x / Z.to_N y.

Definition Equals (x y : Currency) : bool := (Cmp x y =? 0)%Z.
Definition Equals64 (x : Currency) (y : Z) : bool := (Cmp64 x y =? 0)%Z.
Definition Mul (x y : Currency) : Currency := x * y.
Definition Mul64 (x : Currency) (y : Z) : Currency := x * Z.to_N y.

(** A non-negative [float64] is [m * 2^e] for its significand and exponent. *)
Definition float64 : Type := Z * Z.

(** [MulFloat]: the exact rational product, rounded down. *)
Definition MulFloat (x : Currency) (y : float64) : Currency :=
  let '(m, e) := y in
  if (m <? 0)%Z then ZeroCurrency
  else if (0 <=? e)%Z then Z.to_N (Z.of_N x * (m * 2 ^ e))
  else Z.to_N (Z.of_N x * m / 2 ^ (- e)).

(** [MulRat] by the rational [num / denom], [denom] positive. *)
Definition MulRat (x : Currency) (num denom : Z) : Currency :=
  if (num <? 0)%Z then ZeroCurrency else Z.to_N (Z.of_N x * num / denom).

(** [RoundDown]: the largest multiple of [y] that is at most [x]. *)
Definition RoundDown (x y : Currency) : Currency := x - x mod y.

Definition IsZero (x : Currency) : bool := x <=? 0.

Definition Sub (x y : Currency) : Currency :=
  if (Cmp x y <? 0)%Z then ZeroCurrency else x - y.
Definition Sub_critical (x y : Currency) : bool := (Cmp x y <? 0)%Z.
Definition Sub64 (x : Currency) (y : Z) : Currency :=
  if (Cmp64 x y <? 0)%Z then ZeroCurrency else x - Z.to_N y.

Definition Uint64 (x : Currency) : error + Z :=
  if (0 <? Cmp x (NewCurrency64 MaxUint64))%Z then inl ErrUint64Overflow
  else inr (Z.of_N x mod 2 ^ 64)%Z.

(** [big.Rat.Float64] of the positive rational [a / b], for results in the
    normal range: the 53-bit significand nearest to [a / b], ties to even. *)
Definition rat_Float64 (a b : Z) : float64 :=
  let k := (Z.log2 a - Z.log2 b)%Z in
  let s0 := (52 - k)%Z in
  (* a * 2^s / b, for a shift of either sign *)
  let num s := (a * 2 ^ Z.max 0 s)%Z in
  let den s := (b * 2 ^ Z.max 0 (- s))%Z in
  let s := if (num s0 / den s0 <? 2 ^ 52)%Z then (s0 + 1)%Z else s0 in
  let q := (num s / den s)%Z in
  let r := (num s mod den s)%Z in
  let up := ((den s <? 2 * r) || ((2 * r =? den s) && Z.odd q))%Z in
  ((if up then q + 1 else q)%Z, (- s)%Z).

End Currency.

(** ** Functional behaviour *)

Section currency_laws.
Import Currency.

Lemma Cmp_spec x y :
  (Cmp x y < 0)%Z /\ x < y \/ (Cmp x y = 0)%Z /\ x = y \/ (0 < Cmp x y)%Z /\ y < x.
Proof. unfold Cmp. destruct (N.compare_spec x y); lia. Qed.

Lemma Equals_true x y : Equals x y = true <-> x = y.
Proof.
  unfold Equals. rewrite Z.eqb_eq. pose proof (Cmp_spec x y). lia.
Qed.

Lemma Equals_false x y : Equals x y = false <-> x <> y.
Proof.
  unfold Equals. rewrite Z.eqb_neq. pose proof (Cmp_spec x y). lia.
Qed.

Lemma IsZero_true x : IsZero x = true <-> x = 0.
Proof. unfold IsZero. rewrite N.leb_le. lia. Qed.

Lemma IsZero_false x : IsZero x = false <-> x <> 0.
Proof. unfold IsZero. rewrite N.leb_gt. lia. Qed.

Lemma Cmp_ltb x y : (Cmp x y <? 0)%Z = (x <? y).
Proof.
  pose proof (Cmp_spec x y). destruct (Z.ltb_spec (Cmp x y) 0), (N.ltb_spec x y); lia.
Qed.

(** [Sub] is truncated subtraction. *)
Lemma Sub_sub x y : Sub x y = x - y.
Proof.
  unfold Sub. rewrite Cmp_ltb. destruct (N.ltb_spec x y); unfold ZeroCurrency; lia.
Qed.

(** Where no sanity check would report, [Sub] undoes [Add]. *)
Lemma Sub_add x y : Sub_critical x y = false -> Add (Sub x y) y = x.
Proof.
  unfold Sub_critical. rewrite Cmp_ltb, Sub_sub. intros H%N.ltb_ge.
  unfold Add. lia.
Qed.

Lemma RoundDown_le x y : RoundDown x y <= x.
Proof. apply N.le_sub_l. Qed.

Lemma RoundDown_div x y : y <> 0 -> RoundDown x y = y * (x / y).
Proof.
  intros Hy. unfold RoundDown. pose proof (N.div_mod x y Hy).
  generalize dependent (x mod y). generalize (x / y). intros. lia.
Qed.

(** [RoundDown x y] is the largest multiple of [y] that is at most [x]. *)
Lemma RoundDown_spec x y z :
  y <> 0 -> (y | z) -> z <= x -> (y | RoundDown x y) /\ z <= RoundDown x y <= x.
Proof.
  intros Hy [k ->] Hz. rewrite RoundDown_div by done. split; [|split].
  - exists (x / y). lia.
  - assert (k <= x / y) by (apply N.div_le_lower_bound; lia). nia.
  - apply N.mul_div_le; done.
Qed.

(** A factor of at most one does not raise a value. *)
Lemma MulFloat_le x m e :
  (0 <= m)%Z -> (e <= 0)%Z -> (m <= 2 ^ (- e))%Z -> MulFloat x (m, e) <= x.
Proof.
  intros Hm He Hle. unfold MulFloat.
  destruct (Z.ltb_spec m 0); [lia|].
  assert (0 < 2 ^ (- e))%Z as Hpos by (apply Z.pow_pos_nonneg; lia).
  destruct (Z.leb_spec 0 e).
  - assert (e = 0)%Z as -> by lia. simpl in *. change (2 ^ 0)%Z with 1%Z. nia.
  - assert (Z.of_N x * m / 2 ^ (- e) <= Z.of_N x)%Z; [|lia].
    apply Z.div_le_upper_bound; nia.
Qed.

Lemma MulRat_le x num denom :
  (0 < denom)%Z -> (num <= denom)%Z -> MulRat x num denom <= x.
Proof.
  intros Hd Hn. unfold MulRat. destruct (Z.ltb_spec num 0).
  - unfold ZeroCurrency. lia.
  - assert (Z.of_N x * num / denom <= Z.of_N x)%Z; [|lia].
    apply Z.div_le_upper_bound; nia.
Qed.

(** [Uint64] returns the value exactly when it fits. *)
Lemma Uint64_spec x :
  Uint64 x = if x <? 2 ^ 64 then inr (Z.of_N x) else inl ErrUint64Overflow.
Proof.
  unfold Uint64, NewCurrency64, MaxUint64.
  pose proof (Cmp_spec x (Z.to_N (2 ^ 64 - 1))).
  destruct (Z.ltb_spec 0 (Cmp x (Z.to_N (2 ^ 64 - 1)))), (N.ltb_spec x (2 ^ 64));
    try lia; [done|]. rewrite Z.mod_small by lia. done.
Qed.
End currency_laws.
