(* ===== verification/Instances.v ===== *)
(** * Concrete instances of the interfaces

    Functions that satisfy the laws of Interfaces.v, so that theorems under
    those laws can be applied to concrete inputs: the little-endian encoding
    and a decoder on a byte string with an allocation budget, both as
    doc/Encoding.md describes them.  The hash and the signature scheme are
    placeholders; no law is assumed of them. *)

From S2P Require Import Prelude Bytes Interfaces.

Open Scope Z_scope.

(** ** Encoding *)

#[export] Instance le_encoding : SiaEncoding := {
  WriteUint64 z := le_bytes 8 z;
  WriteInt n := le_bytes 8 n;
  WriteBool b := [if b then Byte.x01 else Byte.x00];
  WritePrefixedBytes l := le_bytes 8 (Z.of_nat (length l)) ++ l;
  DecUint64 l := le_val l
}.

#[export] Instance le_encoding_laws : SiaEncodingLaws le_encoding.
Proof.
  split; try done. intros z Hz. cbn -[le_bytes le_val].
  rewrite le_val_le_bytes. by apply Z.mod_small.
Qed.

(** ** Decoding

    The input that is left and the allocation that is left; [None] after an
    error. *)

Definition list_dec : Type := option (bytes * Z).

Definition take_bytes (n : nat) (d : list_dec) : bytes * list_dec :=
  match d with
  | Some (bs, a) =>
      if decide ((n <= length bs)%nat /\ Z.of_nat n <= a)
      then (take n bs, Some (drop n bs, a - Z.of_nat n)) else ([], None)
  | None => ([], None)
  end.

Definition charge (n : Z) (d : list_dec) : list_dec :=
  match d with
  | Some (bs, a) => if decide (n <= a) then Some (bs, a - n) else None
  | None => None
  end.

Definition list_NextUint64 (d : list_dec) : Z * list_dec :=
  let '(b, d) := take_bytes 8 d in (le_val b, d).

Definition list_NextPrefix (elemSize : Z) (d : list_dec) : Z * list_dec :=
  let '(n, d) := list_NextUint64 d in
  if decide (n < 2 ^ 31) then
    match charge (n * elemSize) d with Some d => (n, Some d) | None => (0, None) end
  else (0, None).

Definition list_ReadFull (n : nat) (d : list_dec) : array n * list_dec :=
  let '(b, d) := take_bytes n d in (copy_array n b, d).

Definition list_ReadPrefixedBytes (d : list_dec) : bytes * list_dec :=
  let '(n, d) := list_NextPrefix 1 d in take_bytes (Z.to_nat n) d.

#[export] Instance list_decoder : SiaDecoder := {
  dec := list_dec;
  NewDecoder bs limit := Some (bs, limit);
  NextUint64 := list_NextUint64;
  NextPrefix := list_NextPrefix;
  ReadFull := list_ReadFull;
  ReadPrefixedBytes := list_ReadPrefixedBytes;
  dec_Err d := match d with Some _ => false | None => true end
}.

Lemma take_bytes_app e bs a :
  0 <= a ->
  take_bytes (length e) (Some (e ++ bs, Z.of_nat (length e) + a)) = (e, Some (bs, a)).
Proof.
  intros Ha. unfold take_bytes. rewrite decide_True by (rewrite length_app; lia).
  rewrite take_app_length, drop_app_length. do 3 f_equal. lia.
Qed.

Lemma list_NextUint64_app z bs a :
  is_u64 z -> 0 <= a ->
  list_NextUint64 (Some (le_bytes 8 z ++ bs, 8 + a)) = (z, Some (bs, a)).
Proof.
  intros Hz Ha. unfold list_NextUint64.
  pose proof (take_bytes_app (le_bytes 8 z) bs a Ha) as H.
  rewrite length_le_bytes in H. change (Z.of_nat 8) with 8 in H. rewrite H.
  rewrite le_val_le_bytes. f_equal. by apply Z.mod_small.
Qed.

Lemma list_NextPrefix_app k n bs a :
  0 <= n < 2 ^ 31 -> 0 <= k -> 0 <= a ->
  list_NextPrefix k (Some (le_bytes 8 n ++ bs, 8 + n * k + a)) = (n, Some (bs, a)).
Proof.
  intros Hn Hk Ha. unfold list_NextPrefix. rewrite <- Z.add_assoc.
  rewrite list_NextUint64_app by (unfold is_u64; nia).
  rewrite decide_True by lia. unfold charge. rewrite decide_True by lia.
  do 3 f_equal. lia.
Qed.

#[export] Instance list_decoder_laws : SiaDecoderLaws le_encoding list_decoder.
Proof.
  unshelve refine {| at_input (d : dec) bs a := d = Some (bs, a) |}; cbn -[le_bytes].
  - done.
  - by intros d bs a ->.
  - intros d z bs a Hz Ha ->. by rewrite list_NextUint64_app.
  - intros k d n bs a Hn Hk Ha ->. by rewrite list_NextPrefix_app.
  - intros n d v bs a Ha ->. unfold list_ReadFull.
    pose proof (take_bytes_app (vec_to_list v) bs a Ha) as H.
    rewrite length_vec_to_list in H. rewrite H. cbn. by rewrite copy_array_vec.
  - intros d l bs a Hl Ha ->. unfold list_ReadPrefixedBytes. rewrite <- app_assoc.
    replace (8 + 2 * Z.of_nat (length l) + a)
      with (8 + Z.of_nat (length l) * 1 + (Z.of_nat (length l) + a)) by lia.
    rewrite list_NextPrefix_app by lia. rewrite Nat2Z.id.
    by rewrite take_bytes_app.
Defined.

(** ** Cryptography *)

(** A 48-bit checksum of the bytes, in the last bytes of the hash. *)
Definition toy_hash (l : bytes) : Hash :=
  int_array 32 (foldl (fun h b => Z.land (9 * h + bz b + 1) (2 ^ 48 - 1)) 1 l).

#[export] Instance toy_crypto : Crypto := {
  blake2b := toy_hash;
  merkle_root leaves := toy_hash (concat leaves);
  merkle_leaf_sum := toy_hash;
  merkle_verify root hashes index leaves :=
    bool_decide (root = toy_hash (concat (vec_to_list <$> hashes)));
  ed25519_verify pk msg sig :=
    bool_decide (take 32 (vec_to_list sig) = vec_to_list (toy_hash (vec_to_list pk ++ msg)))
}.
