(* ===== verification/Types.v ===== *)
(** * The consensus data types

    The structs of package types (types/block.go, types/filecontracts.go,
    types/signatures.go, types/transactions.go, types/target.go) and of
    modules/consensus.go and modules/consensus/processedblock.go, field by
    field.  A field [F] of struct [T] is the projection [t_F]. *)

From S2P Require Import Prelude Bytes Interfaces Currency.
From Stdlib Require Strings.String.

Open Scope Z_scope.

Abbreviation BlockID := Hash (only parsing).
Abbreviation TransactionID := Hash (only parsing).
Abbreviation SiacoinOutputID := Hash (only parsing).
Abbreviation SiafundOutputID := Hash (only parsing).
Abbreviation FileContractID := Hash (only parsing).
Abbreviation UnlockHash := Hash (only parsing).
Abbreviation Target := Hash (only parsing).
(** BlockHeight and Timestamp: [uint64]. *)
Abbreviation BlockHeight := Z (only parsing).
Abbreviation Timestamp := Z (only parsing).
Abbreviation BlockNonce := (array 8) (only parsing).

(** ** types/specifier.go *)

Definition SpecifierLen : nat := 16.
Abbreviation Specifier := (array 16) (only parsing).

(** The checks of [validateSpecifier]: ASCII only, and no longer than 16. *)
Definition isASCII (s : bytes) : bool := forallb (fun b => bz b <? 128) s.
Definition validateSpecifier (name : string) : bool :=
  let s := String.list_byte_of_string name in
  isASCII s && (length s <=? SpecifierLen)%nat.
Definition NewSpecifier (name : string) : Specifier :=
  copy_array SpecifierLen (String.list_byte_of_string name).

Definition SpecifierClaimOutput : Specifier := NewSpecifier "claim output".
Definition SpecifierMinerFee : Specifier := NewSpecifier "miner fee".
Definition SpecifierMinerPayout : Specifier := NewSpecifier "miner payout".
Definition SpecifierSiacoinInput : Specifier := NewSpecifier "siacoin input".
Definition SpecifierSiafundInput : Specifier := NewSpecifier "siafund input".
Definition SpecifierFileContract : Specifier := NewSpecifier "file contract".
Definition SpecifierSiacoinOutput : Specifier := NewSpecifier "siacoin output".
Definition SpecifierSiafundOutput : Specifier := NewSpecifier "siafund output".
Definition SpecifierStorageProofOutput : Specifier := NewSpecifier "storage proof".
Definition SignatureEd25519 : Specifier := NewSpecifier "ed25519".
Definition SignatureEntropy : Specifier := NewSpecifier "entropy".

(** ** types/signatures.go *)

Record SiaPublicKey := mkSiaPublicKey {
  spk_Algorithm : Specifier;
  spk_Key : bytes
}.

Record UnlockConditions := mkUnlockConditions {
  uc_Timelock : BlockHeight;
  uc_PublicKeys : list SiaPublicKey;
  uc_SignaturesRequired : Z
}.

Record CoveredFields := mkCoveredFields {
  cf_WholeTransaction : bool;
  cf_SiacoinInputs : list Z;
  cf_SiacoinOutputs : list Z;
  cf_FileContracts : list Z;
  cf_FileContractRevisions : list Z;
  cf_StorageProofs : list Z;
  cf_SiafundInputs : list Z;
  cf_SiafundOutputs : list Z;
  cf_MinerFees : list Z;
  cf_ArbitraryData : list Z;
  cf_TransactionSignatures : list Z
}.

Record TransactionSignature := mkTransactionSignature {
  ts_ParentID : Hash;
  ts_PublicKeyIndex : Z;
  ts_Timelock : BlockHeight;
  ts_CoveredFields : CoveredFields;
  ts_Signature : bytes
}.

(** ** types/transactions.go *)

Record SiacoinInput := mkSiacoinInput {
  sci_ParentID : SiacoinOutputID;
  sci_UnlockConditions : UnlockConditions
}.

Record SiacoinOutput := mkSiacoinOutput {
  sco_Value : Currency;
  sco_UnlockHash : UnlockHash
}.

Record SiafundInput := mkSiafundInput {
  sfi_ParentID : SiafundOutputID;
  sfi_UnlockConditions : UnlockConditions;
  sfi_ClaimUnlockHash : UnlockHash
}.

Record SiafundOutput := mkSiafundOutput {
  sfo_Value : Currency;
  sfo_UnlockHash : UnlockHash;
  sfo_ClaimStart : Currency
}.

(** ** types/filecontracts.go *)

Record FileContract := mkFileContract {
  fc_FileSize : Z;
  fc_FileMerkleRoot : Hash;
  fc_WindowStart : BlockHeight;
  fc_WindowEnd : BlockHeight;
  fc_Payout : Currency;
  fc_ValidProofOutputs : list SiacoinOutput;
  fc_MissedProofOutputs : list SiacoinOutput;
  fc_UnlockHash : UnlockHash;
  fc_RevisionNumber : Z
}.

Record FileContractRevision := mkFileContractRevision {
  fcr_ParentID : FileContractID;
  fcr_UnlockConditions : UnlockConditions;
  fcr_NewRevisionNumber : Z;
  fcr_NewFileSize : Z;
  fcr_NewFileMerkleRoot : Hash;
  fcr_NewWindowStart : BlockHeight;
  fcr_NewWindowEnd : BlockHeight;
  fcr_NewValidProofOutputs : list SiacoinOutput;
  fcr_NewMissedProofOutputs : list SiacoinOutput;
  fcr_NewUnlockHash : UnlockHash
}.

Record StorageProof := mkStorageProof {
  sp_ParentID : FileContractID;
  sp_Segment : array 64;
  sp_HashSet : list Hash
}.

Record Transaction := mkTransaction {
  t_SiacoinInputs : list SiacoinInput;
  t_SiacoinOutputs : list SiacoinOutput;
  t_FileContracts : list FileContract;
  t_FileContractRevisions : list FileContractRevision;
  t_StorageProofs : list StorageProof;
  t_SiafundInputs : list SiafundInput;
  t_SiafundOutputs : list SiafundOutput;
  t_MinerFees : list Currency;
  t_ArbitraryData : list bytes;
  t_TransactionSignatures : list TransactionSignature
}.

(** ** types/block.go *)

Record Block := mkBlock {
  b_ParentID : BlockID;
  b_Nonce : BlockNonce;
  b_Timestamp : Timestamp;
  b_MinerPayouts : list SiacoinOutput;
  b_Transactions : list Transaction
}.

Record BlockHeader := mkBlockHeader {
  h_ParentID : BlockID;
  h_Nonce : BlockNonce;
  h_Timestamp : Timestamp;
  h_MerkleRoot : Hash
}.

(** ** modules/consensus.go: diffs *)

(** A [bool] in the source: [DiffApply = true], [DiffRevert = false]. *)
Inductive DiffDirection := DiffApply | DiffRevert.

#[export] Instance DiffDirection_eq_dec : EqDecision DiffDirection.
Proof. solve_decision. Defined.

Record SiacoinOutputDiff := mkSiacoinOutputDiff {
  scod_Direction : DiffDirection;
  scod_ID : SiacoinOutputID;
  scod_SiacoinOutput : SiacoinOutput
}.

Record FileContractDiff := mkFileContractDiff {
  fcd_Direction : DiffDirection;
  fcd_ID : FileContractID;
  fcd_FileContract : FileContract
}.

Record SiafundOutputDiff := mkSiafundOutputDiff {
  sfod_Direction : DiffDirection;
  sfod_ID : SiafundOutputID;
  sfod_SiafundOutput : SiafundOutput
}.

Record DelayedSiacoinOutputDiff := mkDelayedSiacoinOutputDiff {
  dscod_Direction : DiffDirection;
  dscod_ID : SiacoinOutputID;
  dscod_SiacoinOutput : SiacoinOutput;
  dscod_MaturityHeight : BlockHeight
}.

Record SiafundPoolDiff := mkSiafundPoolDiff {
  sfpd_Direction : DiffDirection;
  sfpd_Previous : Currency;
  sfpd_Adjusted : Currency
}.

(** ** modules/consensus/processedblock.go *)

Record processedBlock := mkProcessedBlock {
  pb_Block : Block;
  pb_Height : BlockHeight;
  pb_Depth : Target;
  pb_ChildTarget : Target;
  pb_DiffsGenerated : bool;
  pb_SiacoinOutputDiffs : list SiacoinOutputDiff;
  pb_FileContractDiffs : list FileContractDiff;
  pb_SiafundOutputDiffs : list SiafundOutputDiff;
  pb_DelayedSiacoinOutputDiffs : list DelayedSiacoinOutputDiff;
  pb_SiafundPoolDiffs : list SiafundPoolDiff;
  pb_ConsensusChecksum : Hash
}.

(** ** Decidable equality *)

#[export] Instance SiaPublicKey_eq_dec : EqDecision SiaPublicKey.
Proof. solve_decision. Defined.
#[export] Instance UnlockConditions_eq_dec : EqDecision UnlockConditions.
Proof. solve_decision. Defined.
#[export] Instance SiacoinOutput_eq_dec : EqDecision SiacoinOutput.
Proof. solve_decision. Defined.
#[export] Instance SiafundOutput_eq_dec : EqDecision SiafundOutput.
Proof. solve_decision. Defined.
#[export] Instance FileContract_eq_dec : EqDecision FileContract.
Proof. solve_decision. Defined.
#[export] Instance FileContractRevision_eq_dec : EqDecision FileContractRevision.
Proof. solve_decision. Defined.
#[export] Instance StorageProof_eq_dec : EqDecision StorageProof.
Proof. solve_decision. Defined.
#[export] Instance SiacoinInput_eq_dec : EqDecision SiacoinInput.
Proof. solve_decision. Defined.
#[export] Instance SiafundInput_eq_dec : EqDecision SiafundInput.
Proof. solve_decision. Defined.
#[export] Instance CoveredFields_eq_dec : EqDecision CoveredFields.
Proof. solve_decision. Defined.
#[export] Instance TransactionSignature_eq_dec : EqDecision TransactionSignature.
Proof. solve_decision. Defined.
#[export] Instance Transaction_eq_dec : EqDecision Transaction.
Proof. solve_decision. Defined.
#[export] Instance Block_eq_dec : EqDecision Block.
Proof. solve_decision. Defined.
