(* ===== verification/Params.v ===== *)
(** * Build variants and network constants

    build/debug_*.go, build/release_*.go and types/constants.go.  What depends
    on the build is a field of a class, [Build] for the build flags and
    [Params] for the network constants, with one instance per release; what
    does not is a plain definition. *)

From S2P Require Import Prelude Bytes Interfaces Currency Types.
From Stdlib Require Import QArith.QArith_base.

Open Scope Z_scope.

(** ** The build *)

Inductive release := Standard | Dev | Testing.

#[export] Instance release_eq_dec : EqDecision release.
Proof. solve_decision. Defined.

Class Build := { DEBUG : bool; Release : release }.

(** [build.Select]. *)
Definition build_Select {A} (r : release) (standard dev testing : A) : A :=
  match r with Standard => standard | Dev => dev | Testing => testing end.

(** ** Constants of every release *)

Definition ASICHardforkFactor : Z := 1.
Definition ASICHardforkReplayProtectionPrefix : bytes := [].
Definition BlockSizeLimit : Z := 2000000.
Definition MedianTimestampWindow : Z := 11.
Definition OakHardforkTxnSizeLimit : Z := 64000.
Definition InitialCoinbase : Z := 30.

Definition BurnAddressBlockHeight : BlockHeight := 0.
Definition DevFundEnabled : bool := true.
Definition DevFundInitialBlockHeight : BlockHeight := 1.
Definition DevFundDecayStartBlockHeight : BlockHeight := 43800.
Definition DevFundDecayEndBlockHeight : BlockHeight := 131400.
Definition DevFundInitialPercentage : Z := 10.
Definition DevFundFinalPercentage : Z := 5.

Definition ScPrimecoinPrecision : Currency := Currency.NewCurrency (10 ^ 27).
Definition AirdropInvestorValue : Currency :=
  Currency.Mul (Currency.NewCurrency64 200000000) ScPrimecoinPrecision.
Definition AirdropCommunityValue : Currency :=
  Currency.Mul (Currency.NewCurrency64 100000000) ScPrimecoinPrecision.
Definition AirdropDevCompValue : Currency :=
  Currency.Mul (Currency.NewCurrency64 10000000) ScPrimecoinPrecision.
Definition AirdropSiaCloudValue : Currency :=
  Currency.Mul (Currency.NewCurrency64 9000000) ScPrimecoinPrecision.
Definition AirdropSiaPrimeValue : Currency :=
  Currency.Mul (Currency.NewCurrency64 1000000) ScPrimecoinPrecision.
Definition AirdropPoolValue : Currency :=
  Currency.Mul (Currency.NewCurrency64 126000) ScPrimecoinPrecision.

Definition OldSiafundCount : Currency := Currency.NewCurrency64 10000.
Definition NewSiafundCount : Currency := Currency.NewCurrency64 10000.
Definition NewerSiafundCount : Currency := Currency.NewCurrency64 10000.
Definition FirstSiafundMul : Z := 39.
Definition FirstSiafundDiv : Z := 1000.
Definition SecondSiafundMul : Z := 39.
Definition SecondSiafundDiv : Z := 1000.
Definition ThirdSiafundMul : Z := 39.
Definition ThirdSiafundDiv : Z := 1000.

(** A [Target] or [UnlockHash] literal: the leading bytes, zeroes behind. *)
Definition hash_literal (l : list Z) : Hash := copy_array 32 (zb <$> l).

Definition RootDepth : Target := hash_literal (replicate 32 255).

(** ** Constants of one release *)

Class Params := {
  ASICHardforkHeight : BlockHeight;
  ASICHardforkTotalTarget : Target;
  ASICHardforkTotalTime : Z;
  BlockFrequency : BlockHeight;
  MaturityDelay : BlockHeight;
  GenesisTimestamp : Timestamp;
  RootTarget : Target;
  TargetWindow : BlockHeight;
  MaxTargetAdjustmentUp : Q;
  MaxTargetAdjustmentDown : Q;
  FutureThreshold : Timestamp;
  ExtremeFutureThreshold : Timestamp;
  MinimumCoinbase : Z;
  OakHardforkBlock : BlockHeight;
  OakHardforkFixBlock : BlockHeight;
  OakDecayNum : Z;
  OakDecayDenom : Z;
  OakMaxBlockShift : Z;
  OakMaxRise : Q;
  OakMaxDrop : Q;
  TaxHardforkHeight : BlockHeight;
  SpfAirdropHeight : BlockHeight;
  SpfHardforkHeight : BlockHeight;
  SpfSecondHardforkHeight : BlockHeight;
  GenesisAirdropAllocation : list SiacoinOutput;
  GenesisSiafundAllocation : list SiafundOutput;
  ForkedGenesisSiafundAllocation : list SiafundOutput;
  SiafundHardforkAllocation : gmap Z (list SiafundOutput);
  DevFundUnlockHash : UnlockHash;
  BurnAddressUnlockHash : UnlockHash
}.

(** An output of an allocation table; the claim start is the zero value. *)
Definition alloc_sco (v : Currency) (addr : UnlockHash) : SiacoinOutput :=
  mkSiacoinOutput v addr.
Definition alloc_sfo (v : Z) (addr : UnlockHash) : SiafundOutput :=
  mkSiafundOutput (Currency.NewCurrency64 v) addr Currency.ZeroCurrency.

(** [addr] is [UnlockHashFromAddrStr], which checks a blake2b checksum, and
    [now] the timestamp the testing release reads at start-up. *)
Section releases.
Context (addr : string -> UnlockHash) (now : Timestamp).

Definition dev_fund_address : UnlockHash :=
  addr "cc05f0024d75d23002dfed47bcd6177c0e5dd652b146758951806bb8fb15fa158da76dcbaeb6".
Definition burn_address : UnlockHash :=
  addr "e3a19a1c70d75dc865f5ce539e0858e2450aa61b7136d8f25b0b800d52177919557208b73316".

(** The branch for the release "standard". *)
Definition standard_params : Params := {|
  ASICHardforkHeight := MaxInt64;
  ASICHardforkTotalTarget := hash_literal [0; 0; 0; 0; 0; 0; 0; 0; 32];
  ASICHardforkTotalTime := 120000;
  BlockFrequency := 720;
  MaturityDelay := 120;
  GenesisTimestamp := 1650179928;
  RootTarget := hash_literal [0; 0; 0; 128];
  TargetWindow := 500;
  MaxTargetAdjustmentUp := Qmake 25 10;
  MaxTargetAdjustmentDown := Qmake 10 25;
  FutureThreshold := 3 * 60 * 60;
  ExtremeFutureThreshold := 5 * 60 * 60;
  MinimumCoinbase := 30;
  OakHardforkBlock := 1500;
  OakHardforkFixBlock := 1500;
  OakDecayNum := 995;
  OakDecayDenom := 1000;
  OakMaxBlockShift := 3;
  OakMaxRise := Qmake 1004 1000;
  OakMaxDrop := Qmake 1000 1004;
  TaxHardforkHeight := MaxInt64;
  SpfAirdropHeight := MaxInt64;
  SpfHardforkHeight := MaxInt64;
  SpfSecondHardforkHeight := MaxInt64;
  GenesisAirdropAllocation := [
    alloc_sco AirdropInvestorValue
      (addr "303eae70f9e2b2b8bce1e66907551aeeae37c7ed105806b73c4d0301280c9ee811faa138d451");
    alloc_sco AirdropCommunityValue
      (addr "ca1bf328d72169507dc3aee97e2a6c40b98ecc70b582f91fba96fbcf3c11d55c88d0a37d6449");
    alloc_sco AirdropDevCompValue
      (addr "d7340084bbbf84137158df5e23423b57a504025c360b51777020921036e0cfca09f83da6b654");
    alloc_sco AirdropSiaCloudValue
      (addr "21d94ad73315437219381b5dc23bbe6f5c1c8dd5c77e1fc6ee5d15f2b615649fe4e3aa19220a");
    alloc_sco AirdropSiaPrimeValue
      (addr "e8ba42de3797e34001e953b6549e5706803c3584d558fed9920ca207bbbcd839d170f2c7f5b5");
    alloc_sco AirdropPoolValue
      (addr "2ca34530025d8ce2b6f6dd3f30f44031cf8c411d884b54b06039b68e9660356b07ae09ebf58b");
    alloc_sco (Currency.NewCurrency64 1) dev_fund_address;
    alloc_sco (Currency.NewCurrency64 1) burn_address];
  GenesisSiafundAllocation := [
    alloc_sfo 10000
      (addr "e5b3a18d32c9bc89c6712d647ef85c2771fd1efe49b3e66280b3a724ec9d73537b1979e6b678")];
  ForkedGenesisSiafundAllocation := [
    alloc_sfo 0
      (addr "d3c053d66f239564fa5d09d8619958c67e71a154ac24870e16d99524ef10119e67e7aee741d8")];
  SiafundHardforkAllocation :=
    <[MaxInt64 := [alloc_sfo 0
      (addr "61ac1f6e01315a2650203ba320bb935a3a427a3dfddc23cb129ab072f5d89a3091661e28b360")]]>
    (<[MaxInt64 := [alloc_sfo 0
      (addr "77422e40c3c126120394f52edc3f414a3e80b1961abe20687fd4760c6989aefe13e93d163133")]]> ∅);
  DevFundUnlockHash := dev_fund_address;
  BurnAddressUnlockHash := burn_address
|}.

(** The allocation tables the dev and testing branches share. *)
Definition small_airdrop : list SiacoinOutput := [
  alloc_sco AirdropCommunityValue
    (addr "aaaaaaaaaaaaaaaaaaaaaaaaaaaaaaaaaaaaaaaaaaaaaaaaaaaaaaaaaaaaaaaaaaaaaaaaaaaa");
  alloc_sco AirdropPoolValue
    (addr "bbbbbbbbbbbbbbbbbbbbbbbbbbbbbbbbbbbbbbbbbbbbbbbbbbbbbbbbbbbbbbbbbbbbbbbbbbbb");
  alloc_sco AirdropSiaPrimeValue
    (addr "cccccccccccccccccccccccccccccccccccccccccccccccccccccccccccccccccccccccccccc");
  alloc_sco AirdropSiaCloudValue
    (addr "dddddddddddddddddddddddddddddddddddddddddddddddddddddddddddddddddddddddddddd")].
Definition small_siafunds : list SiafundOutput := [
  alloc_sfo 10000
    (addr "eeeeeeeeeeeeeeeeeeeeeeeeeeeeeeeeeeeeeeeeeeeeeeeeeeeeeeeeeeeeeeeeeeeeeeeeeeee")].
Definition small_forked_siafunds : list SiafundOutput := [
  alloc_sfo 10000
    (addr "ffffffffffffffffffffffffffffffffffffffffffffffffffffffffffffffffffffffffffff")].
Definition small_hardfork_siafunds (first second : BlockHeight)
  : gmap Z (list SiafundOutput) :=
  <[second := [alloc_sfo (50000 - 30000)
    (addr "aaaaccccaaaaccccaaaaccccaaaaccccaaaaccccaaaaccccaaaaccccaaaaccccaaaaccccaaaa")]]>
  (<[first := [alloc_sfo 20000
    (addr "bbbbaaaaaaaabbbbaaaaaaaabbbbaaaaaaaabbbbaaaaaaaabbbbaaaaaaaabbbbaaaaaaaaaaaa")]]> ∅).

(** The branch for the release "dev". *)
Definition dev_params : Params := {|
  ASICHardforkHeight := MaxInt64;
  ASICHardforkTotalTarget := hash_literal [0; 0; 0; 8];
  ASICHardforkTotalTime := 800;
  BlockFrequency := 12;
  MaturityDelay := 10;
  GenesisTimestamp := 1528293910;
  RootTarget := hash_literal [0; 0; 2];
  TargetWindow := 20;
  MaxTargetAdjustmentUp := Qmake 120 100;
  MaxTargetAdjustmentDown := Qmake 100 120;
  FutureThreshold := 2 * 60;
  ExtremeFutureThreshold := 4 * 60;
  MinimumCoinbase := 30000;
  OakHardforkBlock := 100;
  OakHardforkFixBlock := 105;
  OakDecayNum := 985;
  OakDecayDenom := 1000;
  OakMaxBlockShift := 3;
  OakMaxRise := Qmake 102 100;
  OakMaxDrop := Qmake 100 102;
  TaxHardforkHeight := 10;
  SpfAirdropHeight := 20;
  SpfHardforkHeight := 100;
  SpfSecondHardforkHeight := 200;
  GenesisAirdropAllocation := small_airdrop;
  GenesisSiafundAllocation := small_siafunds;
  ForkedGenesisSiafundAllocation := small_forked_siafunds;
  SiafundHardforkAllocation := small_hardfork_siafunds 100 200;
  DevFundUnlockHash := dev_fund_address;
  BurnAddressUnlockHash := burn_address
|}.

(** The branch for the release "testing". *)
Definition testing_params : Params := {|
  ASICHardforkHeight := MaxInt64;
  ASICHardforkTotalTarget := hash_literal [255; 255];
  ASICHardforkTotalTime := 10000;
  BlockFrequency := 1;
  MaturityDelay := 3;
  GenesisTimestamp := u64 (now - 1000000);
  RootTarget := hash_literal [128];
  TargetWindow := 200;
  MaxTargetAdjustmentUp := Qmake 10001 10000;
  MaxTargetAdjustmentDown := Qmake 9999 10000;
  FutureThreshold := 3;
  ExtremeFutureThreshold := 6;
  MinimumCoinbase := 299990;
  OakHardforkBlock := 20;
  OakHardforkFixBlock := 23;
  OakDecayNum := 9999;
  OakDecayDenom := 10000;
  OakMaxBlockShift := 3;
  OakMaxRise := Qmake 10001 10000;
  OakMaxDrop := Qmake 10000 10001;
  TaxHardforkHeight := 10;
  SpfAirdropHeight := 7200;
  SpfHardforkHeight := 10000;
  SpfSecondHardforkHeight := 20000;
  GenesisAirdropAllocation := small_airdrop;
  GenesisSiafundAllocation := small_siafunds;
  ForkedGenesisSiafundAllocation := small_forked_siafunds;
  SiafundHardforkAllocation := small_hardfork_siafunds 10000 20000;
  DevFundUnlockHash := dev_fund_address;
  BurnAddressUnlockHash := burn_address
|}.

Definition params_of (r : release) : Params :=
  build_Select r standard_params dev_params testing_params.
End releases.

(** ** Values by height *)

Section by_height.
Context {P : Params}.

Definition IsSpfHardfork (height : BlockHeight) : bool :=
  if height =? SpfHardforkHeight then true
  else if height =? SpfSecondHardforkHeight then true
  else false.

Definition SiafundCount (height : BlockHeight) : Currency :=
  if SpfSecondHardforkHeight <? height then NewerSiafundCount
  else if SpfHardforkHeight <? height then NewSiafundCount
  else OldSiafundCount.

Definition SiafundMul (height : BlockHeight) : Z :=
  if SpfSecondHardforkHeight <? height then ThirdSiafundMul
  else if SpfHardforkHeight <? height then SecondSiafundMul
  else FirstSiafundMul.

Definition SiafundDiv (height : BlockHeight) : Z :=
  if SpfSecondHardforkHeight <? height then ThirdSiafundDiv
  else if SpfHardforkHeight <? height then SecondSiafundDiv
  else FirstSiafundDiv.

(** [SiafundPortion] as numerator and denominator. *)
Definition SiafundPortion (height : BlockHeight) : Z * Z :=
  if SpfSecondHardforkHeight <? height then (ThirdSiafundMul, ThirdSiafundDiv)
  else if SpfHardforkHeight <? height then (SecondSiafundMul, SecondSiafundDiv)
  else (FirstSiafundMul, FirstSiafundDiv).

(** The genesis block: one transaction per allocation table. *)
Definition empty_transaction : Transaction :=
  mkTransaction [] [] [] [] [] [] [] [] [] [].
Definition genesis_siacoin_txn : Transaction :=
  mkTransaction [] GenesisAirdropAllocation [] [] [] [] [] [] [] [].
Definition genesis_siafund_txn : Transaction :=
  mkTransaction [] [] [] [] [] [] GenesisSiafundAllocation [] [] [].
Definition GenesisBlock : Block :=
  mkBlock zero_hash (zero_array 8) GenesisTimestamp []
    [genesis_siacoin_txn; genesis_siafund_txn].

Lemma SiafundCount_value height : SiafundCount height = 10000%N.
Proof.
  unfold SiafundCount. repeat case_match; reflexivity.
Qed.

Lemma SiafundMulDiv_value height : SiafundMul height = 39 /\ SiafundDiv height = 1000.
Proof.
  unfold SiafundMul, SiafundDiv. repeat case_match; split; reflexivity.
Qed.

Lemma SiafundPortion_value height : SiafundPortion height = (39, 1000).
Proof. unfold SiafundPortion. repeat case_match; reflexivity. Qed.
End by_height.
