(* ===== verification/Target.v ===== *)
(** * Targets and difficulties

    types/target.go.  A target is a 32-byte big-endian integer; difficulties
    are its inverses and are computed with rationals ([big.Rat]).  [None] is
    a panic: the inverse of zero, and a negative target in a debug build. *)

From S2P Require Import Prelude Bytes Interfaces Currency Types Params.
From Stdlib Require Import QArith.QArith_base.

Open Scope Z_scope.

Module Target.

Definition Int (x : Target) : Z := array_int x.

Definition Rat (x : Target) : Q := inject_Z (Int x).

(** [big.Rat.Inv]: panics on zero. *)
Definition rat_Inv (r : Q) : option Q :=
  if Qnum r =? 0 then None else Some (Qinv r).

Definition Inverse (x : Target) : option Q := rat_Inv (Rat x).

Definition Cmp (x y : Target) : Z :=
  match Int x ?= Int y with Lt => -1 | Eq => 0 | Gt => 1 end.

Definition Difficulty (x : Target) : Currency :=
  if bool_decide (x = zero_hash) then Currency.NewCurrency (Int RootDepth)
  else Currency.NewCurrency (Int RootDepth / Int x).

Section conversions.
Context {B : Build}.

Definition IntToTarget (i : Z) : option Target :=
  if i <? 0 then (if DEBUG then None else Some zero_hash)
  else if 2 ^ 256 <=? i then Some RootDepth
  else Some (int_array 32 i).

Definition RatToTarget (r : Q) : option Target :=
  if Qnum r <? 0 then (if DEBUG then None else Some zero_hash)
  else IntToTarget (Qnum r / QDen r).

Definition AddDifficulties (x y : Target) : option Target :=
  ix ← Inverse x;
  iy ← Inverse y;
  r ← rat_Inv (Qplus ix iy);
  RatToTarget r.

Definition MulDifficulty (x : Target) (y : Q) : option Target :=
  ix ← Inverse x;
  product ← rat_Inv (Qmult y ix);
  RatToTarget product.

Definition SubtractDifficulties (x y : Target) : option Target :=
  ix ← Inverse x;
  iy ← Inverse y;
  r ← rat_Inv (Qminus ix iy);
  RatToTarget r.

End conversions.

(** ** Lemmas *)

Lemma Int_range x : 0 <= Int x < 2 ^ 256.
Proof. pose proof (array_int_range x) as H. exact H. Qed.

Lemma Int_inj x y : Int x = Int y -> x = y.
Proof. apply array_int_inj. Qed.

Lemma Int_RootDepth : Int RootDepth = 2 ^ 256 - 1.
Proof. vm_compute. reflexivity. Qed.

Lemma Int_zero : Int zero_hash = 0.
Proof. vm_compute. reflexivity. Qed.

Lemma Cmp_lt x y : (Cmp x y <? 0) = (Int x <? Int y).
Proof. unfold Cmp, Z.ltb. by destruct (Int x ?= Int y). Qed.

Lemma Cmp_gt x y : (0 <? Cmp x y) = (Int y <? Int x).
Proof.
  unfold Cmp, Z.ltb. rewrite (Z.compare_antisym (Int x)).
  by destruct (Int x ?= Int y).
Qed.

Lemma Cmp_eq x y : Cmp x y = 0 <-> x = y.
Proof.
  unfold Cmp. split.
  - destruct (Z.compare_spec (Int x) (Int y)); [|done..]. intros _. by apply Int_inj.
  - intros ->. by rewrite Z.compare_refl.
Qed.

Section conversion_lemmas.
Context {B : Build}.

Lemma Int_IntToTarget i :
  0 <= i -> exists t, IntToTarget i = Some t /\ Int t = i `min` (2 ^ 256 - 1).
Proof.
  intros Hi. unfold IntToTarget. rewrite (proj2 (Z.ltb_ge i 0)) by lia.
  destruct (Z.leb_spec (2 ^ 256) i).
  - exists RootDepth. split; [done|]. rewrite Int_RootDepth. lia.
  - exists (int_array 32 i). split; [done|]. unfold Int.
    rewrite array_int_array by (change (256 ^ Z.of_nat 32) with (2 ^ 256); lia). lia.
Qed.

(** The integer a target is computed from determines it, capped. *)
Lemma IntToTarget_eq i t :
  0 <= i -> Int t = i `min` (2 ^ 256 - 1) -> IntToTarget i = Some t.
Proof.
  intros Hi Ht. destruct (Int_IntToTarget i Hi) as (t' & -> & Ht').
  f_equal. apply Int_inj. congruence.
Qed.

Lemma IntToTarget_Int x : IntToTarget (Int x) = Some x.
Proof. pose proof (Int_range x). apply IntToTarget_eq; lia. Qed.

Lemma RatToTarget_pos p q :
  RatToTarget (Qmake (Zpos p) q) = IntToTarget (Zpos p / Zpos q).
Proof. done. Qed.

Lemma AddDifficulties_IntToTarget x y :
  0 < Int x -> 0 < Int y ->
  AddDifficulties x y = IntToTarget (Int x * Int y / (Int x + Int y)).
Proof.
  intros Hx Hy. unfold AddDifficulties, Inverse, Rat.
  destruct (Int x) as [|p|p], (Int y) as [|q|q]; try lia.
  transitivity (RatToTarget (Qmake (Zpos (p * q)) (q + p))); [done|].
  by rewrite RatToTarget_pos, (Pos.add_comm q p).
Qed.

Lemma AddDifficulties_panics x y :
  Int x = 0 \/ Int y = 0 -> AddDifficulties x y = None.
Proof.
  unfold AddDifficulties, Inverse, Rat.
  intros [H|H]; rewrite H; [done|]. by destruct (rat_Inv (inject_Z (Int x))).
Qed.

Lemma AddDifficulties_comm x y : AddDifficulties x y = AddDifficulties y x.
Proof.
  pose proof (Int_range x). pose proof (Int_range y).
  destruct (decide (0 < Int x /\ 0 < Int y)) as [[??]|Hz].
  - rewrite !AddDifficulties_IntToTarget by done.
    by rewrite Z.mul_comm, Z.add_comm.
  - rewrite !AddDifficulties_panics by lia. done.
Qed.

(** The sum of two difficulties: the floor of the harmonic sum. *)
Lemma AddDifficulties_Int x y :
  0 < Int x -> 0 < Int y ->
  exists t, AddDifficulties x y = Some t /\
    Int t = Int x * Int y / (Int x + Int y).
Proof.
  intros Hx Hy. rewrite AddDifficulties_IntToTarget by done.
  pose proof (Int_range x).
  assert (Hle : Int x * Int y / (Int x + Int y) <= Int x)
    by (apply Z.div_le_upper_bound; nia).
  assert (Hge : 0 <= Int x * Int y / (Int x + Int y)) by (apply Z.div_pos; nia).
  destruct (Int_IntToTarget _ Hge) as (t & -> & Ht). exists t. split; [done|lia].
Qed.

(** Adding difficulties lowers the target. *)
Lemma AddDifficulties_lt x y t :
  0 < Int x -> 0 < Int y -> AddDifficulties x y = Some t -> Int t < Int x.
Proof.
  intros Hx Hy Ht. destruct (AddDifficulties_Int x y Hx Hy) as (t' & E & Ht').
  rewrite E in Ht. injection Ht as <-. rewrite Ht'. apply Z.div_lt_upper_bound; nia.
Qed.

Lemma MulDifficulty_IntToTarget x n d :
  0 < Int x -> 0 < n ->
  MulDifficulty x (Qmake n d) = IntToTarget (Int x * Zpos d / n).
Proof.
  intros Hx Hn. unfold MulDifficulty, Inverse, Rat.
  destruct (Int x) as [|p|p]; try lia. destruct n as [|n|n]; try lia.
  transitivity (RatToTarget (Qmake (Zpos (d * p)) (n * 1))); [done|].
  by rewrite RatToTarget_pos, Pos.mul_1_r, (Pos.mul_comm d p).
Qed.

Lemma MulDifficulty_Int x n d :
  0 < Int x -> 0 < n ->
  exists t, MulDifficulty x (Qmake n d) = Some t /\
    Int t = (Int x * Zpos d / n) `min` (2 ^ 256 - 1).
Proof.
  intros Hx Hn. rewrite MulDifficulty_IntToTarget by done.
  apply Int_IntToTarget, Z.div_pos; nia.
Qed.

Lemma MulDifficulty_panics x y :
  Int x = 0 -> MulDifficulty x y = None.
Proof. unfold MulDifficulty, Inverse, Rat. by intros ->. Qed.

(** Subtracting a difficulty: defined when the result is positive; it panics
    on equal targets and, in a debug build, when the result is negative. *)
Lemma SubtractDifficulties_spec x y :
  0 < Int x -> 0 < Int y ->
  SubtractDifficulties x y =
    match Int x ?= Int y with
    | Lt => IntToTarget (Int x * Int y / (Int y - Int x))
    | Eq => None
    | Gt => if DEBUG then None else Some zero_hash
    end.
Proof.
  intros Hx Hy. unfold SubtractDifficulties, Inverse, Rat.
  destruct (Int x) as [|p|p], (Int y) as [|q|q]; try lia.
  transitivity (r ← rat_Inv (Qmake (Z.pos_sub q p) (p * q)); RatToTarget r); [done|].
  rewrite Z.pos_sub_spec, (Pos.compare_antisym p q). cbn [Z.compare].
  destruct (Pos.compare_spec p q) as [|Hlt|]; [done| |done].
  transitivity (RatToTarget (Qmake (Zpos (p * q)) (q - p))); [done|].
  rewrite RatToTarget_pos, Pos2Z.inj_sub by done. done.
Qed.

Lemma Difficulty_Int x :
  0 < Int x -> Difficulty x = Z.to_N ((2 ^ 256 - 1) / Int x).
Proof.
  intros Hx. unfold Difficulty. rewrite bool_decide_eq_false_2.
  - rewrite Int_RootDepth. unfold Currency.NewCurrency.
    case_match; bool_prop; [|done].
    assert (0 <= (2 ^ 256 - 1) / Int x) by (apply Z.div_pos; lia). lia.
  - intros ->. rewrite Int_zero in Hx. lia.
Qed.

End conversion_lemmas.
End Target.
