(* ===== verification/Encoding.v ===== *)
(** * The binary encoding of the consensus types

    The [MarshalSia] and [MarshalSiaSize] methods of types/encoding.go.  The
    methods write to an encoder; as the writers of the modelled code are
    in-memory buffers and hashers, which do not fail, a method is the byte
    string it writes.  A nested [encoding.NewEncoder(e)] is the encoder it is
    given, so that nested methods append to the same bytes.

    [Currency_MarshalSia] works on the words of the big integer as the source
    does; the lemmas show that it writes the shortest big-endian encoding. *)

From S2P Require Import Prelude Bytes Interfaces Currency Types.

Open Scope Z_scope.

Definition zlen {A} (l : list A) : Z := Z.of_nat (length l).

Section encoding.
Context {E : SiaEncoding}.

(** [e.WriteInt(len(l))] and a loop that writes each element. *)
Definition write_slice {A} (enc : A -> bytes) (l : list A) : bytes :=
  WriteInt (zlen l) ++ concat (enc <$> l).

(** ** Currency *)

(** Bytes per [big.Word]. *)
Definition word_size : nat := 8.

(** [big.Int.Bits]: the 64-bit words, least significant first, without leading
    zero words. *)
Definition big_Bits (c : Currency) : list Z :=
  (fun i => Z.shiftr (Z.of_N c) (64 * Z.of_nat i) mod 2 ^ 64)
    <$> seq 0 (N.to_nat ((N.size c + 63) / 64)).

(** [bits[i/_S] >> (uint(i%_S)*8)]. *)
Definition bits_from (bits : list Z) (i : nat) : Z :=
  Z.shiftr (nth (i / word_size) bits 0) (8 * Z.of_nat (i mod word_size)).

(** The loop that seeks the first byte that is not zero, from [n] bytes; the
    result is the source's [i + 1]. *)
Fixpoint currency_seek (bits : list Z) (n : nat) : nat :=
  match n with
  | O => O
  | S i => if negb (bits_from bits i =? 0) then S i else currency_seek bits i
  end.

Fixpoint currency_bytes (bits : list Z) (n : nat) : bytes :=
  match n with
  | O => []
  | S i => zb (bits_from bits i) :: currency_bytes bits i
  end.

Definition Currency_MarshalSia (c : Currency) : bytes :=
  let bits := big_Bits c in
  let n := currency_seek bits (length bits * word_size) in
  WriteInt (Z.of_nat n) ++ currency_bytes bits n.

(** The inner loop of [Currency.MarshalSiaSize] on one word, from its byte
    [j]: the size, and whether it met a byte that is not zero. *)
Fixpoint zeros_word (w : Z) (j : nat) (size : Z) : Z * bool :=
  match j with
  | O => (size, false)
  | S j => if negb (Z.shiftr w (8 * Z.of_nat j) =? 0) then (size, true)
           else zeros_word w j (size - 1)
  end.

(** The outer loop, from word [n - 1] down. *)
Fixpoint zeros_words (bits : list Z) (n : nat) (size : Z) : Z :=
  match n with
  | O => size
  | S i => let '(size, stop) := zeros_word (nth i bits 0) word_size size in
           if stop then size else zeros_words bits i size
  end.

Definition Currency_MarshalSiaSize (c : Currency) : Z :=
  let bits := big_Bits c in
  8 + zeros_words bits (length bits) (zlen bits * Z.of_nat word_size).

(** ** Structs *)

Definition SiaPublicKey_MarshalSia (spk : SiaPublicKey) : bytes :=
  vec_to_list (spk_Algorithm spk) ++ WritePrefixedBytes (spk_Key spk).

Definition UnlockConditions_MarshalSia (uc : UnlockConditions) : bytes :=
  WriteUint64 (uc_Timelock uc) ++
  write_slice SiaPublicKey_MarshalSia (uc_PublicKeys uc) ++
  WriteUint64 (uc_SignaturesRequired uc).

(** The slices of a [CoveredFields] in the order of the source's [fields]. *)
Definition covered_slices (cf : CoveredFields) : list (list Z) :=
  [cf_SiacoinInputs cf; cf_SiacoinOutputs cf; cf_FileContracts cf;
   cf_FileContractRevisions cf; cf_StorageProofs cf; cf_SiafundInputs cf;
   cf_SiafundOutputs cf; cf_MinerFees cf; cf_ArbitraryData cf;
   cf_TransactionSignatures cf].

Definition CoveredFields_MarshalSia (cf : CoveredFields) : bytes :=
  WriteBool (cf_WholeTransaction cf) ++
  concat (write_slice WriteUint64 <$> covered_slices cf).

Definition TransactionSignature_MarshalSia (ts : TransactionSignature) : bytes :=
  vec_to_list (ts_ParentID ts) ++
  WriteUint64 (ts_PublicKeyIndex ts) ++
  WriteUint64 (ts_Timelock ts) ++
  CoveredFields_MarshalSia (ts_CoveredFields ts) ++
  WritePrefixedBytes (ts_Signature ts).

Definition SiacoinInput_MarshalSia (sci : SiacoinInput) : bytes :=
  vec_to_list (sci_ParentID sci) ++
  UnlockConditions_MarshalSia (sci_UnlockConditions sci).

Definition SiacoinOutput_MarshalSia (sco : SiacoinOutput) : bytes :=
  Currency_MarshalSia (sco_Value sco) ++ vec_to_list (sco_UnlockHash sco).

Definition SiafundInput_MarshalSia (sfi : SiafundInput) : bytes :=
  vec_to_list (sfi_ParentID sfi) ++
  UnlockConditions_MarshalSia (sfi_UnlockConditions sfi) ++
  vec_to_list (sfi_ClaimUnlockHash sfi).

Definition SiafundOutput_MarshalSia (sfo : SiafundOutput) : bytes :=
  Currency_MarshalSia (sfo_Value sfo) ++
  vec_to_list (sfo_UnlockHash sfo) ++
  Currency_MarshalSia (sfo_ClaimStart sfo).

Definition FileContract_MarshalSia (fc : FileContract) : bytes :=
  WriteUint64 (fc_FileSize fc) ++
  vec_to_list (fc_FileMerkleRoot fc) ++
  WriteUint64 (fc_WindowStart fc) ++
  WriteUint64 (fc_WindowEnd fc) ++
  Currency_MarshalSia (fc_Payout fc) ++
  write_slice SiacoinOutput_MarshalSia (fc_ValidProofOutputs fc) ++
  write_slice SiacoinOutput_MarshalSia (fc_MissedProofOutputs fc) ++
  vec_to_list (fc_UnlockHash fc) ++
  WriteUint64 (fc_RevisionNumber fc).

Definition FileContractRevision_MarshalSia (fcr : FileContractRevision) : bytes :=
  vec_to_list (fcr_ParentID fcr) ++
  UnlockConditions_MarshalSia (fcr_UnlockConditions fcr) ++
  WriteUint64 (fcr_NewRevisionNumber fcr) ++
  WriteUint64 (fcr_NewFileSize fcr) ++
  vec_to_list (fcr_NewFileMerkleRoot fcr) ++
  WriteUint64 (fcr_NewWindowStart fcr) ++
  WriteUint64 (fcr_NewWindowEnd fcr) ++
  write_slice SiacoinOutput_MarshalSia (fcr_NewValidProofOutputs fcr) ++
  write_slice SiacoinOutput_MarshalSia (fcr_NewMissedProofOutputs fcr) ++
  vec_to_list (fcr_NewUnlockHash fcr).

Definition StorageProof_MarshalSia (sp : StorageProof) : bytes :=
  vec_to_list (sp_ParentID sp) ++
  vec_to_list (sp_Segment sp) ++
  write_slice (fun h : Hash => vec_to_list h) (sp_HashSet sp).

Definition Transaction_MarshalSiaNoSignatures (t : Transaction) : bytes :=
  write_slice SiacoinInput_MarshalSia (t_SiacoinInputs t) ++
  write_slice SiacoinOutput_MarshalSia (t_SiacoinOutputs t) ++
  write_slice FileContract_MarshalSia (t_FileContracts t) ++
  write_slice FileContractRevision_MarshalSia (t_FileContractRevisions t) ++
  write_slice StorageProof_MarshalSia (t_StorageProofs t) ++
  write_slice SiafundInput_MarshalSia (t_SiafundInputs t) ++
  write_slice SiafundOutput_MarshalSia (t_SiafundOutputs t) ++
  write_slice Currency_MarshalSia (t_MinerFees t) ++
  write_slice WritePrefixedBytes (t_ArbitraryData t).

Definition Transaction_MarshalSia (t : Transaction) : bytes :=
  Transaction_MarshalSiaNoSignatures t ++
  write_slice TransactionSignature_MarshalSia (t_TransactionSignatures t).

Definition Block_MarshalSia (b : Block) : bytes :=
  vec_to_list (b_ParentID b) ++
  vec_to_list (b_Nonce b) ++
  WriteUint64 (b_Timestamp b) ++
  write_slice SiacoinOutput_MarshalSia (b_MinerPayouts b) ++
  write_slice Transaction_MarshalSia (b_Transactions b).

(** No [MarshalSia] method: the struct's fields in order. *)
Definition BlockHeader_MarshalSia (h : BlockHeader) : bytes :=
  vec_to_list (h_ParentID h) ++
  vec_to_list (h_Nonce h) ++
  WriteUint64 (h_Timestamp h) ++
  vec_to_list (h_MerkleRoot h).

End encoding.

(** ** Sizes *)

(** [for _, x := range l { size += f(x) }]. *)
Definition size_slice {A} (f : A -> Z) (l : list A) : Z :=
  fold_left (fun size x => size + f x) l 0.

Definition sco_size (sco : SiacoinOutput) : Z :=
  Currency_MarshalSiaSize (sco_Value sco) + 32.

Definition UnlockConditions_MarshalSiaSize (uc : UnlockConditions) : Z :=
  8 + 8 + size_slice (fun spk => 16 + (8 + zlen (spk_Key spk))) (uc_PublicKeys uc) + 8.

Definition CoveredFields_MarshalSiaSize (cf : CoveredFields) : Z :=
  1 + (8 + zlen (cf_SiacoinInputs cf) * 8)
    + (8 + zlen (cf_SiacoinOutputs cf) * 8)
    + (8 + zlen (cf_FileContracts cf) * 8)
    + (8 + zlen (cf_FileContractRevisions cf) * 8)
    + (8 + zlen (cf_StorageProofs cf) * 8)
    + (8 + zlen (cf_SiafundInputs cf) * 8)
    + (8 + zlen (cf_SiafundOutputs cf) * 8)
    + (8 + zlen (cf_MinerFees cf) * 8)
    + (8 + zlen (cf_ArbitraryData cf) * 8)
    + (8 + zlen (cf_TransactionSignatures cf) * 8).

Definition FileContract_MarshalSiaSize (fc : FileContract) : Z :=
  8 + 32 + (8 + 8) + Currency_MarshalSiaSize (fc_Payout fc)
  + 8 + size_slice sco_size (fc_ValidProofOutputs fc)
  + 8 + size_slice sco_size (fc_MissedProofOutputs fc)
  + 32 + 8.

Definition FileContractRevision_MarshalSiaSize (fcr : FileContractRevision) : Z :=
  32 + UnlockConditions_MarshalSiaSize (fcr_UnlockConditions fcr)
  + 8 + 8 + 32 + (8 + 8)
  + 8 + size_slice sco_size (fcr_NewValidProofOutputs fcr)
  + 8 + size_slice sco_size (fcr_NewMissedProofOutputs fcr)
  + 32.

Definition Transaction_MarshalSiaSize (t : Transaction) : Z :=
  8 + size_slice
        (fun sci => 32 + UnlockConditions_MarshalSiaSize (sci_UnlockConditions sci))
        (t_SiacoinInputs t)
  + 8 + size_slice sco_size (t_SiacoinOutputs t)
  + 8 + size_slice FileContract_MarshalSiaSize (t_FileContracts t)
  + 8 + size_slice FileContractRevision_MarshalSiaSize (t_FileContractRevisions t)
  + 8 + size_slice (fun sp => 32 + 64 + (8 + zlen (sp_HashSet sp) * 32))
          (t_StorageProofs t)
  + 8 + size_slice
          (fun sfi => 32 + 32 + UnlockConditions_MarshalSiaSize (sfi_UnlockConditions sfi))
          (t_SiafundInputs t)
  + 8 + size_slice
          (fun sfo => Currency_MarshalSiaSize (sfo_Value sfo) + 32
                      + Currency_MarshalSiaSize (sfo_ClaimStart sfo))
          (t_SiafundOutputs t)
  + 8 + size_slice Currency_MarshalSiaSize (t_MinerFees t)
  + 8 + size_slice (fun d => 8 + zlen d) (t_ArbitraryData t)
  + 8 + size_slice
          (fun ts => 32 + 8 + 8 + CoveredFields_MarshalSiaSize (ts_CoveredFields ts)
                     + (8 + zlen (ts_Signature ts)))
          (t_TransactionSignatures t).
