(* ===== verification/EncodingFacts.v ===== *)
(** * Lemmas on the binary encoding

    That [Currency.MarshalSia] writes the shortest big-endian encoding, and
    that [MarshalSiaSize] is the length of what [MarshalSia] writes. *)

From S2P Require Import Prelude Bytes Interfaces Currency Types Encoding.

Open Scope Z_scope.

(** ** Currency *)

(** The number of bytes of the shortest big-endian encoding. *)
Definition byte_len (c : Currency) : nat := N.to_nat ((N.size c + 7) / 8).

Lemma pow256 n : 0 <= n -> 256 ^ n = 2 ^ (8 * n).
Proof. intros Hn. by rewrite Z.pow_mul_r by lia. Qed.

Lemma N2Z_log2 c : Z.of_N (N.log2 c) = Z.log2 (Z.of_N c).
Proof. by destruct c as [|[]]. Qed.

Lemma N_size_lt c n : Z.of_N c < 2 ^ n -> 0 <= n -> Z.of_N (N.size c) <= n.
Proof.
  intros Hc Hn. destruct (decide (c = 0)%N) as [->|H0]; [simpl; lia|].
  rewrite N.size_log2 by done.
  assert (Z.log2 (Z.of_N c) < n) by (apply Z.log2_lt_pow2; lia).
  rewrite N2Z.inj_succ, N2Z_log2. lia.
Qed.

Lemma byte_len_unique c k :
  Z.of_N c < 256 ^ Z.of_nat k ->
  (k = 0%nat \/ 256 ^ (Z.of_nat k - 1) <= Z.of_N c) -> byte_len c = k.
Proof.
  intros Hlt Hge. unfold byte_len.
  rewrite pow256 in Hlt by lia.
  apply N_size_lt in Hlt; [|lia].
  assert (Hlow : Z.of_nat k = 0 \/ 8 * (Z.of_nat k - 1) < Z.of_N (N.size c)).
  { destruct Hge as [->|Hge]; [by left|].
    destruct k as [|k]; [by left|]. right.
    rewrite pow256 in Hge by lia.
    assert (0 < 2 ^ (8 * (Z.of_nat (S k) - 1))) by (apply Z.pow_pos_nonneg; lia).
    rewrite N.size_log2 by lia. rewrite N2Z.inj_succ, N2Z_log2.
    apply Z.log2_le_pow2 in Hge; lia. }
  set (q := ((N.size c + 7) / 8)%N).
  assert (q = N.of_nat k); [|lia].
  unfold q. symmetry. apply (N.div_unique _ _ _ (N.size c + 7 - 8 * N.of_nat k)%N); lia.
Qed.

Section currency.
Context (c : Currency).
Abbreviation words := (N.to_nat ((N.size c + 63) / 64)).

Lemma length_big_Bits : length (big_Bits c) = words.
Proof. unfold big_Bits. by rewrite length_fmap, length_seq. Qed.

Lemma nth_big_Bits i :
  (i < words)%nat ->
  nth i (big_Bits c) 0 = Z.shiftr (Z.of_N c) (64 * Z.of_nat i) mod 2 ^ 64.
Proof.
  intros Hi. unfold big_Bits.
  erewrite nth_lookup_Some; [done|]. rewrite list_lookup_fmap, lookup_seq_lt by done.
  done.
Qed.

Lemma bits_fit : Z.of_N c < 256 ^ Z.of_nat (words * word_size).
Proof.
  rewrite pow256 by apply Nat2Z.is_nonneg.
  destruct (decide (c = 0)%N) as [->|H0]; [done|].
  assert (Hs : Z.of_N c < 2 ^ Z.of_N (N.size c)).
  { rewrite N.size_log2, N2Z.inj_succ, N2Z_log2 by done.
    apply Z.log2_spec. lia. }
  eapply Z.lt_le_trans; [exact Hs|]. apply Z.pow_le_mono_r; [lia|].
  unfold word_size. pose proof (N.div_mod (N.size c + 63) 64).
  pose proof (N.mod_lt (N.size c + 63) 64). lia.
Qed.

(** Byte [i], and the bytes from [i] on when there is none above. *)
Lemma bits_from_mod i :
  (i < words * word_size)%nat ->
  bits_from (big_Bits c) i mod 256 = (Z.of_N c / 256 ^ Z.of_nat i) mod 256.
Proof.
  intros Hi. unfold bits_from, word_size in *.
  rewrite nth_big_Bits by (apply Nat.Div0.div_lt_upper_bound; lia).
  pose proof (Nat.div_mod_eq i 8). pose proof (Nat.mod_upper_bound i 8).
  rewrite pow256, <- Z.shiftr_div_pow2 by lia. change 256 with (2 ^ 8).
  apply Z.bits_inj'. intros n Hn.
  destruct (Z.ltb_spec n 8).
  - rewrite !Z.mod_pow2_bits_low by lia. rewrite Z.shiftr_spec by lia.
    rewrite Z.mod_pow2_bits_low by lia. rewrite !Z.shiftr_spec by lia. f_equal. lia.
  - by rewrite !Z.mod_pow2_bits_high by lia.
Qed.

Lemma bits_from_top i :
  (i < words * word_size)%nat -> Z.of_N c < 256 ^ Z.of_nat (S i) ->
  bits_from (big_Bits c) i = Z.of_N c / 256 ^ Z.of_nat i.
Proof.
  intros Hi Hc. unfold bits_from, word_size in *.
  rewrite nth_big_Bits by (apply Nat.Div0.div_lt_upper_bound; lia).
  pose proof (Nat.div_mod_eq i 8). pose proof (Nat.mod_upper_bound i 8).
  rewrite Z.mod_small.
  - rewrite Z.shiftr_shiftr, pow256, <- Z.shiftr_div_pow2 by lia. f_equal. lia.
  - rewrite Z.shiftr_div_pow2 by lia. split; [apply Z.div_pos; lia|].
    apply Z.div_lt_upper_bound; [lia|]. rewrite <- Z.pow_add_r by lia.
    eapply Z.lt_le_trans; [exact Hc|]. rewrite pow256 by lia.
    apply Z.pow_le_mono_r; lia.
Qed.

Lemma currency_seek_spec n :
  (n <= words * word_size)%nat -> Z.of_N c < 256 ^ Z.of_nat n ->
  let k := currency_seek (big_Bits c) n in
  (k <= n)%nat /\ Z.of_N c < 256 ^ Z.of_nat k /\
  (k = 0%nat \/ 256 ^ (Z.of_nat k - 1) <= Z.of_N c).
Proof.
  induction n as [|i IH]; intros Hn Hc; cbn [currency_seek].
  - split; [done|]. split; [done|by left].
  - rewrite bits_from_top by (lia || done).
    assert (0 < 256 ^ Z.of_nat i) by (apply Z.pow_pos_nonneg; lia).
    destruct (Z.eqb_spec (Z.of_N c / 256 ^ Z.of_nat i) 0) as [Hz|Hz]; simpl negb; cbv iota.
    + apply Z.div_small_iff in Hz; [|lia].
      destruct IH as (? & ? & ?); [lia|lia|]. split_and!; [lia|done|done].
    + split_and!; [done|done|]. right.
      replace (Z.of_nat (S i) - 1) with (Z.of_nat i) by lia.
      destruct (Z.lt_ge_cases (Z.of_N c) (256 ^ Z.of_nat i)); [|done].
      rewrite Z.div_small in Hz by lia. done.
Qed.

Lemma currency_seek_byte_len :
  currency_seek (big_Bits c) (length (big_Bits c) * word_size) = byte_len c.
Proof.
  rewrite length_big_Bits.
  destruct (currency_seek_spec (words * word_size)) as (_ & ? & ?);
    [done|apply bits_fit|]. symmetry. by apply byte_len_unique.
Qed.

Lemma byte_len_fits :
  (byte_len c <= words * word_size)%nat /\ Z.of_N c < 256 ^ Z.of_nat (byte_len c).
Proof.
  rewrite <- currency_seek_byte_len, length_big_Bits.
  destruct (currency_seek_spec (words * word_size)) as (? & ? & _);
    [done|apply bits_fit|done].
Qed.

Lemma byte_len_low : (0 < byte_len c)%nat -> 256 ^ (Z.of_nat (byte_len c) - 1) <= Z.of_N c.
Proof.
  rewrite <- currency_seek_byte_len, length_big_Bits.
  destruct (currency_seek_spec (words * word_size)) as (_ & _ & [H|H]);
    [done|apply bits_fit| |done]. rewrite H. lia.
Qed.

Lemma length_currency_bytes bits n : length (currency_bytes bits n) = n.
Proof. induction n; simpl; auto. Qed.

Lemma be_val_currency_bytes n :
  (n <= words * word_size)%nat ->
  be_val (currency_bytes (big_Bits c) n) = Z.of_N c mod 256 ^ Z.of_nat n.
Proof.
  induction n as [|i IH]; intros Hn; cbn [currency_bytes].
  - by rewrite Z.mod_1_r.
  - rewrite be_val_cons, length_currency_bytes, IH, bz_zb, bits_from_mod by lia.
    rewrite Nat2Z.inj_succ, Z.pow_succ_r, (Z.mul_comm 256) by lia.
    rewrite Z.rem_mul_r by (try apply Z.pow_nonzero; lia). lia.
Qed.

(** The shortest big-endian encoding of the value. *)
Lemma Currency_MarshalSia_be {E : SiaEncoding} :
  Currency_MarshalSia c =
  WriteInt (Z.of_nat (byte_len c)) ++ be_bytes (byte_len c) (Z.of_N c).
Proof.
  unfold Currency_MarshalSia. rewrite currency_seek_byte_len. f_equal.
  apply be_val_inj.
  - by rewrite length_currency_bytes, length_be_bytes.
  - rewrite be_val_be_bytes. apply be_val_currency_bytes, byte_len_fits.
Qed.

(** The two nested loops of [MarshalSiaSize] are the one of [MarshalSia]. *)
Lemma zeros_word_seek bits i j :
  (j <= 8)%nat ->
  let '(s, stop) := zeros_word (nth i bits 0) j (Z.of_nat (8 * i + j)) in
  if stop then s = Z.of_nat (currency_seek bits (8 * i + j))
  else s = Z.of_nat (8 * i) /\
       currency_seek bits (8 * i + j) = currency_seek bits (8 * i).
Proof.
  induction j as [|j IH]; intros Hj; cbn [zeros_word].
  - rewrite Nat.add_0_r. done.
  - rewrite Nat.add_succ_r. cbn [currency_seek].
    assert (bits_from bits (8 * i + j) = Z.shiftr (nth i bits 0) (8 * Z.of_nat j)) as ->.
    { unfold bits_from, word_size. rewrite (Nat.mul_comm 8 i).
      rewrite Nat.div_add_l, Nat.div_small, Nat.add_0_r by lia.
      rewrite Nat.add_comm, Nat.Div0.mod_add, Nat.mod_small by lia. done. }
    destruct (negb _); [done|].
    replace (Z.of_nat (S (8 * i + j)) - 1) with (Z.of_nat (8 * i + j)) by lia.
    apply IH. lia.
Qed.

Lemma zeros_words_seek bits n :
  zeros_words bits n (Z.of_nat (8 * n)) = Z.of_nat (currency_seek bits (8 * n)).
Proof.
  induction n as [|i IH]; cbn [zeros_words]; [done|].
  pose proof (zeros_word_seek bits i 8 ltac:(done)) as Hw.
  replace (8 * S i)%nat with (8 * i + 8)%nat by lia.
  unfold word_size. destruct (zeros_word _ _ _) as [s []]; [done|].
  destruct Hw as [-> ->]. done.
Qed.

Lemma Currency_MarshalSiaSize_len :
  Currency_MarshalSiaSize c = 8 + Z.of_nat (byte_len c).
Proof.
  unfold Currency_MarshalSiaSize, zlen.
  replace (Z.of_nat (length (big_Bits c)) * Z.of_nat word_size)
    with (Z.of_nat (8 * length (big_Bits c))) by (unfold word_size; lia).
  rewrite zeros_words_seek. rewrite <- currency_seek_byte_len.
  unfold word_size. by rewrite (Nat.mul_comm 8).
Qed.

End currency.

(** ** Well-formed values

    What every value the program holds satisfies: integers in their range and
    slices short enough for the decoder's length prefix. *)

Definition wf_len {A} (l : list A) : Prop := zlen l < 2 ^ 31.
Definition wf_slice {A} (P : A -> Prop) (l : list A) : Prop := wf_len l /\ Forall P l.
Definition wf_cur (c : Currency) : Prop := Z.of_nat (byte_len c) < 2 ^ 31.
Definition wf_spk (spk : SiaPublicKey) : Prop := wf_len (spk_Key spk).
Definition wf_uc (uc : UnlockConditions) : Prop :=
  is_u64 (uc_Timelock uc) /\ wf_slice wf_spk (uc_PublicKeys uc) /\
  is_u64 (uc_SignaturesRequired uc).
Definition wf_cf (cf : CoveredFields) : Prop :=
  Forall (wf_slice is_u64) (covered_slices cf).
Definition wf_ts (ts : TransactionSignature) : Prop :=
  is_u64 (ts_PublicKeyIndex ts) /\ is_u64 (ts_Timelock ts) /\
  wf_cf (ts_CoveredFields ts) /\ wf_len (ts_Signature ts).
Definition wf_sci (sci : SiacoinInput) : Prop := wf_uc (sci_UnlockConditions sci).
Definition wf_sco (sco : SiacoinOutput) : Prop := wf_cur (sco_Value sco).
Definition wf_sfi (sfi : SiafundInput) : Prop := wf_uc (sfi_UnlockConditions sfi).
Definition wf_sfo (sfo : SiafundOutput) : Prop :=
  wf_cur (sfo_Value sfo) /\ wf_cur (sfo_ClaimStart sfo).
Definition wf_fc (fc : FileContract) : Prop :=
  is_u64 (fc_FileSize fc) /\ is_u64 (fc_WindowStart fc) /\ is_u64 (fc_WindowEnd fc) /\
  wf_cur (fc_Payout fc) /\ wf_slice wf_sco (fc_ValidProofOutputs fc) /\
  wf_slice wf_sco (fc_MissedProofOutputs fc) /\ is_u64 (fc_RevisionNumber fc).
Definition wf_fcr (fcr : FileContractRevision) : Prop :=
  wf_uc (fcr_UnlockConditions fcr) /\ is_u64 (fcr_NewRevisionNumber fcr) /\
  is_u64 (fcr_NewFileSize fcr) /\ is_u64 (fcr_NewWindowStart fcr) /\
  is_u64 (fcr_NewWindowEnd fcr) /\ wf_slice wf_sco (fcr_NewValidProofOutputs fcr) /\
  wf_slice wf_sco (fcr_NewMissedProofOutputs fcr).
Definition wf_sp (sp : StorageProof) : Prop := wf_len (sp_HashSet sp).
Definition wf_txn (t : Transaction) : Prop :=
  wf_slice wf_sci (t_SiacoinInputs t) /\ wf_slice wf_sco (t_SiacoinOutputs t) /\
  wf_slice wf_fc (t_FileContracts t) /\ wf_slice wf_fcr (t_FileContractRevisions t) /\
  wf_slice wf_sp (t_StorageProofs t) /\ wf_slice wf_sfi (t_SiafundInputs t) /\
  wf_slice wf_sfo (t_SiafundOutputs t) /\ wf_slice wf_cur (t_MinerFees t) /\
  wf_slice wf_len (t_ArbitraryData t) /\ wf_slice wf_ts (t_TransactionSignatures t).
Definition wf_block (b : Block) : Prop :=
  is_u64 (b_Timestamp b) /\ wf_slice wf_sco (b_MinerPayouts b) /\
  wf_slice wf_txn (b_Transactions b).

(** ** The size methods *)

Lemma zlen_app {A} (l1 l2 : list A) : zlen (l1 ++ l2) = zlen l1 + zlen l2.
Proof. unfold zlen. rewrite length_app. lia. Qed.

Lemma zlen_array {n} (v : array n) : zlen (vec_to_list v) = Z.of_nat n.
Proof. unfold zlen. by rewrite length_vec_to_list. Qed.

Lemma size_slice_acc {A} (f : A -> Z) l acc :
  fold_left (fun size x => size + f x) l acc = acc + size_slice f l.
Proof.
  unfold size_slice. revert acc. induction l as [|x l IH]; intros acc; cbn [fold_left]; [lia|].
  rewrite IH, (IH (0 + f x)). lia.
Qed.

Lemma size_slice_cons {A} (f : A -> Z) x l :
  size_slice f (x :: l) = f x + size_slice f l.
Proof. unfold size_slice at 1. cbn [fold_left]. by rewrite size_slice_acc. Qed.

Lemma size_slice_const {A} (k : Z) (l : list A) : size_slice (fun _ => k) l = zlen l * k.
Proof.
  induction l as [|x l IH]; [done|]. rewrite size_slice_cons, IH.
  unfold zlen. simpl length. lia.
Qed.

Lemma size_slice_nonneg {A} (f : A -> Z) l :
  (forall x, 0 <= f x) -> 0 <= size_slice f l.
Proof.
  intros Hf. induction l as [|x l IH]; [done|].
  rewrite size_slice_cons. specialize (Hf x). lia.
Qed.

Section sizes.
Context {E : SiaEncoding} {EL : SiaEncodingLaws E}.

Lemma zlen_WriteUint64 z : is_u64 z -> zlen (WriteUint64 z) = 8.
Proof. intros. unfold zlen. by rewrite length_WriteUint64. Qed.

Lemma zlen_WriteInt n : 0 <= n < 2 ^ 31 -> zlen (WriteInt n) = 8.
Proof. intros. unfold zlen. by rewrite length_WriteInt by lia. Qed.

Lemma zlen_WritePrefixedBytes l :
  wf_len l -> zlen (WritePrefixedBytes l) = 8 + zlen l.
Proof.
  unfold wf_len, zlen. intros. rewrite length_WritePrefixedBytes by lia. lia.
Qed.

Lemma zlen_write_slice {A} (P : A -> Prop) (enc : A -> bytes) (f : A -> Z) l :
  wf_slice P l -> (forall x, P x -> zlen (enc x) = f x) ->
  zlen (write_slice enc l) = 8 + size_slice f l.
Proof.
  intros [Hl HP] Hf. unfold write_slice.
  rewrite zlen_app, zlen_WriteInt by (unfold wf_len, zlen in *; lia).
  f_equal. clear Hl. induction HP as [|x l Hx HP IH]; [done|].
  rewrite size_slice_cons. cbn. rewrite zlen_app, (Hf x) by done. by f_equal.
Qed.

Lemma zlen_Currency c : wf_cur c -> zlen (Currency_MarshalSia c) = Currency_MarshalSiaSize c.
Proof.
  intros Hc. unfold wf_cur in Hc.
  rewrite Currency_MarshalSia_be, Currency_MarshalSiaSize_len, zlen_app, zlen_WriteInt by lia.
  unfold zlen. by rewrite length_be_bytes.
Qed.

(** Splits a concatenation and leaves the slices. *)
Ltac enc_sizes :=
  repeat match goal with
  | H : _ /\ _ |- _ => destruct H
  | |- context [zlen (_ ++ _)] => rewrite zlen_app
  | |- context [zlen (vec_to_list _)] => rewrite zlen_array
  | |- context [zlen (WriteUint64 _)] => rewrite zlen_WriteUint64 by done
  | |- context [zlen (Currency_MarshalSia _)] => rewrite zlen_Currency by done
  | |- context [zlen (WritePrefixedBytes _)] => rewrite zlen_WritePrefixedBytes by done
  end.

Lemma zlen_SiacoinOutput sco : wf_sco sco -> zlen (SiacoinOutput_MarshalSia sco) = sco_size sco.
Proof. intros. unfold SiacoinOutput_MarshalSia, sco_size. enc_sizes. lia. Qed.

Lemma zlen_scos l :
  wf_slice wf_sco l -> zlen (write_slice SiacoinOutput_MarshalSia l) = 8 + size_slice sco_size l.
Proof. intros. eapply zlen_write_slice; eauto using zlen_SiacoinOutput. Qed.

Lemma zlen_SiaPublicKey spk :
  wf_spk spk -> zlen (SiaPublicKey_MarshalSia spk) = 16 + (8 + zlen (spk_Key spk)).
Proof. intros. unfold SiaPublicKey_MarshalSia. enc_sizes. lia. Qed.

Lemma zlen_UnlockConditions uc :
  wf_uc uc -> zlen (UnlockConditions_MarshalSia uc) = UnlockConditions_MarshalSiaSize uc.
Proof.
  intros (? & ? & ?). unfold UnlockConditions_MarshalSia, UnlockConditions_MarshalSiaSize.
  enc_sizes. rewrite (zlen_write_slice _ _ _ _ ltac:(eassumption) zlen_SiaPublicKey). lia.
Qed.

Lemma zlen_u64s l : wf_slice is_u64 l -> zlen (write_slice WriteUint64 l) = 8 + zlen l * 8.
Proof.
  intros. rewrite <- size_slice_const. eapply zlen_write_slice; eauto using zlen_WriteUint64.
Qed.

Lemma zlen_CoveredFields cf :
  wf_cf cf -> zlen (CoveredFields_MarshalSia cf) = CoveredFields_MarshalSiaSize cf.
Proof.
  unfold wf_cf, CoveredFields_MarshalSia, CoveredFields_MarshalSiaSize, covered_slices.
  rewrite !Forall_cons. intros H. cbn. enc_sizes.
  rewrite !zlen_u64s by done. unfold zlen at 1. rewrite length_WriteBool.
  change (zlen (@nil byte)) with 0. lia.
Qed.

Lemma zlen_TransactionSignature ts :
  wf_ts ts -> zlen (TransactionSignature_MarshalSia ts) =
    32 + 8 + 8 + CoveredFields_MarshalSiaSize (ts_CoveredFields ts) + (8 + zlen (ts_Signature ts)).
Proof.
  intros (? & ? & ? & ?). unfold TransactionSignature_MarshalSia. enc_sizes.
  rewrite zlen_CoveredFields by done. lia.
Qed.

Lemma zlen_SiacoinInput sci :
  wf_sci sci -> zlen (SiacoinInput_MarshalSia sci) =
    32 + UnlockConditions_MarshalSiaSize (sci_UnlockConditions sci).
Proof.
  intros. unfold SiacoinInput_MarshalSia. enc_sizes. by rewrite zlen_UnlockConditions.
Qed.

Lemma zlen_SiafundInput sfi :
  wf_sfi sfi -> zlen (SiafundInput_MarshalSia sfi) =
    32 + 32 + UnlockConditions_MarshalSiaSize (sfi_UnlockConditions sfi).
Proof.
  intros. unfold SiafundInput_MarshalSia. enc_sizes. rewrite zlen_UnlockConditions by done. lia.
Qed.

Lemma zlen_SiafundOutput sfo :
  wf_sfo sfo -> zlen (SiafundOutput_MarshalSia sfo) =
    Currency_MarshalSiaSize (sfo_Value sfo) + 32 + Currency_MarshalSiaSize (sfo_ClaimStart sfo).
Proof. intros [??]. unfold SiafundOutput_MarshalSia. enc_sizes. lia. Qed.

Lemma zlen_FileContract fc :
  wf_fc fc -> zlen (FileContract_MarshalSia fc) = FileContract_MarshalSiaSize fc.
Proof.
  unfold wf_fc, FileContract_MarshalSia, FileContract_MarshalSiaSize. intros. enc_sizes.
  rewrite !zlen_scos by done. lia.
Qed.

Lemma zlen_FileContractRevision fcr :
  wf_fcr fcr ->
  zlen (FileContractRevision_MarshalSia fcr) = FileContractRevision_MarshalSiaSize fcr.
Proof.
  unfold wf_fcr, FileContractRevision_MarshalSia, FileContractRevision_MarshalSiaSize.
  intros. enc_sizes. rewrite !zlen_scos, zlen_UnlockConditions by done. lia.
Qed.

Lemma zlen_hashes (l : list Hash) :
  wf_len l -> zlen (write_slice (fun h : Hash => vec_to_list h) l) = 8 + zlen l * 32.
Proof.
  intros. rewrite <- size_slice_const. apply (zlen_write_slice (fun _ => True)).
  - split; [done|]. by apply Forall_true.
  - intros h _. by rewrite zlen_array.
Qed.

Lemma zlen_StorageProof sp :
  wf_sp sp -> zlen (StorageProof_MarshalSia sp) = 32 + 64 + (8 + zlen (sp_HashSet sp) * 32).
Proof.
  intros. unfold StorageProof_MarshalSia. enc_sizes. rewrite zlen_hashes by done. lia.
Qed.

Lemma zlen_Transaction t :
  wf_txn t -> zlen (Transaction_MarshalSia t) = Transaction_MarshalSiaSize t.
Proof.
  unfold wf_txn. intros (? & ? & ? & ? & ? & ? & ? & ? & ? & ?).
  unfold Transaction_MarshalSia, Transaction_MarshalSiaNoSignatures, Transaction_MarshalSiaSize.
  enc_sizes. rewrite zlen_scos by done.
  rewrite (zlen_write_slice _ SiacoinInput_MarshalSia _ _ ltac:(eassumption) zlen_SiacoinInput).
  rewrite (zlen_write_slice _ FileContract_MarshalSia _ _ ltac:(eassumption) zlen_FileContract).
  rewrite (zlen_write_slice _ FileContractRevision_MarshalSia _ _ ltac:(eassumption)
             zlen_FileContractRevision).
  rewrite (zlen_write_slice _ StorageProof_MarshalSia _ _ ltac:(eassumption) zlen_StorageProof).
  rewrite (zlen_write_slice _ SiafundInput_MarshalSia _ _ ltac:(eassumption) zlen_SiafundInput).
  rewrite (zlen_write_slice _ SiafundOutput_MarshalSia _ _ ltac:(eassumption) zlen_SiafundOutput).
  rewrite (zlen_write_slice _ Currency_MarshalSia _ _ ltac:(eassumption) zlen_Currency).
  rewrite (zlen_write_slice _ WritePrefixedBytes _ _ ltac:(eassumption) zlen_WritePrefixedBytes).
  rewrite (zlen_write_slice _ TransactionSignature_MarshalSia _ _ ltac:(eassumption)
             zlen_TransactionSignature).
  lia.
Qed.

End sizes.
