(* ===== verification/Decoding.v ===== *)
(** * Decoding the consensus types

    The [UnmarshalSia] methods of types/encoding.go, and that they invert
    [MarshalSia].  A nested [encoding.NewDecoder(d, limit)] is the decoder it
    is given, so that nested methods read on from the same input under the
    outermost limit. *)

From S2P Require Import Prelude Bytes Interfaces Currency Types Params Encoding EncodingFacts.

Open Scope Z_scope.

Section decoding.
Context {D : SiaDecoder}.

Definition Currency_UnmarshalSia : Dec Currency :=
  b ← ReadPrefixedBytes; mret (Z.to_N (be_val b)).

Definition SiaPublicKey_UnmarshalSia : Dec SiaPublicKey :=
  alg ← ReadFull 16; key ← ReadPrefixedBytes; mret (mkSiaPublicKey alg key).

Definition UnlockConditions_UnmarshalSia : Dec UnlockConditions :=
  timelock ← NextUint64;
  keys ← next_slice 40 SiaPublicKey_UnmarshalSia;
  required ← NextUint64;
  mret (mkUnlockConditions timelock keys required).

(** Only the byte one is read as true. *)
Definition CoveredFields_UnmarshalSia : Dec CoveredFields :=
  buf ← ReadFull 1;
  sci ← next_slice 8 NextUint64;
  sco ← next_slice 8 NextUint64;
  fc ← next_slice 8 NextUint64;
  fcr ← next_slice 8 NextUint64;
  sp ← next_slice 8 NextUint64;
  sfi ← next_slice 8 NextUint64;
  sfo ← next_slice 8 NextUint64;
  mf ← next_slice 8 NextUint64;
  ad ← next_slice 8 NextUint64;
  ts ← next_slice 8 NextUint64;
  mret (mkCoveredFields (bool_decide (vec_to_list buf = [Byte.x01]))
          sci sco fc fcr sp sfi sfo mf ad ts).

Definition TransactionSignature_UnmarshalSia : Dec TransactionSignature :=
  parent ← ReadFull 32;
  index ← NextUint64;
  timelock ← NextUint64;
  cf ← CoveredFields_UnmarshalSia;
  sig ← ReadPrefixedBytes;
  mret (mkTransactionSignature parent index timelock cf sig).

Definition SiacoinInput_UnmarshalSia : Dec SiacoinInput :=
  parent ← ReadFull 32; uc ← UnlockConditions_UnmarshalSia;
  mret (mkSiacoinInput parent uc).

Definition SiacoinOutput_UnmarshalSia : Dec SiacoinOutput :=
  value ← Currency_UnmarshalSia; uh ← ReadFull 32; mret (mkSiacoinOutput value uh).

Definition SiafundInput_UnmarshalSia : Dec SiafundInput :=
  parent ← ReadFull 32; uc ← UnlockConditions_UnmarshalSia; claim ← ReadFull 32;
  mret (mkSiafundInput parent uc claim).

Definition SiafundOutput_UnmarshalSia : Dec SiafundOutput :=
  value ← Currency_UnmarshalSia; uh ← ReadFull 32; claim ← Currency_UnmarshalSia;
  mret (mkSiafundOutput value uh claim).

Definition FileContract_UnmarshalSia : Dec FileContract :=
  size ← NextUint64;
  root ← ReadFull 32;
  wstart ← NextUint64;
  wend ← NextUint64;
  payout ← Currency_UnmarshalSia;
  valid ← next_slice 64 SiacoinOutput_UnmarshalSia;
  missed ← next_slice 64 SiacoinOutput_UnmarshalSia;
  uh ← ReadFull 32;
  rev ← NextUint64;
  mret (mkFileContract size root wstart wend payout valid missed uh rev).

Definition FileContractRevision_UnmarshalSia : Dec FileContractRevision :=
  parent ← ReadFull 32;
  uc ← UnlockConditions_UnmarshalSia;
  rev ← NextUint64;
  size ← NextUint64;
  root ← ReadFull 32;
  wstart ← NextUint64;
  wend ← NextUint64;
  valid ← next_slice 64 SiacoinOutput_UnmarshalSia;
  missed ← next_slice 64 SiacoinOutput_UnmarshalSia;
  uh ← ReadFull 32;
  mret (mkFileContractRevision parent uc rev size root wstart wend valid missed uh).

Definition StorageProof_UnmarshalSia : Dec StorageProof :=
  parent ← ReadFull 32;
  segment ← ReadFull 64;
  hashes ← next_slice 32 (ReadFull 32);
  mret (mkStorageProof parent segment hashes).

Definition Transaction_UnmarshalSia : Dec Transaction :=
  sci ← next_slice 72 SiacoinInput_UnmarshalSia;
  sco ← next_slice 64 SiacoinOutput_UnmarshalSia;
  fc ← next_slice 176 FileContract_UnmarshalSia;
  fcr ← next_slice 216 FileContractRevision_UnmarshalSia;
  sp ← next_slice 120 StorageProof_UnmarshalSia;
  sfi ← next_slice 104 SiafundInput_UnmarshalSia;
  sfo ← next_slice 96 SiafundOutput_UnmarshalSia;
  mf ← next_slice 32 Currency_UnmarshalSia;
  ad ← next_slice 24 ReadPrefixedBytes;
  ts ← next_slice 320 TransactionSignature_UnmarshalSia;
  mret (mkTransaction sci sco fc fcr sp sfi sfo mf ad ts).

(** The method proper, on a decoder. *)
Definition Block_decode : Dec Block :=
  parent ← ReadFull 32;
  nonce ← ReadFull 8;
  ts ← NextUint64;
  payouts ← next_slice 64 SiacoinOutput_UnmarshalSia;
  txns ← next_slice 240 Transaction_UnmarshalSia;
  mret (mkBlock parent nonce ts payouts txns).

(** On a reader: the block, or [None] for the decoder's error. *)
Definition Block_UnmarshalSia (r : bytes) : option Block :=
  let '(b, d) := Block_decode (NewDecoder r (BlockSizeLimit * 3)) in
  if dec_Err d then None else Some b.

(** [encoding.DefaultAllocLimit] is a constant of the encoding package. *)
Definition Transaction_Unmarshal (limit : Z) (r : bytes) : option Transaction :=
  let '(t, d) := Transaction_UnmarshalSia (NewDecoder r limit) in
  if dec_Err d then None else Some t.

End decoding.

(** ** What decoding charges against the limit *)

Definition slice_cost {A} (elemSize : Z) (cost : A -> Z) (l : list A) : Z :=
  8 + zlen l * elemSize + size_slice cost l.
Definition bytes_cost (l : bytes) : Z := 8 + 2 * zlen l.
Definition cur_cost (c : Currency) : Z := 8 + 2 * Z.of_nat (byte_len c).
Definition u64_cost (_ : Z) : Z := 8.
Definition hash_cost (_ : Hash) : Z := 32.
Definition spk_cost (spk : SiaPublicKey) : Z := 16 + (bytes_cost (spk_Key spk) + 0).
Definition uc_cost (uc : UnlockConditions) : Z :=
  8 + (slice_cost 40 spk_cost (uc_PublicKeys uc) + (8 + 0)).
Definition u64s_cost (l : list Z) : Z := slice_cost 8 u64_cost l.
Definition cf_cost (cf : CoveredFields) : Z :=
  1 + (u64s_cost (cf_SiacoinInputs cf) + (u64s_cost (cf_SiacoinOutputs cf) +
  (u64s_cost (cf_FileContracts cf) + (u64s_cost (cf_FileContractRevisions cf) +
  (u64s_cost (cf_StorageProofs cf) + (u64s_cost (cf_SiafundInputs cf) +
  (u64s_cost (cf_SiafundOutputs cf) + (u64s_cost (cf_MinerFees cf) +
  (u64s_cost (cf_ArbitraryData cf) + (u64s_cost (cf_TransactionSignatures cf) + 0)))))))))).
Definition ts_cost (ts : TransactionSignature) : Z :=
  32 + (8 + (8 + (cf_cost (ts_CoveredFields ts) + (bytes_cost (ts_Signature ts) + 0)))).
Definition sci_cost (sci : SiacoinInput) : Z := 32 + (uc_cost (sci_UnlockConditions sci) + 0).
Definition sco_cost (sco : SiacoinOutput) : Z := cur_cost (sco_Value sco) + (32 + 0).
Definition sfi_cost (sfi : SiafundInput) : Z :=
  32 + (uc_cost (sfi_UnlockConditions sfi) + (32 + 0)).
Definition sfo_cost (sfo : SiafundOutput) : Z :=
  cur_cost (sfo_Value sfo) + (32 + (cur_cost (sfo_ClaimStart sfo) + 0)).
Definition fc_cost (fc : FileContract) : Z :=
  8 + (32 + (8 + (8 + (cur_cost (fc_Payout fc) +
  (slice_cost 64 sco_cost (fc_ValidProofOutputs fc) +
  (slice_cost 64 sco_cost (fc_MissedProofOutputs fc) + (32 + (8 + 0)))))))).
Definition fcr_cost (fcr : FileContractRevision) : Z :=
  32 + (uc_cost (fcr_UnlockConditions fcr) + (8 + (8 + (32 + (8 + (8 +
  (slice_cost 64 sco_cost (fcr_NewValidProofOutputs fcr) +
  (slice_cost 64 sco_cost (fcr_NewMissedProofOutputs fcr) + (32 + 0))))))))).
Definition sp_cost (sp : StorageProof) : Z :=
  32 + (64 + (slice_cost 32 hash_cost (sp_HashSet sp) + 0)).
Definition txn_cost (t : Transaction) : Z :=
  slice_cost 72 sci_cost (t_SiacoinInputs t) +
  (slice_cost 64 sco_cost (t_SiacoinOutputs t) +
  (slice_cost 176 fc_cost (t_FileContracts t) +
  (slice_cost 216 fcr_cost (t_FileContractRevisions t) +
  (slice_cost 120 sp_cost (t_StorageProofs t) +
  (slice_cost 104 sfi_cost (t_SiafundInputs t) +
  (slice_cost 96 sfo_cost (t_SiafundOutputs t) +
  (slice_cost 32 cur_cost (t_MinerFees t) +
  (slice_cost 24 bytes_cost (t_ArbitraryData t) +
  (slice_cost 320 ts_cost (t_TransactionSignatures t) + 0))))))))).
Definition block_cost (b : Block) : Z :=
  32 + (8 + (8 + (slice_cost 64 sco_cost (b_MinerPayouts b) +
  (slice_cost 240 txn_cost (b_Transactions b) + 0)))).

(** ** Round trips

    [reads m e c x]: on an input that starts with [e], the decoding function
    [m] returns [x], leaves the rest, and is charged [c]. *)

Create HintDb reads.

Section reads.
Context {E : SiaEncoding} {EL : SiaEncodingLaws E}.
Context {D : SiaDecoder} {DL : SiaDecoderLaws E D}.

Definition reads {A} (m : Dec A) (e : bytes) (c : Z) (x : A) : Prop :=
  0 <= c /\ forall d bs a, 0 <= a -> at_input d (e ++ bs) (c + a) ->
    exists d', m d = (x, d') /\ at_input d' bs a.

Lemma reads_ret {A} (x : A) : reads (mret x) [] 0 x.
Proof.
  split; [done|]. intros d bs a _ H. exists d. split; [done|]. exact H.
Qed.

Lemma reads_bind {A B} (m : Dec A) (f : A -> Dec B) e1 e2 c1 c2 x y :
  reads m e1 c1 x -> reads (f x) e2 c2 y -> reads (m ≫= f) (e1 ++ e2) (c1 + c2) y.
Proof.
  intros [? H1] [? H2]. split; [lia|]. intros d bs a Ha Hd.
  rewrite <- app_assoc in Hd. rewrite <- Z.add_assoc in Hd.
  destruct (H1 d _ (c2 + a) ltac:(lia) Hd) as (d1 & Hm & Hd1).
  destruct (H2 d1 bs a Ha Hd1) as (d2 & Hf & Hd2).
  exists d2. split; [|done]. unfold mbind, Dec_bind. by rewrite Hm.
Qed.

(** The last field: nothing is read behind it. *)
Lemma reads_bind_ret {A B} (m : Dec A) (f : A -> B) e c x :
  reads m e c x -> reads (m ≫= fun x => mret (f x)) e (c + 0) (f x).
Proof.
  intros H. rewrite <- (app_nil_r e). eapply reads_bind; [exact H|]. apply reads_ret.
Qed.

Lemma reads_pair {A} (m : Dec A) e c x :
  0 <= c ->
  (forall d bs a, 0 <= a -> at_input d (e ++ bs) (c + a) ->
     (m d).1 = x /\ at_input (m d).2 bs a) -> reads m e c x.
Proof.
  intros Hc H. split; [done|]. intros d bs a Ha Hd.
  destruct (H d bs a Ha Hd) as [Hx Hd']. exists (m d).2. split; [|done].
  by rewrite <- Hx, <- surjective_pairing.
Qed.

Lemma reads_NextUint64 z : is_u64 z -> reads NextUint64 (WriteUint64 z) 8 z.
Proof. intros. apply reads_pair; [done|]. intros. by apply NextUint64_at. Qed.

Lemma reads_ReadFull n (v : array n) :
  reads (ReadFull n) (vec_to_list v) (Z.of_nat n) v.
Proof. apply reads_pair; [lia|]. intros. by apply ReadFull_at. Qed.

Lemma reads_ReadPrefixedBytes l :
  wf_len l -> reads ReadPrefixedBytes (WritePrefixedBytes l) (bytes_cost l) l.
Proof.
  intros Hl. apply reads_pair; [unfold bytes_cost, zlen; lia|].
  intros. by apply ReadPrefixedBytes_at.
Qed.

Lemma reads_repeat {A} (P : A -> Prop) (m : Dec A) (enc : A -> bytes) cost l :
  (forall x, P x -> reads m (enc x) (cost x) x) -> Forall P l ->
  reads (repeat_dec (length l) m) (concat (enc <$> l)) (size_slice cost l) l.
Proof.
  intros Hm. induction 1 as [|x l Hx _ IH]; [apply reads_ret|].
  rewrite size_slice_cons. cbn. eapply reads_bind; [by apply Hm|].
  rewrite <- (app_nil_r (concat _)), <- (Z.add_0_r (size_slice _ _)).
  eapply reads_bind; [apply IH|]. apply reads_ret.
Qed.

Lemma reads_next_slice {A} (P : A -> Prop) k (m : Dec A) (enc : A -> bytes) cost l :
  0 <= k -> (forall x, P x -> reads m (enc x) (cost x) x) -> wf_slice P l ->
  reads (next_slice k m) (write_slice enc l) (slice_cost k cost l) l.
Proof.
  intros Hk Hm [Hl HP]. unfold next_slice, write_slice, slice_cost.
  eapply (reads_bind _ _ _ _ _ _ (zlen l)).
  - apply reads_pair; [unfold zlen; lia|]. intros d bs a Ha Hd.
    apply NextPrefix_at; [|done..]. unfold wf_len, zlen in *. lia.
  - unfold zlen. rewrite Nat2Z.id. by eapply reads_repeat.
Qed.

Lemma reads_Currency c :
  wf_cur c -> reads Currency_UnmarshalSia (Currency_MarshalSia c) (cur_cost c) c.
Proof.
  intros Hc. unfold wf_cur in Hc. rewrite Currency_MarshalSia_be.
  set (b := be_bytes (byte_len c) (Z.of_N c)).
  assert (Hb : zlen b = Z.of_nat (byte_len c)) by (unfold zlen, b; by rewrite length_be_bytes).
  assert (Hv : Z.to_N (be_val b) = c).
  { unfold b. rewrite be_val_be_bytes, Z.mod_small, N2Z.id; [done|].
    pose proof (byte_len_fits c). lia. }
  assert (Hw : WriteInt (Z.of_nat (byte_len c)) ++ b = WritePrefixedBytes b)
    by (rewrite <- Hb; unfold zlen in *; rewrite WritePrefixedBytes_app by lia; done).
  assert (Hr : reads Currency_UnmarshalSia (WritePrefixedBytes b) (bytes_cost b + 0)
                 (Z.to_N (be_val b))).
  { apply (reads_bind_ret _ (fun b => Z.to_N (be_val b))), reads_ReadPrefixedBytes.
    unfold wf_len. lia. }
  rewrite Hw. rewrite Hv in Hr.
  replace (cur_cost c) with (bytes_cost b + 0) by (unfold cur_cost, bytes_cost; lia).
  exact Hr.
Qed.

(** A struct: its fields one after the other. *)
Ltac reads_field :=
  solve [eauto with reads | eapply reads_next_slice; [lia| |eassumption]; eauto with reads].
Ltac reads_fields :=
  repeat match goal with H : _ /\ _ |- _ => destruct H end;
  repeat first [eapply reads_bind_ret; reads_field | eapply reads_bind; [reads_field|]].

Hint Resolve reads_NextUint64 reads_ReadFull reads_ReadPrefixedBytes reads_Currency : reads.

Lemma reads_SiaPublicKey spk :
  wf_spk spk -> reads SiaPublicKey_UnmarshalSia (SiaPublicKey_MarshalSia spk) (spk_cost spk) spk.
Proof. destruct spk. intros. unfold wf_spk in *. reads_fields. Qed.
Hint Resolve reads_SiaPublicKey : reads.

Lemma reads_UnlockConditions uc :
  wf_uc uc ->
  reads UnlockConditions_UnmarshalSia (UnlockConditions_MarshalSia uc) (uc_cost uc) uc.
Proof. destruct uc. intros (? & ? & ?). reads_fields. Qed.
Hint Resolve reads_UnlockConditions : reads.

Lemma reads_CoveredFields cf :
  wf_cf cf ->
  reads CoveredFields_UnmarshalSia (CoveredFields_MarshalSia cf) (cf_cost cf) cf.
Proof.
  destruct cf as [w]. unfold wf_cf, covered_slices. rewrite !Forall_cons. cbn. intros.
  unfold CoveredFields_MarshalSia, covered_slices. cbn. rewrite app_nil_r.
  rewrite WriteBool_byte.
  set (buf := vcons (if w then Byte.x01 else Byte.x00) vnil : array 1).
  change [_] with (vec_to_list buf).
  assert (Hw : w = bool_decide (vec_to_list buf = [Byte.x01])) by (by destruct w).
  rewrite Hw at 2. eapply reads_bind; [apply reads_ReadFull|]. reads_fields.
Qed.
Hint Resolve reads_CoveredFields : reads.

Lemma reads_TransactionSignature ts :
  wf_ts ts ->
  reads TransactionSignature_UnmarshalSia (TransactionSignature_MarshalSia ts) (ts_cost ts) ts.
Proof. destruct ts. intros (? & ? & ? & ?). reads_fields. Qed.
Hint Resolve reads_TransactionSignature : reads.

Lemma reads_SiacoinInput sci :
  wf_sci sci -> reads SiacoinInput_UnmarshalSia (SiacoinInput_MarshalSia sci) (sci_cost sci) sci.
Proof. destruct sci. intros. unfold wf_sci in *. reads_fields. Qed.
Hint Resolve reads_SiacoinInput : reads.

Lemma reads_SiacoinOutput sco :
  wf_sco sco -> reads SiacoinOutput_UnmarshalSia (SiacoinOutput_MarshalSia sco) (sco_cost sco) sco.
Proof. destruct sco. intros. unfold wf_sco in *. reads_fields. Qed.
Hint Resolve reads_SiacoinOutput : reads.

Lemma reads_SiafundInput sfi :
  wf_sfi sfi -> reads SiafundInput_UnmarshalSia (SiafundInput_MarshalSia sfi) (sfi_cost sfi) sfi.
Proof. destruct sfi. intros. unfold wf_sfi in *. reads_fields. Qed.
Hint Resolve reads_SiafundInput : reads.

Lemma reads_SiafundOutput sfo :
  wf_sfo sfo -> reads SiafundOutput_UnmarshalSia (SiafundOutput_MarshalSia sfo) (sfo_cost sfo) sfo.
Proof. destruct sfo. intros [??]. reads_fields. Qed.
Hint Resolve reads_SiafundOutput : reads.

Lemma reads_FileContract fc :
  wf_fc fc -> reads FileContract_UnmarshalSia (FileContract_MarshalSia fc) (fc_cost fc) fc.
Proof. destruct fc. unfold wf_fc. intros. reads_fields. Qed.
Hint Resolve reads_FileContract : reads.

Lemma reads_FileContractRevision fcr :
  wf_fcr fcr ->
  reads FileContractRevision_UnmarshalSia (FileContractRevision_MarshalSia fcr)
    (fcr_cost fcr) fcr.
Proof. destruct fcr. unfold wf_fcr. intros. reads_fields. Qed.
Hint Resolve reads_FileContractRevision : reads.

Lemma reads_StorageProof sp :
  wf_sp sp -> reads StorageProof_UnmarshalSia (StorageProof_MarshalSia sp) (sp_cost sp) sp.
Proof.
  destruct sp. unfold wf_sp. intros. do 2 (eapply reads_bind; [apply reads_ReadFull|]).
  eapply reads_bind_ret, (reads_next_slice (fun _ => True)); [done| |].
  - intros h _. apply reads_ReadFull.
  - split; [done|]. by apply Forall_true.
Qed.
Hint Resolve reads_StorageProof : reads.

Lemma reads_Transaction t :
  wf_txn t -> reads Transaction_UnmarshalSia (Transaction_MarshalSia t) (txn_cost t) t.
Proof.
  destruct t. unfold wf_txn. intros.
  unfold Transaction_MarshalSia, Transaction_MarshalSiaNoSignatures.
  rewrite <- !app_assoc. reads_fields.
Qed.
Hint Resolve reads_Transaction : reads.

Lemma reads_Block b :
  wf_block b -> reads Block_decode (Block_MarshalSia b) (block_cost b) b.
Proof. destruct b. unfold wf_block. intros. reads_fields. Qed.

(** A whole input. *)
Lemma reads_input {A} (m : Dec A) e c x limit :
  reads m e c x -> c <= limit ->
  exists d, m (NewDecoder e limit) = (x, d) /\ dec_Err d = false.
Proof.
  intros [Hc H] Hl. destruct (H (NewDecoder e limit) [] (limit - c)) as (d & Hm & Hd).
  - lia.
  - rewrite app_nil_r. replace (c + (limit - c)) with limit by lia.
    apply at_input_new. lia.
  - exists d. split; [done|]. by eapply at_input_Err.
Qed.

End reads.
