(* ===== verification/Codec.v ===== *)
(** * The codec's contract

    The theorems clients of the encoding rely on: sizes, round trips,
    injectivity, and the byte offsets at which the consensus code reads a
    stored block or file contract without decoding it. *)

From S2P Require Import Prelude Bytes Interfaces Currency Instances Types Params.
From S2P Require Import Encoding EncodingFacts Decoding.

Open Scope Z_scope.

Section codec.
Context {E : SiaEncoding} {EL : SiaEncodingLaws E}.

(** C21. [Transaction.MarshalSiaSize], which the block size rules are computed
    from, is the length of what [Transaction.MarshalSia] writes; the currency
    part of it counts the nonzero bytes of the integer's words. *)
Theorem Transaction_MarshalSiaSize_correct t :
  wf_txn t -> zlen (Transaction_MarshalSia t) = Transaction_MarshalSiaSize t.
Proof. apply zlen_Transaction. Qed.

(** [Currency.MarshalSia], a loop over the words of the big integer,
    writes a length prefix and the big-endian bytes of the value without
    leading zero bytes: the bytes denote the value, and the first of them is
    not zero. *)
Theorem Currency_MarshalSia_minimal c :
  exists l, Currency_MarshalSia c = WriteInt (zlen l) ++ l /\
    be_val l = Z.of_N c /\
    (forall b l', l = b :: l' -> b <> Byte.x00) /\ (c = 0%N -> l = []).
Proof.
  exists (be_bytes (byte_len c) (Z.of_N c)).
  assert (Hv : be_val (be_bytes (byte_len c) (Z.of_N c)) = Z.of_N c).
  { rewrite be_val_be_bytes. apply Z.mod_small. pose proof (byte_len_fits c). lia. }
  split_and!.
  - rewrite Currency_MarshalSia_be. unfold zlen. by rewrite length_be_bytes.
  - done.
  - intros b l' Hl ->. rewrite Hl, be_val_cons in Hv.
    pose proof (be_val_range l').
    assert (Hlen : byte_len c = S (length l'))
      by (rewrite <- (length_be_bytes (byte_len c) (Z.of_N c)), Hl; done).
    pose proof (byte_len_low c ltac:(lia)) as Hlow. rewrite Hlen in Hlow.
    replace (Z.of_nat (S (length l')) - 1) with (Z.of_nat (length l')) in Hlow by lia.
    change (bz Byte.x00) with 0 in Hv. lia.
  - by intros ->.
Qed.

(** Reading at a fixed offset. *)
Definition slice_at (from n : nat) (l : bytes) : bytes := take n (drop from l).

Lemma slice_at_app from n (l1 l2 l3 : bytes) :
  length l1 = from -> length l2 = n -> slice_at from n (l1 ++ l2 ++ l3) = l2.
Proof.
  intros <- <-. unfold slice_at. by rewrite drop_app_length, take_app_length.
Qed.

(** The offsets the consensus database reads without decoding: the parent
    ID and the timestamp of an encoded block, and the window end of an encoded
    file contract. *)
Theorem encoded_layout b fc :
  wf_block b -> wf_fc fc ->
  slice_at 0 32 (Block_MarshalSia b) = vec_to_list (b_ParentID b) /\
  DecUint64 (slice_at 40 8 (Block_MarshalSia b)) = b_Timestamp b /\
  DecUint64 (slice_at 48 8 (FileContract_MarshalSia fc)) = fc_WindowEnd fc.
Proof.
  intros (Ht & _ & _) (Hs & Hws & Hwe & _). split_and!.
  - apply (slice_at_app 0 32 []); [done|]. apply length_vec_to_list.
  - unfold Block_MarshalSia. rewrite (app_assoc (vec_to_list (b_ParentID b))).
    rewrite slice_at_app.
    + by apply DecUint64_WriteUint64.
    + by rewrite length_app, !length_vec_to_list.
    + by apply length_WriteUint64.
  - unfold FileContract_MarshalSia.
    rewrite (app_assoc (vec_to_list _)), (app_assoc (WriteUint64 (fc_FileSize fc))).
    rewrite slice_at_app.
    + by apply DecUint64_WriteUint64.
    + rewrite !length_app, !length_WriteUint64, length_vec_to_list by done. done.
    + by apply length_WriteUint64.
Qed.

Section roundtrip.
Context {D : SiaDecoder} {DL : SiaDecoderLaws E D}.

(** C20. Decoding an encoded block gives the block back, as long as it fits the
    decoder's allocation limit. *)
Theorem Block_roundtrip b :
  wf_block b -> block_cost b <= BlockSizeLimit * 3 ->
  Block_UnmarshalSia (Block_MarshalSia b) = Some b.
Proof.
  intros Hb Hc. unfold Block_UnmarshalSia.
  destruct (reads_input _ _ _ _ _ (reads_Block b Hb) Hc) as (d & -> & ->). done.
Qed.

(** The encoding of transactions is injective: two transactions with the
    same bytes, hence the same preimage of their ID and signature hashes, are
    the same transaction. *)
Theorem Transaction_MarshalSia_injective t1 t2 :
  wf_txn t1 -> wf_txn t2 ->
  Transaction_MarshalSia t1 = Transaction_MarshalSia t2 -> t1 = t2.
Proof.
  intros H1 H2 He.
  assert (Hr : forall t, wf_txn t -> txn_cost t <= txn_cost t1 `max` txn_cost t2 ->
    Transaction_Unmarshal (txn_cost t1 `max` txn_cost t2) (Transaction_MarshalSia t) = Some t).
  { intros t Ht Hc. unfold Transaction_Unmarshal.
    destruct (reads_input _ _ _ _ _ (reads_Transaction t Ht) Hc) as (d & -> & ->). done. }
  pose proof (Hr t1 H1 ltac:(lia)) as R1. pose proof (Hr t2 H2 ltac:(lia)) as R2.
  congruence.
Qed.

End roundtrip.
End codec.

(** ** Witnesses *)

Definition ex_uc : UnlockConditions :=
  mkUnlockConditions 7 [mkSiaPublicKey SignatureEd25519 (replicate 32 Byte.xa5)] 1.
Definition ex_sco : SiacoinOutput := mkSiacoinOutput (10 ^ 27) (zero_array 32).
Definition ex_fc : FileContract :=
  mkFileContract 4096 (zero_array 32) 100 200 (3 * 10 ^ 27) [ex_sco] [ex_sco; ex_sco]
    (zero_array 32) 1.
Definition ex_ts : TransactionSignature :=
  mkTransactionSignature (zero_array 32) 0 0
    (mkCoveredFields true [] [] [] [] [] [] [] [] [] [0; 1]) (replicate 64 Byte.x11).
Definition ex_txn : Transaction :=
  mkTransaction [mkSiacoinInput (zero_array 32) ex_uc] [ex_sco] [ex_fc]
    [mkFileContractRevision (zero_array 32) ex_uc 2 4096 (zero_array 32) 100 200
       [ex_sco] [ex_sco] (zero_array 32)]
    [mkStorageProof (zero_array 32) (zero_array 64) [zero_array 32]]
    [mkSiafundInput (zero_array 32) ex_uc (zero_array 32)]
    [mkSiafundOutput 5 (zero_array 32) 0] [10 ^ 24; 1]%N [[Byte.x01; Byte.x02]] [ex_ts].
Definition ex_block : Block :=
  mkBlock (zero_array 32) (zero_array 8) 1650179928 [ex_sco] [ex_txn].

Ltac wf_example :=
  repeat first [split | apply Forall_cons | apply Forall_nil]; vm_compute; auto; try easy.

Lemma ex_block_wf : wf_block ex_block.
Proof. wf_example. Qed.

Lemma ex_txn_wf : wf_txn ex_txn.
Proof. wf_example. Qed.

Lemma ex_fc_wf : wf_fc ex_fc.
Proof. wf_example. Qed.

Lemma Transaction_MarshalSiaSize_witness :
  zlen (Transaction_MarshalSia ex_txn) = Transaction_MarshalSiaSize ex_txn.
Proof. apply Transaction_MarshalSiaSize_correct, ex_txn_wf. Defined.

Lemma encoded_layout_witness :
  DecUint64 (slice_at 48 8 (FileContract_MarshalSia ex_fc)) = 200.
Proof. apply (encoded_layout ex_block ex_fc ex_block_wf ex_fc_wf). Defined.

Lemma Block_roundtrip_witness :
  Block_UnmarshalSia (Block_MarshalSia ex_block) = Some ex_block.
Proof. apply Block_roundtrip; [apply ex_block_wf|]. vm_compute. discriminate. Defined.

Lemma Transaction_MarshalSia_injective_witness : ex_txn = ex_txn.
Proof.
  apply (Transaction_MarshalSia_injective (D := list_decoder));
    [apply ex_txn_wf|apply ex_txn_wf|reflexivity].
Defined.
