(* ===== verification/Transactions.v ===== *)
(** * Transactions, IDs and file contract payouts

    types/transactions.go, crypto/hash.go, the ID functions of types/block.go
    and types/filecontracts.go, and the tax of types/filecontracts.go and
    types/currency.go. *)

From S2P Require Import Prelude Bytes Interfaces Currency Types Params Encoding.

Open Scope Z_scope.

Section ids.
Context {C : Crypto} {E : SiaEncoding}.

(** Hashing what is written to the hasher, piece after piece. *)
Definition HashBytes (data : bytes) : Hash := blake2b data.
Definition HashAll (objs : list bytes) : Hash := blake2b (concat objs).
Definition HashObject (obj : bytes) : Hash := blake2b obj.

Definition Transaction_ID (t : Transaction) : TransactionID :=
  blake2b (Transaction_MarshalSiaNoSignatures t).

Definition Transaction_SiacoinOutputID (t : Transaction) (i : Z) : SiacoinOutputID :=
  blake2b (vec_to_list SpecifierSiacoinOutput ++
           Transaction_MarshalSiaNoSignatures t ++ WriteUint64 i).

Definition Transaction_FileContractID (t : Transaction) (i : Z) : FileContractID :=
  blake2b (vec_to_list SpecifierFileContract ++
           Transaction_MarshalSiaNoSignatures t ++ WriteUint64 i).

Definition Transaction_SiafundOutputID (t : Transaction) (i : Z) : SiafundOutputID :=
  blake2b (vec_to_list SpecifierSiafundOutput ++
           Transaction_MarshalSiaNoSignatures t ++ WriteUint64 i).

Definition SiaClaimOutputID (id : SiafundOutputID) : SiacoinOutputID :=
  HashObject (vec_to_list id).

(** A [ProofStatus] is a [bool]. *)
Definition StorageProofOutputID (fcid : FileContractID) (proofStatus : bool) (i : Z)
  : SiacoinOutputID :=
  HashAll [vec_to_list SpecifierStorageProofOutput; vec_to_list fcid;
           WriteBool proofStatus; WriteUint64 i].

Definition BlockHeader_ID (h : BlockHeader) : BlockID :=
  HashObject (BlockHeader_MarshalSia h).

(** One leaf per payout, then one per transaction. *)
Definition Block_MerkleRoot (b : Block) : Hash :=
  merkle_root ((SiacoinOutput_MarshalSia <$> b_MinerPayouts b) ++
               (Transaction_MarshalSia <$> b_Transactions b)).

Definition Block_Header (b : Block) : BlockHeader :=
  mkBlockHeader (b_ParentID b) (b_Nonce b) (b_Timestamp b) (Block_MerkleRoot b).

Definition Block_ID (b : Block) : BlockID := BlockHeader_ID (Block_Header b).

Definition MinerPayoutID (b : Block) (i : Z) : SiacoinOutputID :=
  HashAll [vec_to_list (Block_ID b); WriteUint64 i].

End ids.

(** ** Sums *)

Definition SiacoinOutputSum (t : Transaction) : Currency :=
  let sum := fold_left (fun sum sco => Currency.Add sum (sco_Value sco))
               (t_SiacoinOutputs t) Currency.ZeroCurrency in
  let sum := fold_left (fun sum fc => Currency.Add sum (fc_Payout fc))
               (t_FileContracts t) sum in
  fold_left (fun sum fee => Currency.Add sum fee) (t_MinerFees t) sum.

Lemma SiacoinOutputSum_sums t :
  SiacoinOutputSum t =
    (sum_of sco_Value (t_SiacoinOutputs t) + sum_of fc_Payout (t_FileContracts t)
     + sum_of id (t_MinerFees t))%N.
Proof.
  unfold SiacoinOutputSum, Currency.Add, Currency.ZeroCurrency.
  rewrite (fold_left_add_acc sco_Value), (fold_left_add_acc fc_Payout).
  rewrite (fold_left_add_acc id). lia.
Qed.

(** ** Tax *)

Section tax.
Context {P : Params}.

Definition MulTax (x : Currency) (height : BlockHeight) : Currency :=
  Z.to_N (Z.of_N x * SiafundMul height / SiafundDiv height).

(** Below the hardfork the portion is the nearest [float64]. *)
Definition Tax (height : BlockHeight) (payout : Currency) : Currency :=
  if height <? TaxHardforkHeight then
    let portion := uncurry Currency.rat_Float64 (SiafundPortion height) in
    Currency.RoundDown (Currency.MulFloat payout portion) (SiafundCount height)
  else Currency.RoundDown (MulTax payout height) (SiafundCount height).

Definition PostTax (height : BlockHeight) (payout : Currency) : Currency :=
  Currency.Sub payout (Tax height payout).

(** The amount before rounding: [p * m / d] for the portion of the branch. *)
Definition raw_tax (height : BlockHeight) (p : N) : N :=
  if height <? TaxHardforkHeight then (p * 5620492334958379 / 2 ^ 57)%N
  else (p * 39 / 1000)%N.

Lemma portion_float : uncurry Currency.rat_Float64 (39, 1000) = (5620492334958379, -57).
Proof. vm_compute. reflexivity. Qed.

Lemma to_N_mul_div x m d : Z.to_N (Z.of_N x * Z.of_N m / Z.of_N d) = (x * m / d)%N.
Proof. by rewrite <- N2Z.inj_mul, <- N2Z.inj_div, N2Z.id. Qed.

Lemma Tax_raw height payout :
  Tax height payout = (10000 * (raw_tax height payout / 10000))%N.
Proof.
  unfold Tax, raw_tax. rewrite SiafundCount_value, SiafundPortion_value, portion_float.
  case_match; rewrite RoundDown_div by done; do 2 f_equal.
  - apply (to_N_mul_div payout 5620492334958379 (2 ^ 57)).
  - unfold MulTax. destruct (SiafundMulDiv_value height) as [-> ->].
    apply (to_N_mul_div payout 39 1000).
Qed.

Lemma raw_tax_le height p : (1000 * raw_tax height p <= 39 * p)%N.
Proof.
  unfold raw_tax. change (2 ^ 57)%N with 144115188075855872%N. case_match.
  - pose proof (N.Div0.mul_div_le (p * 5620492334958379) 144115188075855872). lia.
  - pose proof (N.Div0.mul_div_le (p * 39) 1000). lia.
Qed.

Lemma raw_tax_ge height p :
  (39 * p < 1000 * (raw_tax height p + 1) + p / 2 ^ 53 + 1)%N.
Proof.
  unfold raw_tax. change (2 ^ 57)%N with 144115188075855872%N.
  change (2 ^ 53)%N with 9007199254740992%N.
  pose proof (N.mul_succ_div_gt p 9007199254740992 ltac:(done)). case_match.
  - pose proof (N.mul_succ_div_gt (p * 5620492334958379) 144115188075855872 ltac:(done)).
    lia.
  - pose proof (N.mul_succ_div_gt (p * 39) 1000 ltac:(done)). lia.
Qed.

Lemma raw_tax_mono height p q : (p <= q -> raw_tax height p <= raw_tax height q)%N.
Proof.
  intros Hpq. unfold raw_tax. case_match; apply N.Div0.div_le_mono; lia.
Qed.

Lemma Tax_le height payout : (Tax height payout <= payout)%N.
Proof.
  rewrite Tax_raw. pose proof (raw_tax_le height payout).
  pose proof (N.Div0.mul_div_le (raw_tax height payout) 10000). lia.
Qed.

Lemma PostTax_add height payout : (PostTax height payout + Tax height payout = payout)%N.
Proof. unfold PostTax. rewrite Sub_sub. pose proof (Tax_le height payout). lia. Qed.

Lemma Tax_multiple height payout : (Tax height payout mod SiafundCount height = 0)%N.
Proof.
  rewrite Tax_raw, SiafundCount_value, N.mul_comm. apply N.Div0.mod_mul.
Qed.


End tax.
