(* ===== verification/Subsidy.v ===== *)
(** * Block rewards

    The coinbase, the development fund's share and the coin supply of
    types/block.go. *)

From S2P Require Import Prelude Bytes Interfaces Currency Types Params Transactions.

Open Scope Z_scope.

Definition CalculateCoinbase (height : BlockHeight) : Currency :=
  let base := 30 in
  Currency.Mul (Currency.NewCurrency64 base) ScPrimecoinPrecision.

Definition CalculateSubsidy (b : Block) (height : BlockHeight) : Currency :=
  fold_left (fun subsidy txn =>
    fold_left (fun subsidy fee => Currency.Add subsidy fee) (t_MinerFees txn) subsidy)
  (b_Transactions b) (CalculateCoinbase height).

Definition CalculateMinerFees (b : Block) : Currency :=
  fold_left (fun fees txn =>
    fold_left (fun fees fee => Currency.Add fees fee) (t_MinerFees txn) fees)
  (b_Transactions b) (Currency.NewCurrency64 0).

(** All the arithmetic is on [uint64]. *)
Definition CalculateDevSubsidy (height : BlockHeight) : Currency :=
  let coinbase := CalculateCoinbase height in
  if DevFundEnabled && (DevFundInitialBlockHeight <=? height) then
    let devFundDecayPercentage :=
      if DevFundDecayEndBlockHeight <=? height then 0
      else if DevFundDecayStartBlockHeight <=? height then
        u64 (100 - u64 (u64 (height - DevFundDecayStartBlockHeight) * 100)
                   / u64 (DevFundDecayEndBlockHeight - DevFundDecayStartBlockHeight))
      else 100 in
    let devFundPercentageRange := u64 (DevFundInitialPercentage - DevFundFinalPercentage) in
    let devFundPercentage :=
      u64 (u64 (DevFundFinalPercentage * 100)
           + u64 (devFundPercentageRange * devFundDecayPercentage)) in
    Currency.Div (Currency.Mul coinbase (Currency.NewCurrency64 devFundPercentage))
                 (Currency.NewCurrency64 10000)
  else Currency.NewCurrency64 0.

Definition CalculateSubsidies (b : Block) (height : BlockHeight) : Currency * Currency :=
  let coinbase := CalculateCoinbase height in
  let devSubsidy := CalculateDevSubsidy height in
  let minerSubsidy :=
    Currency.Add (Currency.Sub coinbase devSubsidy) (CalculateMinerFees b) in
  (minerSubsidy, devSubsidy).

Section supply.
Context {P : Params}.

Definition CalculateNumSiacoins (height : BlockHeight) : Currency :=
  let airdropCoins :=
    Currency.Add (Currency.Add (Currency.Add AirdropCommunityValue AirdropPoolValue)
      AirdropSiaPrimeValue) AirdropSiaCloudValue in
  let airdropCoins :=
    Currency.Add (Currency.Add airdropCoins AirdropInvestorValue) AirdropDevCompValue in
  let deflationBlocks := u64 (InitialCoinbase - MinimumCoinbase) in
  let avgDeflationSiacoins :=
    Currency.Div (Currency.Add (CalculateCoinbase 0) (CalculateCoinbase height))
      (Currency.NewCurrency64 2) in
  if height <=? deflationBlocks then
    let deflationSiacoins :=
      Currency.Mul avgDeflationSiacoins (Currency.NewCurrency64 (u64 (height + 1))) in
    Currency.Add airdropCoins deflationSiacoins
  else
    let deflationSiacoins :=
      Currency.Mul avgDeflationSiacoins (Currency.NewCurrency64 (u64 (deflationBlocks + 1))) in
    let trailingSiacoins :=
      Currency.Mul (Currency.NewCurrency64 (u64 (height - deflationBlocks)))
        (CalculateCoinbase height) in
    Currency.Add (Currency.Add airdropCoins deflationSiacoins) trailingSiacoins.

End supply.

(** The loop of the initialiser of [numGenesisSiacoins]. *)
Definition sum_siacoin_outputs (b : Block) : Currency :=
  fold_left (fun sum txn =>
    fold_left (fun sum sco => Currency.Add sum (sco_Value sco)) (t_SiacoinOutputs txn) sum)
  (b_Transactions b) (Currency.NewCurrency64 0).

(** A package variable: its initialiser runs before [init] of constants.go gives
    [GenesisBlock] its value, and so on the zero value of a block. *)
Definition numGenesisSiacoins : Currency :=
  sum_siacoin_outputs (mkBlock zero_hash (zero_array 8) 0 [] []).

(** The coins of the genesis block. *)
Definition genesis_coins `{Params} : Currency := sum_siacoin_outputs GenesisBlock.

(** ** Lemmas *)

Lemma CalculateCoinbase_value height : CalculateCoinbase height = (30 * 10 ^ 27)%N.
Proof. vm_compute. reflexivity. Qed.

Lemma numGenesisSiacoins_value : numGenesisSiacoins = 0%N.
Proof. done. Qed.

(** The fees of a block. *)
Definition block_fees (b : Block) : N :=
  sum_of (fun t => sum_of id (t_MinerFees t)) (b_Transactions b).

Lemma fees_loop l acc :
  fold_left (fun fees txn =>
    fold_left (fun fees fee => Currency.Add fees fee) (t_MinerFees txn) fees) l acc
  = (acc + sum_of (fun t => sum_of id (t_MinerFees t)) l)%N.
Proof.
  rewrite <- fold_left_add_acc. revert acc.
  induction l as [|t l IH]; intros acc; [done|]. cbn [fold_left].
  rewrite IH. f_equal. apply (fold_left_add_acc id).
Qed.

Lemma CalculateMinerFees_sum b : CalculateMinerFees b = block_fees b.
Proof. unfold CalculateMinerFees. rewrite fees_loop. done. Qed.

Lemma CalculateSubsidy_sum b height :
  CalculateSubsidy b height = (CalculateCoinbase height + block_fees b)%N.
Proof. apply fees_loop. Qed.

(** The share in hundredths of a percent of the coinbase. *)
Definition dev_share (height : BlockHeight) : Z :=
  if height <? 1 then 0
  else if 131400 <=? height then 500
  else if 43800 <=? height then 1000 - 5 * ((height - 43800) * 100 / 87600)
  else 1000.

Lemma dev_share_range height : 0 <= dev_share height <= 1000.
Proof.
  unfold dev_share. repeat case_match; bool_prop; try lia.
  assert (0 <= (height - 43800) * 100 / 87600) by (apply Z.div_pos; lia).
  assert ((height - 43800) * 100 / 87600 < 100) by (apply Z.div_lt_upper_bound; lia).
  lia.
Qed.

Lemma CalculateDevSubsidy_share height :
  is_u64 height ->
  CalculateDevSubsidy height = Z.to_N (30 * 10 ^ 27 * dev_share height / 10000).
Proof.
  intros Hh. unfold CalculateDevSubsidy, dev_share, DevFundInitialBlockHeight,
    DevFundDecayEndBlockHeight, DevFundDecayStartBlockHeight.
  rewrite CalculateCoinbase_value. cbn [DevFundEnabled andb].
  destruct (Z.leb_spec 1 height), (Z.ltb_spec height 1); try lia; [|done].
  destruct (Z.leb_spec 131400 height); [vm_compute; done|].
  destruct (Z.leb_spec 43800 height); [|vm_compute; done].
  rewrite (u64_small (height - 43800)) by (unfold is_u64; lia).
  rewrite (u64_small ((height - 43800) * 100)) by (unfold is_u64; lia).
  change (u64 (131400 - 43800)) with 87600.
  assert (0 <= (height - 43800) * 100 / 87600) by (apply Z.div_pos; lia).
  assert ((height - 43800) * 100 / 87600 < 100) by (apply Z.div_lt_upper_bound; lia).
  set (q := (height - 43800) * 100 / 87600) in *.
  rewrite (u64_small (100 - q)) by (unfold is_u64; lia).
  change (u64 (DevFundInitialPercentage - DevFundFinalPercentage)) with 5.
  change (u64 (DevFundFinalPercentage * 100)) with 500.
  rewrite (u64_small (5 * _)), u64_small by (unfold is_u64; lia).
  unfold Currency.Div, Currency.Mul, Currency.NewCurrency64.
  replace (500 + 5 * (100 - q)) with (1000 - 5 * q) by lia.
  set (s := 1000 - 5 * q). assert (0 <= s) by (unfold s; lia).
  rewrite Z2N.inj_div, Z2N.inj_mul by lia. done.
Qed.

Lemma CalculateDevSubsidy_le height :
  is_u64 height -> (10 * CalculateDevSubsidy height <= CalculateCoinbase height)%N.
Proof.
  intros Hh. rewrite CalculateDevSubsidy_share, CalculateCoinbase_value by done.
  pose proof (dev_share_range height).
  assert (30 * 10 ^ 27 * dev_share height / 10000 <= 3 * 10 ^ 27)
    by (apply Z.div_le_upper_bound; lia).
  assert (0 <= 30 * 10 ^ 27 * dev_share height / 10000) by (apply Z.div_pos; lia).
  lia.
Qed.

(** C24. The two subsidies of a block share out exactly its coinbase and its
    fees, as much as the single subsidy of the blocks without a development
    fund; the fund's part is given by [dev_share], which is nothing at genesis,
    10% of the coinbase from the first block, falls in whole percent of its
    decay between heights 43800 and 131400, and stays at 5%. *)
Theorem CalculateSubsidies_split b height :
  is_u64 height ->
  let '(miner, dev) := CalculateSubsidies b height in
  (miner + dev = CalculateSubsidy b height)%N /\
  (10 * dev <= CalculateCoinbase height)%N /\
  dev = Z.to_N (30 * 10 ^ 27 * dev_share height / 10000) /\
  ((1 <= height)%Z -> CalculateCoinbase height <= 20 * dev)%N.
Proof.
  intros Hh. cbn. pose proof (CalculateDevSubsidy_le height Hh) as Hle.
  unfold Currency.Add. rewrite Sub_sub, CalculateMinerFees_sum, CalculateSubsidy_sum.
  split_and!; [lia|done|by apply CalculateDevSubsidy_share|].
  intros H1. rewrite CalculateDevSubsidy_share, CalculateCoinbase_value by done.
  assert (500 <= dev_share height).
  { unfold dev_share. repeat case_match; bool_prop; try lia.
    assert ((height - 43800) * 100 / 87600 < 100) by (apply Z.div_lt_upper_bound; lia).
    lia. }
  assert (15 * 10 ^ 26 <= 30 * 10 ^ 27 * dev_share height / 10000)
    by (apply Z.div_le_lower_bound; lia).
  lia.
Qed.

Lemma CalculateSubsidies_split_witness :
  snd (CalculateSubsidies (mkBlock zero_hash (zero_array 8) 0 [] []) 87600)
    = (225 * 10 ^ 25)%N.
Proof.
  destruct (CalculateSubsidies_split (mkBlock zero_hash (zero_array 8) 0 [] []) 87600)
    as (_ & _ & -> & _); [vm_compute; split; [discriminate|reflexivity]|].
  vm_compute. reflexivity.
Defined.

(** C25. [CalculateNumSiacoins] on the standard network is two hastings less
    than what the chain creates up to a height: the outputs of the genesis block
    ([genesis_coins]) and one coinbase per block, the genesis block's included.
    It counts six airdrop values and leaves out the two genesis outputs of one
    hasting each. *)
Theorem CalculateNumSiacoins_standard addr height :
  0 <= height < 2 ^ 64 - 1 ->
  (@CalculateNumSiacoins (standard_params addr) height + 2 =
   @genesis_coins (standard_params addr)
   + Z.to_N (height + 1) * CalculateCoinbase height)%N.
Proof.
  intros Hh. unfold CalculateNumSiacoins. cbn [MinimumCoinbase standard_params].
  change (u64 (InitialCoinbase - 30)) with 0.
  rewrite !CalculateCoinbase_value.
  assert (Hg : @genesis_coins (standard_params addr) = (320126000 * 10 ^ 27 + 2)%N)
    by (vm_compute; reflexivity).
  rewrite Hg. unfold Currency.Div, Currency.NewCurrency64.
  assert (Ha : Currency.Add (Currency.Add (Currency.Add (Currency.Add (Currency.Add
     AirdropCommunityValue AirdropPoolValue) AirdropSiaPrimeValue) AirdropSiaCloudValue)
     AirdropInvestorValue) AirdropDevCompValue = (320126000 * 10 ^ 27)%N)
    by (vm_compute; reflexivity).
  rewrite Ha. unfold Currency.Add, Currency.Mul.
  change ((30 * 10 ^ 27 + 30 * 10 ^ 27) / Z.to_N 2)%N with (30 * 10 ^ 27)%N.
  destruct (Z.leb_spec height 0).
  - assert (height = 0) as -> by lia. vm_compute. reflexivity.
  - rewrite Z.sub_0_r, (u64_small height) by (unfold is_u64; lia).
    change (Z.to_N (u64 (0 + 1))) with 1%N. lia.
Qed.

Lemma CalculateNumSiacoins_standard_witness :
  (@CalculateNumSiacoins (standard_params (fun _ => zero_hash)) 100 + 2 =
   @genesis_coins (standard_params (fun _ => zero_hash)) + 101 * (30 * 10 ^ 27))%N.
Proof.
  rewrite (CalculateNumSiacoins_standard (fun _ => zero_hash) 100) by lia.
  vm_compute. reflexivity.
Defined.
