(* ===== verification/Revisions.v ===== *)
(** * File contract revisions

    The payout accessors and the three revision constructors of
    types/filecontracts.go: [PaymentRevision], [EAFundRevision] and
    [ExecuteProgramRevision].  Each starts from a copy of the revision whose
    output slices are freshly allocated; the copy is the state of the
    computation and the receiver [fcr] stays as it is.  An index out of range
    is a panic. *)

From S2P Require Import Prelude Bytes Interfaces Currency Types.

Open Scope Z_scope.

(** [l[i]]. *)
Definition index {S A} (l : list A) (i : nat) : M S A :=
  match l !! i with Some x => mret x | None => panic "index out of range" end.

(** [l[i].Value = value]. *)
Definition set_value {S} (l : list SiacoinOutput) (i : nat) (value : Currency)
  : M S (list SiacoinOutput) :=
  sco ← index l i;
  mret (<[i := mkSiacoinOutput value (sco_UnlockHash sco)]> l).

Module FileContractRevision.

Definition with_valid (r : FileContractRevision) l :=
  mkFileContractRevision (fcr_ParentID r) (fcr_UnlockConditions r)
    (fcr_NewRevisionNumber r) (fcr_NewFileSize r) (fcr_NewFileMerkleRoot r)
    (fcr_NewWindowStart r) (fcr_NewWindowEnd r) l (fcr_NewMissedProofOutputs r)
    (fcr_NewUnlockHash r).
Definition with_missed (r : FileContractRevision) l :=
  mkFileContractRevision (fcr_ParentID r) (fcr_UnlockConditions r)
    (fcr_NewRevisionNumber r) (fcr_NewFileSize r) (fcr_NewFileMerkleRoot r)
    (fcr_NewWindowStart r) (fcr_NewWindowEnd r) (fcr_NewValidProofOutputs r) l
    (fcr_NewUnlockHash r).
Definition with_root_size_number (r : FileContractRevision) root size number :=
  mkFileContractRevision (fcr_ParentID r) (fcr_UnlockConditions r)
    number size root (fcr_NewWindowStart r) (fcr_NewWindowEnd r)
    (fcr_NewValidProofOutputs r) (fcr_NewMissedProofOutputs r) (fcr_NewUnlockHash r).
Definition with_number (r : FileContractRevision) number :=
  with_root_size_number r (fcr_NewFileMerkleRoot r) (fcr_NewFileSize r) number.

(** Getters, on any state. *)
Section getters.
Context {S : Type} (fcr : FileContractRevision).

Definition ValidRenterOutput : M S SiacoinOutput := index (fcr_NewValidProofOutputs fcr) 0.
Definition ValidRenterPayout : M S Currency := sco ← ValidRenterOutput; mret (sco_Value sco).
Definition ValidHostOutput : M S SiacoinOutput := index (fcr_NewValidProofOutputs fcr) 1.
Definition ValidHostPayout : M S Currency := sco ← ValidHostOutput; mret (sco_Value sco).
Definition MissedRenterOutput : M S SiacoinOutput := index (fcr_NewMissedProofOutputs fcr) 0.
Definition MissedRenterPayout : M S Currency := sco ← MissedRenterOutput; mret (sco_Value sco).
Definition MissedHostOutput : M S SiacoinOutput := index (fcr_NewMissedProofOutputs fcr) 1.
Definition MissedHostPayout : M S Currency := sco ← MissedHostOutput; mret (sco_Value sco).
Definition MissedVoidOutput : M S SiacoinOutput :=
  if (length (fcr_NewMissedProofOutputs fcr) <=? 2)%nat then throw ErrMissingVoidOutput
  else index (fcr_NewMissedProofOutputs fcr) 2.
Definition MissedVoidPayout : M S Currency := sco ← MissedVoidOutput; mret (sco_Value sco).
End getters.

Definition TotalPayout (fcr : FileContractRevision) : Currency * Currency :=
  (fold_left (fun valid o => Currency.Add valid (sco_Value o))
     (fcr_NewValidProofOutputs fcr) Currency.ZeroCurrency,
   fold_left (fun missed o => Currency.Add missed (sco_Value o))
     (fcr_NewMissedProofOutputs fcr) Currency.ZeroCurrency).

(** Setters, on the revision that is the state. *)
Definition set_valid (i : nat) (value : Currency) : M FileContractRevision () :=
  rev ← get;
  l ← set_value (fcr_NewValidProofOutputs rev) i value;
  modify (fun rev => with_valid rev l).
Definition set_missed (i : nat) (value : Currency) : M FileContractRevision () :=
  rev ← get;
  l ← set_value (fcr_NewMissedProofOutputs rev) i value;
  modify (fun rev => with_missed rev l).
Definition SetValidRenterPayout (value : Currency) := set_valid 0 value.
Definition SetValidHostPayout (value : Currency) := set_valid 1 value.
Definition SetMissedRenterPayout (value : Currency) := set_missed 0 value.
Definition SetMissedHostPayout (value : Currency) := set_missed 1 value.
Definition SetMissedVoidPayout (value : Currency) : M FileContractRevision () :=
  rev ← get;
  if (length (fcr_NewMissedProofOutputs rev) <=? 2)%nat then throw ErrMissingVoidOutput
  else set_missed 2 value.

(** [rev.NewRevisionNumber++]. *)
Definition increment : M FileContractRevision () :=
  modify (fun rev => with_number rev (u64 (fcr_NewRevisionNumber rev + 1))).

Definition PaymentRevision_body (fcr : FileContractRevision) (amount : Currency)
  : M FileContractRevision FileContractRevision :=
  v ← ValidRenterPayout fcr;
  _ ← check (err_if (Currency.Cmp v amount <? 0) ErrRevisionCostTooHigh);
  m ← MissedRenterOutput fcr;
  _ ← check (err_if (Currency.Cmp (sco_Value m) amount <? 0) ErrRevisionCostTooHigh);
  _ ← SetValidRenterPayout (Currency.Sub v amount);
  h ← ValidHostPayout fcr;
  _ ← SetValidHostPayout (Currency.Add h amount);
  _ ← SetMissedRenterPayout (Currency.Sub (sco_Value m) amount);
  void ← MissedVoidOutput fcr;
  _ ← SetMissedVoidPayout (Currency.Add (sco_Value void) amount);
  _ ← increment;
  get.

Definition EAFundRevision_body (fcr : FileContractRevision) (amount : Currency)
  : M FileContractRevision FileContractRevision :=
  v ← ValidRenterPayout fcr;
  _ ← check (err_if (Currency.Cmp v amount <? 0) ErrRevisionCostTooHigh);
  m ← MissedRenterOutput fcr;
  _ ← check (err_if (Currency.Cmp (sco_Value m) amount <? 0) ErrRevisionCostTooHigh);
  _ ← SetValidRenterPayout (Currency.Sub v amount);
  h ← ValidHostPayout fcr;
  _ ← SetValidHostPayout (Currency.Add h amount);
  _ ← SetMissedRenterPayout (Currency.Sub (sco_Value m) amount);
  rev ← get;
  mh ← MissedHostPayout rev;
  _ ← SetMissedHostPayout (Currency.Add mh amount);
  _ ← increment;
  get.

Definition ExecuteProgramRevision_body (fcr : FileContractRevision)
    (revisionNumber : Z) (transfer : Currency) (newRoot : Hash) (newSize : Z)
  : M FileContractRevision FileContractRevision :=
  _ ← modify (fun rev => with_root_size_number rev newRoot newSize revisionNumber);
  _ ← check (err_if (revisionNumber <=? fcr_NewRevisionNumber fcr) ErrRevisionNotIncremented);
  rev ← get;
  mh ← MissedHostPayout rev;
  _ ← check (err_if (Currency.Cmp mh transfer <? 0) ErrRevisionCostTooHigh);
  _ ← SetMissedHostPayout (Currency.Sub mh transfer);
  rev ← get;
  voidPayout ← MissedVoidPayout rev;
  _ ← SetMissedVoidPayout (Currency.Add voidPayout transfer);
  get.

(** The methods: a run from a copy of the receiver. *)
Definition PaymentRevision fcr amount := PaymentRevision_body fcr amount fcr.
Definition EAFundRevision fcr amount := EAFundRevision_body fcr amount fcr.
Definition ExecuteProgramRevision fcr n transfer root size :=
  ExecuteProgramRevision_body fcr n transfer root size fcr.

Definition ToTransaction (fcr : FileContractRevision) : Transaction :=
  mkTransaction [] [] [] [fcr] [] [] [] [] []
    [mkTransactionSignature (fcr_ParentID fcr) 0 0
       (mkCoveredFields false [] [] [] [0] [] [] [] [] [] []) []].

Definition EndHeight (fcr : FileContractRevision) : BlockHeight := fcr_NewWindowStart fcr.

Definition HostPublicKey {S} (fcr : FileContractRevision) : M S SiaPublicKey :=
  index (uc_PublicKeys (fcr_UnlockConditions fcr)) 1.

End FileContractRevision.

(** ** Behaviour on every branch *)

Import FileContractRevision.

Lemma TotalPayout_sums fcr :
  TotalPayout fcr = (sum_of sco_Value (fcr_NewValidProofOutputs fcr),
                     sum_of sco_Value (fcr_NewMissedProofOutputs fcr)).
Proof.
  unfold TotalPayout, Currency.Add, Currency.ZeroCurrency.
  by rewrite !(fold_left_add_acc sco_Value), !N.add_0_l.
Qed.

(** Runs the operations up to the next test. *)
Ltac rev_run :=
  repeat (progress (
    cbv [mbind M_bind mret M_ret get modify check err_if throw panic index set_value
         set_valid set_missed SetValidRenterPayout SetValidHostPayout
         SetMissedRenterPayout SetMissedHostPayout SetMissedVoidPayout increment
         ValidRenterPayout ValidRenterOutput ValidHostPayout ValidHostOutput
         MissedRenterOutput MissedHostPayout MissedHostOutput MissedVoidOutput
         MissedVoidPayout with_valid with_missed with_number with_root_size_number
         fcr_ParentID fcr_UnlockConditions fcr_NewRevisionNumber fcr_NewFileSize
         fcr_NewFileMerkleRoot fcr_NewWindowStart fcr_NewWindowEnd
         fcr_NewValidProofOutputs fcr_NewMissedProofOutputs fcr_NewUnlockHash
         lookup list_lookup insert list_insert length Nat.leb];
    rewrite ?Cmp_ltb)).

Definition pay (o : SiacoinOutput) (v : N) : SiacoinOutput := mkSiacoinOutput v (sco_UnlockHash o).

(** C27. [PaymentRevision] moves the amount from the renter to the host in the
    valid outputs and from the renter to the void in the missed outputs and
    increments the revision number, everything else unchanged; it refuses an
    amount above either renter output, and a revision without void output, and
    panics only when one of the two lists is too short for its renter or host
    output. *)
Theorem PaymentRevision_spec fcr amount v0 vs m0 ms :
  fcr_NewValidProofOutputs fcr = v0 :: vs ->
  fcr_NewMissedProofOutputs fcr = m0 :: ms ->
  match PaymentRevision fcr amount with
  | Ret rev _ => exists v1 vs' m1 m2 ms',
      vs = v1 :: vs' /\ ms = m1 :: m2 :: ms' /\
      (amount <= sco_Value v0)%N /\ (amount <= sco_Value m0)%N /\
      rev = with_number
              (with_missed (with_valid fcr
                 (pay v0 (sco_Value v0 - amount) :: pay v1 (sco_Value v1 + amount) :: vs'))
                 (pay m0 (sco_Value m0 - amount) :: m1 :: pay m2 (sco_Value m2 + amount) :: ms'))
              (u64 (fcr_NewRevisionNumber fcr + 1)) /\
      TotalPayout rev = TotalPayout fcr
  | Err e _ => e = ErrRevisionCostTooHigh /\
                 (sco_Value v0 < amount \/ sco_Value m0 < amount)%N \/
               e = ErrMissingVoidOutput /\ (length ms <= 1)%nat
  | Panic _ => vs = []
  end.
Proof.
  destruct fcr as [parent uc num size root ws we valid missed uh].
  cbn [fcr_NewValidProofOutputs fcr_NewMissedProofOutputs]. intros -> ->.
  unfold PaymentRevision, PaymentRevision_body. rev_run.
  destruct (N.ltb_spec (sco_Value v0) amount); rev_run; [left; auto|].
  destruct (N.ltb_spec (sco_Value m0) amount); rev_run; [left; auto|].
  destruct vs as [|v1 vs]; rev_run; [done|].
  destruct ms as [|m1 [|m2 ms]]; rev_run; [right; split; [done|lia]..|].
  exists v1, vs, m1, m2, ms. split_and!; rewrite ?Sub_sub; try done.
  rewrite !TotalPayout_sums. rev_run. unfold Currency.Add, pay.
  rewrite !sum_of_cons. cbn [sco_Value]. f_equal; lia.
Qed.

(** C28. [EAFundRevision] moves the amount from the renter to the host in both
    lists and increments the revision number, everything else unchanged; it
    refuses an amount above either renter output and panics only when a list
    is too short for its renter or host output. *)
Theorem EAFundRevision_spec fcr amount v0 vs m0 ms :
  fcr_NewValidProofOutputs fcr = v0 :: vs ->
  fcr_NewMissedProofOutputs fcr = m0 :: ms ->
  match EAFundRevision fcr amount with
  | Ret rev _ => exists v1 vs' m1 ms',
      vs = v1 :: vs' /\ ms = m1 :: ms' /\
      (amount <= sco_Value v0)%N /\ (amount <= sco_Value m0)%N /\
      rev = with_number
              (with_missed (with_valid fcr
                 (pay v0 (sco_Value v0 - amount) :: pay v1 (sco_Value v1 + amount) :: vs'))
                 (pay m0 (sco_Value m0 - amount) :: pay m1 (sco_Value m1 + amount) :: ms'))
              (u64 (fcr_NewRevisionNumber fcr + 1)) /\
      TotalPayout rev = TotalPayout fcr
  | Err e _ => e = ErrRevisionCostTooHigh /\
                 (sco_Value v0 < amount \/ sco_Value m0 < amount)%N
  | Panic _ => vs = [] \/ ms = []
  end.
Proof.
  destruct fcr as [parent uc num size root ws we valid missed uh].
  cbn [fcr_NewValidProofOutputs fcr_NewMissedProofOutputs]. intros -> ->.
  unfold EAFundRevision, EAFundRevision_body. rev_run.
  destruct (N.ltb_spec (sco_Value v0) amount); rev_run; [auto|].
  destruct (N.ltb_spec (sco_Value m0) amount); rev_run; [auto|].
  destruct vs as [|v1 vs]; rev_run; [by left|].
  destruct ms as [|m1 ms]; rev_run; [by right|].
  exists v1, vs, m1, ms. split_and!; rewrite ?Sub_sub; try done.
  rewrite !TotalPayout_sums. rev_run. unfold Currency.Add, pay.
  rewrite !sum_of_cons. cbn [sco_Value]. f_equal; lia.
Qed.

(** [ExecuteProgramRevision] moves the transfer from the host to the void in
    the missed outputs and sets the new root, size and revision number,
    everything else unchanged; it refuses a number that does not grow, a
    transfer above the host's missed output, and a revision without void
    output, and panics only without a missed host output. *)
Theorem ExecuteProgramRevision_spec fcr n transfer root size m0 ms :
  fcr_NewMissedProofOutputs fcr = m0 :: ms ->
  match ExecuteProgramRevision fcr n transfer root size with
  | Ret rev _ => exists m1 m2 ms',
      ms = m1 :: m2 :: ms' /\ fcr_NewRevisionNumber fcr < n /\
      (transfer <= sco_Value m1)%N /\
      rev = with_root_size_number
              (with_missed fcr (m0 :: pay m1 (sco_Value m1 - transfer)
                                   :: pay m2 (sco_Value m2 + transfer) :: ms'))
              root size n /\
      TotalPayout rev = TotalPayout fcr
  | Err e _ => e = ErrRevisionNotIncremented /\ n <= fcr_NewRevisionNumber fcr \/
               e = ErrRevisionCostTooHigh /\ (exists m1, ms !! 0%nat = Some m1 /\
                 (sco_Value m1 < transfer)%N) \/
               e = ErrMissingVoidOutput /\ length ms = 1%nat
  | Panic _ => ms = []
  end.
Proof.
  destruct fcr as [parent uc num fsize froot ws we valid missed uh].
  cbn [fcr_NewMissedProofOutputs fcr_NewRevisionNumber]. intros ->.
  unfold ExecuteProgramRevision, ExecuteProgramRevision_body. rev_run.
  destruct (Z.leb_spec n num); rev_run; [left; auto|].
  destruct ms as [|m1 ms]; rev_run; [done|].
  destruct (N.ltb_spec (sco_Value m1) transfer); rev_run; [right; left; eauto|].
  destruct ms as [|m2 ms]; rev_run; [right; right; auto|].
  exists m1, m2, ms. split_and!; rewrite ?Sub_sub; try done.
  rewrite !TotalPayout_sums. rev_run. unfold Currency.Add, pay.
  rewrite !sum_of_cons. cbn [sco_Value]. f_equal; lia.
Qed.

(** ** Witnesses *)

Definition ex_out (v : N) : SiacoinOutput := mkSiacoinOutput v (zero_array 32).
Definition ex_rev : FileContractRevision :=
  mkFileContractRevision (zero_array 32) (mkUnlockConditions 0 [] 2) 5 4096
    (zero_array 32) 100 200 [ex_out 100; ex_out 7] [ex_out 90; ex_out 12; ex_out 5]
    (zero_array 32).

Lemma PaymentRevision_witness :
  exists rev s, PaymentRevision ex_rev 40 = Ret rev s /\ TotalPayout rev = TotalPayout ex_rev.
Proof.
  pose proof (PaymentRevision_spec ex_rev 40 _ _ _ _ eq_refl eq_refl) as H.
  assert (Hret : match PaymentRevision ex_rev 40 with Ret _ _ => true | _ => false end = true)
    by (vm_compute; reflexivity).
  revert H Hret. destruct (PaymentRevision ex_rev 40) as [rev s|e s|msg]; [|discriminate..].
  intros (v1 & vs & m1 & m2 & ms & _ & _ & _ & _ & _ & Ht) _. by exists rev, s.
Defined.

Lemma EAFundRevision_witness :
  exists rev s, EAFundRevision ex_rev 40 = Ret rev s /\ TotalPayout rev = TotalPayout ex_rev.
Proof.
  pose proof (EAFundRevision_spec ex_rev 40 _ _ _ _ eq_refl eq_refl) as H.
  assert (Hret : match EAFundRevision ex_rev 40 with Ret _ _ => true | _ => false end = true)
    by (vm_compute; reflexivity).
  revert H Hret. destruct (EAFundRevision ex_rev 40) as [rev s|e s|msg]; [|discriminate..].
  intros (v1 & vs & m1 & ms & _ & _ & _ & _ & _ & Ht) _. by exists rev, s.
Defined.

Lemma ExecuteProgramRevision_witness :
  exists rev s, ExecuteProgramRevision ex_rev 9 3 (zero_array 32) 8192 = Ret rev s /\ TotalPayout rev = TotalPayout ex_rev.
Proof.
  pose proof (ExecuteProgramRevision_spec ex_rev 9 3 (zero_array 32) 8192 _ _ eq_refl) as H.
  assert (Hret : match ExecuteProgramRevision ex_rev 9 3 (zero_array 32) 8192 with Ret _ _ => true | _ => false end = true)
    by (vm_compute; reflexivity).
  revert H Hret. destruct (ExecuteProgramRevision ex_rev 9 3 (zero_array 32) 8192) as [rev s|e s|msg]; [|discriminate..].
  intros (m1 & m2 & ms & _ & _ & _ & _ & Ht) _. by exists rev, s.
Defined.
