(* ===== verification/Signatures.v ===== *)
(** * Signatures

    types/signatures.go: unlock hashes, signature hashes, covered fields and
    [validSignatures]. *)

From S2P Require Import Prelude Bytes Interfaces Currency Types Params Encoding Transactions.

Open Scope Z_scope.

(** The result of a function that returns an [error] and may panic: [None] is
    a panic. *)
Definition run_err {S} (o : outcome S ()) : option err :=
  match o with Ret _ _ => Some None | Err e _ => Some (Some e) | Panic _ => None end.

Definition SiaPublicKey_Equals (x y : SiaPublicKey) : bool :=
  bool_decide (spk_Algorithm x = spk_Algorithm y) && bool_decide (spk_Key x = spk_Key y).

Definition Ed25519PublicKey (pk : array 32) : SiaPublicKey :=
  mkSiaPublicKey SignatureEd25519 (vec_to_list pk).

Section sighash.
Context {C : Crypto} {E : SiaEncoding} {P : Params}.

(** The leaves: the timelock, the keys, the number of signatures. *)
Definition UnlockConditions_UnlockHash (uc : UnlockConditions) : UnlockHash :=
  merkle_root ([WriteUint64 (uc_Timelock uc)] ++
               (SiaPublicKey_MarshalSia <$> uc_PublicKeys uc) ++
               [WriteUint64 (uc_SignaturesRequired uc)]).

Definition replay_prefix (height : BlockHeight) : bytes :=
  if ASICHardforkHeight <=? height then ASICHardforkReplayProtectionPrefix else [].

(** [for _, i := range idx { l[i].MarshalSia(h) }]: [None] when an index is out
    of range. *)
Definition write_indexed {A} (enc : A -> bytes) (l : list A) (idx : list Z) : option bytes :=
  parts ← mapM (fun i => x ← l !! Z.to_nat i; Some (enc x)) idx;
  Some (concat parts).

Definition wholeSigHash (t : Transaction) (sig : TransactionSignature) (height : BlockHeight)
  : option Hash :=
  let prefixed {A} (enc : A -> bytes) (x : A) := replay_prefix height ++ enc x in
  let fields :=
    write_slice (prefixed SiacoinInput_MarshalSia) (t_SiacoinInputs t) ++
    write_slice SiacoinOutput_MarshalSia (t_SiacoinOutputs t) ++
    write_slice FileContract_MarshalSia (t_FileContracts t) ++
    write_slice FileContractRevision_MarshalSia (t_FileContractRevisions t) ++
    write_slice StorageProof_MarshalSia (t_StorageProofs t) ++
    write_slice (prefixed SiafundInput_MarshalSia) (t_SiafundInputs t) ++
    write_slice SiafundOutput_MarshalSia (t_SiafundOutputs t) ++
    write_slice Currency_MarshalSia (t_MinerFees t) ++
    write_slice WritePrefixedBytes (t_ArbitraryData t) in
  sigs ← write_indexed TransactionSignature_MarshalSia (t_TransactionSignatures t)
           (cf_TransactionSignatures (ts_CoveredFields sig));
  Some (blake2b (fields ++ vec_to_list (ts_ParentID sig) ++
                 WriteUint64 (ts_PublicKeyIndex sig) ++ WriteUint64 (ts_Timelock sig) ++ sigs)).

Definition partialSigHash (t : Transaction) (cf : CoveredFields) (height : BlockHeight)
  : option Hash :=
  let prefixed {A} (enc : A -> bytes) (x : A) := replay_prefix height ++ enc x in
  sci ← write_indexed (prefixed SiacoinInput_MarshalSia) (t_SiacoinInputs t) (cf_SiacoinInputs cf);
  sco ← write_indexed SiacoinOutput_MarshalSia (t_SiacoinOutputs t) (cf_SiacoinOutputs cf);
  fc ← write_indexed FileContract_MarshalSia (t_FileContracts t) (cf_FileContracts cf);
  fcr ← write_indexed FileContractRevision_MarshalSia (t_FileContractRevisions t)
          (cf_FileContractRevisions cf);
  sp ← write_indexed StorageProof_MarshalSia (t_StorageProofs t) (cf_StorageProofs cf);
  sfi ← write_indexed (prefixed SiafundInput_MarshalSia) (t_SiafundInputs t) (cf_SiafundInputs cf);
  sfo ← write_indexed SiafundOutput_MarshalSia (t_SiafundOutputs t) (cf_SiafundOutputs cf);
  mf ← write_indexed Currency_MarshalSia (t_MinerFees t) (cf_MinerFees cf);
  ad ← write_indexed WritePrefixedBytes (t_ArbitraryData t) (cf_ArbitraryData cf);
  ts ← write_indexed TransactionSignature_MarshalSia (t_TransactionSignatures t)
         (cf_TransactionSignatures cf);
  Some (blake2b (sci ++ sco ++ fc ++ fcr ++ sp ++ sfi ++ sfo ++ mf ++ ad ++ ts)).

Definition SigHash (t : Transaction) (i : Z) (height : BlockHeight) : option Hash :=
  sig ← t_TransactionSignatures t !! Z.to_nat i;
  if cf_WholeTransaction (ts_CoveredFields sig) then wholeSigHash t sig height
  else partialSigHash t (ts_CoveredFields sig) height.

End sighash.

(** ** Covered fields *)

(** The loop of [sortedUnique] from [biggest] on: [None] for [return false]. *)
Fixpoint sorted_from (biggest : Z) (elems : list Z) : option Z :=
  match elems with
  | [] => Some biggest
  | elem :: elems => if elem <=? biggest then None else sorted_from elem elems
  end.

Definition sortedUnique (elems : list Z) (max : Z) : bool :=
  match elems with
  | [] => true
  | e :: elems =>
      match sorted_from e elems with
      | None => false
      | Some biggest => negb (max <=? biggest)
      end
  end.

Definition fieldMaxs (t : Transaction) (cf : CoveredFields) : list (list Z * Z) :=
  [(cf_SiacoinInputs cf, zlen (t_SiacoinInputs t));
   (cf_SiacoinOutputs cf, zlen (t_SiacoinOutputs t));
   (cf_FileContracts cf, zlen (t_FileContracts t));
   (cf_FileContractRevisions cf, zlen (t_FileContractRevisions t));
   (cf_StorageProofs cf, zlen (t_StorageProofs t));
   (cf_SiafundInputs cf, zlen (t_SiafundInputs t));
   (cf_SiafundOutputs cf, zlen (t_SiafundOutputs t));
   (cf_MinerFees cf, zlen (t_MinerFees t));
   (cf_ArbitraryData cf, zlen (t_ArbitraryData t));
   (cf_TransactionSignatures cf, zlen (t_TransactionSignatures t))].

Definition nonempty {A} (l : list A) : bool := negb (length l =? 0)%nat.

Definition validCoveredFields (t : Transaction) : err :=
  for_err (fun sig =>
    let cf := ts_CoveredFields sig in
    let maxs := fieldMaxs t cf in
    (if cf_WholeTransaction cf then
       for_err (fun fm => err_if (nonempty fm.1) ErrWholeTransactionViolation) (take 9 maxs)
     else
       let allEmpty := negb (existsb (fun fm => nonempty fm.1) maxs) in
       err_if allEmpty ErrWholeTransactionViolation) ;;?
    for_err (fun fm => err_if (negb (sortedUnique fm.1 fm.2)) ErrSortedUniqueViolation) maxs)
  (t_TransactionSignatures t).

(** ** [validSignatures] *)

Record inputSignatures := mkInputSignatures {
  is_remainingSignatures : Z;
  is_possibleKeys : list SiaPublicKey;
  is_usedKeys : gset Z;
  is_index : Z
}.

Abbreviation sigMap := (gmap Hash inputSignatures).

(** One iteration of the three loops that fill [sigMap]. *)
Definition add_input (i : Z) (id : Hash) (uc : UnlockConditions) : M sigMap () :=
  m ← get;
  match m !! id with
  | Some _ => throw ErrDoubleSpend
  | None =>
      modify <[id := mkInputSignatures (uc_SignaturesRequired uc) (uc_PublicKeys uc) ∅ i]>
  end.

Definition add_inputs {A} (id : A -> Hash) (uc : A -> UnlockConditions) (l : list A)
  : M sigMap () :=
  for_fold (fun i x _ => add_input i (id x) (uc x)) 0 l ().

Section valid_signatures.
Context {C : Crypto} {E : SiaEncoding} {P : Params}.

(** The signature schemes: [None] when computing the hash would panic. *)
Definition verify_sig (t : Transaction) (i : Z) (sig : TransactionSignature)
    (publicKey : SiaPublicKey) (currentHeight : BlockHeight) : option err :=
  if bool_decide (spk_Algorithm publicKey = SignatureEntropy) then Some (Some ErrEntropyKey)
  else if bool_decide (spk_Algorithm publicKey = SignatureEd25519) then
    let edPK := copy_array 32 (spk_Key publicKey) in
    let edSig := copy_array 64 (ts_Signature sig) in
    sigHash ← SigHash t i currentHeight;
    Some (VerifyHash sigHash edPK edSig)
  else Some None.

Definition lift_err {S} (o : option err) : M S () :=
  match o with Some e => check e | None => panic "index out of range" end.

(** One iteration of the loop over the signatures. *)
Definition check_signature (t : Transaction) (currentHeight : BlockHeight)
    (i : Z) (sig : TransactionSignature) : M sigMap () :=
  m ← get;
  match m !! ts_ParentID sig with
  | None => throw ErrFrivolousSignature
  | Some inSig =>
      _ ← check (err_if (is_remainingSignatures inSig =? 0) ErrFrivolousSignature);
      _ ← check (err_if (bool_decide (ts_PublicKeyIndex sig ∈ is_usedKeys inSig))
                   ErrPublicKeyOveruse);
      _ ← check (err_if (zlen (is_possibleKeys inSig) <=? ts_PublicKeyIndex sig)
                   ErrInvalidPubKeyIndex);
      _ ← check (err_if (currentHeight <? ts_Timelock sig) ErrPrematureSignature);
      match is_possibleKeys inSig !! Z.to_nat (ts_PublicKeyIndex sig) with
      | None => panic "index out of range"
      | Some publicKey =>
          _ ← lift_err (verify_sig t i sig publicKey currentHeight);
          modify <[ts_ParentID sig :=
            mkInputSignatures (u64 (is_remainingSignatures inSig - 1))
              (is_possibleKeys inSig) ({[ts_PublicKeyIndex sig]} ∪ is_usedKeys inSig)
              (is_index inSig)]>
      end
  end.

(** The last loop, over a map: whatever its order, the error is the same. *)
Definition all_signed (m : sigMap) : err :=
  for_err (fun kv => err_if (negb (is_remainingSignatures kv.2 =? 0)) ErrMissingSignatures)
    (map_to_list m).

Definition validSignatures_body (t : Transaction) (currentHeight : BlockHeight) : M sigMap () :=
  _ ← check (validCoveredFields t);
  _ ← add_inputs sci_ParentID sci_UnlockConditions (t_SiacoinInputs t);
  _ ← add_inputs fcr_ParentID fcr_UnlockConditions (t_FileContractRevisions t);
  _ ← add_inputs sfi_ParentID sfi_UnlockConditions (t_SiafundInputs t);
  _ ← for_fold (fun i sig _ => check_signature t currentHeight i sig)
        0 (t_TransactionSignatures t) ();
  m ← get;
  check (all_signed m).

Definition validSignatures (t : Transaction) (currentHeight : BlockHeight) : option err :=
  run_err (validSignatures_body t currentHeight ∅).

End valid_signatures.
