(* ===== verification/SignaturesFacts.v ===== *)
(** * What [validSignatures] decides

    A declarative account of a fully signed transaction, and that
    [validSignatures] accepts exactly those and never indexes out of range. *)

From S2P Require Import Prelude Bytes Interfaces Currency Instances Types Params.
From S2P Require Import Encoding EncodingFacts Transactions Signatures.

Open Scope Z_scope.

(** ** Covered fields *)

Lemma sorted_from_spec b l :
  match sorted_from b l with
  | Some big => StronglySorted Z.lt (b :: l) /\ Forall (fun x => x <= big) (b :: l) /\ big ∈ b :: l
  | None => ~ StronglySorted Z.lt (b :: l)
  end.
Proof.
  revert b. induction l as [|e l IH]; intros b; cbn [sorted_from].
  - split_and!; [repeat constructor|by repeat constructor|by left].
  - destruct (Z.leb_spec e b) as [Hle|Hlt].
    + intros Hs. inversion Hs as [|?? _ Hf]; subst. inversion Hf; subst. lia.
    + specialize (IH e). destruct (sorted_from e l) as [big|].
      * destruct IH as (Hs & Hb & Hin). split_and!.
        -- constructor; [done|]. constructor; [done|].
           inversion Hs as [|?? _ Hf]; subst. eapply Forall_impl; [exact Hf|]. cbn. lia.
        -- constructor; [|done]. inversion Hb; subst. lia.
        -- by right.
      * intros Hs. by inversion Hs.
Qed.

Lemma sortedUnique_spec elems max :
  sortedUnique elems max = true <->
  StronglySorted Z.lt elems /\ Forall (fun x => x < max) elems.
Proof.
  destruct elems as [|e l]; cbn [sortedUnique].
  - split; [intros _|done]. split; constructor.
  - pose proof (sorted_from_spec e l) as H. destruct (sorted_from e l) as [big|].
    + destruct H as (Hs & Hb & Hin). rewrite negb_true_iff, Z.leb_gt. split.
      * intros Hlt. split; [done|]. eapply Forall_impl; [exact Hb|]. cbn. lia.
      * intros [_ Hf]. rewrite Forall_forall in Hf. by apply Hf.
    + split; [done|]. by intros [Hs _].
Qed.

(** The rules for the covered fields of one signature. *)
Definition covers_ok (t : Transaction) (cf : CoveredFields) : Prop :=
  (if cf_WholeTransaction cf then Forall (fun fm => fm.1 = []) (take 9 (fieldMaxs t cf))
   else Exists (fun fm => fm.1 <> []) (fieldMaxs t cf)) /\
  Forall (fun fm => StronglySorted Z.lt fm.1 /\ Forall (fun x => x < fm.2) fm.1)
    (fieldMaxs t cf).

Lemma nonempty_true {A} (l : list A) : nonempty l = true <-> l <> [].
Proof. destruct l; cbn; naive_solver. Qed.

Lemma nonempty_false {A} (l : list A) : nonempty l = false <-> l = [].
Proof. destruct l; cbn; naive_solver. Qed.

Lemma validCoveredFields_spec t :
  validCoveredFields t = None <->
  Forall (fun sig => covers_ok t (ts_CoveredFields sig)) (t_TransactionSignatures t).
Proof.
  unfold validCoveredFields. rewrite for_err_None, Forall_forall.
  apply forall_proper; intros sig. apply forall_proper; intros _.
  rewrite err_seq_None. unfold covers_ok. apply Morphisms_Prop.and_iff_morphism.
  - destruct (cf_WholeTransaction _).
    + rewrite for_err_None, Forall_forall. apply forall_proper; intros fm.
      apply forall_proper; intros _. by rewrite err_if_None, nonempty_false.
    + rewrite err_if_None, negb_false_iff, existsb_exists, Exists_exists.
      apply exist_proper; intros fm. by rewrite list_elem_of_In, nonempty_true.
  - rewrite for_err_None, Forall_forall. apply forall_proper; intros fm.
    apply forall_proper; intros _. by rewrite err_if_None, negb_false_iff, sortedUnique_spec.
Qed.

(** ** Signature hashes are defined *)

Section sighash_defined.
Context {C : Crypto} {E : SiaEncoding} {P : Params}.

Lemma write_indexed_defined {A} (enc : A -> bytes) (l : list A) idx :
  Forall is_u64 idx -> Forall (fun x => x < zlen l) idx ->
  is_Some (write_indexed enc l idx).
Proof.
  intros H0 Hlt. unfold write_indexed.
  assert (Hm : is_Some (mapM (fun i => x ← l !! Z.to_nat i; Some (enc x)) idx)).
  { apply mapM_is_Some. rewrite Forall_forall in *. intros i Hi.
    destruct (lookup_lt_is_Some_2 l (Z.to_nat i)) as [x Hx].
    - specialize (H0 i Hi). specialize (Hlt i Hi). unfold is_u64, zlen in *. lia.
    - unfold compose. rewrite Hx. by eexists. }
  destruct Hm as [parts ->]. by eexists.
Qed.

Lemma SigHash_defined t i sig height :
  wf_txn t -> t_TransactionSignatures t !! Z.to_nat i = Some sig ->
  covers_ok t (ts_CoveredFields sig) -> is_Some (SigHash t i height).
Proof.
  intros Hwf Hsig [_ Hc]. unfold SigHash. rewrite Hsig. cbn.
  destruct Hwf as (_ & _ & _ & _ & _ & _ & _ & _ & _ & _ & Hts).
  rewrite Forall_forall in Hts. destruct (Hts sig) as (_ & _ & Hcf & _);
    [by eapply list_elem_of_lookup_2|].
  unfold wf_cf, covered_slices in Hcf. unfold fieldMaxs in Hc.
  rewrite !Forall_cons in Hc. rewrite !Forall_cons in Hcf. cbn in Hc.
  destruct Hc as (? & ? & ? & ? & ? & ? & ? & ? & ? & ? & _).
  destruct Hcf as (? & ? & ? & ? & ? & ? & ? & ? & ? & ? & _).
  assert (Hdef : forall A (enc : A -> bytes) l idx,
    wf_slice is_u64 idx -> StronglySorted Z.lt idx /\ Forall (fun x => x < zlen l) idx ->
    is_Some (write_indexed enc l idx))
    by (intros A enc l idx [_ ?] [_ ?]; by apply write_indexed_defined).
  destruct (cf_WholeTransaction _).
  - unfold wholeSigHash.
    destruct (Hdef _ TransactionSignature_MarshalSia (t_TransactionSignatures t)
      (cf_TransactionSignatures (ts_CoveredFields sig))) as [b ->]; [done..|].
    by eexists.
  - unfold partialSigHash. cbn zeta.
    repeat match goal with
    | |- is_Some (mbind _ (write_indexed ?enc ?l ?idx)) =>
        destruct (Hdef _ enc l idx) as [? ->]; [done..|]; cbn [mbind option_bind]
    end. by eexists.
Qed.

End sighash_defined.

(** ** A fully signed transaction *)

(** The inputs that need signatures, by their parent's ID. *)
Definition signed_inputs (t : Transaction) : list (Hash * UnlockConditions) :=
  ((fun x => (sci_ParentID x, sci_UnlockConditions x)) <$> t_SiacoinInputs t) ++
  ((fun x => (fcr_ParentID x, fcr_UnlockConditions x)) <$> t_FileContractRevisions t) ++
  ((fun x => (sfi_ParentID x, sfi_UnlockConditions x)) <$> t_SiafundInputs t).

(** The key indices of the signatures for an input. *)
Definition keys_for (id : Hash) (sigs : list TransactionSignature) : list Z :=
  ts_PublicKeyIndex <$> filter (fun sig => ts_ParentID sig = id) sigs.

Section signed.
Context {C : Crypto} {E : SiaEncoding} {P : Params}.

(** The key accepts the signature: it is not an entropy key, and an ed25519
    key verifies it on the signature hash. *)
Definition key_accepts (t : Transaction) (height : BlockHeight) (i : Z)
    (sig : TransactionSignature) (key : SiaPublicKey) : Prop :=
  spk_Algorithm key <> SignatureEntropy /\
  (spk_Algorithm key = SignatureEd25519 -> exists hash,
     SigHash t i height = Some hash /\
     ed25519_verify (copy_array 32 (spk_Key key)) (vec_to_list hash)
       (copy_array 64 (ts_Signature sig)) = true).

Definition sig_ok (t : Transaction) (height : BlockHeight) (i : Z)
    (sig : TransactionSignature) : Prop :=
  exists uc key, (ts_ParentID sig, uc) ∈ signed_inputs t /\
    uc_PublicKeys uc !! Z.to_nat (ts_PublicKeyIndex sig) = Some key /\
    ts_Timelock sig <= height /\ key_accepts t height i sig key.

Definition fully_signed (t : Transaction) (height : BlockHeight) : Prop :=
  Forall (fun sig => covers_ok t (ts_CoveredFields sig)) (t_TransactionSignatures t) /\
  NoDup (signed_inputs t).*1 /\
  (forall i sig, t_TransactionSignatures t !! i = Some sig ->
     sig_ok t height (Z.of_nat i) sig) /\
  (forall id uc, (id, uc) ∈ signed_inputs t ->
     NoDup (keys_for id (t_TransactionSignatures t)) /\
     zlen (keys_for id (t_TransactionSignatures t)) = uc_SignaturesRequired uc).

Lemma verify_sig_spec t i sig key height :
  (spk_Algorithm key = SignatureEd25519 -> is_Some (SigHash t i height)) ->
  match verify_sig t i sig key height with
  | Some None => key_accepts t height i sig key
  | Some (Some _) => ~ key_accepts t height i sig key
  | None => False
  end.
Proof.
  intros Hdef. unfold verify_sig, key_accepts.
  case_bool_decide as He; [by intros [? _]|].
  case_bool_decide as Hd; [|done].
  destruct (Hdef Hd) as [hash Hh]. rewrite Hh. cbn. unfold VerifyHash.
  destruct (ed25519_verify _ _ _) eqn:Hv; [by eauto|].
  intros [_ H]. destruct (H Hd) as (h' & [= <-] & H'). congruence.
Qed.

(** *** Filling the map *)

Definition inputs_map (m : sigMap) (ins : list (Hash * UnlockConditions)) : Prop :=
  (forall id uc, (id, uc) ∈ ins -> exists i,
     m !! id = Some (mkInputSignatures (uc_SignaturesRequired uc) (uc_PublicKeys uc) ∅ i)) /\
  (forall id, id ∉ ins.*1 -> m !! id = None).

Lemma add_input_run i id uc m :
  add_input i id uc m =
  match m !! id with
  | Some _ => Err ErrDoubleSpend m
  | None => Ret () (<[id := mkInputSignatures (uc_SignaturesRequired uc)
                              (uc_PublicKeys uc) ∅ i]> m)
  end.
Proof. unfold add_input, mbind, M_bind, get. by destruct (m !! id). Qed.

Lemma add_inputs_spec {A} (id : A -> Hash) uc l i m ins :
  inputs_map m ins -> NoDup ins.*1 ->
  let ins' := ins ++ ((fun x => (id x, uc x)) <$> l) in
  match for_fold (fun i x _ => add_input i (id x) (uc x)) i l () m with
  | Ret _ m' => inputs_map m' ins' /\ NoDup ins'.*1
  | Err e _ => e = ErrDoubleSpend /\ ~ NoDup ins'.*1
  | Panic _ => False
  end.
Proof.
  revert i m ins. induction l as [|x l IH]; intros i m ins Hm Hnd; cbn [fmap list_fmap].
  - cbn. by rewrite app_nil_r.
  - rewrite for_fold_cons, add_input_run.
    destruct Hm as [Hin Hout]. destruct (decide (id x ∈ ins.*1)) as [Hx|Hx].
    + apply list_elem_of_fmap in Hx as ([id' uc'] & Hid & Hx). cbn in Hid. subst.
      destruct (Hin _ _ Hx) as [j ->]. split; [done|].
      rewrite fmap_app. cbn. intros Hnd'. apply NoDup_app in Hnd' as (_ & Hd & _).
      apply (Hd (id x)); [|left]. apply list_elem_of_fmap. by exists (id x, uc').
    + rewrite (Hout _ Hx).
      specialize (IH (i + 1) (<[id x := mkInputSignatures (uc_SignaturesRequired (uc x))
        (uc_PublicKeys (uc x)) ∅ i]> m) (ins ++ [(id x, uc x)])).
      rewrite <- app_assoc in IH. apply IH.
      * split.
        -- intros id' uc' [H|H]%elem_of_app.
           ++ rewrite lookup_insert_ne; [by apply Hin|]. intros <-. apply Hx.
              apply list_elem_of_fmap. by exists (id x, uc').
           ++ apply list_elem_of_singleton in H as [= -> ->].
              rewrite lookup_insert_eq. by eexists.
        -- intros id' H. rewrite fmap_app, not_elem_of_app in H. destruct H as [H1 H2].
           rewrite lookup_insert_ne; [by apply Hout|].
           intros Heq. apply H2. rewrite <- Heq. by left.
      * rewrite fmap_app. apply NoDup_app. split_and!; [done| |apply NoDup_singleton].
        intros y Hy Hy2. apply list_elem_of_singleton in Hy2. by subst.
Qed.

(** *** The loop over the signatures *)

Definition sig_state (m : sigMap) (ins : list (Hash * UnlockConditions))
    (done : list TransactionSignature) : Prop :=
  (forall id uc, (id, uc) ∈ ins -> exists i,
     m !! id = Some (mkInputSignatures (uc_SignaturesRequired uc - zlen (keys_for id done))
                       (uc_PublicKeys uc) (list_to_set (keys_for id done)) i)) /\
  (forall id, id ∉ ins.*1 -> m !! id = None).

(** The next signature fits the ones before it. *)
Definition step_ok t height (done : list TransactionSignature) (i : Z) sig : Prop :=
  sig_ok t height i sig /\
  ~ (ts_PublicKeyIndex sig ∈ keys_for (ts_ParentID sig) done) /\
  (forall uc, (ts_ParentID sig, uc) ∈ signed_inputs t ->
     zlen (keys_for (ts_ParentID sig) done) < uc_SignaturesRequired uc).

Definition sigs_ok t height (done : list TransactionSignature) : Prop :=
  (forall i sig, done !! i = Some sig -> sig_ok t height (Z.of_nat i) sig) /\
  (forall id uc, (id, uc) ∈ signed_inputs t ->
     NoDup (keys_for id done) /\ zlen (keys_for id done) <= uc_SignaturesRequired uc).

Lemma keys_for_snoc id done sig :
  keys_for id (done ++ [sig]) =
  keys_for id done ++ (if decide (ts_ParentID sig = id) then [ts_PublicKeyIndex sig] else []).
Proof.
  unfold keys_for. rewrite filter_app, fmap_app. f_equal.
  rewrite filter_cons. by case_decide.
Qed.

Lemma keys_for_snoc_ne id done sig :
  ts_ParentID sig <> id -> keys_for id (done ++ [sig]) = keys_for id done.
Proof. intros. rewrite keys_for_snoc, decide_False by done. by rewrite app_nil_r. Qed.

Lemma keys_for_snoc_eq done sig :
  keys_for (ts_ParentID sig) (done ++ [sig]) =
  keys_for (ts_ParentID sig) done ++ [ts_PublicKeyIndex sig].
Proof. by rewrite keys_for_snoc, decide_True. Qed.

Lemma input_unique (ins : list (Hash * UnlockConditions)) id uc uc' :
  NoDup ins.*1 -> (id, uc) ∈ ins -> (id, uc') ∈ ins -> uc = uc'.
Proof.
  intros Hnd H1 H2. apply list_elem_of_lookup in H1 as [i Hi], H2 as [j Hj].
  assert (i = j) as ->; [|congruence].
  eapply NoDup_lookup; [done| |]; rewrite list_lookup_fmap, ?Hi, ?Hj; done.
Qed.

Lemma sigs_ok_snoc t height done sig :
  sigs_ok t height (done ++ [sig]) <->
  sigs_ok t height done /\ step_ok t height done (zlen done) sig.
Proof.
  split.
  - intros [Hs Hk]. split_and!.
    + split.
      * intros i s Hi. apply Hs. by apply lookup_app_l_Some.
      * intros id uc Hin. specialize (Hk id uc Hin). rewrite keys_for_snoc in Hk.
        destruct Hk as [Hnd Hle]. apply NoDup_app in Hnd as (? & _ & _).
        rewrite zlen_app in Hle. unfold zlen in *. split; [done|lia].
    + split_and!.
      * apply Hs. by rewrite lookup_app_r, Nat.sub_diag.
      * destruct (Hs (length done) sig) as (uc & key & Hin & _);
          [by rewrite lookup_app_r, Nat.sub_diag|].
        destruct (Hk _ _ Hin) as [Hnd _]. rewrite keys_for_snoc_eq in Hnd.
        apply NoDup_app in Hnd as (_ & Hd & _). intros H. apply (Hd _ H). by left.
      * intros uc Hin. destruct (Hk _ _ Hin) as [_ Hle].
        rewrite keys_for_snoc_eq, zlen_app in Hle. unfold zlen in *. cbn in Hle. lia.
  - intros [[Hs Hk] (Hok & Hfresh & Hlt)]. split.
    + intros i s Hi. apply lookup_app_Some in Hi as [Hi|[Hlen Hi]]; [by apply Hs|].
      apply list_lookup_singleton_Some in Hi as [Hi <-].
      replace i with (length done) by lia. done.
    + intros id uc Hin. destruct (Hk _ _ Hin) as [Hnd Hle].
      destruct (decide (ts_ParentID sig = id)) as [<-|Hne].
      * specialize (Hlt uc Hin). rewrite keys_for_snoc_eq, zlen_app.
        split; [|unfold zlen in *; cbn; lia]. apply NoDup_app.
        split_and!; [done| |apply NoDup_singleton].
        intros x Hx Hx2. apply list_elem_of_singleton in Hx2. by subst.
      * rewrite keys_for_snoc_ne by done. done.
Qed.

Lemma sig_state_step m ins done sig uc j :
  sig_state m ins done -> NoDup ins.*1 -> (ts_ParentID sig, uc) ∈ ins ->
  sig_state (<[ts_ParentID sig := mkInputSignatures
     (uc_SignaturesRequired uc - zlen (keys_for (ts_ParentID sig) done) - 1)
     (uc_PublicKeys uc)
     ({[ts_PublicKeyIndex sig]} ∪ list_to_set (keys_for (ts_ParentID sig) done)) j]> m)
    ins (done ++ [sig]).
Proof.
  intros [Hin Hout] Hnd Hp. split.
  - intros id uc' Hid. destruct (decide (ts_ParentID sig = id)) as [<-|Hne].
    + rewrite (input_unique _ _ _ _ Hnd Hid Hp). exists j.
      rewrite lookup_insert_eq, keys_for_snoc_eq, zlen_app. do 2 f_equal.
      * unfold zlen. cbn. lia.
      * rewrite list_to_set_app_L. cbn. rewrite union_empty_r_L. apply union_comm_L.
    + rewrite lookup_insert_ne, keys_for_snoc_ne by done. by apply Hin.
  - intros id Hid. rewrite lookup_insert_ne; [by apply Hout|]. intros <-.
    apply Hid, list_elem_of_fmap. by exists (ts_ParentID sig, uc).
Qed.

Lemma check_signature_step t height done sig m :
  sig_state m (signed_inputs t) done -> NoDup (signed_inputs t).*1 ->
  (forall id uc, (id, uc) ∈ signed_inputs t ->
     is_u64 (uc_SignaturesRequired uc) /\
     zlen (keys_for id done) <= uc_SignaturesRequired uc) ->
  is_u64 (ts_PublicKeyIndex sig) -> is_Some (SigHash t (zlen done) height) ->
  match check_signature t height (zlen done) sig m with
  | Ret _ m' => sig_state m' (signed_inputs t) (done ++ [sig]) /\
                step_ok t height done (zlen done) sig
  | Err _ _ => ~ step_ok t height done (zlen done) sig
  | Panic _ => False
  end.
Proof.
  intros Hst Hnd Hreq Hidx Hdef. unfold check_signature, mbind, M_bind, get.
  destruct (decide (ts_ParentID sig ∈ (signed_inputs t).*1)) as [Hp|Hp].
  2:{ rewrite (proj2 Hst _ Hp). intros [(uc & _ & Hin & _) _].
      apply Hp, list_elem_of_fmap. by exists (ts_ParentID sig, uc). }
  apply list_elem_of_fmap in Hp as ([id uc] & Hid & Hp). cbn in Hid. subst id.
  destruct (proj1 Hst _ _ Hp) as [j ->].
  destruct (Hreq _ _ Hp) as [Hu Hle].
  cbn [is_remainingSignatures is_possibleKeys is_usedKeys is_index].
  assert (Huniq : forall uc', (ts_ParentID sig, uc') ∈ signed_inputs t -> uc' = uc)
    by (intros uc' Hin; exact (input_unique _ _ _ _ Hnd Hin Hp)).
  destruct (Z.eqb_spec (uc_SignaturesRequired uc - zlen (keys_for (ts_ParentID sig) done)) 0)
    as [H0|H0]; cbn [err_if check throw mret M_ret].
  { intros (_ & _ & Hlt). specialize (Hlt uc Hp). lia. }
  case_bool_decide as Hused; cbn [err_if check throw mret M_ret].
  { intros (_ & Hf & _). apply elem_of_list_to_set in Hused. done. }
  destruct (Z.leb_spec (zlen (uc_PublicKeys uc)) (ts_PublicKeyIndex sig)) as [Hkl|Hkl];
    cbn [err_if check throw mret M_ret].
  { intros [(uc' & key & Hin & Hkey & _) _]. rewrite (Huniq uc' Hin) in Hkey.
    apply lookup_lt_Some in Hkey. unfold zlen, is_u64 in *. lia. }
  destruct (Z.ltb_spec height (ts_Timelock sig)) as [Ht|Ht];
    cbn [err_if check throw mret M_ret].
  { intros [(uc' & key & _ & _ & Ht' & _) _]. lia. }
  destruct (lookup_lt_is_Some_2 (uc_PublicKeys uc) (Z.to_nat (ts_PublicKeyIndex sig)))
    as [key Hkey]; [unfold zlen, is_u64 in *; lia|].
  rewrite Hkey. pose proof (verify_sig_spec t (zlen done) sig key height) as Hv.
  specialize (Hv ltac:(done)).
  destruct (verify_sig _ _ _ _ _) as [[e|]|]; cbn [lift_err check throw mret M_ret]; [| |done].
  - intros [(uc' & key' & Hin & Hkey' & _ & Hacc) _]. rewrite (Huniq uc' Hin) in Hkey'.
    congruence.
  - unfold modify. rewrite u64_small by (unfold is_u64, zlen in *; lia). split.
    + by apply sig_state_step.
    + split_and!.
      * by exists uc, key.
      * by rewrite <- (elem_of_list_to_set (C := gset Z)).
      * intros uc' Hin. rewrite (Huniq uc' Hin). lia.
Qed.

Lemma check_signatures_loop t height rest done m :
  sig_state m (signed_inputs t) done -> NoDup (signed_inputs t).*1 ->
  (forall id uc, (id, uc) ∈ signed_inputs t -> is_u64 (uc_SignaturesRequired uc)) ->
  (forall sig, sig ∈ rest -> is_u64 (ts_PublicKeyIndex sig)) ->
  (forall i, 0 <= i < zlen (done ++ rest) -> is_Some (SigHash t i height)) ->
  sigs_ok t height done ->
  match for_fold (fun i sig _ => check_signature t height i sig) (zlen done) rest () m with
  | Ret _ m' => sig_state m' (signed_inputs t) (done ++ rest) /\ sigs_ok t height (done ++ rest)
  | Err _ _ => ~ sigs_ok t height (done ++ rest)
  | Panic _ => False
  end.
Proof.
  revert done m. induction rest as [|sig rest IH]; intros done m Hst Hnd Hreq Hidx Hdef Hok.
  - cbn. by rewrite app_nil_r.
  - rewrite for_fold_cons.
    pose proof (check_signature_step t height done sig m Hst Hnd) as Hstep.
    specialize (Hstep ltac:(intros id uc Hin; split; [by eapply Hreq|by apply Hok])).
    specialize (Hstep (Hidx sig ltac:(by left))).
    specialize (Hstep (Hdef (zlen done)
      ltac:(unfold zlen; rewrite length_app; simpl length; lia))).
    replace (done ++ sig :: rest) with ((done ++ [sig]) ++ rest) in *
      by (by rewrite <- app_assoc).
    destruct (check_signature _ _ _ _ _) as [[] m'|e m'|]; [| |done].
    + destruct Hstep as [Hst' Hsok].
      replace (zlen done + 1) with (zlen (done ++ [sig])) by (by rewrite zlen_app).
      apply IH; try done; [intros s Hs; apply Hidx; by right|].
      by apply sigs_ok_snoc.
    + intros Hall. apply Hstep.
      assert (Hpre : sigs_ok t height (done ++ [sig])); [|by apply sigs_ok_snoc in Hpre as [_ ?]].
      clear -Hall. revert Hall. generalize (done ++ [sig]) as l. clear. intros l Hall.
      induction rest as [|x rest IH] using rev_ind; [by rewrite app_nil_r in Hall|].
      apply IH. rewrite app_assoc in Hall. by apply sigs_ok_snoc in Hall as [? _].
Qed.

Lemma all_signed_spec m ins sigs :
  sig_state m ins sigs ->
  all_signed m = None <->
  forall id uc, (id, uc) ∈ ins -> zlen (keys_for id sigs) = uc_SignaturesRequired uc.
Proof.
  intros [Hin Hout]. unfold all_signed. rewrite for_err_None. split.
  - intros H id uc Hid. destruct (Hin _ _ Hid) as [i Hi].
    specialize (H (id, _) (proj2 (elem_of_map_to_list _ _ _) Hi)).
    apply err_if_None in H. cbn in H. bool_prop. lia.
  - intros H [id s] Hkv%elem_of_map_to_list. apply err_if_None. cbn.
    destruct (decide (id ∈ ins.*1)) as [Hid|Hid].
    + apply list_elem_of_fmap in Hid as ([id' uc] & Heq & Hid). cbn in Heq. subst id'.
      destruct (Hin _ _ Hid) as [i Hi]. simplify_eq. cbn.
      rewrite (H _ _ Hid), Z.sub_diag. done.
    + rewrite (Hout _ Hid) in Hkv. done.
Qed.

Lemma wf_signed_inputs t id uc :
  wf_txn t -> (id, uc) ∈ signed_inputs t -> is_u64 (uc_SignaturesRequired uc).
Proof.
  intros ([_ H1] & _ & _ & [_ H2] & _ & [_ H3] & _) Hin.
  rewrite Forall_forall in H1. rewrite Forall_forall in H2. rewrite Forall_forall in H3.
  assert (Huc : wf_uc uc); [|apply Huc].
  unfold signed_inputs in Hin. rewrite !elem_of_app, !list_elem_of_fmap in Hin.
  destruct Hin as [(x & [= -> ->] & Hx)|[(x & [= -> ->] & Hx)|(x & [= -> ->] & Hx)]].
  - by apply H1.
  - by apply H2.
  - by apply H3.
Qed.

Lemma add_all_inputs t :
  match (_ ← add_inputs sci_ParentID sci_UnlockConditions (t_SiacoinInputs t);
         _ ← add_inputs fcr_ParentID fcr_UnlockConditions (t_FileContractRevisions t);
         add_inputs sfi_ParentID sfi_UnlockConditions (t_SiafundInputs t)) ∅ with
  | Ret _ m => inputs_map m (signed_inputs t) /\ NoDup (signed_inputs t).*1
  | Err e _ => e = ErrDoubleSpend /\ ~ NoDup (signed_inputs t).*1
  | Panic _ => False
  end.
Proof.
  unfold mbind, M_bind, add_inputs, signed_inputs.
  assert (H0 : inputs_map ∅ []) by (split; [by intros ?? ?%not_elem_of_nil|done]).
  pose proof (add_inputs_spec sci_ParentID sci_UnlockConditions (t_SiacoinInputs t)
                0 _ _ H0 (NoDup_nil_2 (A := Hash))) as H1. cbn zeta in H1. rewrite app_nil_l in H1.
  destruct (for_fold _ 0 (t_SiacoinInputs t) _ _) as [[] m1|e m1|]; [| |done].
  2:{ destruct H1 as [-> H1]. split; [done|]. rewrite fmap_app. intros [? _]%NoDup_app. done. }
  destruct H1 as [Hm1 Hn1].
  pose proof (add_inputs_spec fcr_ParentID fcr_UnlockConditions (t_FileContractRevisions t)
                0 _ _ Hm1 Hn1) as H2. cbn zeta in H2.
  destruct (for_fold _ 0 (t_FileContractRevisions t) _ _) as [[] m2|e m2|]; [| |done].
  2:{ destruct H2 as [-> H2]. split; [done|]. rewrite app_assoc, fmap_app.
      intros [? _]%NoDup_app. done. }
  destruct H2 as [Hm2 Hn2].
  pose proof (add_inputs_spec sfi_ParentID sfi_UnlockConditions (t_SiafundInputs t)
                0 _ _ Hm2 Hn2) as H3. cbn zeta in H3. rewrite <- app_assoc in H3.
  destruct (for_fold _ 0 (t_SiafundInputs t) _ _); done.
Qed.

(** The signature loop, from the map of the inputs. *)
Lemma signatures_phase t height m :
  wf_txn t ->
  Forall (fun sig => covers_ok t (ts_CoveredFields sig)) (t_TransactionSignatures t) ->
  inputs_map m (signed_inputs t) -> NoDup (signed_inputs t).*1 ->
  match for_fold (fun i sig _ => check_signature t height i sig) 0
          (t_TransactionSignatures t) () m with
  | Ret _ m' => sig_state m' (signed_inputs t) (t_TransactionSignatures t) /\
                sigs_ok t height (t_TransactionSignatures t)
  | Err _ _ => ~ sigs_ok t height (t_TransactionSignatures t)
  | Panic _ => False
  end.
Proof.
  intros Hwf Hcov [Hin Hout] Hnd.
  assert (Hst : sig_state m (signed_inputs t) []).
  { split; [|done]. intros id uc Hid. destruct (Hin _ _ Hid) as [i ->]. exists i.
    change (zlen (keys_for id [])) with 0. rewrite Z.sub_0_r. done. }
  destruct (Hwf) as (_ & _ & _ & _ & _ & _ & _ & _ & _ & _ & Hts).
  rewrite Forall_forall in Hts. rewrite Forall_forall in Hcov.
  apply (check_signatures_loop t height (t_TransactionSignatures t) [] m); try done.
  - intros id uc. by apply wf_signed_inputs.
  - intros sig Hsig. apply (Hts sig Hsig).
  - intros i Hi. destruct (lookup_lt_is_Some_2 (t_TransactionSignatures t) (Z.to_nat i))
      as [sig Hsig]; [unfold zlen in Hi; cbn in Hi; lia|].
    eapply SigHash_defined; [done|exact Hsig|]. apply Hcov.
    by eapply list_elem_of_lookup_2.
  - split; [done|]. intros id uc Hid. split; [apply NoDup_nil_2|].
    by destruct (wf_signed_inputs t id uc Hwf Hid).
Qed.

Lemma validSignatures_decides t height :
  wf_txn t ->
  validSignatures t height <> None /\
  (validSignatures t height = Some None <-> fully_signed t height).
Proof.
  intros Hwf. unfold validSignatures, validSignatures_body, mbind, M_bind.
  pose proof (validCoveredFields_spec t) as Hcov.
  destruct (validCoveredFields t) as [e|]; cbv beta iota delta [check throw mret M_ret].
  { split; [done|]. split; [done|]. intros [Hc _]. by apply Hcov in Hc. }
  destruct Hcov as [Hcov _]. specialize (Hcov eq_refl).
  pose proof (add_all_inputs t) as Hadd.
  unfold mbind, M_bind in Hadd.
  destruct (add_inputs sci_ParentID _ _ _) as [[] m1|e m1|]; [| |done].
  2:{ cbn. split; [done|]. split; [done|]. intros (_ & Hn & _). by destruct Hadd. }
  destruct (add_inputs fcr_ParentID _ _ _) as [[] m2|e m2|]; [| |done].
  2:{ cbn. split; [done|]. split; [done|]. intros (_ & Hn & _). by destruct Hadd. }
  destruct (add_inputs sfi_ParentID _ _ _) as [[] m3|e m3|]; [| |done].
  2:{ cbn. split; [done|]. split; [done|]. intros (_ & Hn & _). by destruct Hadd. }
  destruct Hadd as [Hm Hnd].
  pose proof (signatures_phase t height m3 Hwf Hcov Hm Hnd) as Hloop.
  destruct (for_fold _ _ _ _ _) as [[] m4|e m4|]; [| |done].
  - destruct Hloop as [Hst4 [Hs Hk]]. cbn [get].
    pose proof (all_signed_spec _ _ _ Hst4) as Hall.
    destruct (all_signed m4) as [e|]; cbn [run_err].
    + split; [done|]. split; [done|]. intros (_ & _ & _ & Hkeys).
      assert (Some e = None) by (apply Hall; intros id uc Hid; by apply Hkeys). done.
    + split; [done|]. split; [intros _|done]. destruct Hall as [Hall _].
      specialize (Hall eq_refl). split_and!; [done|done|done|].
      intros id uc Hid. split; [by apply (Hk id uc)|by apply Hall].
  - cbn. split; [done|]. split; [done|]. intros (_ & _ & Hs & Hkeys). exfalso. apply Hloop. split; [done|].
    intros id uc Hid. destruct (Hkeys _ _ Hid) as [? ->]. split; [done|lia].
Qed.

(** C16. [validSignatures] accepts exactly the fully signed transactions: the
    covered fields of every signature are sorted, unique, in range and neither
    missing nor redundant; no parent is spent twice; every signature is for an
    input of the transaction, points to one of its keys, is past its timelock
    and is accepted by the key; and every input has exactly the number of
    signatures it requires, from different keys.  On no transaction does it
    index out of range. *)
Theorem validSignatures_spec t height :
  wf_txn t ->
  validSignatures t height <> None /\
  (validSignatures t height = Some None <-> fully_signed t height).
Proof. apply validSignatures_decides. Qed.

End signed.

(** ** Witness *)

(** One input with one key, signed under the placeholder scheme. *)
Definition ex_key : SiaPublicKey := mkSiaPublicKey SignatureEd25519 (replicate 32 Byte.xa5).
Definition ex_conditions : UnlockConditions := mkUnlockConditions 0 [ex_key] 1.
Definition ex_spend (sig : bytes) : Transaction :=
  mkTransaction [mkSiacoinInput (zero_array 32) ex_conditions]
    [mkSiacoinOutput 5 (zero_array 32)] [] [] [] [] [] [] []
    [mkTransactionSignature (zero_array 32) 0 0
       (mkCoveredFields true [] [] [] [] [] [] [] [] [] []) sig].
Definition ex_addr (_ : string) : UnlockHash := zero_array 32.
Definition ex_sig : bytes :=
  match SigHash (P := standard_params ex_addr) (ex_spend []) 0 10 with
  | Some h => vec_to_list (toy_hash (spk_Key ex_key ++ vec_to_list h))
  | None => []
  end.

Lemma ex_spend_wf sig : wf_len sig -> wf_txn (ex_spend sig).
Proof.
  intros Hs. repeat first [exact Hs | split | apply Forall_cons | apply Forall_nil];
    vm_compute; first [reflexivity | discriminate].
Qed.

Lemma ex_sig_len : wf_len ex_sig.
Proof. vm_compute. reflexivity. Qed.

Lemma validSignatures_witness :
  fully_signed (P := standard_params ex_addr) (ex_spend ex_sig) 10 /\
  ~ fully_signed (P := standard_params ex_addr) (ex_spend []) 10.
Proof.
  split.
  - destruct (validSignatures_spec (P := standard_params ex_addr) (ex_spend ex_sig) 10
                (ex_spend_wf _ ex_sig_len)) as [_ [H _]].
    apply H. vm_compute. reflexivity.
  - destruct (validSignatures_spec (P := standard_params ex_addr) (ex_spend []) 10
                (ex_spend_wf [] eq_refl)) as [_ [_ H]].
    assert (Hn : validSignatures (P := standard_params ex_addr) (ex_spend []) 10
                 = Some (Some ErrInvalidSignature)) by (vm_compute; reflexivity).
    intros Hs. specialize (H Hs). rewrite Hn in H. discriminate H.
Defined.
