(* ===== verification/ValidTransaction.v ===== *)
(** * Rules a transaction satisfies on its own

    types/validtransaction.go: the checks that need no blockchain state, and
    [StandaloneValid], which runs them all. *)

From S2P Require Import Prelude Bytes Interfaces Currency Instances Types Params.
From S2P Require Import Encoding EncodingFacts Transactions Signatures SignaturesFacts.

Open Scope Z_scope.

Section standalone.
Context {P : Params}.

(** [for _, output := range l { sum = sum.Add(output.Value) }]. *)
Definition output_sum (l : list SiacoinOutput) : Currency :=
  fold_left (fun sum output => Currency.Add sum (sco_Value output)) l Currency.ZeroCurrency.

Definition correctFileContracts (t : Transaction) (currentHeight : BlockHeight) : err :=
  for_err (fun fc =>
    err_if (fc_WindowStart fc <=? currentHeight) ErrFileContractWindowStartViolation ;;?
    err_if (fc_WindowEnd fc <=? fc_WindowStart fc) ErrFileContractWindowEndViolation ;;?
    let outputPortion := PostTax currentHeight (fc_Payout fc) in
    err_if (negb (Currency.Cmp (output_sum (fc_ValidProofOutputs fc)) outputPortion =? 0))
      ErrFileContractOutputSumViolation ;;?
    err_if (negb (Currency.Cmp (output_sum (fc_MissedProofOutputs fc)) outputPortion =? 0))
      ErrFileContractOutputSumViolation)
  (t_FileContracts t).

Definition correctFileContractRevisions (t : Transaction) (currentHeight : BlockHeight) : err :=
  for_err (fun fcr =>
    err_if (fcr_NewWindowStart fcr <=? currentHeight) ErrFileContractWindowStartViolation ;;?
    err_if (fcr_NewWindowEnd fcr <=? fcr_NewWindowStart fcr)
      ErrFileContractWindowEndViolation ;;?
    err_if (negb (Currency.Cmp (output_sum (fcr_NewValidProofOutputs fcr))
                    (output_sum (fcr_NewMissedProofOutputs fcr)) =? 0))
      ErrFileContractOutputSumViolation)
  (t_FileContractRevisions t).

Definition fitsInABlock (t : Transaction) (currentHeight : BlockHeight) : err :=
  let size := u64 (Transaction_MarshalSiaSize t) in
  err_if (u64 (BlockSizeLimit - 5000) <? size) ErrTransactionTooLarge ;;?
  if OakHardforkBlock <=? currentHeight
  then err_if (OakHardforkTxnSizeLimit <? size) ErrTransactionTooLarge
  else None.

Definition followsMinimumValues (t : Transaction) : err :=
  for_err (fun sco => err_if (Currency.IsZero (sco_Value sco)) ErrZeroOutput)
    (t_SiacoinOutputs t) ;;?
  for_err (fun fc => err_if (Currency.IsZero (fc_Payout fc)) ErrZeroOutput)
    (t_FileContracts t) ;;?
  for_err (fun sfo =>
      err_if (negb (Currency.IsZero (sfo_ClaimStart sfo))) ErrNonZeroClaimStart ;;?
      err_if (Currency.IsZero (sfo_Value sfo)) ErrZeroOutput)
    (t_SiafundOutputs t) ;;?
  for_err (fun fee => err_if (Currency.IsZero fee) ErrZeroMinerFee) (t_MinerFees t).

Definition followsStorageProofRules (t : Transaction) : err :=
  if (length (t_StorageProofs t) =? 0)%nat then None
  else
    err_if (nonempty (t_SiacoinOutputs t)) ErrStorageProofWithOutputs ;;?
    err_if (nonempty (t_FileContracts t)) ErrStorageProofWithOutputs ;;?
    err_if (nonempty (t_FileContractRevisions t)) ErrStorageProofWithOutputs ;;?
    err_if (nonempty (t_SiafundOutputs t)) ErrStorageProofWithOutputs.

(** A loop that adds IDs to a set and stops at one it has seen. *)
Fixpoint add_unique (seen : gset Hash) (ids : list Hash) : option (gset Hash) :=
  match ids with
  | [] => Some seen
  | id :: ids => if bool_decide (id ∈ seen) then None else add_unique ({[id]} ∪ seen) ids
  end.

Definition noRepeats (t : Transaction) : err :=
  match add_unique ∅ (sci_ParentID <$> t_SiacoinInputs t) with
  | None => Some ErrDoubleSpend
  | Some _ =>
  match add_unique ∅ (sp_ParentID <$> t_StorageProofs t) with
  | None => Some ErrDoubleSpend
  | Some doneFileContracts =>
  match add_unique doneFileContracts (fcr_ParentID <$> t_FileContractRevisions t) with
  | None => Some ErrDoubleSpend
  | Some _ =>
  match add_unique ∅ (sfi_ParentID <$> t_SiafundInputs t) with
  | None => Some ErrDoubleSpend
  | Some _ => None
  end end end end.

Definition validUnlockConditions_one (uc : UnlockConditions) (currentHeight : BlockHeight) : err :=
  err_if (currentHeight <? uc_Timelock uc) ErrTimelockNotSatisfied.

Definition validUnlockConditions (t : Transaction) (currentHeight : BlockHeight) : err :=
  for_err (fun sci => validUnlockConditions_one (sci_UnlockConditions sci) currentHeight)
    (t_SiacoinInputs t) ;;?
  for_err (fun fcr => validUnlockConditions_one (fcr_UnlockConditions fcr) currentHeight)
    (t_FileContractRevisions t) ;;?
  for_err (fun sfi => validUnlockConditions_one (sfi_UnlockConditions sfi) currentHeight)
    (t_SiafundInputs t).

Context {C : Crypto} {E : SiaEncoding}.

(** [None] is a panic, which [validSignatures] does not give. *)
Definition StandaloneValid (t : Transaction) (currentHeight : BlockHeight) : option err :=
  match fitsInABlock t currentHeight ;;?
        followsStorageProofRules t ;;?
        noRepeats t ;;?
        followsMinimumValues t ;;?
        correctFileContracts t currentHeight ;;?
        correctFileContractRevisions t currentHeight ;;?
        validUnlockConditions t currentHeight with
  | Some e => Some (Some e)
  | None => validSignatures t currentHeight
  end.

(** ** The rules *)

Definition fc_rules (height : BlockHeight) (fc : FileContract) : Prop :=
  height < fc_WindowStart fc < fc_WindowEnd fc /\
  sum_of sco_Value (fc_ValidProofOutputs fc) = PostTax height (fc_Payout fc) /\
  sum_of sco_Value (fc_MissedProofOutputs fc) = PostTax height (fc_Payout fc).

Definition fcr_rules (height : BlockHeight) (fcr : FileContractRevision) : Prop :=
  height < fcr_NewWindowStart fcr < fcr_NewWindowEnd fcr /\
  sum_of sco_Value (fcr_NewValidProofOutputs fcr)
  = sum_of sco_Value (fcr_NewMissedProofOutputs fcr).

Definition size_rule (height : BlockHeight) (size : Z) : Prop :=
  size <= 1995000 /\ (OakHardforkBlock <= height -> size <= 64000).

Definition proof_rule (t : Transaction) : Prop :=
  t_StorageProofs t <> [] ->
  t_SiacoinOutputs t = [] /\ t_FileContracts t = [] /\
  t_FileContractRevisions t = [] /\ t_SiafundOutputs t = [].

Definition value_rules (t : Transaction) : Prop :=
  Forall (fun sco => sco_Value sco <> 0%N) (t_SiacoinOutputs t) /\
  Forall (fun fc => fc_Payout fc <> 0%N) (t_FileContracts t) /\
  Forall (fun sfo => sfo_ClaimStart sfo = 0%N /\ sfo_Value sfo <> 0%N) (t_SiafundOutputs t) /\
  Forall (fun fee => fee <> 0%N) (t_MinerFees t).

(** No output is spent twice, and no contract is proved or revised twice. *)
Definition repeat_rule (t : Transaction) : Prop :=
  NoDup (sci_ParentID <$> t_SiacoinInputs t) /\
  NoDup ((sp_ParentID <$> t_StorageProofs t) ++ (fcr_ParentID <$> t_FileContractRevisions t)) /\
  NoDup (sfi_ParentID <$> t_SiafundInputs t).

Definition standalone_rules (t : Transaction) (height : BlockHeight) : Prop :=
  size_rule height (Transaction_MarshalSiaSize t) /\ proof_rule t /\ repeat_rule t /\
  value_rules t /\ Forall (fc_rules height) (t_FileContracts t) /\
  Forall (fcr_rules height) (t_FileContractRevisions t) /\
  Forall (fun iu => uc_Timelock iu.2 <= height) (signed_inputs t) /\
  fully_signed t height.

(** ** The checks decide the rules *)

Lemma output_sum_sum l : output_sum l = sum_of sco_Value l.
Proof.
  unfold output_sum, Currency.Add, Currency.ZeroCurrency.
  by rewrite (fold_left_add_acc sco_Value), N.add_0_l.
Qed.

Lemma Cmp_zero x y : (Currency.Cmp x y =? 0) = true <-> x = y.
Proof. apply Equals_true. Qed.

Lemma for_err_Forall {A} (body : A -> err) (R : A -> Prop) l :
  (forall x, body x = None <-> R x) -> for_err body l = None <-> Forall R l.
Proof.
  intros H. rewrite for_err_None, Forall_forall. by setoid_rewrite H.
Qed.

Lemma correctFileContracts_spec t height :
  correctFileContracts t height = None <-> Forall (fc_rules height) (t_FileContracts t).
Proof.
  apply for_err_Forall. intros fc. unfold fc_rules.
  rewrite !err_seq_None, !err_if_None, !negb_false_iff, !Cmp_zero, !output_sum_sum, !Z.leb_gt.
  intuition lia.
Qed.

Lemma correctFileContractRevisions_spec t height :
  correctFileContractRevisions t height = None <->
  Forall (fcr_rules height) (t_FileContractRevisions t).
Proof.
  apply for_err_Forall. intros fcr. unfold fcr_rules.
  rewrite !err_seq_None, !err_if_None, !negb_false_iff, !Cmp_zero, !output_sum_sum, !Z.leb_gt.
  intuition lia.
Qed.

Lemma fitsInABlock_spec t height :
  is_u64 (Transaction_MarshalSiaSize t) ->
  fitsInABlock t height = None <-> size_rule height (Transaction_MarshalSiaSize t).
Proof.
  intros Hs. unfold fitsInABlock, size_rule.
  rewrite (u64_small (Transaction_MarshalSiaSize t)) by done.
  change (u64 (BlockSizeLimit - 5000)) with 1995000.
  change OakHardforkTxnSizeLimit with 64000.
  rewrite err_seq_None, err_if_None, Z.ltb_ge.
  destruct (Z.leb_spec OakHardforkBlock height);
    rewrite ?err_if_None, ?Z.ltb_ge; split; intros [??]; split; auto; lia.
Qed.

Lemma followsMinimumValues_spec t : followsMinimumValues t = None <-> value_rules t.
Proof.
  unfold followsMinimumValues, value_rules. rewrite !err_seq_None.
  rewrite (for_err_Forall _ (fun sco => sco_Value sco <> 0%N));
    [|intros x; by rewrite err_if_None, IsZero_false].
  rewrite (for_err_Forall _ (fun fc => fc_Payout fc <> 0%N));
    [|intros x; by rewrite err_if_None, IsZero_false].
  rewrite (for_err_Forall _ (fun sfo => sfo_ClaimStart sfo = 0%N /\ sfo_Value sfo <> 0%N)).
  2:{ intros x. by rewrite err_seq_None, !err_if_None, negb_false_iff, IsZero_true, IsZero_false. }
  rewrite (for_err_Forall _ (fun fee => fee <> 0%N)); [done|].
  intros x. by rewrite err_if_None, IsZero_false.
Qed.

Lemma followsStorageProofRules_spec t : followsStorageProofRules t = None <-> proof_rule t.
Proof.
  unfold followsStorageProofRules, proof_rule.
  destruct (t_StorageProofs t); simpl; [naive_solver|].
  rewrite !err_seq_None, !err_if_None, !nonempty_false. naive_solver.
Qed.

Lemma add_unique_spec seen ids :
  match add_unique seen ids with
  | Some seen' => NoDup ids /\ (forall id, id ∈ ids -> id ∉ seen) /\
                  seen' = list_to_set ids ∪ seen
  | None => ~ (NoDup ids /\ forall id, id ∈ ids -> id ∉ seen)
  end.
Proof.
  revert seen. induction ids as [|id ids IH]; intros seen; cbn [add_unique].
  - split_and!; [constructor|by intros ? ?%not_elem_of_nil|set_solver].
  - case_bool_decide as Hin.
    + intros [_ H]. apply (H id); [by left|done].
    + specialize (IH ({[id]} ∪ seen)). destruct (add_unique _ _) as [s|].
      * destruct IH as (Hnd & Hout & ->). split_and!.
        -- constructor; [|done]. intros H. specialize (Hout id H). set_solver.
        -- intros id' [->|H]%elem_of_cons; [done|]. specialize (Hout id' H). set_solver.
        -- set_solver.
      * intros [Hnd Hout]. apply NoDup_cons in Hnd as [Hni Hnd]. apply IH. split; [done|].
        intros id' H. specialize (Hout id' ltac:(by right)). set_solver.
Qed.

Lemma add_unique_empty ids :
  match add_unique ∅ ids with
  | Some seen => NoDup ids /\ seen = list_to_set ids
  | None => ~ NoDup ids
  end.
Proof.
  pose proof (add_unique_spec ∅ ids) as H. destruct (add_unique ∅ ids).
  - destruct H as (Hnd & _ & ->). split; [done|]. apply union_empty_r_L.
  - intros Hnd. apply H. split; [done|]. intros id _. apply not_elem_of_empty.
Qed.

Lemma noRepeats_spec t : noRepeats t = None <-> repeat_rule t.
Proof.
  unfold noRepeats, repeat_rule. rewrite NoDup_app.
  pose proof (add_unique_empty (sci_ParentID <$> t_SiacoinInputs t)) as H1.
  destruct (add_unique _ _); [|split; [done|]; by intros [? _]].
  pose proof (add_unique_empty (sp_ParentID <$> t_StorageProofs t)) as H2.
  destruct (add_unique ∅ (sp_ParentID <$> _)) as [s2|];
    [|split; [done|]; by intros (_ & [? _] & _)].
  destruct H2 as [H2 ->].
  pose proof (add_unique_spec (list_to_set (sp_ParentID <$> t_StorageProofs t))
    (fcr_ParentID <$> t_FileContractRevisions t)) as H3.
  destruct (add_unique _ (fcr_ParentID <$> _)).
  2:{ split; [done|]. intros (_ & (_ & Hd & Hnd) & _). destruct H3. split; [done|].
      intros id Hf Hs%elem_of_list_to_set. by apply (Hd id). }
  destruct H3 as (H3 & Hd & _).
  pose proof (add_unique_empty (sfi_ParentID <$> t_SiafundInputs t)) as H4.
  destruct (add_unique _ (sfi_ParentID <$> _)); [|split; [done|]; by intros (_ & _ & ?)].
  split; [intros _|done]. split_and!; [apply H1|done| |done|apply H4].
  intros id Hs Hf. apply (Hd id Hf). by apply elem_of_list_to_set.
Qed.

Lemma validUnlockConditions_spec t height :
  validUnlockConditions t height = None <->
  Forall (fun iu => uc_Timelock iu.2 <= height) (signed_inputs t).
Proof.
  unfold validUnlockConditions, signed_inputs, validUnlockConditions_one.
  rewrite !err_seq_None, !Forall_app, !Forall_fmap.
  rewrite !for_err_None, !Forall_forall. unfold compose. cbn.
  setoid_rewrite err_if_None. setoid_rewrite Z.ltb_ge. done.
Qed.

(** C17. [StandaloneValid] accepts a transaction exactly when it follows every
    standalone rule: the size limits, no outputs, contracts or revisions beside
    storage proofs, no repeated parent, no zero values, contract windows and
    payout sums, timelocks, and full signatures; it never panics. *)
Theorem StandaloneValid_spec t height :
  wf_txn t -> is_u64 (Transaction_MarshalSiaSize t) ->
  StandaloneValid t height <> None /\
  (StandaloneValid t height = Some None <-> standalone_rules t height).
Proof.
  intros Hwf Hs. unfold standalone_rules, StandaloneValid.
  rewrite <- (fitsInABlock_spec t height), <- followsStorageProofRules_spec,
    <- noRepeats_spec, <- followsMinimumValues_spec, <- (correctFileContracts_spec t height),
    <- (correctFileContractRevisions_spec t height), <- (validUnlockConditions_spec t height)
    by done.
  destruct (validSignatures_decides t height Hwf) as [Hn Hv]. rewrite <- Hv.
  case_match eqn:Hc.
  - split; [done|]. split; [done|]. intros (? & ? & ? & ? & ? & ? & ? & _).
    assert (Some e = None) as [=]. rewrite <- Hc, !err_seq_None. by split_and!.
  - rewrite !err_seq_None in Hc. destruct Hc as (? & ? & ? & ? & ? & ? & ?).
    split; [done|]. split; [intros ?; by split_and!|]. by intros (_ & _ & _ & _ & _ & _ & _ & ?).
Qed.

End standalone.

(** ** Witness *)

Lemma StandaloneValid_witness :
  standalone_rules (P := standard_params ex_addr) (ex_spend ex_sig) 10.
Proof.
  destruct (StandaloneValid_spec (P := standard_params ex_addr) (ex_spend ex_sig) 10
              (ex_spend_wf _ ex_sig_len)) as [_ [H _]].
  - vm_compute. split; [discriminate|reflexivity].
  - apply H. vm_compute. reflexivity.
Defined.
