(* ===== verification/ConsensusDB.v ===== *)
(** * The consensus database

    modules/consensus/consensusdb.go.  The buckets of the bolt database are
    the fields of [DB], with decoded keys and values: a bucket is a finite
    map, the buckets named by a prefix and a height ([dsco_], [fcex_]) are
    finite maps from the height to the bucket's contents, and a bucket that
    does not exist is a height that is not in the map.

    A [bolt.Tx] is the state of [M DB].  Using a bucket that does not exist is
    a nil dereference, hence a panic, in every build; the checks behind
    [build.DEBUG] are [panic_if (DEBUG && ...)].  Bolt's [Put], [Delete] and
    [Get] do not fail on a writable transaction with keys and values of the
    sizes used here, and stored values decode, so that the error branches
    behind them do not occur in the model. *)

From S2P Require Import Prelude Bytes Interfaces Currency Types Params Encoding Transactions.

Open Scope Z_scope.

Record DB := mkDB {
  db_BlockHeight : BlockHeight;
  db_BlockMap : gmap BlockID processedBlock;
  db_BlockPath : gmap Z BlockID;
  db_SiacoinOutputs : gmap SiacoinOutputID SiacoinOutput;
  db_FileContracts : gmap FileContractID FileContract;
  db_SiafundOutputs : gmap SiafundOutputID SiafundOutput;
  db_SiafundPool : Currency;
  (* by the height of the hardfork, and under the key used before v1.5.0.1 *)
  db_SiafundHardforkPool : gmap Z Currency;
  db_LegacyHardforkPool : option Currency;
  (* buckets dsco_<height> and fcex_<height> *)
  db_DSCO : gmap Z (gmap SiacoinOutputID SiacoinOutput);
  db_FCEX : gmap Z (gset FileContractID);
  (* total time and total target of each block *)
  db_Oak : gmap BlockID (Z * Target);
  db_OakInit : bool;
  (* the flag of the Consistency bucket *)
  db_Inconsistent : bool
}.

(** One [with_] function per bucket. *)
Definition with_BlockHeight v (d : DB) : DB :=
  mkDB v (db_BlockMap d) (db_BlockPath d) (db_SiacoinOutputs d) (db_FileContracts d)
    (db_SiafundOutputs d) (db_SiafundPool d) (db_SiafundHardforkPool d)
    (db_LegacyHardforkPool d) (db_DSCO d) (db_FCEX d) (db_Oak d) (db_OakInit d)
    (db_Inconsistent d).
Definition with_BlockMap v (d : DB) : DB :=
  mkDB (db_BlockHeight d) v (db_BlockPath d) (db_SiacoinOutputs d) (db_FileContracts d)
    (db_SiafundOutputs d) (db_SiafundPool d) (db_SiafundHardforkPool d)
    (db_LegacyHardforkPool d) (db_DSCO d) (db_FCEX d) (db_Oak d) (db_OakInit d)
    (db_Inconsistent d).
Definition with_BlockPath v (d : DB) : DB :=
  mkDB (db_BlockHeight d) (db_BlockMap d) v (db_SiacoinOutputs d) (db_FileContracts d)
    (db_SiafundOutputs d) (db_SiafundPool d) (db_SiafundHardforkPool d)
    (db_LegacyHardforkPool d) (db_DSCO d) (db_FCEX d) (db_Oak d) (db_OakInit d)
    (db_Inconsistent d).
Definition with_SiacoinOutputs v (d : DB) : DB :=
  mkDB (db_BlockHeight d) (db_BlockMap d) (db_BlockPath d) v (db_FileContracts d)
    (db_SiafundOutputs d) (db_SiafundPool d) (db_SiafundHardforkPool d)
    (db_LegacyHardforkPool d) (db_DSCO d) (db_FCEX d) (db_Oak d) (db_OakInit d)
    (db_Inconsistent d).
Definition with_FileContracts v (d : DB) : DB :=
  mkDB (db_BlockHeight d) (db_BlockMap d) (db_BlockPath d) (db_SiacoinOutputs d) v
    (db_SiafundOutputs d) (db_SiafundPool d) (db_SiafundHardforkPool d)
    (db_LegacyHardforkPool d) (db_DSCO d) (db_FCEX d) (db_Oak d) (db_OakInit d)
    (db_Inconsistent d).
Definition with_SiafundOutputs v (d : DB) : DB :=
  mkDB (db_BlockHeight d) (db_BlockMap d) (db_BlockPath d) (db_SiacoinOutputs d)
    (db_FileContracts d) v (db_SiafundPool d) (db_SiafundHardforkPool d)
    (db_LegacyHardforkPool d) (db_DSCO d) (db_FCEX d) (db_Oak d) (db_OakInit d)
    (db_Inconsistent d).
Definition with_SiafundPool v (d : DB) : DB :=
  mkDB (db_BlockHeight d) (db_BlockMap d) (db_BlockPath d) (db_SiacoinOutputs d)
    (db_FileContracts d) (db_SiafundOutputs d) v (db_SiafundHardforkPool d)
    (db_LegacyHardforkPool d) (db_DSCO d) (db_FCEX d) (db_Oak d) (db_OakInit d)
    (db_Inconsistent d).
Definition with_SiafundHardforkPool v (d : DB) : DB :=
  mkDB (db_BlockHeight d) (db_BlockMap d) (db_BlockPath d) (db_SiacoinOutputs d)
    (db_FileContracts d) (db_SiafundOutputs d) (db_SiafundPool d) v
    (db_LegacyHardforkPool d) (db_DSCO d) (db_FCEX d) (db_Oak d) (db_OakInit d)
    (db_Inconsistent d).
Definition with_DSCO v (d : DB) : DB :=
  mkDB (db_BlockHeight d) (db_BlockMap d) (db_BlockPath d) (db_SiacoinOutputs d)
    (db_FileContracts d) (db_SiafundOutputs d) (db_SiafundPool d)
    (db_SiafundHardforkPool d) (db_LegacyHardforkPool d) v (db_FCEX d) (db_Oak d)
    (db_OakInit d) (db_Inconsistent d).
Definition with_FCEX v (d : DB) : DB :=
  mkDB (db_BlockHeight d) (db_BlockMap d) (db_BlockPath d) (db_SiacoinOutputs d)
    (db_FileContracts d) (db_SiafundOutputs d) (db_SiafundPool d)
    (db_SiafundHardforkPool d) (db_LegacyHardforkPool d) (db_DSCO d) v (db_Oak d)
    (db_OakInit d) (db_Inconsistent d).
Definition with_Oak v (d : DB) : DB :=
  mkDB (db_BlockHeight d) (db_BlockMap d) (db_BlockPath d) (db_SiacoinOutputs d)
    (db_FileContracts d) (db_SiafundOutputs d) (db_SiafundPool d)
    (db_SiafundHardforkPool d) (db_LegacyHardforkPool d) (db_DSCO d) (db_FCEX d) v
    (db_OakInit d) (db_Inconsistent d).
Definition with_OakInit v (d : DB) : DB :=
  mkDB (db_BlockHeight d) (db_BlockMap d) (db_BlockPath d) (db_SiacoinOutputs d)
    (db_FileContracts d) (db_SiafundOutputs d) (db_SiafundPool d)
    (db_SiafundHardforkPool d) (db_LegacyHardforkPool d) (db_DSCO d) (db_FCEX d)
    (db_Oak d) v (db_Inconsistent d).
Definition with_Inconsistent v (d : DB) : DB :=
  mkDB (db_BlockHeight d) (db_BlockMap d) (db_BlockPath d) (db_SiacoinOutputs d)
    (db_FileContracts d) (db_SiafundOutputs d) (db_SiafundPool d)
    (db_SiafundHardforkPool d) (db_LegacyHardforkPool d) (db_DSCO d) (db_FCEX d)
    (db_Oak d) (db_OakInit d) v.

Definition nil_bucket {S A} : M S A := panic "nil bucket".

(** [Bucket.ForEach] presents the keys in byte order. *)
Definition key_le {V} (x y : Hash * V) : Prop :=
  bytes_le (vec_to_list x.1) (vec_to_list y.1).
#[export] Instance key_le_dec {V} : RelDecision (@key_le V).
Proof. intros x y. unfold key_le. apply _. Defined.
Definition bucket_entries {V} (m : gmap Hash V) : list (Hash * V) :=
  merge_sort key_le (map_to_list m).
Definition bucket_keys (s : gset Hash) : list Hash :=
  fst <$> merge_sort key_le ((fun k => (k, ())) <$> elements s).

Section ops.
Context {B : Build} {P : Params} {C : Crypto} {E : SiaEncoding}.

(** ** Blocks and the current path *)

Definition blockHeight : M DB BlockHeight := gets db_BlockHeight.

Definition getBlockMap (id : BlockID) : M DB (option processedBlock) :=
  gets (fun d => db_BlockMap d !! id).

Definition addBlockMap (pb : processedBlock) : M DB () :=
  modify (fun d => with_BlockMap (<[Block_ID (pb_Block pb) := pb]> (db_BlockMap d)) d).

Definition getPath (height : BlockHeight) : M DB (option BlockID) :=
  gets (fun d => db_BlockPath d !! height).

(** Outside a debug build the ID is the zero value when the path has no block
    at the current height. *)
Definition currentBlockID : M DB BlockID :=
  height ← blockHeight;
  id ← getPath height;
  match id with
  | Some id => mret id
  | None => _ ← panic_if DEBUG "nil item"; mret zero_hash
  end.

(** A missing block is a nil pointer, which every caller dereferences. *)
Definition currentProcessedBlock : M DB processedBlock :=
  id ← currentBlockID;
  pb ← getBlockMap id;
  match pb with Some pb => mret pb | None => panic "nil processed block" end.

Definition pushPath (bid : BlockID) : M DB () :=
  oldHeight ← blockHeight;
  let newHeight := u64 (oldHeight + 1) in
  _ ← modify (with_BlockHeight newHeight);
  modify (fun d => with_BlockPath (<[newHeight := bid]> (db_BlockPath d)) d).

Definition popPath : M DB () :=
  oldHeight ← blockHeight;
  _ ← modify (with_BlockHeight (u64 (oldHeight - 1)));
  modify (fun d => with_BlockPath (delete oldHeight (db_BlockPath d)) d).

(** ** Siacoin outputs *)

Definition isSiacoinOutput (id : SiacoinOutputID) : M DB bool :=
  gets (fun d => bool_decide (is_Some (db_SiacoinOutputs d !! id))).

Definition getSiacoinOutput (id : SiacoinOutputID) : M DB (option SiacoinOutput) :=
  gets (fun d => db_SiacoinOutputs d !! id).

Definition addSiacoinOutput (id : SiacoinOutputID) (sco : SiacoinOutput) : M DB () :=
  exists_ ← isSiacoinOutput id;
  _ ← panic_if (DEBUG && exists_) "repeat scprimecoin output";
  modify (fun d => with_SiacoinOutputs (<[id := sco]> (db_SiacoinOutputs d)) d).

Definition removeSiacoinOutput (id : SiacoinOutputID) : M DB () :=
  exists_ ← isSiacoinOutput id;
  _ ← panic_if (DEBUG && negb exists_) "nil scprimecoin output";
  modify (fun d => with_SiacoinOutputs (delete id (db_SiacoinOutputs d)) d).

(** ** File contracts *)

Definition getFileContract (id : FileContractID) : M DB (option FileContract) :=
  gets (fun d => db_FileContracts d !! id).

Definition addFileContract (id : FileContractID) (fc : FileContract) : M DB () :=
  _ ← panic_if (DEBUG && Currency.IsZero (fc_Payout fc)) "adding zero-payout file contract";
  old ← getFileContract id;
  _ ← panic_if (DEBUG && bool_decide (is_Some old)) "repeat file contract";
  _ ← modify (fun d => with_FileContracts (<[id := fc]> (db_FileContracts d)) d);
  (* CreateBucketIfNotExists, then Put *)
  modify (fun d =>
    with_FCEX (<[fc_WindowEnd fc := {[id]} ∪ default ∅ (db_FCEX d !! fc_WindowEnd fc)]>
                 (db_FCEX d)) d).

(** The window end is read from the encoded contract, which panics without
    one, and the entry for it must exist. *)
Definition removeFileContract (id : FileContractID) : M DB () :=
  old ← getFileContract id;
  match old with
  | None => panic "nil file contract"
  | Some fc =>
      _ ← modify (fun d => with_FileContracts (delete id (db_FileContracts d)) d);
      d ← get;
      match db_FCEX d !! fc_WindowEnd fc with
      | None => nil_bucket
      | Some bucket =>
          _ ← panic_if (negb (bool_decide (id ∈ bucket))) "nil item";
          modify (fun d =>
            with_FCEX (<[fc_WindowEnd fc := bucket ∖ {[id]}]> (db_FCEX d)) d)
      end
  end.

(** ** Siafund outputs *)

Definition devAddr : UnlockHash :=
  hash_literal [243; 113; 199; 11; 206; 158; 184; 151; 156; 213; 9; 159; 89; 158; 196; 228;
                252; 177; 78; 10; 252; 243; 31; 151; 145; 224; 62; 100; 150; 164; 192; 179].

(** Above height 10e3 outputs of the last genesis address belong to the
    developers. *)
Definition dev_remap (height : BlockHeight) (sfo : SiafundOutput) : SiafundOutput :=
  match last GenesisSiafundAllocation with
  | Some g =>
      if bool_decide (sfo_UnlockHash sfo = sfo_UnlockHash g) && (10000 <? height)
      then mkSiafundOutput (sfo_Value sfo) devAddr (sfo_ClaimStart sfo) else sfo
  | None => sfo
  end.

Definition getSiafundOutput (id : SiafundOutputID) : M DB (option SiafundOutput) :=
  gets (fun d => dev_remap (db_BlockHeight d) <$> db_SiafundOutputs d !! id).

Definition addSiafundOutput (id : SiafundOutputID) (sfo : SiafundOutput) : M DB () :=
  _ ← panic_if (DEBUG && Currency.IsZero (sfo_Value sfo)) "zero value scprimefund being added";
  old ← gets (fun d => db_SiafundOutputs d !! id);
  _ ← panic_if (DEBUG && bool_decide (is_Some old)) "repeat scprimefund output";
  modify (fun d => with_SiafundOutputs (<[id := sfo]> (db_SiafundOutputs d)) d).

Definition removeSiafundOutput (id : SiafundOutputID) : M DB () :=
  old ← gets (fun d => db_SiafundOutputs d !! id);
  _ ← panic_if (DEBUG && negb (bool_decide (is_Some old))) "nil scprimefund output";
  modify (fun d => with_SiafundOutputs (delete id (db_SiafundOutputs d)) d).

(** ** The siafund pool *)

Definition getSiafundHardforkPool (height : BlockHeight) : M DB Currency :=
  d ← get;
  let poolBytes :=
    match db_SiafundHardforkPool d !! height with
    | Some c => Some c
    | None => if height =? SpfHardforkHeight then db_LegacyHardforkPool d else None
    end in
  match poolBytes with
  | Some c => mret c
  | None => _ ← panic_if DEBUG "malformed hardfork pool"; mret Currency.ZeroCurrency
  end.

Definition setSiafundHardforkPool (c : Currency) (height : BlockHeight) : M DB () :=
  modify (fun d => with_SiafundHardforkPool (<[height := c]> (db_SiafundHardforkPool d)) d).

Definition getSiafundPool : M DB Currency := gets db_SiafundPool.

Definition setSiafundPool (c : Currency) : M DB () := modify (with_SiafundPool c).

(** ** Delayed siacoin outputs *)

Definition addDSCO (bh : BlockHeight) (id : SiacoinOutputID) (sco : SiacoinOutput) : M DB () :=
  spent ← isSiacoinOutput id;
  _ ← panic_if (DEBUG && spent) "dsco already in output set";
  d ← get;
  match db_DSCO d !! bh with
  | None => nil_bucket
  | Some bucket =>
      _ ← panic_if (DEBUG && bool_decide (is_Some (bucket !! id))) "repeat insert";
      modify (fun d => with_DSCO (<[bh := <[id := sco]> bucket]> (db_DSCO d)) d)
  end.

Definition removeDSCO (bh : BlockHeight) (id : SiacoinOutputID) : M DB () :=
  d ← get;
  match db_DSCO d !! bh with
  | None => nil_bucket
  | Some bucket =>
      _ ← panic_if (DEBUG && negb (bool_decide (is_Some (bucket !! id)))) "nil dsco";
      modify (fun d => with_DSCO (<[bh := delete id bucket]> (db_DSCO d)) d)
  end.

(** Creating a bucket that exists, or deleting one that does not, is an error
    that only a debug build looks at. *)
Definition createDSCOBucket (bh : BlockHeight) : M DB () :=
  d ← get;
  match db_DSCO d !! bh with
  | Some _ => panic_if DEBUG "bucket already exists"
  | None => modify (fun d => with_DSCO (<[bh := ∅]> (db_DSCO d)) d)
  end.

Definition deleteDSCOBucket (bh : BlockHeight) : M DB () :=
  d ← get;
  match db_DSCO d !! bh with
  | None => panic_if DEBUG "nil bucket"
  | Some _ => modify (fun d => with_DSCO (delete bh (db_DSCO d)) d)
  end.

(** ** Siafund claims *)

Definition claimPerFundInRange (claimStart startPool endPool siafundCount : Currency) : Currency :=
  if 0 <=? Currency.Cmp claimStart endPool then Currency.ZeroCurrency
  else
    let startPool := if 0 <=? Currency.Cmp claimStart startPool then claimStart else startPool in
    let totalEarned := Currency.Sub endPool startPool in
    Currency.Div totalEarned siafundCount.

Record hardforkInfo := mkHardforkInfo { hf_pool : Currency; hf_isActivated : bool }.

Definition claimPerFund (startPool currentPool : Currency) (firstHf secondHf : hardforkInfo)
  : Currency :=
  if negb (hf_isActivated firstHf) then
    claimPerFundInRange startPool startPool currentPool OldSiafundCount
  else
    let claimBeforeFirstHf :=
      claimPerFundInRange startPool startPool (hf_pool firstHf) OldSiafundCount in
    let totalClaim := Currency.Add Currency.ZeroCurrency claimBeforeFirstHf in
    if negb (hf_isActivated secondHf) then
      Currency.Add totalClaim
        (claimPerFundInRange startPool (hf_pool firstHf) currentPool NewSiafundCount)
    else
      let claimBetweenHardforks :=
        claimPerFundInRange startPool (hf_pool firstHf) (hf_pool secondHf) NewSiafundCount in
      let totalClaim := Currency.Add totalClaim claimBetweenHardforks in
      let claimAfterSecondHf :=
        claimPerFundInRange startPool (hf_pool secondHf) currentPool NewerSiafundCount in
      Currency.Add totalClaim claimAfterSecondHf.

Definition siafundClaim (sfo : SiafundOutput) : M DB Currency :=
  height ← blockHeight;
  firstHf ← (if SpfHardforkHeight <? height
             then pool ← getSiafundHardforkPool SpfHardforkHeight;
                  mret (mkHardforkInfo pool true)
             else mret (mkHardforkInfo Currency.ZeroCurrency false));
  secondHf ← (if SpfSecondHardforkHeight <? height
              then pool ← getSiafundHardforkPool SpfSecondHardforkHeight;
                   mret (mkHardforkInfo pool true)
              else mret (mkHardforkInfo Currency.ZeroCurrency false));
  currentPool ← getSiafundPool;
  mret (Currency.Mul (claimPerFund (sfo_ClaimStart sfo) currentPool firstHf secondHf)
          (sfo_Value sfo)).

End ops.

(** * Diffs: applying and reverting

    The commit functions of modules/consensus/diffs.go, up to
    [commitDiffSet]. *)

Section diffs.
Context {B : Build} {P : Params} {C : Crypto} {E : SiaEncoding}.

Definition same_dir (d1 d2 : DiffDirection) : bool := bool_decide (d1 = d2).

Definition commitDiffSetSanity (pb : processedBlock) (dir : DiffDirection) : M DB () :=
  if negb DEBUG then mret ()
  else
    _ ← panic_if (negb (pb_DiffsGenerated pb)) "applying diff set before generating errors";
    match dir with
    | DiffApply =>
        parent ← getBlockMap (b_ParentID (pb_Block pb));
        match parent with
        | None => panic "nil item"
        | Some parent =>
            current ← currentBlockID;
            panic_if (bool_decide (Block_ID (pb_Block parent) <> current))
              "applying a diff set that isn't the current block"
        end
    | DiffRevert =>
        current ← currentBlockID;
        panic_if (bool_decide (Block_ID (pb_Block pb) <> current))
          "reverting a diff set that isn't the current block"
    end.

Definition commitSiacoinOutputDiff (scod : SiacoinOutputDiff) (dir : DiffDirection) : M DB () :=
  if same_dir (scod_Direction scod) dir
  then addSiacoinOutput (scod_ID scod) (scod_SiacoinOutput scod)
  else removeSiacoinOutput (scod_ID scod).

Definition commitFileContractDiff (fcd : FileContractDiff) (dir : DiffDirection) : M DB () :=
  if same_dir (fcd_Direction fcd) dir
  then addFileContract (fcd_ID fcd) (fcd_FileContract fcd)
  else removeFileContract (fcd_ID fcd).

Definition commitSiafundOutputDiff (sfod : SiafundOutputDiff) (dir : DiffDirection) : M DB () :=
  if same_dir (sfod_Direction sfod) dir
  then addSiafundOutput (sfod_ID sfod) (sfod_SiafundOutput sfod)
  else removeSiafundOutput (sfod_ID sfod).

Definition commitDelayedSiacoinOutputDiff (dscod : DelayedSiacoinOutputDiff)
    (dir : DiffDirection) : M DB () :=
  if same_dir (dscod_Direction dscod) dir
  then addDSCO (dscod_MaturityHeight dscod) (dscod_ID dscod) (dscod_SiacoinOutput dscod)
  else removeDSCO (dscod_MaturityHeight dscod) (dscod_ID dscod).

Definition commitSiafundPoolDiff (sfpd : SiafundPoolDiff) (dir : DiffDirection) : M DB () :=
  _ ← panic_if (DEBUG && (Currency.Cmp (sfpd_Adjusted sfpd) (sfpd_Previous sfpd) <? 0))
        "committing a siafund pool diff with a negative adjustment";
  _ ← panic_if (DEBUG && negb (same_dir (sfpd_Direction sfpd) DiffApply))
        "committing a siafund pool diff that doesn't have the 'apply' direction";
  pool ← getSiafundPool;
  match dir with
  | DiffApply =>
      _ ← panic_if (DEBUG && negb (Currency.Equals pool (sfpd_Previous sfpd)))
            "committing a siafund pool diff with an invalid 'previous' field";
      setSiafundPool (sfpd_Adjusted sfpd)
  | DiffRevert =>
      _ ← panic_if (DEBUG && negb (Currency.Equals pool (sfpd_Adjusted sfpd)))
            "committing a siafund pool diff with an invalid 'adjusted' field";
      setSiafundPool (sfpd_Previous sfpd)
  end.

(** [pb.Height + types.MaturityDelay], on [uint64]. *)
Definition maturity (pb : processedBlock) : BlockHeight := u64 (pb_Height pb + MaturityDelay).

Definition createUpcomingDelayedOutputMaps (pb : processedBlock) (dir : DiffDirection) : M DB () :=
  match dir with
  | DiffApply => createDSCOBucket (maturity pb)
  | DiffRevert =>
      if MaturityDelay <=? pb_Height pb then createDSCOBucket (pb_Height pb) else mret ()
  end.

(** The diffs of a kind, in order when applied and last first when reverted. *)
Definition dir_order {A} (dir : DiffDirection) (l : list A) : list A :=
  match dir with DiffApply => l | DiffRevert => reverse l end.

Definition commitNodeDiffs (pb : processedBlock) (dir : DiffDirection) : M DB () :=
  _ ← for_each (fun scod => commitSiacoinOutputDiff scod dir)
        (dir_order dir (pb_SiacoinOutputDiffs pb));
  _ ← for_each (fun fcd => commitFileContractDiff fcd dir)
        (dir_order dir (pb_FileContractDiffs pb));
  _ ← for_each (fun sfod => commitSiafundOutputDiff sfod dir)
        (dir_order dir (pb_SiafundOutputDiffs pb));
  _ ← for_each (fun dscod => commitDelayedSiacoinOutputDiff dscod dir)
        (dir_order dir (pb_DelayedSiacoinOutputDiffs pb));
  for_each (fun sfpd => commitSiafundPoolDiff sfpd dir)
    (dir_order dir (pb_SiafundPoolDiffs pb)).

Definition deleteObsoleteDelayedOutputMaps (pb : processedBlock) (dir : DiffDirection) : M DB () :=
  match dir with
  | DiffApply =>
      if MaturityDelay <=? pb_Height pb then deleteDSCOBucket (pb_Height pb) else mret ()
  | DiffRevert => deleteDSCOBucket (maturity pb)
  end.

Definition updateCurrentPath (pb : processedBlock) (dir : DiffDirection) : M DB () :=
  match dir with
  | DiffApply => pushPath (Block_ID (pb_Block pb))
  | DiffRevert => popPath
  end.

Definition commitDiffSet (pb : processedBlock) (dir : DiffDirection) : M DB () :=
  _ ← (if DEBUG then commitDiffSetSanity pb dir else mret ());
  _ ← createUpcomingDelayedOutputMaps pb dir;
  _ ← commitNodeDiffs pb dir;
  _ ← deleteObsoleteDelayedOutputMaps pb dir;
  updateCurrentPath pb dir.

End diffs.
