(* ===== verification/ApplyTransaction.v ===== *)
(** * Applying transactions

    modules/consensus/applytransaction.go.  A function that takes a [bolt.Tx]
    and the processed block whose diffs it records is a computation on both:
    the state [blockState]. *)

From S2P Require Import Prelude Bytes Interfaces Currency Types Params Encoding Transactions.
From S2P Require Import ConsensusDB.

Open Scope Z_scope.

Record blockState := mkBlockState { bs_db : DB; bs_pb : processedBlock }.

(** A database operation inside. *)
Definition on_db {A} (m : M DB A) : M blockState A := fun s =>
  match m (bs_db s) with
  | Ret a d => Ret a (mkBlockState d (bs_pb s))
  | Err e d => Err e (mkBlockState d (bs_pb s))
  | Panic msg => Panic msg
  end.

Definition modify_pb (f : processedBlock -> processedBlock) : M blockState () :=
  modify (fun s => mkBlockState (bs_db s) (f (bs_pb s))).

(** Appending to the lists of diffs. *)
Definition append_scod d (pb : processedBlock) : processedBlock :=
  mkProcessedBlock (pb_Block pb) (pb_Height pb) (pb_Depth pb) (pb_ChildTarget pb)
    (pb_DiffsGenerated pb) (pb_SiacoinOutputDiffs pb ++ [d]) (pb_FileContractDiffs pb)
    (pb_SiafundOutputDiffs pb) (pb_DelayedSiacoinOutputDiffs pb) (pb_SiafundPoolDiffs pb)
    (pb_ConsensusChecksum pb).
Definition append_fcd d (pb : processedBlock) : processedBlock :=
  mkProcessedBlock (pb_Block pb) (pb_Height pb) (pb_Depth pb) (pb_ChildTarget pb)
    (pb_DiffsGenerated pb) (pb_SiacoinOutputDiffs pb) (pb_FileContractDiffs pb ++ [d])
    (pb_SiafundOutputDiffs pb) (pb_DelayedSiacoinOutputDiffs pb) (pb_SiafundPoolDiffs pb)
    (pb_ConsensusChecksum pb).
Definition append_sfod d (pb : processedBlock) : processedBlock :=
  mkProcessedBlock (pb_Block pb) (pb_Height pb) (pb_Depth pb) (pb_ChildTarget pb)
    (pb_DiffsGenerated pb) (pb_SiacoinOutputDiffs pb) (pb_FileContractDiffs pb)
    (pb_SiafundOutputDiffs pb ++ [d]) (pb_DelayedSiacoinOutputDiffs pb) (pb_SiafundPoolDiffs pb)
    (pb_ConsensusChecksum pb).
Definition append_dscod d (pb : processedBlock) : processedBlock :=
  mkProcessedBlock (pb_Block pb) (pb_Height pb) (pb_Depth pb) (pb_ChildTarget pb)
    (pb_DiffsGenerated pb) (pb_SiacoinOutputDiffs pb) (pb_FileContractDiffs pb)
    (pb_SiafundOutputDiffs pb) (pb_DelayedSiacoinOutputDiffs pb ++ [d]) (pb_SiafundPoolDiffs pb)
    (pb_ConsensusChecksum pb).
Definition append_sfpd d (pb : processedBlock) : processedBlock :=
  mkProcessedBlock (pb_Block pb) (pb_Height pb) (pb_Depth pb) (pb_ChildTarget pb)
    (pb_DiffsGenerated pb) (pb_SiacoinOutputDiffs pb) (pb_FileContractDiffs pb)
    (pb_SiafundOutputDiffs pb) (pb_DelayedSiacoinOutputDiffs pb) (pb_SiafundPoolDiffs pb ++ [d])
    (pb_ConsensusChecksum pb).

Section apply.
Context {B : Build} {P : Params} {C : Crypto} {E : SiaEncoding}.

(** [pb.XDiffs = append(pb.XDiffs, d); commitXDiff(tx, d, DiffApply)]. *)
Definition record_scod d : M blockState () :=
  _ ← modify_pb (append_scod d); on_db (commitSiacoinOutputDiff d DiffApply).
Definition record_fcd d : M blockState () :=
  _ ← modify_pb (append_fcd d); on_db (commitFileContractDiff d DiffApply).
Definition record_sfod d : M blockState () :=
  _ ← modify_pb (append_sfod d); on_db (commitSiafundOutputDiff d DiffApply).
Definition record_dscod d : M blockState () :=
  _ ← modify_pb (append_dscod d); on_db (commitDelayedSiacoinOutputDiff d DiffApply).
Definition record_sfpd d : M blockState () :=
  _ ← modify_pb (append_sfpd d); on_db (commitSiafundPoolDiff d DiffApply).

(** The zero values a failed lookup leaves outside a debug build. *)
Definition zero_sco : SiacoinOutput := mkSiacoinOutput Currency.ZeroCurrency zero_hash.
Definition zero_sfo : SiafundOutput :=
  mkSiafundOutput Currency.ZeroCurrency zero_hash Currency.ZeroCurrency.
Definition zero_fc : FileContract :=
  mkFileContract 0 zero_hash 0 0 Currency.ZeroCurrency [] [] zero_hash 0.

(** [x, err := get(...); if build.DEBUG && err != nil { panic(err) }]. *)
Definition get_or_zero {A} (m : M DB (option A)) (zero : A) : M blockState A :=
  x ← on_db m;
  match x with
  | Some x => mret x
  | None => _ ← panic_if DEBUG "nil item"; mret zero
  end.

Definition applySiacoinInputs (t : Transaction) : M blockState () :=
  for_each (fun sci =>
    sco ← get_or_zero (getSiacoinOutput (sci_ParentID sci)) zero_sco;
    record_scod (mkSiacoinOutputDiff DiffRevert (sci_ParentID sci) sco))
  (t_SiacoinInputs t).

(** A loop over the elements and their indices. *)
Definition for_index {S A} (body : Z -> A -> M S ()) (l : list A) : M S () :=
  for_fold (fun i x _ => body i x) 0 l ().

Definition applySiacoinOutputs (t : Transaction) : M blockState () :=
  for_index (fun i sco =>
    record_scod (mkSiacoinOutputDiff DiffApply (Transaction_SiacoinOutputID t i) sco))
  (t_SiacoinOutputs t).

Definition applyFileContracts (t : Transaction) : M blockState () :=
  for_index (fun i fc =>
    _ ← record_fcd (mkFileContractDiff DiffApply (Transaction_FileContractID t i) fc);
    sfp ← on_db getSiafundPool;
    height ← on_db blockHeight;
    record_sfpd (mkSiafundPoolDiff DiffApply sfp
                   (Currency.Add sfp (Tax height (fc_Payout fc)))))
  (t_FileContracts t).

(** The contract a revision turns [fc] into. *)
Definition revised (fc : FileContract) (fcr : FileContractRevision) : FileContract :=
  mkFileContract (fcr_NewFileSize fcr) (fcr_NewFileMerkleRoot fcr) (fcr_NewWindowStart fcr)
    (fcr_NewWindowEnd fcr) (fc_Payout fc) (fcr_NewValidProofOutputs fcr)
    (fcr_NewMissedProofOutputs fcr) (fcr_NewUnlockHash fcr) (fcr_NewRevisionNumber fcr).

Definition applyFileContractRevisions (t : Transaction) : M blockState () :=
  for_each (fun fcr =>
    fc ← get_or_zero (getFileContract (fcr_ParentID fcr)) zero_fc;
    _ ← record_fcd (mkFileContractDiff DiffRevert (fcr_ParentID fcr) fc);
    record_fcd (mkFileContractDiff DiffApply (fcr_ParentID fcr) (revised fc fcr)))
  (t_FileContractRevisions t).

Definition applyStorageProofs (t : Transaction) : M blockState () :=
  for_each (fun sp =>
    fc ← get_or_zero (getFileContract (sp_ParentID sp)) zero_fc;
    _ ← for_index (fun i vpo =>
          s ← get;
          record_dscod (mkDelayedSiacoinOutputDiff DiffApply
            (StorageProofOutputID (sp_ParentID sp) true i) vpo (maturity (bs_pb s))))
        (fc_ValidProofOutputs fc);
    record_fcd (mkFileContractDiff DiffRevert (sp_ParentID sp) fc))
  (t_StorageProofs t).

Definition applySiafundInputs (t : Transaction) : M blockState () :=
  for_each (fun sfi =>
    sfo ← get_or_zero (getSiafundOutput (sfi_ParentID sfi)) zero_sfo;
    claimPortion ← on_db (siafundClaim sfo);
    s ← get;
    _ ← record_dscod (mkDelayedSiacoinOutputDiff DiffApply
          (SiaClaimOutputID (sfi_ParentID sfi))
          (mkSiacoinOutput claimPortion (sfi_ClaimUnlockHash sfi)) (maturity (bs_pb s)));
    record_sfod (mkSiafundOutputDiff DiffRevert (sfi_ParentID sfi) sfo))
  (t_SiafundInputs t).

Definition applySiafundOutputs (t : Transaction) : M blockState () :=
  for_index (fun i sfo =>
    pool ← on_db getSiafundPool;
    record_sfod (mkSiafundOutputDiff DiffApply (Transaction_SiafundOutputID t i)
      (mkSiafundOutput (sfo_Value sfo) (sfo_UnlockHash sfo) pool)))
  (t_SiafundOutputs t).

Definition applyTransaction (t : Transaction) : M blockState () :=
  _ ← applySiacoinInputs t;
  _ ← applySiacoinOutputs t;
  _ ← applyFileContracts t;
  _ ← applyFileContractRevisions t;
  _ ← applyStorageProofs t;
  _ ← applySiafundInputs t;
  applySiafundOutputs t.

End apply.

(** * Block maintenance

    modules/consensus/maintenance.go: miner payouts, matured outputs and
    expired file contracts. *)

Section maintenance.
Context {B : Build} {P : Params} {C : Crypto} {E : SiaEncoding}.

Definition applyMinerPayouts : M blockState () :=
  s ← get;
  let pb := bs_pb s in
  for_index (fun i payout =>
    record_dscod (mkDelayedSiacoinOutputDiff DiffApply (MinerPayoutID (pb_Block pb) i)
      payout (maturity pb)))
  (b_MinerPayouts (pb_Block pb)).

(** The two lists are collected by the scan of the bucket and committed after
    it. *)
Definition matured_scod (kv : Hash * SiacoinOutput) : SiacoinOutputDiff :=
  mkSiacoinOutputDiff DiffApply kv.1 kv.2.
Definition matured_dscod (height : BlockHeight) (kv : Hash * SiacoinOutput)
  : DelayedSiacoinOutputDiff :=
  mkDelayedSiacoinOutputDiff DiffRevert kv.1 kv.2 height.

Definition applyMaturedSiacoinOutputs : M blockState () :=
  s ← get;
  let height := pb_Height (bs_pb s) in
  if height <? MaturityDelay then mret ()
  else
    match db_DSCO (bs_db s) !! height with
    | None => nil_bucket
    | Some bucket =>
        let entries := bucket_entries bucket in
        _ ← for_each (fun kv =>
              mature ← on_db (isSiacoinOutput kv.1);
              panic_if (DEBUG && mature)
                "delayed siacoin output is already in the matured outputs set") entries;
        _ ← for_each record_scod (matured_scod <$> entries);
        _ ← for_each record_dscod (matured_dscod height <$> entries);
        on_db (deleteDSCOBucket height)
    end.

(** The diffs for the missed outputs, and the one that removes the contract. *)
Definition applyMissedStorageProof (fcid : FileContractID)
  : M blockState (list DelayedSiacoinOutputDiff * FileContractDiff) :=
  s ← get;
  let pb := bs_pb s in
  fc ← get_or_zero (getFileContract fcid) zero_fc;
  _ ← panic_if (DEBUG && negb (fc_WindowEnd fc =? pb_Height pb))
        "missed proof triggered for file contract that is not expiring";
  dscods ← for_fold (fun i mpo dscods =>
      let spoid := StorageProofOutputID fcid false i in
      paid ← on_db (isSiacoinOutput spoid);
      _ ← panic_if (DEBUG && paid) "payouts are already in the consensus set";
      mret (dscods ++ [mkDelayedSiacoinOutputDiff DiffApply spoid mpo (maturity pb)]))
    0 (fc_MissedProofOutputs fc) [];
  mret (dscods, mkFileContractDiff DiffRevert fcid fc).

Definition applyFileContractMaintenance : M blockState () :=
  s ← get;
  let height := pb_Height (bs_pb s) in
  match db_FCEX (bs_db s) !! height with
  | None => mret ()
  | Some bucket =>
      ds ← for_fold (fun _ id (acc : list DelayedSiacoinOutputDiff * list FileContractDiff) =>
          d ← applyMissedStorageProof id;
          mret (acc.1 ++ d.1, acc.2 ++ [d.2]))
        0 (bucket_keys bucket) ([], []);
      _ ← for_each record_dscod ds.1;
      _ ← for_each record_fcd ds.2;
      (* DeleteBucket: the bucket is still there *)
      on_db (modify (fun d => with_FCEX (delete height (db_FCEX d)) d))
  end.

Definition applyMaintenance : M blockState () :=
  _ ← applyMinerPayouts;
  _ ← applyMaturedSiacoinOutputs;
  applyFileContractMaintenance.

End maintenance.
