(* ===== verification/ConsensusValid.v ===== *)
(** * Validity in the context of the consensus set

    modules/consensus/validtransaction.go. *)

From S2P Require Import Prelude Bytes Interfaces Currency Types Params Encoding Transactions.
From S2P Require Import Signatures ValidTransaction Revisions ConsensusDB ApplyTransaction.

Open Scope Z_scope.

Section valid.
Context {B : Build} {P : Params} {C : Crypto} {E : SiaEncoding}.

Definition validSiacoins (t : Transaction) : M DB () :=
  inputSum ← for_fold (fun _ sci inputSum =>
      sco ← getSiacoinOutput (sci_ParentID sci);
      match sco with
      | None => throw errMissingSiacoinOutput
      | Some sco =>
          _ ← check (err_if (bool_decide
                (UnlockConditions_UnlockHash (sci_UnlockConditions sci) <> sco_UnlockHash sco))
                errWrongUnlockConditions);
          mret (Currency.Add inputSum (sco_Value sco))
      end)
    0 (t_SiacoinInputs t) Currency.ZeroCurrency;
  check (err_if (negb (Currency.Equals inputSum (SiacoinOutputSum t)))
           errSiacoinInputOutputMismatch).

(** The path lookup copies into a zero ID, so that a missing block leaves it
    zero; the modulus is by a positive number of segments, as [int64]. *)
Definition storageProofSegment (fcid : FileContractID) : M DB Z :=
  fc ← getFileContract fcid;
  match fc with
  | None => throw errUnrecognizedFileContractID
  | Some fc =>
      let triggerHeight := u64 (fc_WindowStart fc - 1) in
      height ← blockHeight;
      _ ← check (err_if (height <? triggerHeight) errUnfinishedFileContract);
      triggerID ← getPath triggerHeight;
      let triggerID := default zero_hash triggerID in
      let seed := HashAll [vec_to_list triggerID; vec_to_list fcid] in
      let numSegments := i64 (CalculateLeaves (fc_FileSize fc)) in
      mret (u64 (array_int seed mod numSegments))
  end.

(** [sp.Segment[:segmentLen]]. *)
Definition segment_prefix (sp : StorageProof) (segmentLen : Z) : bytes :=
  take (Z.to_nat segmentLen) (vec_to_list (sp_Segment sp)).

Definition get_fc_or_err (id : FileContractID) : M DB FileContract :=
  fc ← getFileContract id;
  match fc with Some fc => mret fc | None => throw errNilItem end.

Definition validStorageProofs100e3 (t : Transaction) : M DB () :=
  for_each (fun sp =>
    segmentIndex ← storageProofSegment (sp_ParentID sp);
    fc ← get_fc_or_err (sp_ParentID sp);
    height ← blockHeight;
    let leaves := CalculateLeaves (fc_FileSize fc) in
    let segmentLen :=
      if segmentIndex =? u64 (leaves - 1) then fc_FileSize fc mod SegmentSize
      else SegmentSize in
    let segmentLen :=
      if (bool_decide (Release = Standard) && (height <? 21000)) ||
         (bool_decide (Release = Testing) && (height <? 10))
      then SegmentSize else segmentLen in
    let verified := VerifySegment (segment_prefix sp segmentLen) (sp_HashSet sp) leaves
                      segmentIndex (fc_FileMerkleRoot fc) in
    check (err_if (negb verified) errInvalidStorageProof))
  (t_StorageProofs t).

Definition validStorageProofs (t : Transaction) : M DB () :=
  height ← blockHeight;
  if (bool_decide (Release = Standard) && (height <? 100000)) ||
     (bool_decide (Release = Testing) && (height <? 10))
  then validStorageProofs100e3 t
  else
    for_each (fun sp =>
      segmentIndex ← storageProofSegment (sp_ParentID sp);
      fc ← get_fc_or_err (sp_ParentID sp);
      let leaves := CalculateLeaves (fc_FileSize fc) in
      let segmentLen :=
        if segmentIndex =? u64 (leaves - 1) then fc_FileSize fc mod SegmentSize
        else SegmentSize in
      let segmentLen := if segmentLen =? 0 then SegmentSize else segmentLen in
      let verified := VerifySegment (segment_prefix sp segmentLen) (sp_HashSet sp) leaves
                        segmentIndex (fc_FileMerkleRoot fc) in
      check (err_if (negb verified && (0 <? fc_FileSize fc)) errInvalidStorageProof))
    (t_StorageProofs t).

Definition validFileContractRevisions (t : Transaction) : M DB () :=
  for_each (fun fcr =>
    fc ← get_fc_or_err (fcr_ParentID fcr);
    height ← blockHeight;
    _ ← check (err_if (fc_WindowStart fc <? height) errLateRevision);
    _ ← check (err_if (fcr_NewRevisionNumber fcr <=? fc_RevisionNumber fc) errLowRevisionNumber);
    _ ← check (err_if (bool_decide
          (UnlockConditions_UnlockHash (fcr_UnlockConditions fcr) <> fc_UnlockHash fc))
          errWrongUnlockConditions);
    let '(validPayout, missedPayout) := FileContractRevision.TotalPayout fcr in
    let oldPayout := output_sum (fc_ValidProofOutputs fc) in
    _ ← check (err_if (negb (Currency.Equals validPayout oldPayout)) errAlteredRevisionPayouts);
    check (err_if (negb (Currency.Equals missedPayout oldPayout)) errAlteredRevisionPayouts))
  (t_FileContractRevisions t).

Definition validSiafunds (t : Transaction) : M DB () :=
  siafundInputSum ← for_fold (fun _ sfi sum =>
      sfo ← getSiafundOutput (sfi_ParentID sfi);
      match sfo with
      | None => throw errNilItem
      | Some sfo =>
          _ ← check (err_if (bool_decide
                (UnlockConditions_UnlockHash (sfi_UnlockConditions sfi) <> sfo_UnlockHash sfo))
                errWrongUnlockConditions);
          mret (Currency.Add sum (sfo_Value sfo))
      end)
    0 (t_SiafundInputs t) Currency.ZeroCurrency;
  let siafundOutputSum :=
    fold_left (fun sum sfo => Currency.Add sum (sfo_Value sfo)) (t_SiafundOutputs t)
      Currency.ZeroCurrency in
  check (err_if (negb (Currency.Equals siafundOutputSum siafundInputSum))
           errSiafundInputOutputMismatch).

Definition validTransaction (t : Transaction) : M DB () :=
  height ← blockHeight;
  _ ← lift_err (StandaloneValid t height);
  _ ← validSiacoins t;
  _ ← validStorageProofs t;
  _ ← validFileContractRevisions t;
  validSiafunds t.

(** [tryTransactionSet]: the transaction is rolled back whatever happens, so
    that the state is the one it started from; the result is the diffs. *)
Definition empty_block : Block := mkBlock zero_hash (zero_array 8) 0 [] [].
Definition diffHolder (height : BlockHeight) : processedBlock :=
  mkProcessedBlock empty_block height zero_hash zero_hash false [] [] [] [] [] zero_hash.

Definition tryTransactionSet (txns : list Transaction) : M DB processedBlock := fun d =>
  match for_each (fun txn => _ ← on_db (validTransaction txn); applyTransaction txn) txns
          (mkBlockState d (diffHolder (db_BlockHeight d))) with
  | Ret _ s => Ret (bs_pb s) d
  | Err e _ => Err e d
  | Panic msg => Panic msg
  end.

End valid.
