(* ===== verification/GenerateDiffs.v ===== *)
(** * Validating and applying a block

    [generateAndApplyDiff] of modules/consensus/diffs.go, with
    [consensusChecksum] of modules/consensus/consistency.go, which it records
    in debug builds. *)

From S2P Require Import Prelude Bytes Interfaces Currency Types Params Encoding Transactions.
From S2P Require Import ConsensusDB ApplyTransaction ConsensusValid.

From Stdlib Require Strings.String.
Open Scope Z_scope.

(** ** The consensus checksum *)

Definition kv_le (x y : bytes * bytes) : Prop := bytes_le x.1 y.1.
#[export] Instance kv_le_dec : RelDecision kv_le.
Proof. intros x y. unfold kv_le. apply _. Defined.

(** A bucket as [ForEach] presents it: encoded keys and values in key order. *)
Definition encoded_bucket {K} `{Countable K} {V} (kb : K -> bytes) (vb : V -> bytes)
    (m : gmap K V) : list (bytes * bytes) :=
  merge_sort kv_le ((fun kv => (kb kv.1, vb kv.2)) <$> map_to_list m).

(** [tree.Push(k); tree.Push(v)] for every entry. *)
Definition pushes (l : list (bytes * bytes)) : list bytes :=
  concat ((fun kv => [kv.1; kv.2]) <$> l).

Section checksum.
Context {C : Crypto} {E : SiaEncoding}.

Definition hash_bytes (h : Hash) : bytes := vec_to_list h.

(** The buckets named by a prefix and a height, in the order of the encoded
    heights, with what pushing their entries adds. *)
Definition height_buckets {V} (leaves : V -> list bytes) (m : gmap Z V) : list bytes :=
  concat (snd <$> merge_sort (fun x y => bytes_le x.1 y.1)
            ((fun kv => (WriteUint64 kv.1, leaves kv.2)) <$> map_to_list m)).

Definition dsco_leaves (b : gmap Hash SiacoinOutput) : list bytes :=
  pushes (encoded_bucket hash_bytes SiacoinOutput_MarshalSia b).
Definition fcex_leaves (b : gset Hash) : list bytes :=
  pushes ((fun k => (hash_bytes k, [])) <$> bucket_keys b).

(** All bucket names with prefix [dsco_] come before those with [fcex_]. *)
Definition consensusChecksum (d : DB) : Hash :=
  merkle_root (
    pushes (encoded_bucket WriteUint64 hash_bytes (db_BlockPath d)) ++
    pushes (encoded_bucket hash_bytes SiacoinOutput_MarshalSia (db_SiacoinOutputs d)) ++
    pushes (encoded_bucket hash_bytes FileContract_MarshalSia (db_FileContracts d)) ++
    pushes (encoded_bucket hash_bytes SiafundOutput_MarshalSia (db_SiafundOutputs d)) ++
    [String.list_byte_of_string "SiafundPool"; Currency_MarshalSia (db_SiafundPool d)] ++
    height_buckets dsco_leaves (db_DSCO d) ++
    height_buckets fcex_leaves (db_FCEX d)).

End checksum.

(** ** Generating the diffs *)

Definition set_generated (pb : processedBlock) : processedBlock :=
  mkProcessedBlock (pb_Block pb) (pb_Height pb) (pb_Depth pb) (pb_ChildTarget pb)
    true (pb_SiacoinOutputDiffs pb) (pb_FileContractDiffs pb)
    (pb_SiafundOutputDiffs pb) (pb_DelayedSiacoinOutputDiffs pb) (pb_SiafundPoolDiffs pb)
    (pb_ConsensusChecksum pb).
Definition set_checksum (h : Hash) (pb : processedBlock) : processedBlock :=
  mkProcessedBlock (pb_Block pb) (pb_Height pb) (pb_Depth pb) (pb_ChildTarget pb)
    (pb_DiffsGenerated pb) (pb_SiacoinOutputDiffs pb) (pb_FileContractDiffs pb)
    (pb_SiafundOutputDiffs pb) (pb_DelayedSiacoinOutputDiffs pb) (pb_SiafundPoolDiffs pb) h.

Section generate.
Context {B : Build} {P : Params} {C : Crypto} {E : SiaEncoding}.

(** The block at the airdrop height: genesis siafunds out, forked ones in. *)
Definition apply_airdrop : M blockState () :=
  _ ← for_index (fun i siafundOutput =>
        record_sfod (mkSiafundOutputDiff DiffRevert
          (Transaction_SiafundOutputID genesis_siafund_txn i)
          (mkSiafundOutput (Currency.NewCurrency64 0) (sfo_UnlockHash siafundOutput)
             Currency.ZeroCurrency)))
      (t_SiafundOutputs genesis_siafund_txn);
  for_each (fun siafundOutput =>
    record_sfod (mkSiafundOutputDiff DiffApply (sfo_UnlockHash siafundOutput) siafundOutput))
  ForkedGenesisSiafundAllocation.

(** A hardfork block: the pool is saved and new siafunds are issued. *)
Definition apply_hardfork (height : BlockHeight) : M blockState () :=
  currentPool ← on_db getSiafundPool;
  _ ← on_db (setSiafundHardforkPool currentPool height);
  for_each (fun siafundOutput =>
    pool ← on_db getSiafundPool;
    record_sfod (mkSiafundOutputDiff DiffApply (sfo_UnlockHash siafundOutput)
      (mkSiafundOutput (sfo_Value siafundOutput) (sfo_UnlockHash siafundOutput) pool)))
  (default [] (SiafundHardforkAllocation !! height)).

(** Everything that changes outputs, contracts and the pool. *)
Definition apply_block_effects : M blockState () :=
  s ← get;
  let pb := bs_pb s in
  _ ← on_db (createDSCOBucket (maturity pb));
  _ ← for_each (fun txn => _ ← on_db (validTransaction txn); applyTransaction txn)
        (b_Transactions (pb_Block pb));
  _ ← applyMaintenance;
  _ ← (if pb_Height pb =? SpfAirdropHeight then apply_airdrop else mret ());
  if IsSpfHardfork (pb_Height pb) then apply_hardfork (pb_Height pb) else mret ().

Definition generateAndApplyDiff : M blockState () :=
  s ← get;
  let block := pb_Block (bs_pb s) in
  _ ← (if DEBUG
       then current ← on_db currentBlockID;
            panic_if (bool_decide (b_ParentID block <> current))
              "generating diffs for a block that's an invalid successsor to the current block"
       else mret ());
  _ ← apply_block_effects;
  _ ← modify_pb set_generated;
  let bid := Block_ID block in
  s ← get;
  _ ← on_db (updateCurrentPath (bs_pb s) DiffApply);
  s ← get;
  _ ← (if DEBUG then modify_pb (set_checksum (consensusChecksum (bs_db s))) else mret ());
  s ← get;
  on_db (modify (fun d => with_BlockMap (<[bid := bs_pb s]> (db_BlockMap d)) d)).

End generate.
