(* ===== verification/ProcessedBlock.v ===== *)
(** * Processed blocks and the difficulty adjustment

    modules/consensus/processedblock.go and modules/consensus/difficulty.go:
    the weight of a chain, the target of a child block under the original and
    the Oak algorithm, and the creation of a child node.

    [None] is a panic of the rational arithmetic, as in [Target]. *)

From Stdlib Require Import QArith.QArith_base.
From S2P Require Import Prelude Bytes Interfaces Currency Types Params Target Encoding.
From S2P Require Import Transactions ConsensusDB.

Open Scope Z_scope.

(** A computation that does not touch the state and can panic. *)
Definition or_panic {S A} (x : option A) : M S A :=
  match x with Some a => mret a | None => panic "division by zero" end.

(** [big.NewRat(a, b)]. *)
Definition NewRat (a b : Z) : option Q :=
  match b with
  | Z0 => None
  | Zpos p => Some (Qmake a p)
  | Zneg p => Some (Qmake (- a) p)
  end.

Definition SurpassThreshold : Q := Qmake 20 100.

Section processed_block.
Context {B : Build} {P : Params} {C : Crypto} {E : SiaEncoding}.

(** ** Weight *)

Definition heavierThan (pb cmp : processedBlock) : option bool :=
  threshold ← Target.MulDifficulty (pb_ChildTarget cmp) SurpassThreshold;
  requirement ← Target.AddDifficulties (pb_Depth cmp) threshold;
  Some (0 <? Target.Cmp requirement (pb_Depth pb)).

Definition childDepth (pb : processedBlock) : option Target :=
  Target.AddDifficulties (pb_Depth pb) (pb_ChildTarget pb).

(** ** The original adjustment *)

(** The walk over at most [fuel] ancestors: the last block reached and the
    number of steps.  The parent ID and the timestamp are read out of the
    stored bytes; a missing block is an index out of range. *)
Fixpoint window_walk (blockMap : gmap BlockID processedBlock) (fuel : nat)
    (windowSize : Z) (current parent : BlockID) : option (BlockID * Z) :=
  match fuel with
  | O => Some (current, windowSize)
  | S fuel =>
      if bool_decide (parent = zero_hash) then Some (current, windowSize)
      else
        stored ← blockMap !! parent;
        window_walk blockMap fuel (windowSize + 1) parent (b_ParentID (pb_Block stored))
  end.

Definition targetAdjustmentBase (blockMap : gmap BlockID processedBlock) (pb : processedBlock)
  : option Q :=
  '(current, windowSize) ←
    window_walk blockMap (Z.to_nat TargetWindow) 0 (Block_ID (pb_Block pb))
      (b_ParentID (pb_Block pb));
  stored ← blockMap !! current;
  let timestamp := b_Timestamp (pb_Block stored) in
  let timePassed := u64 (b_Timestamp (pb_Block pb) - timestamp) in
  let expectedTimePassed := u64 (BlockFrequency * windowSize) in
  NewRat (i64 timePassed) (i64 expectedTimePassed).

Definition clampTargetAdjustment (base : Q) : Q :=
  match Qcompare base MaxTargetAdjustmentUp with
  | Gt => MaxTargetAdjustmentUp
  | _ =>
      match Qcompare base MaxTargetAdjustmentDown with
      | Lt => MaxTargetAdjustmentDown
      | _ => base
      end
  end.

(** The new child target; [Height % (TargetWindow/2)] divides by a constant
    that is positive in every release.  Decoding a missing parent fails, which
    a debug build looks at. *)
Definition setChildTarget (blockMap : gmap BlockID processedBlock) (pb : processedBlock)
  : option Target :=
  parentChildTarget ←
    match blockMap !! b_ParentID (pb_Block pb) with
    | Some parent => Some (pb_ChildTarget parent)
    | None => if DEBUG then None else Some zero_hash
    end;
  if negb (pb_Height pb mod (TargetWindow / 2) =? 0) then Some parentChildTarget
  else
    base ← targetAdjustmentBase blockMap pb;
    let adjustment := clampTargetAdjustment base in
    Target.RatToTarget (Qmult (Target.Rat parentChildTarget) adjustment).

(** ** The Oak adjustment *)

(** The block time aimed at, from the parent's height and timestamp; all
    arithmetic is on [int64] and wraps. *)
Definition targetBlockTimeOak (parentHeight : BlockHeight) (parentTimestamp : Timestamp) : Z :=
  let expectedTime := i64 (i64 (u64 (BlockFrequency * parentHeight)) + i64 GenesisTimestamp) in
  let delta := i64 (expectedTime - i64 parentTimestamp) in
  let square := i64 (delta * delta) in
  let square := if delta <? 0 then i64 (square * -1) else square in
  let shift := square ÷ 10000000 in
  let targetBlockTime := i64 (i64 BlockFrequency + shift) in
  let low := i64 BlockFrequency ÷ OakMaxBlockShift in
  let high := i64 (i64 BlockFrequency * OakMaxBlockShift) in
  let targetBlockTime := if targetBlockTime <? low then low else targetBlockTime in
  if high <? targetBlockTime then high else targetBlockTime.

Definition childTargetOak (parentTotalTime : Z) (parentTotalTarget currentTarget : Target)
    (parentHeight : BlockHeight) (parentTimestamp : Timestamp) : option Target :=
  let targetBlockTime := targetBlockTimeOak parentHeight parentTimestamp in
  let parentTotalTime := if parentTotalTime <? 1 then 1 else parentTotalTime in
  let visibleHashrate :=
    Currency.Div64 (Target.Difficulty parentTotalTarget) (u64 parentTotalTime) in
  let visibleHashrate :=
    if Currency.IsZero visibleHashrate
    then Currency.Add visibleHashrate (Currency.NewCurrency64 1) else visibleHashrate in
  let targetBlockTime := if targetBlockTime =? 0 then 1 else targetBlockTime in
  maxNewTarget ← Target.MulDifficulty currentTarget OakMaxRise;
  minNewTarget ← Target.MulDifficulty currentTarget OakMaxDrop;
  r ← NewRat (Target.Int RootDepth)
        (Currency.Big (Currency.Mul64 visibleHashrate (u64 targetBlockTime)));
  newTarget ← Target.RatToTarget r;
  let asic := u64 (parentHeight + 1) =? ASICHardforkHeight in
  let newTarget :=
    if (Target.Cmp newTarget maxNewTarget <? 0) && negb asic then maxNewTarget else newTarget in
  Some (if (0 <? Target.Cmp newTarget minNewTarget) && negb asic then minNewTarget else newTarget).

Definition getBlockTotals (id : BlockID) : M DB (Z * Target) :=
  d ← get;
  match db_Oak d !! id with
  | Some totals => mret totals
  | None => panic "slice bounds out of range"
  end.

Definition storeBlockTotals (currentHeight : BlockHeight) (currentBlockID : BlockID)
    (prevTotalTime : Z) (parentTimestamp currentTimestamp : Timestamp)
    (prevTotalTarget targetOfCurrentBlock : Target) : M DB (Z * Target) :=
  decay ← or_panic (NewRat OakDecayNum OakDecayDenom);
  let newTotalTime :=
    i64 (i64 (prevTotalTime * OakDecayNum) ÷ OakDecayDenom +
         i64 (i64 currentTimestamp - i64 parentTimestamp)) in
  decayed ← or_panic (Target.MulDifficulty prevTotalTarget decay);
  newTotalTarget ← or_panic (Target.AddDifficulties decayed targetOfCurrentBlock);
  let '(newTotalTime, newTotalTarget) :=
    if u64 (currentHeight + 1) =? ASICHardforkHeight
    then (ASICHardforkTotalTime, ASICHardforkTotalTarget)
    else (newTotalTime, newTotalTarget) in
  _ ← modify (fun d =>
        with_Oak (<[currentBlockID := (newTotalTime, newTotalTarget)]> (db_Oak d)) d);
  mret (newTotalTime, newTotalTarget).

Definition GenesisID : BlockID := Block_ID GenesisBlock.

(** The scan of the current path in [initOak], heights [1..height]. *)
Definition initOak_step (i : BlockHeight)
    (acc : Z * Target * Timestamp * Target) : M DB (Z * Target * Timestamp * Target) :=
  let '(totalTime, totalTarget, parentTimestamp, parentChildTarget) := acc in
  id ← getPath i;
  match id with
  | None => throw errNilItem
  | Some id =>
      pb ← getBlockMap id;
      match pb with
      | None => throw errNilItem
      | Some pb =>
          totals ← storeBlockTotals i id totalTime parentTimestamp
                     (b_Timestamp (pb_Block pb)) totalTarget parentChildTarget;
          mret (totals.1, totals.2, b_Timestamp (pb_Block pb), pb_ChildTarget pb)
      end
  end.

Definition initOak : M DB () :=
  d ← get;
  if db_OakInit d then mret ()
  else
    height ← blockHeight;
    totals ← storeBlockTotals 0 GenesisID 0 GenesisTimestamp GenesisTimestamp
               RootDepth RootTarget;
    _ ← for_fold (fun _ i acc => initOak_step i acc) 0 (seqZ 1 height)
          (totals.1, totals.2, GenesisTimestamp, RootTarget);
    modify (with_OakInit true).

(** ** Child nodes *)

Definition new_processedBlock (b : Block) (height : BlockHeight) (depth childTarget : Target)
  : processedBlock :=
  mkProcessedBlock b height depth childTarget false [] [] [] [] [] zero_hash.

Definition newChild (pb : processedBlock) (b : Block) : M DB processedBlock :=
  let childID := Block_ID b in
  depth ← or_panic (childDepth pb);
  let height := u64 (pb_Height pb + 1) in
  prev ← getBlockTotals (b_ParentID b);
  _ ← storeBlockTotals height childID prev.1 (b_Timestamp (pb_Block pb)) (b_Timestamp b)
        prev.2 (pb_ChildTarget pb);
  d ← get;
  childTarget ←
    (if pb_Height pb <? OakHardforkBlock
     then or_panic (setChildTarget (db_BlockMap d) (new_processedBlock b height depth zero_hash))
     else or_panic (childTargetOak prev.1 prev.2 (pb_ChildTarget pb) (pb_Height pb)
                      (b_Timestamp (pb_Block pb))));
  let child := new_processedBlock b height depth childTarget in
  _ ← modify (fun d => with_BlockMap (<[childID := child]> (db_BlockMap d)) d);
  mret child.

End processed_block.
