(* ===== verification/Difficulty.v ===== *)
(** * The Oak difficulty adjustment

    What [childTargetOak] computes for any totals, heights and timestamps: the
    adjustment never panics, stays within the allowed rise and drop, and aims
    at a block time within the allowed shift even where the int64 arithmetic
    on timestamps wraps. *)

From Stdlib Require Import QArith.QArith_base.
From S2P Require Import Prelude Bytes Interfaces Currency Types Params Target ProcessedBlock.

Open Scope Z_scope.

Section oak.
Context {P : Params}.

(** What the adjustment relies on of the constants. *)
Record oak_ok : Prop := mkOakOk {
  oak_frequency : 0 < BlockFrequency;
  oak_shift : 1 <= OakMaxBlockShift;
  oak_range : BlockFrequency * OakMaxBlockShift < 2 ^ 63;
  oak_rise : QDen OakMaxRise <= Qnum OakMaxRise;
  oak_drop : 0 < Qnum OakMaxDrop <= QDen OakMaxDrop
}.

(** The targets after the largest rise and the largest drop of difficulty. *)
Definition max_rise (cur : Z) : Z := cur * QDen OakMaxRise / Qnum OakMaxRise.
Definition max_drop (cur : Z) : Z := (cur * QDen OakMaxDrop / Qnum OakMaxDrop) `min` (2 ^ 256 - 1).

Lemma targetBlockTimeOak_range h ts :
  oak_ok ->
  BlockFrequency / OakMaxBlockShift <= targetBlockTimeOak h ts <= BlockFrequency * OakMaxBlockShift.
Proof.
  intros [Hf Hs Hr _ _]. unfold targetBlockTimeOak.
  assert (HF : BlockFrequency < 2 ^ 63) by nia.
  rewrite !(i64_small BlockFrequency) by lia.
  rewrite (i64_small (BlockFrequency * OakMaxBlockShift)) by lia.
  rewrite (Z.quot_div_nonneg BlockFrequency OakMaxBlockShift) by lia.
  assert (BlockFrequency / OakMaxBlockShift <= BlockFrequency * OakMaxBlockShift)
    by (apply Z.div_le_upper_bound; nia).
  set (x := i64 (BlockFrequency + _)). generalize x. intros y.
  destruct (Z.ltb_spec y (BlockFrequency / OakMaxBlockShift)); case_match; bool_prop; lia.
Qed.

Lemma rise_le cur : oak_ok -> 0 < cur -> 0 <= max_rise cur <= cur.
Proof.
  intros [_ _ _ Hr _] Hc. unfold max_rise. split.
  - apply Z.div_pos; nia.
  - apply Z.div_le_upper_bound; nia.
Qed.

Lemma le_drop cur : oak_ok -> 0 < cur < 2 ^ 256 -> cur <= max_drop cur < 2 ^ 256.
Proof.
  intros [_ _ _ _ Hd] Hc. unfold max_drop.
  assert (cur <= cur * QDen OakMaxDrop / Qnum OakMaxDrop) by (apply Z.div_le_lower_bound; nia). lia.
Qed.

Context {B : Build}.

(** The hash rate the totals show, at least one hash per second. *)
Definition seen_hashrate (total_time : Z) (total_target : Target) : Z :=
  (Z.of_N (Target.Difficulty total_target) / (total_time `max` 1)) `max` 1.

Lemma hashrate_work total_time total_target time :
  - 2 ^ 63 <= total_time < 2 ^ 63 -> 0 <= time < 2 ^ 63 ->
  let seen := Currency.Div64 (Target.Difficulty total_target)
                (u64 (if total_time <? 1 then 1 else total_time)) in
  Currency.Big (Currency.Mul64
    (if Currency.IsZero seen then Currency.Add seen (Currency.NewCurrency64 1) else seen)
    (u64 (if time =? 0 then 1 else time)))
  = seen_hashrate total_time total_target * (time `max` 1).
Proof.
  intros Htt Ht. cbv zeta.
  replace (if total_time <? 1 then 1 else total_time) with (total_time `max` 1)
    by (destruct (Z.ltb_spec total_time 1); lia).
  replace (if time =? 0 then 1 else time) with (time `max` 1)
    by (destruct (Z.eqb_spec time 0); lia).
  rewrite !u64_small by (unfold is_u64; lia).
  unfold seen_hashrate, Currency.Big, Currency.Mul64, Currency.Div64, Currency.Add,
    Currency.NewCurrency64, Currency.IsZero.
  replace (Z.of_N (Target.Difficulty total_target) / (total_time `max` 1)) with
    (Z.of_N (Target.Difficulty total_target / Z.to_N (total_time `max` 1)))
    by (rewrite N2Z.inj_div, Z2N.id by lia; done).
  generalize (Target.Difficulty total_target / Z.to_N (total_time `max` 1))%N. intros n.
  rewrite N2Z.inj_mul, Z2N.id by lia.
  destruct (N.leb_spec n 0); f_equal; lia.
Qed.

Lemma ideal_target n :
  0 < n -> exists t, (q ← NewRat (Target.Int RootDepth) n; Target.RatToTarget q) = Some t /\
    Target.Int t = (2 ^ 256 - 1) / n.
Proof.
  intros Hn. rewrite Target.Int_RootDepth. destruct n as [|p|p]; [lia| |lia].
  change (exists t, Target.IntToTarget ((2 ^ 256 - 1) / Zpos p) = Some t /\
    Target.Int t = (2 ^ 256 - 1) / Zpos p).
  assert (0 <= (2 ^ 256 - 1) / Zpos p <= 2 ^ 256 - 1).
  { split; [apply Z.div_pos; lia|]. apply Z.div_le_upper_bound; lia. }
  destruct (Target.Int_IntToTarget ((2 ^ 256 - 1) / Zpos p)) as (t & -> & Ht); [lia|].
  exists t. split; [done|lia].
Qed.

Lemma mul_difficulty x q :
  0 < Target.Int x -> 0 < Qnum q ->
  exists t, Target.MulDifficulty x q = Some t /\
    Target.Int t = (Target.Int x * QDen q / Qnum q) `min` (2 ^ 256 - 1).
Proof. intros Hx Hq. destruct q as [n d]. by apply Target.MulDifficulty_Int. Qed.

(** C22. The Oak adjustment.  For constants like those of the releases, away
    from the block of the ASIC hardfork, and for every positive parent target,
    all totals, heights and timestamps: [childTargetOak] returns the target at
    which the hash rate seen takes the block time aimed at, clamped to the
    largest allowed rise and drop of the difficulty of the parent's target;
    the block time aimed at is within a factor [OakMaxBlockShift] of
    [BlockFrequency], also where the arithmetic on timestamps overflows. *)
Theorem childTargetOak_spec total_time total_target cur h ts :
  oak_ok -> 0 < Target.Int cur -> - 2 ^ 63 <= total_time < 2 ^ 63 ->
  u64 (h + 1) <> ASICHardforkHeight ->
  let time := targetBlockTimeOak h ts `max` 1 in
  let ideal := (2 ^ 256 - 1) / (seen_hashrate total_time total_target * time) in
  let lo := max_rise (Target.Int cur) in
  let hi := max_drop (Target.Int cur) in
  exists t, childTargetOak total_time total_target cur h ts = Some t /\
    Target.Int t = hi `min` (lo `max` ideal) /\
    lo <= Target.Int cur <= hi /\ lo <= Target.Int t <= hi /\
    BlockFrequency / OakMaxBlockShift <= targetBlockTimeOak h ts
      <= BlockFrequency * OakMaxBlockShift.
Proof.
  intros Hoak Hcur Htt Hasic time ideal lo hi. pose proof (Target.Int_range cur) as Hrange.
  pose proof (targetBlockTimeOak_range h ts Hoak) as Htime.
  pose proof (rise_le _ Hoak Hcur) as Hlo. pose proof (le_drop (Target.Int cur) Hoak ltac:(lia)) as Hhi.
  fold lo in Hlo. fold hi in Hhi. unfold childTargetOak.
  assert (Hrun : forall rise_t drop_t ideal_t : Target,
    Target.Int rise_t = lo -> Target.Int drop_t = hi -> Target.Int ideal_t = ideal ->
    let new := if (Target.Cmp ideal_t rise_t <? 0) && true then rise_t else ideal_t in
    Target.Int (if (0 <? Target.Cmp new drop_t) && true then drop_t else new)
    = hi `min` (lo `max` ideal)).
  { intros x y z Hx Hy Hz. rewrite !andb_true_r, Target.Cmp_lt, Hx, Hz.
    destruct (Z.ltb_spec ideal lo); cbv zeta; rewrite Target.Cmp_gt, Hy, ?Hx, ?Hz;
      case_match; bool_prop; rewrite ?Hx, ?Hy, ?Hz; lia. }
  pose proof Hoak as [_ Hs Hr Hrise Hdrop].
  destruct (mul_difficulty cur OakMaxRise Hcur) as (rise_t & -> & Hrise_t); [lia|].
  destruct (mul_difficulty cur OakMaxDrop Hcur) as (drop_t & -> & Hdrop_t); [lia|].
  assert (0 <= BlockFrequency / OakMaxBlockShift) by (apply Z.div_pos; destruct Hoak; lia).
  cbn [mbind option_bind]. rewrite hashrate_work by lia. fold time.
  destruct (ideal_target (seen_hashrate total_time total_target * time)) as (t & Ht & Hideal).
  { unfold seen_hashrate. subst time. nia. }
  destruct (NewRat _ _) as [q|]; [|done]. cbn [mbind option_bind] in Ht |- *. rewrite Ht.
  cbn [mbind option_bind]. apply Z.eqb_neq in Hasic. rewrite Hasic. cbn [negb].
  eexists. split; [reflexivity|].
  assert (Hlo_t : Target.Int rise_t = lo) by (fold (max_rise (Target.Int cur)) in Hrise_t; lia).
  rewrite (Hrun rise_t drop_t t Hlo_t Hdrop_t Hideal). lia.
Qed.

End oak.

(** The constants of the releases. *)
Lemma standard_oak_ok addr : @oak_ok (standard_params addr).
Proof. by constructor. Qed.
Lemma dev_oak_ok addr : @oak_ok (dev_params addr).
Proof. by constructor. Qed.
Lemma testing_oak_ok addr now : @oak_ok (testing_params addr now).
Proof. by constructor. Qed.

(** A slow hash rate on the standard network: a block time of 720 seconds is
    aimed at, and the drop of the difficulty is clamped. *)
Definition slow_net : Params := standard_params (fun _ => zero_hash).

Lemma childTargetOak_spec_witness :
  exists t, childTargetOak (P:=slow_net) (B:={| DEBUG := true; Release := Standard |})
      (10 ^ 9) (RootTarget (Params:=slow_net)) (RootTarget (Params:=slow_net)) 0 1650179928 = Some t /\
    Target.Int t = max_drop (P:=slow_net) (Target.Int (RootTarget (Params:=slow_net))).
Proof.
  destruct (childTargetOak_spec (P:=slow_net) (B:={| DEBUG := true; Release := Standard |})
    (10 ^ 9) (RootTarget (Params:=slow_net)) (RootTarget (Params:=slow_net)) 0 1650179928
    (standard_oak_ok _)) as (t & Ht & Hint & _).
  - vm_compute. reflexivity.
  - lia.
  - vm_compute. discriminate.
  - exists t. split; [exact Ht|]. rewrite Hint. vm_compute. reflexivity.
Defined.
