(* ===== verification/BlockValidation.v ===== *)
(** * Rules on blocks

    modules/consensus/block_rules.go and modules/consensus/block_validation.go:
    the median timestamp, the miner payouts, the target and [ValidateBlock]. *)

From S2P Require Import Prelude Bytes Interfaces Currency Types Params Encoding.
From S2P Require Import Transactions Subsidy Instances.

Open Scope Z_scope.

(** ** The minimum timestamp of a child *)

(** The loop that fills the window, [n] entries after one with timestamp
    [previous].  The parent's ID and timestamp are read out of the stored
    bytes; a missing parent is an index out of range. *)
Fixpoint window_times (blockMap : gmap BlockID processedBlock) (n : nat)
    (previous : Timestamp) (parent : BlockID) : option (list Timestamp) :=
  match n with
  | O => Some []
  | S n =>
      if bool_decide (parent = zero_hash) then
        cons previous <$> window_times blockMap n previous parent
      else
        stored ← blockMap !! parent;
        let timestamp := b_Timestamp (pb_Block stored) in
        cons timestamp <$>
          window_times blockMap n timestamp (b_ParentID (pb_Block stored))
  end.

Definition minimumValidChildTimestamp (blockMap : gmap BlockID processedBlock)
    (pb : processedBlock) : option Timestamp :=
  let timestamp := b_Timestamp (pb_Block pb) in
  times ← window_times blockMap (Z.to_nat (MedianTimestampWindow - 1)) timestamp
            (b_ParentID (pb_Block pb));
  let windowTimes := merge_sort Z.le (timestamp :: times) in
  windowTimes !! (length windowTimes / 2)%nat.

(** ** Miner payouts *)

(** The loop over payouts that must not be zero: [None] is [return false]. *)
Fixpoint payout_sum (payouts : list SiacoinOutput) (sum : Currency) : option Currency :=
  match payouts with
  | [] => Some sum
  | payout :: payouts =>
      if Currency.IsZero (sco_Value payout) then None
      else payout_sum payouts (Currency.Add sum (sco_Value payout))
  end.

Definition checkMinerPayoutsWithoutDevFund (b : Block) (height : BlockHeight) : bool :=
  match payout_sum (b_MinerPayouts b) Currency.ZeroCurrency with
  | None => false
  | Some payoutSum => Currency.Equals (CalculateSubsidy b height) payoutSum
  end.

Section payouts.
Context {P : Params}.

Definition checkMinerPayoutsWithDevFund (b : Block) (height : BlockHeight) : bool :=
  let n := length (b_MinerPayouts b) in
  if (n <? 2)%nat then false
  else
    match payout_sum (take (n - 1) (b_MinerPayouts b)) Currency.ZeroCurrency,
          b_MinerPayouts b !! (n - 1)%nat with
    | Some minerPayoutSum, Some devSubsidyPayout =>
        let '(minerBlockSubsidy, devBlockSubsidy) := CalculateSubsidies b height in
        if negb (Currency.Equals (sco_Value devSubsidyPayout) devBlockSubsidy) then false
        else
          match bytes_Compare (vec_to_list (sco_UnlockHash devSubsidyPayout))
                  (vec_to_list DevFundUnlockHash) with
          | Eq => Currency.Equals minerBlockSubsidy minerPayoutSum
          | _ => false
          end
    | _, _ => false
    end.

Definition checkMinerPayouts (b : Block) (height : BlockHeight) : bool :=
  if DevFundEnabled && (DevFundInitialBlockHeight <=? height)
  then checkMinerPayoutsWithDevFund b height
  else checkMinerPayoutsWithoutDevFund b height.

End payouts.

(** ** The block as a whole *)

Definition checkTarget (b : Block) (id : BlockID) (target : Target) : bool :=
  match bytes_Compare (vec_to_list target) (vec_to_list id) with Lt => false | _ => true end.

Section validate.
Context {P : Params} {E : SiaEncoding}.

(** [now] and [now'] are the readings of the clock at the two checks. *)
Definition ValidateBlock (now now' : Timestamp) (b : Block) (id : BlockID)
    (minTimestamp : Timestamp) (target : Target) (height : BlockHeight) : err :=
  err_if (b_Timestamp b <? minTimestamp) ErrEarlyTimestamp ;;?
  err_if ((ASICHardforkHeight <=? height) &&
          negb (le_val (vec_to_list (b_Nonce b)) mod ASICHardforkFactor =? 0))
    errNonceRequirements ;;?
  err_if (negb (checkTarget b id target)) ErrBlockUnsolved ;;?
  err_if (BlockSizeLimit <? u64 (zlen (Block_MarshalSia b))) ErrLargeBlock ;;?
  err_if (u64 (now + ExtremeFutureThreshold) <? b_Timestamp b) ErrExtremeFutureTimestamp ;;?
  err_if (negb (checkMinerPayouts b height)) ErrBadMinerPayouts ;;?
  err_if (u64 (now' + FutureThreshold) <? b_Timestamp b) ErrFutureTimestamp.

End validate.

(** ** Lemmas on the window *)

(** The block [i] generations above [pb]; the genesis block is its own
    ancestor. *)
Fixpoint ancestor (blockMap : gmap BlockID processedBlock) (i : nat) (pb : processedBlock)
  : option processedBlock :=
  match i with
  | O => Some pb
  | S i =>
      if bool_decide (b_ParentID (pb_Block pb) = zero_hash) then ancestor blockMap i pb
      else blockMap !! b_ParentID (pb_Block pb) ≫= ancestor blockMap i
  end.

Definition timestamp_of (pb : processedBlock) : Timestamp := b_Timestamp (pb_Block pb).

Lemma window_times_ancestors blockMap n pb :
  (forall i, (i <= n)%nat -> is_Some (ancestor blockMap i pb)) ->
  exists times,
    window_times blockMap n (timestamp_of pb) (b_ParentID (pb_Block pb)) = Some times /\
    length times = n /\
    forall i, (i < n)%nat ->
      times !! i = timestamp_of <$> ancestor blockMap (S i) pb.
Proof.
  revert pb. induction n as [|n IH]; intros pb Hanc.
  - exists []. split_and!; [done..|lia].
  - cbn [window_times]. case_bool_decide as Hz.
    + assert (Hstep : forall i, ancestor blockMap (S i) pb = ancestor blockMap i pb).
      { intros i. cbn [ancestor]. by rewrite bool_decide_eq_true_2. }
      destruct (IH pb) as (times & Ht & Hlen & Hlook).
      { intros i Hi. apply Hanc. lia. }
      exists (timestamp_of pb :: times). rewrite Ht. split_and!; [done|simpl; lia|].
      intros [|i] Hi; rewrite Hstep; [done|]. cbn. apply Hlook. lia.
    + assert (Hstep : forall i, ancestor blockMap (S i) pb =
               blockMap !! b_ParentID (pb_Block pb) ≫= ancestor blockMap i).
      { intros i. cbn [ancestor]. by rewrite bool_decide_eq_false_2. }
      destruct (Hanc 1%nat) as [q Hq]; [lia|]. rewrite Hstep in Hq.
      destruct (blockMap !! _) as [parent|] eqn:Hp; [|done]. cbn [mbind option_bind].
      destruct (IH parent) as (times & Ht & Hlen & Hlook).
      { intros i Hi. specialize (Hanc (S i)). rewrite Hstep in Hanc. apply Hanc. lia. }
      exists (timestamp_of parent :: times).
      change (b_Timestamp (pb_Block parent)) with (timestamp_of parent). rewrite Ht.
      split_and!; [done|simpl; lia|].
      intros [|i] Hi; rewrite Hstep; [done|]. cbn. apply Hlook. lia.
Qed.

Lemma filter_all (Q : Z -> Prop) `{!forall x, Decision (Q x)} (l : list Z) :
  (forall x, x ∈ l -> Q x) -> filter Q l = l.
Proof.
  induction l as [|x l IH]; intros Hall; [done|].
  rewrite filter_cons_True by (apply Hall; left).
  rewrite IH; [done|]. intros y Hy. apply Hall. by right.
Qed.

(** A sorted list has as many elements below its middle as above it. *)
Lemma sorted_counts (l : list Z) (k : nat) (m : Z) :
  StronglySorted Z.le l -> l !! k = Some m ->
  (S k <= length (filter (fun x => (x <= m)%Z) l))%nat /\
  (length l - k <= length (filter (fun x => (m <= x)%Z) l))%nat.
Proof.
  revert k. induction l as [|x l IH]; intros k Hs Hk; [done|].
  apply StronglySorted_inv in Hs as [Hs Hall]. rewrite Forall_forall in Hall.
  assert (Hge : forall y, y ∈ l -> x <= y) by done.
  destruct k as [|k]; cbn in Hk.
  - injection Hk as ->. rewrite !filter_cons_True by lia. cbn [length]. split; [lia|].
    rewrite filter_all by done. lia.
  - destruct (IH k Hs Hk) as [H1 H2].
    assert (x <= m) by (apply Hge; by apply list_elem_of_lookup_2 in Hk).
    rewrite filter_cons_True by done. cbn [length]. split; [lia|].
    rewrite filter_cons. case_decide; cbn [length]; lia.
Qed.

Lemma filter_Permutation_length (Q : Z -> Prop) `{!forall x, Decision (Q x)} (l l' : list Z) :
  l ≡ₚ l' -> length (filter Q l) = length (filter Q l').
Proof. intros Hp. apply Permutation_length. by rewrite Hp. Qed.

(** C23. The minimum timestamp of a child is the median of the timestamps of
    the block and its ten nearest ancestors, the genesis block standing for
    those before it: it is one of the eleven, at least six are no later and at
    least six no earlier.  The function returns it whenever these ancestors
    are stored. *)
Theorem minimumValidChildTimestamp_median blockMap pb :
  (forall i, (i <= 10)%nat -> is_Some (ancestor blockMap i pb)) ->
  exists window m,
    minimumValidChildTimestamp blockMap pb = Some m /\
    length window = 11%nat /\
    (forall i, (i <= 10)%nat -> window !! i = timestamp_of <$> ancestor blockMap i pb) /\
    m ∈ window /\
    (6 <= length (filter (fun t => (t <= m)%Z) window))%nat /\
    (6 <= length (filter (fun t => (m <= t)%Z) window))%nat.
Proof.
  intros Hanc. destruct (window_times_ancestors blockMap 10 pb Hanc)
    as (times & Ht & Hlen & Hlook).
  set (window := timestamp_of pb :: times).
  assert (Hl : length (merge_sort Z.le window) = 11%nat).
  { rewrite (Permutation_length (merge_sort_Permutation Z.le window)). subst window. simpl. lia. }
  destruct (merge_sort Z.le window !! 5%nat) as [m|] eqn:Hm;
    [|apply lookup_ge_None in Hm; lia].
  exists window, m.
  destruct (sorted_counts (merge_sort Z.le window) 5 m) as [H1 H2]; [|done|].
  { apply StronglySorted_merge_sort; [intros ???; lia|intros ??; lia]. }
  rewrite Hl in H2.
  rewrite (filter_Permutation_length _ _ _ (merge_sort_Permutation Z.le window)) in H1.
  rewrite (filter_Permutation_length _ _ _ (merge_sort_Permutation Z.le window)) in H2.
  split_and!; [| |  | |done|exact H2].
  - unfold minimumValidChildTimestamp.
    change (Z.to_nat (MedianTimestampWindow - 1)) with 10%nat.
    fold (timestamp_of pb). rewrite Ht. cbn [mbind option_bind]. fold window. by rewrite Hl.
  - subst window. simpl. lia.
  - intros [|i] Hi; [done|]. apply Hlook. lia.
  - rewrite <- (merge_sort_Permutation Z.le window). by apply list_elem_of_lookup_2 in Hm.
Qed.

Definition ex_child (t : Timestamp) (parent : BlockID) : processedBlock :=
  mkProcessedBlock (mkBlock parent (zero_array 8) t [] []) 0 zero_hash zero_hash false
    [] [] [] [] [] zero_hash.

Lemma minimumValidChildTimestamp_witness :
  exists m, minimumValidChildTimestamp {[ RootDepth := ex_child 7 zero_hash ]}
              (ex_child 5 RootDepth) = Some m /\ m = 7.
Proof.
  destruct (minimumValidChildTimestamp_median {[ RootDepth := ex_child 7 zero_hash ]}
              (ex_child 5 RootDepth)) as (w & m & Hm & _).
  - intros i Hi. do 11 (destruct i as [|i]; [vm_compute; eauto|]). lia.
  - exists m. split; [exact Hm|]. vm_compute in Hm. by injection Hm.
Defined.

(** ** Lemmas on payouts *)

Lemma payout_sum_spec l acc s :
  payout_sum l acc = Some s <->
  (forall o, o ∈ l -> sco_Value o <> 0%N) /\ s = (acc + sum_of sco_Value l)%N.
Proof.
  revert acc. induction l as [|o l IH]; intros acc; cbn [payout_sum].
  - rewrite sum_of_nil, N.add_0_r. split.
    + intros [= ->]. split; [|done]. intros o Ho. by apply not_elem_of_nil in Ho.
    + by intros [_ ->].
  - rewrite sum_of_cons. unfold Currency.IsZero.
    destruct (N.leb_spec (sco_Value o) 0).
    + split; [done|]. intros [Hall _]. exfalso. apply (Hall o); [left|lia].
    + rewrite IH. unfold Currency.Add. setoid_rewrite elem_of_cons. split.
      * intros [Hall ->]. split; [|lia]. intros o' [->|Ho']; [lia|auto].
      * intros [Hall ->]. split; [auto|lia].
Qed.

Lemma bytes_Compare_Eq {n} (v w : array n) :
  bytes_Compare (vec_to_list v) (vec_to_list w) = Eq <-> v = w.
Proof.
  rewrite bytes_Compare_be_val by (by rewrite !length_vec_to_list).
  rewrite Z.compare_eq_iff. split; [apply array_int_inj|by intros ->].
Qed.

(** The rule on payouts: without the development fund all of them are
    positive and make up the subsidy; with it the last one is the fund's share
    to its address, and the others, at least one, are positive and make up the
    rest. *)
Definition payouts_rule `{Params} (b : Block) (height : BlockHeight) : Prop :=
  sum_of sco_Value (b_MinerPayouts b) = CalculateSubsidy b height /\
  if height <? 1 then forall o, o ∈ b_MinerPayouts b -> sco_Value o <> 0%N
  else exists miner dev, b_MinerPayouts b = miner ++ [dev] /\ miner <> [] /\
    (forall o, o ∈ miner -> sco_Value o <> 0%N) /\
    dev = mkSiacoinOutput (CalculateDevSubsidy height) DevFundUnlockHash.

Lemma checkMinerPayoutsWithDevFund_snoc `{Params} b height miner dev :
  is_u64 height -> b_MinerPayouts b = miner ++ [dev] ->
  checkMinerPayoutsWithDevFund b height = true <->
  miner <> [] /\ (forall o, o ∈ miner -> sco_Value o <> 0%N) /\
  sum_of sco_Value (b_MinerPayouts b) = CalculateSubsidy b height /\
  dev = mkSiacoinOutput (CalculateDevSubsidy height) DevFundUnlockHash.
Proof.
  intros Hh Hb. pose proof (CalculateDevSubsidy_le height Hh) as Hle.
  unfold checkMinerPayoutsWithDevFund. rewrite Hb, sum_of_app, sum_of_cons, sum_of_nil.
  rewrite length_app, Nat.add_1_r. cbn [length]. rewrite Nat.sub_succ, Nat.sub_0_r.
  rewrite take_app_length, list_lookup_middle by done.
  destruct miner as [|m miner]; [split; [done|intros [? _]; done]|].
  cbn [length Nat.ltb Nat.leb].
  rewrite CalculateSubsidy_sum. unfold CalculateSubsidies.
  unfold Currency.Add. rewrite Sub_sub, CalculateMinerFees_sum.
  destruct (payout_sum (m :: miner) _) as [s|] eqn:Hs.
  - apply payout_sum_spec in Hs as [Hall ->]. unfold Currency.ZeroCurrency.
    destruct (Currency.Equals (sco_Value dev) _) eqn:Hd; cbn [negb].
    + apply Currency.Equals_true in Hd.
      destruct (bytes_Compare _ _) eqn:Hc.
      * apply bytes_Compare_Eq in Hc. rewrite Currency.Equals_true. split.
        -- intros Hsum. split_and!; [done|done|lia|]. destruct dev; cbn in *. congruence.
        -- intros (_ & _ & Hsum & Hdev). lia.
      * split; [done|]. intros (_ & _ & _ & ->). exfalso. revert Hc. cbn.
        by rewrite (proj2 (bytes_Compare_Eq _ _) eq_refl).
      * split; [done|]. intros (_ & _ & _ & ->). exfalso. revert Hc. cbn.
        by rewrite (proj2 (bytes_Compare_Eq _ _) eq_refl).
    + split; [done|]. intros (_ & _ & _ & ->). exfalso. cbn in Hd.
      by rewrite (proj2 (Currency.Equals_true _ _) eq_refl) in Hd.
  - split; [done|]. intros (_ & Hall & _). exfalso.
    by rewrite (proj2 (payout_sum_spec (m :: miner) _ _) (conj Hall eq_refl)) in Hs.
Qed.

Lemma checkMinerPayouts_rule `{Params} b height :
  is_u64 height -> checkMinerPayouts b height = true <-> payouts_rule b height.
Proof.
  intros Hh. unfold checkMinerPayouts, payouts_rule. cbn [DevFundEnabled andb].
  unfold DevFundInitialBlockHeight.
  destruct (Z.leb_spec 1 height) as [H1|H1].
  - rewrite (proj2 (Z.ltb_ge height 1)) by lia.
    destruct (b_MinerPayouts b) as [|dev miner _] eqn:Hb using rev_ind.
    + unfold checkMinerPayoutsWithDevFund. rewrite Hb. split; [done|].
      intros (_ & miner & dev & Happ & _). by destruct miner.
    + rewrite (checkMinerPayoutsWithDevFund_snoc b height miner dev) by done.
      rewrite Hb. split.
      * intros (? & ? & ? & ?). split; [done|]. by exists miner, dev.
      * intros (? & miner' & dev' & [-> Hdev]%app_inj_2 & ? & ? & ?); [|done].
        injection Hdev as ->. done.
  - rewrite (proj2 (Z.ltb_lt height 1)) by lia.
    unfold checkMinerPayoutsWithoutDevFund.
    destruct (payout_sum _ _) as [s|] eqn:Hs.
    + apply payout_sum_spec in Hs as [Hall ->]. rewrite Currency.Equals_true.
      unfold Currency.ZeroCurrency. rewrite N.add_0_l. split; [done|]. by intros [-> _].
    + split; [done|]. intros [_ Hall].
      by rewrite (proj2 (payout_sum_spec _ _ _) (conj Hall eq_refl)) in Hs.
Qed.

Lemma checkTarget_int b id target :
  checkTarget b id target = true <-> array_int id <= array_int target.
Proof.
  unfold checkTarget. rewrite bytes_Compare_be_val by (by rewrite !length_vec_to_list).
  fold (array_int target) (array_int id).
  destruct (Z.compare_spec (array_int target) (array_int id)); split; lia || done.
Qed.

(** Everything [ValidateBlock] asks for but the near future. *)
Definition block_rules `{Params} `{SiaEncoding} (now : Timestamp) (b : Block) (id : BlockID)
    (minTimestamp : Timestamp) (target : Target) (height : BlockHeight) : Prop :=
  minTimestamp <= b_Timestamp b <= u64 (now + ExtremeFutureThreshold) /\
  array_int id <= array_int target /\
  u64 (zlen (Block_MarshalSia b)) <= BlockSizeLimit /\
  payouts_rule b height.


(** A block of the standard release at height 1 whose timestamp lies four
    hours ahead, and again when three hours have passed. *)
Definition ex_params : Params := standard_params (fun _ => zero_hash).
Definition ex_block : Block :=
  mkBlock zero_hash (zero_array 8) 14400
    [mkSiacoinOutput (27 * 10 ^ 27)%N zero_hash; mkSiacoinOutput (3 * 10 ^ 27)%N zero_hash] [].

