(* ===== verification/Fork.v ===== *)
(** * Moving between forks

    The consensus set with its database and in-memory parts, the consistency
    checks (modules/consensus/consistency.go) and the fork operations
    (modules/consensus/fork.go).

    [checkConsistency] calls [forkBlockchain], which calls [checkConsistency]
    after every block in the testing release; the flag [checkingConsistency]
    makes the inner call return at once.  The fork operations therefore take
    the check to run as an argument [check], and are tied to
    [checkConsistency] at the end. *)

From S2P Require Import Prelude Bytes Interfaces Currency Types Params Encoding Transactions.
From S2P Require Import Subsidy ConsensusDB ApplyTransaction GenerateDiffs.

Open Scope Z_scope.

(** ** The consensus set *)

(** modules/consensus/changelog.go; [modules.ConsensusChangeID] is a hash. *)
Record changeEntry := mkChangeEntry {
  ce_RevertedBlocks : list BlockID;
  ce_AppliedBlocks : list BlockID
}.
#[export] Instance changeEntry_eq_dec : EqDecision changeEntry.
Proof. solve_decision. Defined.
Record changeNode := mkChangeNode { cn_Entry : changeEntry; cn_Next : Hash }.

(** The bucket ChangeLog: its nodes and the key [ChangeLogTailID]. *)
Record changeLog := mkChangeLog {
  cl_nodes : gmap Hash changeNode;
  cl_tail : option Hash
}.

(** The fields of the struct ConsensusSet that the code below uses.  The last
    two record what leaves it: blocks handed to [threadedSleepOnFutureBlock]
    and changes handed to the subscribers. *)
Record ConsensusSet := mkConsensusSet {
  cs_db : DB;
  cs_changeLog : changeLog;
  cs_dosBlocks : gset BlockID;
  cs_checkingConsistency : bool;
  cs_future : list Block;
  cs_published : list changeEntry
}.

Definition with_db (d : DB) (s : ConsensusSet) : ConsensusSet :=
  mkConsensusSet d (cs_changeLog s) (cs_dosBlocks s) (cs_checkingConsistency s)
    (cs_future s) (cs_published s).
Definition with_changeLog (l : changeLog) (s : ConsensusSet) : ConsensusSet :=
  mkConsensusSet (cs_db s) l (cs_dosBlocks s) (cs_checkingConsistency s)
    (cs_future s) (cs_published s).
Definition add_dosBlock (id : BlockID) (s : ConsensusSet) : ConsensusSet :=
  mkConsensusSet (cs_db s) (cs_changeLog s) ({[id]} ∪ cs_dosBlocks s)
    (cs_checkingConsistency s) (cs_future s) (cs_published s).
Definition with_checking (b : bool) (s : ConsensusSet) : ConsensusSet :=
  mkConsensusSet (cs_db s) (cs_changeLog s) (cs_dosBlocks s) b (cs_future s) (cs_published s).
Definition add_future (b : Block) (s : ConsensusSet) : ConsensusSet :=
  mkConsensusSet (cs_db s) (cs_changeLog s) (cs_dosBlocks s) (cs_checkingConsistency s)
    (cs_future s ++ [b]) (cs_published s).
Definition add_published (l : list changeEntry) (s : ConsensusSet) : ConsensusSet :=
  mkConsensusSet (cs_db s) (cs_changeLog s) (cs_dosBlocks s) (cs_checkingConsistency s)
    (cs_future s) (cs_published s ++ l).

Definition in_db {A} (m : M DB A) : M ConsensusSet A := fun s =>
  match m (cs_db s) with
  | Ret a d => Ret a (with_db d s)
  | Err e d => Err e (with_db d s)
  | Panic msg => Panic msg
  end.

Section fork.
Context {B : Build} {P : Params} {C : Crypto} {E : SiaEncoding}.

(** ** backtrackToCurrentPath *)

(** In a database whose blocks have their parent one height below, the loop
    ends after at most [Height + 1] rounds; running out of them stands for a
    loop that does not end. *)
Fixpoint backtrack_loop (fuel : nat) (pb : processedBlock) (path : list processedBlock)
  : M DB (list processedBlock) :=
  match fuel with
  | O => panic "diverges"
  | S fuel =>
      found ← getPath (pb_Height pb);
      let currentPathID := default zero_hash found in
      if bool_decide (currentPathID = Block_ID (pb_Block pb)) then mret path
      else
        height ← blockHeight;
        _ ← panic_if (DEBUG && bool_decide (found = None) && (pb_Height pb <=? height)) "nil item";
        parent ← getBlockMap (b_ParentID (pb_Block pb));
        match parent with
        | None => panic "nil processed block"
        | Some parent => backtrack_loop fuel parent (parent :: path)
        end
  end.

Definition backtrackToCurrentPath (pb : processedBlock) : M DB (list processedBlock) :=
  backtrack_loop (S (Z.to_nat (pb_Height pb))) pb [pb].

Section with_check.
Context (check_ : M ConsensusSet ()).

(** [if build.Release == "testing" { cs.checkConsistency(tx) }]. *)
Definition after_block : M ConsensusSet () :=
  if bool_decide (Release = Testing) then check_ else mret ().

(** ** revertToBlock *)

(** One round of the rewinding loop: the block it reverts. *)
Definition revert_one : M ConsensusSet processedBlock :=
  height ← in_db blockHeight;
  _ ← (if IsSpfHardfork height
       then in_db (setSiafundHardforkPool Currency.ZeroCurrency height) else mret ());
  block ← in_db currentProcessedBlock;
  _ ← in_db (commitDiffSet block DiffRevert);
  _ ← after_block;
  mret block.

Fixpoint revert_loop (fuel : nat) (id : BlockID) : M ConsensusSet (list processedBlock) :=
  match fuel with
  | O => panic "diverges"
  | S fuel =>
      current ← in_db currentBlockID;
      if bool_decide (current = id) then mret []
      else
        block ← revert_one;
        rest ← revert_loop fuel id;
        mret (block :: rest)
  end.

(** A round lowers the height by one. *)
Definition revertToBlock (pb : processedBlock) : M ConsensusSet (list processedBlock) :=
  currentPathID ← in_db (getPath (pb_Height pb));
  _ ← panic_if (DEBUG && bool_decide (currentPathID <> Some (Block_ID (pb_Block pb))))
        "cannot revert to block outside of current path";
  s ← get;
  revert_loop (S (S (Z.to_nat (db_BlockHeight (cs_db s))))) (Block_ID (pb_Block pb)).

(** ** applyUntilBlock *)

(** [generateAndApplyDiff] changes the processed block in place. *)
Definition generate_block (block : processedBlock) : M ConsensusSet processedBlock := fun s =>
  match generateAndApplyDiff (mkBlockState (cs_db s) block) with
  | Ret _ bs => Ret (bs_pb bs) (with_db (bs_db bs) s)
  | Err e bs => Err e (add_dosBlock (Block_ID (pb_Block block)) (with_db (bs_db bs) s))
  | Panic msg => Panic msg
  end.

Definition apply_one (block : processedBlock) : M ConsensusSet processedBlock :=
  applied ← (if pb_DiffsGenerated block
             then _ ← in_db (commitDiffSet block DiffApply); mret block
             else generate_block block);
  _ ← after_block;
  mret applied.

Fixpoint apply_loop (blocks : list processedBlock) : M ConsensusSet (list processedBlock) :=
  match blocks with
  | [] => mret []
  | block :: blocks =>
      applied ← apply_one block;
      rest ← apply_loop blocks;
      mret (applied :: rest)
  end.

Definition applyUntilBlock (pb : processedBlock) : M ConsensusSet (list processedBlock) :=
  newPath ← in_db (backtrackToCurrentPath pb);
  apply_loop (tail newPath).

(** ** forkBlockchain *)

Definition forkBlockchain_with (newBlock : processedBlock)
  : M ConsensusSet (list processedBlock * list processedBlock) :=
  path ← in_db (backtrackToCurrentPath newBlock);
  match path with
  | [] => panic "index out of range"
  | commonParent :: _ =>
      revertedBlocks ← revertToBlock commonParent;
      appliedBlocks ← applyUntilBlock newBlock;
      mret (revertedBlocks, appliedBlocks)
  end.

End with_check.
End fork.

(** * Consistency checks

    modules/consensus/consistency.go, and with them the fork operation the
    rest of the consensus set calls.  A failed check marks the database
    inconsistent; a debug build then panics, a release build prints. *)

Definition manageErr `{Build} (msg : string) : M DB () :=
  _ ← modify (with_Inconsistent true); panic_if DEBUG msg.

(** The buckets of a prefix as the database presents them: in the byte order
    of the encoded heights. *)
Definition by_height `{SiaEncoding} {V} (m : gmap Z V) : list (Z * V) :=
  merge_sort (fun x y => bytes_le (WriteUint64 x.1) (WriteUint64 y.1)) (map_to_list m).

Section checks.
Context {B : Build} {P : Params} {C : Crypto} {E : SiaEncoding}.

Definition sum_entries {V} (f : V -> Currency) (m : gmap Hash V) : Currency :=
  fold_left (fun sum kv => Currency.Add sum (f kv.2)) (bucket_entries m) Currency.ZeroCurrency.

Definition contract_coins (fc : FileContract) : Currency :=
  fold_left (fun sum o => Currency.Add sum (sco_Value o)) (fc_ValidProofOutputs fc)
    Currency.ZeroCurrency.

(** ** checkSiacoinCount *)

Definition dsco_siacoins (d : DB) : Currency :=
  fold_left (fun sum kv =>
    fold_left (fun sum kv => Currency.Add sum (sco_Value kv.2)) (bucket_entries kv.2) sum)
  (by_height (db_DSCO d)) Currency.ZeroCurrency.

Definition countSiacoins : M DB Currency :=
  d ← get;
  let dscoSiacoins := dsco_siacoins d in
  let scoSiacoins := sum_entries sco_Value (db_SiacoinOutputs d) in
  let fcSiacoins := sum_entries contract_coins (db_FileContracts d) in
  claimSiacoins ← for_fold (fun _ kv sum =>
      claimCoins ← siafundClaim kv.2;
      mret (Currency.Add sum claimCoins))
    0 (bucket_entries (db_SiafundOutputs d)) Currency.ZeroCurrency;
  mret (Currency.Add (Currency.Add (Currency.Add dscoSiacoins scoSiacoins) fcSiacoins)
          claimSiacoins).

Definition checkSiacoinCount : M DB () :=
  totalSiacoins ← countSiacoins;
  height ← blockHeight;
  let expectedSiacoins := CalculateNumSiacoins height in
  if negb (Currency.Equals totalSiacoins expectedSiacoins)
  then manageErr "Wrong number of siacoins" else mret ().

(** ** checkSiafundCount *)

Definition checkSiafundCount : M DB () :=
  d ← get;
  let total := sum_entries sfo_Value (db_SiafundOutputs d) in
  height ← blockHeight;
  if negb (Currency.Equals total (SiafundCount height))
  then manageErr "wrong number of siafunds in the consensus set" else mret ().

(** ** checkDSCOs *)

(** The IDs of a bucket, none of which may have appeared before. *)
Fixpoint fresh_ids (ids : list Hash) (idMap : gset Hash) : option (gset Hash) :=
  match ids with
  | [] => Some idMap
  | id :: ids =>
      if bool_decide (id ∈ idMap) then None else fresh_ids ids ({[id]} ∪ idMap)
  end.

(** The scan over the buckets: the heights seen, and whether it went through
    without an error.  A height appears once, so that the check for a repeat
    map cannot fire. *)
Fixpoint dsco_scan (buckets : list (Z * gmap Hash SiacoinOutput)) (dscoTracker : gset Z)
    (idMap : gset Hash) : gset Z * bool :=
  match buckets with
  | [] => (dscoTracker, true)
  | (height, bucket) :: buckets =>
      if bool_decide (height ∈ dscoTracker) then (dscoTracker, false)
      else
        let dscoTracker := {[height]} ∪ dscoTracker in
        match fresh_ids (fst <$> bucket_entries bucket) idMap with
        | None => (dscoTracker, false)
        | Some idMap =>
            let minimumValue := CalculateCoinbase (u64 (height - MaturityDelay)) in
            if Currency.Cmp (sum_entries sco_Value bucket) minimumValue <? 0
            then (dscoTracker, false)
            else dsco_scan buckets dscoTracker idMap
        end
  end.

Definition checkDSCOs : M DB () :=
  d ← get;
  let '(dscoTracker, ok) := dsco_scan (by_height (db_DSCO d)) ∅ ∅ in
  _ ← (if ok then mret () else manageErr "inconsistent dsco buckets");
  currentHeight ← blockHeight;
  expectedBuckets ← for_fold (fun _ i expectedBuckets =>
      if i <? MaturityDelay then mret expectedBuckets
      else
        _ ← (if bool_decide (i ∈ dscoTracker) then mret ()
             else manageErr "missing a dsco bucket");
        mret (expectedBuckets + 1))
    0 (seqZ (currentHeight + 1) MaturityDelay) 0;
  if negb (Z.of_nat (size dscoTracker) =? expectedBuckets)
  then manageErr "too many dsco buckets" else mret ().

(** ** checkRevertApply *)

(** The processed block of the genesis block: [cs.blockRoot], with the diffs
    [consensusSetBlockingStartup] gives it. *)
Definition genesis_scods (t : Transaction) : list SiacoinOutputDiff :=
  imap (fun i sco => mkSiacoinOutputDiff DiffApply
                       (Transaction_SiacoinOutputID t (Z.of_nat i)) sco) (t_SiacoinOutputs t).
Definition genesis_sfods (t : Transaction) : list SiafundOutputDiff :=
  imap (fun i sfo => mkSiafundOutputDiff DiffApply
                       (Transaction_SiafundOutputID t (Z.of_nat i)) sfo) (t_SiafundOutputs t).

Definition blockRoot : processedBlock :=
  mkProcessedBlock GenesisBlock 0 RootDepth RootTarget true
    (concat (genesis_scods <$> b_Transactions GenesisBlock)) []
    (concat (genesis_sfods <$> b_Transactions GenesisBlock)) [] [] zero_hash.

(** [if err != nil { manageErr(tx, err) }], on a result that is not used. *)
Definition or_manageErr {A} (m : M ConsensusSet A) : M ConsensusSet () := fun s =>
  match m s with
  | Ret _ s' => Ret () s'
  | Err _ s' => in_db (manageErr "fork failed") s'
  | Panic msg => Panic msg
  end.

(** Runs inside a consistency check, where the nested check does nothing. *)
Definition checkRevertApply : M ConsensusSet () :=
  current ← in_db currentProcessedBlock;
  if bool_decide (Block_ID (pb_Block current) = Block_ID (pb_Block blockRoot)) then mret ()
  else
    parent ← in_db (getBlockMap (b_ParentID (pb_Block current)));
    match parent with
    | None => panic "nil processed block"
    | Some parent =>
        _ ← (if negb (pb_Height current =? u64 (pb_Height parent + 1))
             then in_db (manageErr "parent structure of a block is incorrect") else mret ());
        _ ← or_manageErr (forkBlockchain_with (mret ()) parent);
        s ← get;
        _ ← (if bool_decide (consensusChecksum (cs_db s) <> pb_ConsensusChecksum parent)
             then in_db (manageErr "consensus checksum mismatch after reverting") else mret ());
        _ ← or_manageErr (forkBlockchain_with (mret ()) current);
        s ← get;
        if bool_decide (consensusChecksum (cs_db s) <> pb_ConsensusChecksum current)
        then in_db (manageErr "consensus checksum mismatch after re-applying") else mret ()
    end.

(** ** checkConsistency *)

Definition checkConsistency : M ConsensusSet () :=
  s ← get;
  if cs_checkingConsistency s then mret ()
  else
    _ ← modify (with_checking true);
    _ ← in_db checkDSCOs;
    _ ← in_db checkSiacoinCount;
    _ ← in_db checkSiafundCount;
    _ ← (if DEBUG then checkRevertApply else mret ());
    modify (with_checking false).

Definition forkBlockchain (newBlock : processedBlock)
  : M ConsensusSet (list processedBlock * list processedBlock) :=
  forkBlockchain_with checkConsistency newBlock.

End checks.
