(* ===== verification/Accept.v ===== *)
(** * Accepting blocks

    modules/consensus/accept.go and modules/consensus/changelog.go, and the
    creation of the database (modules/consensus/consensusdb.go,
    modules/consensus/database.go). *)

From S2P Require Import Prelude Bytes Interfaces Currency Types Params Encoding Transactions.
From S2P Require Import Subsidy ConsensusDB ApplyTransaction GenerateDiffs Fork.
From S2P Require Import ProcessedBlock BlockValidation.

Open Scope Z_scope.

Section accept.
Context {B : Build} {P : Params} {C : Crypto} {E : SiaEncoding}.

(** ** The change log *)

(** [encoding.Marshal] of the two slices of IDs, hashed. *)
Definition changeEntry_ID (ce : changeEntry) : Hash :=
  HashObject (write_slice vec_to_list (ce_RevertedBlocks ce) ++
              write_slice vec_to_list (ce_AppliedBlocks ce)).

(** A tail that is not in the bucket does not decode. *)
Definition appendChangeLog (ce : changeEntry) : M ConsensusSet () :=
  s ← get;
  let cl := cs_changeLog s in
  let ceid := changeEntry_ID ce in
  let nodes := <[ceid := mkChangeNode ce zero_hash]> (cl_nodes cl) in
  let tailID := default zero_hash (cl_tail cl) in
  if bool_decide (tailID = zero_hash) then
    modify (with_changeLog (mkChangeLog nodes (Some ceid)))
  else
    match nodes !! tailID with
    | None => throw errNilItem
    | Some tailCN =>
        modify (with_changeLog
          (mkChangeLog (<[tailID := mkChangeNode (cn_Entry tailCN) ceid]> nodes) (Some ceid)))
    end.

Definition getEntry (cl : changeLog) (id : Hash) : option changeEntry :=
  cn_Entry <$> cl_nodes cl !! id.

(** A missing node decodes to the zero value outside a debug build. *)
Definition NextEntry (cl : changeLog) (ce : changeEntry) : option (option changeEntry) :=
  match cl_nodes cl !! changeEntry_ID ce with
  | Some cn => Some (getEntry cl (cn_Next cn))
  | None => if DEBUG then None else Some (getEntry cl zero_hash)
  end.

Definition genesisEntry : changeEntry := mkChangeEntry [] [Block_ID (pb_Block blockRoot)].

Definition createChangeLog : changeLog :=
  let geid := changeEntry_ID genesisEntry in
  mkChangeLog {[geid := mkChangeNode genesisEntry zero_hash]} (Some geid).

(** ** Creating the database *)

(** The buckets [createConsensusDB] creates; the height is set to [-1]. *)
Definition empty_DB : DB :=
  mkDB (u64 (0 - 1)) ∅ ∅ ∅ ∅ ∅ Currency.ZeroCurrency ∅ None ∅ ∅ ∅ false false.

Definition createConsensusDB : M DB () :=
  _ ← for_each (fun scod => commitSiacoinOutputDiff scod DiffApply)
        (pb_SiacoinOutputDiffs blockRoot);
  _ ← setSiafundPool (Currency.NewCurrency64 0);
  _ ← for_each (fun sfod => commitSiafundOutputDiff sfod DiffApply)
        (pb_SiafundOutputDiffs blockRoot);
  _ ← createDSCOBucket MaturityDelay;
  _ ← addDSCO MaturityDelay (MinerPayoutID (pb_Block blockRoot) 0)
        (mkSiacoinOutput (CalculateCoinbase 0) zero_hash);
  _ ← pushPath (Block_ID (pb_Block blockRoot));
  d ← get;
  addBlockMap (if DEBUG then set_checksum (consensusChecksum d) blockRoot else blockRoot).

(** [initDB] on a new database. *)
Definition initDB : M DB () :=
  _ ← createConsensusDB;
  modify (with_Inconsistent false).

(** The database transaction of [loadDB], on a new database. *)
Definition loadDB : M DB () :=
  _ ← initDB;
  _ ← initOak;
  genesisID ← getPath 0;
  _ ← panic_if (DEBUG && bool_decide (genesisID = None)) "nil item";
  check (err_if (bool_decide (default zero_hash genesisID <> Block_ID (pb_Block blockRoot)))
           errWrongGenesis).

(** ** Checking headers and blocks *)

(** [checkHeaderTarget]. *)
Definition checkHeaderTarget (h : BlockHeader) (target : Target) : bool :=
  match bytes_Compare (vec_to_list target) (vec_to_list (BlockHeader_ID h)) with
  | Lt => false
  | _ => true
  end.

Definition validateHeader (now : Timestamp) (h : BlockHeader) : M ConsensusSet () :=
  s ← get;
  let id := BlockHeader_ID h in
  let blockMap := db_BlockMap (cs_db s) in
  _ ← check (err_if (bool_decide (id ∈ cs_dosBlocks s)) errDoSBlock);
  _ ← check (err_if (bool_decide (is_Some (blockMap !! id))) ErrBlockKnown);
  match blockMap !! h_ParentID h with
  | None => throw errOrphan
  | Some parent =>
      _ ← check (err_if ((ASICHardforkHeight <=? u64 (pb_Height parent + 1)) &&
                  negb (le_val (vec_to_list (h_Nonce h)) mod ASICHardforkFactor =? 0))
                  errNonceRequirements);
      _ ← check (err_if (negb (checkHeaderTarget h (pb_ChildTarget parent))) ErrBlockUnsolved);
      minTimestamp ← or_panic (minimumValidChildTimestamp blockMap parent);
      _ ← check (err_if (h_Timestamp h <? minTimestamp) ErrEarlyTimestamp);
      check (err_if (u64 (now + ExtremeFutureThreshold) <? h_Timestamp h) ErrExtremeFutureTimestamp)
  end.

(** The clock is read twice for a block. *)
Definition validateHeaderAndBlock (now : Timestamp * Timestamp) (b : Block) (id : BlockID)
  : M ConsensusSet processedBlock :=
  s ← get;
  let blockMap := db_BlockMap (cs_db s) in
  _ ← check (err_if (bool_decide (id ∈ cs_dosBlocks s)) errDoSBlock);
  _ ← check (err_if (bool_decide (is_Some (blockMap !! id))) ErrBlockKnown);
  match blockMap !! b_ParentID b with
  | None => throw errOrphan
  | Some parent =>
      minTimestamp ← or_panic (minimumValidChildTimestamp blockMap parent);
      _ ← check (ValidateBlock now.1 now.2 b id minTimestamp (pb_ChildTarget parent)
                   (u64 (pb_Height parent + 1)));
      mret parent
  end.

(** ** Adding a block *)

Definition addBlockToTree (b : Block) (parent : processedBlock) : M ConsensusSet changeEntry :=
  newNode ← in_db (newChild parent b);
  currentNode ← in_db currentProcessedBlock;
  heavier ← or_panic (heavierThan newNode currentNode);
  _ ← check (err_if (negb heavier) ErrNonExtendingBlock);
  '(revertedBlocks, appliedBlocks) ← forkBlockchain newNode;
  let ce := mkChangeEntry ((fun rn => Block_ID (pb_Block rn)) <$> revertedBlocks)
                          ((fun an => Block_ID (pb_Block an)) <$> appliedBlocks) in
  _ ← appendChangeLog ce;
  mret ce.

(** The blocks form a chain. *)
Fixpoint linear (blocks : list Block) : bool :=
  match blocks with
  | b :: (b' :: _) as blocks' =>
      bool_decide (b_ParentID b' = Block_ID b) && linear blocks'
  | _ => true
  end.

(** The body of the loop inside the database transaction: the changes so far
    become those with the block's. *)
Definition accept_one (clock : Z -> Timestamp * Timestamp) (i : Z) (b : Block)
    (changes : list changeEntry) : M ConsensusSet (list changeEntry) := fun s =>
  match validateHeaderAndBlock (clock i) b (Block_ID b) s with
  | Err ErrBlockKnown s => Ret changes s
  | Err e s =>
      Err e (if bool_decide (e = ErrFutureTimestamp) then add_future b s else s)
  | Panic msg => Panic msg
  | Ret parent s =>
      match addBlockToTree b parent s with
      | Panic msg => Panic msg
      | Err ErrNonExtendingBlock s => Ret changes s
      | Err e s => Err e s
      | Ret ce s =>
          if (length (ce_AppliedBlocks ce) <? length (ce_RevertedBlocks ce))%nat
          then if DEBUG then Panic "more reverted blocks than applied ones"
               else Err errMoreRevertedThanApplied s
          else Ret (changes ++ [ce]) s
      end
  end.

(** [cs.db.Update]: an error rolls the database back, and nothing else. *)
Definition db_Update {A} (m : M ConsensusSet A) : M ConsensusSet A := fun s =>
  match m s with
  | Err e s' => Err e (with_changeLog (cs_changeLog s) (with_db (cs_db s) s'))
  | o => o
  end.

Definition managedAcceptBlocks (clock : Z -> Timestamp * Timestamp) (blocks : list Block)
  : M ConsensusSet bool :=
  _ ← check (err_if (negb (linear blocks)) errNonLinearChain);
  changes ← db_Update (for_fold (accept_one clock) 0 blocks []);
  _ ← check (err_if (bool_decide (changes = [])) ErrNonExtendingBlock);
  _ ← modify (add_published changes);
  mret true.

(** The result: whether the block is broadcast. *)
Definition AcceptBlock (clock : Z -> Timestamp * Timestamp) (b : Block) : M ConsensusSet bool :=
  managedAcceptBlocks clock [b].

End accept.
