(* ===== verification/ConsensusSubscribe.v ===== *)
(** * Consensus changes and their subscribers

    modules/consensus/subscribe.go and the types of consensus changes in
    modules/consensus.go: what a change tells the other modules, sending a new
    change to every subscriber, and bringing a new subscriber up to date from
    the change log while other threads append to it. *)

From S2P Require Import Prelude Bytes Interfaces Currency Types Params Encoding Transactions.
From S2P Require Import Subsidy ConsensusDB ProcessedBlock BlockValidation Fork Accept.

Open Scope Z_scope.

(** ** Data *)

Abbreviation ConsensusChangeID := Hash (only parsing).

Definition ConsensusChangeBeginning : ConsensusChangeID := zero_hash.
Definition ConsensusChangeRecent : ConsensusChangeID := hash_literal (1 :: replicate 31 0).

Record ConsensusChangeDiffs := mkConsensusChangeDiffs {
  ccd_SiacoinOutputDiffs : list SiacoinOutputDiff;
  ccd_FileContractDiffs : list FileContractDiff;
  ccd_SiafundOutputDiffs : list SiafundOutputDiff;
  ccd_DelayedSiacoinOutputDiffs : list DelayedSiacoinOutputDiff;
  ccd_SiafundPoolDiffs : list SiafundPoolDiff
}.

(** The embedded diffs are the field [cc_Diffs].  [TryTransactionSet] is not a
    field: it is a method of the consensus set, which runs on the database at
    the time of the call. *)
Record ConsensusChange := mkConsensusChange {
  cc_ID : ConsensusChangeID;
  cc_RevertedBlocks : list Block;
  cc_AppliedBlocks : list Block;
  cc_RevertedDiffs : list ConsensusChangeDiffs;
  cc_AppliedDiffs : list ConsensusChangeDiffs;
  cc_Diffs : ConsensusChangeDiffs;
  cc_ChildTarget : Target;
  cc_MinimumValidChildTimestamp : Timestamp;
  cc_Synced : bool;
  cc_OldHeight : BlockHeight;
  cc_NewHeight : BlockHeight
}.

(** The zero value with an ID. *)
Definition new_change (id : ConsensusChangeID) : ConsensusChange :=
  mkConsensusChange id [] [] [] [] (mkConsensusChangeDiffs [] [] [] [] []) zero_hash 0 false 0 0.

(** [AppendDiffs], on the embedded diffs. *)
Definition AppendDiffs (diffs : ConsensusChangeDiffs) (cc : ConsensusChangeDiffs)
  : ConsensusChangeDiffs :=
  mkConsensusChangeDiffs
    (ccd_SiacoinOutputDiffs cc ++ ccd_SiacoinOutputDiffs diffs)
    (ccd_FileContractDiffs cc ++ ccd_FileContractDiffs diffs)
    (ccd_SiafundOutputDiffs cc ++ ccd_SiafundOutputDiffs diffs)
    (ccd_DelayedSiacoinOutputDiffs cc ++ ccd_DelayedSiacoinOutputDiffs diffs)
    (ccd_SiafundPoolDiffs cc ++ ccd_SiafundPoolDiffs diffs).

(** The bodies of the two loops of [computeConsensusChange]. *)
Definition add_reverted (b : Block) (height : BlockHeight) (diffs : ConsensusChangeDiffs)
    (cc : ConsensusChange) : ConsensusChange :=
  mkConsensusChange (cc_ID cc) (cc_RevertedBlocks cc ++ [b]) (cc_AppliedBlocks cc)
    (cc_RevertedDiffs cc ++ [diffs]) (cc_AppliedDiffs cc) (AppendDiffs diffs (cc_Diffs cc))
    (cc_ChildTarget cc) (cc_MinimumValidChildTimestamp cc) (cc_Synced cc)
    (if cc_OldHeight cc <? height then height else cc_OldHeight cc) (cc_NewHeight cc).
Definition add_applied (b : Block) (diffs : ConsensusChangeDiffs)
    (cc : ConsensusChange) : ConsensusChange :=
  mkConsensusChange (cc_ID cc) (cc_RevertedBlocks cc) (cc_AppliedBlocks cc ++ [b])
    (cc_RevertedDiffs cc) (cc_AppliedDiffs cc ++ [diffs]) (AppendDiffs diffs (cc_Diffs cc))
    (cc_ChildTarget cc) (cc_MinimumValidChildTimestamp cc) (cc_Synced cc)
    (cc_OldHeight cc) (cc_NewHeight cc).
Definition set_tip (target : Target) (minTimestamp : Timestamp) (synced : bool)
    (oldHeight newHeight : BlockHeight) (cc : ConsensusChange) : ConsensusChange :=
  mkConsensusChange (cc_ID cc) (cc_RevertedBlocks cc) (cc_AppliedBlocks cc)
    (cc_RevertedDiffs cc) (cc_AppliedDiffs cc) (cc_Diffs cc) target minTimestamp synced
    oldHeight newHeight.

(** The diffs with their directions flipped. *)
Definition flip_direction (dir : DiffDirection) : DiffDirection :=
  match dir with DiffApply => DiffRevert | DiffRevert => DiffApply end.
Definition flip_scod (x : SiacoinOutputDiff) : SiacoinOutputDiff :=
  mkSiacoinOutputDiff (flip_direction (scod_Direction x)) (scod_ID x) (scod_SiacoinOutput x).
Definition flip_fcd (x : FileContractDiff) : FileContractDiff :=
  mkFileContractDiff (flip_direction (fcd_Direction x)) (fcd_ID x) (fcd_FileContract x).
Definition flip_sfod (x : SiafundOutputDiff) : SiafundOutputDiff :=
  mkSiafundOutputDiff (flip_direction (sfod_Direction x)) (sfod_ID x) (sfod_SiafundOutput x).
Definition flip_dscod (x : DelayedSiacoinOutputDiff) : DelayedSiacoinOutputDiff :=
  mkDelayedSiacoinOutputDiff (flip_direction (dscod_Direction x)) (dscod_ID x)
    (dscod_SiacoinOutput x) (dscod_MaturityHeight x).
Definition flip_sfpd (x : SiafundPoolDiff) : SiafundPoolDiff :=
  mkSiafundPoolDiff (flip_direction (sfpd_Direction x)) (sfpd_Previous x) (sfpd_Adjusted x).

Definition computeConsensusChangeDiffs (pb : processedBlock) (apply : bool)
  : ConsensusChangeDiffs :=
  if apply then
    mkConsensusChangeDiffs (pb_SiacoinOutputDiffs pb) (pb_FileContractDiffs pb)
      (pb_SiafundOutputDiffs pb) (pb_DelayedSiacoinOutputDiffs pb) (pb_SiafundPoolDiffs pb)
  else
    mkConsensusChangeDiffs (reverse (flip_scod <$> pb_SiacoinOutputDiffs pb))
      (reverse (flip_fcd <$> pb_FileContractDiffs pb))
      (reverse (flip_sfod <$> pb_SiafundOutputDiffs pb))
      (reverse (flip_dscod <$> pb_DelayedSiacoinOutputDiffs pb))
      (reverse (flip_sfpd <$> pb_SiafundPoolDiffs pb)).

(** A consensus set as a thread finds it when it gets the lock. *)
Record csView (Sub : Type) := mkCsView {
  v_set : ConsensusSet;
  v_synced : bool;
  v_subscribers : list Sub
}.
Arguments mkCsView {Sub}.
Arguments v_set {Sub}.
Arguments v_synced {Sub}.
Arguments v_subscribers {Sub}.

(** A thread that subscribes: how often it has taken the lock and polled its
    channels, and the state the subscribers work on. *)
Record subscribing (T : Type) := mkSubscribing {
  sb_locks : nat;
  sb_polls : nat;
  sb_state : T
}.
Arguments mkSubscribing {T}.
Arguments sb_locks {T}.
Arguments sb_polls {T}.
Arguments sb_state {T}.

Section subscribe.
Context {B : Build} {P : Params} {C : Crypto} {E : SiaEncoding}.

(** ** Computing a change *)

(** [log.Critical] panics in a debug build. *)
Definition get_change_block (id : BlockID) : M DB processedBlock :=
  pb ← getBlockMap id;
  match pb with
  | Some pb => mret pb
  | None => _ ← panic_if DEBUG "getBlockMap failed in computeConsensusChange"; throw errNilItem
  end.

(** [ce.AppliedBlocks[len-1]] and [ce.AppliedBlocks[0]] are out of range for a
    change that applies no block, and the blocks they name are dereferenced
    even if they are not found. *)
Definition computeConsensusChange (synced : bool) (ce : changeEntry) : M DB ConsensusChange :=
  cc ← for_fold (fun _ id cc =>
      revertedBlock ← get_change_block id;
      mret (add_reverted (pb_Block revertedBlock) (pb_Height revertedBlock)
              (computeConsensusChangeDiffs revertedBlock false) cc))
    0 (ce_RevertedBlocks ce) (new_change (changeEntry_ID ce));
  cc ← for_fold (fun _ id cc =>
      appliedBlock ← get_change_block id;
      mret (add_applied (pb_Block appliedBlock) (computeConsensusChangeDiffs appliedBlock true) cc))
    0 (ce_AppliedBlocks ce) cc;
  match head (ce_AppliedBlocks ce), last (ce_AppliedBlocks ce) with
  | Some firstApplied, Some recentBlock =>
      d ← get;
      match db_BlockMap d !! recentBlock with
      | None => panic "nil processed block"
      | Some pb =>
          minTimestamp ← or_panic (minimumValidChildTimestamp (db_BlockMap d) pb);
          currentBlock ← currentBlockID;
          oldHeight ←
            (if cc_OldHeight cc =? 0 then
               match db_BlockMap d !! firstApplied with
               | None => panic "nil processed block"
               | Some firstAppliedBlock => mret (u64 (pb_Height firstAppliedBlock - 1))
               end
             else mret (cc_OldHeight cc));
          mret (set_tip (pb_ChildTarget pb) minTimestamp
                  (synced && bool_decide (recentBlock = currentBlock)) oldHeight (pb_Height pb) cc)
      end
  | _, _ => panic "index out of range"
  end.

(** ** Sending it to the subscribers *)

Section subscribers.
Context {Sub T : Type} `{EqDecision Sub}.
(** The subscriber's method, on the state that all of them share. *)
Context (ProcessConsensusChange : Sub -> ConsensusChange -> M T ()).

(** The goroutine that runs a handler is waited for before the next starts. *)
Definition updateSubscribers (subscribers : list Sub) (synced : bool) (d : DB) (ce : changeEntry)
  : M T () :=
  match subscribers with
  | [] => mret ()
  | _ =>
      match computeConsensusChange synced ce d with
      | Ret cc _ => for_each (fun subscriber => ProcessConsensusChange subscriber cc) subscribers
      | Err _ _ => panic_if DEBUG "computeConsensusChange failed"
      | Panic msg => panic msg
      end
  end.

(** ** Subscribing *)

(** What the thread finds when it takes the lock for the [n]-th time, and on
    its [n]-th poll of the channel [cancel] and of the thread group. *)
Context (views : nat -> csView Sub) (cancelled stopped : nat -> bool).

Definition lock : M (subscribing T) (csView Sub) := fun s =>
  Ret (views (sb_locks s)) (mkSubscribing (S (sb_locks s)) (sb_polls s) (sb_state s)).
Definition poll (channel : nat -> bool) : M (subscribing T) bool := fun s =>
  Ret (channel (sb_polls s)) (mkSubscribing (sb_locks s) (S (sb_polls s)) (sb_state s)).
Definition on_state {A} (m : M T A) : M (subscribing T) A := fun s =>
  match m (sb_state s) with
  | Ret a t => Ret a (mkSubscribing (sb_locks s) (sb_polls s) t)
  | Err e t => Err e (mkSubscribing (sb_locks s) (sb_polls s) t)
  | Panic msg => Panic msg
  end.
(** A read-only computation on a database. *)
Definition on_view {A} (m : M DB A) (d : DB) : M (subscribing T) A := fun s =>
  match m d with
  | Ret a _ => Ret a s
  | Err e _ => Err e s
  | Panic msg => Panic msg
  end.

Definition recentConsensusChangeID (v : csView Sub) : M (subscribing T) ConsensusChangeID :=
  match cl_tail (cs_changeLog (v_set v)) with
  | Some id => mret id
  | None => throw errNoRecentConsensusChangeID
  end.

Definition next_entry (v : csView Sub) (ce : changeEntry) : M (subscribing T) (option changeEntry) :=
  match NextEntry (cs_changeLog (v_set v)) ce with
  | Some next => mret next
  | None => panic "next entry of an unknown entry"
  end.

(** The loop inside one read of the database: at most [n] changes, and the
    entry at which the next read continues. *)
Fixpoint send_batch (subscriber : Sub) (v : csView Sub) (n : nat) (entry : changeEntry)
    (latestChangeID : ConsensusChangeID)
  : M (subscribing T) (ConsensusChangeID * option changeEntry) :=
  match n with
  | O => mret (latestChangeID, Some entry)
  | S n =>
      stop ← poll cancelled;
      if stop : bool then throw ErrStopped
      else
        cc ← on_view (computeConsensusChange (v_synced v) entry) (cs_db (v_set v));
        _ ← on_state (ProcessConsensusChange subscriber cc);
        next ← next_entry v entry;
        match next with
        | None => mret (changeEntry_ID entry, None)
        | Some entry' => send_batch subscriber v n entry' (changeEntry_ID entry)
        end
  end.

Fixpoint send_batches (fuel : nat) (subscriber : Sub) (entry : changeEntry)
    (latestChangeID : ConsensusChangeID) : M (subscribing T) ConsensusChangeID :=
  match fuel with
  | O => panic "out of fuel"
  | S fuel =>
      v ← lock;
      '(latestChangeID, next) ← send_batch subscriber v 100 entry latestChangeID;
      match next with
      | None => mret latestChangeID
      | Some entry => send_batches fuel subscriber entry latestChangeID
      end
  end.

(** The first entry the subscriber has not seen. *)
Definition first_entry (v : csView Sub) (start : ConsensusChangeID)
  : M (subscribing T) (option changeEntry) :=
  if bool_decide (start = ConsensusChangeBeginning) then mret (Some genesisEntry)
  else
    match getEntry (cs_changeLog (v_set v)) start with
    | None => throw ErrInvalidConsensusChangeID
    | Some entry => next_entry v entry
    end.

Definition managedInitializeSubscribe (fuel : nat) (subscriber : Sub) (start : ConsensusChangeID)
  : M (subscribing T) ConsensusChangeID :=
  if bool_decide (start = ConsensusChangeRecent) then v ← lock; recentConsensusChangeID v
  else
    v ← lock;
    entry ← first_entry v start;
    match entry with
    | None => mret start
    | Some entry => send_batches fuel subscriber entry (changeEntry_ID entry)
    end.

Definition stop_check : M (subscribing T) () :=
  stop ← poll stopped; check (err_if stop ErrStopped).

(** The loop ends with the lock held, so that the list of subscribers is the
    one of the view in which the new subscriber is up to date. *)
Fixpoint subscribe_loop (rounds fuel : nat) (subscriber : Sub) (start : ConsensusChangeID)
  : M (subscribing T) (csView Sub) :=
  match rounds with
  | O => panic "out of fuel"
  | S rounds =>
      start ← managedInitializeSubscribe fuel subscriber start;
      v ← lock;
      recentID ← recentConsensusChangeID v;
      if bool_decide (start = recentID) then mret v
      else
        _ ← stop_check;
        subscribe_loop rounds fuel subscriber start
  end.

(** The result is the new list of subscribers, and the view it replaces. *)
Definition ConsensusSetSubscribe (rounds fuel : nat) (subscriber : Sub) (start : ConsensusChangeID)
  : M (subscribing T) (csView Sub * list Sub) :=
  _ ← stop_check;
  v ← subscribe_loop rounds fuel subscriber start;
  _ ← panic_if (DEBUG && bool_decide (subscriber ∈ v_subscribers v))
        "refusing to double-subscribe subscriber";
  mret (v, v_subscribers v ++ [subscriber]).

(** The first occurrence goes. *)
Definition ConsensusSet_Unsubscribe (is_stopped : bool) (subscriber : Sub) (subscribers : list Sub)
  : list Sub :=
  if is_stopped then subscribers else remove_first subscriber subscribers.

End subscribers.
End subscribe.
