(* ===== verification/Journal.v ===== *)
(** * Journals of edits to a finite map

    The diffs of a block are a journal: a list of insertions and removals,
    each of which is legal where it stands.  This file has the theory the
    diffs of siacoin outputs, file contracts, siafund outputs and delayed
    outputs share: a legal journal read backwards restores the map. *)

From S2P Require Import Prelude Interfaces Types.

(** An edit: a direction, a key and a value. *)
Definition edit (K V : Type) : Type := DiffDirection * K * V.

Definition flip_dir (d : DiffDirection) : DiffDirection :=
  match d with DiffApply => DiffRevert | DiffRevert => DiffApply end.

Definition flip_edit {K V} (e : edit K V) : edit K V :=
  let '(d, k, v) := e in (flip_dir d, k, v).

Definition map_edit {K V W} (f : V -> W) (e : edit K V) : edit K W :=
  let '(d, k, v) := e in (d, k, f v).

Section journal.
Context {K : Type} `{Countable K} {V : Type}.
Implicit Types (m : gmap K V) (e : edit K V) (l : list (edit K V)).

(** What an edit does, whether legal or not. *)
Definition jput e m : gmap K V :=
  match e with
  | (DiffApply, k, v) => <[k := v]> m
  | (DiffRevert, k, _) => delete k m
  end.

(** When it is legal: only absent keys are inserted, and a key is removed
    with the value it has, as seen through [view]. *)
Definition jok (view : V -> V) e m : Prop :=
  match e with
  | (DiffApply, k, _) => m !! k = None
  | (DiffRevert, k, v) => exists w, m !! k = Some w /\ view w = v
  end.

Fixpoint jrun l m : gmap K V :=
  match l with [] => m | e :: l => jrun l (jput e m) end.

Fixpoint jlegal (view : V -> V) l m : Prop :=
  match l with [] => True | e :: l => jok view e m /\ jlegal view l (jput e m) end.

Lemma jrun_app l1 l2 m : jrun (l1 ++ l2) m = jrun l2 (jrun l1 m).
Proof. revert m. induction l1 as [|e l1 IH]; intros m; [done|]. apply IH. Qed.

Lemma jlegal_app view l1 l2 m :
  jlegal view (l1 ++ l2) m <-> jlegal view l1 m /\ jlegal view l2 (jrun l1 m).
Proof.
  revert m. induction l1 as [|e l1 IH]; intros m; cbn; [tauto|]. rewrite IH. tauto.
Qed.

Lemma jlegal_snoc view l e m :
  jlegal view (l ++ [e]) m <-> jlegal view l m /\ jok view e (jrun l m).
Proof. rewrite jlegal_app. cbn. tauto. Qed.

Lemma jrun_snoc l e m : jrun (l ++ [e]) m = jput e (jrun l m).
Proof. by rewrite jrun_app. Qed.

(** A legal edit is undone by its opposite, which is legal. *)
Lemma jput_flip e m : jok id e m -> jput (flip_edit e) (jput e m) = m.
Proof.
  destruct e as [[[] k] v]; cbn.
  - intros Hk. by rewrite delete_insert_id.
  - intros (w & Hk & <-). by rewrite insert_delete_id.
Qed.

Lemma jok_flip e m : jok id e m -> jok id (flip_edit e) (jput e m).
Proof.
  destruct e as [[[] k] v]; cbn; intros _.
  - exists v. by rewrite lookup_insert_eq.
  - apply lookup_delete_eq.
Qed.

Definition undo l : list (edit K V) := flip_edit <$> reverse l.

Lemma jrun_undo l m : jlegal id l m -> jrun (undo l) (jrun l m) = m.
Proof.
  unfold undo. revert m. induction l as [|e l IH]; intros m; cbn [jrun jlegal]; [done|].
  intros [He Hl]. rewrite reverse_cons, fmap_app, jrun_app, IH by done.
  by apply jput_flip.
Qed.

Lemma jlegal_undo l m : jlegal id l m -> jlegal id (undo l) (jrun l m).
Proof.
  unfold undo. revert m. induction l as [|e l IH]; intros m; cbn [jrun jlegal]; [done|].
  intros [He Hl]. rewrite reverse_cons, fmap_app, jlegal_app. split; [by apply IH|].
  pose proof (jrun_undo l (jput e m) Hl) as Hu. unfold undo in Hu. rewrite Hu.
  cbn. split; [|done]. by apply jok_flip.
Qed.

(** Through a view: the journal restores what the view shows. *)
Section views.
Context (view : V -> V) (view_view : forall v, view (view v) = view v).

Lemma jput_view e m : view <$> jput e m = jput (map_edit view e) (view <$> m).
Proof.
  destruct e as [[[] k] v]; cbn; [apply fmap_insert|apply fmap_delete].
Qed.

Lemma jrun_view l m : view <$> jrun l m = jrun (map_edit view <$> l) (view <$> m).
Proof.
  revert m. induction l as [|e l IH]; intros m; [done|]. cbn. by rewrite IH, jput_view.
Qed.

Lemma jok_view e m : jok view e m -> jok id (map_edit view e) (view <$> m).
Proof.
  destruct e as [[[] k] v]; cbn; rewrite lookup_fmap.
  - by intros ->.
  - intros (w & -> & <-). exists (view w). by rewrite view_view.
Qed.

Lemma jlegal_view l m :
  jlegal view l m -> jlegal id (map_edit view <$> l) (view <$> m).
Proof.
  revert m. induction l as [|e l IH]; intros m; cbn; [done|].
  intros [He Hl]. split; [by apply jok_view|]. rewrite <- jput_view. by apply IH.
Qed.

Lemma undo_view l : undo (map_edit view <$> l) = map_edit view <$> undo l.
Proof.
  unfold undo. rewrite <- fmap_reverse, <- !list_fmap_compose.
  apply list_fmap_ext. intros _ [[d k] v] _. done.
Qed.

Lemma jrun_undo_view l m n :
  jlegal view l m -> view <$> n = view <$> jrun l m ->
  view <$> jrun (undo l) n = view <$> m.
Proof.
  intros Hl Hn. rewrite jrun_view, Hn, (jrun_view l), <- undo_view.
  apply jrun_undo. by apply jlegal_view.
Qed.

End views.
End journal.

(** ** Journals and sums *)

Definition edits_in {K V} (f : V -> N) (l : list (edit K V)) : N :=
  sum_of (fun e => match e with (DiffApply, _, v) => f v | _ => 0%N end) l.
Definition edits_out {K V} (f : V -> N) (l : list (edit K V)) : N :=
  sum_of (fun e => match e with (DiffRevert, _, v) => f v | _ => 0%N end) l.

Lemma msum_jput {K} `{Countable K} {V} (f : V -> N) view (e : edit K V) (m : gmap K V) :
  (forall v, f (view v) = f v) -> jok view e m ->
  (msum f (jput e m) + edits_out f [e] = msum f m + edits_in f [e])%N.
Proof.
  intros Hf. unfold edits_in, edits_out. rewrite !sum_of_cons, !sum_of_nil.
  destruct e as [[[] k] v]; cbn.
  - intros Hk. rewrite msum_insert by done. lia.
  - intros (w & Hk & <-). rewrite (msum_delete f m k w Hk), Hf. lia.
Qed.

Lemma msum_jrun {K} `{Countable K} {V} (f : V -> N) view (l : list (edit K V)) (m : gmap K V) :
  (forall v, f (view v) = f v) -> jlegal view l m ->
  (msum f (jrun l m) + edits_out f l = msum f m + edits_in f l)%N.
Proof.
  intros Hf. revert m. induction l as [|e l IH]; intros m; cbn [jrun jlegal]; [done|].
  intros [He Hl]. specialize (IH _ Hl).
  pose proof (msum_jput f view e m Hf He) as He'.
  change (e :: l) with ([e] ++ l). unfold edits_in, edits_out in *.
  rewrite !sum_of_app. lia.
Qed.
