(* ===== verification/Agree.v ===== *)
(** * Debug builds and release builds

    The sanity checks behind [build.DEBUG] only stop a run: where a debug
    build does not panic, a release build computes the same outcome. *)

From S2P Require Import Prelude Bytes Interfaces Currency Types Params Encoding Transactions.
From S2P Require Import Signatures ValidTransaction ConsensusDB ApplyTransaction.
From S2P Require Import ConsensusValid GenerateDiffs Instances.

Open Scope Z_scope.

Definition debug_build (r : release) : Build := {| DEBUG := true; Release := r |}.
Definition release_build (r : release) : Build := {| DEBUG := false; Release := r |}.

Definition agree {S A} (md mr : M S A) : Prop :=
  forall s, (exists msg, md s = Panic msg) \/ mr s = md s.

Lemma agree_refl {S A} (m : M S A) : agree m m.
Proof. intros s. by right. Qed.

Lemma agree_bind {S A X} (md mr : M S A) (fd fr : A -> M S X) :
  agree md mr -> (forall a, agree (fd a) (fr a)) -> agree (md ≫= fd) (mr ≫= fr).
Proof.
  intros Hm Hf s. unfold mbind, M_bind. destruct (Hm s) as [[msg E]|E].
  - left. exists msg. by rewrite E.
  - rewrite E. destruct (md s) as [a s'|e s'|msg]; [apply Hf|by right|left; eauto].
Qed.

(** A check the release build leaves out. *)
Lemma agree_check {S} b msg : agree (@panic_if S b msg) (mret ()).
Proof. intros s. destruct b; [left; by exists msg|by right]. Qed.

Lemma agree_for_each {S A} (fd fr : A -> M S ()) l :
  (forall x, agree (fd x) (fr x)) -> agree (for_each fd l) (for_each fr l).
Proof.
  intros Hf. induction l as [|x l IH]; cbn; [apply agree_refl|].
  apply agree_bind; [apply Hf|done].
Qed.

Lemma agree_for_fold {S A X} (fd fr : Z -> A -> X -> M S X) i l b :
  (forall i x b, agree (fd i x b) (fr i x b)) ->
  agree (for_fold fd i l b) (for_fold fr i l b).
Proof.
  intros Hf. revert i b. induction l as [|x l IH]; intros i b; cbn; [apply agree_refl|].
  apply agree_bind; [apply Hf|intros; apply IH].
Qed.

Lemma agree_on_db {A} (md mr : M DB A) : agree md mr -> agree (on_db md) (on_db mr).
Proof.
  intros Hm s. unfold on_db. destruct (Hm (bs_db s)) as [[msg E]|E].
  - left. exists msg. by rewrite E.
  - right. by rewrite E.
Qed.

(** A computation that reads and checks, and leaves the state alone. *)
Definition silent {S A} (m : M S A) : Prop :=
  forall s, (exists msg, m s = Panic msg) \/ exists a, m s = Ret a s.

Lemma silent_bind {S A X} (m : M S A) (f : A -> M S X) :
  silent m -> (forall a, silent (f a)) -> silent (m ≫= f).
Proof.
  intros Hm Hf s. unfold mbind, M_bind.
  destruct (Hm s) as [[msg ->]|[a ->]]; [left; by exists msg|apply Hf].
Qed.

Lemma silent_ret {S A} (a : A) : silent (mret a : M S A).
Proof. intros s. right. by exists a. Qed.

Lemma silent_gets {S A} (f : S -> A) : silent (gets f).
Proof. intros s. right. by exists (f s). Qed.

Lemma silent_panic {S A} msg : silent (panic msg : M S A).
Proof. intros s. left. by exists msg. Qed.

Lemma silent_panic_if {S} b msg : silent (@panic_if S b msg).
Proof. destruct b; [apply silent_panic|apply silent_ret]. Qed.

Lemma agree_silent {S} (m : M S ()) : silent m -> agree m (mret ()).
Proof. intros Hm s. destruct (Hm s) as [[msg E]|[[] E]]; [left; by exists msg|right; by rewrite E]. Qed.

(** A computation that leaves the state alone, whether it fails or not. *)
Definition readonly {S A} (m : M S A) : Prop :=
  forall s, match m s with Ret _ s' | Err _ s' => s' = s | Panic _ => True end.

Lemma readonly_bind {S A X} (m : M S A) (f : A -> M S X) :
  readonly m -> (forall a, readonly (f a)) -> readonly (m ≫= f).
Proof.
  intros Hm Hf s. unfold mbind, M_bind. specialize (Hm s).
  destruct (m s) as [a s1|e s1|msg]; [subst s1; apply Hf|done..].
Qed.

Lemma readonly_ret {S A} (a : A) : readonly (mret a : M S A).
Proof. by intros s. Qed.
Lemma readonly_gets {S A} (f : S -> A) : readonly (gets f).
Proof. by intros s. Qed.
Lemma readonly_throw {S A} e : readonly (throw e : M S A).
Proof. by intros s. Qed.
Lemma readonly_panic {S A} msg : readonly (panic msg : M S A).
Proof. by intros s. Qed.
Lemma readonly_check {S} e : readonly (@check S e).
Proof. by destruct e. Qed.
Lemma readonly_for_each {S A} (body : A -> M S ()) l :
  (forall x, readonly (body x)) -> readonly (for_each body l).
Proof. intros Hb. induction l; cbn; [apply readonly_ret|]. by apply readonly_bind. Qed.
Lemma readonly_for_fold {S A X} (body : Z -> A -> X -> M S X) i l b :
  (forall i x b, readonly (body i x b)) -> readonly (for_fold body i l b).
Proof.
  intros Hb. revert i b. induction l; intros i b; cbn; [apply readonly_ret|].
  by apply readonly_bind; [|intros].
Qed.

Ltac readonly_run :=
  repeat lazymatch goal with
  | |- readonly (_ ≫= _) => apply readonly_bind; [|intros ?]
  | |- readonly (mret _) => apply readonly_ret
  | |- readonly (gets _) => apply readonly_gets
  | |- readonly (throw _) => apply readonly_throw
  | |- readonly (check _) => apply readonly_check
  | |- readonly (panic _) => apply readonly_panic
  | |- readonly (for_each _ _) => apply readonly_for_each; intros ?
  | |- readonly (for_fold _ _ _ _) => apply readonly_for_fold; intros ???
  | |- readonly (match ?x with _ => _ end) => destruct x
  | |- readonly blockHeight => apply readonly_gets
  | |- readonly (let '(_, _) := ?x in _) => destruct x
  end.

Create HintDb agree.

(** Compares two runs step by step. *)
Ltac agree_step :=
  lazymatch goal with
  | |- agree ?m ?m => apply agree_refl
  | |- agree (_ ≫= _) (_ ≫= _) => apply agree_bind; [|intros ?]
  | |- agree (panic_if _ _) (mret _) => apply agree_check
  | |- agree (for_each _ _) (for_each _ _) => apply agree_for_each; intros ?
  | |- agree (for_fold _ _ _ _) (for_fold _ _ _ _) => apply agree_for_fold; intros ???
  | |- agree (on_db _) (on_db _) => apply agree_on_db
  | |- agree (match ?x with _ => _ end) (match ?x with _ => _ end) => destruct x
  | |- agree _ _ => solve [eauto with agree]
  end.
Ltac agree_run :=
  intros; cbv beta zeta;
  unfold record_scod, record_fcd, record_sfod, record_dscod, record_sfpd, get_or_zero, for_index;
  cbn [DEBUG Release debug_build release_build andb negb];
  change (@panic_if ?S false ?msg) with (@mret (M S) _ _ ());
  repeat agree_step.

Section agree.
Context {P : Params} {C : Crypto} {E : SiaEncoding} (r : release).
Local Abbreviation BD := (debug_build r).
Local Abbreviation BR := (release_build r).

Lemma agree_currentBlockID  :
  agree (currentBlockID (B:=BD) ) (currentBlockID (B:=BR) ).
Proof. unfold currentBlockID. agree_run. Qed.
#[local] Hint Resolve agree_currentBlockID : agree.
Lemma agree_currentProcessedBlock  :
  agree (currentProcessedBlock (B:=BD) ) (currentProcessedBlock (B:=BR) ).
Proof. unfold currentProcessedBlock. agree_run. Qed.
#[local] Hint Resolve agree_currentProcessedBlock : agree.
Lemma agree_addSiacoinOutput id sco :
  agree (addSiacoinOutput (B:=BD) id sco) (addSiacoinOutput (B:=BR) id sco).
Proof. unfold addSiacoinOutput. agree_run. Qed.
#[local] Hint Resolve agree_addSiacoinOutput : agree.
Lemma agree_removeSiacoinOutput id :
  agree (removeSiacoinOutput (B:=BD) id) (removeSiacoinOutput (B:=BR) id).
Proof. unfold removeSiacoinOutput. agree_run. Qed.
#[local] Hint Resolve agree_removeSiacoinOutput : agree.
Lemma agree_addFileContract id fc :
  agree (addFileContract (B:=BD) id fc) (addFileContract (B:=BR) id fc).
Proof. unfold addFileContract. agree_run. Qed.
#[local] Hint Resolve agree_addFileContract : agree.
Lemma agree_addSiafundOutput id sfo :
  agree (addSiafundOutput (B:=BD) id sfo) (addSiafundOutput (B:=BR) id sfo).
Proof. unfold addSiafundOutput. agree_run. Qed.
#[local] Hint Resolve agree_addSiafundOutput : agree.
Lemma agree_removeSiafundOutput id :
  agree (removeSiafundOutput (B:=BD) id) (removeSiafundOutput (B:=BR) id).
Proof. unfold removeSiafundOutput. agree_run. Qed.
#[local] Hint Resolve agree_removeSiafundOutput : agree.
Lemma agree_getSiafundHardforkPool h :
  agree (getSiafundHardforkPool (B:=BD) h) (getSiafundHardforkPool (B:=BR) h).
Proof. unfold getSiafundHardforkPool. agree_run. Qed.
#[local] Hint Resolve agree_getSiafundHardforkPool : agree.
Lemma agree_addDSCO h id sco :
  agree (addDSCO (B:=BD) h id sco) (addDSCO (B:=BR) h id sco).
Proof. unfold addDSCO. agree_run. Qed.
#[local] Hint Resolve agree_addDSCO : agree.
Lemma agree_removeDSCO h id :
  agree (removeDSCO (B:=BD) h id) (removeDSCO (B:=BR) h id).
Proof. unfold removeDSCO. agree_run. Qed.
#[local] Hint Resolve agree_removeDSCO : agree.
Lemma agree_createDSCOBucket h :
  agree (createDSCOBucket (B:=BD) h) (createDSCOBucket (B:=BR) h).
Proof. unfold createDSCOBucket. agree_run. Qed.
#[local] Hint Resolve agree_createDSCOBucket : agree.
Lemma agree_deleteDSCOBucket h :
  agree (deleteDSCOBucket (B:=BD) h) (deleteDSCOBucket (B:=BR) h).
Proof. unfold deleteDSCOBucket. agree_run. Qed.
#[local] Hint Resolve agree_deleteDSCOBucket : agree.
Lemma agree_siafundClaim sfo :
  agree (siafundClaim (B:=BD) sfo) (siafundClaim (B:=BR) sfo).
Proof. unfold siafundClaim. agree_run. Qed.
#[local] Hint Resolve agree_siafundClaim : agree.
Lemma agree_commitSiacoinOutputDiff d dir :
  agree (commitSiacoinOutputDiff (B:=BD) d dir) (commitSiacoinOutputDiff (B:=BR) d dir).
Proof. unfold commitSiacoinOutputDiff. agree_run. Qed.
#[local] Hint Resolve agree_commitSiacoinOutputDiff : agree.
Lemma agree_commitFileContractDiff d dir :
  agree (commitFileContractDiff (B:=BD) d dir) (commitFileContractDiff (B:=BR) d dir).
Proof. unfold commitFileContractDiff. agree_run. Qed.
#[local] Hint Resolve agree_commitFileContractDiff : agree.
Lemma agree_commitSiafundOutputDiff d dir :
  agree (commitSiafundOutputDiff (B:=BD) d dir) (commitSiafundOutputDiff (B:=BR) d dir).
Proof. unfold commitSiafundOutputDiff. agree_run. Qed.
#[local] Hint Resolve agree_commitSiafundOutputDiff : agree.
Lemma agree_commitDelayedSiacoinOutputDiff d dir :
  agree (commitDelayedSiacoinOutputDiff (B:=BD) d dir) (commitDelayedSiacoinOutputDiff (B:=BR) d dir).
Proof. unfold commitDelayedSiacoinOutputDiff. agree_run. Qed.
#[local] Hint Resolve agree_commitDelayedSiacoinOutputDiff : agree.
Lemma agree_commitSiafundPoolDiff d dir :
  agree (commitSiafundPoolDiff (B:=BD) d dir) (commitSiafundPoolDiff (B:=BR) d dir).
Proof. unfold commitSiafundPoolDiff. agree_run. Qed.
#[local] Hint Resolve agree_commitSiafundPoolDiff : agree.
Lemma agree_createUpcomingDelayedOutputMaps pb dir :
  agree (createUpcomingDelayedOutputMaps (B:=BD) pb dir) (createUpcomingDelayedOutputMaps (B:=BR) pb dir).
Proof. unfold createUpcomingDelayedOutputMaps. agree_run. Qed.
#[local] Hint Resolve agree_createUpcomingDelayedOutputMaps : agree.
Lemma agree_commitNodeDiffs pb dir :
  agree (commitNodeDiffs (B:=BD) pb dir) (commitNodeDiffs (B:=BR) pb dir).
Proof. unfold commitNodeDiffs. agree_run. Qed.
#[local] Hint Resolve agree_commitNodeDiffs : agree.
Lemma agree_deleteObsoleteDelayedOutputMaps pb dir :
  agree (deleteObsoleteDelayedOutputMaps (B:=BD) pb dir) (deleteObsoleteDelayedOutputMaps (B:=BR) pb dir).
Proof. unfold deleteObsoleteDelayedOutputMaps. agree_run. Qed.
#[local] Hint Resolve agree_deleteObsoleteDelayedOutputMaps : agree.
Lemma agree_applySiacoinInputs t :
  agree (applySiacoinInputs (B:=BD) t) (applySiacoinInputs (B:=BR) t).
Proof. unfold applySiacoinInputs. agree_run. Qed.
#[local] Hint Resolve agree_applySiacoinInputs : agree.
Lemma agree_applySiacoinOutputs t :
  agree (applySiacoinOutputs (B:=BD) t) (applySiacoinOutputs (B:=BR) t).
Proof. unfold applySiacoinOutputs. agree_run. Qed.
#[local] Hint Resolve agree_applySiacoinOutputs : agree.
Lemma agree_applyFileContracts t :
  agree (applyFileContracts (B:=BD) t) (applyFileContracts (B:=BR) t).
Proof. unfold applyFileContracts. agree_run. Qed.
#[local] Hint Resolve agree_applyFileContracts : agree.
Lemma agree_applyFileContractRevisions t :
  agree (applyFileContractRevisions (B:=BD) t) (applyFileContractRevisions (B:=BR) t).
Proof. unfold applyFileContractRevisions. agree_run. Qed.
#[local] Hint Resolve agree_applyFileContractRevisions : agree.
Lemma agree_applyStorageProofs t :
  agree (applyStorageProofs (B:=BD) t) (applyStorageProofs (B:=BR) t).
Proof. unfold applyStorageProofs. agree_run. Qed.
#[local] Hint Resolve agree_applyStorageProofs : agree.
Lemma agree_applySiafundInputs t :
  agree (applySiafundInputs (B:=BD) t) (applySiafundInputs (B:=BR) t).
Proof. unfold applySiafundInputs. agree_run. Qed.
#[local] Hint Resolve agree_applySiafundInputs : agree.
Lemma agree_applySiafundOutputs t :
  agree (applySiafundOutputs (B:=BD) t) (applySiafundOutputs (B:=BR) t).
Proof. unfold applySiafundOutputs. agree_run. Qed.
#[local] Hint Resolve agree_applySiafundOutputs : agree.
Lemma agree_applyTransaction t :
  agree (applyTransaction (B:=BD) t) (applyTransaction (B:=BR) t).
Proof. unfold applyTransaction. agree_run. Qed.
#[local] Hint Resolve agree_applyTransaction : agree.
Lemma agree_applyMinerPayouts  :
  agree (applyMinerPayouts (B:=BD) ) (applyMinerPayouts (B:=BR) ).
Proof. unfold applyMinerPayouts. agree_run. Qed.
#[local] Hint Resolve agree_applyMinerPayouts : agree.
Lemma agree_applyMaturedSiacoinOutputs  :
  agree (applyMaturedSiacoinOutputs (B:=BD) ) (applyMaturedSiacoinOutputs (B:=BR) ).
Proof. unfold applyMaturedSiacoinOutputs. agree_run. Qed.
#[local] Hint Resolve agree_applyMaturedSiacoinOutputs : agree.
Lemma agree_applyMissedStorageProof id :
  agree (applyMissedStorageProof (B:=BD) id) (applyMissedStorageProof (B:=BR) id).
Proof. unfold applyMissedStorageProof. agree_run. Qed.
#[local] Hint Resolve agree_applyMissedStorageProof : agree.
Lemma agree_applyFileContractMaintenance  :
  agree (applyFileContractMaintenance (B:=BD) ) (applyFileContractMaintenance (B:=BR) ).
Proof. unfold applyFileContractMaintenance. agree_run. Qed.
#[local] Hint Resolve agree_applyFileContractMaintenance : agree.
Lemma agree_applyMaintenance  :
  agree (applyMaintenance (B:=BD) ) (applyMaintenance (B:=BR) ).
Proof. unfold applyMaintenance. agree_run. Qed.
#[local] Hint Resolve agree_applyMaintenance : agree.
Lemma agree_validStorageProofs100e3 t :
  agree (validStorageProofs100e3 (B:=BD) t) (validStorageProofs100e3 (B:=BR) t).
Proof. unfold validStorageProofs100e3. agree_run. Qed.
#[local] Hint Resolve agree_validStorageProofs100e3 : agree.
Lemma agree_validStorageProofs t :
  agree (validStorageProofs (B:=BD) t) (validStorageProofs (B:=BR) t).
Proof. unfold validStorageProofs. agree_run. Qed.
#[local] Hint Resolve agree_validStorageProofs : agree.
Lemma agree_validTransaction t :
  agree (validTransaction (B:=BD) t) (validTransaction (B:=BR) t).
Proof. unfold validTransaction. agree_run. Qed.
#[local] Hint Resolve agree_validTransaction : agree.
Lemma agree_apply_airdrop  :
  agree (apply_airdrop (B:=BD) ) (apply_airdrop (B:=BR) ).
Proof. unfold apply_airdrop. agree_run. Qed.
#[local] Hint Resolve agree_apply_airdrop : agree.
Lemma agree_apply_hardfork h :
  agree (apply_hardfork (B:=BD) h) (apply_hardfork (B:=BR) h).
Proof. unfold apply_hardfork. agree_run. Qed.
#[local] Hint Resolve agree_apply_hardfork : agree.
Lemma agree_apply_block_effects  :
  agree (apply_block_effects (B:=BD) ) (apply_block_effects (B:=BR) ).
Proof. unfold apply_block_effects. agree_run. Qed.
#[local] Hint Resolve agree_apply_block_effects : agree.

Lemma silent_currentBlockID {B : Build} : silent currentBlockID.
Proof.
  apply silent_bind; [apply silent_gets|intros h].
  apply silent_bind; [apply silent_gets|intros [id|]]; [apply silent_ret|].
  apply silent_bind; [apply silent_panic_if|intros; apply silent_ret].
Qed.

Lemma silent_commitDiffSetSanity {B : Build} pb dir : silent (commitDiffSetSanity pb dir).
Proof.
  unfold commitDiffSetSanity. destruct (negb DEBUG); [apply silent_ret|].
  apply silent_bind; [apply silent_panic_if|intros _]. destruct dir.
  - apply silent_bind; [apply silent_gets|intros [parent|]]; [|apply silent_panic].
    apply silent_bind; [apply silent_currentBlockID|intros; apply silent_panic_if].
  - apply silent_bind; [apply silent_currentBlockID|intros; apply silent_panic_if].
Qed.

Lemma agree_commitDiffSet pb dir :
  agree (commitDiffSet (B:=BD) pb dir) (commitDiffSet (B:=BR) pb dir).
Proof.
  unfold commitDiffSet. agree_run. apply agree_silent, silent_commitDiffSetSanity.
Qed.

(** C19. A debug build's sanity checks never change what a block does.  Where
    the debug build's [generateAndApplyDiff] does not panic, a release build
    rejects the block with the same error and state, or accepts it with the
    same processed block and database, apart from the consensus checksum that
    only a debug build records. *)
Theorem generateAndApplyDiff_agree s :
  match generateAndApplyDiff (B:=BD) s with
  | Panic _ => True
  | Err e s' => generateAndApplyDiff (B:=BR) s = Err e s'
  | Ret u s' => exists h,
      let pb := set_checksum h (bs_pb s') in
      generateAndApplyDiff (B:=BR) s =
        Ret u (mkBlockState
          (with_BlockMap (<[Block_ID (pb_Block (bs_pb s)) := pb]> (db_BlockMap (bs_db s')))
             (bs_db s')) pb)
  end.
Proof.
  unfold generateAndApplyDiff, on_db, modify_pb, updateCurrentPath, get, modify, mbind, mret,
    M_bind, M_ret. cbn [DEBUG debug_build release_build].
  destruct (silent_currentBlockID (B:=BD) (bs_db s)) as [[msg ->]|[id ->]]; [done|].
  destruct s as [d pb]. cbn [bs_db bs_pb]. unfold panic_if.
  destruct (bool_decide _); cbn; [done|].
  destruct (agree_apply_block_effects (mkBlockState d pb)) as [[msg ->]|Eq]; [done|].
  rewrite Eq. destruct (apply_block_effects (B:=BD) _) as [[] [d' pb']|e s'|msg]; [|done..].
  cbn. exists (pb_ConsensusChecksum pb').
  unfold with_BlockMap. cbn. rewrite insert_insert_eq. by destruct pb'.
Qed.

End agree.
