(* ===== verification/Records.v ===== *)
(** * What recording a diff does

    Every change a block makes to outputs, contracts and the siafund pool goes
    through one of five operations, which append a diff to the processed block
    and commit it.  In a debug build, whose checks make sure that the diff
    fits the database, each is a step of the relation [rstep].  This file
    shows that the functions of [ApplyTransaction] and [Maintenance] are
    sequences of such steps. *)

From S2P Require Import Prelude Bytes Interfaces Currency Types Params Encoding Transactions.
From S2P Require Import ConsensusDB ApplyTransaction Journal Agree.

Open Scope Z_scope.

(** ** Diffs as edits *)

Definition scod_edit (d : SiacoinOutputDiff) : edit Hash SiacoinOutput :=
  (scod_Direction d, scod_ID d, scod_SiacoinOutput d).
Definition fcd_edit (d : FileContractDiff) : edit Hash FileContract :=
  (fcd_Direction d, fcd_ID d, fcd_FileContract d).
Definition sfod_edit (d : SiafundOutputDiff) : edit Hash SiafundOutput :=
  (sfod_Direction d, sfod_ID d, sfod_SiafundOutput d).
Definition dscod_edit (d : DelayedSiacoinOutputDiff) : edit (Z * Hash) SiacoinOutput :=
  (dscod_Direction d, (dscod_MaturityHeight d, dscod_ID d), dscod_SiacoinOutput d).

(** The delayed outputs of all heights as one map. *)
Definition flat (m : gmap Z (gmap Hash SiacoinOutput)) : gmap (Z * Hash) SiacoinOutput :=
  map_uncurry (M1:=gmap Z) (M2:=gmap Hash) (M12:=gmap (Z * Hash)) m.

Lemma flat_lookup m h id : flat m !! (h, id) = m !! h ≫= (.!! id).
Proof. apply lookup_map_uncurry. Qed.

Definition delayed (d : DB) : gmap (Z * Hash) SiacoinOutput := flat (db_DSCO d).

(** The entries of the expiration buckets are the window ends of the
    contracts. *)
Definition expirations_ok (fcs : gmap Hash FileContract) (fcex : gmap Z (gset Hash)) : Prop :=
  forall h id, id ∈ default ∅ (fcex !! h) <->
    exists fc, fcs !! id = Some fc /\ fc_WindowEnd fc = h.

Definition fcex_ok (d : DB) : Prop := expirations_ok (db_FileContracts d) (db_FCEX d).

(** Changing one bucket of delayed outputs. *)
Definition put_dscod (d : DelayedSiacoinOutputDiff) (m : gmap Z (gmap Hash SiacoinOutput))
  : gmap Z (gmap Hash SiacoinOutput) :=
  alter (jput (dscod_Direction d, dscod_ID d, dscod_SiacoinOutput d))
    (dscod_MaturityHeight d) m.

Section records.
Context {P : Params}.

(** ** Steps *)

Inductive rstep : blockState -> blockState -> Prop :=
| rstep_scod d db pb :
    jok id (scod_edit d) (db_SiacoinOutputs db) ->
    rstep (mkBlockState db pb)
      (mkBlockState (with_SiacoinOutputs (jput (scod_edit d) (db_SiacoinOutputs db)) db)
         (append_scod d pb))
| rstep_fcd d fcex db pb :
    jok id (fcd_edit d) (db_FileContracts db) ->
    expirations_ok (jput (fcd_edit d) (db_FileContracts db)) fcex ->
    rstep (mkBlockState db pb)
      (mkBlockState
         (with_FCEX fcex (with_FileContracts (jput (fcd_edit d) (db_FileContracts db)) db))
         (append_fcd d pb))
| rstep_sfod d db pb :
    jok (dev_remap (db_BlockHeight db)) (sfod_edit d) (db_SiafundOutputs db) ->
    rstep (mkBlockState db pb)
      (mkBlockState (with_SiafundOutputs (jput (sfod_edit d) (db_SiafundOutputs db)) db)
         (append_sfod d pb))
| rstep_dscod d db pb :
    is_Some (db_DSCO db !! dscod_MaturityHeight d) ->
    jok id (dscod_edit d) (delayed db) ->
    rstep (mkBlockState db pb)
      (mkBlockState (with_DSCO (put_dscod d (db_DSCO db)) db) (append_dscod d pb))
| rstep_sfpd d db pb :
    sfpd_Direction d = DiffApply -> sfpd_Previous d = db_SiafundPool db ->
    (sfpd_Previous d <= sfpd_Adjusted d)%N ->
    rstep (mkBlockState db pb)
      (mkBlockState (with_SiafundPool (sfpd_Adjusted d) db) (append_sfpd d pb)).

(** ** Lemmas on buckets of delayed outputs *)

Lemma delayed_put d m :
  is_Some (m !! dscod_MaturityHeight d) ->
  flat (put_dscod d m) = jput (dscod_edit d) (flat m).
Proof.
  intros [b Hb]. apply map_eq. intros [h id]. unfold put_dscod, dscod_edit.
  rewrite flat_lookup.
  destruct (decide (h = dscod_MaturityHeight d)) as [->|Hh].
  - rewrite lookup_alter_eq, Hb. cbn. destruct (dscod_Direction d); cbn.
    + destruct (decide (id = dscod_ID d)) as [->|Hid].
      * by rewrite !lookup_insert_eq.
      * rewrite !lookup_insert_ne by congruence. by rewrite flat_lookup, Hb.
    + destruct (decide (id = dscod_ID d)) as [->|Hid].
      * by rewrite !lookup_delete_eq.
      * rewrite !lookup_delete_ne by congruence. by rewrite flat_lookup, Hb.
  - rewrite lookup_alter_ne by congruence.
    destruct (dscod_Direction d); cbn.
    + rewrite lookup_insert_ne by congruence. by rewrite flat_lookup.
    + rewrite lookup_delete_ne by congruence. by rewrite flat_lookup.
Qed.

Lemma alter_Some {V} (f : V -> V) (h : Z) (m : gmap Z V) b :
  m !! h = Some b -> alter f h m = <[h := f b]> m.
Proof.
  intros Hb. apply map_eq. intros h'. destruct (decide (h = h')) as [<-|Hh].
  - by rewrite lookup_alter_eq, lookup_insert_eq, Hb.
  - by rewrite lookup_alter_ne, lookup_insert_ne.
Qed.

Lemma dom_put d m : dom (put_dscod d m) = dom m.
Proof. apply dom_alter_L. Qed.

(** The map and the set of heights determine the buckets. *)
Lemma dsco_eq (m1 m2 : gmap Z (gmap Hash SiacoinOutput)) :
  flat m1 = flat m2 -> dom m1 = dom m2 -> m1 = m2.
Proof.
  intros Hf Hd. apply map_eq. intros h.
  destruct (m1 !! h) as [b1|] eqn:H1, (m2 !! h) as [b2|] eqn:H2.
  - f_equal. apply map_eq. intros id.
    assert (Hl : flat m1 !! (h, id) = flat m2 !! (h, id)) by congruence.
    rewrite !flat_lookup, H1, H2 in Hl. exact Hl.
  - assert (h ∈ dom m2) as Hin by (rewrite <- Hd; apply elem_of_dom; eauto).
    apply elem_of_dom in Hin as [? Hin]. congruence.
  - assert (h ∈ dom m1) as Hin by (rewrite Hd; apply elem_of_dom; eauto).
    apply elem_of_dom in Hin as [? Hin]. congruence.
  - done.
Qed.

(** ** Lemmas on expirations *)

Lemma expirations_add fcs fcex id fc :
  expirations_ok fcs fcex -> fcs !! id = None ->
  expirations_ok (<[id := fc]> fcs)
    (<[fc_WindowEnd fc := {[id]} ∪ default ∅ (fcex !! fc_WindowEnd fc)]> fcex).
Proof.
  unfold expirations_ok. intros Hok Hid h id'.
  destruct (decide (h = fc_WindowEnd fc)) as [->|Hh].
  - rewrite lookup_insert_eq. cbn. rewrite elem_of_union, elem_of_singleton, Hok.
    destruct (decide (id' = id)) as [->|Hne].
    + rewrite lookup_insert_eq. split; [intros _; eauto|by left].
    + rewrite lookup_insert_ne by congruence. split; [intros [?|?]; [done|done]|by right].
  - rewrite lookup_insert_ne, Hok by congruence.
    destruct (decide (id' = id)) as [->|Hne].
    + rewrite lookup_insert_eq, Hid. split; [intros (? & ? & ?); done|].
      intros (? & [= <-] & ?). congruence.
    + by rewrite lookup_insert_ne.
Qed.

Lemma expirations_remove fcs fcex id fc :
  expirations_ok fcs fcex -> fcs !! id = Some fc ->
  expirations_ok (delete id fcs)
    (<[fc_WindowEnd fc := default ∅ (fcex !! fc_WindowEnd fc) ∖ {[id]}]> fcex).
Proof.
  unfold expirations_ok. intros Hok Hid h id'.
  destruct (decide (id' = id)) as [->|Hne].
  - rewrite lookup_delete_eq. split; [|by intros (? & ? & _)].
    destruct (decide (h = fc_WindowEnd fc)) as [->|Hh].
    + rewrite lookup_insert_eq. cbn. set_solver.
    + rewrite lookup_insert_ne, Hok by congruence. intros (? & ? & ?). congruence.
  - rewrite lookup_delete_ne, <- Hok by congruence.
    destruct (decide (h = fc_WindowEnd fc)) as [->|Hh].
    + rewrite lookup_insert_eq. cbn. set_solver.
    + by rewrite lookup_insert_ne.
Qed.

(** An expired bucket is gone once its contracts are. *)
Lemma expirations_delete fcs fcex h :
  expirations_ok fcs fcex -> default ∅ (fcex !! h) = ∅ ->
  expirations_ok fcs (delete h fcex).
Proof.
  unfold expirations_ok. intros Hok He h' id. rewrite <- Hok.
  destruct (decide (h' = h)) as [->|Hh].
  - by rewrite lookup_delete_eq, He.
  - by rewrite lookup_delete_ne.
Qed.

(** ** The five operations in a debug build *)

Section debug.
Context {C : Crypto} {E : SiaEncoding} (r : release).
#[local] Hint Extern 0 Build => exact (debug_build r) : typeclass_instances.

Lemma same_dir_AA : same_dir DiffApply DiffApply = true.
Proof. done. Qed.
Lemma same_dir_RA : same_dir DiffRevert DiffApply = false.
Proof. done. Qed.

Ltac run_record H :=
  unfold on_db, modify_pb, modify, get, gets, panic_if, panic, mbind, mret, M_bind, M_ret in H;
  cbn in H.

Lemma record_scod_Ret d s u s' :
  record_scod d s = Ret u s' ->
  (scod_Direction d = DiffRevert ->
   db_SiacoinOutputs (bs_db s) !! scod_ID d = Some (scod_SiacoinOutput d)) ->
  jok id (scod_edit d) (db_SiacoinOutputs (bs_db s)) /\
  s' = mkBlockState
         (with_SiacoinOutputs (jput (scod_edit d) (db_SiacoinOutputs (bs_db s))) (bs_db s))
         (append_scod d (bs_pb s)).
Proof.
  intros H Hv. unfold record_scod, commitSiacoinOutputDiff, addSiacoinOutput,
    removeSiacoinOutput, isSiacoinOutput in H. run_record H.
  destruct d as [[] k v]; cbn in *; rewrite ?same_dir_AA, ?same_dir_RA in H; cbn in H.
  - destruct (db_SiacoinOutputs (bs_db s) !! k) eqn:Hk; [done|]. cbn in H.
    by injection H as <- <-.
  - rewrite Hv in H |- * by done. cbn in H. injection H as <- <-. split; [|done]. by exists v.
Qed.

Lemma record_sfod_Ret d s u s' :
  record_sfod d s = Ret u s' ->
  (sfod_Direction d = DiffRevert ->
   dev_remap (db_BlockHeight (bs_db s)) <$> db_SiafundOutputs (bs_db s) !! sfod_ID d
     = Some (sfod_SiafundOutput d)) ->
  jok (dev_remap (db_BlockHeight (bs_db s))) (sfod_edit d) (db_SiafundOutputs (bs_db s)) /\
  s' = mkBlockState
         (with_SiafundOutputs (jput (sfod_edit d) (db_SiafundOutputs (bs_db s))) (bs_db s))
         (append_sfod d (bs_pb s)).
Proof.
  intros H Hv. unfold record_sfod, commitSiafundOutputDiff, addSiafundOutput,
    removeSiafundOutput in H. run_record H.
  destruct d as [[] k v]; cbn in *; rewrite ?same_dir_AA, ?same_dir_RA in H; cbn in H.
  - destruct (Currency.IsZero (sfo_Value v)); [done|]. cbn in H.
    destruct (db_SiafundOutputs (bs_db s) !! k) eqn:Hk; [done|]. cbn in H.
    by injection H as <- <-.
  - specialize (Hv eq_refl). destruct (db_SiafundOutputs (bs_db s) !! k) as [w|] eqn:Hk; [|done].
    cbn in H. injection H as <- <-. split; [|done]. exists w. by injection Hv.
Qed.

Lemma record_dscod_Ret d s u s' :
  record_dscod d s = Ret u s' ->
  (dscod_Direction d = DiffRevert ->
   delayed (bs_db s) !! (dscod_MaturityHeight d, dscod_ID d) = Some (dscod_SiacoinOutput d)) ->
  is_Some (db_DSCO (bs_db s) !! dscod_MaturityHeight d) /\
  jok id (dscod_edit d) (delayed (bs_db s)) /\
  s' = mkBlockState (with_DSCO (put_dscod d (db_DSCO (bs_db s))) (bs_db s))
         (append_dscod d (bs_pb s)).
Proof.
  intros H Hv. unfold record_dscod, commitDelayedSiacoinOutputDiff, addDSCO, removeDSCO,
    isSiacoinOutput, nil_bucket in H. run_record H.
  destruct d as [dir k v h]; unfold put_dscod, delayed in *; cbn in *.
  destruct (db_DSCO (bs_db s) !! h) as [b|] eqn:Hb.
  - assert (Ha : forall f, alter f h (db_DSCO (bs_db s)) = <[h := f b]> (db_DSCO (bs_db s))).
    { intros f. by apply alter_Some. }
    rewrite !Ha. destruct dir; cbn in *; rewrite ?same_dir_AA, ?same_dir_RA in H; cbn in H.
    + destruct (bool_decide _); [done|]. cbn in H. rewrite Hb in H.
      destruct (b !! k) eqn:Hk; cbn in H; [done|]. injection H as <- <-.
      split_and!; [done| |done]. by rewrite flat_lookup, Hb.
    + rewrite flat_lookup, Hb in Hv. cbn in Hv. rewrite Hb in H. cbn in H.
      rewrite Hv in H by done. cbn in H. injection H as <- <-. split_and!; [done| |done].
      exists v. rewrite flat_lookup, Hb. cbn. rewrite Hv; done.
  - destruct dir; rewrite ?same_dir_AA, ?same_dir_RA in H; cbn in H; [destruct (bool_decide _) in H; [done|]; cbn in H|]; by rewrite Hb in H.
Qed.

Lemma record_fcd_Ret d s u s' :
  fcex_ok (bs_db s) ->
  record_fcd d s = Ret u s' ->
  (fcd_Direction d = DiffRevert ->
   db_FileContracts (bs_db s) !! fcd_ID d = Some (fcd_FileContract d)) ->
  jok id (fcd_edit d) (db_FileContracts (bs_db s)) /\
  exists fcex,
    expirations_ok (jput (fcd_edit d) (db_FileContracts (bs_db s))) fcex /\
    s' = mkBlockState
           (with_FCEX fcex
              (with_FileContracts (jput (fcd_edit d) (db_FileContracts (bs_db s))) (bs_db s)))
           (append_fcd d (bs_pb s)).
Proof.
  intros Hok H Hv. unfold record_fcd, commitFileContractDiff, addFileContract,
    removeFileContract, getFileContract, nil_bucket in H. run_record H.
  destruct d as [[] k v]; cbn in *; rewrite ?same_dir_AA, ?same_dir_RA in H; cbn in H.
  - destruct (Currency.IsZero (fc_Payout v)); [done|]. cbn in H.
    destruct (db_FileContracts (bs_db s) !! k) eqn:Hk; [done|]. cbn in H.
    injection H as <- <-. split; [done|]. eexists. split; [|done].
    by apply expirations_add.
  - rewrite Hv in H by done. cbn in H.
    destruct (db_FCEX (bs_db s) !! fc_WindowEnd v) as [b|] eqn:Hb; [|done].
    destruct (negb (bool_decide (k ∈ b))); [done|]. cbn in H. injection H as <- <-.
    split; [exists v; by rewrite Hv|]. eexists. split; [|done].
    pose proof (expirations_remove _ _ k v Hok (Hv eq_refl)) as Hx.
    by rewrite Hb in Hx.
Qed.

Lemma record_sfpd_Ret d s u s' :
  record_sfpd d s = Ret u s' ->
  sfpd_Direction d = DiffApply /\ sfpd_Previous d = db_SiafundPool (bs_db s) /\
  (sfpd_Previous d <= sfpd_Adjusted d)%N /\
  s' = mkBlockState (with_SiafundPool (sfpd_Adjusted d) (bs_db s)) (append_sfpd d (bs_pb s)).
Proof.
  intros H. unfold record_sfpd, commitSiafundPoolDiff, getSiafundPool, setSiafundPool in H.
  run_record H. rewrite Cmp_ltb in H.
  destruct (N.ltb_spec (sfpd_Adjusted d) (sfpd_Previous d)); [done|]. cbn in H.
  destruct (sfpd_Direction d); rewrite ?same_dir_AA, ?same_dir_RA in H; cbn in H; [|done].
  destruct (Currency.Equals _ _) eqn:Heq; cbn in H; [|done].
  apply Equals_true in Heq. by injection H as <- <-.
Qed.

End debug.
End records.
