(* ===== verification/Steps.v ===== *)
(** * Blocks as sequences of recorded diffs

    In a debug build, applying transactions and maintaining a block are
    sequences of steps [rstep] around the creation and removal of buckets. *)

From S2P Require Import Prelude Bytes Interfaces Currency Types Params Encoding Transactions.
From S2P Require Import ConsensusDB ApplyTransaction ConsensusValid GenerateDiffs.
From S2P Require Import Journal Agree Records.

Open Scope Z_scope.

Lemma on_db_Ret {A} (m : M DB A) s a s' :
  on_db m s = Ret a s' <->
  exists d, m (bs_db s) = Ret a d /\ s' = mkBlockState d (bs_pb s).
Proof.
  unfold on_db. destruct (m (bs_db s)); (split; [intros [=]|intros (d' & [=] & Hs)]);
    subst; eauto.
Qed.

Lemma silent_Ret {S A} (m : M S A) s a s' : silent m -> m s = Ret a s' -> s' = s.
Proof. intros Hm Hr. destruct (Hm s) as [[msg E]|[x E]]; congruence. Qed.

Lemma mkBlockState_eta s : mkBlockState (bs_db s) (bs_pb s) = s.
Proof. by destruct s. Qed.

(** Reading the database inside a block leaves the state alone. *)
Lemma on_db_silent {A} (m : M DB A) s a s' :
  silent m -> on_db m s = Ret a s' -> s' = s /\ m (bs_db s) = Ret a (bs_db s).
Proof.
  intros Hm (d & Hd & ->)%on_db_Ret.
  pose proof (silent_Ret m _ _ _ Hm Hd) as ->. by rewrite mkBlockState_eta.
Qed.

Section steps.
Context {P : Params} {C : Crypto} {E : SiaEncoding} (r : release).
#[local] Hint Extern 0 Build => exact (debug_build r) : typeclass_instances.

Definition steps : blockState -> blockState -> Prop := rtc rstep.

(** ** Invariants of steps *)

Lemma rstep_fcex s s' : rstep s s' -> fcex_ok (bs_db s) -> fcex_ok (bs_db s').
Proof. by destruct 1. Qed.

Lemma steps_fcex s s' : steps s s' -> fcex_ok (bs_db s) -> fcex_ok (bs_db s').
Proof. induction 1; eauto using rstep_fcex. Qed.

(** What no diff changes. *)
Definition rest (d : DB) :=
  (db_BlockHeight d, db_BlockMap d, db_BlockPath d, db_SiafundHardforkPool d,
   db_LegacyHardforkPool d, db_Oak d, db_OakInit d, db_Inconsistent d, dom (db_DSCO d)).
Definition pb_rest (pb : processedBlock) :=
  (pb_Block pb, pb_Height pb, pb_Depth pb, pb_ChildTarget pb, pb_DiffsGenerated pb,
   pb_ConsensusChecksum pb).

Lemma rstep_rest s s' :
  rstep s s' -> rest (bs_db s') = rest (bs_db s) /\ pb_rest (bs_pb s') = pb_rest (bs_pb s).
Proof. destruct 1; unfold rest; cbn; rewrite ?dom_put; done. Qed.

Lemma steps_rest s s' :
  steps s s' -> rest (bs_db s') = rest (bs_db s) /\ pb_rest (bs_pb s') = pb_rest (bs_pb s).
Proof.
  induction 1 as [|s1 s2 s3 H12 _ [IH1 IH2]]; [done|].
  destruct (rstep_rest _ _ H12) as [H1 H2]. split; congruence.
Qed.

(** ** Loops *)

Lemma for_each_steps {A} (body : A -> M blockState ()) l s s' :
  (forall x s s', x ∈ l -> fcex_ok (bs_db s) -> body x s = Ret () s' -> steps s s') ->
  fcex_ok (bs_db s) -> for_each body l s = Ret () s' -> steps s s'.
Proof.
  intros Hbody Hok Hrun.
  apply (for_each_inv body (fun s1 => steps s s1) l s); [|reflexivity|done].
  intros x s1 s2 Hx H1 H2. etrans; [exact H1|].
  apply (Hbody x); [done| |done]. by eapply steps_fcex.
Qed.

Lemma for_index_each {S A} (body : Z -> A -> M S ()) l s u s' :
  for_index body l s = Ret u s' ->
  for_each (fun ix => body ix.1 ix.2) (zip (seqZ 0 (Z.of_nat (length l))) l) s = Ret () s'.
Proof.
  unfold for_index. generalize 0. revert s. destruct u.
  induction l as [|x l IH]; intros s i; [done|].
  rewrite for_fold_cons. cbn [length]. rewrite Nat2Z.inj_succ.
  rewrite seqZ_cons by lia. rewrite Z.pred_succ. cbn [zip zip_with for_each].
  unfold mbind, M_bind. cbn. destruct (body i x s) as [[] s1|e s1|msg]; [|done..].
  intros Hrun. rewrite <- Z.add_1_r. by apply IH.
Qed.

Lemma for_index_steps {A} (body : Z -> A -> M blockState ()) l s s' u :
  (forall i x s s', x ∈ l -> fcex_ok (bs_db s) -> body i x s = Ret () s' -> steps s s') ->
  fcex_ok (bs_db s) -> for_index body l s = Ret u s' -> steps s s'.
Proof.
  intros Hbody Hok Hrun%for_index_each. eapply for_each_steps; [|done|exact Hrun].
  intros [i x] s1 s2 Hx. apply Hbody.
  apply elem_of_zip_r in Hx. exact Hx.
Qed.

(** ** Single operations *)

Lemma get_or_zero_Ret {A} (f : DB -> option A) zero s x s' :
  get_or_zero (gets f) zero s = Ret x s' -> f (bs_db s) = Some x /\ s' = s.
Proof.
  unfold get_or_zero, on_db, gets, mbind, M_bind, mret, M_ret, panic_if, panic.
  cbn. destruct (f (bs_db s)); cbn; [|done]. intros [= <- <-]. by rewrite mkBlockState_eta.
Qed.

Lemma silent_getSiafundHardforkPool h : silent (getSiafundHardforkPool h).
Proof.
  intros d. unfold getSiafundHardforkPool, get, mbind, M_bind, mret, M_ret, panic_if, panic.
  cbn. repeat case_match; eauto.
Qed.

Lemma silent_siafundClaim sfo : silent (siafundClaim sfo).
Proof.
  unfold siafundClaim. apply silent_bind; [apply silent_gets|intros h].
  do 2 (apply silent_bind;
    [destruct (_ <? h);
       [apply silent_bind; [apply silent_getSiafundHardforkPool|intros; apply silent_ret]
       |apply silent_ret]|intros ?]).
  apply silent_bind; [apply silent_gets|intros; apply silent_ret].
Qed.

Lemma scod_steps d s u s' :
  record_scod d s = Ret u s' ->
  (scod_Direction d = DiffRevert ->
   db_SiacoinOutputs (bs_db s) !! scod_ID d = Some (scod_SiacoinOutput d)) ->
  steps s s'.
Proof.
  intros Hr Hv. destruct (record_scod_Ret r d s u s' Hr Hv) as [Hj ->].
  apply rtc_once. destruct s. by constructor.
Qed.

Lemma sfod_steps d s u s' :
  record_sfod d s = Ret u s' ->
  (sfod_Direction d = DiffRevert ->
   dev_remap (db_BlockHeight (bs_db s)) <$> db_SiafundOutputs (bs_db s) !! sfod_ID d
     = Some (sfod_SiafundOutput d)) ->
  steps s s'.
Proof.
  intros Hr Hv. destruct (record_sfod_Ret r d s u s' Hr Hv) as [Hj ->].
  apply rtc_once. destruct s. by constructor.
Qed.

Lemma dscod_steps d s u s' :
  record_dscod d s = Ret u s' ->
  (dscod_Direction d = DiffRevert ->
   delayed (bs_db s) !! (dscod_MaturityHeight d, dscod_ID d) = Some (dscod_SiacoinOutput d)) ->
  steps s s'.
Proof.
  intros Hr Hv. destruct (record_dscod_Ret r d s u s' Hr Hv) as (Hb & Hj & ->).
  apply rtc_once. destruct s. by constructor.
Qed.

Lemma fcd_steps d s u s' :
  fcex_ok (bs_db s) -> record_fcd d s = Ret u s' ->
  (fcd_Direction d = DiffRevert ->
   db_FileContracts (bs_db s) !! fcd_ID d = Some (fcd_FileContract d)) ->
  steps s s'.
Proof.
  intros Hok Hr Hv. destruct (record_fcd_Ret r d s u s' Hok Hr Hv) as (Hj & fcex & Hx & ->).
  apply rtc_once. destruct s. by constructor.
Qed.

Lemma sfpd_steps d s u s' : record_sfpd d s = Ret u s' -> steps s s'.
Proof.
  intros Hr. destruct (record_sfpd_Ret r d s u s' Hr) as (H1 & H2 & H3 & ->).
  apply rtc_once. destruct s. by constructor.
Qed.

(** ** Transactions *)

Lemma applySiacoinInputs_steps t s s' :
  fcex_ok (bs_db s) -> applySiacoinInputs t s = Ret () s' -> steps s s'.
Proof.
  apply for_each_steps. clear. intros sci s s' _ _ Hrun. inv_run.
  match goal with H : get_or_zero _ _ _ = _ |- _ =>
    apply get_or_zero_Ret in H as [Hv ->] end.
  by eapply scod_steps; [eassumption|].
Qed.

Lemma applySiacoinOutputs_steps t s s' :
  fcex_ok (bs_db s) -> applySiacoinOutputs t s = Ret () s' -> steps s s'.
Proof.
  apply for_index_steps. clear. intros i sco s s' _ _ Hrun.
  by eapply scod_steps; [eassumption|].
Qed.

Lemma applyFileContracts_steps t s s' :
  fcex_ok (bs_db s) -> applyFileContracts t s = Ret () s' -> steps s s'.
Proof.
  apply for_index_steps. clear. intros i fc s s' _ Hok Hrun. inv_run.
  match goal with H : record_fcd _ _ = _ |- _ =>
    pose proof (fcd_steps _ _ _ _ Hok H ltac:(done)) as Hfc end.
  repeat match goal with H : on_db _ _ = _ |- _ =>
    apply on_db_silent in H as [-> H]; [|apply silent_gets] end.
  etrans; [exact Hfc|]. by eapply sfpd_steps.
Qed.

Lemma applyFileContractRevisions_steps t s s' :
  fcex_ok (bs_db s) -> applyFileContractRevisions t s = Ret () s' -> steps s s'.
Proof.
  apply for_each_steps. clear. intros fcr s s' _ Hok Hrun. inv_run.
  match goal with H : get_or_zero _ _ _ = _ |- _ =>
    apply get_or_zero_Ret in H as [Hv ->] end.
  match goal with H1 : record_fcd _ s = Ret _ ?s1, H2 : record_fcd _ ?s1 = _ |- _ =>
    pose proof (fcd_steps _ _ _ _ Hok H1 ltac:(done)) as Hfc;
    etrans; [exact Hfc|]; eapply fcd_steps; [by eapply steps_fcex|exact H2|done] end.
Qed.

Lemma applyStorageProofs_steps t s s' :
  fcex_ok (bs_db s) -> applyStorageProofs t s = Ret () s' -> steps s s'.
Proof.
  apply for_each_steps. clear. intros sp s s' _ Hok Hrun. inv_run.
  match goal with H : get_or_zero _ _ _ = _ |- _ =>
    apply get_or_zero_Ret in H as [Hv ->] end.
  match goal with H : for_index _ _ s = Ret _ ?s1, H2 : record_fcd _ ?s1 = _ |- _ =>
    rename H into Hloop; rename H2 into Hfc; rename s1 into sm end.
  assert (Hs : steps s sm /\ db_FileContracts (bs_db sm) = db_FileContracts (bs_db s)).
  { apply for_index_each in Hloop.
    apply (for_each_inv _ (fun s1 => steps s s1 /\
             db_FileContracts (bs_db s1) = db_FileContracts (bs_db s)) _ _ _) in Hloop;
      [exact Hloop| |split; [reflexivity|done]].
    intros [i vpo] s2 s3 _ [H12 Heq] Hrun. inv_run. cbn in *.
    match goal with H : record_dscod _ _ = _ |- _ =>
      pose proof (dscod_steps _ _ _ _ H ltac:(done)) as Hd;
      apply record_dscod_Ret in H as (_ & _ & ->); [|done] end.
    split; [by etrans|exact Heq]. }
  destruct Hs as [Hs Heq]. etrans; [exact Hs|].
  eapply fcd_steps; [by eapply steps_fcex|exact Hfc|]. intros _. cbn. by rewrite Heq.
Qed.

Lemma applySiafundInputs_steps t s s' :
  fcex_ok (bs_db s) -> applySiafundInputs t s = Ret () s' -> steps s s'.
Proof.
  apply for_each_steps. clear. intros sfi s s' _ Hok Hrun. inv_run.
  match goal with H : get_or_zero _ _ _ = _ |- _ =>
    apply get_or_zero_Ret in H as [Hv ->] end.
  match goal with H : on_db (siafundClaim _) _ = _ |- _ =>
    apply on_db_silent in H as [-> H]; [|apply silent_siafundClaim] end.
  match goal with H1 : record_dscod _ s = Ret _ ?s1, H2 : record_sfod _ ?s1 = _ |- _ =>
    pose proof (dscod_steps _ _ _ _ H1 ltac:(done)) as Hd;
    apply record_dscod_Ret in H1 as (_ & _ & ->); [|done];
    etrans; [exact Hd|]; eapply sfod_steps; [exact H2|] end.
  intros _. exact Hv.
Qed.

Lemma applySiafundOutputs_steps t s s' :
  fcex_ok (bs_db s) -> applySiafundOutputs t s = Ret () s' -> steps s s'.
Proof.
  apply for_index_steps. clear. intros i sfo s s' _ Hok Hrun. inv_run.
  match goal with H : on_db _ _ = _ |- _ =>
    apply on_db_silent in H as [-> H]; [|apply silent_gets] end.
  by eapply sfod_steps; [eassumption|].
Qed.

Lemma applyTransaction_steps t s s' :
  fcex_ok (bs_db s) -> applyTransaction t s = Ret () s' -> steps s s'.
Proof.
  intros Hok Hrun. unfold applyTransaction in Hrun. inv_run.
  repeat match goal with
  | Hk : fcex_ok (bs_db ?s1), H : _ t ?s1 = Ret () ?s2 |- _ =>
      lazymatch goal with
      | _ : fcex_ok (bs_db s2) |- _ => fail
      | _ =>
        assert (steps s1 s2) by (eauto using applySiacoinInputs_steps, applySiacoinOutputs_steps,
          applyFileContracts_steps, applyFileContractRevisions_steps, applyStorageProofs_steps,
          applySiafundInputs_steps, applySiafundOutputs_steps);
        assert (fcex_ok (bs_db s2)) by (eapply steps_fcex; eassumption)
      end
  end.
  repeat (etrans; [eassumption|]). done.
Qed.

(** ** Maintenance *)

(** Delayed outputs that are added touch nothing else. *)
Lemma dscods_apply_steps ds s s' :
  Forall (fun d => dscod_Direction d = DiffApply) ds ->
  for_each record_dscod ds s = Ret () s' ->
  steps s s' /\ db_FileContracts (bs_db s') = db_FileContracts (bs_db s) /\
  db_FCEX (bs_db s') = db_FCEX (bs_db s).
Proof.
  intros Hds Hrun.
  apply (for_each_inv _ (fun s1 => steps s s1 /\
    db_FileContracts (bs_db s1) = db_FileContracts (bs_db s) /\
    db_FCEX (bs_db s1) = db_FCEX (bs_db s))) in Hrun; [exact Hrun| |by split; [reflexivity|]].
  intros d s1 s2 Hd (H1 & H2 & H3) Hd'. rewrite Forall_forall in Hds. apply Hds in Hd.
  assert (Hv : dscod_Direction d = DiffRevert -> delayed (bs_db s1) !!
    (dscod_MaturityHeight d, dscod_ID d) = Some (dscod_SiacoinOutput d)) by congruence.
  pose proof (dscod_steps _ _ _ _ Hd' Hv) as Hs.
  destruct (record_dscod_Ret r _ _ _ _ Hd' Hv) as (_ & _ & ->).
  split; [by etrans|done].
Qed.

Lemma applyMinerPayouts_steps s s' :
  fcex_ok (bs_db s) -> applyMinerPayouts s = Ret () s' -> steps s s'.
Proof.
  intros Hok Hrun. unfold applyMinerPayouts in Hrun. inv_run.
  eapply for_index_steps; [|exact Hok|eassumption].
  intros i o s1 s2 _ _ Hd. by apply (dscod_steps _ _ _ _ Hd).
Qed.

Lemma bucket_entries_perm {V} (m : gmap Hash V) : bucket_entries m ≡ₚ map_to_list m.
Proof. apply merge_sort_Permutation. Qed.

Lemma bucket_entries_NoDup {V} (m : gmap Hash V) : NoDup (fst <$> bucket_entries m).
Proof.
  rewrite (fmap_Permutation fst _ _ (bucket_entries_perm m)). apply NoDup_fst_map_to_list.
Qed.

Lemma bucket_entries_map {V} (m : gmap Hash V) : list_to_map (bucket_entries m) = m.
Proof.
  rewrite <- (list_to_map_to_list m) at 2.
  apply list_to_map_proper; [apply bucket_entries_NoDup|apply bucket_entries_perm].
Qed.

(** Outputs that mature enter the set of outputs. *)
Lemma matured_scods_steps entries s s' :
  for_each record_scod (matured_scod <$> entries) s = Ret () s' ->
  steps s s' /\ db_DSCO (bs_db s') = db_DSCO (bs_db s).
Proof.
  intros Hrun.
  apply (for_each_inv _ (fun s1 => steps s s1 /\ db_DSCO (bs_db s1) = db_DSCO (bs_db s)))
    in Hrun; [exact Hrun| |by split; [reflexivity|]].
  intros d s1 s2 Hd (H1 & H2) Hd'. apply list_elem_of_fmap in Hd as (kv & -> & _).
  pose proof (scod_steps _ _ _ _ Hd' ltac:(done)) as Hs.
  apply record_scod_Ret in Hd' as (_ & ->); [|done].
  split; [by etrans|done].
Qed.

(** They leave the bucket they waited in empty. *)
Lemma matured_dscods_steps h entries s s' :
  NoDup (fst <$> entries) -> db_DSCO (bs_db s) !! h = Some (list_to_map entries) ->
  for_each record_dscod (matured_dscod h <$> entries) s = Ret () s' ->
  steps s s' /\ db_DSCO (bs_db s') !! h = Some ∅.
Proof.
  revert s. induction entries as [|[k v] entries IH]; intros s Hnd Hb Hrun.
  - injection Hrun as <-. split; [reflexivity|exact Hb].
  - cbn [fmap list_fmap for_each] in Hrun. inv_run.
    apply NoDup_cons in Hnd as [Hk Hnd]. cbn in Hk.
    match goal with H : record_dscod _ s = Ret _ ?s1, H2 : for_each _ _ ?s1 = _ |- _ =>
      rename H into Hd; rename H2 into Hrest end.
    assert (Hv : delayed (bs_db s) !! (h, k) = Some v).
    { unfold delayed. rewrite flat_lookup, Hb. cbn. by rewrite lookup_insert_eq. }
    pose proof (dscod_steps _ _ _ _ Hd (fun _ => Hv)) as Hs.
    apply record_dscod_Ret in Hd as (_ & _ & ->); [|intros _; exact Hv].
    apply IH in Hrest as [Hs2 Hend]; [|done|].
    + split; [by etrans|done].
    + cbn. unfold put_dscod. rewrite (alter_Some _ _ _ _ Hb). cbn.
      rewrite lookup_insert_eq. f_equal. apply delete_insert_id.
      by apply not_elem_of_list_to_map_1.
Qed.

Lemma silent_for_each {S A} (body : A -> M S ()) l :
  (forall x, silent (body x)) -> silent (for_each body l).
Proof.
  intros Hb. induction l; cbn; [apply silent_ret|]. by apply silent_bind.
Qed.

Lemma silent_for_fold {S A X} (body : Z -> A -> X -> M S X) i l b :
  (forall i x b, silent (body i x b)) -> silent (for_fold body i l b).
Proof.
  intros Hb. revert i b. induction l; intros i b; cbn; [apply silent_ret|].
  by apply silent_bind; [|intros].
Qed.

Lemma silent_on_db {A} (m : M DB A) : silent m -> silent (on_db m).
Proof.
  intros Hm s. unfold on_db. destruct (Hm (bs_db s)) as [[msg ->]|[a ->]]; [eauto|].
  rewrite mkBlockState_eta. eauto.
Qed.

(** A bucket of delayed outputs that no longer exists. *)
Definition drop_dsco (h : BlockHeight) (s : blockState) : blockState :=
  mkBlockState (with_DSCO (delete h (db_DSCO (bs_db s))) (bs_db s)) (bs_pb s).

Lemma applyMaturedSiacoinOutputs_cases s s' :
  applyMaturedSiacoinOutputs s = Ret () s' ->
  let h := pb_Height (bs_pb s) in
  if (h <? MaturityDelay)%Z then s' = s
  else exists bucket s1 s2, db_DSCO (bs_db s) !! h = Some bucket /\
    for_each record_scod (matured_scod <$> bucket_entries bucket) s = Ret () s1 /\
    for_each record_dscod (matured_dscod h <$> bucket_entries bucket) s1 = Ret () s2 /\
    on_db (deleteDSCOBucket h) s2 = Ret () s'.
Proof.
  intros Hrun h. unfold applyMaturedSiacoinOutputs in Hrun. inv_run.
  match goal with H : (if _ then _ else _) _ = _ |- _ => rename H into Hrun end.
  fold h in Hrun. destruct (h <? MaturityDelay); [by inv_run|].
  destruct (db_DSCO (bs_db s) !! h) as [bucket|] eqn:Hb; [|done]. inv_run.
  match goal with H : for_each _ (bucket_entries _) s = _ |- _ =>
    apply silent_Ret in H as -> end.
  2:{ apply silent_for_each. intros kv. apply silent_bind; [|intros; apply silent_panic_if].
      apply silent_on_db, silent_gets. }
  exists bucket. by do 2 eexists.
Qed.

Lemma applyMaturedSiacoinOutputs_steps s s' :
  fcex_ok (bs_db s) -> applyMaturedSiacoinOutputs s = Ret () s' ->
  let h := pb_Height (bs_pb s) in
  if h <? MaturityDelay then s' = s
  else exists s1, steps s s1 /\ db_DSCO (bs_db s1) !! h = Some ∅ /\ s' = drop_dsco h s1.
Proof.
  intros Hok Hrun%applyMaturedSiacoinOutputs_cases h. fold h in Hrun. cbn in Hrun.
  destruct (h <? MaturityDelay); [done|].
  destruct Hrun as (bucket & s1 & s2 & Hb & H1 & H2 & (d & Hd & ->)%on_db_Ret).
  apply matured_scods_steps in H1 as [Hs1 Hdsco].
  apply matured_dscods_steps in H2 as [Hs2 Hempty].
  - exists s2. split_and!; [by etrans|exact Hempty|].
    unfold deleteDSCOBucket, get, mbind, M_bind in Hd. rewrite Hempty in Hd.
    by injection Hd as <-.
  - apply bucket_entries_NoDup.
  - by rewrite Hdsco, Hb, bucket_entries_map.
Qed.

End steps.

(** * The effects of a block as steps

    Expired contracts, and the shape of [apply_block_effects] as a whole. *)

Section block_steps.
Context {P : Params} {C : Crypto} {E : SiaEncoding} (r : release).
#[local] Hint Extern 0 Build => exact (debug_build r) : typeclass_instances.

(** ** Expired contracts *)

(** The diffs for the outputs of a contract that expires without a proof. *)
Definition missed_dscods (fcid : FileContractID) (fc : FileContract) (h : BlockHeight)
  : list DelayedSiacoinOutputDiff :=
  imap (fun i mpo => mkDelayedSiacoinOutputDiff DiffApply
          (StorageProofOutputID fcid false (Z.of_nat i)) mpo h) (fc_MissedProofOutputs fc).
Definition expired_fcd (fcid : FileContractID) (fc : FileContract) : FileContractDiff :=
  mkFileContractDiff DiffRevert fcid fc.

Lemma missed_loop pb fcid mpos n acc s ds s' :
  for_fold (fun i mpo dscods =>
      let spoid := StorageProofOutputID fcid false i in
      paid ← on_db (isSiacoinOutput spoid);
      _ ← panic_if (DEBUG && paid) "payouts are already in the consensus set";
      mret (dscods ++ [mkDelayedSiacoinOutputDiff DiffApply spoid mpo (maturity pb)]))
    (Z.of_nat n) mpos acc s = Ret ds s' ->
  s' = s /\
  ds = acc ++ imap (fun i mpo => mkDelayedSiacoinOutputDiff DiffApply
          (StorageProofOutputID fcid false (Z.of_nat (n + i))) mpo (maturity pb)) mpos.
Proof.
  revert n acc. induction mpos as [|mpo mpos IH]; intros n acc Hrun.
  - cbn in Hrun. inv_run. by rewrite app_nil_r.
  - rewrite for_fold_cons in Hrun.
    match type of Hrun with match ?m with _ => _ end = _ => destruct m as [b s1|?|?] eqn:Hb end;
      [|done..].
    cbv zeta in Hb. inv_run. match goal with H : on_db _ _ = _ |- _ =>
      apply on_db_silent in H as [-> _]; [|apply silent_gets] end.
    replace (Z.of_nat n + 1) with (Z.of_nat (S n)) in Hrun by lia.
    apply IH in Hrun as [-> ->]. split; [done|]. rewrite <- (assoc_L (++)). f_equal.
    cbn [imap app]. f_equal; [by rewrite Nat.add_0_r|].
    apply imap_ext. intros j o _. cbn. by rewrite Nat.add_succ_r.
Qed.

Lemma applyMissedStorageProof_Ret fcid s ds fcd s' :
  applyMissedStorageProof fcid s = Ret (ds, fcd) s' ->
  s' = s /\ exists fc,
    db_FileContracts (bs_db s) !! fcid = Some fc /\
    fc_WindowEnd fc = pb_Height (bs_pb s) /\
    ds = missed_dscods fcid fc (maturity (bs_pb s)) /\ fcd = expired_fcd fcid fc.
Proof.
  intros Hrun. unfold applyMissedStorageProof in Hrun. inv_run.
  match goal with H : get_or_zero _ _ _ = _ |- _ =>
    apply get_or_zero_Ret in H as [Hfc ->] end.
  match goal with H : for_fold _ 0 _ _ _ = _ |- _ =>
    apply (missed_loop _ _ _ 0) in H as [-> ->] end.
  change DEBUG with true in *. cbn [andb] in *. bool_prop. split; [done|]. eexists. split_and!; [exact Hfc|done|done|done].
Qed.

(** The scan over the expiring contracts only reads. *)
Lemma expiration_scan keys i acc s ds s' :
  for_fold (fun _ id (acc : list DelayedSiacoinOutputDiff * list FileContractDiff) =>
      d ← applyMissedStorageProof id;
      mret (acc.1 ++ d.1, acc.2 ++ [d.2])) i keys acc s = Ret ds s' ->
  s' = s /\ exists fcs,
    Forall2 (fun id fc => db_FileContracts (bs_db s) !! id = Some fc /\
                          fc_WindowEnd fc = pb_Height (bs_pb s)) keys fcs /\
    ds = (acc.1 ++ concat (zip_with (fun id fc => missed_dscods id fc (maturity (bs_pb s)))
                             keys fcs),
          acc.2 ++ zip_with expired_fcd keys fcs).
Proof.
  revert i acc. induction keys as [|id keys IH]; intros i acc Hrun.
  - cbn in Hrun. inv_run. split; [done|]. exists []. split; [constructor|].
    cbn. rewrite !app_nil_r. by destruct acc.
  - rewrite for_fold_cons in Hrun.
    match type of Hrun with match ?m with _ => _ end = _ => destruct m as [b s1|?|?] eqn:Hb end;
      [|done..].
    inv_run. match goal with x : list DelayedSiacoinOutputDiff * FileContractDiff |- _ =>
      destruct x as [ds1 fcd1] end.
    match goal with H : applyMissedStorageProof _ _ = _ |- _ =>
      apply applyMissedStorageProof_Ret in H as [-> (fc & Hfc & Hwe & -> & ->)] end.
    apply IH in Hrun as [-> (fcs & Hall & ->)]. split; [done|].
    exists (fc :: fcs). split; [by constructor|]. cbn. by rewrite <- !(assoc_L (++)).
Qed.

(** Removing contracts one after the other. *)
Lemma expired_fcds_steps keys fcs s s' :
  NoDup keys -> fcex_ok (bs_db s) ->
  Forall2 (fun id fc => db_FileContracts (bs_db s) !! id = Some fc) keys fcs ->
  for_each record_fcd (zip_with expired_fcd keys fcs) s = Ret () s' ->
  steps s s' /\
  db_FileContracts (bs_db s') = filter (fun kv => kv.1 ∉ keys) (db_FileContracts (bs_db s)).
Proof.
  revert fcs s. induction keys as [|id keys IH]; intros fcs s Hnd Hok Hall Hrun.
  - injection Hrun as <-. split; [reflexivity|]. symmetry. apply map_filter_id.
    intros i x _. cbn. apply not_elem_of_nil.
  - apply Forall2_cons_inv_l in Hall as (fc & fcs' & Hfc & Hall & ->).
    apply NoDup_cons in Hnd as [Hid Hnd]. cbn [zip_with for_each] in Hrun. inv_run.
    match goal with H : record_fcd _ s = Ret _ _ |- _ => rename H into Hd end.
    pose proof (fcd_steps r _ _ _ _ Hok Hd (fun _ => Hfc)) as Hs.
    apply record_fcd_Ret in Hd as (_ & fcex & Hx & ->); [|done|intros _; exact Hfc].
    match goal with H : for_each _ _ _ = _ |- _ => apply IH in H as [Hs2 Heq] end;
      [|done|exact Hx|].
    + split; [by etrans|]. rewrite Heq. cbn. apply map_eq. intros k.
      apply option_eq. intros x. rewrite !map_lookup_filter_Some, lookup_delete_Some. cbn.
      rewrite not_elem_of_cons. intuition congruence.
    + apply Forall2_same_length_lookup in Hall as [Hlen Hall].
      apply Forall2_same_length_lookup. split; [done|]. intros i k x Hk Hx'. cbn.
      rewrite lookup_delete_ne; [by eapply Hall|].
      intros <-. by apply list_elem_of_lookup_2 in Hk.
Qed.

Lemma bucket_keys_perm s : bucket_keys s ≡ₚ elements s.
Proof.
  unfold bucket_keys. rewrite merge_sort_Permutation, <- list_fmap_compose.
  rewrite (list_fmap_ext _ id); [by rewrite list_fmap_id|done].
Qed.

Lemma elem_of_bucket_keys id s : id ∈ bucket_keys s <-> id ∈ s.
Proof. by rewrite bucket_keys_perm, elem_of_elements. Qed.

Lemma NoDup_bucket_keys s : NoDup (bucket_keys s).
Proof. rewrite bucket_keys_perm. apply NoDup_elements. Qed.

(** An expiration bucket that no longer exists. *)
Definition drop_fcex (h : BlockHeight) (s : blockState) : blockState :=
  mkBlockState (with_FCEX (delete h (db_FCEX (bs_db s))) (bs_db s)) (bs_pb s).

(** The contracts of the bucket are removed and their outputs delayed. *)
Lemma applyFileContractMaintenance_cases s s' :
  fcex_ok (bs_db s) -> applyFileContractMaintenance s = Ret () s' ->
  let h := pb_Height (bs_pb s) in
  (db_FCEX (bs_db s) !! h = None /\ s' = s) \/
  exists bucket fcs s1 s2,
    db_FCEX (bs_db s) !! h = Some bucket /\
    Forall2 (fun id fc => db_FileContracts (bs_db s) !! id = Some fc /\ fc_WindowEnd fc = h)
      (bucket_keys bucket) fcs /\
    for_each record_dscod (concat (zip_with (fun id fc =>
      missed_dscods id fc (maturity (bs_pb s))) (bucket_keys bucket) fcs)) s = Ret () s1 /\
    for_each record_fcd (zip_with expired_fcd (bucket_keys bucket) fcs) s1 = Ret () s2 /\
    s' = drop_fcex h s2.
Proof.
  intros Hok Hrun h. unfold applyFileContractMaintenance in Hrun. inv_run.
  match goal with H : (match _ with _ => _ end) _ = _ |- _ => rename H into Hrun end.
  fold h in Hrun. destruct (db_FCEX (bs_db s) !! h) as [bucket|] eqn:Hb;
    [right|left; by inv_run].
  inv_run. match goal with H : for_fold _ _ _ _ _ = _ |- _ =>
    apply expiration_scan in H as [-> (fcs & Hall & ->)] end. cbn [fst snd app] in *.
  match goal with H : on_db _ _ = Ret _ _ |- _ => apply on_db_Ret in H as (d & Hd & ->) end.
  injection Hd as <-. exists bucket, fcs. by do 2 eexists.
Qed.

Lemma missed_dscods_apply keys fcs h :
  Forall (fun d => dscod_Direction d = DiffApply)
    (concat (zip_with (fun id fc => missed_dscods id fc h) keys fcs)).
Proof.
  revert fcs. induction keys as [|id keys IH]; intros [|fc fcs]; cbn; try constructor.
  apply Forall_app. split; [|apply IH]. unfold missed_dscods.
  apply Forall_lookup. intros i d. rewrite list_lookup_imap.
  destruct (_ !! i); cbn; [|done]. by intros [= <-].
Qed.

Lemma applyFileContractMaintenance_steps s s' :
  fcex_ok (bs_db s) -> applyFileContractMaintenance s = Ret () s' ->
  exists s1, steps s s1 /\ fcex_ok (bs_db s') /\
    (s' = s1 \/ s' = drop_fcex (pb_Height (bs_pb s)) s1).
Proof.
  intros Hok Hrun. destruct (applyFileContractMaintenance_cases s s' Hok Hrun)
    as [[_ ->]|(bucket & fcs & s1 & s2 & Hb & Hall & Hd & Hf & ->)].
  { exists s. split_and!; [reflexivity|done|by left]. }
  apply dscods_apply_steps in Hd as (Hs1 & Hfc1 & Hx1); [|apply missed_dscods_apply].
  apply expired_fcds_steps in Hf as [Hs2 Hfc2];
    [|apply NoDup_bucket_keys|by eapply steps_fcex|].
  - assert (Hok2 : fcex_ok (bs_db s2)) by (eapply steps_fcex; [exact Hs2|by eapply steps_fcex]).
    exists s2. split_and!; [by etrans| |by right].
    apply expirations_delete; [exact Hok2|]. apply set_eq. intros id.
    unfold fcex_ok, expirations_ok in Hok2. rewrite Hok2, Hfc2. split; [|set_solver].
    intros (fc & [Hfc Hk]%map_lookup_filter_Some & Hwe). exfalso. apply Hk. cbn.
    rewrite Hfc1 in Hfc. rewrite elem_of_bucket_keys.
    assert (id ∈ default ∅ (db_FCEX (bs_db s) !! pb_Height (bs_pb s))) as Hin
      by (apply Hok; by exists fc).
    by rewrite Hb in Hin.
  - eapply Forall2_impl; [exact Hall|]. rewrite Hfc1. by intros id fc [? _].
Qed.

(** ** Checks read only *)

Lemma readonly_validSiacoins t : readonly (validSiacoins t).
Proof. unfold validSiacoins, getSiacoinOutput. readonly_run. Qed.
Lemma readonly_validStorageProofs t : readonly (validStorageProofs t).
Proof.
  unfold validStorageProofs, validStorageProofs100e3, storageProofSegment, get_fc_or_err,
    getFileContract, getPath. readonly_run.
Qed.
Lemma readonly_validFileContractRevisions t : readonly (validFileContractRevisions t).
Proof. unfold validFileContractRevisions, get_fc_or_err, getFileContract. readonly_run. Qed.
Lemma readonly_validSiafunds t : readonly (validSiafunds t).
Proof. unfold validSiafunds, getSiafundOutput. readonly_run. Qed.

Lemma readonly_validTransaction t : readonly (validTransaction t).
Proof.
  unfold validTransaction, Signatures.lift_err. readonly_run;
    auto using readonly_validSiacoins, readonly_validStorageProofs,
      readonly_validFileContractRevisions, readonly_validSiafunds.
Qed.

(** ** The block *)

Lemma on_db_readonly {A} (m : M DB A) s a s' :
  readonly m -> on_db m s = Ret a s' -> s' = s /\ m (bs_db s) = Ret a (bs_db s).
Proof.
  intros Hm (d & Hd & ->)%on_db_Ret. specialize (Hm (bs_db s)). rewrite Hd in Hm. subst d.
  by rewrite mkBlockState_eta.
Qed.

Lemma transactions_steps txns s s' :
  fcex_ok (bs_db s) ->
  for_each (fun txn => _ ← on_db (validTransaction txn); applyTransaction txn) txns s
    = Ret () s' -> steps s s'.
Proof.
  apply for_each_steps. clear. intros t s s' _ Hok Hrun. inv_run.
  match goal with H : on_db _ _ = _ |- _ =>
    apply on_db_readonly in H as [-> _]; [|apply readonly_validTransaction] end.
  by eapply applyTransaction_steps.
Qed.

(** A block that is neither the airdrop nor a hardfork. *)
Definition ordinary (pb : processedBlock) : Prop :=
  pb_Height pb <> SpfAirdropHeight /\ IsSpfHardfork (pb_Height pb) = false.

(** The database with the bucket for the outputs the block delays. *)
Definition with_upcoming (d : DB) (pb : processedBlock) : DB :=
  with_DSCO (<[maturity pb := ∅]> (db_DSCO d)) d.

(** The effects of an ordinary block: the new bucket, the transactions, the
    miner payouts and the matured outputs; the end of the matured bucket; the
    expired contracts; the end of their bucket. *)
Lemma apply_block_effects_shape d pb s' :
  ordinary pb -> apply_block_effects (mkBlockState d pb) = Ret () s' ->
  db_DSCO d !! maturity pb = None /\
  exists s1 s2 s3,
    for_each (fun txn => _ ← on_db (validTransaction txn); applyTransaction txn)
      (b_Transactions (pb_Block pb)) (mkBlockState (with_upcoming d pb) pb) = Ret () s1 /\
    applyMinerPayouts s1 = Ret () s2 /\
    applyMaturedSiacoinOutputs s2 = Ret () s3 /\
    applyFileContractMaintenance s3 = Ret () s'.
Proof.
  intros [Hair Hfork] Hrun. unfold apply_block_effects in Hrun. inv_run. cbn [bs_pb] in *.
  rewrite Hfork in *. rewrite (proj2 (Z.eqb_neq _ _) Hair) in *. inv_run.
  match goal with H : on_db (createDSCOBucket _) _ = _ |- _ =>
    apply on_db_Ret in H as (d1 & Hd1 & ->) end.
  unfold createDSCOBucket, get, mbind, M_bind in Hd1. cbn in Hd1.
  destruct (db_DSCO d !! maturity pb) eqn:Hb; [done|]. injection Hd1 as <-.
  split; [done|].
  match goal with H : applyMaintenance _ = _ |- _ => unfold applyMaintenance in H end.
  inv_run. do 3 eexists. split_and!; eassumption.
Qed.

Lemma apply_block_effects_steps d pb s' :
  fcex_ok d -> ordinary pb -> apply_block_effects (mkBlockState d pb) = Ret () s' ->
  db_DSCO d !! maturity pb = None /\
  exists s1 s2 s3,
    steps (mkBlockState (with_upcoming d pb) pb) s1 /\
    (if pb_Height pb <? MaturityDelay then s2 = s1
     else db_DSCO (bs_db s1) !! pb_Height pb = Some ∅ /\ s2 = drop_dsco (pb_Height pb) s1) /\
    steps s2 s3 /\ fcex_ok (bs_db s') /\
    (s' = s3 \/ s' = drop_fcex (pb_Height pb) s3).
Proof.
  intros Hok Hord Hrun.
  destruct (apply_block_effects_shape d pb s' Hord Hrun)
    as (Hb & s1 & s2 & s3 & Htx & Hmp & Hmat & Hfc).
  split; [exact Hb|].
  apply transactions_steps in Htx; [|exact Hok].
  assert (Hok1 : fcex_ok (bs_db s1)) by (by eapply steps_fcex).
  apply applyMinerPayouts_steps in Hmp; [|done].
  assert (Hok2 : fcex_ok (bs_db s2)) by (by eapply steps_fcex).
  assert (Hs2 : steps (mkBlockState (with_upcoming d pb) pb) s2) by (by etrans).
  destruct (steps_rest _ _ Hs2) as [_ Hpb2]. cbn in Hpb2.
  assert (Hh2 : pb_Height (bs_pb s2) = pb_Height pb) by (unfold pb_rest in Hpb2; congruence).
  apply applyMaturedSiacoinOutputs_steps in Hmat; [|done]. rewrite Hh2 in Hmat.
  assert (Hmid : exists sa, steps (mkBlockState (with_upcoming d pb) pb) sa /\
    (if pb_Height pb <? MaturityDelay then s3 = sa
     else db_DSCO (bs_db sa) !! pb_Height pb = Some ∅ /\ s3 = drop_dsco (pb_Height pb) sa)).
  { destruct (_ <? _); [exists s2; split; done|].
    destruct Hmat as (sa & Hsa & He & ->). exists sa. split; [by etrans|done]. }
  destruct Hmid as (sa & Hsa & Hs3). destruct (steps_rest _ _ Hsa) as [_ Hpba].
  assert (Hha : pb_Height (bs_pb sa) = pb_Height pb) by (unfold pb_rest in Hpba; cbn in Hpba; congruence).
  assert (Hok3 : fcex_ok (bs_db s3) /\ pb_Height (bs_pb s3) = pb_Height pb).
  { pose proof (steps_fcex _ _ Hsa Hok).
    destruct (_ <? _); [by subst s3|]. by destruct Hs3 as [_ ->]. }
  destruct Hok3 as [Hok3 Hh3].
  destruct (applyFileContractMaintenance_steps _ _ Hok3 Hfc) as (s4 & Hs4 & Hok4 & Hend).
  rewrite Hh3 in Hend. exists sa, s3, s4. done.
Qed.

End block_steps.
