(* ===== verification/Revert.v ===== *)
(** * Reverting and re-applying a block

    The diffs a block records are a legal journal from the database before it
    to the database after it; committing them backwards restores the former,
    committing them again the latter. *)

From S2P Require Import Prelude Bytes Interfaces Currency Types Params Encoding Transactions.
From S2P Require Import ConsensusDB ApplyTransaction ConsensusValid GenerateDiffs.
From S2P Require Import Journal Agree Records Steps.

Open Scope Z_scope.

(** A chain of pool diffs from one value to another. *)
Fixpoint pool_chain (l : list SiafundPoolDiff) (p p' : Currency) : Prop :=
  match l with
  | [] => p' = p
  | d :: l => sfpd_Direction d = DiffApply /\ sfpd_Previous d = p /\ pool_chain l (sfpd_Adjusted d) p'
  end.

Lemma pool_chain_snoc l d p p' :
  pool_chain l p p' -> sfpd_Direction d = DiffApply -> sfpd_Previous d = p' ->
  pool_chain (l ++ [d]) p (sfpd_Adjusted d).
Proof.
  revert p. induction l as [|d' l IH]; intros p; cbn.
  - by intros -> -> ->.
  - intros (-> & -> & Hl) Hd Hp. split_and!; [done..|]. by apply IH.
Qed.

(** Parts of the database that no diff belongs to, the heights of the
    buckets of delayed outputs aside. *)
Definition others (d : DB) :=
  (db_BlockHeight d, db_BlockMap d, db_BlockPath d, db_SiafundHardforkPool d,
   db_LegacyHardforkPool d, db_Oak d, db_OakInit d, db_Inconsistent d).

Section tracks.
Context {P : Params}.

(** [pb] records how [d0] became [d]; [H] are the heights of the buckets of
    delayed outputs it touches, and removed siafund outputs are recorded as
    seen through [view]. *)
Record tracks (view : SiafundOutput -> SiafundOutput) (H : gset Z) (d0 d : DB) (pb : processedBlock) : Prop := mkTracks {
  tk_sco : jlegal id (scod_edit <$> pb_SiacoinOutputDiffs pb) (db_SiacoinOutputs d0) /\
    db_SiacoinOutputs d = jrun (scod_edit <$> pb_SiacoinOutputDiffs pb) (db_SiacoinOutputs d0);
  tk_fc : jlegal id (fcd_edit <$> pb_FileContractDiffs pb) (db_FileContracts d0) /\
    db_FileContracts d = jrun (fcd_edit <$> pb_FileContractDiffs pb) (db_FileContracts d0);
  tk_sfo : jlegal view (sfod_edit <$> pb_SiafundOutputDiffs pb)
      (db_SiafundOutputs d0) /\
    db_SiafundOutputs d = jrun (sfod_edit <$> pb_SiafundOutputDiffs pb) (db_SiafundOutputs d0);
  tk_dsco : jlegal id (dscod_edit <$> pb_DelayedSiacoinOutputDiffs pb) (delayed d0) /\
    delayed d = jrun (dscod_edit <$> pb_DelayedSiacoinOutputDiffs pb) (delayed d0);
  tk_pool : pool_chain (pb_SiafundPoolDiffs pb) (db_SiafundPool d0) (db_SiafundPool d);
  tk_heights : dom (db_DSCO d) ⊆ H /\
    Forall (fun x => dscod_MaturityHeight x ∈ H) (pb_DelayedSiacoinOutputDiffs pb);
  tk_others : others d = others d0
}.

Definition no_diffs (pb : processedBlock) : Prop :=
  pb_SiacoinOutputDiffs pb = [] /\ pb_FileContractDiffs pb = [] /\
  pb_SiafundOutputDiffs pb = [] /\ pb_DelayedSiacoinOutputDiffs pb = [] /\
  pb_SiafundPoolDiffs pb = [].

Lemma tracks_refl view H d pb : no_diffs pb -> dom (db_DSCO d) ⊆ H -> tracks view H d d pb.
Proof.
  intros (H1 & H2 & H3 & H4 & H5) Hd.
  constructor; rewrite ?H1, ?H2, ?H3, ?H4, ?H5; cbn; done.
Qed.

Lemma tracks_rstep H d0 s s' :
  let view := dev_remap (db_BlockHeight d0) in
  tracks view H d0 (bs_db s) (bs_pb s) -> rstep s s' -> tracks view H d0 (bs_db s') (bs_pb s').
Proof.
  intros view [[Hs1 Hs2] [Hf1 Hf2] [Hg1 Hg2] [Hd1 Hd2] Hp [Hh1 Hh2] Ho] Hstep.
  assert (Hheight : db_BlockHeight (bs_db s) = db_BlockHeight d0)
    by (unfold others in Ho; congruence).
  destruct Hstep as [d db pb Hj|d fcex db pb Hj Hx|d db pb Hj|d db pb Hb Hj|d db pb Hdir Hprev Hle];
    cbn in *; constructor; cbn; try done; rewrite ?fmap_app; cbn;
    rewrite ?jlegal_snoc, ?jrun_snoc.
  - rewrite <- Hs2. by repeat split.
  - rewrite <- Hf2. by repeat split.
  - rewrite Hheight in Hj. rewrite <- Hg2. by repeat split.
  - unfold delayed in *. cbn. rewrite <- Hd2, delayed_put by done. by repeat split.
  - rewrite dom_put. split; [done|]. apply Forall_app. split; [done|]. constructor; [|done].
    apply Hh1, elem_of_dom. done.
  - by eapply pool_chain_snoc.
Qed.

Lemma tracks_steps H d0 s s' :
  let view := dev_remap (db_BlockHeight d0) in
  tracks view H d0 (bs_db s) (bs_pb s) -> steps s s' -> tracks view H d0 (bs_db s') (bs_pb s').
Proof. intros view Ht Hs. induction Hs; eauto using tracks_rstep. Qed.

(** Empty buckets come and go unnoticed. *)
Lemma flat_new m h : m !! h = None -> flat (<[h := ∅]> m) = flat m.
Proof.
  intros Hh. apply map_eq. intros [h' id]. rewrite !flat_lookup.
  destruct (decide (h = h')) as [<-|Hne].
  - by rewrite lookup_insert_eq, Hh.
  - by rewrite lookup_insert_ne.
Qed.

Lemma flat_drop m h : m !! h = Some ∅ -> flat (delete h m) = flat m.
Proof.
  intros Hh. apply map_eq. intros [h' id]. rewrite !flat_lookup.
  destruct (decide (h = h')) as [<-|Hne].
  - by rewrite lookup_delete_eq, Hh.
  - by rewrite lookup_delete_ne.
Qed.

Lemma tracks_dsco view H d0 d d' pb :
  tracks view H d0 d pb -> delayed d' = delayed d -> dom (db_DSCO d') ⊆ H ->
  db_SiacoinOutputs d' = db_SiacoinOutputs d -> db_FileContracts d' = db_FileContracts d ->
  db_SiafundOutputs d' = db_SiafundOutputs d -> db_SiafundPool d' = db_SiafundPool d ->
  others d' = others d -> tracks view H d0 d' pb.
Proof.
  intros [Hs Hf Hg Hd Hp [Hh1 Hh2] Ho] E1 E2 E3 E4 E5 E6 E7.
  constructor; rewrite ?E1, ?E3, ?E4, ?E5, ?E6, ?E7; done.
Qed.

End tracks.

(** ** A block's effects are tracked *)

Section effects.
Context {P : Params} {C : Crypto} {E : SiaEncoding} (r : release).

(** The heights with a bucket of delayed outputs after a block. *)
Definition heights_after (H : gset Z) (pb : processedBlock) : gset Z :=
  if pb_Height pb <? MaturityDelay then {[maturity pb]} ∪ H
  else ({[maturity pb]} ∪ H) ∖ {[pb_Height pb]}.

Lemma apply_block_effects_tracks d0 pb s' :
  fcex_ok d0 -> ordinary pb -> no_diffs pb ->
  apply_block_effects (B:=debug_build r) (mkBlockState d0 pb) = Ret () s' ->
  let H := {[maturity pb]} ∪ dom (db_DSCO d0) in
  let view := dev_remap (db_BlockHeight d0) in
  tracks view H d0 (bs_db s') (bs_pb s') /\ fcex_ok (bs_db s') /\
  pb_rest (bs_pb s') = pb_rest pb /\ (maturity pb ∉ dom (db_DSCO d0)) /\
  dom (db_DSCO (bs_db s')) = heights_after (dom (db_DSCO d0)) pb /\
  (MaturityDelay <= pb_Height pb -> pb_Height pb ∈ H).
Proof.
  intros Hok Hord Hnd Hrun H view.
  destruct (apply_block_effects_steps r d0 pb s' Hok Hord Hrun)
    as (Hb & s1 & s2 & s3 & H1 & H2 & H3 & Hok' & Hend).
  assert (T0 : tracks view H d0 (with_upcoming d0 pb) pb).
  { apply (tracks_dsco view H d0 d0); try done.
    - apply tracks_refl; [done|]. subst H. set_solver.
    - by apply flat_new.
    - cbn. by rewrite dom_insert_L. }
  pose proof (tracks_steps H d0 (mkBlockState (with_upcoming d0 pb) pb) s1 T0 H1) as T1.
  destruct (steps_rest _ _ H1) as [R1 Q1].
  assert (D1 : dom (db_DSCO (bs_db s1)) = H).
  { unfold rest in R1. cbn in R1. injection R1 as _ _ _ _ _ _ _ _ R1.
    rewrite R1, dom_insert_L. done. }
  assert (T2 : tracks view H d0 (bs_db s2) (bs_pb s2) /\ pb_rest (bs_pb s2) = pb_rest pb /\
    dom (db_DSCO (bs_db s2)) = heights_after (dom (db_DSCO d0)) pb /\
    (MaturityDelay <= pb_Height pb -> pb_Height pb ∈ H)).
  { unfold heights_after. fold H. destruct (Z.ltb_spec (pb_Height pb) MaturityDelay).
    - subst s2. split_and!; [done|done|done|lia].
    - destruct H2 as [Hempty ->]. split_and!; [|done| |].
      + apply (tracks_dsco view H d0 (bs_db s1)); try done.
        * by apply flat_drop.
        * cbn. rewrite dom_delete_L, D1. set_solver.
      + cbn. by rewrite dom_delete_L, D1.
      + intros _. rewrite <- D1. apply elem_of_dom. by exists ∅. }
  destruct T2 as (T2 & Q2 & D2 & Hin).
  pose proof (tracks_steps H d0 s2 s3 T2 H3) as T3. destruct (steps_rest _ _ H3) as [R3 Q3].
  assert (D3 : dom (db_DSCO (bs_db s3)) = heights_after (dom (db_DSCO d0)) pb).
  { unfold rest in R3. injection R3 as _ _ _ _ _ _ _ _ R3. by rewrite R3. }
  assert (Hs' : tracks view H d0 (bs_db s') (bs_pb s') /\ pb_rest (bs_pb s') = pb_rest pb /\
    dom (db_DSCO (bs_db s')) = heights_after (dom (db_DSCO d0)) pb).
  { destruct Hend as [->| ->].
    - split_and!; [done|congruence|done].
    - split_and!; [|cbn; congruence|done]. apply (tracks_dsco view H d0 (bs_db s3)); try done.
      apply (tk_heights _ _ _ _ _ T3). }
  destruct Hs' as (T & Q & D). split_and!; try done. by apply not_elem_of_dom.
Qed.

End effects.

(** ** Committing diffs in a release build *)

Section commit.
Context {P : Params} {C : Crypto} {E : SiaEncoding} (r : release).
#[local] Hint Extern 0 Build => exact (release_build r) : typeclass_instances.

Definition oriented {K V} (dir : DiffDirection) (e : edit K V) : edit K V :=
  match dir with DiffApply => e | DiffRevert => flip_edit e end.

(** The edits a commit of the diffs [l] makes. *)
Definition committed {K V} (dir : DiffDirection) (l : list (edit K V)) : list (edit K V) :=
  oriented dir <$> dir_order dir l.

Lemma committed_revert {K V} (l : list (edit K V)) : committed DiffRevert l = undo l.
Proof. done. Qed.

Lemma committed_apply {K V} (l : list (edit K V)) : committed DiffApply l = l.
Proof. apply list_fmap_id. Qed.

Lemma commit_scods dir l d :
  for_each (fun scod => commitSiacoinOutputDiff scod dir) (dir_order dir l) d
  = Ret () (with_SiacoinOutputs
              (jrun (committed dir (scod_edit <$> l)) (db_SiacoinOutputs d)) d).
Proof.
  unfold committed. replace (dir_order dir (scod_edit <$> l)) with (scod_edit <$> dir_order dir l)
    by (destruct dir; cbn; [done|by rewrite fmap_reverse]).
  revert d. induction (dir_order dir l) as [|x l' IH]; intros d.
  - by destruct d.
  - cbn [for_each fmap list_fmap jrun].
    unfold mbind at 1, M_bind at 1.
    assert (Hx : commitSiacoinOutputDiff x dir d = Ret ()
      (with_SiacoinOutputs (jput (oriented dir (scod_edit x)) (db_SiacoinOutputs d)) d)).
    { destruct x as [[] k v], dir; reflexivity. }
    rewrite Hx, IH. done.
Qed.

Lemma commit_sfods dir l d :
  for_each (fun sfod => commitSiafundOutputDiff sfod dir) (dir_order dir l) d
  = Ret () (with_SiafundOutputs
              (jrun (committed dir (sfod_edit <$> l)) (db_SiafundOutputs d)) d).
Proof.
  unfold committed. replace (dir_order dir (sfod_edit <$> l)) with (sfod_edit <$> dir_order dir l)
    by (destruct dir; cbn; [done|by rewrite fmap_reverse]).
  revert d. induction (dir_order dir l) as [|x l' IH]; intros d.
  - by destruct d.
  - cbn [for_each fmap list_fmap jrun].
    unfold mbind at 1, M_bind at 1.
    assert (Hx : commitSiafundOutputDiff x dir d = Ret ()
      (with_SiafundOutputs (jput (oriented dir (sfod_edit x)) (db_SiafundOutputs d)) d)).
    { destruct x as [[] k v], dir; reflexivity. }
    rewrite Hx, IH. done.
Qed.

(** One diff of a file contract, in the direction it is committed. *)
Lemma commit_fcd dir x d :
  fcex_ok d -> jok id (oriented dir (fcd_edit x)) (db_FileContracts d) ->
  let fcs := jput (oriented dir (fcd_edit x)) (db_FileContracts d) in
  exists fcex, expirations_ok fcs fcex /\
    commitFileContractDiff x dir d = Ret () (with_FCEX fcex (with_FileContracts fcs d)).
Proof.
  intros Hok Hj fcs. subst fcs.
  assert (Hadd : forall k v, db_FileContracts d !! k = None -> exists fcex,
    expirations_ok (<[k := v]> (db_FileContracts d)) fcex /\
    addFileContract k v d = Ret () (with_FCEX fcex (with_FileContracts (<[k := v]> (db_FileContracts d)) d))).
  { intros k v Hk. eexists. split; [by apply expirations_add|]. reflexivity. }
  assert (Hrem : forall k v, db_FileContracts d !! k = Some v -> exists fcex,
    expirations_ok (delete k (db_FileContracts d)) fcex /\
    removeFileContract k d = Ret () (with_FCEX fcex (with_FileContracts (delete k (db_FileContracts d)) d))).
  { intros k v Hk. eexists. split; [by apply (expirations_remove _ (db_FCEX d) k v)|].
    assert (Hin : k ∈ default ∅ (db_FCEX d !! fc_WindowEnd v)) by (apply Hok; eauto).
    unfold removeFileContract, getFileContract, gets, get, mbind, M_bind, modify, panic_if, mret,
      M_ret. rewrite Hk. cbn.
    destruct (db_FCEX d !! fc_WindowEnd v) as [b|]; cbn in Hin |- *; [|set_solver].
    by rewrite bool_decide_eq_true_2. }
  destruct x as [[] k v], dir; cbn in Hj |- *.
  - by apply Hadd.
  - destruct Hj as (w & Hk & <-). by apply (Hrem k w).
  - destruct Hj as (w & Hk & <-). by apply (Hrem k w).
  - by apply Hadd.
Qed.

Lemma commit_fcds dir l d :
  fcex_ok d -> jlegal id (committed dir (fcd_edit <$> l)) (db_FileContracts d) ->
  let fcs := jrun (committed dir (fcd_edit <$> l)) (db_FileContracts d) in
  exists fcex, expirations_ok fcs fcex /\
    for_each (fun fcd => commitFileContractDiff fcd dir) (dir_order dir l) d
    = Ret () (with_FCEX fcex (with_FileContracts fcs d)).
Proof.
  unfold committed. replace (dir_order dir (fcd_edit <$> l)) with (fcd_edit <$> dir_order dir l)
    by (destruct dir; cbn; [done|by rewrite fmap_reverse]).
  revert d. induction (dir_order dir l) as [|x l' IH]; intros d Hok Hleg.
  - exists (db_FCEX d). split; [exact Hok|]. by destruct d.
  - cbn [for_each fmap list_fmap jrun jlegal] in *. destruct Hleg as [Hj Hleg].
    destruct (commit_fcd dir x d Hok Hj) as (fcex & Hx & Hc).
    unfold mbind at 1, M_bind at 1. rewrite Hc.
    destruct (IH (with_FCEX fcex (with_FileContracts
      (jput (oriented dir (fcd_edit x)) (db_FileContracts d)) d)) Hx Hleg) as (fcex' & Hx' & Hc').
    exists fcex'. split; [exact Hx'|]. rewrite Hc'. done.
Qed.

(** One diff of a delayed output. *)
Definition put_edit (e : edit (Z * Hash) SiacoinOutput) (m : gmap Z (gmap Hash SiacoinOutput))
  : gmap Z (gmap Hash SiacoinOutput) :=
  let '(dir, (h, k), v) := e in alter (jput (dir, k, v)) h m.

Lemma flat_put_edit e m : is_Some (m !! e.1.2.1) -> flat (put_edit e m) = jput e (flat m).
Proof.
  destruct e as [[dir [h k]] v]. intros Hh.
  exact (delayed_put (mkDelayedSiacoinOutputDiff dir k v h) m Hh).
Qed.

Lemma dom_put_edit e m : dom (put_edit e m) = dom m.
Proof. destruct e as [[dir [h k]] v]. apply dom_alter_L. Qed.

Lemma commit_dscod dir x d :
  dscod_MaturityHeight x ∈ dom (db_DSCO d) ->
  commitDelayedSiacoinOutputDiff x dir d =
    Ret () (with_DSCO (put_edit (oriented dir (dscod_edit x)) (db_DSCO d)) d).
Proof.
  intros [b Hb]%elem_of_dom. destruct x as [xdir k v h]. cbn in Hb.
  assert (Hadd : addDSCO h k v d = Ret () (with_DSCO (put_edit (DiffApply, (h, k), v) (db_DSCO d)) d)).
  { unfold addDSCO, isSiacoinOutput, gets, get, mbind, M_bind, panic_if, mret, M_ret. cbn.
    rewrite Hb. cbn. by rewrite (alter_Some _ _ _ _ Hb). }
  assert (Hrem : removeDSCO h k d = Ret () (with_DSCO (put_edit (DiffRevert, (h, k), v) (db_DSCO d)) d)).
  { unfold removeDSCO, get, mbind, M_bind, panic_if, mret, M_ret. cbn.
    rewrite Hb. cbn. by rewrite (alter_Some _ _ _ _ Hb). }
  destruct xdir, dir; [exact Hadd|exact Hrem|exact Hrem|exact Hadd].
Qed.

Lemma commit_dscods dir l d :
  Forall (fun x => dscod_MaturityHeight x ∈ dom (db_DSCO d)) l ->
  exists m, flat m = jrun (committed dir (dscod_edit <$> l)) (delayed d) /\
    dom m = dom (db_DSCO d) /\
    for_each (fun x => commitDelayedSiacoinOutputDiff x dir) (dir_order dir l) d
    = Ret () (with_DSCO m d).
Proof.
  intros Hl. unfold committed.
  replace (dir_order dir (dscod_edit <$> l)) with (dscod_edit <$> dir_order dir l)
    by (destruct dir; cbn; [done|by rewrite fmap_reverse]).
  assert (Hl' : Forall (fun x => dscod_MaturityHeight x ∈ dom (db_DSCO d)) (dir_order dir l))
    by (destruct dir; cbn; [done|by apply Forall_reverse]).
  clear Hl. revert d Hl'. induction (dir_order dir l) as [|x l' IH]; intros d Hl.
  - exists (db_DSCO d). split_and!; [done|done|]. by destruct d.
  - apply Forall_cons in Hl as [Hx Hl]. cbn [for_each fmap list_fmap jrun] in *.
    unfold mbind at 1, M_bind at 1. rewrite (commit_dscod dir x d Hx).
    set (e := oriented dir (dscod_edit x)).
    destruct (IH (with_DSCO (put_edit e (db_DSCO d)) d)) as (m & Hm & Hd & Hc).
    { cbn. by rewrite dom_put_edit. }
    exists m. split_and!; [|by rewrite Hd; apply dom_put_edit|by rewrite Hc].
    rewrite Hm. unfold delayed. cbn. rewrite flat_put_edit; [done|].
    apply elem_of_dom. subst e. by destruct dir.
Qed.

(** The pool diffs of a chain. *)
Lemma commit_sfpds_apply l d p' :
  pool_chain l (db_SiafundPool d) p' ->
  for_each (fun x => commitSiafundPoolDiff x DiffApply) l d = Ret () (with_SiafundPool p' d).
Proof.
  revert d. induction l as [|x l IH]; intros d; cbn [pool_chain for_each].
  - intros ->. by destruct d.
  - intros (_ & _ & Hl). unfold mbind, M_bind.
    assert (Hx : commitSiafundPoolDiff x DiffApply d = Ret () (with_SiafundPool (sfpd_Adjusted x) d))
      by done.
    rewrite Hx, (IH (with_SiafundPool (sfpd_Adjusted x) d) Hl). done.
Qed.

Lemma commit_sfpds_revert l d p :
  pool_chain l p (db_SiafundPool d) ->
  for_each (fun x => commitSiafundPoolDiff x DiffRevert) (reverse l) d
  = Ret () (with_SiafundPool p d).
Proof.
  revert p. induction l as [|x l IH]; intros p; cbn [pool_chain].
  - intros <-. by destruct d.
  - intros (_ & <- & Hl). rewrite reverse_cons, for_each_app, (IH _ Hl). done.
Qed.

End commit.
