(* ===== verification/RevertApply.v ===== *)
(** * Committing a block's diffs restores or repeats its effects

    The theorems on [commitDiffSet], from the lemmas of [Revert]. *)

From S2P Require Import Prelude Bytes Interfaces Currency Types Params Encoding Transactions.
From S2P Require Import ConsensusDB ApplyTransaction ConsensusValid GenerateDiffs.
From S2P Require Import Journal Agree Records Steps Revert.

Open Scope Z_scope.

Section revert_apply.
Context {P : Params} {C : Crypto} {E : SiaEncoding}.

(** Two databases agree on outputs, contracts and pool; siafund outputs are
    compared through [view]. *)
Record same_core (view : SiafundOutput -> SiafundOutput) (e d : DB) : Prop := mkSameCore {
  sc_sco : db_SiacoinOutputs e = db_SiacoinOutputs d;
  sc_fc : db_FileContracts e = db_FileContracts d;
  sc_sfo : view <$> db_SiafundOutputs e = view <$> db_SiafundOutputs d;
  sc_dsco : db_DSCO e = db_DSCO d;
  sc_pool : db_SiafundPool e = db_SiafundPool d
}.

(** What a generated block knows about the databases around its effects. *)
Record recorded (view : SiafundOutput -> SiafundOutput) (d0 d1 : DB) (pb : processedBlock) : Prop := mkRecorded {
  rc_tracks : tracks view ({[maturity pb]} ∪ dom (db_DSCO d0)) d0 d1 pb;
  rc_fresh : maturity pb ∉ dom (db_DSCO d0);
  rc_dom : dom (db_DSCO d1) = heights_after (dom (db_DSCO d0)) pb;
  rc_height : MaturityDelay <= pb_Height pb ->
    pb_Height pb ∈ ({[maturity pb]} ∪ dom (db_DSCO d0) : gset Z);
  rc_fcex0 : fcex_ok d0;
  rc_fcex1 : fcex_ok d1
}.

Lemma dev_remap_idem h sfo : dev_remap h (dev_remap h sfo) = dev_remap h sfo.
Proof.
  unfold dev_remap. destruct (last GenesisSiafundAllocation) as [g|]; [|done].
  destruct (bool_decide (sfo_UnlockHash sfo = sfo_UnlockHash g) && (10000 <? h)) eqn:Hb;
    [|by rewrite Hb].
  cbn [sfo_UnlockHash sfo_Value sfo_ClaimStart]. by case_match.
Qed.

Lemma same_core_refl v d : same_core v d d.
Proof. by constructor. Qed.

Lemma same_core_sym v e d : same_core v e d -> same_core v d e.
Proof. intros []. by constructor. Qed.

Lemma same_core_trans v d1 d2 d3 : same_core v d1 d2 -> same_core v d2 d3 -> same_core v d1 d3.
Proof. intros [] []. constructor; congruence. Qed.

Lemma same_core_id e d : same_core id e d -> db_SiafundOutputs e = db_SiafundOutputs d.
Proof. intros [_ _ Hs _ _]. by rewrite !map_fmap_id in Hs. Qed.

Lemma same_core_weaken v e d : same_core id e d -> same_core v e d.
Proof. intros Hs. pose proof (same_core_id e d Hs) as He. destruct Hs. by constructor; rewrite ?He. Qed.

Lemma same_core_fcex v e d : same_core v e d -> fcex_ok e -> fcex_ok d ->
  forall h, default ∅ (db_FCEX e !! h) = default ∅ (db_FCEX d !! h).
Proof.
  intros [_ Hfc _ _ _] He Hd h. apply set_eq. intros id.
  unfold fcex_ok, expirations_ok in *. by rewrite He, Hd, Hfc.
Qed.

(** A bucket all of whose outputs are gone is empty. *)
Lemma empty_bucket (m : gmap Z (gmap Hash SiacoinOutput)) h b :
  m !! h = Some b -> (forall id, flat m !! (h, id) = None) -> b = ∅.
Proof.
  intros Hb Hf. apply map_empty. intros id. specialize (Hf id).
  by rewrite flat_lookup, Hb in Hf.
Qed.

Lemma flat_not_dom (m : gmap Z (gmap Hash SiacoinOutput)) h id :
  h ∉ dom m -> flat m !! (h, id) = None.
Proof. intros Hh%not_elem_of_dom. by rewrite flat_lookup, Hh. Qed.

Section release.
Context (r : release) (view : SiafundOutput -> SiafundOutput)
  (view_view : forall v, view (view v) = view v).
#[local] Hint Extern 0 Build => exact (release_build r) : typeclass_instances.

(** ** The diffs of a block *)

Lemma commitNodeDiffs_revert H d0 d1 pb e :
  tracks view H d0 d1 pb -> fcex_ok e -> dom (db_DSCO e) = H ->
  db_SiacoinOutputs e = db_SiacoinOutputs d1 -> db_FileContracts e = db_FileContracts d1 ->
  view <$> db_SiafundOutputs e
    = view <$> db_SiafundOutputs d1 ->
  delayed e = delayed d1 -> db_SiafundPool e = db_SiafundPool d1 ->
  exists e', commitNodeDiffs pb DiffRevert e = Ret () e' /\ fcex_ok e' /\
    db_SiacoinOutputs e' = db_SiacoinOutputs d0 /\ db_FileContracts e' = db_FileContracts d0 /\
    view <$> db_SiafundOutputs e'
      = view <$> db_SiafundOutputs d0 /\
    delayed e' = delayed d0 /\ dom (db_DSCO e') = H /\
    db_SiafundPool e' = db_SiafundPool d0 /\ others e' = others e.
Proof.
  intros [[Ls Es] [Lf Ef] [Lg Eg] [Ld Ed] Lp [_ Lh] _] Hok Hdom Ss Sf Sg Sd Sp.
  unfold commitNodeDiffs, mbind, M_bind.
  rewrite commit_scods, committed_revert, Ss, Es, jrun_undo by done.
  set (e1 := with_SiacoinOutputs _ e).
  destruct (commit_fcds r DiffRevert (pb_FileContractDiffs pb) e1) as (fcex & Hx & ->).
  { exact Hok. }
  { rewrite committed_revert. subst e1. cbn. rewrite Sf, Ef. by apply jlegal_undo. }
  assert (Hfc : jrun (committed DiffRevert (fcd_edit <$> pb_FileContractDiffs pb))
                  (db_FileContracts e1) = db_FileContracts d0).
  { rewrite committed_revert. subst e1. cbn. rewrite Sf, Ef. by apply jrun_undo. }
  rewrite Hfc in Hx |- *. rewrite commit_sfods, committed_revert.
  set (e2 := with_SiafundOutputs _ _).
  destruct (commit_dscods r DiffRevert (pb_DelayedSiacoinOutputDiffs pb) e2)
    as (m & Hm & Hmd & ->).
  { subst e2 e1. cbn. by rewrite Hdom. }
  rewrite committed_revert in Hm. cbn [dir_order]. rewrite (commit_sfpds_revert r _ _ (db_SiafundPool d0)) by (subst e2 e1; cbn; by rewrite Sp).
  eexists. split; [done|]. subst e2 e1. cbn in *.
  split_and!; try done; [| |by rewrite Hmd].
  - apply jrun_undo_view; [apply view_view|done|by rewrite <- Eg].
  - unfold delayed in *. cbn in *. rewrite Hm. unfold delayed. cbn. rewrite Sd, Ed. by apply jrun_undo.
Qed.

Lemma commitNodeDiffs_apply H d0 d1 pb e :
  tracks view H d0 d1 pb -> fcex_ok e -> dom (db_DSCO e) = H ->
  db_SiacoinOutputs e = db_SiacoinOutputs d0 -> db_FileContracts e = db_FileContracts d0 ->
  view <$> db_SiafundOutputs e
    = view <$> db_SiafundOutputs d0 ->
  delayed e = delayed d0 -> db_SiafundPool e = db_SiafundPool d0 ->
  exists e', commitNodeDiffs pb DiffApply e = Ret () e' /\ fcex_ok e' /\
    db_SiacoinOutputs e' = db_SiacoinOutputs d1 /\ db_FileContracts e' = db_FileContracts d1 /\
    view <$> db_SiafundOutputs e'
      = view <$> db_SiafundOutputs d1 /\
    delayed e' = delayed d1 /\ dom (db_DSCO e') = H /\
    db_SiafundPool e' = db_SiafundPool d1 /\ others e' = others e.
Proof.
  intros [[Ls Es] [Lf Ef] [Lg Eg] [Ld Ed] Lp [_ Lh] _] Hok Hdom Ss Sf Sg Sd Sp.
  unfold commitNodeDiffs, mbind, M_bind.
  rewrite commit_scods, committed_apply, Ss, <- Es.
  set (e1 := with_SiacoinOutputs _ e).
  destruct (commit_fcds r DiffApply (pb_FileContractDiffs pb) e1) as (fcex & Hx & ->).
  { exact Hok. }
  { rewrite committed_apply. subst e1. cbn. by rewrite Sf. }
  assert (Hfc : jrun (committed DiffApply (fcd_edit <$> pb_FileContractDiffs pb))
                  (db_FileContracts e1) = db_FileContracts d1).
  { rewrite committed_apply. subst e1. cbn. by rewrite Sf, Ef. }
  rewrite Hfc in Hx |- *. rewrite commit_sfods, committed_apply.
  set (e2 := with_SiafundOutputs _ _).
  destruct (commit_dscods r DiffApply (pb_DelayedSiacoinOutputDiffs pb) e2)
    as (m & Hm & Hmd & ->).
  { subst e2 e1. cbn. by rewrite Hdom. }
  rewrite committed_apply in Hm. cbn [dir_order]. rewrite (commit_sfpds_apply r _ _ (db_SiafundPool d1)) by (subst e2 e1; cbn; by rewrite Sp).
  eexists. split; [done|]. subst e2 e1. cbn in *.
  split_and!; try done; [| |by rewrite Hmd].
  - rewrite jrun_view, Sg, <- jrun_view. by rewrite <- Eg.
  - unfold delayed in *. cbn in *. rewrite Hm. unfold delayed. cbn. by rewrite Sd, Ed.
Qed.

(** ** Whole blocks *)

Definition popped (e : DB) : DB :=
  with_BlockPath (delete (db_BlockHeight e) (db_BlockPath e))
    (with_BlockHeight (u64 (db_BlockHeight e - 1)) e).
Definition pushed (id : BlockID) (e : DB) : DB :=
  with_BlockPath (<[u64 (db_BlockHeight e + 1) := id]> (db_BlockPath e))
    (with_BlockHeight (u64 (db_BlockHeight e + 1)) e).

Lemma pushPath_Ret id e : pushPath id e = Ret () (pushed id e).
Proof. done. Qed.
Lemma popPath_Ret e : popPath e = Ret () (popped e).
Proof. done. Qed.

Lemma createDSCOBucket_new h e :
  h ∉ dom (db_DSCO e) ->
  createDSCOBucket h e = Ret () (with_DSCO (<[h := ∅]> (db_DSCO e)) e).
Proof.
  intros Hh%not_elem_of_dom. unfold createDSCOBucket, get, mbind, M_bind. by rewrite Hh.
Qed.

Lemma deleteDSCOBucket_old h e :
  h ∈ dom (db_DSCO e) ->
  deleteDSCOBucket h e = Ret () (with_DSCO (delete h (db_DSCO e)) e).
Proof.
  intros [b Hh]%elem_of_dom. unfold deleteDSCOBucket, get, mbind, M_bind. by rewrite Hh.
Qed.

Lemma delete_empty_eq m m' h :
  h ∈ dom m -> h ∉ dom m' -> flat m = flat m' -> dom m ∖ {[h]} = dom m' -> delete h m = m'.
Proof.
  intros [b Hb]%elem_of_dom Hh Hf Hd. apply dsco_eq.
  - rewrite flat_drop; [done|]. rewrite Hb. f_equal. apply (empty_bucket m h b Hb).
    intros id. rewrite Hf. by apply flat_not_dom.
  - by rewrite dom_delete_L.
Qed.

(** Creating the buckets and committing the node diffs, then removing the
    obsolete bucket. *)
Lemma commitDiffSet_revert_core d0 d1 pb e1 :
  recorded view d0 d1 pb -> same_core view e1 d1 -> fcex_ok e1 ->
  exists e0, commitDiffSet pb DiffRevert e1 = Ret () e0 /\
    same_core view e0 d0 /\ fcex_ok e0 /\ others e0 = others (popped e1).
Proof.
  intros [T Hfresh Hdom Hhin Hok0 Hok1] [Ss Sf Sg Sd Sp] Hok.
  set (H := {[maturity pb]} ∪ dom (db_DSCO d0)) in *.
  assert (Hup : exists m, createUpcomingDelayedOutputMaps pb DiffRevert e1
                          = Ret () (with_DSCO m e1) /\ flat m = delayed e1 /\ dom m = H).
  { cbn. unfold heights_after in Hdom. fold H in Hdom.
    destruct (Z.leb_spec MaturityDelay (pb_Height pb)) as [Hle|Hlt].
    - rewrite (proj2 (Z.ltb_ge _ _) Hle) in Hdom. specialize (Hhin Hle).
      assert (Hn : pb_Height pb ∉ dom (db_DSCO e1)) by (rewrite Sd, Hdom; set_solver).
      eexists. split_and!; [by apply createDSCOBucket_new|by apply flat_new, not_elem_of_dom|].
      rewrite dom_insert_L, Sd, Hdom. apply set_eq. intros h.
      rewrite elem_of_union, elem_of_difference, elem_of_singleton.
      destruct (decide (h = pb_Height pb)) as [->|]; tauto.
    - rewrite (proj2 (Z.ltb_lt _ _) Hlt) in Hdom. exists (db_DSCO e1).
      split_and!; [by destruct e1|done|by rewrite Sd, Hdom]. }
  destruct Hup as (m & Hc & Hm & Hmd).
  destruct (commitNodeDiffs_revert H d0 d1 pb (with_DSCO m e1))
    as (e2 & Hn & Hok2 & S1 & S2 & S3 & S4 & S5 & S6 & S7); try done.
  { unfold delayed in *. cbn. by rewrite Hm, Sd. }
  assert (Hin : maturity pb ∈ dom (db_DSCO e2)) by (rewrite S5; subst H; set_solver).
  eexists. split_and!.
  - unfold commitDiffSet. cbn [DEBUG release_build]. unfold mbind, M_bind at 1, mret, M_ret.
    unfold M_bind. rewrite Hc, Hn. cbn [deleteObsoleteDelayedOutputMaps].
    rewrite deleteDSCOBucket_old by done. apply popPath_Ret.
  - constructor; cbn; try done. apply delete_empty_eq; [done|done|exact S4|].
    rewrite S5. subst H. set_solver.
  - exact Hok2.
  - unfold others in *. cbn in *. congruence.
Qed.

Lemma commitDiffSet_apply_core d0 d1 pb e0 :
  recorded view d0 d1 pb -> same_core view e0 d0 -> fcex_ok e0 ->
  exists e1, commitDiffSet pb DiffApply e0 = Ret () e1 /\
    same_core view e1 d1 /\ fcex_ok e1 /\
    others e1 = others (pushed (Block_ID (pb_Block pb)) e0).
Proof.
  intros [T Hfresh Hdom Hhin Hok0 Hok1] [Ss Sf Sg Sd Sp] Hok.
  set (H := {[maturity pb]} ∪ dom (db_DSCO d0)) in *.
  assert (Hn : maturity pb ∉ dom (db_DSCO e0)) by (by rewrite Sd).
  destruct (commitNodeDiffs_apply H d0 d1 pb (with_DSCO (<[maturity pb := ∅]> (db_DSCO e0)) e0))
    as (e2 & Hc & Hok2 & S1 & S2 & S3 & S4 & S5 & S6 & S7); try done.
  { cbn. by rewrite dom_insert_L, Sd. }
  { unfold delayed. cbn. rewrite flat_new by (by apply not_elem_of_dom). by rewrite Sd. }
  assert (Hdel : deleteObsoleteDelayedOutputMaps pb DiffApply e2
                 = Ret () (with_DSCO (db_DSCO d1) e2)).
  { cbn. unfold heights_after in Hdom. fold H in Hdom.
    destruct (Z.leb_spec MaturityDelay (pb_Height pb)) as [Hle|Hlt].
    - rewrite (proj2 (Z.ltb_ge _ _) Hle) in Hdom. specialize (Hhin Hle).
      rewrite deleteDSCOBucket_old by (by rewrite S5). do 2 f_equal.
      apply delete_empty_eq; [by rewrite S5|rewrite Hdom; set_solver|exact S4|].
      by rewrite S5, Hdom.
    - rewrite (proj2 (Z.ltb_lt _ _) Hlt) in Hdom.
      replace (db_DSCO d1) with (db_DSCO e2); [by destruct e2|].
      apply dsco_eq; [exact S4|]. by rewrite S5, Hdom. }
  eexists. split_and!.
  - unfold commitDiffSet. cbn [DEBUG release_build]. unfold mbind, M_bind at 1, mret, M_ret.
    unfold M_bind. cbn [createUpcomingDelayedOutputMaps].
    rewrite createDSCOBucket_new, Hc, Hdel by done. apply pushPath_Ret.
  - by constructor.
  - exact Hok2.
  - unfold others in *. cbn in *. congruence.
Qed.

End release.
(** ** Generating a block *)

Definition with_block (pb : processedBlock) (d : DB) : DB :=
  with_BlockMap (<[Block_ID (pb_Block pb) := pb]> (db_BlockMap d)) d.

(** A successful [generateAndApplyDiff] of a debug build in its parts. *)
Lemma generateAndApplyDiff_Ret r d0 pb s' :
  generateAndApplyDiff (B:=debug_build r) (mkBlockState d0 pb) = Ret () s' ->
  currentBlockID (B:=debug_build r) d0 = Ret (b_ParentID (pb_Block pb)) d0 /\
  exists s1,
    apply_block_effects (B:=debug_build r) (mkBlockState d0 pb) = Ret () s1 /\
    let d1 := pushed (Block_ID (pb_Block (bs_pb s1))) (bs_db s1) in
    let pb1 := set_checksum (consensusChecksum d1) (set_generated (bs_pb s1)) in
    s' = mkBlockState
      (with_BlockMap (<[Block_ID (pb_Block pb) := pb1]> (db_BlockMap d1)) d1) pb1.
Proof.
  intros Hrun. unfold generateAndApplyDiff in Hrun. cbn [DEBUG debug_build] in Hrun.
  inv_run. cbn [bs_pb] in *.
  match goal with H : on_db currentBlockID _ = _ |- _ =>
    apply on_db_silent in H as [-> H]; [|apply silent_currentBlockID] end.
  bool_prop. split; [match goal with H : currentBlockID _ = _, H2 : ~ _ |- _ =>
    apply dec_stable in H2; cbn in H; congruence end|].
  eexists. split; [match goal with H : apply_block_effects _ = _ |- _ => exact H end|].
  unfold modify_pb, modify, get, on_db, updateCurrentPath in *.
  repeat match goal with
  | H : Ret _ _ = Ret _ _ |- _ => first [injection H as <- <- | injection H as <-]
  | H : context [pushPath _ _] |- _ => rewrite pushPath_Ret in H
  | H : _ = Ret _ _ |- _ => progress cbn in H
  end. done.
Qed.

Lemma recorded_marks view d0 d1 pb h :
  recorded view d0 d1 pb -> recorded view d0 d1 (set_checksum h (set_generated pb)).
Proof.
  intros [[] ? ? ? ? ?]. by constructor.
Qed.

Lemma generateAndApplyDiff_recorded r d0 pb d1 pb1 :
  fcex_ok d0 -> ordinary pb -> no_diffs pb ->
  generateAndApplyDiff (B:=debug_build r) (mkBlockState d0 pb) = Ret () (mkBlockState d1 pb1) ->
  exists d, recorded (dev_remap (db_BlockHeight d0)) d0 d pb1 /\ same_core id d1 d /\ fcex_ok d1 /\
    pb_Block pb1 = pb_Block pb /\ pb_Height pb1 = pb_Height pb /\ pb_Depth pb1 = pb_Depth pb /\
    others d1 = others (with_block pb1 (pushed (Block_ID (pb_Block pb)) d0)).
Proof.
  intros Hok Hord Hnd Hrun.
  destruct (generateAndApplyDiff_Ret r d0 pb _ Hrun) as (_ & [d pb'] & Heff & Hs).
  cbn in Hs. injection Hs as -> ->.
  destruct (apply_block_effects_tracks r d0 pb _ Hok Hord Hnd Heff)
    as (T & Hok1 & Hpb & Hfresh & Hdom & Hin). cbn in T, Hok1, Hpb, Hdom.
  unfold pb_rest in Hpb. injection Hpb as Hblock Hheight Hdepth _ _ _.
  exists d. split_and!; try done.
  - apply recorded_marks.
    assert (Hm : maturity pb' = maturity pb) by (unfold maturity; by rewrite Hheight).
    constructor; unfold heights_after in *; rewrite ?Hm, ?Hheight; done.
  - pose proof (tk_others _ _ _ _ _ T) as Ho. unfold others in *. cbn in *.
    injection Ho as -> -> -> -> -> -> -> ->. by rewrite Hblock.
Qed.

(** C13. Reverting a block undoes it, and applying its diffs again repeats it.
    Let a debug build generate the diffs of an ordinary block on a database
    whose expiration buckets match its contracts and whose path ends at its
    height.  Then committing the diffs backwards succeeds, and leaves outputs,
    delayed outputs, contracts, expirations, pool, height and path as they
    were, with the block kept in the block map; committing them forwards from
    there succeeds and leads back to the database after the block.  Siafund
    outputs are compared by what [getSiafundOutput] shows of them, and
    expirations bucket by bucket, a missing bucket counting as empty. *)
Theorem commitDiffSet_undoes_block r r' d0 pb d1 pb1 :
  fcex_ok d0 -> ordinary pb -> no_diffs pb ->
  0 <= db_BlockHeight d0 < 2 ^ 64 - 1 ->
  db_BlockPath d0 !! (db_BlockHeight d0 + 1) = None ->
  generateAndApplyDiff (B:=debug_build r) (mkBlockState d0 pb) = Ret () (mkBlockState d1 pb1) ->
  let same e d := same_core (dev_remap (db_BlockHeight d0)) e d /\
    (forall h, default ∅ (db_FCEX e !! h) = default ∅ (db_FCEX d !! h)) /\
    others e = others d in
  exists e0 e1,
    commitDiffSet (B:=release_build r') pb1 DiffRevert d1 = Ret () e0 /\
    same e0 (with_block pb1 d0) /\
    commitDiffSet (B:=release_build r') pb1 DiffApply e0 = Ret () e1 /\
    same e1 d1.
Proof.
  intros Hok Hord Hnd Hh Hpath Hrun same. subst same. cbv beta.
  destruct (generateAndApplyDiff_recorded r d0 pb d1 pb1 Hok Hord Hnd Hrun)
    as (d & Hrec & Hsame & Hok1 & Hblock & Hheight & _ & Ho).
  pose proof (dev_remap_idem (db_BlockHeight d0)) as Hidem.
  apply (same_core_weaken (dev_remap (db_BlockHeight d0))) in Hsame.
  destruct (commitDiffSet_revert_core r' _ Hidem d0 d pb1 d1 Hrec Hsame Hok1)
    as (e0 & Hrev & Hs0 & Hoke0 & Ho0).
  destruct (commitDiffSet_apply_core r' _ Hidem d0 d pb1 e0 Hrec Hs0 Hoke0)
    as (e1 & Happ & Hs1 & Hoke1 & Ho1).
  assert (Hu : u64 (db_BlockHeight d0 + 1) = db_BlockHeight d0 + 1)
    by (apply u64_small; unfold is_u64; lia).
  assert (Hu' : u64 (db_BlockHeight d0 + 1 - 1) = db_BlockHeight d0)
    by (rewrite u64_small; unfold is_u64; lia).
  unfold others, popped, pushed, with_block in *. cbn in *. rewrite Hu in *.
  injection Ho as O1 O2 O3 O4 O5 O6 O7 O8. rewrite O1, O2, O3, O4, O5, O6, O7, O8, Hu' in Ho0.
  rewrite delete_insert_id in Ho0 by done.
  injection Ho0 as Q1 Q2 Q3 Q4 Q5 Q6 Q7 Q8.
  rewrite Q1, Q2, Q3, Q4, Q5, Q6, Q7, Q8, Hu in Ho1.
  exists e0, e1. split_and!; try done.
  - destruct Hs0. by constructor.
  - by apply (same_core_fcex (dev_remap (db_BlockHeight d0))).
  - by rewrite Q1, Q2, Q3, Q4, Q5, Q6, Q7, Q8.
  - eapply same_core_trans; [exact Hs1|]. by apply same_core_sym.
  - apply (same_core_fcex (dev_remap (db_BlockHeight d0))); [|done..].
    eapply same_core_trans; [exact Hs1|]. by apply same_core_sym.
  - rewrite Ho1, O1, O2, O3, O4, O5, O6, O7, O8. by rewrite Hblock.
Qed.

End revert_apply.
