(* ===== verification/Conservation.v ===== *)
(** * Conservation of coins

    In a debug build, applying a valid transaction moves coins between
    outputs, delayed outputs, contracts and siafund claims, and gives up only
    its fees; a block adds its coinbase and nothing else.  The counting is the
    one of [checkSiacoinCount]: all outputs, all delayed outputs, the valid
    proof outputs of all contracts, and the claims of all siafund outputs.

    The statements are for heights up to the first siafund hardfork, where a
    claim is the share of the pool above the claim start. *)

From S2P Require Import Prelude Bytes Interfaces Currency Types Params Encoding Transactions.
From S2P Require Import Subsidy Revisions Signatures ValidTransaction ConsensusDB.
From S2P Require Import ApplyTransaction ConsensusValid GenerateDiffs BlockValidation.
From S2P Require Import Journal Agree Records Steps.

Open Scope N_scope.

(** ** Counting *)

Definition outputs_value (l : list SiacoinOutput) : N := sum_of sco_Value l.
Definition contract_value (fc : FileContract) : N := outputs_value (fc_ValidProofOutputs fc).
Definition claim_value (pool : Currency) (sfo : SiafundOutput) : N :=
  (pool - sfo_ClaimStart sfo) / 10000 * sfo_Value sfo.

Definition sco_coins (d : DB) : N := msum sco_Value (db_SiacoinOutputs d).
Definition dsco_coins (d : DB) : N := msum sco_Value (delayed d).
Definition fc_coins (d : DB) : N := msum contract_value (db_FileContracts d).
Definition claim_coins (d : DB) : N :=
  msum (claim_value (db_SiafundPool d)) (db_SiafundOutputs d).
Definition total_coins (d : DB) : N :=
  dsco_coins d + sco_coins d + fc_coins d + claim_coins d.

(** What holds of siafunds and contracts between transactions. *)
Definition funds (d : DB) : N := msum sfo_Value (db_SiafundOutputs d).
Definition claims_ok (d : DB) : Prop :=
  forall id sfo, db_SiafundOutputs d !! id = Some sfo ->
    sfo_ClaimStart sfo <= db_SiafundPool d /\
    (db_SiafundPool d - sfo_ClaimStart sfo) mod 10000 = 0.
Definition contracts_ok (d : DB) : Prop :=
  forall id fc, db_FileContracts d !! id = Some fc ->
    outputs_value (fc_MissedProofOutputs fc) = contract_value fc.
Definition accounts_ok (d : DB) : Prop :=
  funds d = 10000 /\ claims_ok d /\ contracts_ok d.

(** ** Arithmetic of claims *)

Lemma div_add_multiple a b : a mod 10000 = 0 -> (a + b) / 10000 = a / 10000 + b / 10000.
Proof.
  intros Ha. pose proof (N.div_mod a 10000 ltac:(done)) as E. rewrite Ha in E.
  rewrite E, N.add_0_r at 1.
  rewrite (N.mul_comm 10000), N.add_comm, N.div_add by done. lia.
Qed.

(** Raising the pool by a multiple of the number of siafunds raises the claims
    of 10000 siafunds by the same amount. *)
Lemma claims_raise (m : gmap Hash SiafundOutput) pool tax :
  (forall id sfo, m !! id = Some sfo ->
     sfo_ClaimStart sfo <= pool /\ (pool - sfo_ClaimStart sfo) mod 10000 = 0) ->
  msum (claim_value (pool + tax)) m
  = msum (claim_value pool) m + tax / 10000 * msum sfo_Value m.
Proof.
  intros Hm. rewrite <- msum_mul, <- msum_add. apply (msum_ext _ _ m).
  intros id sfo Hid. destruct (Hm id sfo Hid) as [Hle Hmod]. unfold claim_value.
  replace (pool + tax - sfo_ClaimStart sfo) with ((pool - sfo_ClaimStart sfo) + tax) by lia.
  rewrite div_add_multiple by done. lia.
Qed.

Section conservation.
Context {P : Params} {C : Crypto} {E : SiaEncoding} (r : release).
#[local] Hint Extern 0 Build => exact (debug_build r) : typeclass_instances.

Lemma remap_value h sfo : sfo_Value (dev_remap h sfo) = sfo_Value sfo.
Proof. unfold dev_remap. by repeat case_match. Qed.
Lemma remap_claim h sfo : sfo_ClaimStart (dev_remap h sfo) = sfo_ClaimStart sfo.
Proof. unfold dev_remap. by repeat case_match. Qed.

(** Before the hardfork a claim is [claim_value]. *)
Lemma siafundClaim_value sfo d c d' :
  (db_BlockHeight d <= SpfHardforkHeight)%Z ->
  siafundClaim sfo d = Ret c d' -> c = claim_value (db_SiafundPool d) sfo.
Proof.
  intros Hh Hrun. pose proof (silent_Ret _ _ _ _ (silent_siafundClaim r sfo) Hrun) as ->.
  unfold siafundClaim in Hrun. inv_run.
  match goal with H : blockHeight _ = _ |- _ => injection H as <- <- end.
  rewrite (proj2 (Z.ltb_ge _ _) Hh) in *. inv_run.
  match goal with H : getSiafundPool ?d1 = Ret _ ?d2 |- _ =>
    injection H as <- <-; rename d1 into d end.
  unfold claimPerFund, claim_value, claimPerFundInRange, Currency.Mul. cbn [hf_isActivated negb].
  f_equal. pose proof (Cmp_spec (sfo_ClaimStart sfo) (db_SiafundPool d)).
  destruct (Z.leb_spec 0 (Currency.Cmp (sfo_ClaimStart sfo) (db_SiafundPool d))).
  - replace (db_SiafundPool d - sfo_ClaimStart sfo) with 0 by lia. done.
  - rewrite Sub_sub. unfold Currency.Div. change OldSiafundCount with 10000.
    by destruct (0 <=? _)%Z.
Qed.
(** ** Loops that add up *)

Lemma for_each_sum {A} (body : A -> M blockState ()) (f : A -> N) (g : blockState -> N)
    (Inv : blockState -> Prop) l s s' :
  (forall x s s', x ∈ l -> Inv s -> body x s = Ret () s' -> Inv s' /\ g s' = g s + f x) ->
  Inv s -> for_each body l s = Ret () s' -> Inv s' /\ g s' = g s + sum_of f l.
Proof.
  revert s. induction l as [|x l IH]; intros s Hbody Hinv Hrun.
  - injection Hrun as <-. split; [done|]. rewrite sum_of_nil. lia.
  - cbn [for_each] in Hrun. inv_run.
    match goal with H : body _ _ = _ |- _ => apply Hbody in H as [Hi Hg]; [|left|done] end.
    match goal with H : for_each _ _ _ = _ |- _ => apply IH in H as [Hi' Hg'] end; [|  |done].
    + split; [done|]. rewrite sum_of_cons. lia.
    + intros y s1 s2 Hy. apply Hbody. by right.
Qed.

Lemma sum_of_zip {A} (f : A -> N) (l : list A) (zs : list Z) :
  length zs = length l -> sum_of (fun ix => f ix.2) (zip zs l) = sum_of f l.
Proof.
  revert zs. induction l as [|x l IH]; intros [|z zs] Hlen; try done.
  cbn [zip_with]. rewrite !sum_of_cons. cbn [snd]. f_equal. apply IH. by injection Hlen.
Qed.

Lemma for_index_sum {A} (body : Z -> A -> M blockState ()) (f : A -> N) (g : blockState -> N)
    (Inv : blockState -> Prop) l s u s' :
  (forall i x s s', x ∈ l -> Inv s -> body i x s = Ret () s' -> Inv s' /\ g s' = g s + f x) ->
  Inv s -> for_index body l s = Ret u s' -> Inv s' /\ g s' = g s + sum_of f l.
Proof.
  intros Hbody Hinv Hrun%for_index_each.
  apply (for_each_sum _ (fun ix => f ix.2) g Inv) in Hrun as [Hi Hg]; [| |done].
  - split; [done|]. by rewrite sum_of_zip in Hg by (rewrite length_seqZ; lia).
  - intros [i x] s1 s2 Hx. apply Hbody. by apply elem_of_zip_r in Hx.
Qed.

(** ** Siacoin inputs and outputs *)

Definition spends (m : gmap Hash SiacoinOutput) (l : list SiacoinInput)
    (vals : list SiacoinOutput) : Prop :=
  Forall2 (fun sci v => m !! sci_ParentID sci = Some v) l vals.

(** Two states that differ in the siacoin outputs only. *)
Definition only_sco (s s' : blockState) : Prop :=
  exists m, bs_db s' = with_SiacoinOutputs m (bs_db s).

Lemma only_sco_refl s : only_sco s s.
Proof. exists (db_SiacoinOutputs (bs_db s)). by destruct s as [[]]. Qed.

Lemma applySiacoinInputs_coins t s s' :
  applySiacoinInputs t s = Ret () s' ->
  exists vals, spends (db_SiacoinOutputs (bs_db s)) (t_SiacoinInputs t) vals /\
    sco_coins (bs_db s') + outputs_value vals = sco_coins (bs_db s) /\ only_sco s s'.
Proof.
  unfold applySiacoinInputs, spends. revert s.
  induction (t_SiacoinInputs t) as [|sci l IH]; intros s Hrun.
  - injection Hrun as <-. exists []. split_and!; [constructor| |].
    + unfold outputs_value. rewrite sum_of_nil. lia.
    + apply only_sco_refl.
  - cbn [for_each] in Hrun. inv_run.
    match goal with H : get_or_zero _ _ _ = _ |- _ =>
      apply get_or_zero_Ret in H as [Hv ->] end.
    match goal with H : record_scod _ _ = _ |- _ =>
      apply record_scod_Ret in H as [Hj ->]; [|done] end.
    match goal with H : for_each _ _ _ = _ |- _ =>
      apply IH in H as (vals & Hall & Hsum & Honly) end.
    cbn in *. eexists (_ :: vals). split_and!.
    + constructor; [exact Hv|]. eapply Forall2_impl; [exact Hall|].
      intros sci' v Hv'. by apply lookup_delete_Some in Hv' as [_ ?].
    + unfold outputs_value in *. rewrite sum_of_cons. unfold sco_coins in *. cbn in Hsum.
      rewrite (msum_delete sco_Value _ _ _ Hv). lia.
    + destruct Honly as [m Honly]. exists m. by rewrite Honly.
Qed.

Lemma validSiacoins_loop l i acc d sum d' :
  for_fold (fun _ sci inputSum =>
      sco ← getSiacoinOutput (sci_ParentID sci);
      match sco with
      | None => throw errMissingSiacoinOutput
      | Some sco =>
          _ ← check (err_if (bool_decide
                (UnlockConditions_UnlockHash (sci_UnlockConditions sci) <> sco_UnlockHash sco))
                errWrongUnlockConditions);
          mret (Currency.Add inputSum (sco_Value sco))
      end) i l acc d = Ret sum d' ->
  exists vals, spends (db_SiacoinOutputs d) l vals /\ acc + outputs_value vals = sum.
Proof.
  revert i acc. induction l as [|sci l IH]; intros i acc Hrun.
  - cbn in Hrun. inv_run. exists []. split; [constructor|].
    unfold outputs_value. rewrite sum_of_nil. lia.
  - rewrite for_fold_cons in Hrun. unfold getSiacoinOutput, gets, mbind, M_bind in Hrun.
    destruct (db_SiacoinOutputs d !! sci_ParentID sci) as [v|] eqn:Hv; [|done].
    destruct (err_if _ _); [done|]. cbn in Hrun.
    apply IH in Hrun as (vals & Hall & Hs). exists (v :: vals). split; [by constructor|].
    unfold outputs_value, Currency.Add in *. rewrite sum_of_cons. lia.
Qed.

Lemma validSiacoins_spends t d d' :
  validSiacoins t d = Ret () d' ->
  exists vals, spends (db_SiacoinOutputs d) (t_SiacoinInputs t) vals /\
    outputs_value vals = SiacoinOutputSum t.
Proof.
  unfold validSiacoins. intros Hrun. inv_run.
  match goal with H : err_if _ _ = None |- _ =>
    apply err_if_None, negb_false_iff, Equals_true in H; rewrite <- H end.
  match goal with H : for_fold _ _ _ _ _ = Ret _ _ |- _ =>
    destruct (validSiacoins_loop _ _ _ _ _ _ H) as (vals & Hall & Hs) end.
  exists vals. split; [done|]. unfold Currency.ZeroCurrency in Hs. lia.
Qed.

Lemma spends_unique m l vals vals' : spends m l vals -> spends m l vals' -> vals = vals'.
Proof.
  unfold spends. intros H. revert vals'. induction H; intros vals' H'; inversion H'; subst; [done|].
  f_equal; [congruence|auto].
Qed.

Lemma applySiacoinOutputs_coins t s s' :
  applySiacoinOutputs t s = Ret () s' ->
  only_sco s s' /\ sco_coins (bs_db s') = sco_coins (bs_db s) + outputs_value (t_SiacoinOutputs t).
Proof.
  apply (for_index_sum _ sco_Value (fun s => sco_coins (bs_db s)) (only_sco s)).
  - intros i o s1 s2 _ Honly Hd.
    apply record_scod_Ret in Hd as [Hj ->]; [|done]. cbn in Hj |- *. split.
    + destruct Honly as [m Honly]. eexists. cbn. by rewrite Honly.
    + unfold sco_coins. cbn. rewrite msum_insert by done. lia.
  - apply only_sco_refl.
Qed.

End conservation.

(** * Conservation of coins: transactions

    Contracts, revisions, storage proofs and siafunds, and the transaction as
    a whole. *)

Section txn.
Context {P : Params} {C : Crypto} {E : SiaEncoding} (r : release).
#[local] Hint Extern 0 Build => exact (debug_build r) : typeclass_instances.

(** ** File contracts *)

Lemma Tax_div h payout : Tax h payout / 10000 * 10000 = Tax h payout.
Proof.
  rewrite Tax_raw. rewrite (N.mul_comm 10000), N.div_mul by done. lia.
Qed.

Lemma claims_ok_raise pool h payout sfo :
  sfo_ClaimStart sfo <= pool -> (pool - sfo_ClaimStart sfo) mod 10000 = 0 ->
  sfo_ClaimStart sfo <= pool + Tax h payout /\
  (pool + Tax h payout - sfo_ClaimStart sfo) mod 10000 = 0.
Proof.
  intros Hle Hmod. split; [lia|].
  replace (pool + Tax h payout - sfo_ClaimStart sfo)
    with ((pool - sfo_ClaimStart sfo) + Tax h payout) by lia.
  rewrite <- Tax_div, N.Div0.mod_add. exact Hmod.
Qed.

(** What adding the contracts of a transaction leaves alone. *)
Record contracts_frame (d d' : DB) : Prop := mkContractsFrame {
  cf_accounts : accounts_ok d';
  cf_fcex : fcex_ok d';
  cf_sco : db_SiacoinOutputs d' = db_SiacoinOutputs d;
  cf_dsco : db_DSCO d' = db_DSCO d;
  cf_sfo : db_SiafundOutputs d' = db_SiafundOutputs d;
  cf_height : db_BlockHeight d' = db_BlockHeight d;
  cf_old : forall id fc, db_FileContracts d !! id = Some fc ->
    db_FileContracts d' !! id = Some fc
}.

Lemma applyFileContracts_coins t s s' :
  Forall (fc_rules (db_BlockHeight (bs_db s))) (t_FileContracts t) ->
  accounts_ok (bs_db s) -> fcex_ok (bs_db s) ->
  applyFileContracts t s = Ret () s' ->
  contracts_frame (bs_db s) (bs_db s') /\
  fc_coins (bs_db s') + claim_coins (bs_db s')
    = fc_coins (bs_db s) + claim_coins (bs_db s) + sum_of fc_Payout (t_FileContracts t).
Proof.
  intros Hrules Hacc Hok.
  apply (for_index_sum _ fc_Payout (fun s => fc_coins (bs_db s) + claim_coins (bs_db s))
           (fun s1 => contracts_frame (bs_db s) (bs_db s1))); [|by constructor].
  intros i fc s1 s2 Hfc [(Hfunds & Hclaims & Hcon) Hok1 F1 F2 F3 F4 F5] Hrun. inv_run.
  rewrite Forall_forall in Hrules. destruct (Hrules fc Hfc) as (_ & Hvalid & Hmissed).
  match goal with H : record_fcd _ _ = _ |- _ =>
    apply record_fcd_Ret in H as (Hj & fcex & Hx & ->); [|done|done] end. cbn in Hj, Hx.
  repeat match goal with H : on_db _ _ = _ |- _ =>
    apply on_db_silent in H as [-> H]; [|apply silent_gets]; injection H as <- end.
  match goal with H : record_sfpd _ _ = _ |- _ =>
    apply record_sfpd_Ret in H as (_ & _ & _ & ->) end.
  cbn in *. unfold Currency.Add. set (pool := db_SiafundPool (bs_db s1)) in *.
  set (tax := Tax (db_BlockHeight (bs_db s1)) (fc_Payout fc)).
  split; [constructor; try done|].
  - unfold accounts_ok, funds, claims_ok, contracts_ok in *. cbn. split_and!; [done| |].
    + intros id sfo Hs. destruct (Hclaims id sfo Hs). by apply claims_ok_raise.
    + intros id fc' [[<- <-]|[_ Hid]]%lookup_insert_Some; [|by eapply Hcon].
      unfold contract_value, outputs_value. congruence.
  - intros id fc' Hid. cbn. rewrite lookup_insert_ne; [by apply F5|].
    intros <-. apply F5 in Hid. congruence.
  - unfold fc_coins, claim_coins. cbn. rewrite msum_insert by done.
    rewrite claims_raise by done. unfold funds in Hfunds. rewrite Hfunds.
    unfold tax. rewrite Tax_div. fold pool.
    unfold contract_value, outputs_value. rewrite Hvalid, F4.
    pose proof (PostTax_add (db_BlockHeight (bs_db s)) (fc_Payout fc)). lia.
Qed.

(** ** Revisions *)

(** A revision pays out as much as the contract it revises. *)
Definition revision_ok (d : DB) (fcr : FileContractRevision) : Prop :=
  exists fc, db_FileContracts d !! fcr_ParentID fcr = Some fc /\
    outputs_value (fcr_NewValidProofOutputs fcr) = contract_value fc /\
    outputs_value (fcr_NewMissedProofOutputs fcr) = contract_value fc.

(** Two databases that differ in contracts only. *)
Record fc_frame (d d' : DB) : Prop := mkFcFrame {
  ff_sco : db_SiacoinOutputs d' = db_SiacoinOutputs d;
  ff_dsco : db_DSCO d' = db_DSCO d;
  ff_sfo : db_SiafundOutputs d' = db_SiafundOutputs d;
  ff_pool : db_SiafundPool d' = db_SiafundPool d;
  ff_height : db_BlockHeight d' = db_BlockHeight d;
  ff_fcex : fcex_ok d'; ff_contracts : contracts_ok d'
}.

Lemma revision_coins fcr s u s' :
  revision_ok (bs_db s) fcr -> fcex_ok (bs_db s) -> contracts_ok (bs_db s) ->
  (fc ← get_or_zero (getFileContract (fcr_ParentID fcr)) zero_fc;
   _ ← record_fcd (mkFileContractDiff DiffRevert (fcr_ParentID fcr) fc);
   record_fcd (mkFileContractDiff DiffApply (fcr_ParentID fcr) (revised fc fcr))) s
    = Ret u s' ->
  fc_frame (bs_db s) (bs_db s') /\ fc_coins (bs_db s') = fc_coins (bs_db s) /\
  (forall id, id <> fcr_ParentID fcr ->
     db_FileContracts (bs_db s') !! id = db_FileContracts (bs_db s) !! id).
Proof.
  intros (fc & Hfc & Hvalid & Hmissed) Hok Hcon Hrun. inv_run.
  match goal with H : get_or_zero _ _ _ = _ |- _ =>
    apply get_or_zero_Ret in H as [Hv ->] end.
  unfold getFileContract in *. assert (x = fc) as -> by congruence. clear Hv.
  match goal with H : record_fcd _ s = _ |- _ =>
    apply record_fcd_Ret in H as (_ & fcex & Hx & ->); [|done|done] end. cbn in Hx.
  match goal with H : record_fcd _ _ = _ |- _ =>
    apply record_fcd_Ret in H as (_ & fcex' & Hx' & ->); [|exact Hx|done] end. cbn in *.
  split_and!.
  - constructor; try done. intros id fc'. cbn.
    intros [[<- <-]|[Hne Hid]]%lookup_insert_Some.
    + transitivity (outputs_value (fcr_NewValidProofOutputs fcr)); [|done].
      transitivity (outputs_value (fcr_NewMissedProofOutputs fcr)); [done|]. congruence.
    + apply lookup_delete_Some in Hid as [_ Hid]. by eapply Hcon.
  - unfold fc_coins. cbn. rewrite insert_delete_eq.
    pose proof (msum_update contract_value _ _ _ (revised fc fcr) Hfc) as Hu.
    change (contract_value (revised fc fcr))
      with (outputs_value (fcr_NewValidProofOutputs fcr)) in Hu. lia.
  - intros id Hid. by rewrite lookup_insert_ne, lookup_delete_ne.
Qed.

Lemma applyFileContractRevisions_coins t s s' :
  NoDup (fcr_ParentID <$> t_FileContractRevisions t) ->
  Forall (revision_ok (bs_db s)) (t_FileContractRevisions t) ->
  fcex_ok (bs_db s) -> contracts_ok (bs_db s) ->
  applyFileContractRevisions t s = Ret () s' ->
  fc_frame (bs_db s) (bs_db s') /\ fc_coins (bs_db s') = fc_coins (bs_db s).
Proof.
  unfold applyFileContractRevisions. revert s.
  induction (t_FileContractRevisions t) as [|fcr l IH]; intros s Hnd Hall Hok Hcon Hrun.
  - injection Hrun as <-. done.
  - apply NoDup_cons in Hnd as [Hni Hnd]. apply Forall_cons in Hall as [Hfcr Hall].
    cbn [for_each] in Hrun. apply bind_Ret in Hrun as ([] & s1 & H1 & Hrest).
    destruct (revision_coins _ _ _ _ Hfcr Hok Hcon H1) as ([] & Hc & Hsame).
    apply IH in Hrest as ([] & Hc'); [|done| |done|done].
    + split; [|congruence]. constructor; first [done|congruence].
    + apply Forall_forall. intros fcr' Hin. rewrite Forall_forall in Hall.
      destruct (Hall fcr' Hin) as (fc & Hfc & Hrest'). exists fc. split; [|done].
      rewrite Hsame; [done|]. intros Heq. apply Hni. rewrite <- Heq.
      apply list_elem_of_fmap. eauto.
Qed.

(** ** Storage proofs *)

(** Adding delayed outputs. *)
Lemma record_dscod_coins d s u s' :
  dscod_Direction d = DiffApply -> record_dscod d s = Ret u s' ->
  dsco_coins (bs_db s') = dsco_coins (bs_db s) + sco_Value (dscod_SiacoinOutput d) /\
  exists m, bs_db s' = with_DSCO m (bs_db s).
Proof.
  intros Hd Hr. apply record_dscod_Ret in Hr as (Hb & Hj & ->); [|congruence].
  split; [|by eexists]. unfold dsco_coins, delayed in *. cbn. rewrite delayed_put by done.
  unfold dscod_edit in *. rewrite Hd in *. cbn in *. rewrite msum_insert by done. lia.
Qed.

Definition only_dsco (s s' : blockState) : Prop := exists m, bs_db s' = with_DSCO m (bs_db s).

Lemma only_dsco_refl s : only_dsco s s.
Proof. exists (db_DSCO (bs_db s)). by destruct s as [[]]. Qed.

Lemma only_dsco_trans s1 s2 s3 : only_dsco s1 s2 -> only_dsco s2 s3 -> only_dsco s1 s3.
Proof. intros [m H12] [m' H23]. exists m'. by rewrite H23, H12. Qed.

(** What storage proofs and siafund inputs leave alone. *)
Record proofs_frame (d d' : DB) : Prop := mkProofsFrame {
  pf_sco : db_SiacoinOutputs d' = db_SiacoinOutputs d;
  pf_sfo : db_SiafundOutputs d' = db_SiafundOutputs d;
  pf_pool : db_SiafundPool d' = db_SiafundPool d;
  pf_height : db_BlockHeight d' = db_BlockHeight d;
  pf_fcex : fcex_ok d'; pf_contracts : contracts_ok d'
}.

Lemma applyStorageProofs_coins t s s' :
  fcex_ok (bs_db s) -> contracts_ok (bs_db s) -> applyStorageProofs t s = Ret () s' ->
  proofs_frame (bs_db s) (bs_db s') /\
  dsco_coins (bs_db s') + fc_coins (bs_db s') = dsco_coins (bs_db s) + fc_coins (bs_db s).
Proof.
  intros Hok Hcon Hrun.
  apply (for_each_inv _ (fun s1 => proofs_frame (bs_db s) (bs_db s1) /\
    dsco_coins (bs_db s1) + fc_coins (bs_db s1) = dsco_coins (bs_db s) + fc_coins (bs_db s)))
    in Hrun; [exact Hrun| |by split; [constructor|]].
  intros sp s1 s2 _ [[] Hsum] Hr. inv_run.
  match goal with H : get_or_zero _ _ _ = _ |- _ =>
    apply get_or_zero_Ret in H as [Hv ->] end.
  match goal with H : for_index _ (fc_ValidProofOutputs ?fc) _ = Ret _ ?s3 |- _ =>
    rename fc into fc; rename s3 into s3;
    apply (for_index_sum _ sco_Value (fun s => dsco_coins (bs_db s)) (only_dsco s1)) in H
      as [Honly Hd]; [| |apply only_dsco_refl] end.
  2:{ intros i vpo s4 s5 _ H4 H5. inv_run.
      match goal with H : record_dscod _ _ = _ |- _ =>
        apply record_dscod_coins in H as [Hd Ho]; [|done] end.
      split; [|done]. by eapply only_dsco_trans; [exact H4|]. }
  match goal with H : record_fcd _ ?s3 = _ |- _ =>
    rename s3 into sm; rename H into Hf end.
  destruct Honly as [m Honly].
  assert (Hfc : db_FileContracts (bs_db sm) = db_FileContracts (bs_db s1)) by (by rewrite Honly).
  apply record_fcd_Ret in Hf as (_ & fcex & Hx & ->).
  - split.
    + rewrite Hfc in *. cbn in *. constructor; cbn; rewrite ?Honly; try done.
      intros id fc'. cbn. intros [_ Hid]%lookup_delete_Some. by eapply pf_contracts0.
    + unfold dsco_coins, fc_coins, delayed in *. cbn in *. rewrite Hfc.
      rewrite (msum_delete contract_value _ _ _ Hv) in Hsum.
      unfold contract_value at 1, outputs_value in Hsum. lia.
  - unfold fcex_ok. rewrite Honly. done.
  - intros _. cbn. by rewrite Hfc.
Qed.

(** ** Siafunds *)

Definition fund_spends (m : gmap Hash SiafundOutput) (l : list SiafundInput)
    (vals : list SiafundOutput) : Prop :=
  Forall2 (fun sfi v => m !! sfi_ParentID sfi = Some v) l vals.

Record funds_frame (d d' : DB) : Prop := mkFundsFrame {
  uf_sco : db_SiacoinOutputs d' = db_SiacoinOutputs d;
  uf_fc : db_FileContracts d' = db_FileContracts d;
  uf_fcex : db_FCEX d' = db_FCEX d;
  uf_pool : db_SiafundPool d' = db_SiafundPool d;
  uf_height : db_BlockHeight d' = db_BlockHeight d;
  uf_claims : claims_ok d'
}.

Lemma applySiafundInputs_coins t s s' :
  (db_BlockHeight (bs_db s) <= SpfHardforkHeight)%Z -> claims_ok (bs_db s) ->
  applySiafundInputs t s = Ret () s' ->
  exists vals, fund_spends (db_SiafundOutputs (bs_db s)) (t_SiafundInputs t) vals /\
    funds (bs_db s') + sum_of sfo_Value vals = funds (bs_db s) /\
    funds_frame (bs_db s) (bs_db s') /\
    dsco_coins (bs_db s') + claim_coins (bs_db s') = dsco_coins (bs_db s) + claim_coins (bs_db s).
Proof.
  unfold applySiafundInputs, fund_spends. revert s.
  induction (t_SiafundInputs t) as [|sfi l IH]; intros s Hh Hcl Hrun.
  - injection Hrun as <-. exists []. split_and!; [constructor| |by constructor|done].
    rewrite sum_of_nil. lia.
  - cbn [for_each] in Hrun. inv_run.
    match goal with H : get_or_zero _ _ _ = _ |- _ =>
      apply get_or_zero_Ret in H as [Hv ->] end.
    match goal with H : on_db (siafundClaim _) _ = _ |- _ =>
      apply on_db_silent in H as [-> H]; [|apply silent_siafundClaim];
      apply siafundClaim_value in H as ->; [|done] end.
    match goal with H : record_dscod _ _ = Ret _ ?s1 |- _ =>
      apply record_dscod_coins in H as [Hd [m Ho]]; [|done]; rename s1 into sm end.
    match goal with H : record_sfod _ _ = _ |- _ =>
      apply record_sfod_Ret in H as [_ ->]; [|intros _; rewrite Ho; exact Hv] end.
    cbn [sfod_ID sfod_Direction sfod_SiafundOutput sfod_edit jput] in *.
    destruct (db_SiafundOutputs (bs_db s) !! sfi_ParentID sfi) as [v|] eqn:Hlk; [|done].
    injection Hv as <-.
    match goal with H : for_each _ _ _ = _ |- _ =>
      apply IH in H as (vals & Hall & Hf & [] & Hsum) end; cbn [bs_db] in *.
    + exists (v :: vals). split_and!.
      * constructor; [done|]. eapply Forall2_impl; [exact Hall|]. intros sfi' v'. cbn.
        rewrite Ho. cbn. intros [_ ?]%lookup_delete_Some. done.
      * rewrite sum_of_cons. unfold funds in *. rewrite Ho in Hf. cbn in Hf.
        rewrite (msum_delete sfo_Value _ _ _ Hlk). lia.
      * cbn in *. constructor; try done; rewrite ?Ho in *; done.
      * unfold dsco_coins, claim_coins, delayed in *. cbn in *. rewrite Ho in Hsum, Hd.
        cbn in Hsum, Hd.
        rewrite (msum_delete (claim_value _) _ _ _ Hlk).
        unfold claim_value at 1 in Hd. rewrite remap_value, remap_claim in Hd.
        fold (claim_value (db_SiafundPool (bs_db s)) v) in Hd. lia.
    + rewrite Ho. cbn. done.
    + intros id sfo. cbn. rewrite Ho. cbn. intros [_ Hid]%lookup_delete_Some. by apply (Hcl id).
Qed.

Lemma validSiafunds_loop l i acc d sum d' :
  for_fold (fun _ sfi sum =>
      sfo ← getSiafundOutput (sfi_ParentID sfi);
      match sfo with
      | None => throw errNilItem
      | Some sfo =>
          _ ← check (err_if (bool_decide
                (UnlockConditions_UnlockHash (sfi_UnlockConditions sfi) <> sfo_UnlockHash sfo))
                errWrongUnlockConditions);
          mret (Currency.Add sum (sfo_Value sfo))
      end) i l acc d = Ret sum d' ->
  exists vals, fund_spends (db_SiafundOutputs d) l vals /\ acc + sum_of sfo_Value vals = sum.
Proof.
  revert i acc. induction l as [|sfi l IH]; intros i acc Hrun.
  - cbn in Hrun. inv_run. exists []. split; [constructor|]. rewrite sum_of_nil. lia.
  - rewrite for_fold_cons in Hrun. unfold getSiafundOutput, gets, mbind, M_bind in Hrun.
    destruct (db_SiafundOutputs d !! sfi_ParentID sfi) as [v|] eqn:Hv; [|done].
    cbn [fmap option_fmap option_map] in Hrun.
    destruct (err_if _ _); [done|]. cbn [check mret M_ret] in Hrun.
    apply IH in Hrun as (vals & Hall & Hs). exists (v :: vals). split; [by constructor|].
    unfold Currency.Add in *. rewrite sum_of_cons. rewrite remap_value in Hs. lia.
Qed.

Lemma validSiafunds_spends t d d' :
  validSiafunds t d = Ret () d' ->
  exists vals, fund_spends (db_SiafundOutputs d) (t_SiafundInputs t) vals /\
    sum_of sfo_Value vals = sum_of sfo_Value (t_SiafundOutputs t).
Proof.
  unfold validSiafunds. intros Hrun. inv_run.
  match goal with H : err_if _ _ = None |- _ =>
    apply err_if_None, negb_false_iff, Equals_true in H; rename H into Heq end.
  match goal with H : for_fold _ _ _ _ _ = Ret _ _ |- _ =>
    destruct (validSiafunds_loop _ _ _ _ _ _ H) as (vals & Hall & Hs) end.
  exists vals. split; [done|]. unfold Currency.ZeroCurrency, Currency.Add in *.
  rewrite (fold_left_add_acc sfo_Value) in Heq. lia.
Qed.

Lemma fund_spends_unique m l vals vals' :
  fund_spends m l vals -> fund_spends m l vals' -> vals = vals'.
Proof.
  unfold fund_spends. intros H. revert vals'.
  induction H; intros vals' H'; inversion H'; subst; [done|]. f_equal; [congruence|auto].
Qed.

Definition only_sfo (s s' : blockState) : Prop :=
  exists m, bs_db s' = with_SiafundOutputs m (bs_db s).

Lemma applySiafundOutputs_coins t s s' :
  claims_ok (bs_db s) -> applySiafundOutputs t s = Ret () s' ->
  only_sfo s s' /\ claims_ok (bs_db s') /\ claim_coins (bs_db s') = claim_coins (bs_db s) /\
  funds (bs_db s') = funds (bs_db s) + sum_of sfo_Value (t_SiafundOutputs t).
Proof.
  intros Hcl Hrun.
  apply (for_index_sum _ sfo_Value (fun s => funds (bs_db s)) (fun s1 => only_sfo s s1 /\
    claims_ok (bs_db s1) /\ claim_coins (bs_db s1) = claim_coins (bs_db s))) in Hrun
    as [(H1 & H2 & H3) H4]; [done| |].
  - intros i sfo s1 s2 _ ([m Ho] & Hc & Hcc) Hr. inv_run.
    match goal with H : on_db _ _ = _ |- _ =>
      apply on_db_silent in H as [-> H]; [|apply silent_gets]; injection H as <- end.
    match goal with H : record_sfod _ _ = _ |- _ =>
      apply record_sfod_Ret in H as [Hj ->]; [|done] end. cbn in Hj |- *.
    split_and!.
    + exists (<[Transaction_SiafundOutputID t i := mkSiafundOutput (sfo_Value sfo)
        (sfo_UnlockHash sfo) (db_SiafundPool (bs_db s1))]> (db_SiafundOutputs (bs_db s1))).
      cbn. by rewrite Ho.
    + intros id x. cbn. intros [[_ <-]|[_ Hx]]%lookup_insert_Some; [|by apply (Hc id)].
      cbn. by rewrite N.sub_diag.
    + unfold claim_coins in *. cbn. rewrite msum_insert by done.
      unfold claim_value at 1. cbn. rewrite N.sub_diag. exact Hcc.
    + unfold funds. cbn. rewrite msum_insert by done. cbn. lia.
  - split_and!; [|done|done]. exists (db_SiafundOutputs (bs_db s)). by destruct s as [[]].
Qed.

(** ** Transactions *)

Lemma validFileContractRevisions_ok t d d' :
  validFileContractRevisions t d = Ret () d' ->
  Forall (revision_ok d) (t_FileContractRevisions t).
Proof.
  unfold validFileContractRevisions.
  induction (t_FileContractRevisions t) as [|fcr l IH]; intros Hrun; [constructor|].
  cbn [for_each] in Hrun. apply bind_Ret in Hrun as ([] & d1 & H1 & Hrest).
  unfold get_fc_or_err in H1. inv_run.
  match goal with H : getFileContract _ d = Ret ?o _ |- _ =>
    injection H as <- <-; destruct (db_FileContracts d !! fcr_ParentID fcr) as [fc|] eqn:Hfc;
    [|done] end.
  inv_run. match goal with H : blockHeight _ = _ |- _ => injection H as <- <- end.
  destruct (FileContractRevision.TotalPayout fcr) as [vp mp] eqn:Hp. inv_run.
  rewrite TotalPayout_sums in Hp. injection Hp as <- <-.
  repeat match goal with
  | H : err_if (negb (Currency.Equals _ _)) _ = None |- _ =>
      apply err_if_None, negb_false_iff, Equals_true in H
  end.
  constructor; [|by apply IH].
  exists fc. split; [done|]. unfold outputs_value, contract_value.
  rewrite output_sum_sum in *. split; done.
Qed.

(** What validation gives the accounting. *)
Lemma validTransaction_accounts t d d' :
  validTransaction t d = Ret () d' ->
  Forall (fc_rules (db_BlockHeight d)) (t_FileContracts t) /\
  NoDup (fcr_ParentID <$> t_FileContractRevisions t) /\
  Forall (revision_ok d) (t_FileContractRevisions t) /\
  (exists vals, spends (db_SiacoinOutputs d) (t_SiacoinInputs t) vals /\
     outputs_value vals = SiacoinOutputSum t) /\
  (exists vals, fund_spends (db_SiafundOutputs d) (t_SiafundInputs t) vals /\
     sum_of sfo_Value vals = sum_of sfo_Value (t_SiafundOutputs t)).
Proof.
  intros Hrun. pose proof (readonly_validTransaction r t d) as Hro. rewrite Hrun in Hro. subst d'.
  unfold validTransaction in Hrun. inv_run.
  match goal with H : blockHeight _ = _ |- _ => injection H as <- <- end.
  match goal with H : lift_err ?o _ = _ |- _ =>
    unfold lift_err in H; destruct o as [e|] eqn:Hsv; [|done]; inv_run end.
  match goal with H : validSiacoins _ _ = _ |- _ => rename H into H1 end.
  match goal with H : validStorageProofs _ _ = _ |- _ => rename H into H2 end.
  match goal with H : validFileContractRevisions _ _ = _ |- _ => rename H into H3 end.
  match goal with H : validSiafunds _ _ = _ |- _ => rename H into H4 end.
  pose proof (readonly_validSiacoins t d) as R1. rewrite H1 in R1. subst.
  pose proof (readonly_validStorageProofs r t d) as R2. rewrite H2 in R2. subst.
  pose proof (readonly_validFileContractRevisions t d) as R3. rewrite H3 in R3. subst.
  unfold StandaloneValid in Hsv. case_match eqn:Hrules; [done|]. rewrite !err_seq_None in Hrules.
  destruct Hrules as (_ & _ & Hrep%noRepeats_spec & _ & Hfc%correctFileContracts_spec & _ & _).
  destruct Hrep as (_ & [_ [_ Hrep]]%NoDup_app & _).
  split_and!; eauto using validFileContractRevisions_ok, validSiacoins_spends, validSiafunds_spends.
Qed.

(** A valid transaction gives up its fees and nothing else. *)
Lemma transaction_coins t s s' :
  accounts_ok (bs_db s) -> fcex_ok (bs_db s) ->
  (db_BlockHeight (bs_db s) <= SpfHardforkHeight)%Z ->
  (_ ← on_db (validTransaction t); applyTransaction t) s = Ret () s' ->
  accounts_ok (bs_db s') /\ fcex_ok (bs_db s') /\
  db_BlockHeight (bs_db s') = db_BlockHeight (bs_db s) /\
  total_coins (bs_db s') + sum_of id (t_MinerFees t) = total_coins (bs_db s).
Proof.
  intros Hacc Hok Hh Hrun. apply bind_Ret in Hrun as ([] & s0 & Hv & Ha).
  apply on_db_readonly in Hv as [-> Hv]; [|apply readonly_validTransaction].
  destruct (validTransaction_accounts _ _ _ Hv)
    as (Hfc & Hnd & Hrev & (vals & Hsp & Hsum) & (fvals & Hfsp & Hfsum)).
  unfold applyTransaction in Ha.
  apply bind_Ret in Ha as ([] & s1 & R1 & Ha). apply bind_Ret in Ha as ([] & s2 & R2 & Ha).
  apply bind_Ret in Ha as ([] & s3 & R3 & Ha). apply bind_Ret in Ha as ([] & s4 & R4 & Ha).
  apply bind_Ret in Ha as ([] & s5 & R5 & Ha). apply bind_Ret in Ha as ([] & s6 & R6 & R7).
  apply applySiacoinInputs_coins in R1 as (vals' & Hsp' & E1 & [m1 O1]).
  pose proof (spends_unique _ _ _ _ Hsp Hsp') as <-. clear Hsp Hsp'.
  apply applySiacoinOutputs_coins in R2 as ([m2 O2] & E2). rewrite O1 in O2.
  apply applyFileContracts_coins in R3 as ([[Hfun3 [Hcl3 Hcon3]] Hok3 S3 D3 F3 H3 Old3] & E3);
    [|by rewrite O2..].
  apply applyFileContractRevisions_coins in R4 as ([S4 D4 F4 P4 H4 Hok4 Hcon4] & E4);
    [|done| |done|done].
  2:{ apply Forall_forall. intros fcr Hin. rewrite Forall_forall in Hrev.
      destruct (Hrev fcr Hin) as (fc & Hl & Hv'). exists fc. split; [|done].
      apply Old3. by rewrite O2. }
  apply applyStorageProofs_coins in R5 as ([S5 F5 P5 H5 Hok5 Hcon5] & E5); [|done..].
  assert (Hcl5 : claims_ok (bs_db s5)) by (intros id sfo; rewrite F5, P5, F4, P4; apply Hcl3).
  apply applySiafundInputs_coins in R6 as (fvals' & Hfsp' & E6 & [S6 C6 X6 P6 H6 Hcl6] & E6');
    [|rewrite H5, H4, H3, O2; done|done].
  assert (fvals' = fvals) as -> by (eapply fund_spends_unique; [exact Hfsp'|];
    by rewrite F5, F4, F3, O2).
  apply applySiafundOutputs_coins in R7 as ([m7 O7] & Hcl7 & E7 & E7'); [|done].
  split_and!.
  - split_and!; [|done|].
    + unfold funds in *. rewrite F5, F4 in E6. lia.
    + intros id fc. rewrite O7. cbn. rewrite C6. apply Hcon5.
  - unfold fcex_ok. rewrite O7. cbn. rewrite C6, X6. exact Hok5.
  - rewrite O7. cbn. by rewrite H6, H5, H4, H3, O2.
  - rewrite SiacoinOutputSum_sums in Hsum.
    assert (dsco_coins (bs_db s') = dsco_coins (bs_db s6)) by (by rewrite O7).
    assert (dsco_coins (bs_db s4) = dsco_coins (bs_db s))
      by (unfold dsco_coins, delayed; by rewrite D4, D3, O2).
    assert (sco_coins (bs_db s') = sco_coins (bs_db s2))
      by (unfold sco_coins; by rewrite O7; cbn; rewrite S6, S5, S4, S3).
    assert (fc_coins (bs_db s') = fc_coins (bs_db s5))
      by (unfold fc_coins; by rewrite O7; cbn; rewrite C6).
    assert (fc_coins (bs_db s2) = fc_coins (bs_db s)) by (by rewrite O2).
    assert (claim_coins (bs_db s2) = claim_coins (bs_db s)) by (by rewrite O2).
    assert (claim_coins (bs_db s5) = claim_coins (bs_db s3))
      by (unfold claim_coins; by rewrite F5, F4, P5, P4).
    unfold total_coins, outputs_value in *. lia.
Qed.
End txn.
