(* ===== verification/ConservationBlock.v ===== *)
(** * Conservation of coins: blocks

    Miner payouts, matured outputs and expired contracts, and the block as a
    whole. *)

From S2P Require Import Prelude Bytes Interfaces Currency Types Params Encoding Transactions.
From S2P Require Import Signatures ValidTransaction Revisions Subsidy BlockValidation.
From S2P Require Import ConsensusDB ApplyTransaction ConsensusValid GenerateDiffs.
From S2P Require Import Journal Agree Records Steps Revert RevertApply.
From S2P Require Import Conservation.

Open Scope N_scope.

Section block.
Context {P : Params} {C : Crypto} {E : SiaEncoding} (r : release).
#[local] Hint Extern 0 Build => exact (debug_build r) : typeclass_instances.

Lemma transactions_coins txns s s' :
  accounts_ok (bs_db s) -> fcex_ok (bs_db s) ->
  (db_BlockHeight (bs_db s) <= SpfHardforkHeight)%Z ->
  for_each (fun txn => _ ← on_db (validTransaction txn); applyTransaction txn) txns s
    = Ret () s' ->
  accounts_ok (bs_db s') /\ fcex_ok (bs_db s') /\
  total_coins (bs_db s') + sum_of (fun t => sum_of id (t_MinerFees t)) txns
    = total_coins (bs_db s).
Proof.
  revert s. induction txns as [|t txns IH]; intros s Hacc Hok Hh Hrun.
  - injection Hrun as <-. rewrite sum_of_nil. split_and!; [done..|lia].
  - cbn [for_each] in Hrun. apply bind_Ret in Hrun as ([] & s1 & H1 & H2).
    destruct (transaction_coins r t s s1 Hacc Hok Hh H1) as (Hacc1 & Hok1 & Hh1 & E1).
    apply IH in H2 as (Hacc2 & Hok2 & E2); [|done|done|by rewrite Hh1].
    rewrite sum_of_cons. split_and!; [done..|lia].
Qed.

(** Adding delayed outputs. *)
Lemma dscods_coins ds s s' :
  Forall (fun d => dscod_Direction d = DiffApply) ds ->
  for_each record_dscod ds s = Ret () s' ->
  only_dsco s s' /\
  dsco_coins (bs_db s') = dsco_coins (bs_db s)
    + sum_of (fun d => sco_Value (dscod_SiacoinOutput d)) ds.
Proof.
  intros Hds. apply (for_each_sum _ (fun d => sco_Value (dscod_SiacoinOutput d))
    (fun s => dsco_coins (bs_db s)) (only_dsco s)); [|apply only_dsco_refl].
  intros d s1 s2 Hd Ho Hr. rewrite Forall_forall in Hds.
  apply record_dscod_coins in Hr as [E1 O1]; [|by apply Hds].
  split; [|done]. by eapply only_dsco_trans.
Qed.

Lemma applyMinerPayouts_coins s s' :
  applyMinerPayouts s = Ret () s' ->
  only_dsco s s' /\
  dsco_coins (bs_db s') = dsco_coins (bs_db s)
    + outputs_value (b_MinerPayouts (pb_Block (bs_pb s))).
Proof.
  intros Hrun. unfold applyMinerPayouts in Hrun. inv_run.
  match goal with H : for_index _ _ _ = _ |- _ => revert H end.
  apply (for_index_sum _ sco_Value (fun s => dsco_coins (bs_db s)) (only_dsco s));
    [|apply only_dsco_refl].
  intros i o s1 s2 _ Ho Hr. apply record_dscod_coins in Hr as [E1 O1]; [|done].
  split; [|done]. by eapply only_dsco_trans.
Qed.

(** ** Matured outputs *)

Definition entries_value (l : list (Hash * SiacoinOutput)) : N :=
  sum_of (fun kv => sco_Value kv.2) l.

Lemma matured_scods_coins entries s s' :
  for_each record_scod (matured_scod <$> entries) s = Ret () s' ->
  only_sco s s' /\ sco_coins (bs_db s') = sco_coins (bs_db s) + entries_value entries.
Proof.
  intros Hrun.
  apply (for_each_sum _ (fun d => sco_Value (scod_SiacoinOutput d))
    (fun s => sco_coins (bs_db s)) (only_sco s)) in Hrun as [Ho Hs];
    [| |apply only_sco_refl].
  - split; [done|]. rewrite Hs. f_equal. unfold entries_value, sum_of.
    by rewrite <- list_fmap_compose.
  - intros d s1 s2 Hd [m Ho] Hr. apply list_elem_of_fmap in Hd as (kv & -> & _).
    apply record_scod_Ret in Hr as [Hj ->]; [|done]. cbn in Hj |- *. split.
    + eexists. cbn. by rewrite Ho.
    + unfold sco_coins. cbn. rewrite msum_insert by done. lia.
Qed.

Lemma matured_dscods_coins h entries s s' :
  NoDup (fst <$> entries) -> db_DSCO (bs_db s) !! h = Some (list_to_map entries) ->
  for_each record_dscod (matured_dscod h <$> entries) s = Ret () s' ->
  only_dsco s s' /\ dsco_coins (bs_db s') + entries_value entries = dsco_coins (bs_db s) /\
  db_DSCO (bs_db s') !! h = Some ∅.
Proof.
  revert s. induction entries as [|[k v] entries IH]; intros s Hnd Hb Hrun.
  - injection Hrun as <-. split_and!; [apply only_dsco_refl| |exact Hb].
    unfold entries_value. rewrite sum_of_nil. lia.
  - cbn [fmap list_fmap for_each] in Hrun. apply bind_Ret in Hrun as ([] & s1 & Hd & Hrest).
    apply NoDup_cons in Hnd as [Hk Hnd]. cbn in Hk.
    assert (Hv : delayed (bs_db s) !! (h, k) = Some v).
    { unfold delayed. rewrite flat_lookup, Hb. cbn. by rewrite lookup_insert_eq. }
    apply record_dscod_Ret in Hd as (Hx & _ & ->); [|intros _; exact Hv].
    apply IH in Hrest as (Ho & Hs & He); [|done|].
    + split_and!; [|  |done].
      * eapply only_dsco_trans; [|exact Ho]. by eexists.
      * unfold entries_value in *. rewrite sum_of_cons. cbn [snd].
        unfold dsco_coins, delayed in *. cbn [bs_db db_DSCO with_DSCO] in Hs.
        rewrite delayed_put in Hs by done. cbn in Hs. rewrite (msum_delete sco_Value _ _ _ Hv). lia.
    + cbn. unfold put_dscod. rewrite (alter_Some _ _ _ _ Hb). cbn.
      rewrite lookup_insert_eq. f_equal. apply delete_insert_id.
      by apply not_elem_of_list_to_map_1.
Qed.

(** What maturing leaves alone. *)
Definition only_sco_dsco (s s' : blockState) : Prop :=
  exists m1 m2, bs_db s' = with_DSCO m2 (with_SiacoinOutputs m1 (bs_db s)).

Lemma applyMaturedSiacoinOutputs_coins s s' :
  applyMaturedSiacoinOutputs s = Ret () s' ->
  only_sco_dsco s s' /\
  dsco_coins (bs_db s') + sco_coins (bs_db s') = dsco_coins (bs_db s) + sco_coins (bs_db s).
Proof.
  intros Hrun%applyMaturedSiacoinOutputs_cases. cbn in Hrun.
  destruct (_ <? _)%Z.
  - subst s'. split; [|done]. exists (db_SiacoinOutputs (bs_db s)), (db_DSCO (bs_db s)).
    by destruct s as [[]].
  - destruct Hrun as (bucket & s1 & s2 & Hb & H1 & H2 & (d & Hd & ->)%on_db_Ret).
    apply matured_scods_coins in H1 as [[m1 O1] E1].
    apply matured_dscods_coins in H2 as ([m2 O2] & E2 & Hempty).
    + unfold deleteDSCOBucket, get, mbind, M_bind in Hd. rewrite Hempty in Hd.
      injection Hd as <-. cbn. split.
      * eexists m1, _. cbn. by rewrite O2, O1.
      * unfold dsco_coins, sco_coins, delayed in *. cbn. rewrite flat_drop by done.
        rewrite O1 in E2. cbn in E2. rewrite O2 at 2. cbn. lia.
    + apply bucket_entries_NoDup.
    + by rewrite O1, bucket_entries_map.
Qed.

(** ** Expired contracts *)

Definition only_fc (s s' : blockState) : Prop :=
  exists m x, bs_db s' = with_FCEX x (with_FileContracts m (bs_db s)).

Lemma expired_fcds_coins keys fcs s s' :
  NoDup keys -> fcex_ok (bs_db s) -> contracts_ok (bs_db s) ->
  Forall2 (fun id fc => db_FileContracts (bs_db s) !! id = Some fc) keys fcs ->
  for_each record_fcd (zip_with expired_fcd keys fcs) s = Ret () s' ->
  only_fc s s' /\ contracts_ok (bs_db s') /\
  fc_coins (bs_db s') + sum_of contract_value fcs = fc_coins (bs_db s).
Proof.
  revert fcs s. induction keys as [|id keys IH]; intros fcs s Hnd Hok Hcon Hall Hrun.
  - inversion Hall; subst. injection Hrun as <-. split_and!; [|done|rewrite sum_of_nil; lia].
    exists (db_FileContracts (bs_db s)), (db_FCEX (bs_db s)). by destruct s as [[]].
  - apply Forall2_cons_inv_l in Hall as (fc & fcs' & Hfc & Hall & ->).
    apply NoDup_cons in Hnd as [Hid Hnd]. cbn [zip_with for_each] in Hrun.
    apply bind_Ret in Hrun as ([] & s1 & Hd & Hrest).
    apply record_fcd_Ret in Hd as (_ & fcex & Hx & ->); [|done|intros _; exact Hfc].
    cbn [fcd_edit expired_fcd jput fcd_Direction fcd_ID] in *.
    apply IH in Hrest as ((m & x & Ho) & Hcon' & Hs); [|done|exact Hx| |].
    + split_and!; [|done|].
      * exists m, x. by rewrite Ho.
      * rewrite sum_of_cons. unfold fc_coins in *. cbn in Hs.
        rewrite (msum_delete contract_value _ _ _ Hfc). lia.
    + intros k f. cbn. intros [_ Hk]%lookup_delete_Some. by eapply Hcon.
    + apply Forall2_same_length_lookup in Hall as [Hlen Hall].
      apply Forall2_same_length_lookup. split; [done|]. intros i k f Hk Hf. cbn.
      rewrite lookup_delete_ne; [by eapply Hall|].
      intros <-. by apply list_elem_of_lookup_2 in Hk.
Qed.

Lemma missed_dscods_value keys fcs h :
  length keys = length fcs ->
  sum_of (fun d => sco_Value (dscod_SiacoinOutput d))
    (concat (zip_with (fun id fc => missed_dscods id fc h) keys fcs))
  = sum_of (fun fc => outputs_value (fc_MissedProofOutputs fc)) fcs.
Proof.
  revert fcs. induction keys as [|id keys IH]; intros [|fc fcs] Hlen; try done.
  cbn [zip_with concat]. rewrite sum_of_app, sum_of_cons, IH by (by injection Hlen).
  f_equal. unfold outputs_value, missed_dscods, sum_of. f_equal.
  apply list_eq. intros i. rewrite !list_lookup_fmap, list_lookup_imap.
  by destruct (_ !! i).
Qed.

Definition only_dsco_fc (s s' : blockState) : Prop :=
  exists m1 m2 x, bs_db s' = with_FCEX x (with_FileContracts m2 (with_DSCO m1 (bs_db s))).

Lemma applyFileContractMaintenance_coins s s' :
  fcex_ok (bs_db s) -> contracts_ok (bs_db s) ->
  applyFileContractMaintenance s = Ret () s' ->
  only_dsco_fc s s' /\ contracts_ok (bs_db s') /\
  dsco_coins (bs_db s') + fc_coins (bs_db s') = dsco_coins (bs_db s) + fc_coins (bs_db s).
Proof.
  intros Hok Hcon Hrun. destruct (applyFileContractMaintenance_cases r s s' Hok Hrun)
    as [[_ ->]|(bucket & fcs & s1 & s2 & Hb & Hall & Hd & Hf & ->)].
  - split_and!; [|done|done].
    exists (db_DSCO (bs_db s)), (db_FileContracts (bs_db s)), (db_FCEX (bs_db s)).
    by destruct s as [[]].
  - apply dscods_coins in Hd as [[m1 O1] E1]; [|apply missed_dscods_apply].
    rewrite missed_dscods_value in E1 by (by eapply Forall2_length).
    assert (Hmiss : sum_of (fun fc => outputs_value (fc_MissedProofOutputs fc)) fcs
                    = sum_of contract_value fcs).
    { apply sum_of_ext. intros fc [i Hi]%list_elem_of_lookup.
      eapply Forall2_lookup_r in Hall as (id & _ & Hid & _); [|exact Hi]. by eapply Hcon. }
    apply expired_fcds_coins in Hf as ((m2 & x & O2) & Hcon2 & E2);
      [|apply NoDup_bucket_keys|unfold fcex_ok; by rewrite O1|by rewrite O1|].
    + split_and!; [|exact Hcon2|].
      * eexists m1, m2, _. cbn. by rewrite O2, O1.
      * unfold dsco_coins, fc_coins, delayed in *. cbn. rewrite O2 at 1. cbn.
        rewrite O1 in E2. cbn in E2. lia.
    + rewrite O1. eapply Forall2_impl; [exact Hall|]. by intros id fc [? _].
Qed.

(** ** Blocks *)

Lemma apply_block_effects_coins d0 pb s' :
  accounts_ok d0 -> fcex_ok d0 -> ordinary pb -> (db_BlockHeight d0 <= SpfHardforkHeight)%Z ->
  apply_block_effects (mkBlockState d0 pb) = Ret () s' ->
  accounts_ok (bs_db s') /\
  total_coins (bs_db s') + block_fees (pb_Block pb)
    = total_coins d0 + outputs_value (b_MinerPayouts (pb_Block pb)).
Proof.
  intros Hacc Hok Hord Hh Hrun.
  destruct (apply_block_effects_shape r d0 pb s' Hord Hrun)
    as (Hb & s1 & s2 & s3 & Htx & Hmp & Hmat & Hfc).
  pose proof (transactions_steps r _ (mkBlockState (with_upcoming d0 pb) pb) s1 Hok Htx) as Hst.
  apply transactions_coins in Htx as ((Hf1 & Hc1 & Hk1) & Hok1 & E1); [|done..].
  cbn [bs_db] in E1. assert (E0 : total_coins (with_upcoming d0 pb) = total_coins d0).
  { unfold total_coins, dsco_coins, delayed. cbn. by rewrite flat_new. }
  destruct (steps_rest _ _ Hst) as [_ Hpb]. unfold pb_rest in Hpb. injection Hpb as Hblock _ _ _ _ _.
  cbn in Hblock. apply applyMinerPayouts_coins in Hmp as [[m2 O2] E2]. rewrite Hblock in E2.
  apply applyMaturedSiacoinOutputs_coins in Hmat as [(m3 & m3' & O3) E3].
  rewrite O2 in O3.
  apply applyFileContractMaintenance_coins in Hfc as ((m4 & m4' & x4 & O4) & Hcon4 & E4);
    [|unfold fcex_ok; by rewrite O3|by rewrite O3].
  split.
  - split_and!; [| |done].
    + unfold funds. rewrite O4. cbn. by rewrite O3.
    + intros id sfo. rewrite O4. cbn. rewrite O3. cbn. apply Hc1.
  - fold (block_fees (pb_Block pb)) in E1.
    assert (claim_coins (bs_db s') = claim_coins (bs_db s1))
      by (unfold claim_coins; rewrite O4; cbn; by rewrite O3).
    assert (sco_coins (bs_db s') = sco_coins (bs_db s3)) by (by rewrite O4).
    assert (sco_coins (bs_db s2) = sco_coins (bs_db s1)) by (by rewrite O2).
    assert (fc_coins (bs_db s3) = fc_coins (bs_db s1)) by (by rewrite O3).
    unfold total_coins in *. lia.
Qed.

(** A block whose payouts follow the rule mints its coinbase. *)
Lemma generateAndApplyDiff_coins d0 pb d1 pb1 :
  accounts_ok d0 -> fcex_ok d0 -> ordinary pb -> (db_BlockHeight d0 <= SpfHardforkHeight)%Z ->
  is_u64 (pb_Height pb) -> checkMinerPayouts (pb_Block pb) (pb_Height pb) = true ->
  generateAndApplyDiff (mkBlockState d0 pb) = Ret () (mkBlockState d1 pb1) ->
  accounts_ok d1 /\ total_coins d1 = total_coins d0 + CalculateCoinbase (pb_Height pb).
Proof.
  intros Hacc Hok Hord Hh Hu Hpay Hrun.
  destruct (generateAndApplyDiff_Ret r d0 pb _ Hrun) as (_ & [d pb'] & Heff & Hs).
  cbn in Hs. injection Hs as -> _.
  destruct (apply_block_effects_coins d0 pb _ Hacc Hok Hord Hh Heff) as [Hacc1 Hsum].
  cbn [bs_db] in *. split; [exact Hacc1|].
  apply checkMinerPayouts_rule in Hpay as [Hpay _]; [|done].
  unfold outputs_value in Hsum. rewrite Hpay, CalculateSubsidy_sum in Hsum.
  assert (total_coins (with_BlockMap (<[Block_ID (pb_Block pb) := set_checksum
    (consensusChecksum (pushed (Block_ID (pb_Block pb')) d)) (set_generated pb')]>
    (db_BlockMap d)) (pushed (Block_ID (pb_Block pb')) d)) = total_coins d) as -> by done.
  lia.
Qed.

(** C15. A valid transaction conserves coins: in a debug build, validating and
    applying it moves coins between outputs, delayed outputs, the payouts of
    contracts and the claims of siafunds, and removes exactly its miner fees;
    the number of siafunds, the alignment of claims with the pool, the balance
    of every contract's two outcomes and the expiration index are kept. *)
Theorem applyTransaction_conserves t s s' :
  accounts_ok (bs_db s) -> fcex_ok (bs_db s) ->
  (db_BlockHeight (bs_db s) <= SpfHardforkHeight)%Z ->
  (_ ← on_db (validTransaction t); applyTransaction t) s = Ret () s' ->
  total_coins (bs_db s') + sum_of id (t_MinerFees t) = total_coins (bs_db s) /\
  accounts_ok (bs_db s') /\ fcex_ok (bs_db s').
Proof.
  intros Hacc Hok Hh Hrun.
  by destruct (transaction_coins r t s s' Hacc Hok Hh Hrun) as (? & ? & _ & ?).
Qed.

(** C14. A block mints its coinbase and nothing else: in a debug build, an
    ordinary block whose miner payouts pass [checkMinerPayouts] raises the
    number of coins in outputs, delayed outputs, contracts and claims by
    exactly [CalculateCoinbase], and keeps the accounts in order. *)
Theorem generateAndApplyDiff_mints_coinbase d0 pb d1 pb1 :
  accounts_ok d0 -> fcex_ok d0 -> ordinary pb -> (db_BlockHeight d0 <= SpfHardforkHeight)%Z ->
  is_u64 (pb_Height pb) -> checkMinerPayouts (pb_Block pb) (pb_Height pb) = true ->
  generateAndApplyDiff (mkBlockState d0 pb) = Ret () (mkBlockState d1 pb1) ->
  total_coins d1 = total_coins d0 + CalculateCoinbase (pb_Height pb) /\ accounts_ok d1.
Proof.
  intros Hacc Hok Hord Hh Hu Hpay Hrun.
  by destruct (generateAndApplyDiff_coins d0 pb d1 pb1 Hacc Hok Hord Hh Hu Hpay Hrun).
Qed.

End block.
