(* ===== verification/Frames.v ===== *)
(** * What operations leave alone, and which errors they raise

    [keeps f m]: a successful run of [m] does not change [f] of the state.
    [raises Q m]: an error of [m] satisfies [Q].  Both go through the
    operations of a block step by step, by the tactics [keeps_run] and
    [raises_run]. *)

From S2P Require Import Prelude Bytes Interfaces Currency Types Params Encoding Transactions.
From S2P Require Import Signatures ValidTransaction ConsensusDB ApplyTransaction.
From S2P Require Import ConsensusValid GenerateDiffs Journal Agree Records Steps Revert RevertApply.

Open Scope Z_scope.

(** ** Frames *)

Definition keeps {S X A} (f : S -> X) (m : M S A) : Prop :=
  forall s a s', m s = Ret a s' -> f s' = f s.

Section keeps.
Context {S X : Type} (f : S -> X).

Lemma keeps_bind {A Y} (m : M S A) (k : A -> M S Y) :
  keeps f m -> (forall a, keeps f (k a)) -> keeps f (m ≫= k).
Proof.
  intros Hm Hk s b s' (a & s1 & H1 & H2)%bind_Ret.
  etransitivity; [by eapply Hk|by eapply Hm].
Qed.

Lemma keeps_Ret {A} (m : M S A) s a s' : m s = Ret a s' -> keeps f m -> f s' = f s.
Proof. intros Hrun Hm. by eapply Hm. Qed.

Lemma keeps_get {A} (k : S -> M S A) : (forall s, keeps f (k s)) -> keeps f (get ≫= k).
Proof. intros Hk s b s' Hrun. by apply (Hk s s b s'). Qed.

Lemma keeps_ret {A} (a : A) : keeps f (mret a).
Proof. intros s b s' Hrun. by inv_run. Qed.
Lemma keeps_gets {A} (g : S -> A) : keeps f (gets g).
Proof. intros s b s' Hrun. by inv_run. Qed.
Lemma keeps_throw {A} e : keeps f (throw e : M S A).
Proof. done. Qed.
Lemma keeps_panic {A} msg : keeps f (panic msg : M S A).
Proof. done. Qed.
Lemma keeps_panic_if b msg : keeps f (panic_if b msg).
Proof. intros s [] s' Hrun. by inv_run. Qed.
Lemma keeps_check e : keeps f (check e).
Proof. intros s [] s' Hrun. by inv_run. Qed.
Lemma keeps_modify g : (forall s, f (g s) = f s) -> keeps f (modify g).
Proof. intros Hg s [] s' Hrun. inv_run. apply Hg. Qed.

Lemma keeps_for_each {A} (body : A -> M S ()) l :
  (forall x, keeps f (body x)) -> keeps f (for_each body l).
Proof. intros Hb. induction l; cbn; [apply keeps_ret|]. by apply keeps_bind. Qed.

Lemma keeps_for_fold {A Y} (body : Z -> A -> Y -> M S Y) i l b :
  (forall i x b, keeps f (body i x b)) -> keeps f (for_fold body i l b).
Proof.
  intros Hb. revert i b. induction l; intros i b; cbn; [apply keeps_ret|].
  by apply keeps_bind; [|intros].
Qed.
End keeps.

Lemma keeps_on_db {X Y A} (f : DB -> X) (g : processedBlock -> Y) (m : M DB A) :
  keeps f m -> keeps (fun s => (f (bs_db s), g (bs_pb s))) (on_db m).
Proof.
  intros Hm [d pb] a s'. unfold on_db. cbn. destruct (m d) as [x d'| |] eqn:E; [|done..].
  injection 1 as <- <-. cbn. f_equal. by eapply Hm.
Qed.

Create HintDb keeps.

Ltac keeps_run :=
  intros; cbv beta zeta;
  unfold record_scod, record_fcd, record_sfod, record_dscod, record_sfpd, modify_pb, get_or_zero,
    for_index, nil_bucket;
  repeat lazymatch goal with
  | |- keeps _ (get ≫= _) => apply keeps_get; intros ?
  | |- keeps _ (_ ≫= _) => apply keeps_bind; [|intros ?]
  | |- keeps _ (mret _) => apply keeps_ret
  | |- keeps _ (gets _) => apply keeps_gets
  | |- keeps _ (throw _) => apply keeps_throw
  | |- keeps _ (panic _) => apply keeps_panic
  | |- keeps _ (panic_if _ _) => apply keeps_panic_if
  | |- keeps _ (check _) => apply keeps_check
  | |- keeps _ (modify _) => apply keeps_modify; intros ?; reflexivity
  | |- keeps _ (for_each _ _) => apply keeps_for_each; intros ?
  | |- keeps _ (for_fold _ _ _ _) => apply keeps_for_fold; intros ???
  | |- keeps _ (match ?x with _ => _ end) => destruct x
  | |- keeps (fun s => (?f (bs_db s), ?g (bs_pb s))) (on_db ?m) =>
      apply (keeps_on_db f g)
  | |- keeps _ _ => first [apply keeps_gets | solve [eauto with keeps]]
  end.

(** ** Errors *)

Definition err_in (Q : error -> Prop) (x : err) : Prop := forall e, x = Some e -> Q e.

Definition raises {S A} (Q : error -> Prop) (m : M S A) : Prop :=
  forall s e s', m s = Err e s' -> Q e.

Section raises.
Context {S : Type} (Q : error -> Prop).

Lemma raises_bind {A Y} (m : M S A) (k : A -> M S Y) :
  raises Q m -> (forall a, raises Q (k a)) -> raises Q (m ≫= k).
Proof.
  intros Hm Hk s e s' [H1|(a & s1 & H1 & H2)]%bind_Err; [by eapply Hm|by eapply Hk].
Qed.

Lemma raises_ret {A} (a : A) : raises Q (mret a : M S A).
Proof. done. Qed.
Lemma raises_get : raises Q (get : M S S).
Proof. done. Qed.
Lemma raises_gets {A} (g : S -> A) : raises Q (gets g).
Proof. done. Qed.
Lemma raises_throw {A} e : Q e -> raises Q (throw e : M S A).
Proof. intros He s e' s' [= <- _]. done. Qed.
Lemma raises_panic {A} msg : raises Q (panic msg : M S A).
Proof. done. Qed.
Lemma raises_panic_if b msg : raises Q (@panic_if S b msg).
Proof. by destruct b. Qed.
Lemma raises_modify g : raises Q (modify g : M S ()).
Proof. done. Qed.
Lemma raises_check (x : err) : err_in Q x -> raises Q (@check S x).
Proof. intros Hx s e s' [-> _]%check_Err. by apply Hx. Qed.

Lemma raises_for_each {A} (body : A -> M S ()) l :
  (forall x, raises Q (body x)) -> raises Q (for_each body l).
Proof. intros Hb. induction l; cbn; [apply raises_ret|]. by apply raises_bind. Qed.

Lemma raises_for_fold {A Y} (body : Z -> A -> Y -> M S Y) i l b :
  (forall i x b, raises Q (body i x b)) -> raises Q (for_fold body i l b).
Proof.
  intros Hb. revert i b. induction l; intros i b; cbn; [apply raises_ret|].
  by apply raises_bind; [|intros].
Qed.
End raises.

Lemma raises_on_db {A} Q (m : M DB A) : raises Q m -> raises Q (on_db m).
Proof.
  intros Hm s e s'. unfold on_db. destruct (m (bs_db s)) as [|x d|] eqn:E; [done| |done].
  injection 1 as <- _. by eapply Hm.
Qed.

(** Errors as values. *)

Lemma err_in_seq Q x y : err_in Q x -> err_in Q y -> err_in Q (x ;;? y).
Proof. intros Hx Hy e. destruct x as [e'|]; cbn; [apply Hx|apply Hy]. Qed.
Lemma err_in_if Q b e : Q e -> err_in Q (err_if b e).
Proof. intros He e'. by destruct b; intros [= <-]. Qed.
Lemma err_in_for Q {A} (body : A -> err) l :
  (forall x, err_in Q (body x)) -> err_in Q (for_err body l).
Proof. intros Hb. induction l; cbn; [done|]. by apply err_in_seq. Qed.
Lemma err_in_Some Q e : Q e -> err_in Q (Some e).
Proof. by intros He e' [= <-]. Qed.
Lemma err_in_None Q : err_in Q None.
Proof. done. Qed.

Lemma raises_lift {S} Q (x : option err) :
  (forall y, x = Some y -> err_in Q y) -> raises Q (@lift_err S x).
Proof.
  intros Hx. destruct x as [y|]; cbn; [|apply raises_panic].
  apply raises_check. by apply Hx.
Qed.

Create HintDb raises.

Ltac raises_run :=
  intros; cbv beta zeta;
  unfold record_scod, record_fcd, record_sfod, record_dscod, record_sfpd, modify_pb, get_or_zero,
    for_index, nil_bucket;
  repeat lazymatch goal with
  | |- raises _ (_ ≫= _) => apply raises_bind; [|intros ?]
  | |- raises _ (mret _) => apply raises_ret
  | |- raises _ get => apply raises_get
  | |- raises _ (gets _) => apply raises_gets
  | |- raises _ (throw _) => apply raises_throw
  | |- raises _ (panic _) => apply raises_panic
  | |- raises _ (panic_if _ _) => apply raises_panic_if
  | |- raises _ (modify _) => apply raises_modify
  | |- raises _ (check _) => apply raises_check
  | |- raises _ (for_each _ _) => apply raises_for_each; intros ?
  | |- raises _ (for_fold _ _ _ _) => apply raises_for_fold; intros ???
  | |- raises _ (match ?x with _ => _ end) => destruct x
  | |- raises _ (on_db _) => apply raises_on_db
  | |- err_in _ (_ ;;? _) => apply err_in_seq
  | |- err_in _ (err_if _ _) => apply err_in_if
  | |- err_in _ (for_err _ _) => apply err_in_for; intros ?
  | |- err_in _ (Some _) => apply err_in_Some
  | |- err_in _ None => apply err_in_None
  | |- err_in _ (match ?x with _ => _ end) => destruct x
  | |- _ <> _ => discriminate
  | |- raises _ _ => first [apply raises_gets | solve [eauto with raises]]
  | |- _ => solve [eauto with raises]
  end.

(** * The errors and the siafund diffs of a block

    Two facts about generating a block that moving between forks relies on: a
    block is never refused with [ErrNonExtendingBlock], the error by which
    [managedAcceptBlocks] recognises a stored block that does not extend the
    chain; and a block whose siafund inputs do not use the address [devAddr]
    removes no siafund output of that address. *)

Definition block_error (e : error) : Prop := e <> ErrNonExtendingBlock.

Section errors.
Context {B : Build} {P : Params} {C : Crypto} {E : SiaEncoding}.

Lemma block_error_verify_sig t i sig k h y :
  verify_sig t i sig k h = Some y -> err_in block_error y.
Proof.
  unfold verify_sig, VerifyHash, block_error.
  case_match; [intros [= <-]; raises_run|]. case_match; [|intros [= <-]; raises_run].
  destruct (SigHash _ _ _); [|done]. intros [= <-]. raises_run.
Qed.

Lemma block_error_validSignatures t h x :
  validSignatures t h = Some x -> err_in block_error x.
Proof.
  unfold validSignatures, run_err. intros Hx.
  assert (Hr : raises block_error (validSignatures_body t h)).
  { unfold validSignatures_body, validCoveredFields, add_inputs, add_input, check_signature,
      all_signed, block_error. raises_run.
    apply raises_lift. by apply block_error_verify_sig. }
  destruct (validSignatures_body t h ∅) as [|e s|] eqn:E1; [by injection Hx as <-|injection Hx as <-|done].
  intros e' [= <-]. by eapply Hr.
Qed.

Lemma block_error_StandaloneValid t h x :
  StandaloneValid t h = Some x -> err_in block_error x.
Proof.
  unfold StandaloneValid. case_match eqn:Hr.
  - intros [= <-] e' [= <-].
    match type of Hr with ?l = _ => assert (Hl : err_in block_error l); [|by apply Hl] end.
    clear Hr. unfold fitsInABlock, followsStorageProofRules, noRepeats, followsMinimumValues,
      correctFileContracts, correctFileContractRevisions, validUnlockConditions,
      validUnlockConditions_one, block_error. raises_run.
  - apply block_error_validSignatures.
Qed.

Lemma raises_validTransaction t : raises block_error (validTransaction t).
Proof.
  unfold validTransaction. apply raises_bind; [by apply raises_gets|intros h].
  apply raises_bind; [apply raises_lift, block_error_StandaloneValid|intros _].
  unfold validSiacoins, validStorageProofs, validStorageProofs100e3, storageProofSegment,
    validFileContractRevisions, validSiafunds, get_fc_or_err, getSiacoinOutput, getFileContract,
    getPath, blockHeight, getSiafundOutput, block_error.
  raises_run.
Qed.
#[local] Hint Resolve raises_validTransaction : raises.

Lemma raises_scod d dir : raises block_error (commitSiacoinOutputDiff d dir).
Proof.
  unfold commitSiacoinOutputDiff, addSiacoinOutput, removeSiacoinOutput. raises_run.
Qed.
Lemma raises_fcd d dir : raises block_error (commitFileContractDiff d dir).
Proof. unfold commitFileContractDiff, addFileContract, removeFileContract. raises_run. Qed.
Lemma raises_sfod d dir : raises block_error (commitSiafundOutputDiff d dir).
Proof. unfold commitSiafundOutputDiff, addSiafundOutput, removeSiafundOutput. raises_run. Qed.
Lemma raises_dscod d dir : raises block_error (commitDelayedSiacoinOutputDiff d dir).
Proof. unfold commitDelayedSiacoinOutputDiff, addDSCO, removeDSCO. raises_run. Qed.
Lemma raises_sfpd d dir : raises block_error (commitSiafundPoolDiff d dir).
Proof. unfold commitSiafundPoolDiff, setSiafundPool, getSiafundPool. raises_run. Qed.
#[local] Hint Resolve raises_scod raises_fcd raises_sfod raises_dscod raises_sfpd : raises.

Lemma raises_generateAndApplyDiff : raises block_error generateAndApplyDiff.
Proof.
  unfold generateAndApplyDiff, apply_block_effects, applyMaintenance, applyMinerPayouts,
    applyMaturedSiacoinOutputs, applyFileContractMaintenance, applyMissedStorageProof,
    apply_airdrop, apply_hardfork, updateCurrentPath, applyTransaction, applySiacoinInputs,
    applySiacoinOutputs, applyFileContracts, applyFileContractRevisions, applyStorageProofs,
    applySiafundInputs, applySiafundOutputs, siafundClaim, getSiafundHardforkPool,
    createDSCOBucket, deleteDSCOBucket, currentBlockID, setSiafundHardforkPool, getSiafundPool,
    getSiafundOutput, getFileContract, getSiacoinOutput, isSiacoinOutput, getPath, blockHeight,
    pushPath, popPath.
  raises_run.
Qed.

End errors.

(** ** Siafunds of the developers' address *)

(** The siafund inputs of the block are not unlocked by [devAddr]'s
    conditions. *)
Definition dev_untouched `{Crypto} `{SiaEncoding} (b : Block) : Prop :=
  forall t sfi, t ∈ b_Transactions b -> sfi ∈ t_SiafundInputs t ->
    UnlockConditions_UnlockHash (sfi_UnlockConditions sfi) <> devAddr.

(** No siafund output of [devAddr] is recorded as removed. *)
Definition idle_diff (x : SiafundOutputDiff) : Prop :=
  sfod_Direction x = DiffRevert -> sfo_UnlockHash (sfod_SiafundOutput x) <> devAddr.
Definition idle (s : blockState) : Prop := Forall idle_diff (pb_SiafundOutputDiffs (bs_pb s)).

(** What an operation that does not deal with siafunds keeps. *)
Definition fund_view (d : DB) := (db_SiafundOutputs d, db_BlockHeight d).
Definition funds_of (s : blockState) := (fund_view (bs_db s), pb_SiafundOutputDiffs (bs_pb s)).

Section idle.
Context {B : Build} {P : Params} {C : Crypto} {E : SiaEncoding}.

Lemma keeps_scod d dir : keeps fund_view (commitSiacoinOutputDiff d dir).
Proof.
  unfold commitSiacoinOutputDiff, addSiacoinOutput, removeSiacoinOutput. keeps_run.
Qed.
Lemma keeps_fcd d dir : keeps fund_view (commitFileContractDiff d dir).
Proof. unfold commitFileContractDiff, addFileContract, removeFileContract. keeps_run. Qed.
Lemma keeps_dscod d dir : keeps fund_view (commitDelayedSiacoinOutputDiff d dir).
Proof. unfold commitDelayedSiacoinOutputDiff, addDSCO, removeDSCO. keeps_run. Qed.
Lemma keeps_sfpd d dir : keeps fund_view (commitSiafundPoolDiff d dir).
Proof. unfold commitSiafundPoolDiff, setSiafundPool, getSiafundPool. keeps_run. Qed.
#[local] Hint Resolve keeps_scod keeps_fcd keeps_dscod keeps_sfpd : keeps.

Lemma keeps_siafundClaim sfo : keeps fund_view (siafundClaim sfo).
Proof. unfold siafundClaim, getSiafundHardforkPool. keeps_run. Qed.
#[local] Hint Resolve keeps_siafundClaim : keeps.

Lemma keeps_maintenance : keeps funds_of applyMaintenance.
Proof.
  unfold applyMaintenance, applyMinerPayouts, applyMaturedSiacoinOutputs,
    applyFileContractMaintenance, applyMissedStorageProof, deleteDSCOBucket, funds_of.
  keeps_run.
Qed.

Lemma keeps_applySiacoinInputs t : keeps funds_of (applySiacoinInputs t).
Proof. unfold applySiacoinInputs, funds_of. keeps_run. Qed.
Lemma keeps_applySiacoinOutputs t : keeps funds_of (applySiacoinOutputs t).
Proof. unfold applySiacoinOutputs, funds_of. keeps_run. Qed.
Lemma keeps_applyFileContracts t : keeps funds_of (applyFileContracts t).
Proof. unfold applyFileContracts, funds_of. keeps_run. Qed.
Lemma keeps_applyFileContractRevisions t : keeps funds_of (applyFileContractRevisions t).
Proof. unfold applyFileContractRevisions, funds_of. keeps_run. Qed.
Lemma keeps_applyStorageProofs t : keeps funds_of (applyStorageProofs t).
Proof. unfold applyStorageProofs, funds_of. keeps_run. Qed.

(** What [validSiafunds] checks of the owners. *)
Definition owners (m : gmap Hash SiafundOutput) (h : BlockHeight) (l : list SiafundInput) : Prop :=
  forall sfi, sfi ∈ l -> exists w, m !! sfi_ParentID sfi = Some w /\
    UnlockConditions_UnlockHash (sfi_UnlockConditions sfi) = sfo_UnlockHash (dev_remap h w).

Lemma validSiafunds_owners t d d' :
  validSiafunds t d = Ret () d' ->
  owners (db_SiafundOutputs d) (db_BlockHeight d) (t_SiafundInputs t).
Proof.
  unfold validSiafunds. intros (sum & d1 & Hrun & _)%bind_Ret. revert Hrun.
  generalize Currency.ZeroCurrency. generalize 0.
  induction (t_SiafundInputs t) as [|sfi l IH]; intros i acc Hrun sfi' Hin.
  - by apply not_elem_of_nil in Hin.
  - rewrite for_fold_cons in Hrun. unfold getSiafundOutput, gets, mbind, M_bind in Hrun.
    destruct (db_SiafundOutputs d !! sfi_ParentID sfi) as [w|] eqn:Hw; [|done].
    cbn [fmap option_fmap option_map] in Hrun.
    destruct (err_if _ _) eqn:Hc; [done|]. cbn [check mret M_ret] in Hrun.
    apply elem_of_cons in Hin as [->|Hin]; [|by eapply IH].
    exists w. split; [done|]. apply err_if_None in Hc. bool_prop. by apply dec_stable.
Qed.

End idle.

Section idle_block.
Context {P : Params} {C : Crypto} {E : SiaEncoding} (r : release).
#[local] Hint Extern 0 Build => exact (debug_build r) : typeclass_instances.

Lemma for_index_inv {S A} (body : Z -> A -> M S ()) (I : S -> Prop) l s u s' :
  (forall i x s s', I s -> body i x s = Ret () s' -> I s') ->
  I s -> for_index body l s = Ret u s' -> I s'.
Proof.
  intros Hb Hs Hrun%for_index_each. eapply (for_each_inv _ I) in Hrun; [done| |done].
  intros [i x] s1 s2 _. apply Hb.
Qed.

Lemma readonly_bind_Ret {S A X} (m : M S A) (f : A -> M S X) s b s' :
  readonly m -> (m ≫= f) s = Ret b s' -> exists a, m s = Ret a s /\ f a s = Ret b s'.
Proof.
  intros Hm (a & s1 & H1 & H2)%bind_Ret. specialize (Hm s). rewrite H1 in Hm. subst s1. eauto.
Qed.

Lemma applySiafundInputs_idle t s s' m :
  (forall id w, db_SiafundOutputs (bs_db s) !! id = Some w -> m !! id = Some w) ->
  owners m (db_BlockHeight (bs_db s)) (t_SiafundInputs t) ->
  (forall sfi, sfi ∈ t_SiafundInputs t ->
     UnlockConditions_UnlockHash (sfi_UnlockConditions sfi) <> devAddr) ->
  idle s -> applySiafundInputs t s = Ret () s' -> idle s'.
Proof.
  intros Hm Hown Hdev Hidle Hrun. unfold applySiafundInputs in Hrun.
  eapply (for_each_inv _ (fun s1 => idle s1 /\
    (forall id w, db_SiafundOutputs (bs_db s1) !! id = Some w -> m !! id = Some w) /\
    db_BlockHeight (bs_db s1) = db_BlockHeight (bs_db s))) in Hrun as (? & _); [done| |done].
  clear s' Hrun. intros sfi s1 s2 Hin (Hi & Hsub & Hh) Hrun. inv_run.
  match goal with H : get_or_zero _ _ _ = _ |- _ => apply get_or_zero_Ret in H as [Hv ->] end.
  match goal with H : on_db (siafundClaim _) _ = _ |- _ =>
    apply on_db_silent in H as [-> H]; [|apply silent_siafundClaim] end.
  match goal with H : record_dscod _ _ = Ret _ ?s3 |- _ => rename s3 into sm, H into Hd end.
  assert (Hk : funds_of sm = funds_of s1).
  { revert Hd. apply (keeps_bind funds_of); unfold funds_of; [by apply keeps_modify|].
    intros _. apply (keeps_on_db fund_view pb_SiafundOutputDiffs), keeps_dscod. }
  unfold funds_of, fund_view in Hk. injection Hk as Hk1 Hk2 Hk3.
  match goal with H : record_sfod _ _ = _ |- _ =>
    apply record_sfod_Ret in H as [_ ->]; [|intros _; rewrite Hk1, Hk2; exact Hv] end.
  cbn in Hv |- *. rewrite Hk1, Hk2. split_and!.
  - unfold idle. cbn. rewrite Hk3. apply Forall_app. split; [exact Hi|].
    apply Forall_singleton. intros _. cbn.
    destruct (db_SiafundOutputs (bs_db s1) !! sfi_ParentID sfi) as [w|] eqn:Hw; [|done].
    injection Hv as <-. destruct (Hown sfi Hin) as (w' & Hw' & Hhash).
    apply Hsub in Hw. rewrite Hw' in Hw. injection Hw as ->. rewrite Hh, <- Hhash. by apply Hdev.
  - intros id w [_ Hw]%lookup_delete_Some. by apply Hsub.
  - done.
Qed.

Lemma applySiafundOutputs_idle t s s' :
  idle s -> applySiafundOutputs t s = Ret () s' -> idle s'.
Proof.
  intros Hi Hrun. unfold applySiafundOutputs in Hrun.
  eapply (for_index_inv _ idle) in Hrun; [done| |done]. clear s s' Hi Hrun.
  intros i sfo s s' Hi Hrun. inv_run.
  match goal with H : on_db _ _ = _ |- _ =>
    apply on_db_silent in H as [-> H]; [|apply silent_gets] end.
  match goal with H : record_sfod _ _ = _ |- _ =>
    apply record_sfod_Ret in H as [_ ->]; [|done] end.
  unfold idle. cbn. apply Forall_app. split; [exact Hi|]. by apply Forall_singleton.
Qed.

Lemma transaction_idle t s s' :
  (forall sfi, sfi ∈ t_SiafundInputs t ->
     UnlockConditions_UnlockHash (sfi_UnlockConditions sfi) <> devAddr) ->
  idle s -> (_ ← on_db (validTransaction t); applyTransaction t) s = Ret () s' -> idle s'.
Proof.
  intros Hdev Hi ([] & s0 & (d & Hv & ->)%on_db_Ret & Happ)%bind_Ret.
  pose proof (readonly_validTransaction r t (bs_db s)) as Hro. rewrite Hv in Hro. subst d.
  rewrite mkBlockState_eta in Happ.
  assert (Hown : owners (db_SiafundOutputs (bs_db s)) (db_BlockHeight (bs_db s))
    (t_SiafundInputs t)).
  { unfold validTransaction in Hv.
    apply readonly_bind_Ret in Hv as (h & _ & Hv); [|apply readonly_gets].
    apply readonly_bind_Ret in Hv as (_ & _ & Hv);
      [|unfold lift_err; case_match; [apply readonly_check|apply readonly_panic]].
    apply readonly_bind_Ret in Hv as (_ & _ & Hv); [|apply readonly_validSiacoins].
    apply readonly_bind_Ret in Hv as (_ & _ & Hv); [|apply readonly_validStorageProofs].
    apply readonly_bind_Ret in Hv as (_ & _ & Hv); [|apply readonly_validFileContractRevisions].
    by eapply validSiafunds_owners. }
  unfold applyTransaction in Happ. inv_run.
  match goal with H : applySiacoinInputs _ _ = _ |- _ => apply keeps_applySiacoinInputs in H as K1 end.
  match goal with H : applySiacoinOutputs _ _ = _ |- _ => apply keeps_applySiacoinOutputs in H as K2 end.
  match goal with H : applyFileContracts _ _ = _ |- _ => apply keeps_applyFileContracts in H as K3 end.
  match goal with H : applyFileContractRevisions _ _ = _ |- _ =>
    apply keeps_applyFileContractRevisions in H as K4 end.
  match goal with H : applyStorageProofs _ _ = Ret _ ?s5 |- _ =>
    apply keeps_applyStorageProofs in H as K5; rename s5 into s5 end.
  match goal with H : applySiafundInputs _ ?s5 = _ |- _ => rename H into R6;
    assert (K : funds_of s5 = funds_of s) by congruence end.
  unfold funds_of, fund_view in K. injection K as Kf Kh Kd.
  eapply applySiafundOutputs_idle; [|eassumption].
  eapply (applySiafundInputs_idle t _ _ (db_SiafundOutputs (bs_db s))); [| |done| |exact R6].
  - by rewrite Kf.
  - by rewrite Kh.
  - unfold idle. by rewrite Kd.
Qed.

(** A block that leaves the developers' address alone records no removal of
    one of its outputs. *)
Lemma generateAndApplyDiff_idle d pb s' :
  ordinary pb -> dev_untouched (pb_Block pb) -> pb_SiafundOutputDiffs pb = [] ->
  generateAndApplyDiff (mkBlockState d pb) = Ret () s' -> idle s'.
Proof.
  intros Hord Hdev Hnil Hrun.
  destruct (generateAndApplyDiff_Ret r d pb _ Hrun) as (_ & s1 & Heff & ->).
  change (idle s1). clear Hrun.
  destruct (apply_block_effects_shape r d pb s1 Hord Heff)
    as (_ & s2 & s3 & s4 & Htx & Hmp & Hmat & Hfc).
  assert (Hm : funds_of s1 = funds_of s2).
  { apply (keeps_maintenance s2 () s1). unfold applyMaintenance, mbind, M_bind.
    by rewrite Hmp, Hmat. }
  unfold funds_of, fund_view in Hm. injection Hm as _ _ Hm. unfold idle. rewrite Hm.
  change (idle s2). eapply (for_each_inv _ idle) in Htx; [done| |].
  - intros t sa sb Hin. apply transaction_idle. intros sfi. by apply Hdev.
  - unfold idle. cbn. rewrite Hnil. constructor.
Qed.

End idle_block.
