(* ===== verification/Chain.v ===== *)
(** * The consensus set as a chain of validated blocks

    The invariant of the consensus set across accepted blocks, stored side
    chains and reorganisations, in a debug build whose sanity checks pass: the
    outputs, contracts, pool and path of the database are those left by the
    last block of the current path, and every block of the tree whose diffs
    are generated was validated and applied on the state its parent left.

    [sigma] is the ghost state: the database right after each generated block. *)

From stdpp Require Import functions.
From S2P Require Import Prelude Bytes Interfaces Currency Types Params Encoding Transactions.
From S2P Require Import Subsidy ConsensusDB ApplyTransaction ConsensusValid.
From S2P Require Import GenerateDiffs ProcessedBlock BlockValidation Fork Accept.
From S2P Require Import Journal Agree Records Steps Revert RevertApply Frames.

Open Scope Z_scope.

(** The block map. *)
Abbreviation tree := (gmap BlockID processedBlock).

Section chain.
Context {P : Params} {C : Crypto} {E : SiaEncoding} (r : release).
#[local] Hint Extern 0 Build => exact (debug_build r) : typeclass_instances.

(** ** Definitions *)

(** Databases at the end of the same path with the same outputs, contracts
    and pool. *)
Record same_tip (e d : DB) : Prop := mkSameTip {
  st_core : same_core id e d;
  st_height : db_BlockHeight e = db_BlockHeight d;
  st_path : db_BlockPath e = db_BlockPath d
}.

(** A node as [newChild] makes it. *)
Definition fresh (pb : processedBlock) : Prop :=
  no_diffs pb /\ pb_DiffsGenerated pb = false.

(** The blocks considered: no siafunds of the developers' address are spent,
    and no block has the zero ID, which stands for no block. *)
Definition admissible (b : Block) : Prop := dev_untouched b /\ Block_ID b <> zero_hash.

(** Heights before the airdrop and the hardforks. *)
Definition below_forks (n : Z) : Prop :=
  n <= SpfAirdropHeight /\ n <= SpfHardforkHeight /\ n <= SpfSecondHardforkHeight /\
  n <= 2 ^ 63.

(** The block was generated on a database like the one its parent left. *)
Definition generated (sigma : BlockID -> DB) (pb : processedBlock) : Prop :=
  exists e0 pb0,
    same_tip e0 (sigma (b_ParentID (pb_Block pb))) /\ fcex_ok e0 /\ fresh pb0 /\
    pb_Block pb0 = pb_Block pb /\ pb_Height pb0 = pb_Height pb /\
    generateAndApplyDiff (mkBlockState e0 pb0)
      = Ret () (mkBlockState (sigma (Block_ID (pb_Block pb))) pb).

Definition root_node (pb : processedBlock) : Prop :=
  pb_Block pb = GenesisBlock /\ pb_Height pb = 0 /\ pb_DiffsGenerated pb = true.

Record child_node (sigma : BlockID -> DB) (t : tree) (pb parent : processedBlock) : Prop :=
  mkChildNode {
  cn_parent : t !! b_ParentID (pb_Block pb) = Some parent;
  cn_height : pb_Height pb = pb_Height parent + 1;
  cn_payouts : checkMinerPayouts (pb_Block pb) (pb_Height pb) = true;
  cn_admissible : admissible (pb_Block pb);
  cn_state : fresh pb \/
    pb_DiffsGenerated pb = true /\ pb_DiffsGenerated parent = true /\ generated sigma pb
}.

(** The ghost state of a block has the block's height and a path up to it. *)
Record ghost_ok (d : DB) (pb : processedBlock) : Prop := mkGhostOk {
  gh_height : db_BlockHeight d = pb_Height pb;
  gh_path : forall h, is_Some (db_BlockPath d !! h) <-> 0 <= h <= pb_Height pb
}.

Record node_ok (sigma : BlockID -> DB) (n : Z) (t : tree) (id : BlockID) (pb : processedBlock)
  : Prop := mkNodeOk {
  nd_key : Block_ID (pb_Block pb) = id;
  nd_height : 0 <= pb_Height pb < n;
  nd_ghost : pb_DiffsGenerated pb = true -> ghost_ok (sigma id) pb;
  nd_kind : root_node pb \/ exists parent, child_node sigma t pb parent
}.

Definition tree_ok (sigma : BlockID -> DB) (n : Z) (t : tree) : Prop :=
  forall id pb, t !! id = Some pb -> node_ok sigma n t id pb.

(** The block at a height of the path, and its parent below it. *)
Definition on_path (t : tree) (path : gmap Z BlockID) (h : Z) (id : BlockID) : Prop :=
  exists pb, t !! id = Some pb /\ pb_Height pb = h /\ pb_DiffsGenerated pb = true /\
    (0 < h -> path !! (h - 1) = Some (b_ParentID (pb_Block pb))).

Record chain_ok (sigma : BlockID -> DB) (n : Z) (d : DB) : Prop := mkChainOk {
  co_genesis : loadDB empty_DB = Ret () (sigma GenesisID);
  co_fcex : fcex_ok d;
  co_tree : tree_ok sigma n (db_BlockMap d);
  co_path : forall h id, db_BlockPath d !! h = Some id ->
    on_path (db_BlockMap d) (db_BlockPath d) h id;
  co_tip : exists tip, db_BlockPath d !! db_BlockHeight d = Some tip /\ same_tip d (sigma tip)
}.

(** ** Reverting and repeating generated blocks *)

Lemma same_tip_refl d : same_tip d d.
Proof. split; [apply same_core_refl|done..]. Qed.
Lemma same_tip_sym e d : same_tip e d -> same_tip d e.
Proof. intros []. split; [by apply same_core_sym|done..]. Qed.
Lemma same_tip_trans d1 d2 d3 : same_tip d1 d2 -> same_tip d2 d3 -> same_tip d1 d3.
Proof. intros [] []. split; [by eapply same_core_trans|congruence..]. Qed.

Lemma idle_exact h l m :
  Forall idle_diff l -> jlegal (dev_remap h) (sfod_edit <$> l) m ->
  jlegal id (sfod_edit <$> l) m.
Proof.
  intros Hl. revert m. induction Hl as [|x l Hx Hl IH]; intros m; cbn; [done|].
  intros [Hok Hrest]. split; [|by apply IH].
  destruct x as [[] k v]; cbn in *; [done|].
  destruct Hok as (w & Hw & Hv). exists w. split; [done|]. specialize (Hx eq_refl).
  unfold dev_remap in Hv. repeat case_match; try done. subst v. by destruct Hx.
Qed.

Lemma recorded_exact h d0 d pb :
  Forall idle_diff (pb_SiafundOutputDiffs pb) ->
  recorded (dev_remap h) d0 d pb -> recorded id d0 d pb.
Proof.
  intros Hidle [[Ts Tf [Tg Tg'] Td Tp Th To] ? ? ? ? ?].
  constructor; try done. constructor; try done. split; [by eapply idle_exact|done].
Qed.

Lemma ordinary_below n pb : below_forks n -> 0 <= pb_Height pb < n -> ordinary pb.
Proof.
  intros (H1 & H2 & H3 & H4) Hh. split; [lia|]. unfold IsSpfHardfork.
  destruct (Z.eqb_spec (pb_Height pb) SpfHardforkHeight); [lia|].
  destruct (Z.eqb_spec (pb_Height pb) SpfSecondHardforkHeight); [lia|done].
Qed.

Lemma generated_recorded sigma pb :
  ordinary pb -> dev_untouched (pb_Block pb) -> generated sigma pb ->
  let bid := Block_ID (pb_Block pb) in
  exists e0 d, same_tip e0 (sigma (b_ParentID (pb_Block pb))) /\ recorded id e0 d pb /\
    same_core id (sigma bid) d /\ fcex_ok (sigma bid) /\
    db_BlockHeight (sigma bid) = u64 (db_BlockHeight e0 + 1) /\
    db_BlockPath (sigma bid) = <[u64 (db_BlockHeight e0 + 1) := bid]> (db_BlockPath e0).
Proof.
  intros Hord Hdev (e0 & pb0 & Htip & Hok & [Hnd _] & Hb & Hh & Hrun) bid.
  assert (Hord0 : ordinary pb0) by (unfold ordinary; by rewrite Hh).
  destruct (generateAndApplyDiff_recorded r e0 pb0 _ _ Hok Hord0 Hnd Hrun)
    as (d & Hrec & Hsame & Hok1 & _ & _ & _ & Ho).
  unfold others in Ho. cbn in Ho. injection Ho as O1 _ O3 _ _ _ _ _.
  exists e0, d. split_and!; try done; [|by rewrite Hb in O3].
  eapply recorded_exact; [|exact Hrec].
  apply (generateAndApplyDiff_idle r e0 pb0 _ Hord0) in Hrun; [exact Hrun|by rewrite Hb|].
  by destruct Hnd as (_ & _ & ? & _).
Qed.

Lemma commit_release pb dir d d' :
  commitDiffSet pb dir d = Ret () d' ->
  commitDiffSet (B:=release_build r) pb dir d = Ret () d'.
Proof.
  intros Hrun. destruct (agree_commitDiffSet r pb dir d) as [[msg Hp]|Ha]; congruence.
Qed.

(** The last block of the path. *)
Lemma chain_tip sigma n d :
  chain_ok sigma n d ->
  exists pb, let tip := Block_ID (pb_Block pb) in
    db_BlockPath d !! db_BlockHeight d = Some tip /\ db_BlockMap d !! tip = Some pb /\
    pb_Height pb = db_BlockHeight d /\ pb_DiffsGenerated pb = true /\
    same_tip d (sigma tip) /\ 0 <= db_BlockHeight d < n /\
    (forall h, is_Some (db_BlockPath d !! h) <-> 0 <= h <= db_BlockHeight d).
Proof.
  intros [_ _ Htree Hpath (tip & Htip & Hsame)].
  destruct (Hpath _ _ Htip) as (pb & Hpb & Hh & Hg & _).
  destruct (Htree _ _ Hpb) as [Hkey Hrange Hghost _]. destruct (Hghost Hg) as [_ Hdom].
  exists pb. cbn. rewrite Hkey. split_and!; try done; [lia..|].
  intros h. rewrite (st_path _ _ Hsame), Hdom. by rewrite Hh.
Qed.

Lemma chain_path_same sigma n d h bid :
  chain_ok sigma n d -> db_BlockPath d !! h = Some bid ->
  exists pb, db_BlockMap d !! bid = Some pb /\ pb_Height pb = h /\
    pb_DiffsGenerated pb = true /\ Block_ID (pb_Block pb) = bid.
Proof.
  intros Hc Hh. destruct (co_path _ _ _ Hc _ _ Hh) as (pb & Hpb & ? & ? & _).
  exists pb. split_and!; try done. by destruct (co_tree _ _ _ Hc _ _ Hpb).
Qed.

(** A block above the genesis block has a parent. *)
Lemma child_of_height sigma n t bid pb :
  tree_ok sigma n t -> t !! bid = Some pb -> 0 < pb_Height pb ->
  exists parent, child_node sigma t pb parent.
Proof.
  intros Ht Hpb Hh. destruct (Ht _ _ Hpb) as [_ _ _ [(_ & H0 & _)|Hc]]; [lia|done].
Qed.

Lemma revert_tip sigma n d pb :
  below_forks n -> chain_ok sigma n d -> 0 < db_BlockHeight d ->
  db_BlockPath d !! db_BlockHeight d = Some (Block_ID (pb_Block pb)) ->
  db_BlockMap d !! Block_ID (pb_Block pb) = Some pb ->
  exists d', commitDiffSet (B:=release_build r) pb DiffRevert d = Ret () d' /\
  chain_ok sigma n d' /\ db_BlockMap d' = db_BlockMap d /\
  db_BlockHeight d' = db_BlockHeight d - 1 /\
  db_BlockPath d' = delete (db_BlockHeight d) (db_BlockPath d).
Proof.
  intros Hn Hc Hpos Hpath Hpb.
  destruct (chain_tip _ _ _ Hc) as (pb' & Hpath' & Hpb' & Hh & Hg & Hsame & Hrange & Hdom).
  assert (pb' = pb) as -> by congruence. clear Hpath' Hpb'.
  destruct (child_of_height _ _ _ _ _ (co_tree _ _ _ Hc) Hpb) as [parent Hchild]; [lia|].
  pose proof (ordinary_below n pb Hn ltac:(lia)) as Hord.
  destruct Hchild as [Hpar Hhp _ [Hdev _] [[_ Hf]|(_ & Hgp & Hgen)]]; [congruence|].
  destruct (generated_recorded sigma pb Hord Hdev Hgen)
    as (e0 & d1 & Htip & Hrec & Hd1 & _ & Hht & Hpt).
  destruct (nd_ghost _ _ _ _ _ (co_tree _ _ _ Hc _ _ Hpar) Hgp) as [Hgh Hgp'].
  assert (He0 : db_BlockHeight e0 = db_BlockHeight d - 1)
    by (rewrite (st_height _ _ Htip), Hgh; lia).
  assert (Hu : u64 (db_BlockHeight e0 + 1) = db_BlockHeight d)
    by (destruct Hn as (_ & _ & _ & ?); rewrite u64_small; unfold is_u64; lia).
  rewrite Hu in Hpt.
  destruct (commitDiffSet_revert_core r id (fun _ => eq_refl) e0 d1 pb d Hrec) as
    (d' & Hrun & Hcore & Hok & Ho).
  { eapply same_core_trans; [apply (st_core _ _ Hsame)|done]. }
  { apply (co_fcex _ _ _ Hc). }
  exists d'.
  unfold others, popped in Ho. cbn in Ho. injection Ho as O1 O2 O3 _ _ _ _ _.
  rewrite (u64_small (db_BlockHeight d - 1)) in O1
    by (destruct Hn as (_ & _ & _ & ?); unfold is_u64; lia).
  split_and!; [done| |done..]. split.
  - apply (co_genesis _ _ _ Hc).
  - done.
  - rewrite O2. apply (co_tree _ _ _ Hc).
  - intros h bid. rewrite O2, O3. intros [Hne Hl]%lookup_delete_Some.
    destruct (co_path _ _ _ Hc _ _ Hl) as (pb2 & ? & ? & ? & Hprev). exists pb2.
    split_and!; try done. intros Hh'. rewrite lookup_delete_ne; [by apply Hprev|].
    assert (is_Some (db_BlockPath d !! h)) as Hs by (by exists bid). apply Hdom in Hs. lia.
  - exists (b_ParentID (pb_Block pb)). rewrite O1, O3. split.
    + rewrite lookup_delete_ne by lia.
      destruct (co_path _ _ _ Hc _ _ Hpath) as (pb2 & Hpb2 & _ & _ & Hprev).
      assert (pb2 = pb) as -> by congruence. by apply Hprev.
    + eapply same_tip_trans; [|exact Htip]. split; [done|by rewrite O1|].
      rewrite O3, (st_path _ _ Hsame), Hpt. apply delete_insert_id.
      rewrite (st_path _ _ Htip). apply eq_None_not_Some. intros Hl%Hgp'. lia.
Qed.

(** A block is appended to the path. *)
Lemma extend_path t t' path h bid pb :
  (forall x y, t !! x = Some y -> pb_DiffsGenerated y = true -> t' !! x = Some y) ->
  (forall k x, path !! k = Some x -> on_path t path k x) ->
  (forall k, is_Some (path !! k) <-> 0 <= k <= h) ->
  t' !! bid = Some pb -> pb_Height pb = h + 1 -> pb_DiffsGenerated pb = true ->
  path !! h = Some (b_ParentID (pb_Block pb)) ->
  forall k x, <[h + 1 := bid]> path !! k = Some x -> on_path t' (<[h + 1 := bid]> path) k x.
Proof.
  intros Hsub Hpath Hdom Hpb Hh Hg Hpar k x [[<- <-]|[Hne Hx]]%lookup_insert_Some.
  - exists pb. split_and!; try done. intros _.
    rewrite lookup_insert_ne by lia. by replace (h + 1 - 1) with h by lia.
  - destruct (Hpath _ _ Hx) as (y & Hy & ? & ? & Hprev). exists y.
    assert (0 <= k <= h) by (apply Hdom; by exists x).
    split_and!; [by apply Hsub|done..|]. intros Hk. rewrite lookup_insert_ne by lia. by apply Hprev.
Qed.

Lemma apply_known sigma n d d' pb parent :
  below_forks n -> chain_ok sigma n d ->
  db_BlockPath d !! db_BlockHeight d = Some (b_ParentID (pb_Block pb)) ->
  db_BlockMap d !! Block_ID (pb_Block pb) = Some pb -> pb_DiffsGenerated pb = true ->
  child_node sigma (db_BlockMap d) pb parent ->
  commitDiffSet pb DiffApply d = Ret () d' ->
  chain_ok sigma n d' /\ db_BlockMap d' = db_BlockMap d /\
  db_BlockHeight d' = db_BlockHeight d + 1 /\
  db_BlockPath d' = <[db_BlockHeight d + 1 := Block_ID (pb_Block pb)]> (db_BlockPath d).
Proof.
  intros Hn Hc Hpath Hpb Hg Hchild Hrun%commit_release.
  destruct (chain_tip _ _ _ Hc) as (ptip & Hpath' & Hptip & Hh & Hgt & Hsame & Hrange & Hdom).
  destruct (co_tree _ _ _ Hc _ _ Hpb) as [_ Hheight Hghost _].
  pose proof (ordinary_below n pb Hn Hheight) as Hord.
  destruct Hchild as [Hpar Hhp _ [Hdev _] [[_ Hf]|(_ & Hgp & Hgen)]]; [congruence|].
  assert (Htipid : Block_ID (pb_Block ptip) = b_ParentID (pb_Block pb)) by congruence.
  rewrite Htipid in *. assert (ptip = parent) as -> by congruence.
  destruct (generated_recorded sigma pb Hord Hdev Hgen)
    as (e0 & d1 & Htip & Hrec & Hd1 & _ & Hht & Hpt).
  assert (Hd : same_tip d e0) by (eapply same_tip_trans; [exact Hsame|by apply same_tip_sym]).
  rewrite <- (st_path _ _ Hd) in Hpt.
  rewrite <- (st_height _ _ Hd), u64_small in Hpt, Hht
    by (destruct Hn as (_ & _ & _ & ?); unfold is_u64; lia).
  destruct (commitDiffSet_apply_core r id (fun _ => eq_refl) e0 d1 pb d Hrec) as
    (d2 & Hrun' & Hcore & Hok & Ho); [apply (st_core _ _ Hd)|apply (co_fcex _ _ _ Hc)|].
  rewrite Hrun in Hrun'. injection Hrun' as <-.
  unfold others, pushed in Ho. cbn in Ho. injection Ho as O1 O2 O3 _ _ _ _ _.
  rewrite u64_small in O1, O3 by (destruct Hn as (_ & _ & _ & ?); unfold is_u64; lia).
  split_and!; [|done..]. split.
  - apply (co_genesis _ _ _ Hc).
  - done.
  - rewrite O2. apply (co_tree _ _ _ Hc).
  - rewrite O2, O3. apply (extend_path (db_BlockMap d) _ _ _ _ pb); try done; [|lia].
    apply (co_path _ _ _ Hc).
  - exists (Block_ID (pb_Block pb)). rewrite O1, O3, lookup_insert_eq. split; [done|].
    split; [|congruence..]. eapply same_core_trans; [exact Hcore|by apply same_core_sym].
Qed.

(** A fresh node of the tree is replaced by its generated form. *)
Lemma tree_generate sigma n t pb pb' parent d1 :
  let bid := Block_ID (pb_Block pb) in
  let sigma' := <[bid := d1]> sigma in
  tree_ok sigma n t -> t !! bid = Some pb -> pb_DiffsGenerated pb = false ->
  child_node sigma t pb parent -> pb_DiffsGenerated parent = true ->
  pb_Block pb' = pb_Block pb -> pb_Height pb' = pb_Height pb -> pb_DiffsGenerated pb' = true ->
  generated sigma' pb' -> ghost_ok d1 pb' ->
  tree_ok sigma' n (<[bid := pb']> t).
Proof.
  intros bid sigma' Ht Hpb Hf [Cp Ch Cy Ca _] Hgp Hb Hh Hg Hgen Hghost id x.
  assert (Hne : b_ParentID (pb_Block pb) <> bid) by (intros Heq; rewrite Heq in Cp; congruence).
  intros [[<- <-]|[Hx Hid]]%lookup_insert_Some.
  - split; [by rewrite Hb| | |].
    + rewrite Hh. apply (Ht _ _ Hpb).
    + intros _. unfold sigma'. by rewrite fn_lookup_insert.
    + right. exists parent. rewrite <- Hh in Ch, Cy. rewrite <- Hb in Cp, Cy, Ca, Hne.
      split; [by rewrite lookup_insert_ne|done..|]. right. done.
  - destruct (Ht _ _ Hid) as [Hkey Hr Hgh Hkind]. split; [done..| |].
    + intros Hgx. unfold sigma'. rewrite fn_lookup_insert_ne by done. by apply Hgh.
    + destruct Hkind as [Hroot|[q [Qp Qh Qy Qa Qs]]]; [by left|right].
      destruct (decide (bid = b_ParentID (pb_Block x))) as [Heq|Hnq].
      * assert (q = pb) as -> by congruence. exists pb'.
        destruct Qs as [Hfresh|(_ & ? & _)]; [|congruence].
        split; [by rewrite <- Heq, lookup_insert_eq|by rewrite Hh|done..|by left].
      * exists q. split; [by rewrite lookup_insert_ne|done..|].
        destruct Qs as [Hfresh|(Hgx & Hgq & (e0 & pb0 & He0 & Hrest))]; [by left|right].
        split_and!; [done..|]. exists e0, pb0. unfold sigma'.
        rewrite !fn_lookup_insert_ne; [done| |done]. by rewrite Hkey.
Qed.

(** The genesis block is the one at height zero. *)
Lemma chain_root sigma n d :
  chain_ok sigma n d ->
  exists pb, db_BlockPath d !! 0 = Some GenesisID /\ db_BlockMap d !! GenesisID = Some pb /\
    root_node pb.
Proof.
  intros Hc. destruct (chain_tip _ _ _ Hc) as (_ & _ & _ & _ & _ & _ & Hr & Hdom).
  destruct (proj2 (Hdom 0) ltac:(lia)) as [bid Hb].
  destruct (chain_path_same _ _ _ _ _ Hc Hb) as (pb & Hpb & Hh & Hg & Hid).
  destruct (nd_kind _ _ _ _ _ (co_tree _ _ _ Hc _ _ Hpb)) as [Hroot|[q [Qp Qh _ _ _]]].
  - exists pb. destruct Hroot as (Hblk & ? & ?).
    assert (bid = GenesisID) as -> by (by rewrite <- Hid, Hblk). by repeat split.
  - pose proof (nd_height _ _ _ _ _ (co_tree _ _ _ Hc _ _ Qp)). lia.
Qed.

Lemma generate_result d pb d' pb' :
  fcex_ok d -> ordinary pb -> fresh pb ->
  generateAndApplyDiff (mkBlockState d pb) = Ret () (mkBlockState d' pb') ->
  let bid := Block_ID (pb_Block pb) in
  fcex_ok d' /\ pb_Block pb' = pb_Block pb /\ pb_Height pb' = pb_Height pb /\
  pb_Depth pb' = pb_Depth pb /\
  pb_DiffsGenerated pb' = true /\ db_BlockMap d' = <[bid := pb']> (db_BlockMap d) /\
  db_BlockHeight d' = u64 (db_BlockHeight d + 1) /\
  db_BlockPath d' = <[u64 (db_BlockHeight d + 1) := bid]> (db_BlockPath d).
Proof.
  intros Hok Hord [Hnd _] Hrun bid.
  destruct (generateAndApplyDiff_recorded r d pb d' pb' Hok Hord Hnd Hrun)
    as (d1 & _ & _ & Hok1 & Hb & Hh & Hd & Ho).
  unfold others in Ho. cbn in Ho. injection Ho as O1 O2 O3 _ _ _ _ _. rewrite Hb in O2.
  split_and!; try done.
  destruct (generateAndApplyDiff_Ret r d pb _ Hrun) as (_ & s1 & _ & Hs).
  by injection Hs as _ ->.
Qed.

Lemma apply_new sigma n d d' pb pb' parent :
  below_forks n -> chain_ok sigma n d ->
  db_BlockPath d !! db_BlockHeight d = Some (b_ParentID (pb_Block pb)) ->
  db_BlockMap d !! Block_ID (pb_Block pb) = Some pb -> pb_DiffsGenerated pb = false ->
  child_node sigma (db_BlockMap d) pb parent ->
  generateAndApplyDiff (mkBlockState d pb) = Ret () (mkBlockState d' pb') ->
  let bid := Block_ID (pb_Block pb) in
  (exists sigma', chain_ok sigma' n d') /\ pb_Block pb' = pb_Block pb /\
  pb_Depth pb' = pb_Depth pb /\ pb_Height pb' = pb_Height pb /\
  db_BlockMap d' = <[bid := pb']> (db_BlockMap d) /\
  db_BlockHeight d' = db_BlockHeight d + 1 /\
  db_BlockPath d' = <[db_BlockHeight d + 1 := bid]> (db_BlockPath d).
Proof.
  intros Hn Hc Hpath Hpb Hf Hchild Hrun bid. fold bid in Hpb.
  destruct (chain_tip _ _ _ Hc) as (ptip & Hpath' & Hptip & Hh & Hgt & Hsame & Hrange & Hdom).
  pose proof (nd_height _ _ _ _ _ (co_tree _ _ _ Hc _ _ Hpb)) as Hheight.
  pose proof (ordinary_below n pb Hn Hheight) as Hord.
  pose proof Hchild as [Hpar Hhp _ _ [Hfresh|(? & _)]]; [|congruence].
  assert (Htipid : Block_ID (pb_Block ptip) = b_ParentID (pb_Block pb)) by congruence.
  rewrite Htipid in *. assert (ptip = parent) as -> by congruence.
  destruct (generate_result d pb d' pb' (co_fcex _ _ _ Hc) Hord Hfresh Hrun)
    as (Hok' & Hb' & Hh' & Hd' & Hg' & O2 & O1 & O3). fold bid in O2, O3.
  rewrite u64_small in O1, O3 by (destruct Hn as (_ & _ & _ & ?); unfold is_u64; lia).
  split_and!; try done. exists (<[bid := d']> sigma).
  assert (Hpb' : db_BlockMap d' !! bid = Some pb') by (by rewrite O2, lookup_insert_eq).
  assert (Hpne : b_ParentID (pb_Block pb) <> bid) by (intros Heq; rewrite Heq in Hpar; congruence).
  split.
  - destruct (chain_root _ _ _ Hc) as (root & _ & Hroot & _ & _ & Hgr).
    rewrite fn_lookup_insert_ne; [apply (co_genesis _ _ _ Hc)|].
    intros Heq. rewrite <- Heq in Hroot. subst bid. congruence.
  - done.
  - rewrite O2. apply (tree_generate sigma n _ pb pb' parent); try done.
    + apply (co_tree _ _ _ Hc).
    + exists d, pb. rewrite Hb'. rewrite fn_lookup_insert, fn_lookup_insert_ne by done.
      split_and!; try done. apply (co_fcex _ _ _ Hc).
    + split; [lia|]. intros h. rewrite O3, lookup_insert_is_Some, Hdom. lia.
  - rewrite O3. apply (extend_path (db_BlockMap d) _ _ _ _ pb'); try done.
    + intros x y Hx Hy. rewrite O2, lookup_insert_ne; [done|].
      intros Heq. rewrite <- Heq in Hx. subst bid. congruence.
    + apply (co_path _ _ _ Hc).
    + lia.
    + by rewrite Hb'.
  - exists bid. rewrite O1, O3, lookup_insert_eq, fn_lookup_insert. split; [done|].
    apply same_tip_refl.
Qed.

End chain.
