(* ===== verification/ChainFork.v ===== *)
(** * Moving the consensus set between forks

    [backtrackToCurrentPath], [revertToBlock], [applyUntilBlock] and
    [forkBlockchain] keep the invariant of [Chain]; a successful fork ends at
    the block it was asked for. *)

From S2P Require Import Prelude Bytes Interfaces Currency Types Params Encoding Transactions.
From S2P Require Import Subsidy ConsensusDB ApplyTransaction ConsensusValid.
From S2P Require Import GenerateDiffs ProcessedBlock BlockValidation Fork Accept.
From S2P Require Import Journal Agree Records Steps Revert RevertApply Frames.
From S2P Require Import Chain.

Open Scope Z_scope.

Lemma in_db_Ret {A} (m : M DB A) s a s' :
  in_db m s = Ret a s' <-> exists d, m (cs_db s) = Ret a d /\ s' = with_db d s.
Proof.
  unfold in_db. destruct (m (cs_db s)); (split; [intros [=]|intros (d' & [=] & Hs)]);
    subst; eauto.
Qed.

Lemma with_db_eta s : with_db (cs_db s) s = s.
Proof. by destruct s. Qed.

Lemma in_db_readonly {A} (m : M DB A) s a s' :
  readonly m -> in_db m s = Ret a s' -> s' = s /\ m (cs_db s) = Ret a (cs_db s).
Proof.
  intros Hm (d & Hd & ->)%in_db_Ret. specialize (Hm (cs_db s)). rewrite Hd in Hm. subst d.
  by rewrite with_db_eta.
Qed.

(** ** Backtracking *)

Section trail.
Context {P : Params} {C : Crypto} {E : SiaEncoding}.

Definition block_id (pb : processedBlock) : BlockID := Block_ID (pb_Block pb).

(** The node is the one of the tree, and is on the path. *)
Definition in_tree (t : tree) (pb : processedBlock) : Prop := t !! block_id pb = Some pb.
Definition at_path (path : gmap Z BlockID) (pb : processedBlock) : Prop :=
  path !! pb_Height pb = Some (block_id pb).

(** The nodes from the path to a block. *)
Inductive trail (t : tree) (path : gmap Z BlockID) : processedBlock -> list processedBlock -> Prop :=
| trail_here pb : in_tree t pb -> at_path path pb -> trail t path pb [pb]
| trail_up pb parent l :
    in_tree t pb -> ~ at_path path pb -> t !! b_ParentID (pb_Block pb) = Some parent ->
    trail t path parent l -> trail t path pb (l ++ [pb]).

Lemma trail_det t path pb l1 l2 : trail t path pb l1 -> trail t path pb l2 -> l1 = l2.
Proof.
  intros H1. revert l2. induction H1 as [pb Hin Hat|pb parent l Hin Hat Hpar H1 IH];
    intros l2 H2; inversion H2; subst; try done.
  assert (parent0 = parent) as -> by congruence. f_equal. by apply IH.
Qed.

(** A list of nodes each of which is the child of the one before. *)
Fixpoint linked (bid : BlockID) (h : Z) (l : list processedBlock) : Prop :=
  match l with
  | [] => True
  | pb :: l =>
      b_ParentID (pb_Block pb) = bid /\ pb_Height pb = h + 1 /\ linked (block_id pb) (h + 1) l
  end.

Lemma linked_snoc bid h l pb :
  linked bid h (l ++ [pb]) <->
  linked bid h l /\
  (let lastid := default bid (block_id <$> last l) in
   b_ParentID (pb_Block pb) = lastid /\ pb_Height pb = h + Z.of_nat (length l) + 1).
Proof.
  revert bid h. induction l as [|x l IH]; intros bid h; cbn.
  - rewrite Z.add_0_r. tauto.
  - rewrite IH. replace (h + 1 + Z.of_nat (length l) + 1) with
      (h + Z.pos (Pos.of_succ_nat (length l)) + 1) by lia.
    destruct l as [|y l]; [cbn; tauto|].
    change (last (x :: y :: l)) with (last (y :: l)).
    destruct (last (y :: l)) eqn:Hl; [cbn; tauto|]. by apply last_None in Hl.
Qed.

End trail.

(** The path as a list, genesis block first. *)
Definition path_list (d : DB) (l : list BlockID) : Prop :=
  Z.of_nat (length l) = db_BlockHeight d + 1 /\
  forall i, db_BlockPath d !! Z.of_nat i = l !! i.

(** Takes the given blocks off the end of a path, the first one first. *)
Fixpoint unwind (reverted path : list BlockID) : option (list BlockID) :=
  match reverted with
  | [] => Some path
  | bid :: reverted =>
      if bool_decide (last path = Some bid) then unwind reverted (take (pred (length path)) path)
      else None
  end.

Definition depth_of (t : tree) (bid : BlockID) : option Target := pb_Depth <$> t !! bid.
Definition block_of (t : tree) (bid : BlockID) : option Block := pb_Block <$> t !! bid.

(** Nodes stay in the tree; all that changes is that diffs are generated. *)
Record same_node (pb pb' : processedBlock) : Prop := mkSameNode {
  sn_block : pb_Block pb' = pb_Block pb;
  sn_height : pb_Height pb' = pb_Height pb;
  sn_depth : pb_Depth pb' = pb_Depth pb;
  sn_generated : pb_DiffsGenerated pb = true -> pb' = pb
}.
Definition grows (t t' : tree) : Prop := forall bid pb,
  t !! bid = Some pb -> exists pb', t' !! bid = Some pb' /\ same_node pb pb'.

Lemma same_node_refl pb : same_node pb pb.
Proof. by split. Qed.
Lemma grows_refl t : grows t t.
Proof. intros bid pb Hpb. exists pb. split; [done|apply same_node_refl]. Qed.
Lemma grows_trans t1 t2 t3 : grows t1 t2 -> grows t2 t3 -> grows t1 t3.
Proof.
  intros H1 H2 bid pb (pb2 & Hpb2 & [B1 Hh1 D1 G1])%H1.
  destruct (H2 _ _ Hpb2) as (pb3 & Hpb3 & [B2 Hh2 D2 G2]). exists pb3. split; [done|].
  split; [congruence..|]. intros Hg. specialize (G1 Hg). subst pb2. by apply G2.
Qed.

Lemma grows_generated t t' bid pb :
  grows t t' -> t !! bid = Some pb -> pb_DiffsGenerated pb = true -> t' !! bid = Some pb.
Proof. intros Hg (pb' & Hpb' & Hs)%Hg Hgen. by rewrite (sn_generated _ _ Hs Hgen) in Hpb'. Qed.
Lemma grows_depth t t' bid x : grows t t' -> depth_of t bid = Some x -> depth_of t' bid = Some x.
Proof.
  intros Hg (pb & Hpb & ->)%fmap_Some. destruct (Hg _ _ Hpb) as (pb' & Hpb' & Hs).
  unfold depth_of. rewrite Hpb'. cbn. by rewrite (sn_depth _ _ Hs).
Qed.
Lemma grows_block t t' bid x : grows t t' -> block_of t bid = Some x -> block_of t' bid = Some x.
Proof.
  intros Hg (pb & Hpb & ->)%fmap_Some. destruct (Hg _ _ Hpb) as (pb' & Hpb' & Hs).
  unfold block_of. rewrite Hpb'. cbn. by rewrite (sn_block _ _ Hs).
Qed.
Lemma grows_insert_new t bid pb : t !! bid = None -> grows t (<[bid := pb]> t).
Proof.
  intros Hn x y Hx. exists y. split; [|apply same_node_refl].
  rewrite lookup_insert_ne; [done|congruence].
Qed.
Lemma grows_insert t bid pb pb' : t !! bid = Some pb -> same_node pb pb' -> grows t (<[bid := pb']> t).
Proof.
  intros Hpb Hs x y Hx. destruct (decide (bid = x)) as [<-|Hne].
  - exists pb'. assert (y = pb) as -> by congruence. by rewrite lookup_insert_eq.
  - exists y. rewrite lookup_insert_ne by done. split; [done|apply same_node_refl].
Qed.

Lemma path_list_last d l : path_list d l -> 0 <= db_BlockHeight d ->
  last l = db_BlockPath d !! db_BlockHeight d.
Proof.
  intros [Hlen Hl] Hh. rewrite last_lookup, <- Hl. f_equal. lia.
Qed.

Lemma path_list_unwind d d' l :
  path_list d l -> 0 < db_BlockHeight d -> db_BlockHeight d' = db_BlockHeight d - 1 ->
  db_BlockPath d' = delete (db_BlockHeight d) (db_BlockPath d) ->
  path_list d' (take (pred (length l)) l).
Proof.
  intros [Hlen Hl] Hpos Hh Hp. split; [rewrite length_take; lia|].
  intros i. rewrite Hp. destruct (decide (Z.of_nat i = db_BlockHeight d)) as [Hi|Hi].
  - rewrite Hi, lookup_delete_eq, lookup_take_ge by lia. done.
  - rewrite lookup_delete_ne, Hl by done. destruct (decide (i < pred (length l))%nat).
    + by rewrite lookup_take_lt.
    + rewrite lookup_take_ge by lia. apply lookup_ge_None. lia.
Qed.

Lemma path_list_snoc d d' l bid :
  path_list d l -> db_BlockHeight d' = db_BlockHeight d + 1 ->
  db_BlockPath d' = <[db_BlockHeight d + 1 := bid]> (db_BlockPath d) ->
  path_list d' (l ++ [bid]).
Proof.
  intros [Hlen Hl] Hh Hp. split; [rewrite length_app; cbn; lia|].
  intros i. rewrite Hp. destruct (decide (Z.of_nat i = db_BlockHeight d + 1)) as [Hi|Hi].
  - rewrite Hi, lookup_insert_eq, lookup_app_r by lia.
    by replace (i - length l)%nat with 0%nat by lia.
  - rewrite lookup_insert_ne, Hl by done. destruct (decide (i < length l)%nat).
    + by rewrite lookup_app_l.
    + rewrite !lookup_ge_None_2; [done| |lia]. rewrite length_app. cbn. lia.
Qed.

Section forks.
Context {P : Params} {C : Crypto} {E : SiaEncoding} (r : release).
#[local] Hint Extern 0 Build => exact (debug_build r) : typeclass_instances.

Lemma in_tree_key sigma n t bid pb :
  tree_ok r sigma n t -> t !! bid = Some pb -> in_tree t pb.
Proof. intros Ht Hpb. unfold in_tree, block_id. by rewrite (nd_key _ _ _ _ _ _ (Ht _ _ Hpb)). Qed.

(** Nodes off the path are children of nodes of the tree. *)
Lemma off_path_child sigma n d pb :
  chain_ok r sigma n d -> in_tree (db_BlockMap d) pb -> ~ at_path (db_BlockPath d) pb ->
  exists parent, child_node r sigma (db_BlockMap d) pb parent.
Proof.
  intros Hc Hin Hat. destruct (nd_kind _ _ _ _ _ _ (co_tree _ _ _ _ Hc _ _ Hin)) as [Hroot|?]; [|done].
  destruct Hroot as (Hb & Hh & _). destruct Hat. unfold at_path, block_id. rewrite Hh, Hb.
  by destruct (chain_root _ _ _ _ Hc) as (_ & ? & _).
Qed.

Lemma trail_shape sigma n d pb l :
  chain_ok r sigma n d -> trail (db_BlockMap d) (db_BlockPath d) pb l ->
  exists hd tl, l = hd :: tl /\ at_path (db_BlockPath d) hd /\
    Forall (in_tree (db_BlockMap d)) l /\ Forall (fun x => ~ at_path (db_BlockPath d) x) tl /\
    linked (block_id hd) (pb_Height hd) tl /\ last l = Some pb /\
    pb_Height pb = pb_Height hd + Z.of_nat (length tl).
Proof.
  intros Hc Ht. induction Ht as [pb Hin Hat|pb parent l Hin Hat Hpar Ht IH].
  - exists pb, []. cbn. rewrite Z.add_0_r. split_and!; try done; by constructor.
  - destruct IH as (hd & tl & -> & Hhd & Hall & Hoff & Hlink & Hlast & Hheight).
    destruct (off_path_child _ _ _ _ Hc Hin Hat) as (parent' & [Hpar' Hhp _ _ _]).
    assert (parent' = parent) as -> by congruence.
    exists hd, (tl ++ [pb]). split_and!; try done.
    + apply Forall_app. split; [done|]. by apply Forall_singleton.
    + apply Forall_app. split; [done|]. by apply Forall_singleton.
    + apply linked_snoc. split; [done|]. cbn. split; [|lia].
      pose proof (in_tree_key _ _ _ _ _ (co_tree _ _ _ _ Hc) Hpar) as Hk.
      pose proof (nd_key _ _ _ _ _ _ (co_tree _ _ _ _ Hc _ _ Hpar)) as Hid.
      destruct tl as [|x tl]; [injection Hlast as ->; by rewrite <- Hid|].
      change (last (hd :: x :: tl)) with (last (x :: tl)) in Hlast. rewrite Hlast. cbn.
      by rewrite <- Hid.
    + by rewrite last_snoc.
    + rewrite length_app. cbn. lia.
Qed.

(** The loop finds the trail. *)
Lemma backtrack_loop_trail sigma n d fuel pb rest res d' :
  chain_ok r sigma n d -> in_tree (db_BlockMap d) pb ->
  backtrack_loop fuel pb (pb :: rest) d = Ret res d' ->
  d' = d /\ exists l, trail (db_BlockMap d) (db_BlockPath d) pb l /\ res = l ++ rest.
Proof.
  intros Hc. revert pb rest. induction fuel as [|fuel IH]; intros pb rest Hin; [done|].
  cbn [backtrack_loop]. intros Hrun. inv_run.
  match goal with H : getPath _ _ = _ |- _ => injection H as <- <- end.
  case_bool_decide as Hid; inv_run.
  - split; [done|]. exists [pb]. split; [|done]. apply trail_here; [done|].
    unfold at_path, block_id. destruct (db_BlockPath d !! pb_Height pb) as [x|] eqn:Hx.
    + cbn in Hid. by rewrite Hid.
    + assert (Hat : ~ at_path (db_BlockPath d) pb) by (unfold at_path; congruence).
      destruct (off_path_child _ _ _ _ Hc Hin Hat) as (parent & [_ _ _ [_ Hz] _]).
      by destruct Hz.
  - match goal with H : blockHeight _ = _ |- _ => injection H as <- <- end.
    match goal with H : getBlockMap _ _ = _ |- _ => injection H as <- <- end.
    case_match eqn:Hpar; [|done].
    match goal with H : backtrack_loop _ _ _ _ = _ |- _ => apply IH in H as [-> (l & Ht & ->)] end.
    + split; [done|]. exists (l ++ [pb]). rewrite <- app_assoc. split; [|done].
      eapply trail_up; try done. unfold at_path, block_id. intros Hat. by rewrite Hat in Hid.
    + by eapply in_tree_key; [apply (co_tree _ _ _ _ Hc)|].
Qed.

Lemma backtrack_trail sigma n d pb res d' :
  chain_ok r sigma n d -> in_tree (db_BlockMap d) pb ->
  backtrackToCurrentPath pb d = Ret res d' ->
  d' = d /\ trail (db_BlockMap d) (db_BlockPath d) pb res.
Proof.
  intros Hc Hin Hrun. destruct (backtrack_loop_trail _ _ _ _ _ _ _ _ Hc Hin Hrun)
    as [-> (l & Ht & ->)]. by rewrite app_nil_r.
Qed.

(** ** Reverting *)

Context (Hr : r <> Testing) (chk : M ConsensusSet ()).

Lemma after_block_skip : after_block chk = mret ().
Proof. unfold after_block. cbn. by rewrite bool_decide_false. Qed.

Lemma readonly_currentBlockID : readonly currentBlockID.
Proof.
  intros d. destruct (silent_currentBlockID d) as [[msg ->]|[a ->]]; done.
Qed.

Lemma chain_current sigma n d pb d' :
  chain_ok r sigma n d -> currentProcessedBlock d = Ret pb d' ->
  d' = d /\ in_tree (db_BlockMap d) pb /\
  db_BlockPath d !! db_BlockHeight d = Some (block_id pb).
Proof.
  intros Hc Hrun.
  destruct (chain_tip _ _ _ _ Hc) as (pb' & Hpath & Hpb & _).
  unfold currentProcessedBlock, currentBlockID, blockHeight, getPath, getBlockMap, gets, mbind,
    M_bind in Hrun. rewrite Hpath in Hrun. cbn in Hrun. rewrite Hpb in Hrun.
  by injection Hrun as <- <-.
Qed.

Lemma revert_one_ok sigma n s pb s' :
  below_forks n -> chain_ok r sigma n (cs_db s) -> 0 < db_BlockHeight (cs_db s) ->
  revert_one chk s = Ret pb s' ->
  let d := cs_db s in let d' := cs_db s' in
  chain_ok r sigma n d' /\ s' = with_db d' s /\ db_BlockMap d' = db_BlockMap d /\
  db_BlockHeight d' = db_BlockHeight d - 1 /\
  db_BlockPath d' = delete (db_BlockHeight d) (db_BlockPath d) /\
  db_BlockPath d !! db_BlockHeight d = Some (block_id pb).
Proof.
  intros Hn Hc Hpos Hrun. unfold revert_one in Hrun. rewrite after_block_skip in Hrun. inv_run.
  match goal with H : in_db blockHeight _ = _ |- _ =>
    apply in_db_readonly in H as [-> H]; [injection H as <-|apply readonly_gets] end.
  destruct (chain_tip _ _ _ _ Hc) as (pb' & _ & _ & Hh & _ & _ & Hrange & _).
  destruct (ordinary_below n pb' Hn) as [_ Hfork]; [lia|]. rewrite Hh in Hfork.
  rewrite Hfork in *. inv_run.
  match goal with H : in_db currentProcessedBlock _ = _ |- _ =>
    apply in_db_Ret in H as (d1 & Hcur & ->) end.
  destruct (chain_current _ _ _ _ _ Hc Hcur) as (-> & Hin & Hpath). rewrite with_db_eta in *.
  match goal with H : in_db (commitDiffSet _ _) _ = _ |- _ =>
    apply in_db_Ret in H as (d2 & Hcommit & ->) end. cbn.
  destruct (revert_tip r sigma n (cs_db s) _ Hn Hc Hpos Hpath Hin) as (d3 & Hcommit' & ? & ? & ? & ?).
  apply commit_release in Hcommit. assert (d3 = d2) as -> by congruence.
  by split_and!.
Qed.

Lemma revert_loop_ok sigma n fuel hp bid s l s' :
  below_forks n -> chain_ok r sigma n (cs_db s) -> db_BlockPath (cs_db s) !! hp = Some bid ->
  revert_loop chk fuel bid s = Ret l s' ->
  let d := cs_db s in let d' := cs_db s' in
  chain_ok r sigma n d' /\ s' = with_db d' s /\ db_BlockMap d' = db_BlockMap d /\
  db_BlockHeight d' = hp /\ (forall h, h <= hp -> db_BlockPath d' !! h = db_BlockPath d !! h) /\
  (forall lp, path_list d lp ->
     exists lp', unwind (block_id <$> l) lp = Some lp' /\ path_list d' lp').
Proof.
  intros Hn. revert s l. induction fuel as [|fuel IH]; intros s l Hc Hpath Hrun; [done|].
  cbn [revert_loop] in Hrun. inv_run.
  match goal with H : in_db currentBlockID _ = _ |- _ =>
    apply in_db_readonly in H as [-> H]; [|apply readonly_currentBlockID]; rename H into Hcur end.
  destruct (chain_tip _ _ _ _ Hc) as (tip & Htip & Hptip & Hh & _ & _ & Hrange & Hdom).
  assert (Hle : 0 <= hp <= db_BlockHeight (cs_db s)) by (apply Hdom; by exists bid).
  destruct (chain_path_same _ _ _ _ _ _ Hc Hpath) as (pb & Hpb & Hhp & _ & Hid).
  unfold currentBlockID, blockHeight, getPath, gets, mbind, M_bind in Hcur.
  rewrite Htip in Hcur. injection Hcur as <-.
  case_bool_decide as Hb; inv_run; cbn.
  - assert (tip = pb) as -> by congruence. rewrite with_db_eta. split_and!; try done; [congruence|].
    intros lp Hlp. by exists lp.
  - assert (Hlt : hp < db_BlockHeight (cs_db s)).
    { destruct (decide (hp = db_BlockHeight (cs_db s))) as [->|]; [congruence|lia]. }
    match goal with H : revert_one _ _ = Ret _ ?x |- _ => rename x into s1;
      apply (revert_one_ok sigma n) in H as (Hc1 & E1 & M1 & Q1 & P1 & T1); [|done|done|lia] end.
    match goal with H : revert_loop _ _ _ _ = _ |- _ =>
      apply IH in H as (Hc2 & E2 & M2 & Q2 & P2 & L2); [|done|] end.
    + split_and!; try congruence.
      * rewrite E2, E1. by destruct s.
      * intros h Hh'. rewrite P2, P1, lookup_delete_ne; [done|lia|done].
      * intros lp Hlp. rewrite bool_decide_true
          by (rewrite (path_list_last _ _ Hlp) by lia; exact T1).
        apply L2. eapply path_list_unwind; [done|lia|done|done].
    + by rewrite P1, lookup_delete_ne by lia.
Qed.

Lemma revertToBlock_ok sigma n pb s l s' :
  below_forks n -> chain_ok r sigma n (cs_db s) -> at_path (db_BlockPath (cs_db s)) pb ->
  revertToBlock chk pb s = Ret l s' ->
  let d := cs_db s in let d' := cs_db s' in
  chain_ok r sigma n d' /\ s' = with_db d' s /\ db_BlockMap d' = db_BlockMap d /\
  db_BlockHeight d' = pb_Height pb /\
  (forall h, h <= pb_Height pb -> db_BlockPath d' !! h = db_BlockPath d !! h) /\
  (forall lp, path_list d lp ->
     exists lp', unwind (block_id <$> l) lp = Some lp' /\ path_list d' lp').
Proof.
  intros Hn Hc Hat Hrun. unfold revertToBlock in Hrun. inv_run.
  match goal with H : in_db (getPath _) _ = _ |- _ =>
    apply in_db_readonly in H as [-> _]; [|apply readonly_gets] end.
  by eapply revert_loop_ok.
Qed.

(** ** Applying *)

Definition cs_ok (n : Z) (s : ConsensusSet) : Prop := exists sigma, chain_ok r sigma n (cs_db s).

Lemma apply_one_ok n s pb applied s' :
  let d := cs_db s in let d' := cs_db s' in
  below_forks n -> cs_ok n s -> in_tree (db_BlockMap d) pb -> 0 < pb_Height pb ->
  db_BlockPath d !! db_BlockHeight d = Some (b_ParentID (pb_Block pb)) ->
  apply_one chk pb s = Ret applied s' ->
  cs_ok n s' /\ s' = with_db d' s /\ db_BlockHeight d' = db_BlockHeight d + 1 /\
  db_BlockPath d' = <[db_BlockHeight d + 1 := block_id pb]> (db_BlockPath d) /\
  (forall x, x <> block_id pb -> db_BlockMap d' !! x = db_BlockMap d !! x) /\
  block_id applied = block_id pb /\
  grows (db_BlockMap d) (db_BlockMap d').
Proof.
  intros d d' Hn [sigma Hc] Hin Hpos Hpath Hrun. subst d d'.
  destruct (child_of_height _ _ _ _ _ _ (co_tree _ _ _ _ Hc) Hin Hpos) as [parent Hchild].
  unfold apply_one in Hrun. rewrite after_block_skip in Hrun.
  destruct (pb_DiffsGenerated pb) eqn:Hg; inv_run.
  - match goal with H : in_db _ _ = _ |- _ => apply in_db_Ret in H as (d2 & Hcommit & ->) end. cbn.
    destruct (apply_known r sigma n (cs_db s) d2 _ parent Hn Hc Hpath Hin Hg Hchild Hcommit)
      as (Hc' & Hm & Hh & Hp).
    split_and!; try done; [by exists sigma|intros x _; by rewrite Hm|rewrite Hm; apply grows_refl].
  - unfold generate_block in *. case_match eqn:Hrun; [|done..].
    match goal with H : Ret _ _ = Ret _ _ |- _ => injection H as <- <- end.
    destruct a; destruct s0 as [d2 pb2]. cbn.
    destruct (apply_new r sigma n (cs_db s) d2 pb pb2 parent Hn Hc Hpath Hin Hg Hchild Hrun)
      as (Hc' & Hb & Hd & Hpbh & Hm & Hh & Hp).
    split_and!; try done.
    + intros x Hx. by rewrite Hm, lookup_insert_ne.
    + unfold block_id. by rewrite Hb.
    + rewrite Hm. apply (grows_insert _ _ pb); [exact Hin|]. split; [done..|congruence].
Qed.

Lemma linked_later bid h l pb : linked bid h l -> pb ∈ l -> h < pb_Height pb.
Proof.
  revert bid h. induction l as [|x l IH]; intros bid h; cbn.
  - intros _ Hin. by apply not_elem_of_nil in Hin.
  - intros (_ & Hh & Hl) [->|Hin]%elem_of_cons; [lia|]. specialize (IH _ _ Hl Hin). lia.
Qed.

Lemma apply_loop_ok n blocks : forall tip s l s',
  below_forks n -> cs_ok n s ->
  db_BlockPath (cs_db s) !! db_BlockHeight (cs_db s) = Some tip ->
  linked tip (db_BlockHeight (cs_db s)) blocks ->
  Forall (in_tree (db_BlockMap (cs_db s))) blocks ->
  apply_loop chk blocks s = Ret l s' ->
  let d' := cs_db s' in
  cs_ok n s' /\ s' = with_db d' s /\
  db_BlockPath d' !! db_BlockHeight d' = Some (default tip (block_id <$> last blocks)) /\
  (forall lp, path_list (cs_db s) lp -> path_list d' (lp ++ (block_id <$> l))) /\
  grows (db_BlockMap (cs_db s)) (db_BlockMap d').
Proof.
  induction blocks as [|pb blocks IH]; intros tip s l s' Hn Hok Htip Hlink Hall Hrun; cbn in *.
  - inv_run. rewrite with_db_eta. split_and!; try done; [|apply grows_refl]. intros lp. by rewrite app_nil_r.
  - destruct Hlink as (Hpar & Hh & Hlink). inversion Hall as [|? ? Hin Hall']; subst. inv_run.
    match goal with H : apply_one _ _ _ = Ret _ ?x |- _ => rename x into s1, H into Hone end.
    assert (Hpos : 0 < pb_Height pb).
    { destruct Hok as [sigma Hc].
      destruct (chain_tip _ _ _ _ Hc) as (_ & _ & _ & _ & _ & _ & ? & _). lia. }
    destruct (apply_one_ok n s pb _ s1 Hn Hok Hin Hpos Htip Hone) as (Hok1 & E1 & Q1 & P1 & M1 & B1 & D1).
    match goal with H : apply_loop _ _ _ = _ |- _ => apply (IH (block_id pb)) in H as (? & E2 & Ht & L2 & D2) end;
      try done.
    + split_and!; [done| | | |by eapply grows_trans].
      * rewrite E2, E1. by destruct s.
      * rewrite Ht. f_equal. destruct blocks as [|y blocks]; [done|].
        change (last (pb :: y :: blocks)) with (last (y :: blocks)).
        destruct (last (y :: blocks)) eqn:Hl; [done|]. by apply last_None in Hl.
      * intros lp Hlp. rewrite fmap_cons, cons_middle, app_assoc, B1. apply L2. by eapply path_list_snoc.
    + by rewrite P1, Q1, lookup_insert_eq.
    + by rewrite Q1.
    + rewrite Forall_forall in Hall' |- *. intros y Hy. unfold in_tree. rewrite M1; [by apply Hall'|].
      intros Heq. pose proof (Hall' y Hy) as Hy'. unfold in_tree in Hy', Hin. rewrite Heq in Hy'.
      assert (y = pb) as -> by congruence. pose proof (linked_later _ _ _ _ Hlink Hy). lia.
Qed.

(** ** Forking *)

(** The trail to a block is the same once everything above its start is
    reverted. *)
Lemma trail_after_revert t path path' hd tl pb :
  trail t path pb (hd :: tl) -> at_path path' hd ->
  Forall (fun x => ~ at_path path' x) tl -> trail t path' pb (hd :: tl).
Proof.
  intros Ht. remember (hd :: tl) as l eqn:Hl. revert tl Hl.
  induction Ht as [pb Hin Hat|pb parent l Hin Hat Hpar Ht IH]; intros tl Hl Hhd Htl.
  - injection Hl as -> <-. by apply trail_here.
  - destruct l as [|x l]; [by inversion Ht; destruct l|].
    injection Hl as -> <-. apply Forall_app in Htl as [Htl Hpb]. rewrite Forall_singleton in Hpb.
    apply (trail_up t path' pb parent (hd :: l)); try done. by apply (IH l).
Qed.

Lemma forkBlockchain_ok n pb s res s' :
  below_forks n -> cs_ok n s -> in_tree (db_BlockMap (cs_db s)) pb ->
  forkBlockchain_with chk pb s = Ret res s' ->
  let d' := cs_db s' in
  cs_ok n s' /\ s' = with_db d' s /\
  db_BlockPath d' !! db_BlockHeight d' = Some (block_id pb) /\
  grows (db_BlockMap (cs_db s)) (db_BlockMap d') /\
  (forall lp, path_list (cs_db s) lp ->
     exists lp', unwind (block_id <$> res.1) lp = Some lp' /\ lp' <> [] /\
       path_list d' (lp' ++ (block_id <$> res.2))).
Proof.
  intros Hn [sigma Hc] Hin Hrun. unfold forkBlockchain_with in Hrun. inv_run.
  match goal with H : in_db (backtrackToCurrentPath _) _ = _ |- _ =>
    apply in_db_Ret in H as (d1 & Hb & ->) end.
  destruct (backtrack_trail _ _ _ _ _ _ Hc Hin Hb) as [-> Ht]. rewrite with_db_eta in *.
  destruct (trail_shape _ _ _ _ _ Hc Ht) as (hd & tl & -> & Hhd & Hall & Hoff & Hlink & Hlast & _).
  inv_run.
  match goal with H : revertToBlock _ _ _ = Ret _ ?x |- _ => rename x into s1;
    apply (revertToBlock_ok sigma n) in H as (Hc1 & E1 & M1 & Q1 & P1 & L1); [|done..] end.
  match goal with H : applyUntilBlock _ _ _ = _ |- _ => unfold applyUntilBlock in H end. inv_run.
  match goal with H : in_db (backtrackToCurrentPath _) _ = _ |- _ =>
    apply in_db_Ret in H as (d1 & Hb2 & ->) end.
  assert (Hin1 : in_tree (db_BlockMap (cs_db s1)) pb) by (by rewrite M1).
  destruct (backtrack_trail _ _ _ _ _ _ Hc1 Hin1 Hb2) as [-> Ht2]. rewrite with_db_eta in *.
  assert (Hhd1 : at_path (db_BlockPath (cs_db s1)) hd)
    by (unfold at_path; rewrite P1 by lia; exact Hhd).
  assert (Hoff1 : Forall (fun x => ~ at_path (db_BlockPath (cs_db s1)) x) tl).
  { rewrite Forall_forall. intros y Hy Hat. unfold at_path in Hat.
    destruct (chain_tip _ _ _ _ Hc1) as (_ & _ & _ & _ & _ & _ & _ & Hdom).
    assert (0 <= pb_Height y <= db_BlockHeight (cs_db s1)) by (apply Hdom; by rewrite Hat).
    pose proof (linked_later _ _ _ _ Hlink Hy). lia. }
  assert (Ht1 : trail (db_BlockMap (cs_db s1)) (db_BlockPath (cs_db s1)) pb (hd :: tl))
    by (rewrite M1; by eapply trail_after_revert).
  rewrite (trail_det _ _ _ _ _ Ht2 Ht1) in *. cbn [tail] in *.
  match goal with H : apply_loop _ _ _ = _ |- _ =>
    apply (apply_loop_ok n tl (block_id hd)) in H as (Hok & E2 & Htip & L2 & D2) end; try done.
  - split_and!; [done|rewrite E2, E1; by destruct s| |by rewrite <- M1|].
    2: { intros lp Hlp. destruct (L1 lp Hlp) as (lp' & Hu & Hlp'). exists lp'.
         split_and!; [exact Hu| |by apply L2].
         destruct (chain_tip _ _ _ _ Hc1) as (_ & _ & _ & _ & _ & _ & [? _] & _).
         intros ->. destruct Hlp' as [Hlen _]. cbn in Hlen. lia. }
    rewrite Htip. f_equal.
    destruct tl as [|y tl]; [by injection Hlast as ->|].
    change (last (hd :: y :: tl)) with (last (y :: tl)) in Hlast. by rewrite Hlast.
  - by exists sigma.
  - rewrite Q1. exact Hhd1.
  - by rewrite Q1.
  - rewrite M1. by inversion Hall.
Qed.

End forks.
