(* ===== verification/ChainAccept.v ===== *)
(** * Accepting blocks keeps the chain

    The invariant of [Chain] holds of a new database and is kept by
    [managedAcceptBlocks], whatever it returns. *)

From S2P Require Import Prelude Bytes Interfaces Currency Types Params Encoding Transactions.
From S2P Require Import Subsidy ConsensusDB ApplyTransaction ConsensusValid.
From S2P Require Import GenerateDiffs ProcessedBlock BlockValidation Fork Accept.
From S2P Require Import Journal Agree Records Steps Revert RevertApply Frames.
From S2P Require Import Target Chain ChainFork.

Open Scope Z_scope.

Section accept.
Context {P : Params} {C : Crypto} {E : SiaEncoding} (r : release).
#[local] Hint Extern 0 Build => exact (debug_build r) : typeclass_instances.

(** ** A new database *)

(** What is not about outputs, contracts and the pool. *)
Definition frame (d : DB) :=
  (db_BlockHeight d, db_BlockMap d, db_BlockPath d, db_FileContracts d, db_FCEX d).

Lemma keeps_frame_scod x dir : keeps frame (commitSiacoinOutputDiff x dir).
Proof. unfold commitSiacoinOutputDiff, addSiacoinOutput, removeSiacoinOutput. keeps_run. Qed.
Lemma keeps_frame_sfod x dir : keeps frame (commitSiafundOutputDiff x dir).
Proof. unfold commitSiafundOutputDiff, addSiafundOutput, removeSiafundOutput. keeps_run. Qed.
#[local] Hint Resolve keeps_frame_scod keeps_frame_sfod : keeps.

Lemma keeps_storeBlockTotals h bid x1 x2 x3 x4 x5 :
  keeps frame (storeBlockTotals h bid x1 x2 x3 x4 x5).
Proof. unfold storeBlockTotals, or_panic. keeps_run. Qed.

Lemma createConsensusDB_frame d :
  createConsensusDB empty_DB = Ret () d ->
  exists root, (root_node root /\ exists h, root = set_checksum h blockRoot) /\
    frame d = (0, {[GenesisID := root]}, {[0 := GenesisID]}, ∅, ∅).
Proof.
  intros Hrun. unfold createConsensusDB, addBlockMap in Hrun. inv_run.
  assert (Hk : frame x8 = frame empty_DB).
  { repeat match goal with
    | H : for_each _ _ _ = Ret _ _ |- _ =>
        apply (keeps_Ret frame) in H; [|by apply keeps_for_each; auto with keeps]
    | H : setSiafundPool _ _ = Ret _ _ |- _ =>
        apply (keeps_Ret frame) in H; [|by unfold setSiafundPool; keeps_run]
    | H : createDSCOBucket _ _ = Ret _ _ |- _ =>
        apply (keeps_Ret frame) in H; [|by unfold createDSCOBucket; keeps_run]
    | H : addDSCO _ _ _ _ = Ret _ _ |- _ =>
        apply (keeps_Ret frame) in H; [|by unfold addDSCO; keeps_run]
    end. congruence. }
  unfold frame in Hk. cbn in Hk. injection Hk as K1 K2 K3 K4 K5.
  match goal with H : pushPath _ _ = _ |- _ => rewrite pushPath_Ret in H; injection H as <- end.
  eexists. split; [|unfold frame; cbn; rewrite K1, K2, K3, K4, K5; reflexivity].
  split; [repeat split|by eexists].
Qed.

Lemma loadDB_frame d :
  loadDB empty_DB = Ret () d ->
  exists root, (root_node root /\ exists h, root = set_checksum h blockRoot) /\
    frame d = (0, {[GenesisID := root]}, {[0 := GenesisID]}, ∅, ∅).
Proof.
  intros Hrun. unfold loadDB, initDB in Hrun. inv_run.
  match goal with H : createConsensusDB _ = Ret _ ?x |- _ => rename x into d1;
    destruct (createConsensusDB_frame d1 H) as (root & Hroot & Hf) end.
  exists root. split; [done|]. rewrite <- Hf.
  match goal with H : initOak _ = Ret _ ?x |- _ => rename x into d2, H into Hoak end.
  match goal with H : getPath _ _ = Ret _ _ |- _ => injection H as _ <- end.
  transitivity (frame (with_Inconsistent false d1)); [|done].
  eapply keeps_Ret; [exact Hoak|]. unfold initOak, initOak_step.
  pose proof keeps_storeBlockTotals. keeps_run; eauto.
Qed.

Lemma genesis_chain d : loadDB empty_DB = Ret () d -> chain_ok r (fun _ => d) 1 d.
Proof.
  intros Hload. destruct (loadDB_frame d Hload) as (root & [(Hb & Hh & Hg) _] & Hf).
  unfold frame in Hf. injection Hf as F1 F2 F3 F4 F5. split.
  - done.
  - intros h x. rewrite F4, F5, !lookup_empty. split.
    + intros Hx. by apply not_elem_of_empty in Hx.
    + by intros (fc & Hfc & _).
  - rewrite F2. intros bid pb [<- <-]%lookup_singleton_Some. split.
    + by rewrite Hb.
    + lia.
    + intros _. split; [congruence|]. intros h. rewrite F3, Hh.
      split; [intros [x [<- _]%lookup_singleton_Some]; lia|intros ?].
      replace h with 0 by lia. rewrite lookup_singleton_eq. by eexists.
    + by left.
  - intros h bid. rewrite F3. intros [<- <-]%lookup_singleton_Some. exists root.
    rewrite F2, lookup_singleton_eq. split_and!; [done..|lia].
  - exists GenesisID. rewrite F1, F3, lookup_singleton_eq. split; [done|]. apply same_tip_refl.
Qed.

(** ** A new node *)

Lemma chain_more sigma n m d : n <= m -> chain_ok r sigma n d -> chain_ok r sigma m d.
Proof.
  intros Hm [Hg Hf Ht Hp Htip]. split; try done. intros bid pb Hpb.
  destruct (Ht bid pb Hpb). split; [done|lia|done|done].
Qed.

Lemma add_node sigma n d d' b parent depth target :
  let child := new_processedBlock b (pb_Height parent + 1) depth target in
  chain_ok r sigma n d -> db_BlockMap d !! Block_ID b = None ->
  db_BlockMap d !! b_ParentID b = Some parent -> admissible b ->
  checkMinerPayouts b (pb_Height parent + 1) = true ->
  db_BlockMap d' = <[Block_ID b := child]> (db_BlockMap d) ->
  same_tip d' d -> db_FileContracts d' = db_FileContracts d -> db_FCEX d' = db_FCEX d ->
  chain_ok r sigma (n + 1) d'.
Proof.
  intros child [Hg Hf Ht Hp Htip] Hnew Hpar Hadm Hpay Hm Hsame Hfc Hfx. split.
  - done.
  - unfold fcex_ok. by rewrite Hfc, Hfx.
  - rewrite Hm. intros bid pb [[<- <-]|[Hne Hpb]]%lookup_insert_Some.
    + split; [done| |done|].
      * cbn. pose proof (nd_height _ _ _ _ _ _ (Ht _ _ Hpar)). lia.
      * right. exists parent. split; [|done..|by left]. cbn. rewrite lookup_insert_ne; [done|].
        intros Heq. congruence.
    + destruct (Ht _ _ Hpb) as [? Hh ? Hkind]. split; [done|lia|done|].
      destruct Hkind as [?|[q [Qp ? ? ? Qs]]]; [by left|right]. exists q.
      split; [|done..]. rewrite lookup_insert_ne; [done|]. intros Heq. congruence.
  - intros h bid. rewrite (st_path _ _ Hsame). intros Hl.
    destruct (Hp _ _ Hl) as (pb & Hpb & ? & ? & ?). exists pb. split_and!; try done.
    rewrite Hm, lookup_insert_ne; [done|]. intros Heq. congruence.
  - destruct Htip as (tip & Hl & Hs). exists tip. rewrite (st_path _ _ Hsame), (st_height _ _ Hsame).
    split; [done|]. by eapply same_tip_trans.
Qed.

Definition outputs_of (d : DB) :=
  (db_SiacoinOutputs d, db_SiafundOutputs d, db_DSCO d, db_SiafundPool d).

(** All that transactions depend on: everything but the tree of blocks. *)
Definition ledger (d : DB) :=
  (db_BlockHeight d, db_BlockPath d, db_SiacoinOutputs d, db_FileContracts d, db_SiafundOutputs d,
   db_SiafundPool d, db_SiafundHardforkPool d, db_LegacyHardforkPool d, db_DSCO d, db_FCEX d).

Lemma newChild_Ret parent b d child d' :
  newChild parent b d = Ret child d' ->
  exists depth target, child = new_processedBlock b (u64 (pb_Height parent + 1)) depth target /\
    db_BlockMap d' = <[Block_ID b := child]> (db_BlockMap d) /\
    same_tip d' d /\ ledger d' = ledger d.
Proof.
  intros Hrun. unfold newChild in Hrun. inv_run.
  match goal with H : or_panic _ d = _ |- _ =>
    apply (keeps_Ret (fun d => d)) in H as K1; [|unfold or_panic; keeps_run] end.
  match goal with H : getBlockTotals _ _ = Ret _ _ |- _ =>
    apply (keeps_Ret (fun d => d)) in H as K2; [|unfold getBlockTotals; keeps_run] end.
  subst.
  match goal with H : storeBlockTotals _ _ _ _ _ _ _ _ = Ret _ ?x |- _ => rename x into d1;
    apply (keeps_Ret (fun d => (db_BlockMap d, ledger d))) in H as K3;
      [|unfold storeBlockTotals, or_panic; keeps_run] end.
  match goal with H : (if _ then or_panic _ else _) ?d1 = Ret _ ?x |- _ =>
    apply (keeps_Ret (fun d => d)) in H as K4; [|unfold or_panic; keeps_run] end. subst.
  injection K3 as K3. do 2 eexists. split; [reflexivity|]. cbn. split_and!; [by rewrite K3| |].
  - unfold ledger in *. split; [split|..]; cbn; congruence.
  - unfold ledger in *. cbn. congruence.
Qed.

(** ** Errors of the fork operations *)

Lemma raises_in_db {A} Q (m : M DB A) : raises Q m -> raises Q (in_db m).
Proof.
  intros Hm s e s'. unfold in_db. destruct (m (cs_db s)) as [|x d|] eqn:Hd; [done| |done].
  injection 1 as <- _. by eapply Hm.
Qed.

Lemma raises_backtrack fuel pb l : raises block_error (backtrack_loop fuel pb l).
Proof.
  revert pb l. induction fuel; intros pb l; cbn [backtrack_loop]; [apply raises_panic|].
  unfold getPath, blockHeight, getBlockMap. raises_run.
Qed.

Lemma raises_commitDiffSet pb dir : raises block_error (commitDiffSet pb dir).
Proof.
  unfold commitDiffSet, commitDiffSetSanity, createUpcomingDelayedOutputMaps, commitNodeDiffs,
    deleteObsoleteDelayedOutputMaps, updateCurrentPath, createDSCOBucket, deleteDSCOBucket,
    currentBlockID, getBlockMap, blockHeight, getPath, pushPath, popPath.
  pose proof raises_scod. pose proof raises_fcd. pose proof raises_sfod.
  pose proof raises_dscod. pose proof raises_sfpd. raises_run.
Qed.

Context (Hr : r <> Testing).

Lemma raises_revert_loop chk fuel bid : raises block_error (revert_loop chk fuel bid).
Proof.
  induction fuel as [|fuel IH]; cbn [revert_loop]; [apply raises_panic|].
  unfold revert_one. rewrite (after_block_skip r Hr chk).
  raises_run; try (apply raises_in_db); auto using raises_commitDiffSet;
    unfold currentProcessedBlock, currentBlockID, blockHeight, getPath, getBlockMap,
      setSiafundHardforkPool; raises_run.
Qed.

Lemma raises_forkBlockchain pb : raises block_error (forkBlockchain pb).
Proof.
  unfold forkBlockchain, forkBlockchain_with, revertToBlock, applyUntilBlock,
    backtrackToCurrentPath.
  raises_run; try (apply raises_in_db); auto using raises_backtrack, raises_revert_loop.
  - apply raises_gets.
  - generalize (tail a1). intros l. induction l as [|x l IH]; cbn [apply_loop]; [apply raises_ret|].
    unfold apply_one. rewrite (after_block_skip r Hr). raises_run; auto.
    + apply raises_in_db, raises_commitDiffSet.
    + intros s e s'. unfold generate_block. case_match eqn:Hg; [done| |done].
      injection 1 as <- _. by eapply raises_generateAndApplyDiff.
Qed.

(** ** Accepting *)

Abbreviation cs_ok := (cs_ok r).

Lemma validateHeaderAndBlock_Ret now b bid s parent s' :
  validateHeaderAndBlock now b bid s = Ret parent s' ->
  s' = s /\ db_BlockMap (cs_db s) !! bid = None /\
  db_BlockMap (cs_db s) !! b_ParentID b = Some parent /\
  checkMinerPayouts b (u64 (pb_Height parent + 1)) = true.
Proof.
  intros Hrun. unfold validateHeaderAndBlock in Hrun. inv_run.
  match goal with H : err_if (bool_decide (is_Some _)) _ = None |- _ =>
    apply err_if_None in H as Hnew end.
  case_match eqn:Hpar; [|done]. inv_run.
  match goal with H : or_panic _ _ = Ret _ _ |- _ =>
    apply (keeps_Ret (fun d => d)) in H as Hk; [|unfold or_panic; keeps_run] end. subst.
  match goal with H : ValidateBlock _ _ _ _ _ _ _ = None |- _ =>
    unfold ValidateBlock in H; rewrite !err_seq_None in H;
    destruct H as (_ & _ & _ & _ & _ & Hpay & _) end.
  apply err_if_None, negb_false_iff in Hpay. split_and!; try done.
  apply bool_decide_eq_false_1 in Hnew. by apply eq_None_not_Some.
Qed.

(** What appending does to the change log. *)
Definition append_log (cl : changeLog) (ce : changeEntry) : option changeLog :=
  let ceid := changeEntry_ID ce in
  let nodes := <[ceid := mkChangeNode ce zero_hash]> (cl_nodes cl) in
  let tailID := default zero_hash (cl_tail cl) in
  if bool_decide (tailID = zero_hash) then Some (mkChangeLog nodes (Some ceid))
  else tailCN ← nodes !! tailID;
       Some (mkChangeLog (<[tailID := mkChangeNode (cn_Entry tailCN) ceid]> nodes) (Some ceid)).
Definition append_logs (cl : changeLog) (l : list changeEntry) : option changeLog :=
  foldl (fun o ce => o ≫= fun cl => append_log cl ce) (Some cl) l.

Lemma append_logs_app cl l1 l2 cl' :
  append_logs cl l1 = Some cl' -> append_logs cl (l1 ++ l2) = append_logs cl' l2.
Proof. unfold append_logs. rewrite foldl_app. by intros ->. Qed.

(** Nothing but the change log changes. *)
Lemma appendChangeLog_db ce s o s' :
  appendChangeLog ce s = Ret o s' ->
  cs_db s' = cs_db s /\ cs_published s' = cs_published s /\
  append_log (cs_changeLog s) ce = Some (cs_changeLog s').
Proof.
  unfold appendChangeLog, append_log. intros Hrun. inv_run. case_match; [by inv_run|].
  case_match; by inv_run.
Qed.

(** The depth of the current block. *)
Definition tip_depth (d : DB) : option Target :=
  db_BlockPath d !! db_BlockHeight d ≫= depth_of (db_BlockMap d).

(** The current chain has more work, that is, a lower depth. *)
Definition gains (d d' : DB) : Prop :=
  exists t t', tip_depth d = Some t /\ tip_depth d' = Some t' /\ Target.Int t' < Target.Int t.

(** What a subscriber does with a change. *)
Definition follow (ce : changeEntry) (path : list BlockID) : option (list BlockID) :=
  kept ← unwind (ce_RevertedBlocks ce) path; Some (kept ++ ce_AppliedBlocks ce).

Record stays (d d' : DB) : Prop := mkStays {
  sty_depth : tip_depth d' = tip_depth d;
  sty_path lp : path_list d lp -> path_list d' lp;
  sty_blocks : grows (db_BlockMap d) (db_BlockMap d');
  sty_ledger : ledger d' = ledger d
}.
Record moves (ce : changeEntry) (d d' : DB) : Prop := mkMoves {
  mv_gains : gains d d';
  mv_path lp : path_list d lp -> (length (ce_RevertedBlocks ce) < length lp)%nat /\
    exists lp', follow ce lp = Some lp' /\ path_list d' lp';
  mv_blocks : grows (db_BlockMap d) (db_BlockMap d');
  mv_applied : ce_AppliedBlocks ce <> []
}.

Lemma stays_refl d : stays d d.
Proof. split; try done. apply grows_refl. Qed.

Lemma heavierThan_depth pb cmp :
  heavierThan pb cmp = Some true -> Target.Int (pb_Depth pb) < Target.Int (pb_Depth cmp).
Proof.
  unfold heavierThan. destruct (Target.MulDifficulty _ _) as [t|]; [cbn|done].
  pose proof (Target.Int_range (pb_Depth cmp)). pose proof (Target.Int_range t).
  destruct (decide (Target.Int (pb_Depth cmp) = 0 \/ Target.Int t = 0)) as [Hz|Hnz].
  - by rewrite Target.AddDifficulties_panics.
  - destruct (Target.AddDifficulties _ _) as [req|] eqn:Hreq; [cbn|done].
    intros [= Hlt]. rewrite Target.Cmp_gt in Hlt. apply Z.ltb_lt in Hlt.
    apply Target.AddDifficulties_lt in Hreq; lia.
Qed.

Lemma same_tip_path_list d d' lp : same_tip d' d -> path_list d lp -> path_list d' lp.
Proof. intros [_ Hh Hp] [Hl Hi]. split; [by rewrite Hh|intros i; by rewrite Hp]. Qed.

(** Storing a new node does not touch the current chain. *)
Lemma add_node_stays sigma n d d' b child :
  chain_ok r sigma n d -> db_BlockMap d !! Block_ID b = None -> same_tip d' d ->
  db_BlockMap d' = <[Block_ID b := child]> (db_BlockMap d) -> ledger d' = ledger d -> stays d d'.
Proof.
  intros Hc Hnew Hsame Hm Hled. split; [|intros lp; by apply same_tip_path_list| |done].
  2: { rewrite Hm. by apply grows_insert_new. }
  destruct (chain_tip _ _ _ _ Hc) as (pb & Htip & Hpb & _).
  unfold tip_depth, depth_of. rewrite (st_height _ _ Hsame), (st_path _ _ Hsame), Htip. cbn.
  rewrite Hm, lookup_insert_ne; [done|]. congruence.
Qed.

Lemma path_list_tree sigma n d lp bid :
  chain_ok r sigma n d -> path_list d lp -> bid ∈ lp -> is_Some (db_BlockMap d !! bid).
Proof.
  intros Hc [_ Hlp] [i Hi]%list_elem_of_lookup. rewrite <- Hlp in Hi.
  destruct (chain_path_same _ _ _ _ _ _ Hc Hi) as (pb & Hpb & _). eauto.
Qed.

Lemma path_list_exists sigma n d : chain_ok r sigma n d -> exists lp, path_list d lp.
Proof.
  intros Hc. destruct (chain_tip _ _ _ _ Hc) as (_ & _ & _ & _ & _ & _ & Hh & Hdom).
  set (f := fun i => default zero_hash (db_BlockPath d !! Z.of_nat i)).
  exists (f <$> seq 0 (Z.to_nat (db_BlockHeight d + 1))). split.
  - rewrite length_fmap, length_seq. lia.
  - intros i. rewrite list_lookup_fmap. destruct (decide (Z.of_nat i <= db_BlockHeight d)) as [Hi|Hi].
    + rewrite lookup_seq_lt by lia. destruct (proj2 (Hdom (Z.of_nat i))) as [bid Hb]; [lia|].
      cbn. unfold f. by rewrite Hb.
    + rewrite lookup_seq_ge by lia. cbn. apply eq_None_not_Some. rewrite Hdom. lia.
Qed.

Lemma unwind_length reverted lp lp' :
  unwind reverted lp = Some lp' -> (length reverted + length lp' = length lp)%nat.
Proof.
  revert lp. induction reverted as [|bid l IH]; intros lp; cbn [unwind]; [by intros [= ->]|].
  case_bool_decide as Hl; [|done]. intros Hu%IH. rewrite length_take in Hu.
  destruct lp; [done|]. cbn in *. lia.
Qed.

Lemma unwind_subseteq reverted lp lp' : unwind reverted lp = Some lp' -> lp' ⊆ lp.
Proof.
  revert lp. induction reverted as [|bid l IH]; intros lp; cbn [unwind]; [by intros [= ->]|].
  case_bool_decide; [|done]. intros Hl%IH x Hx%Hl. by eapply subseteq_take.
Qed.

(** A new block can only become the tip by being applied. *)
Lemma new_tip_applied sigma n d d' b rev app :
  chain_ok r sigma n d -> db_BlockMap d !! Block_ID b = None ->
  (forall lp, path_list d lp -> exists lp', unwind (block_id <$> rev) lp = Some lp' /\
     path_list d' (lp' ++ (block_id <$> app))) ->
  0 <= db_BlockHeight d' -> db_BlockPath d' !! db_BlockHeight d' = Some (Block_ID b) ->
  block_id <$> app <> [].
Proof.
  intros Hc Hnew Hpath Hpos Htip Hnil. destruct (path_list_exists _ _ _ Hc) as [lp Hlp].
  destruct (Hpath lp Hlp) as (lp' & Hu & [Hlen Hl]). rewrite Hnil, app_nil_r in Hlen, Hl.
  assert (Hin : Block_ID b ∈ lp').
  { apply (list_elem_of_lookup_2 _ (Z.to_nat (db_BlockHeight d'))). rewrite <- Hl.
    rewrite <- Htip. f_equal. lia. }
  destruct (path_list_tree _ _ _ _ _ Hc Hlp (unwind_subseteq _ _ _ Hu _ Hin)). congruence.
Qed.

(** What a fork to a new block makes of the path. *)
Lemma fork_moves sigma n d d1 d3 b child cur rev app :
  chain_ok r sigma n d -> db_BlockMap d !! Block_ID b = None -> stays d d1 -> block_id child = Block_ID b ->
  db_BlockMap d1 !! block_id child = Some child ->
  db_BlockMap d1 !! block_id cur = Some cur -> db_BlockPath d1 !! db_BlockHeight d1 = Some (block_id cur) ->
  Target.Int (pb_Depth child) < Target.Int (pb_Depth cur) ->
  0 <= db_BlockHeight d3 -> db_BlockPath d3 !! db_BlockHeight d3 = Some (block_id child) ->
  grows (db_BlockMap d1) (db_BlockMap d3) ->
  (forall lp, path_list d1 lp -> exists lp', unwind (block_id <$> rev) lp = Some lp' /\ lp' <> [] /\
     path_list d3 (lp' ++ (block_id <$> app))) ->
  moves (mkChangeEntry (block_id <$> rev) (block_id <$> app)) d d3.
Proof.
  intros Hc Hnew [Hdep Hlp Hblk _] Hid Hchild Hcur Hctip Hlt Hpos Htip Hg Hpath.
  assert (Hp : forall lp, path_list d lp -> exists lp', unwind (block_id <$> rev) lp = Some lp' /\
    path_list d3 (lp' ++ (block_id <$> app))).
  { intros lp Hl. destruct (Hpath lp (Hlp lp Hl)) as (lp' & ? & _ & ?). by exists lp'. }
  split.
  - exists (pb_Depth cur), (pb_Depth child). split_and!; [|..|done].
    + rewrite <- Hdep. unfold tip_depth, depth_of. rewrite Hctip. cbn. by rewrite Hcur.
    + unfold tip_depth. rewrite Htip. cbn. apply (grows_depth _ _ _ _ Hg). unfold depth_of. by rewrite Hchild.
  - intros lp Hl. destruct (Hpath lp (Hlp lp Hl)) as (lp' & Hu & Hne & Hlp'). split.
    + apply unwind_length in Hu. cbn [ce_RevertedBlocks]. destruct lp'; [done|]. cbn in Hu. lia.
    + unfold follow. exists (lp' ++ (block_id <$> app)). split; [|exact Hlp']. cbn [ce_RevertedBlocks ce_AppliedBlocks].
      by rewrite Hu.
  - by eapply grows_trans.
  - eapply new_tip_applied; [exact Hc|exact Hnew|exact Hp|exact Hpos|by rewrite <- Hid].
Qed.

Lemma addBlockToTree_ok n s b parent :
  below_forks (n + 1) -> cs_ok n s -> admissible b ->
  db_BlockMap (cs_db s) !! Block_ID b = None ->
  db_BlockMap (cs_db s) !! b_ParentID b = Some parent ->
  checkMinerPayouts b (u64 (pb_Height parent + 1)) = true ->
  match addBlockToTree b parent s with
  | Ret ce s' =>
      cs_ok (n + 1) s' /\ moves ce (cs_db s) (cs_db s') /\ cs_published s' = cs_published s /\
      append_log (cs_changeLog s) ce = Some (cs_changeLog s')
  | Err ErrNonExtendingBlock s' =>
      cs_ok (n + 1) s' /\ stays (cs_db s) (cs_db s') /\ cs_published s' = cs_published s /\
      cs_changeLog s' = cs_changeLog s
  | _ => True
  end.
Proof.
  intros Hn [sigma Hc] Hadm Hnew Hpar Hpay. unfold addBlockToTree, mbind, M_bind.
  assert (Hu : u64 (pb_Height parent + 1) = pb_Height parent + 1).
  { pose proof (nd_height _ _ _ _ _ _ (co_tree _ _ _ _ Hc _ _ Hpar)).
    destruct Hn as (_ & _ & _ & ?). apply u64_small. unfold is_u64. lia. }
  destruct (in_db (newChild parent b) s) as [child s1|e s1|msg] eqn:H1; [| |done].
  2: { apply (raises_in_db block_error) in H1; [by destruct e|].
       unfold newChild, getBlockTotals, storeBlockTotals, or_panic. raises_run. }
  apply in_db_Ret in H1 as (d1 & Hchild & ->).
  destruct (newChild_Ret _ _ _ _ _ Hchild) as (depth & target & -> & Hm & Hsame & Hled).
  rewrite Hu in *.
  assert (Hc1 : chain_ok r sigma (n + 1) d1)
    by (eapply add_node; try done; unfold ledger in Hled; congruence).
  pose proof (add_node_stays _ _ _ _ _ _ Hc Hnew Hsame Hm Hled) as Hstays.
  set (child := new_processedBlock _ _ _ _) in *.
  set (s1 := with_db d1 s). assert (Hok1 : cs_ok (n + 1) s1) by (by exists sigma).
  destruct (in_db currentProcessedBlock s1) as [cur s2|e s2|msg] eqn:H2; [| |done].
  2: { apply (raises_in_db block_error) in H2; [by destruct e|].
       unfold currentProcessedBlock, currentBlockID, getBlockMap, getPath, blockHeight. raises_run. }
  apply in_db_Ret in H2 as (d2 & Hcur & ->).
  destruct (chain_current _ _ _ _ _ _ Hc1 Hcur) as (-> & Hcin & Hctip).
  change (with_db d1 s1) with s1.
  destruct (heavierThan child cur) as [heavier|] eqn:Hheavy; [|done]. cbn [or_panic mret M_ret].
  destruct heavier; cbn [negb err_if check mret M_ret throw]; [|by split_and!].
  apply heavierThan_depth in Hheavy.
  destruct (forkBlockchain child s1) as [[rev app] s3|e s3|msg] eqn:H3; [| |done].
  2: { apply raises_forkBlockchain in H3. by destruct e. }
  assert (Hchild1 : db_BlockMap d1 !! block_id child = Some child)
    by (rewrite Hm; apply lookup_insert_eq).
  apply (forkBlockchain_ok r Hr _ (n + 1)) in H3 as (Hok3 & E3 & Htip3 & Hd3 & L3); [|done..].
  destruct (appendChangeLog _ s3) as [[] s4|e s4|msg] eqn:H4; [| |done].
  2: { unfold appendChangeLog, mbind, M_bind, get in H4. by repeat case_match. }
  apply appendChangeLog_db in H4 as (H4 & Hpub & Hlog). split_and!.
  - destruct Hok3 as [sigma' Hc3]. exists sigma'. by rewrite H4.
  - rewrite H4. apply (fork_moves sigma n _ d1 _ b child cur); try done.
    destruct Hok3 as [sigma3 Hc3]. by destruct (chain_tip _ _ _ _ Hc3) as (_ & _ & _ & _ & _ & _ & [? _] & _).
  - by rewrite Hpub, E3.
  - rewrite <- Hlog. by rewrite E3.
Qed.

Lemma cs_ok_more n m s : n <= m -> cs_ok n s -> cs_ok m s.
Proof. intros Hm [sigma Hc]. exists sigma. by eapply chain_more. Qed.

(** A run of changes. *)
Definition follow_all (l : list changeEntry) (path : list BlockID) : option (list BlockID) :=
  foldl (fun p ce => p ≫= follow ce) (Some path) l.

Lemma follow_all_app l1 l2 lp lp' :
  follow_all l1 lp = Some lp' -> follow_all (l1 ++ l2) lp = follow_all l2 lp'.
Proof. unfold follow_all. rewrite foldl_app. by intros ->. Qed.

(** A path in a tree: blocks whose diffs are generated and that name the one
    before as their parent, from the genesis block on, none of them twice. *)
Record chained (t : tree) (lp : list BlockID) : Prop := mkChained {
  ch_block i bid : lp !! i = Some bid -> exists pb, t !! bid = Some pb /\
    pb_DiffsGenerated pb = true /\ Block_ID (pb_Block pb) = bid /\ pb_Height pb = Z.of_nat i /\
    forall j pid, i = S j -> lp !! j = Some pid -> b_ParentID (pb_Block pb) = pid;
  ch_genesis : lp !! 0%nat = Some GenesisID;
  ch_root pb : t !! GenesisID = Some pb -> pb_Block pb = GenesisBlock;
  ch_NoDup : NoDup lp;
  ch_length : Z.of_nat (length lp) <= 2 ^ 63
}.

(** The second path has more work. *)
Definition outworks (t : tree) (lp lp' : list BlockID) : Prop := exists x x',
  last lp ≫= depth_of t = Some x /\ last lp' ≫= depth_of t = Some x' /\ Target.Int x' < Target.Int x.

(** Changes that lead from one path in the tree to the next. *)
Fixpoint change_trace (t : tree) (l : list changeEntry) (lp : list BlockID) : Prop :=
  chained t lp /\
  match l with
  | [] => True
  | ce :: l => ce_AppliedBlocks ce <> [] /\ (length (ce_RevertedBlocks ce) < length lp)%nat /\
      exists lp', follow ce lp = Some lp' /\ outworks t lp lp' /\ change_trace t l lp'
  end.

Lemma chained_take t lp lp' : lp' <> [] -> chained t (lp' ++ lp) -> chained t lp'.
Proof.
  intros Hne [H1 H2 H3 H4 H5]. split.
  - intros i bid Hi. assert (Hi' : (lp' ++ lp) !! i = Some bid) by (by apply lookup_app_l_Some).
    destruct (H1 i bid Hi') as (pb & ? & ? & ? & ? & Hpar). exists pb. split_and!; try done.
    intros j pid -> Hj. apply (Hpar j); [done|]. by apply lookup_app_l_Some.
  - destruct lp'; [done|]. done.
  - done.
  - by apply NoDup_app in H4 as [? _].
  - rewrite length_app in H5. lia.
Qed.

Lemma chained_grow t t' lp : grows t t' -> chained t lp -> chained t' lp.
Proof.
  intros Hk [H1 H2 Hr' H3 H4]. split; try done.
  2: { intros pb Hpb. destruct (H1 _ _ H2) as (pb0 & Hpb0 & Hg0 & _). apply Hr'.
       by rewrite (grows_generated _ _ _ _ Hk Hpb0 Hg0) in Hpb; injection Hpb as <-. }
  intros i bid Hi. destruct (H1 i bid Hi) as (pb & Hpb & Hg & ? & ? & ?). exists pb.
  split_and!; [by eapply grows_generated|done..].
Qed.

Lemma outworks_grow t t' lp lp' : grows t t' -> outworks t lp lp' -> outworks t' lp lp'.
Proof.
  intros Hg (x & x' & Hx & Hx' & Hlt). exists x, x'.
  apply bind_Some in Hx as (? & -> & Hx), Hx' as (? & -> & Hx').
  apply (grows_depth _ _ _ _ Hg) in Hx, Hx'. done.
Qed.

Lemma change_trace_grow d d' l lp :
  grows (db_BlockMap d) (db_BlockMap d') -> change_trace (db_BlockMap d) l lp -> change_trace (db_BlockMap d') l lp.
Proof.
  intros Hk. revert lp. induction l as [|ce l IH]; intros lp [Hc Hl];
    (split; [by apply (chained_grow (db_BlockMap d))|]); [done|].
  destruct Hl as (Hne & Hlen & lp' & Hf & Hw & Hl). split; [done|]. split; [done|]. exists lp'.
  split_and!; [done|by eapply outworks_grow|by apply IH].
Qed.

Lemma change_trace_app t l1 l2 lp lp1 :
  follow_all l1 lp = Some lp1 -> change_trace t l1 lp -> change_trace t l2 lp1 ->
  change_trace t (l1 ++ l2) lp.
Proof.
  revert lp. induction l1 as [|ce l1 IH]; intros lp Hf [Hc Hl] H2.
  { by injection Hf as <-. }
  destruct Hl as (Hne & Hlen & lp' & Hf' & Hw & Hl). split; [done|]. split; [done|]. split; [done|]. exists lp'.
  split_and!; [done..|]. apply IH; try done. unfold follow_all in *. cbn [foldl mbind option_bind] in Hf. by rewrite Hf' in Hf.
Qed.

Lemma path_chained n s lp :
  below_forks n -> cs_ok n s -> path_list (cs_db s) lp -> chained (db_BlockMap (cs_db s)) lp.
Proof.
  intros Hn [sigma Hc] [Hlen Hlp].
  destruct (chain_tip _ _ _ _ Hc) as (_ & _ & _ & _ & _ & _ & Hh & _).
  destruct (chain_root _ _ _ _ Hc) as (root & Hroot & _). split.
  - intros i bid Hi. rewrite <- Hlp in Hi.
    destruct (co_path _ _ _ _ Hc _ _ Hi) as (pb & Hpb & Hhp & Hg & Hpar).
    exists pb. split_and!; [done..| |done|].
    + by destruct (co_tree _ _ _ _ Hc _ _ Hpb).
    + intros j pid -> Hj. rewrite <- Hlp in Hj. specialize (Hpar ltac:(lia)).
      replace (Z.of_nat (S j) - 1) with (Z.of_nat j) in Hpar by lia. congruence.
  - by rewrite <- Hlp.
  - intros pb Hpb. destruct (chain_root _ _ _ _ Hc) as (pb0 & _ & Hpb0 & Hr0 & _). congruence.
  - apply NoDup_alt. intros i j bid Hi Hj. rewrite <- Hlp in Hi, Hj.
    destruct (chain_path_same _ _ _ _ _ _ Hc Hi) as (pb & Hpb & ? & _).
    destruct (chain_path_same _ _ _ _ _ _ Hc Hj) as (pb' & Hpb' & ? & _).
    assert (pb' = pb) as -> by congruence. lia.
  - destruct Hn as (_ & _ & _ & Hn). lia.
Qed.

Lemma gains_outworks d d' lp lp' :
  grows (db_BlockMap d) (db_BlockMap d') -> gains d d' -> path_list d lp -> path_list d' lp' ->
  0 <= db_BlockHeight d -> 0 <= db_BlockHeight d' -> outworks (db_BlockMap d') lp lp'.
Proof.
  intros Hg (x & x' & Hx & Hx' & Hlt) Hlp Hlp' Hh Hh'. exists x, x'.
  rewrite (path_list_last _ _ Hlp), (path_list_last _ _ Hlp') by done. unfold tip_depth in *.
  apply bind_Some in Hx as (? & -> & Hx). apply (grows_depth _ _ _ _ Hg) in Hx. done.
Qed.

Lemma cs_ok_height n s : cs_ok n s -> 0 <= db_BlockHeight (cs_db s).
Proof. intros [sigma Hc]. by destruct (chain_tip _ _ _ _ Hc) as (_ & _ & _ & _ & _ & _ & [? _] & _). Qed.

Record advances (l : list changeEntry) (d d' : DB) : Prop := mkAdvances {
  adv_depth : match l with [] => tip_depth d' = tip_depth d | _ => gains d d' end;
  adv_path : forall lp, path_list d lp ->
    exists lp', follow_all l lp = Some lp' /\ path_list d' lp';
  adv_blocks : grows (db_BlockMap d) (db_BlockMap d');
  adv_ledger : l = [] -> ledger d' = ledger d;
  adv_trace : forall lp, path_list d lp -> change_trace (db_BlockMap d') l lp
}.

Lemma advances_nil n s s' :
  below_forks n -> cs_ok n s' -> stays (cs_db s) (cs_db s') -> advances [] (cs_db s) (cs_db s').
Proof.
  intros Hn Hok [Hd Hp Hb Hl]. split; try done.
  - intros lp Hlp. exists lp. split; [done|auto].
  - intros lp Hlp. split; [|done]. apply (path_chained n s'); auto.
Qed.

Lemma advances_one n m ce s s' :
  below_forks n -> below_forks m -> cs_ok n s -> cs_ok m s' -> moves ce (cs_db s) (cs_db s') ->
  advances [ce] (cs_db s) (cs_db s').
Proof.
  intros Hn Hm Hok Hok' [Hg Hp Hb Ha]. split; try done; [intros lp Hlp; by apply Hp|].
  intros lp Hlp. destruct (Hp lp Hlp) as (Hlen & lp' & Hf & Hlp'). split; [|split; [done|split; [done|exists lp']]].
  - apply (chained_grow (db_BlockMap (cs_db s))); [done|]. by apply (path_chained n s).
  - pose proof (cs_ok_height _ _ Hok). pose proof (cs_ok_height _ _ Hok').
    split_and!; [done|by eapply gains_outworks|]. split; [|done]. by apply (path_chained m s').
Qed.

Lemma advances_app l1 l2 d1 d2 d3 :
  advances l1 d1 d2 -> advances l2 d2 d3 -> advances (l1 ++ l2) d1 d3.
Proof.
  intros [A1 P1 B1 L1 T1] [A2 P2 B2 L2 T2]. split.
  - destruct l1 as [|c1 l1], l2 as [|c2 l2]; cbn; unfold gains in *.
    + congruence.
    + by rewrite <- A1.
    + by rewrite A2.
    + destruct A1 as (x & y & ? & Hy & ?), A2 as (y' & z & Hy' & ? & ?).
      exists x, z. split_and!; [done..|]. assert (y' = y) as -> by congruence. lia.
  - intros lp (lp1 & F1 & Hl1)%P1. destruct (P2 lp1 Hl1) as (lp2 & F2 & Hl2). exists lp2.
    by rewrite (follow_all_app _ _ _ _ F1).
  - by eapply grows_trans.
  - intros [-> ->]%app_eq_nil. by rewrite L2, L1.
  - intros lp Hlp. destruct (P1 lp Hlp) as (lp1 & F1 & Hl1).
    eapply change_trace_app; [done| |by apply T2]. eapply change_trace_grow; [done|by apply T1].
Qed.

Lemma readonly_validateHeaderAndBlock now b bid : readonly (validateHeaderAndBlock now b bid).
Proof.
  unfold validateHeaderAndBlock, get. readonly_run; try apply readonly_gets.
  unfold or_panic. readonly_run.
Qed.

Lemma accept_one_ok n clock i b changes s changes' s' :
  below_forks (n + 1) -> cs_ok n s -> admissible b ->
  accept_one clock i b changes s = Ret changes' s' ->
  cs_ok (n + 1) s' /\ cs_published s' = cs_published s /\
  exists new, changes' = changes ++ new /\ advances new (cs_db s) (cs_db s') /\
    append_logs (cs_changeLog s) new = Some (cs_changeLog s').
Proof.
  intros Hn Hok Hadm. unfold accept_one.
  destruct (validateHeaderAndBlock _ _ _ s) as [parent s1|e s1|msg] eqn:Hv; [| |done].
  - apply validateHeaderAndBlock_Ret in Hv as (-> & Hnew & Hpar & Hpay).
    pose proof (addBlockToTree_ok n s b parent Hn Hok Hadm Hnew Hpar Hpay) as Hadd.
    destruct (addBlockToTree b parent s) as [ce s2|e s2|msg]; [| |done].
    + destruct Hadd as (? & ? & ? & ?). case_match; [done|]. injection 1 as <- <-.
      split_and!; [done..|]. exists [ce]. split_and!; [done| |done].
      apply (advances_one n (n + 1)); try done. unfold below_forks in *. lia.
    + destruct e; try done. destruct Hadd as (? & ? & ? & Hlog). injection 1 as <- <-.
      split_and!; [done..|]. exists []. rewrite app_nil_r, Hlog.
      split_and!; [done|by apply (advances_nil (n + 1))|done].
  - destruct e; try done. injection 1 as <- <-.
    assert (s1 = s) as ->.
    { pose proof (readonly_validateHeaderAndBlock (clock i) b (Block_ID b) s) as Hro.
      by rewrite Hv in Hro. }
    split_and!; [apply (cs_ok_more n); [lia|done]|done|].
    exists []. rewrite app_nil_r. split_and!; [done| |done].
    apply (advances_nil n); [unfold below_forks in *; lia|done|apply stays_refl].
Qed.

Lemma accept_all_ok clock blocks : forall n i changes s changes' s',
  below_forks (n + Z.of_nat (length blocks)) -> cs_ok n s -> Forall admissible blocks ->
  for_fold (accept_one clock) i blocks changes s = Ret changes' s' ->
  cs_ok (n + Z.of_nat (length blocks)) s' /\ cs_published s' = cs_published s /\
  exists new, changes' = changes ++ new /\ advances new (cs_db s) (cs_db s') /\
    append_logs (cs_changeLog s) new = Some (cs_changeLog s').
Proof.
  induction blocks as [|b blocks IH]; intros n i changes s changes' s' Hn Hok Hadm Hrun.
  - cbn in Hrun. inv_run. rewrite Z.add_0_r. split_and!; [done..|].
    exists []. rewrite app_nil_r. split_and!; [done| |done]. rewrite Z.add_0_r in Hn.
    apply (advances_nil n); [done..|apply stays_refl].
  - inversion Hadm; subst. rewrite for_fold_cons in Hrun.
    destruct (accept_one clock i b changes s) as [ch s1|e s1|msg] eqn:H1'; [|done..].
    cbn [length] in *.
    apply (accept_one_ok n) in H1' as (Hok1 & Hpub1 & new1 & -> & A1 & G1);
      [|unfold below_forks in *; lia|done..].
    replace (n + Z.of_nat (S (length blocks))) with (n + 1 + Z.of_nat (length blocks)) in * by lia.
    apply (IH (n + 1)) in Hrun as (Hok2 & Hpub2 & new2 & -> & A2 & G2); [|done..].
    split_and!; [done|congruence|]. exists (new1 ++ new2). rewrite app_assoc.
    split_and!; [done|by eapply advances_app|by rewrite (append_logs_app _ _ _ _ G1)].
Qed.

(** ** Nothing is published on the way *)

Definition quiet {A} (m : M ConsensusSet A) : Prop := forall s,
  match m s with
  | Ret _ s' | Err _ s' => cs_published s' = cs_published s
  | Panic _ => True
  end.

Lemma quiet_bind {A Y} (m : M ConsensusSet A) (k : A -> M ConsensusSet Y) :
  quiet m -> (forall a, quiet (k a)) -> quiet (m ≫= k).
Proof.
  intros Hm Hk s. specialize (Hm s). unfold mbind, M_bind.
  destruct (m s) as [a s1|e s1|]; [|done..]. specialize (Hk a s1).
  destruct (k a s1); [congruence..|done].
Qed.
Lemma quiet_in_db {A} (m : M DB A) : quiet (in_db m).
Proof. intros s. unfold in_db. by destruct (m (cs_db s)). Qed.
Lemma quiet_readonly {A} (m : M ConsensusSet A) : readonly m -> quiet m.
Proof. intros Hm s. specialize (Hm s). by destruct (m s); subst. Qed.

Lemma quiet_revert_loop chk fuel bid : quiet (revert_loop chk fuel bid).
Proof.
  induction fuel as [|fuel IH]; cbn [revert_loop]; [done|].
  unfold revert_one. rewrite (after_block_skip r Hr chk).
  repeat first [apply quiet_in_db | apply IH | apply quiet_bind; [|intros ?] | case_match | done].
Qed.
Lemma quiet_apply_loop chk l : quiet (apply_loop chk l).
Proof.
  induction l as [|pb l IH]; cbn [apply_loop]; [done|].
  unfold apply_one. rewrite (after_block_skip r Hr chk).
  repeat first [apply quiet_in_db | apply IH | apply quiet_bind; [|intros ?] | case_match | done].
  intros s. unfold generate_block. by destruct (generateAndApplyDiff _).
Qed.
Lemma quiet_addBlockToTree b parent : quiet (addBlockToTree b parent).
Proof.
  unfold addBlockToTree, forkBlockchain, forkBlockchain_with, revertToBlock, applyUntilBlock,
    appendChangeLog, or_panic.
  repeat first [apply quiet_in_db | apply quiet_revert_loop | apply quiet_apply_loop
    | apply quiet_bind; [|intros ?] | case_match | done].
  - intros s. by destruct (negb _).
  - intros s. by destruct (DEBUG && _).
Qed.

Lemma quiet_accept_one clock i b changes : quiet (accept_one clock i b changes).
Proof.
  intros s. unfold accept_one.
  pose proof (readonly_validateHeaderAndBlock (clock i) b (Block_ID b) s) as Hv.
  destruct (validateHeaderAndBlock _ _ _ s) as [parent s1|e s1|]; [| |done]; subst s1.
  - pose proof (quiet_addBlockToTree b parent s) as Ha.
    destruct (addBlockToTree b parent s) as [ce s2|e s2|]; [|by destruct e|done].
    by destruct (_ <? _)%nat.
  - destruct e; try done; by destruct (bool_decide _).
Qed.

Lemma quiet_accept_all clock blocks : forall i changes,
  quiet (for_fold (accept_one clock) i blocks changes).
Proof.
  induction blocks as [|b blocks IH]; intros i changes; [done|]. intros s.
  rewrite for_fold_cons. pose proof (quiet_accept_one clock i b changes s) as H1.
  destruct (accept_one clock i b changes s) as [ch s1|e s1|]; [|done..].
  specialize (IH (i + 1) ch s1). destruct (for_fold _ _ _ _ s1); [congruence..|done].
Qed.

(** Whatever it returns, [managedAcceptBlocks] leaves a chain behind. *)
Lemma managedAcceptBlocks_ok n clock blocks s :
  below_forks (n + Z.of_nat (length blocks)) -> cs_ok n s -> Forall admissible blocks ->
  match managedAcceptBlocks clock blocks s with
  | Ret _ s' =>
      cs_ok (n + Z.of_nat (length blocks)) s' /\
      exists new, new <> [] /\ cs_published s' = cs_published s ++ new /\
        advances new (cs_db s) (cs_db s') /\
        append_logs (cs_changeLog s) new = Some (cs_changeLog s')
  | Err e s' =>
      cs_ok (n + Z.of_nat (length blocks)) s' /\ cs_published s' = cs_published s /\
      cs_changeLog s' = cs_changeLog s /\
      (cs_db s' = cs_db s \/ e = ErrNonExtendingBlock /\ advances [] (cs_db s) (cs_db s'))
  | Panic _ => True
  end.
Proof.
  intros Hn Hok Hadm. pose proof (cs_ok_more n (n + Z.of_nat (length blocks)) s ltac:(lia) Hok) as Hmore.
  unfold managedAcceptBlocks, mbind, M_bind.
  destruct (linear blocks); cbn [negb err_if check mret M_ret throw]; [|by auto].
  unfold db_Update. destruct (for_fold _ 0 blocks [] s) as [ch s1|e s1|msg] eqn:Hrun; [| |done].
  - apply (accept_all_ok clock blocks n) in Hrun as (Hok1 & Hpub & new & -> & Hadv & Hlog); [|done..].
    cbn [app]. case_bool_decide as Hnil; cbn [err_if check throw mret M_ret modify].
    + subst new. injection Hlog as Hlog. split_and!; [done..|symmetry; exact Hlog|by right].
    + split; [|exists new; cbn; by rewrite Hpub]. destruct Hok1 as [sigma Hc]. by exists sigma.
  - pose proof (quiet_accept_all clock blocks 0 [] s) as Hq. rewrite Hrun in Hq.
    destruct Hmore as [sigma Hc]. split_and!; [by exists sigma|done|done|by left].
Qed.

End accept.
