(* ===== verification/ChainState.v ===== *)
(** * The state of a consensus set

    What a consensus set holds after any sequence of calls that accept blocks:
    the outputs, contracts and pool are those of the current path, validated
    block by block from the genesis block, and the coins in them are those of
    the genesis block and one coinbase for each block of the path.  *)

From S2P Require Import Prelude Bytes Interfaces Currency Types Params Encoding Transactions.
From S2P Require Import Subsidy ConsensusDB ApplyTransaction ConsensusValid GenerateDiffs.
From S2P Require Import ProcessedBlock BlockValidation Fork Accept Journal Agree.
From S2P Require Import Records Steps Revert RevertApply Conservation ConservationBlock Frames.
From S2P Require Import Chain ChainFork ChainAccept.

Open Scope Z_scope.

Section state.
Context {P : Params} {C : Crypto} {E : SiaEncoding} (r : release).
#[local] Hint Extern 0 Build => exact (debug_build r) : typeclass_instances.

(** ** Definitions *)

(** The consensus set on a new database. *)
Definition new_set (d : DB) : ConsensusSet := mkConsensusSet d createChangeLog ∅ false [] [].

(** The consensus sets that calls of [managedAcceptBlocks] lead to; the number
    counts the blocks handed over, the genesis block included. *)
Inductive reachable : Z -> ConsensusSet -> Prop :=
| reachable_new d : loadDB empty_DB = Ret () d -> reachable 1 (new_set d)
| reachable_accept n s clock blocks extended s' :
    reachable n s -> Forall admissible blocks ->
    managedAcceptBlocks clock blocks s = Ret extended s' ->
    reachable (n + Z.of_nat (length blocks)) s'
| reachable_reject n s clock blocks e s' :
    reachable n s -> Forall admissible blocks ->
    managedAcceptBlocks clock blocks s = Err e s' ->
    reachable (n + Z.of_nat (length blocks)) s'.

(** The databases left by validating and applying the blocks of a list in
    order, each on a database that agrees with the one its parent left. *)
Inductive history : list Block -> DB -> Prop :=
| history_genesis d : loadDB empty_DB = Ret () d -> history [GenesisBlock] d
| history_block bs d e pb d' pb' :
    history bs d -> same_tip e d -> fcex_ok e -> fresh pb ->
    pb_Height pb = Z.of_nat (length bs) ->
    last (Block_ID <$> bs) = Some (b_ParentID (pb_Block pb)) ->
    checkMinerPayouts (pb_Block pb) (pb_Height pb) = true ->
    generateAndApplyDiff (mkBlockState e pb) = Ret () (mkBlockState d' pb') ->
    history (bs ++ [pb_Block pb]) d'.

(** The siafunds of the genesis block. *)
Definition genesis_funds_ok : Prop :=
  sum_of sfo_Value GenesisSiafundAllocation = 10000%N /\
  Forall (fun sfo => sfo_ClaimStart sfo = 0%N) GenesisSiafundAllocation.

(** The coins of a chain of [n] blocks. *)
Definition supply (n : nat) : N :=
  (genesis_coins + sum_of (fun h => CalculateCoinbase h) (seqZ 0 (Z.of_nat n)))%N.

(** ** The path *)

Lemma reachable_cs_ok n s :
  r <> Testing -> below_forks n -> reachable n s -> cs_ok r n s.
Proof.
  intros Hr Hn Hreach. revert Hn.
  induction Hreach as [d Hd|n s clock blocks x s' _ IH Hadm Hrun|n s clock blocks x s' _ IH Hadm Hrun];
    intros Hn.
  - exists (fun _ => d). by apply genesis_chain.
  - pose proof (managedAcceptBlocks_ok r Hr n clock blocks s Hn) as Hok.
    rewrite Hrun in Hok. apply Hok; [|done]. apply IH. unfold below_forks in *. lia.
  - pose proof (managedAcceptBlocks_ok r Hr n clock blocks s Hn) as Hok.
    rewrite Hrun in Hok. apply Hok; [|done]. apply IH. unfold below_forks in *. lia.
Qed.

Lemma path_history sigma n d :
  chain_ok r sigma n d -> forall k, Z.of_nat k <= db_BlockHeight d ->
  exists bs bid, history bs (sigma bid) /\ length bs = S k /\
    db_BlockPath d !! Z.of_nat k = Some bid /\
    forall i, (i <= k)%nat -> db_BlockPath d !! Z.of_nat i = Block_ID <$> bs !! i.
Proof.
  intros Hc. destruct (chain_tip _ _ _ _ Hc) as (_ & _ & _ & _ & _ & _ & _ & Hdom).
  induction k as [|k IH]; intros Hk.
  - destruct (proj2 (Hdom 0)) as [bid Hbid]; [lia|].
    destruct (co_path _ _ _ _ Hc _ _ Hbid) as (pb & Hpb & Hh & Hg & _).
    destruct (co_tree _ _ _ _ Hc _ _ Hpb) as [Hkey _ _ Hkind].
    destruct Hkind as [(Hb & _ & _)|[q [Hq Hqh _ _ _]]].
    + assert (bid = GenesisID) as -> by (by rewrite <- Hkey, Hb).
      exists [GenesisBlock], GenesisID. split_and!; [|done..|].
      { apply history_genesis, (co_genesis _ _ _ _ Hc). }
      intros i Hi. by replace i with 0%nat by lia.
    + pose proof (nd_height _ _ _ _ _ _ (co_tree _ _ _ _ Hc _ _ Hq)). lia.
  - destruct IH as (bs & pid & Hhist & Hlen & Hpid & Hall); [lia|].
    destruct (proj2 (Hdom (Z.of_nat (S k)))) as [bid Hbid]; [lia|].
    destruct (co_path _ _ _ _ Hc _ _ Hbid) as (pb & Hpb & Hh & Hg & Hprev).
    replace (Z.of_nat (S k) - 1) with (Z.of_nat k) in Hprev by lia.
    rewrite Hpid in Hprev. specialize (Hprev ltac:(lia)). injection Hprev as ->.
    destruct (co_tree _ _ _ _ Hc _ _ Hpb) as [<- _ _ Hkind].
    destruct (child_of_height r sigma n _ _ _ (co_tree _ _ _ _ Hc) Hpb) as [parent Hch]; [lia|].
    destruct Hch as [_ _ Hpay _ [[_ Hf]|(_ & _ & (e0 & pb0 & Ht & Hok & Hfr & Hb0 & Hh0 & Hrun))]];
      [congruence|].
    exists (bs ++ [pb_Block pb]), (Block_ID (pb_Block pb)). split_and!.
    + rewrite <- Hb0 at 1. eapply history_block; [exact Hhist|exact Ht|done|done| | | |exact Hrun].
      * rewrite Hh0, Hlen. lia.
      * rewrite Hb0, last_lookup, length_fmap, Hlen. cbn [Nat.pred].
        rewrite list_lookup_fmap, <- Hall by lia. done.
      * by rewrite Hb0, Hh0.
    + rewrite length_app, Hlen. cbn. lia.
    + done.
    + intros i Hi. destruct (decide (i = S k)) as [->|].
      * by rewrite lookup_app_r, Hlen, Nat.sub_diag by lia.
      * rewrite lookup_app_l by lia. apply Hall. lia.
Qed.

Lemma reachable_history n s :
  r <> Testing -> below_forks n -> reachable n s ->
  exists bs d, history bs d /\ same_tip (cs_db s) d /\
    length bs = S (Z.to_nat (db_BlockHeight (cs_db s))) /\ (length bs <= Z.to_nat n)%nat /\
    0 <= db_BlockHeight (cs_db s) /\
    forall i, db_BlockPath (cs_db s) !! Z.of_nat i = Block_ID <$> bs !! i.
Proof.
  intros Hr Hn Hreach. destruct (reachable_cs_ok n s Hr Hn Hreach) as [sigma Hc].
  destruct (chain_tip _ _ _ _ Hc) as (pb & Htip & _ & _ & _ & Hsame & Hrange & Hdom).
  destruct (path_history _ _ _ Hc (Z.to_nat (db_BlockHeight (cs_db s)))) as
    (bs & bid & Hhist & Hlen & Hbid & Hall); [lia|].
  rewrite Z2Nat.id in Hbid by lia. rewrite Htip in Hbid. injection Hbid as <-.
  exists bs. eexists. split_and!; [exact Hhist|exact Hsame|done|lia|lia|].
  intros i. destruct (decide (i <= Z.to_nat (db_BlockHeight (cs_db s)))%nat) as [|Hgt];
    [by apply Hall|].
  rewrite lookup_ge_None_2 by lia. apply eq_None_not_Some. rewrite Hdom. lia.
Qed.

(** ** The genesis block *)

Lemma genesis_scods_sum scods : forall d d',
  Forall (fun x => scod_Direction x = DiffApply) scods ->
  for_each (fun x => commitSiacoinOutputDiff x DiffApply) scods d = Ret () d' ->
  exists m, d' = with_SiacoinOutputs m d /\
    (msum sco_Value m
     = sum_of (fun x => sco_Value (scod_SiacoinOutput x)) scods
       + msum sco_Value (db_SiacoinOutputs d))%N.
Proof.
  induction scods as [|x scods IH]; intros d d' Hdir Hrun; cbn [for_each] in Hrun; inv_run.
  - exists (db_SiacoinOutputs d). by destruct d.
  - inversion Hdir as [|? ? Hx Hxs]; subst.
    match goal with H : commitSiacoinOutputDiff _ _ _ = _ |- _ => rename H into Hc end.
    match goal with H : for_each _ _ _ = _ |- _ =>
      apply IH in H as (m & -> & Hm); [|done] end.
    unfold commitSiacoinOutputDiff, addSiacoinOutput, isSiacoinOutput in Hc.
    rewrite Hx in Hc. change (same_dir DiffApply DiffApply) with true in Hc. cbv match in Hc. inv_run. cbn in Hm.
    exists m. split; [by destruct d|]. rewrite Hm, sum_of_cons, msum_insert; [lia|].
    match goal with H : _ && _ = false |- _ => cbn in H;
      apply bool_decide_eq_false_1, eq_None_not_Some in H; exact H end.
Qed.

Lemma genesis_sfods_sum sfods : forall d d',
  Forall (fun x => sfod_Direction x = DiffApply) sfods ->
  for_each (fun x => commitSiafundOutputDiff x DiffApply) sfods d = Ret () d' ->
  exists m, d' = with_SiafundOutputs m d /\
    (msum sfo_Value m
     = sum_of (fun x => sfo_Value (sfod_SiafundOutput x)) sfods
       + msum sfo_Value (db_SiafundOutputs d))%N /\
    forall k v, m !! k = Some v ->
      db_SiafundOutputs d !! k = Some v \/ v ∈ sfod_SiafundOutput <$> sfods.
Proof.
  induction sfods as [|x sfods IH]; intros d d' Hdir Hrun; cbn [for_each] in Hrun; inv_run.
  - exists (db_SiafundOutputs d). split_and!; [by destruct d|done|by left].
  - inversion Hdir as [|? ? Hx Hxs]; subst.
    match goal with H : commitSiafundOutputDiff _ _ _ = _ |- _ => rename H into Hc end.
    match goal with H : for_each _ _ _ = _ |- _ =>
      apply IH in H as (m & -> & Hm & Hin); [|done] end.
    unfold commitSiafundOutputDiff, addSiafundOutput in Hc.
    rewrite Hx in Hc. change (same_dir DiffApply DiffApply) with true in Hc. cbv match in Hc. inv_run. cbn in Hm, Hin.
    exists m. split_and!; [by destruct d| |].
    + rewrite Hm, sum_of_cons, msum_insert; [lia|].
      match goal with H : _ && bool_decide _ = false |- _ => cbn in H;
        apply bool_decide_eq_false_1, eq_None_not_Some in H; exact H end.
    + intros k v Hk. rewrite fmap_cons, elem_of_cons.
      destruct (Hin k v Hk) as [[[_ <-]|[_ ?]]%lookup_insert_Some|?]; auto.
Qed.

Lemma sum_of_imap {A B} (f : B -> N) (g : A -> N) (h : nat -> A -> B) l :
  (forall i x, f (h i x) = g x) -> sum_of f (imap h l) = sum_of g l.
Proof.
  revert h. induction l as [|x l IH]; intros h Hh; [done|].
  rewrite imap_cons, !sum_of_cons, Hh. f_equal. apply IH. intros. apply Hh.
Qed.

Lemma root_scods : pb_SiacoinOutputDiffs blockRoot = genesis_scods genesis_siacoin_txn.
Proof. cbn. by rewrite !app_nil_r. Qed.
Lemma root_sfods : pb_SiafundOutputDiffs blockRoot = genesis_sfods genesis_siafund_txn.
Proof. cbn. by rewrite app_nil_r. Qed.

Lemma flat_singleton h bid sco : flat {[h := {[bid := sco]}]} = <[(h, bid) := sco]> ∅.
Proof.
  apply map_eq. intros [h' bid']. rewrite flat_lookup.
  destruct (decide (h = h')) as [<-|Hh].
  - rewrite lookup_singleton_eq. cbn. destruct (decide (bid = bid')) as [<-|Hb].
    + by rewrite lookup_singleton_eq, lookup_insert_eq.
    + by rewrite lookup_singleton_ne, lookup_insert_ne by congruence.
  - by rewrite lookup_singleton_ne, lookup_insert_ne by congruence.
Qed.

(** [createConsensusDB] fills the buckets from the genesis block. *)
Lemma genesis_outputs d :
  createConsensusDB empty_DB = Ret () d ->
  sco_coins d = sum_of sco_Value GenesisAirdropAllocation /\
  dsco_coins d = CalculateCoinbase 0 /\
  funds d = sum_of sfo_Value GenesisSiafundAllocation /\
  db_SiafundPool d = 0%N /\ db_FileContracts d = ∅ /\
  forall k v, db_SiafundOutputs d !! k = Some v -> v ∈ GenesisSiafundAllocation.
Proof.
  intros Hrun. unfold createConsensusDB, addBlockMap in Hrun. rewrite root_scods, root_sfods in Hrun. inv_run.
  match goal with H : for_each _ (genesis_scods _) _ = _ |- _ =>
    apply genesis_scods_sum in H as (m1 & -> & Hm1) end.
  2: { unfold genesis_scods. apply Forall_lookup. intros i x. rewrite list_lookup_imap.
       by intros (y & _ & ->)%fmap_Some. }
  match goal with H : setSiafundPool _ _ = _ |- _ => injection H as <- end.
  match goal with H : for_each _ (genesis_sfods _) _ = _ |- _ =>
    apply genesis_sfods_sum in H as (m2 & -> & Hm2 & Hin) end.
  2: { unfold genesis_sfods. apply Forall_lookup. intros i x. rewrite list_lookup_imap.
       by intros (y & _ & ->)%fmap_Some. }
  match goal with H : createDSCOBucket ?h ?d0 = Ret _ ?x |- _ =>
    assert (x = with_DSCO (<[h := ∅]> (db_DSCO d0)) d0) as ->
      by (unfold createDSCOBucket, get, mbind, M_bind in H; cbn [db_DSCO with_SiafundOutputs
            with_SiafundPool with_SiacoinOutputs empty_DB] in H;
          rewrite lookup_empty in H; by injection H as <-); clear H end.
  match goal with H : addDSCO _ _ _ _ = _ |- _ =>
    unfold addDSCO, isSiacoinOutput in H; inv_run end.
  match goal with H : match db_DSCO _ !! _ with _ => _ end _ = _ |- _ =>
    cbn [db_DSCO with_DSCO with_SiafundOutputs with_SiafundPool with_SiacoinOutputs empty_DB] in H;
    rewrite lookup_insert_eq in H; inv_run end.
  match goal with H : pushPath _ _ = _ |- _ => rewrite pushPath_Ret in H; injection H as <- end.
  unfold sco_coins, dsco_coins, funds, delayed, pushed.
  cbn [db_SiacoinOutputs db_SiafundOutputs db_DSCO db_SiafundPool db_FileContracts with_BlockMap
    with_BlockPath with_BlockHeight with_DSCO with_SiafundOutputs with_SiafundPool
    with_SiacoinOutputs empty_DB] in Hm1, Hm2, Hin |- *.
  clear - Hm1 Hm2 Hin.
  rewrite msum_empty, N.add_0_r in Hm1. rewrite msum_empty, N.add_0_r in Hm2. split_and!; [| | |done|done|].
  - rewrite Hm1. by apply sum_of_imap.
  - rewrite insert_insert_eq, !insert_empty, flat_singleton, msum_insert, msum_empty
      by apply lookup_empty. apply N.add_0_r.
  - rewrite Hm2. by apply sum_of_imap.
  - intros k v Hk. destruct (Hin k v Hk) as [Hv|Hv]; [by rewrite lookup_empty in Hv|].
    unfold genesis_sfods in Hv. rewrite fmap_imap in Hv.
    apply elem_of_lookup_imap_1 in Hv as (i & x & -> & Hx). by eapply list_elem_of_lookup_2.
Qed.

Lemma genesis_accounts d :
  genesis_funds_ok -> loadDB empty_DB = Ret () d ->
  accounts_ok d /\ total_coins d = (genesis_coins + CalculateCoinbase 0)%N.
Proof.
  intros [Hfunds Hclaims] Hrun. unfold loadDB, initDB in Hrun. inv_run.
  match goal with H : createConsensusDB _ = Ret _ ?x |- _ => rename x into d1;
    destruct (genesis_outputs d1 H) as (Hs & Hd & Hf & Hp & Hc & Hin) end.
  match goal with H : getPath _ _ = Ret _ _ |- _ => injection H as _ <- end.
  match goal with H : initOak _ = Ret _ _ |- _ =>
    apply (keeps_Ret (fun d => (db_FileContracts d, outputs_of d))) in H as Hk end.
  2: { unfold initOak, initOak_step, storeBlockTotals, or_panic. keeps_run. }
  unfold outputs_of in Hk. cbn in Hk. injection Hk as K1 K2 K3 K4 K5.
  unfold accounts_ok, claims_ok, contracts_ok, funds, total_coins, claim_coins, sco_coins,
    dsco_coins, delayed, fc_coins in *. rewrite K1, K2, K3, K4, K5, Hp, Hc in *.
  rewrite Forall_forall in Hclaims. split_and!.
  - congruence.
  - intros k v Hk. rewrite (Hclaims v) by eauto. done.
  - intros k v. by rewrite lookup_empty.
  - rewrite Hs, Hd, msum_empty, (msum_ext _ (fun _ => 0 * 0)%N), msum_mul.
    + unfold genesis_coins, sum_siacoin_outputs. cbn [GenesisBlock b_Transactions fold_left genesis_siacoin_txn
        genesis_siafund_txn t_SiacoinOutputs].
      unfold Currency.Add. rewrite (fold_left_add_acc sco_Value). unfold Currency.NewCurrency64. lia.
    + intros k v Hk. unfold claim_value. by rewrite (Hclaims v) by eauto.
Qed.

(** ** Coins along a history *)

Lemma supply_snoc k : supply (S k) = (supply k + CalculateCoinbase (Z.of_nat k))%N.
Proof.
  unfold supply. rewrite Nat2Z.inj_succ, <- Z.add_1_r, seqZ_app by lia.
  rewrite sum_of_app, (seqZ_cons _ 1), sum_of_cons by lia.
  rewrite (seqZ_nil (Z.succ _)) by lia. rewrite sum_of_nil, Z.add_0_l. lia.
Qed.

Lemma same_tip_accounts e d : same_tip e d -> accounts_ok d -> accounts_ok e.
Proof.
  intros [Hs _ _]. pose proof (same_core_id _ _ Hs) as Hf. destruct Hs as [Hc Hfc _ Hd Hp].
  unfold accounts_ok, claims_ok, contracts_ok, funds. by rewrite Hf, Hfc, Hp.
Qed.

Lemma same_tip_coins e d : same_tip e d -> total_coins e = total_coins d.
Proof.
  intros [Hs _ _]. pose proof (same_core_id _ _ Hs) as Hf. destruct Hs as [Hc Hfc _ Hd Hp].
  unfold total_coins, sco_coins, dsco_coins, fc_coins, claim_coins, delayed.
  by rewrite Hf, Hfc, Hc, Hd, Hp.
Qed.

Lemma history_height bs d :
  below_forks (Z.of_nat (length bs)) -> history bs d ->
  db_BlockHeight d = Z.of_nat (length bs) - 1 /\ (0 < length bs)%nat.
Proof.
  intros Hn Hhist. revert Hn.
  induction Hhist as [d Hd|bs d e pb d' pb' Hhist IH Ht Hok Hfr Hh Hl Hpay Hrun]; intros Hn.
  - destruct (loadDB_frame r d Hd) as (root & _ & Hf). unfold frame in Hf.
    injection Hf as -> _ _ _ _. cbn. lia.
  - rewrite length_app in *. cbn [length] in *.
    destruct IH as [IH Hpos]; [unfold below_forks in *; lia|].
    destruct (generate_result r e pb d' pb' Hok) as (_ & _ & _ & _ & _ & _ & Hht & _); try done.
    { eapply ordinary_below; [exact Hn|]. lia. }
    rewrite Hht, (st_height _ _ Ht), IH, u64_small; [lia|].
    unfold is_u64, below_forks in *. lia.
Qed.

Lemma history_coins bs d :
  genesis_funds_ok -> below_forks (Z.of_nat (length bs)) -> history bs d ->
  accounts_ok d /\ total_coins d = supply (length bs).
Proof.
  intros Hgen Hn Hhist. revert Hn.
  induction Hhist as [d Hd|bs d e pb d' pb' Hhist IH Ht Hok [Hnd _] Hh Hl Hpay Hrun]; intros Hn.
  - destruct (genesis_accounts d Hgen Hd) as [? ->]. split; [done|].
    cbn [length]. rewrite supply_snoc. unfold supply.
    rewrite (seqZ_nil 0), sum_of_nil by lia. change (Z.of_nat 0) with 0. lia.
  - rewrite length_app, Nat.add_1_r, supply_snoc in *.
    assert (Hn' : below_forks (Z.of_nat (length bs))) by (unfold below_forks in *; lia).
    destruct (IH Hn') as [Hacc Hsum].
    destruct (history_height bs d Hn' Hhist) as [Hht Hpos].
    destruct (generateAndApplyDiff_coins r e pb d' pb') as [Ha Hc]; try done.
    + by eapply same_tip_accounts.
    + eapply ordinary_below; [exact Hn|]. lia.
    + rewrite (st_height _ _ Ht), Hht. unfold below_forks in *. lia.
    + unfold is_u64. unfold below_forks in *. lia.
    + split; [done|]. by rewrite Hc, (same_tip_coins _ _ Ht), Hsum, Hh.
Qed.

(** ** The published changes *)

(** The published changes lead from the genesis block to the current path
    through paths of the tree with more and more work, and the change log holds
    them. *)
Lemma reachable_published n s :
  r <> Testing -> below_forks n -> reachable n s ->
  exists lp, follow_all (cs_published s) [GenesisID] = Some lp /\ path_list (cs_db s) lp /\
    change_trace (db_BlockMap (cs_db s)) (cs_published s) [GenesisID] /\
    append_logs createChangeLog (cs_published s) = Some (cs_changeLog s).
Proof.
  intros Hr Hn Hreach. revert Hn.
  induction Hreach as [d Hd|n s clock blocks x s' Hreach IH Hadm Hrun|n s clock blocks x s' Hreach IH Hadm Hrun];
    intros Hn.
  1: { assert (Hp : path_list d [GenesisID]).
       { destruct (loadDB_frame r d Hd) as (root & _ & Hf). unfold frame in Hf.
         injection Hf as F1 _ F3 _ _. split; cbn; [by rewrite F1|]. intros [|i]; rewrite F3; [done|].
         apply lookup_singleton_ne. lia. }
       exists [GenesisID]. split_and!; [done..| |done]. split; [|done].
       by apply (path_chained r 1 (new_set d) _ Hn), Hp; apply reachable_cs_ok; [..|by constructor]. }
  all: assert (Hn' : below_forks n) by (unfold below_forks in *; lia).
  all: pose proof (managedAcceptBlocks_ok r Hr n clock blocks s Hn
         (reachable_cs_ok _ _ Hr Hn' Hreach) Hadm) as Hout; rewrite Hrun in Hout.
  all: destruct (IH Hn') as (lp & Hf & Hlp & Htr & Hlog).
  - destruct Hout as (_ & new & _ & -> & [_ Hp Hg _ Ht] & Hlog'). destruct (Hp lp Hlp) as (lp' & Hf' & Hlp').
    exists lp'. rewrite (follow_all_app _ _ _ _ Hf), (append_logs_app _ _ _ _ Hlog). split_and!; [done..| |done].
    eapply change_trace_app; [done| |by apply Ht]. by eapply change_trace_grow.
  - destruct Hout as (_ & -> & -> & [->|[_ [_ Hp Hg _ _]]]); [by exists lp|].
    destruct (Hp lp Hlp) as (lp' & [= <-] & ?). exists lp. split_and!; try done. by eapply change_trace_grow.
Qed.

(** ** The theorems *)

(** C1. After any sequence of calls that accept blocks, with or without
    reorganisations and errors, the outputs, contracts, delayed outputs and
    pool of the database are those left by validating and applying the blocks
    of the current path one after the other from the genesis block, and the
    path lists the IDs of those blocks. *)
Theorem managedAcceptBlocks_state n s :
  r <> Testing -> below_forks n -> reachable n s ->
  exists bs d, history bs d /\ same_tip (cs_db s) d /\
    db_BlockHeight (cs_db s) = Z.of_nat (length bs) - 1 /\
    forall i, db_BlockPath (cs_db s) !! Z.of_nat i = Block_ID <$> bs !! i.
Proof.
  intros Hr Hn Hreach.
  destruct (reachable_history n s Hr Hn Hreach) as (bs & d & Hh & Ht & Hlen & _ & Hpos & Hp).
  exists bs, d. split_and!; [done..|lia|done].
Qed.

(** C2. After any sequence of calls that accept blocks, the siacoins in
    outputs, delayed outputs, contracts and siafund claims are those of the
    genesis block and one coinbase for each block of the current path, and
    there are 10000 siafunds. *)
Theorem managedAcceptBlocks_supply n s :
  r <> Testing -> genesis_funds_ok -> below_forks n -> reachable n s ->
  accounts_ok (cs_db s) /\
  total_coins (cs_db s) = supply (S (Z.to_nat (db_BlockHeight (cs_db s)))).
Proof.
  intros Hr Hgen Hn Hreach.
  destruct (reachable_history n s Hr Hn Hreach) as (bs & d & Hh & Ht & Hlen & Hle & _ & _).
  destruct (history_coins bs d Hgen) as [Hacc Hsum]; [|done|].
  { unfold below_forks in *. lia. }
  split; [by eapply same_tip_accounts|]. by rewrite (same_tip_coins _ _ Ht), Hsum, Hlen.
Qed.

(** C4. A successful call to [managedAcceptBlocks] ends on a chain with
    strictly more work and publishes the changes.  A call that fails publishes
    nothing, not even in the change log, and stays on the current path; unless
    the error is that the blocks do not extend the chain, the database is
    rolled back to what it was. *)
Theorem managedAcceptBlocks_outcome n s clock blocks :
  r <> Testing -> below_forks (n + Z.of_nat (length blocks)) -> reachable n s ->
  Forall admissible blocks ->
  match managedAcceptBlocks clock blocks s with
  | Ret _ s' =>
      gains (cs_db s) (cs_db s') /\
      exists new, new <> [] /\ cs_published s' = cs_published s ++ new
  | Err e s' =>
      cs_published s' = cs_published s /\ tip_depth (cs_db s') = tip_depth (cs_db s) /\
      (forall lp, path_list (cs_db s) lp -> path_list (cs_db s') lp) /\
      cs_changeLog s' = cs_changeLog s /\ (e <> ErrNonExtendingBlock -> cs_db s' = cs_db s)
  | Panic _ => True
  end.
Proof.
  intros Hr Hn Hreach Hadm.
  assert (Hok : cs_ok r n s)
    by (apply reachable_cs_ok; [done|unfold below_forks in *; lia|done]).
  pose proof (managedAcceptBlocks_ok r Hr n clock blocks s Hn Hok Hadm) as Hout.
  destruct (managedAcceptBlocks clock blocks s) as [x s'|e s'|]; [| |done].
  - destruct Hout as (_ & new & Hnew & Hpub & [Hg _] & _). split; [by destruct new|]. by exists new.
  - destruct Hout as (_ & Hpub & Hlog & [Hd|[-> [Hdep Hp]]]).
    + rewrite Hd. by split_and!.
    + split_and!; try done. intros lp Hlp. destruct (Hp lp Hlp) as (lp' & [= <-] & ?). done.
Qed.

(** C3. A subscriber that starts at the genesis block and takes the published
    changes in order, removing the reverted blocks from the end of its path and
    appending the applied ones, never has to remove a block it does not have
    last, and ends with the current path of the consensus set. *)
Theorem published_changes_follow_path n s :
  r <> Testing -> below_forks n -> reachable n s ->
  exists lp, follow_all (cs_published s) [GenesisID] = Some lp /\ path_list (cs_db s) lp.
Proof.
  intros Hr Hn Hreach. destruct (reachable_published n s Hr Hn Hreach) as (lp & ? & ? & _). by exists lp.
Qed.

End state.

(** * The loops of a reorganisation end

    From a consensus set that accepted blocks, [backtrackToCurrentPath] finds
    the common parent of any stored block and [revertToBlock] rewinds to it,
    in a release build without a panic: the fuel of the two loops suffices. *)

Section termination.
Context {P : Params} {C : Crypto} {E : SiaEncoding} (r : release).
#[local] Hint Extern 0 Build => exact (release_build r) : typeclass_instances.

Lemma backtrack_loop_total sigma n d : chain_ok r sigma n d -> forall fuel pb rest,
  in_tree (db_BlockMap d) pb -> pb_Height pb < Z.of_nat fuel ->
  exists l, backtrack_loop fuel pb (pb :: rest) d = Ret (l ++ rest) d /\
    trail (db_BlockMap d) (db_BlockPath d) pb l.
Proof.
  intros Hc. induction fuel as [|fuel IH]; intros pb rest Hin Hf.
  { pose proof (nd_height _ _ _ _ _ _ (co_tree _ _ _ _ Hc _ _ Hin)). lia. }
  cbn [backtrack_loop]. unfold getPath, blockHeight, getBlockMap, gets, mbind, M_bind.
  case_bool_decide as Hid.
  - exists [pb]. split; [done|]. apply trail_here; [done|]. unfold at_path, block_id.
    destruct (db_BlockPath d !! pb_Height pb) as [x|] eqn:Hx; [cbn in Hid; by rewrite Hid|].
    assert (Hat : ~ at_path (db_BlockPath d) pb) by (unfold at_path; congruence).
    destruct (off_path_child _ _ _ _ _ Hc Hin Hat) as (parent & [_ _ _ [_ Hz] _]). by destruct Hz.
  - cbn [DEBUG release_build andb panic_if mret M_ret].
    assert (Hat : ~ at_path (db_BlockPath d) pb).
    { unfold at_path, block_id. intros Hx. by rewrite Hx in Hid. }
    destruct (off_path_child _ _ _ _ _ Hc Hin Hat) as (parent & [Hpar Hh _ _ _]). rewrite Hpar.
    destruct (IH parent (pb :: rest)) as (l & -> & Ht).
    + by eapply in_tree_key; [apply (co_tree _ _ _ _ Hc)|].
    + lia.
    + exists (l ++ [pb]). rewrite <- app_assoc. split; [done|]. by eapply trail_up.
Qed.

Context (Hr : r <> Testing) (chk : M ConsensusSet ()).

Lemma skip_check : after_block chk = mret ().
Proof. unfold after_block. cbn. by rewrite bool_decide_false. Qed.

Lemma revert_one_total sigma n s :
  below_forks n -> chain_ok r sigma n (cs_db s) -> 0 < db_BlockHeight (cs_db s) ->
  exists pb d', revert_one chk s = Ret pb (with_db d' s) /\ chain_ok r sigma n d' /\
    db_BlockMap d' = db_BlockMap (cs_db s) /\
    db_BlockHeight d' = db_BlockHeight (cs_db s) - 1 /\
    db_BlockPath d' = delete (db_BlockHeight (cs_db s)) (db_BlockPath (cs_db s)).
Proof.
  intros Hn Hc Hpos.
  destruct (chain_tip _ _ _ _ Hc) as (pb & Hpath & Hpb & Hh & _ & _ & Hrange & _).
  destruct (revert_tip r sigma n (cs_db s) pb Hn Hc Hpos Hpath Hpb) as (d' & Hrun & Hrest).
  destruct (ordinary_below n pb Hn) as [_ Hfork]; [lia|]. rewrite Hh in Hfork.
  exists pb, d'. split; [|exact Hrest]. unfold revert_one. rewrite skip_check.
  assert (Hcur : in_db currentProcessedBlock s = Ret pb s).
  { unfold in_db, currentProcessedBlock, currentBlockID, blockHeight, getPath, getBlockMap, gets,
      mbind, M_bind. rewrite Hpath. cbn. rewrite Hpb. by destruct s. }
  unfold mbind, M_bind. unfold in_db at 1. cbn [blockHeight gets]. rewrite with_db_eta, Hfork.
  cbn [mret M_ret]. rewrite Hcur. unfold in_db. by rewrite Hrun.
Qed.

Lemma revert_loop_total sigma n hp bid : below_forks n -> forall fuel s,
  chain_ok r sigma n (cs_db s) -> db_BlockPath (cs_db s) !! hp = Some bid ->
  db_BlockHeight (cs_db s) - hp < Z.of_nat fuel ->
  exists l d', revert_loop chk fuel bid s = Ret l (with_db d' s) /\ chain_ok r sigma n d' /\
    db_BlockHeight d' = hp /\ db_BlockPath d' !! hp = Some bid.
Proof.
  intros Hn. induction fuel as [|fuel IH]; intros s Hc Hpath Hf;
    destruct (chain_tip _ _ _ _ Hc) as (tip & Htip & Hptip & Hh & _ & _ & Hrange & Hdom);
    (assert (Hle : 0 <= hp <= db_BlockHeight (cs_db s)) by (apply Hdom; by exists bid)); [lia|].
  cbn [revert_loop].
  assert (Hcur : in_db currentBlockID s = Ret (Block_ID (pb_Block tip)) s).
  { unfold in_db, currentBlockID, blockHeight, getPath, gets, mbind, M_bind. rewrite Htip. cbn.
    by rewrite with_db_eta. }
  unfold mbind, M_bind. rewrite Hcur. case_bool_decide as Hb.
  - exists [], (cs_db s). rewrite with_db_eta. split_and!; try done.
    destruct (chain_path_same _ _ _ _ _ _ Hc Hpath) as (pb & Hpb & Hhp & _ & _). congruence.
  - assert (Hlt : hp < db_BlockHeight (cs_db s)).
    { destruct (decide (hp = db_BlockHeight (cs_db s))) as [->|]; [congruence|lia]. }
    destruct (revert_one_total sigma n s Hn Hc ltac:(lia)) as (pb & d1 & -> & Hc1 & M1 & Q1 & P1).
    destruct (IH (with_db d1 s)) as (l & d' & -> & Hrest); cbn [cs_db with_db]; [done| |lia|].
    + by rewrite P1, lookup_delete_ne by lia.
    + by exists (pb :: l), d'.
Qed.

(** C12. The loops of a reorganisation end.  Let a consensus set have accepted
    blocks, and let [pb] be a block of its tree.  In a release build the search
    for the current path returns the blocks from the common parent up to [pb],
    without changing anything, and rewinding to the common parent returns with
    that parent as the current block. *)
Theorem fork_loops_terminate n s pb :
  below_forks n -> reachable r n s -> in_tree (db_BlockMap (cs_db s)) pb ->
  exists parent rest reverted d',
    backtrackToCurrentPath pb (cs_db s) = Ret (parent :: rest) (cs_db s) /\
    trail (db_BlockMap (cs_db s)) (db_BlockPath (cs_db s)) pb (parent :: rest) /\
    revertToBlock chk parent s = Ret reverted (with_db d' s) /\
    db_BlockHeight d' = pb_Height parent /\
    db_BlockPath d' !! db_BlockHeight d' = Some (block_id parent).
Proof.
  intros Hn Hreach Hin. destruct (reachable_cs_ok r n s Hr Hn Hreach) as [sigma Hc].
  pose proof (nd_height _ _ _ _ _ _ (co_tree _ _ _ _ Hc _ _ Hin)) as Hh.
  destruct (backtrack_loop_total sigma n _ Hc (S (Z.to_nat (pb_Height pb))) pb [] Hin)
    as (l & Hrun & Ht); [lia|].
  destruct (trail_shape _ _ _ _ _ _ Hc Ht) as (parent & rest & -> & Hat & _).
  rewrite app_nil_r in Hrun.
  destruct (revert_loop_total sigma n (pb_Height parent) (block_id parent) Hn
    (S (S (Z.to_nat (db_BlockHeight (cs_db s))))) s Hc Hat) as (rev & d' & Hrev & _ & Hd' & Hp').
  { destruct (chain_tip _ _ _ _ Hc) as (_ & _ & _ & _ & _ & _ & ? & Hdom).
    assert (0 <= pb_Height parent <= db_BlockHeight (cs_db s)) by (apply Hdom; by eexists). lia. }
  exists parent, rest, rev, d'. split_and!; [exact Hrun|done| |done|by rewrite Hd'].
  exact Hrev.
Qed.

End termination.
