(* ===== verification/ChangeLog.v ===== *)
(** * The change log holds the published changes

    The nodes of the change log form the list of the genesis entry and all
    published entries, each pointing to the next one, provided that the hash
    does not collide on the entries; the entries themselves are distinct,
    because each leads to a chain with more work than all before. *)

From S2P Require Import Prelude Bytes Interfaces Currency Types Params Target Encoding Transactions.
From S2P Require Import Subsidy ConsensusDB ProcessedBlock BlockValidation Fork Accept.
From S2P Require Import ConsensusSubscribe Agree Chain ChainFork ChainAccept ChainState.

Open Scope Z_scope.

Section log.
Context {P : Params} {C : Crypto} {E : SiaEncoding} (r : release).
#[local] Hint Extern 0 Build => exact (debug_build r) : typeclass_instances.

(** The ID of the entry at a position, the zero ID after the end. *)
Definition entry_id (l : list changeEntry) (i : nat) : Hash :=
  from_option changeEntry_ID zero_hash (l !! i).

(** The hash tells the entries apart, and from no entry. *)
Definition ids_distinct (l : list changeEntry) : Prop :=
  (forall ce ce', ce ∈ l -> ce' ∈ l -> changeEntry_ID ce = changeEntry_ID ce' -> ce = ce') /\
  forall ce, ce ∈ l -> changeEntry_ID ce <> zero_hash /\ changeEntry_ID ce <> ConsensusChangeRecent.

Record logs (l : list changeEntry) (cl : changeLog) : Prop := mkLogs {
  lg_node i ce : l !! i = Some ce ->
    cl_nodes cl !! changeEntry_ID ce = Some (mkChangeNode ce (entry_id l (S i)));
  lg_zero : cl_nodes cl !! zero_hash = None;
  lg_tail : cl_tail cl = changeEntry_ID <$> last l
}.

Lemma ids_distinct_subseteq l l' : l ⊆ l' -> ids_distinct l' -> ids_distinct l.
Proof. intros Hl [H1 H2]. split; intros; auto. Qed.

Lemma createChangeLog_logs : ids_distinct [genesisEntry] -> logs [genesisEntry] createChangeLog.
Proof.
  intros [_ Hz]. destruct (Hz genesisEntry ltac:(left)) as [Hz' _]. split; cbn.
  - intros [|i] ce; [|done]. intros [= <-]. by rewrite lookup_singleton_eq.
  - by rewrite lookup_singleton_ne.
  - done.
Qed.

Lemma append_log_logs l cl ce :
  l <> [] -> NoDup (l ++ [ce]) -> ids_distinct (l ++ [ce]) -> logs l cl ->
  exists cl', append_log cl ce = Some cl' /\ logs (l ++ [ce]) cl'.
Proof.
  intros Hne Hnd [Hinj Hz] [Hn Hzero Ht].
  assert (Hid : forall ce', ce' ∈ l ++ [ce] -> changeEntry_ID ce' <> zero_hash) by (intros; by apply Hz).
  destruct (last l) as [tl|] eqn:Hlast; [|by apply last_None in Hlast].
  rewrite last_lookup in Hlast. pose proof (lookup_lt_Some _ _ _ Hlast) as Hlen.
  assert (Hnew : forall i ce', l !! i = Some ce' -> changeEntry_ID ce' <> changeEntry_ID ce).
  { intros i ce' Hi Heq. apply Hinj in Heq as ->.
    - apply NoDup_app in Hnd as (_ & Hnd & _). apply (Hnd ce); [by eapply list_elem_of_lookup_2|left].
    - apply elem_of_app. left. by eapply list_elem_of_lookup_2.
    - apply elem_of_app. right. left. }
  unfold append_log. rewrite Ht.
  change (default zero_hash (changeEntry_ID <$> Some tl)) with (changeEntry_ID tl). cbv zeta.
  rewrite bool_decide_false by (apply Hid, elem_of_app; left; by eapply list_elem_of_lookup_2).
  rewrite lookup_insert_ne by (intros Heq; by eapply Hnew). rewrite (Hn _ _ Hlast).
  eexists. split; [done|]. split.
  - intros i ce' Hi. unfold entry_id. cbn [cl_nodes cn_Entry].
    apply lookup_app_Some in Hi as [Hi|[Hi Hi']].
    + pose proof (lookup_lt_Some _ _ _ Hi).
      destruct (decide (i = pred (length l))) as [->|Hne'].
      * assert (ce' = tl) as -> by congruence. rewrite lookup_insert_eq.
        rewrite lookup_app_r by lia. by replace (S (pred (length l)) - length l)%nat with 0%nat by lia.
      * rewrite lookup_insert_ne.
        2: { intros Heq. apply Hinj in Heq; [|apply elem_of_app; left; by eapply list_elem_of_lookup_2..].
             subst ce'. apply NoDup_app in Hnd as (Hnd & _). apply Hne'. by eapply NoDup_lookup. }
        rewrite lookup_insert_ne by (intros Heq; by eapply Hnew).
        rewrite (Hn _ _ Hi), lookup_app_l by lia. done.
    + apply list_lookup_singleton_Some in Hi' as [Hi0 <-].
      rewrite lookup_insert_ne by (by eapply Hnew). rewrite lookup_insert_eq.
      rewrite lookup_ge_None_2; [done|]. rewrite length_app. cbn. lia.
  - cbn [cl_nodes]. rewrite !lookup_insert_ne; [done|..]; apply Hid, elem_of_app;
      [right; left|left; by eapply list_elem_of_lookup_2].
  - by rewrite last_snoc.
Qed.

Lemma append_logs_logs l2 : forall l1 cl cl',
  l1 <> [] -> NoDup (l1 ++ l2) -> ids_distinct (l1 ++ l2) -> logs l1 cl ->
  append_logs cl l2 = Some cl' -> logs (l1 ++ l2) cl'.
Proof.
  induction l2 as [|ce l2 IH]; intros l1 cl cl' Hne Hnd Hid Hl.
  { rewrite app_nil_r. by injection 1 as <-. }
  rewrite cons_middle, app_assoc in *. intros Happ.
  destruct (append_log_logs l1 cl ce Hne) as (cl1 & H1 & Hl1); [..|done|].
  - by apply NoDup_app in Hnd as [? _].
  - eapply ids_distinct_subseteq; [|done]. intros x Hx. apply elem_of_app. by left.
  - apply (IH (l1 ++ [ce]) cl1); try done; [by destruct l1|].
    rewrite <- Happ. symmetry. change (ce :: l2) with ([ce] ++ l2).
    rewrite (append_logs_app _ _ _ cl1); [done|]. unfold append_logs. cbn. by rewrite H1.
Qed.

(** ** The entries are distinct *)

(** The depth of the block that a change ends at. *)
Definition entry_depth (t : tree) (ce : changeEntry) : option Target :=
  last (ce_AppliedBlocks ce) ≫= depth_of t.

Lemma follow_last ce lp lp' :
  follow ce lp = Some lp' -> ce_AppliedBlocks ce <> [] -> last lp' = last (ce_AppliedBlocks ce).
Proof.
  unfold follow. intros (kept & _ & [= <-])%bind_Some Hne. rewrite last_app.
  destruct (last (ce_AppliedBlocks ce)) eqn:Hl; [done|]. by apply last_None in Hl.
Qed.

Lemma trace_deeper t l : forall lp x, change_trace t l lp -> last lp ≫= depth_of t = Some x ->
  forall ce, ce ∈ l -> exists y, entry_depth t ce = Some y /\ Target.Int y < Target.Int x.
Proof.
  induction l as [|ce l IH]; intros lp x [_ Hl] Hx ce' Hin; [by apply elem_of_nil in Hin|].
  destruct Hl as (Hne & _ & lp' & Hf & (x1 & x2 & H1 & H2 & Hlt) & Htr).
  assert (x1 = x) as -> by congruence. apply elem_of_cons in Hin as [->|Hin].
  - exists x2. unfold entry_depth. by rewrite <- (follow_last _ _ _ Hf Hne).
  - destruct (IH lp' x2 Htr H2 ce' Hin) as (y & Hy & ?). exists y. split; [done|lia].
Qed.

Lemma trace_NoDup t l : forall lp, change_trace t l lp -> NoDup l.
Proof.
  induction l as [|ce l IH]; intros lp [_ Hl]; [constructor|].
  destruct Hl as (Hne & _ & lp' & Hf & (x1 & x2 & _ & H2 & _) & Htr). constructor; [|by eapply IH].
  intros Hin. destruct (trace_deeper _ _ _ _ Htr H2 _ Hin) as (y & Hy & Hlt).
  unfold entry_depth in Hy. rewrite <- (follow_last _ _ _ Hf Hne), H2 in Hy. injection Hy as ->. lia.
Qed.

Lemma genesisEntry_not_later t l : change_trace t l [GenesisID] -> genesisEntry ∉ l.
Proof.
  intros Htr Hin. destruct l as [|ce l]; [by apply elem_of_nil in Hin|].
  pose proof Htr as [_ (_ & _ & _ & _ & (x & _ & Hx & _) & _)].
  destruct (trace_deeper _ _ _ _ Htr Hx _ Hin) as (y & Hy & Hlt).
  change (entry_depth t genesisEntry) with (last [GenesisID] ≫= depth_of t) in Hy.
  rewrite Hx in Hy. injection Hy as ->. lia.
Qed.

(** All changes of a consensus set, that of the genesis block first. *)
Definition all_changes (s : ConsensusSet) : list changeEntry := genesisEntry :: cs_published s.

Lemma reachable_log n s :
  r <> Testing -> below_forks n -> reachable r n s -> ids_distinct (all_changes s) ->
  logs (all_changes s) (cs_changeLog s).
Proof.
  intros Hr Hn Hreach Hid.
  destruct (reachable_published r n s Hr Hn Hreach) as (lp & _ & _ & Htr & Hlog).
  apply (append_logs_logs (cs_published s) [genesisEntry] createChangeLog); try done.
  - constructor; [by eapply genesisEntry_not_later|by eapply trace_NoDup].
  - apply createChangeLog_logs. eapply ids_distinct_subseteq; [|done].
    intros x ->%list_elem_of_singleton. left.
Qed.

End log.

(** * What a consensus change tells

    [computeConsensusChange] on a change that leads from one path of the tree
    to another: it does not fail, and the change holds the blocks, their diffs
    in the order in which they happened, and the heights before and after. *)

(** The blocks with the given IDs. *)
Definition blocks_at (t : tree) (ids : list BlockID) (pbs : list processedBlock) : Prop :=
  Forall2 (fun bid pb => t !! bid = Some pb) ids pbs.

Definition no_change_diffs : ConsensusChangeDiffs := mkConsensusChangeDiffs [] [] [] [] [].
Definition concat_diffs (l : list ConsensusChangeDiffs) : ConsensusChangeDiffs :=
  foldl (fun cd diffs => AppendDiffs diffs cd) no_change_diffs l.

Definition reverted_diffs (pb : processedBlock) := computeConsensusChangeDiffs pb false.
Definition applied_diffs (pb : processedBlock) := computeConsensusChangeDiffs pb true.

(** A change with these blocks reverted and these applied. *)
Record describes (rpbs apbs : list processedBlock) (cc : ConsensusChange) : Prop := mkDescribes {
  ds_reverted : cc_RevertedBlocks cc = pb_Block <$> rpbs;
  ds_applied : cc_AppliedBlocks cc = pb_Block <$> apbs;
  ds_reverted_diffs : cc_RevertedDiffs cc = reverted_diffs <$> rpbs;
  ds_applied_diffs : cc_AppliedDiffs cc = applied_diffs <$> apbs;
  ds_diffs : cc_Diffs cc = concat_diffs (cc_RevertedDiffs cc ++ cc_AppliedDiffs cc)
}.

(** The two loops. *)
Definition reverting (pbs : list processedBlock) (cc : ConsensusChange) : ConsensusChange :=
  foldl (fun cc pb => add_reverted (pb_Block pb) (pb_Height pb) (reverted_diffs pb) cc) cc pbs.
Definition applying (pbs : list processedBlock) (cc : ConsensusChange) : ConsensusChange :=
  foldl (fun cc pb => add_applied (pb_Block pb) (applied_diffs pb) cc) cc pbs.

Lemma concat_diffs_app l l' cd :
  foldl (fun cd diffs => AppendDiffs diffs cd) (concat_diffs l) l' = cd -> concat_diffs (l ++ l') = cd.
Proof. unfold concat_diffs. by rewrite foldl_app. Qed.

Lemma reverting_fields pbs cc :
  let cc' := reverting pbs cc in
  cc_ID cc' = cc_ID cc /\ cc_RevertedBlocks cc' = cc_RevertedBlocks cc ++ (pb_Block <$> pbs) /\
  cc_AppliedBlocks cc' = cc_AppliedBlocks cc /\
  cc_RevertedDiffs cc' = cc_RevertedDiffs cc ++ (reverted_diffs <$> pbs) /\
  cc_AppliedDiffs cc' = cc_AppliedDiffs cc /\
  cc_Diffs cc' = foldl (fun cd diffs => AppendDiffs diffs cd) (cc_Diffs cc) (reverted_diffs <$> pbs) /\
  cc_OldHeight cc' = foldl Z.max (cc_OldHeight cc) (pb_Height <$> pbs).
Proof.
  revert cc. induction pbs as [|pb pbs IH]; intros cc; [cbn; by rewrite !app_nil_r|].
  cbv zeta. change (reverting (pb :: pbs) cc) with (reverting pbs (add_reverted (pb_Block pb) (pb_Height pb) (reverted_diffs pb) cc)).
  rewrite !fmap_cons. cbn [foldl].
  destruct (IH (add_reverted (pb_Block pb) (pb_Height pb) (reverted_diffs pb) cc))
    as (-> & -> & -> & -> & -> & -> & ->). cbn [add_reverted cc_ID
    cc_RevertedBlocks cc_AppliedBlocks cc_RevertedDiffs cc_AppliedDiffs cc_Diffs cc_OldHeight].
  rewrite <- !app_assoc. split_and!; try done. f_equal. destruct (Z.ltb_spec (cc_OldHeight cc) (pb_Height pb)); lia.
Qed.

Lemma applying_fields pbs cc :
  let cc' := applying pbs cc in
  cc_ID cc' = cc_ID cc /\ cc_RevertedBlocks cc' = cc_RevertedBlocks cc /\
  cc_AppliedBlocks cc' = cc_AppliedBlocks cc ++ (pb_Block <$> pbs) /\
  cc_RevertedDiffs cc' = cc_RevertedDiffs cc /\
  cc_AppliedDiffs cc' = cc_AppliedDiffs cc ++ (applied_diffs <$> pbs) /\
  cc_Diffs cc' = foldl (fun cd diffs => AppendDiffs diffs cd) (cc_Diffs cc) (applied_diffs <$> pbs) /\
  cc_OldHeight cc' = cc_OldHeight cc.
Proof.
  revert cc. induction pbs as [|pb pbs IH]; intros cc; [cbn; by rewrite !app_nil_r|].
  cbv zeta. change (applying (pb :: pbs) cc) with (applying pbs (add_applied (pb_Block pb) (applied_diffs pb) cc)).
  rewrite !fmap_cons. cbn [foldl].
  destruct (IH (add_applied (pb_Block pb) (applied_diffs pb) cc))
    as (-> & -> & -> & -> & -> & -> & ->).
  cbn [add_applied cc_ID cc_RevertedBlocks cc_AppliedBlocks cc_RevertedDiffs cc_AppliedDiffs cc_Diffs
    cc_OldHeight]. by rewrite <- !app_assoc.
Qed.

Section compute.
Context {B : Build} {P : Params} {C : Crypto} {E : SiaEncoding}.

Lemma get_change_block_run d bid pb :
  db_BlockMap d !! bid = Some pb -> get_change_block bid d = Ret pb d.
Proof. intros Hpb. unfold get_change_block, getBlockMap, gets, mbind, M_bind. by rewrite Hpb. Qed.

Lemma currentBlockID_run d cur :
  db_BlockPath d !! db_BlockHeight d = Some cur -> currentBlockID d = Ret cur d.
Proof.
  intros Hcur. unfold currentBlockID, blockHeight, getPath, gets, mbind, M_bind. by rewrite Hcur.
Qed.

Lemma reverting_run d ids pbs i cc :
  blocks_at (db_BlockMap d) ids pbs ->
  for_fold (fun _ id cc =>
      revertedBlock ← get_change_block id;
      mret (add_reverted (pb_Block revertedBlock) (pb_Height revertedBlock)
              (computeConsensusChangeDiffs revertedBlock false) cc)) i ids cc d
  = Ret (reverting pbs cc) d.
Proof.
  intros Hb. revert i cc. induction Hb as [|bid pb ids pbs Hpb _ IH]; intros i cc; [done|].
  rewrite for_fold_cons. unfold mbind, M_bind. rewrite (get_change_block_run _ _ _ Hpb).
  unfold mret, M_ret. apply IH.
Qed.

Lemma applying_run d ids pbs i cc :
  blocks_at (db_BlockMap d) ids pbs ->
  for_fold (fun _ id cc =>
      appliedBlock ← get_change_block id;
      mret (add_applied (pb_Block appliedBlock) (computeConsensusChangeDiffs appliedBlock true) cc))
    i ids cc d
  = Ret (applying pbs cc) d.
Proof.
  intros Hb. revert i cc. induction Hb as [|bid pb ids pbs Hpb _ IH]; intros i cc; [done|].
  rewrite for_fold_cons. unfold mbind, M_bind. rewrite (get_change_block_run _ _ _ Hpb).
  unfold mret, M_ret. apply IH.
Qed.

(** ** The window of timestamps *)

Lemma chained_window t lp n : forall i bid pb previous,
  chained t lp -> lp !! i = Some bid -> t !! bid = Some pb ->
  exists times, window_times t n previous (b_ParentID (pb_Block pb)) = Some times /\ length times = n.
Proof.
  induction n as [|n IH]; intros i bid pb previous Hc Hi Hpb; cbn [window_times]; [by exists []|].
  destruct i as [|i].
  - assert (bid = GenesisID) as -> by (rewrite (ch_genesis _ _ Hc) in Hi; congruence).
    rewrite (ch_root _ _ Hc _ Hpb). cbn [b_ParentID GenesisBlock]. rewrite bool_decide_true by done.
    destruct (IH 0%nat GenesisID pb previous Hc Hi Hpb) as (times & Ht & Hlen).
    rewrite (ch_root _ _ Hc _ Hpb) in Ht. cbn [b_ParentID GenesisBlock] in Ht. rewrite Ht.
    exists (previous :: times). by rewrite <- Hlen.
  - destruct (lookup_lt_is_Some_2 lp i) as [pid Hpid]; [apply lookup_lt_Some in Hi; lia|].
    destruct (ch_block _ _ Hc _ _ Hi) as (pb' & Hpb' & _ & _ & _ & Hpar).
    assert (pb' = pb) as -> by congruence. rewrite (Hpar i pid eq_refl Hpid).
    destruct (ch_block _ _ Hc _ _ Hpid) as (ppb & Hppb & _).
    case_bool_decide as Hz.
    + destruct (IH (S i) bid pb previous Hc Hi Hpb) as (times & Ht & Hlen).
      rewrite (Hpar i pid eq_refl Hpid) in Ht. rewrite Ht. exists (previous :: times). by rewrite <- Hlen.
    + rewrite Hppb. cbn [mbind option_bind].
      destruct (IH i pid ppb (b_Timestamp (pb_Block ppb)) Hc Hpid Hppb) as (times & -> & Hlen).
      eexists (_ :: times). split; [done|]. by rewrite <- Hlen.
Qed.

Lemma chained_minimum t lp i bid pb :
  chained t lp -> lp !! i = Some bid -> t !! bid = Some pb -> is_Some (minimumValidChildTimestamp t pb).
Proof.
  intros Hc Hi Hpb. unfold minimumValidChildTimestamp.
  change (Z.to_nat (MedianTimestampWindow - 1)) with 10%nat.
  destruct (chained_window t lp 10 i bid pb (b_Timestamp (pb_Block pb)) Hc Hi Hpb) as (times & -> & Hlen).
  cbn [mbind option_bind]. apply lookup_lt_is_Some_2.
  rewrite merge_sort_Permutation. cbn [length]. rewrite Hlen. cbn. lia.
Qed.

(** ** The whole function *)

Lemma chained_blocks_at t lp ids : chained t lp -> ids ⊆ lp -> exists pbs, blocks_at t ids pbs.
Proof.
  intros Hc. induction ids as [|bid ids IH]; intros Hin; [by exists []; constructor|].
  destruct IH as [pbs Hpbs]; [intros x Hx; apply Hin; by right|].
  destruct (proj1 (list_elem_of_lookup lp bid)) as [i Hi]; [apply Hin; left|].
  destruct (ch_block _ _ Hc _ _ Hi) as (pb & Hpb & _). exists (pb :: pbs). by constructor.
Qed.

Lemma unwind_reverted reverted lp lp' : unwind reverted lp = Some lp' -> lp = lp' ++ reverse reverted.
Proof.
  revert lp. induction reverted as [|bid l IH]; intros lp; cbn [unwind].
  { intros [= ->]. by rewrite reverse_nil, app_nil_r. }
  case_bool_decide as Hl; [|done]. intros Hu%IH. rewrite reverse_cons, app_assoc, <- Hu.
  rewrite last_lookup in Hl. symmetry. rewrite <- (take_drop (pred (length lp)) lp) at 3. f_equal.
  symmetry. rewrite (drop_S _ _ _ Hl), drop_ge; [done|]. destruct lp; cbn; lia.
Qed.

Lemma follow_split ce lp lp' : follow ce lp = Some lp' ->
  exists kept, lp = kept ++ reverse (ce_RevertedBlocks ce) /\ lp' = kept ++ ce_AppliedBlocks ce.
Proof.
  unfold follow. intros (kept & Hu & [= <-])%bind_Some. exists kept.
  split; [by apply unwind_reverted|done].
Qed.

Lemma foldl_max_spec a m l :
  a <= m -> m ∈ l -> (forall x, x ∈ l -> x <= m) -> foldl Z.max a l = m.
Proof.
  revert a. induction l as [|y l IH]; intros a Ha Hm Hall; [by apply elem_of_nil in Hm|]. cbn [foldl].
  assert (y <= m) by (apply Hall; left). apply elem_of_cons in Hm as [<-|Hm].
  - rewrite Z.max_r by done. clear IH Ha.
    assert (Hl : forall x, x ∈ l -> x <= m) by (intros; apply Hall; by right). clear Hall.
    induction l as [|z l IH]; [done|]. cbn [foldl]. rewrite Z.max_l by (apply Hl; left).
    apply IH. intros x Hx. apply Hl. by right.
  - apply IH; [lia|done|]. intros x Hx. apply Hall. by right.
Qed.

Lemma chained_height t lp i bid pb :
  chained t lp -> lp !! i = Some bid -> t !! bid = Some pb -> pb_Height pb = Z.of_nat i.
Proof. intros Hc Hi Hpb. destruct (ch_block _ _ Hc _ _ Hi) as (pb' & ? & _ & _ & ? & _). congruence. Qed.

(** The highest block reverted is the last of the path. *)
Lemma reverted_heights t lp kept reverted pbs :
  chained t lp -> lp = kept ++ reverse reverted -> blocks_at t reverted pbs -> reverted <> [] ->
  foldl Z.max 0 (pb_Height <$> pbs) = Z.of_nat (length lp) - 1.
Proof.
  intros Hc Hlp Hb Hne. apply foldl_max_spec.
  - apply ch_genesis, lookup_lt_Some in Hc. lia.
  - destruct Hb as [|bid pb ids pbs Hpb _]; [done|]. cbn [fmap list_fmap]. apply elem_of_cons. left.
    rewrite (chained_height t lp (pred (length lp)) bid pb Hc); [|..|done].
    + apply ch_genesis, lookup_lt_Some in Hc. lia.
    + rewrite <- last_lookup, Hlp, reverse_cons, app_assoc. by rewrite last_snoc.
  - intros x (pb & -> & [i Hi]%list_elem_of_lookup)%list_elem_of_fmap.
    destruct (Forall2_lookup_r _ _ _ _ _ Hb Hi) as (bid & Hbid & Hpb).
    destruct (proj1 (list_elem_of_lookup lp bid)) as [j Hj].
    { rewrite Hlp. apply elem_of_app. right. apply elem_of_reverse. by eapply list_elem_of_lookup_2. }
    rewrite (chained_height t lp j bid pb Hc Hj Hpb). apply lookup_lt_Some in Hj. lia.
Qed.

(** The heights a change reports; before the genesis block the height is that
    of the new database, [-1] as an unsigned number. *)
Definition reports_heights (lp lp' : list BlockID) (cc : ConsensusChange) : Prop :=
  cc_OldHeight cc = u64 (Z.of_nat (length lp) - 1) /\ cc_NewHeight cc = Z.of_nat (length lp') - 1.

Lemma old_height_run d lp lp' kept reverted rpbs first applied cc :
  let t := db_BlockMap d in
  lp = [] \/ chained t lp /\ (length reverted < length lp)%nat -> chained t lp' ->
  lp = kept ++ reverse reverted -> lp' = kept ++ first :: applied -> blocks_at t reverted rpbs ->
  cc_OldHeight cc = foldl Z.max 0 (pb_Height <$> rpbs) ->
  exists old, (if cc_OldHeight cc =? 0 then
       match t !! first with
       | None => panic "nil processed block"
       | Some firstAppliedBlock => mret (u64 (pb_Height firstAppliedBlock - 1))
       end else mret (cc_OldHeight cc)) d = Ret old d /\ old = u64 (Z.of_nat (length lp) - 1).
Proof.
  intros t Hlp Hc' Hk Hk' Hr Hold. destruct (decide (reverted = [])) as [->|Hne].
  - inversion Hr; subst rpbs. rewrite Hold. cbn [fmap list_fmap foldl Z.eqb].
    rewrite reverse_nil, app_nil_r in Hk. subst kept.
    assert (Hi : lp' !! length lp = Some first) by (by rewrite Hk', list_lookup_middle).
    destruct (ch_block _ _ Hc' _ _ Hi) as (pb & Hpb & _ & _ & Hh & _). rewrite Hpb, Hh. by eexists.
  - destruct Hlp as [->|[Hc Hlen]].
    { symmetry in Hk. apply app_eq_nil in Hk as [_ Hk]. apply (f_equal length) in Hk.
      rewrite length_reverse in Hk. by destruct reverted. }
    rewrite Hold, (reverted_heights t lp kept reverted rpbs Hc Hk Hr Hne).
    assert (1 <= length reverted)%nat by (destruct reverted; [done|cbn; lia]).
    destruct (Z.eqb_spec (Z.of_nat (length lp) - 1) 0); [lia|]. eexists. split; [done|].
    rewrite u64_small; [done|]. pose proof (ch_length _ _ Hc). unfold is_u64. lia.
Qed.

(** What a child of the last block has to meet. *)
Definition reports_child (t : tree) (lp' : list BlockID) (cc : ConsensusChange) : Prop := exists tip pb,
  last lp' = Some tip /\ t !! tip = Some pb /\ cc_ChildTarget cc = pb_ChildTarget pb /\
  minimumValidChildTimestamp t pb = Some (cc_MinimumValidChildTimestamp cc).

Lemma computeConsensusChange_run synced d ce lp lp' :
  let t := db_BlockMap d in
  lp = [] \/ chained t lp /\ (length (ce_RevertedBlocks ce) < length lp)%nat ->
  chained t lp' -> follow ce lp = Some lp' -> ce_AppliedBlocks ce <> [] ->
  is_Some (db_BlockPath d !! db_BlockHeight d) ->
  exists cc rpbs apbs, computeConsensusChange synced ce d = Ret cc d /\
    cc_ID cc = changeEntry_ID ce /\
    blocks_at t (ce_RevertedBlocks ce) rpbs /\ blocks_at t (ce_AppliedBlocks ce) apbs /\
    describes rpbs apbs cc /\ reports_heights lp lp' cc /\ reports_child t lp' cc.
Proof.
  intros t Hlp Hc' Hf Hne [cur Hcur]. destruct (follow_split _ _ _ Hf) as (kept & Hk & Hk').
  assert (exists rpbs, blocks_at t (ce_RevertedBlocks ce) rpbs) as [rpbs Hr].
  { destruct Hlp as [->|[Hc _]].
    - symmetry in Hk. apply app_eq_nil in Hk as [_ Hk]. apply (f_equal reverse) in Hk.
      rewrite reverse_involutive in Hk. rewrite Hk. by exists []; constructor.
    - apply (chained_blocks_at t lp); [done|]. intros x Hx. rewrite Hk. apply elem_of_app. right.
      by apply elem_of_reverse. }
  destruct (chained_blocks_at t lp' (ce_AppliedBlocks ce) Hc') as [apbs Ha].
  { intros x Hx. rewrite Hk'. apply elem_of_app. by right. }
  destruct (ce_AppliedBlocks ce) as [|first applied] eqn:Happ; [done|].
  destruct (last (first :: applied)) as [recent|] eqn:Hrecent; [|by apply last_None in Hrecent].
  assert (Hi : lp' !! pred (length lp') = Some recent).
  { rewrite <- last_lookup, Hk', last_app, Hrecent. done. }
  destruct (ch_block _ _ Hc' _ _ Hi) as (pb & Hpb & _ & _ & Hh & _).
  destruct (chained_minimum t lp' _ _ _ Hc' Hi Hpb) as [ts Hts].
  set (cc0 := applying apbs (reverting rpbs (new_change (changeEntry_ID ce)))).
  pose proof (reverting_fields rpbs (new_change (changeEntry_ID ce))) as Fr.
  pose proof (applying_fields apbs (reverting rpbs (new_change (changeEntry_ID ce)))) as Fa. fold cc0 in Fa.
  cbv zeta in Fr, Fa. destruct Fr as (R1 & R2 & R3 & R4 & R5 & R6 & R7), Fa as (A1 & A2 & A3 & A4 & A5 & A6 & A7).
  rewrite R1 in A1. rewrite R2 in A2. rewrite R3 in A3. rewrite R4 in A4. rewrite R5 in A5.
  rewrite R6 in A6. rewrite R7 in A7. cbn in A1, A2, A3, A4, A5, A6, A7.
  destruct (old_height_run d lp lp' kept (ce_RevertedBlocks ce) rpbs first applied cc0)
    as (old & Hold & Hold'); try done.
  exists (set_tip (pb_ChildTarget pb) ts (synced && bool_decide (recent = cur)) old (pb_Height pb) cc0).
  exists rpbs, apbs. split_and!; try done.
  - unfold computeConsensusChange, mbind, M_bind. rewrite Happ.
    rewrite (reverting_run d _ _ _ _ Hr), (applying_run d _ _ _ _ Ha). fold cc0. cbn [head].
    rewrite Hrecent. unfold get. fold t. rewrite Hpb, Hts.
    cbv zeta in Hold. fold t in Hold. unfold or_panic, mret, M_ret in *. rewrite (currentBlockID_run d cur Hcur). by rewrite Hold.
  - by split; cbn; rewrite ?A2, ?A3, ?A4, ?A5, ?A6, ?foldl_app.
  - split; cbn; [done|]. rewrite Hh. apply lookup_lt_Some in Hi. lia.
  - exists recent, pb. by rewrite last_lookup.
Qed.

End compute.
