(* ===== verification/Subscription.v ===== *)
(** * Subscribing while blocks arrive

    A module that subscribes to the consensus set reads the change log in
    batches and gives the lock back between them, so that other threads can
    append changes in the meantime.  It still receives every change after the
    one it starts from once and in order, up to the one in whose presence it is
    added to the subscribers, and it is added as soon as no more blocks arrive. *)

From S2P Require Import Prelude Bytes Interfaces Currency Types Params Target Encoding Transactions.
From S2P Require Import Subsidy ConsensusDB ProcessedBlock BlockValidation Fork Accept.
From S2P Require Import ConsensusSubscribe Agree Chain ChainFork ChainAccept ChainState ChangeLog.

Open Scope Z_scope.

Section steps.
Context {P : Params} {C : Crypto} {E : SiaEncoding} (r : release).
#[local] Hint Extern 0 Build => exact (debug_build r) : typeclass_instances.

(** Calls that accept blocks; the numbers count the blocks handed over. *)
Inductive steps (n : Z) (s : ConsensusSet) : Z -> ConsensusSet -> Prop :=
| steps_refl : steps n s n s
| steps_accept n' s' clock blocks extended s'' :
    steps n s n' s' -> Forall admissible blocks ->
    managedAcceptBlocks clock blocks s' = Ret extended s'' ->
    steps n s (n' + Z.of_nat (length blocks)) s''
| steps_reject n' s' clock blocks e s'' :
    steps n s n' s' -> Forall admissible blocks ->
    managedAcceptBlocks clock blocks s' = Err e s'' ->
    steps n s (n' + Z.of_nat (length blocks)) s''.

Lemma steps_reachable n s n' s' : reachable r n s -> steps n s n' s' -> reachable r n' s'.
Proof.
  intros Hr Hs. induction Hs; [done|by eapply reachable_accept|by eapply reachable_reject].
Qed.

Lemma steps_le n s n' s' : steps n s n' s' -> n <= n'.
Proof. induction 1; lia. Qed.

Lemma below_forks_le n m : n <= m -> below_forks m -> below_forks n.
Proof. unfold below_forks. lia. Qed.

Lemma steps_published n s n' s' :
  r <> Testing -> reachable r n s -> steps n s n' s' -> below_forks n' ->
  cs_published s `prefix_of` cs_published s'.
Proof.
  intros Hr Hreach Hs. induction Hs as [|n' s' clock blocks x s'' Hs IH Hadm Hrun|n' s' clock blocks x s'' Hs IH Hadm Hrun];
    intros Hn; [done|..];
    assert (Hn' : below_forks n') by (eapply below_forks_le; [|done]; lia);
    specialize (IH Hn');
    pose proof (managedAcceptBlocks_ok r Hr n' clock blocks s' Hn
      (reachable_cs_ok r _ _ Hr Hn' (steps_reachable _ _ _ _ Hreach Hs)) Hadm) as Hout;
    rewrite Hrun in Hout.
  - destruct Hout as (_ & new & _ & -> & _). etrans; [done|]. by eexists.
  - by destruct Hout as (_ & -> & _).
Qed.

Lemma steps_grows n s n' s' :
  r <> Testing -> reachable r n s -> steps n s n' s' -> below_forks n' ->
  grows (db_BlockMap (cs_db s)) (db_BlockMap (cs_db s')).
Proof.
  intros Hr Hreach Hs. induction Hs as [|n' s' clock blocks x s'' Hs IH Hadm Hrun|n' s' clock blocks x s'' Hs IH Hadm Hrun];
    intros Hn; [apply grows_refl|..];
    assert (Hn' : below_forks n') by (eapply below_forks_le; [|done]; lia);
    pose proof (managedAcceptBlocks_ok r Hr n' clock blocks s' Hn
      (reachable_cs_ok r _ _ Hr Hn' (steps_reachable _ _ _ _ Hreach Hs)) Hadm) as Hout;
    rewrite Hrun in Hout; (eapply grows_trans; [by apply IH|]).
  - destruct Hout as (_ & new & _ & _ & [_ _ Hg _ _] & _). exact Hg.
  - destruct Hout as (_ & _ & _ & [->|[_ [_ _ Hg _ _]]]); [apply grows_refl|exact Hg].
Qed.

(** Every change of the log can be computed. *)
Lemma trace_entry t l2 : forall l1 ce lp,
  change_trace t (l1 ++ ce :: l2) lp ->
  exists lp1 lp2, chained t lp1 /\ chained t lp2 /\ follow ce lp1 = Some lp2 /\
    (length (ce_RevertedBlocks ce) < length lp1)%nat /\ ce_AppliedBlocks ce <> [] /\
    follow_all l1 lp = Some lp1.
Proof.
  induction l1 as [|ce1 l1 IH]; intros ce lp [Hc Hl].
  - destruct Hl as (Hne & Hlen & lp' & Hf & _ & Htr). exists lp, lp'. split_and!; try done. by destruct l2, Htr.
  - destruct Hl as (Hne & Hlen & lp' & Hf & _ & Htr).
    destruct (IH ce lp' Htr) as (lp1 & lp2 & ? & ? & ? & ? & ? & Hall). exists lp1, lp2.
    split_and!; try done. unfold follow_all in *. cbn [foldl mbind option_bind]. by rewrite Hf.
Qed.

Lemma change_computed n s synced ce :
  r <> Testing -> below_forks n -> reachable r n s -> ce ∈ all_changes s ->
  exists cc, computeConsensusChange synced ce (cs_db s) = Ret cc (cs_db s).
Proof.
  intros Hr Hn Hreach Hin.
  destruct (reachable_published r n s Hr Hn Hreach) as (lp & _ & _ & Htr & _).
  destruct (reachable_cs_ok r n s Hr Hn Hreach) as [sigma Hc].
  destruct (chain_tip _ _ _ _ Hc) as (pb & Htip & _).
  assert (Hcur : is_Some (db_BlockPath (cs_db s) !! db_BlockHeight (cs_db s))) by (rewrite Htip; eauto).
  apply elem_of_cons in Hin as [->|(l1 & l2 & Heq)%list_elem_of_split].
  - destruct (computeConsensusChange_run synced (cs_db s) genesisEntry [] [GenesisID])
      as (cc & _ & _ & Hrun & _); try done; [by left| |by exists cc].
    by destruct (cs_published s), Htr.
  - rewrite Heq in Htr. destruct (trace_entry _ _ _ _ _ Htr) as (lp1 & lp2 & ? & ? & ? & ? & ? & _).
    destruct (computeConsensusChange_run synced (cs_db s) ce lp1 lp2)
      as (cc & _ & _ & Hrun & _); try done; [by right|by exists cc].
Qed.
End steps.

Section subscription.
Context {P : Params} {C : Crypto} {E : SiaEncoding} (r : release) (Hr : r <> Testing).
#[local] Hint Extern 0 Build => exact (debug_build r) : typeclass_instances.
Context {Sub T : Type} `{EqDecision Sub}.
Context (process : Sub -> ConsensusChange -> M T ()) (views : nat -> csView Sub).
Context (cancelled stopped : nat -> bool).

(** The view at each lock is reached from the one before. *)
Record schedule (n : nat -> Z) (N : Z) : Prop := mkSchedule {
  sd_first : reachable r (n 0%nat) (v_set (views 0));
  sd_steps k : steps r (n k) (v_set (views k)) (n (S k)) (v_set (views (S k)));
  sd_bound k : n k <= N;
  sd_forks : below_forks N
}.

Abbreviation log k := (all_changes (v_set (views k))).

(** The subscriber never fails. *)
Context (f : ConsensusChange -> T -> T) (subscriber : Sub).
Context (Hprocess : forall cc t, process subscriber cc t = Ret () (f cc t)).
Context (Hcancel : forall j, cancelled j = false) (Hstop : forall j, stopped j = false).

Context (n : nat -> Z) (N : Z) (Hsched : schedule n N).
(** From lock [K] on nothing arrives. *)
Context (K : nat) (Hstable : forall k, (K <= k)%nat -> v_set (views k) = v_set (views K)).
Context (Hids : ids_distinct (log K)).

Lemma view_reachable k : reachable r (n k) (v_set (views k)).
Proof.
  induction k as [|k IH]; [apply Hsched|]. eapply steps_reachable; [done|apply Hsched].
Qed.

Lemma view_below k : below_forks (n k).
Proof. eapply below_forks_le; [apply (sd_bound _ _ Hsched)|apply Hsched]. Qed.

Lemma log_prefix_le k k' : (k <= k')%nat -> log k `prefix_of` log k'.
Proof.
  induction 1 as [|k' _ IH]; [done|]. etrans; [done|]. apply prefix_cons.
  eapply (steps_published r (n k')); [done|apply view_reachable|apply Hsched|apply view_below].
Qed.

Lemma log_prefix_final k : log k `prefix_of` log K.
Proof.
  destruct (decide (k <= K)%nat); [by apply log_prefix_le|].
  unfold all_changes. by rewrite Hstable by lia.
Qed.

Lemma log_distinct k : ids_distinct (log k).
Proof.
  eapply ids_distinct_subseteq; [|exact Hids]. intros x Hx.
  destruct (log_prefix_final k) as [l ->]. apply elem_of_app. by left.
Qed.

Lemma view_logs k : logs (log k) (cs_changeLog (v_set (views k))).
Proof.
  apply (reachable_log r (n k)); [done|apply view_below|apply view_reachable|apply log_distinct].
Qed.

(** ** Sending *)

(** The changes were computed in the views up to a lock whose logs hold them. *)
Definition computed_by (k : nat) (ce : changeEntry) (cc : ConsensusChange) : Prop :=
  exists j d, (j <= k)%nat /\ ce ∈ log j /\
    computeConsensusChange (v_synced (views j)) ce (cs_db (v_set (views j))) = Ret cc d.

Definition after (ccs : list ConsensusChange) (t : T) : T := foldl (fun t cc => f cc t) t ccs.

(** The subscriber has received these entries since [s]. *)
Record sent (l : list changeEntry) (s s' : subscribing T) : Prop := mkSent {
  se_changes : exists ccs, Forall2 (computed_by (pred (sb_locks s'))) l ccs /\
    sb_state s' = after ccs (sb_state s);
  se_locks : (sb_locks s <= sb_locks s')%nat
}.

Lemma computed_by_mono k k' ce cc : (k <= k')%nat -> computed_by k ce cc -> computed_by k' ce cc.
Proof. intros Hk (j & d & Hj & Hrun). exists j, d. split; [lia|done]. Qed.

Lemma sent_nil s s' : sb_state s' = sb_state s -> (sb_locks s <= sb_locks s')%nat -> sent [] s s'.
Proof. intros Hs Hl. split; [|done]. by exists []. Qed.

Lemma sent_app l1 l2 s1 s2 s3 : sent l1 s1 s2 -> sent l2 s2 s3 -> sent (l1 ++ l2) s1 s3.
Proof.
  intros [(c1 & F1 & S1) L1] [(c2 & F2 & S2) L2]. split; [|lia]. exists (c1 ++ c2). split.
  - apply Forall2_app; [|done]. eapply Forall2_impl; [done|]. intros ce cc. apply computed_by_mono. lia.
  - rewrite S2, S1. unfold after. by rewrite foldl_app.
Qed.

Abbreviation batch := (send_batch process cancelled subscriber).

Lemma next_entry_run k i ce (s : subscribing T) :
  log k !! i = Some ce -> next_entry (views k) ce s = Ret (log k !! S i) s.
Proof.
  intros Hi. unfold next_entry, NextEntry. pose proof (view_logs k) as Hl.
  rewrite (lg_node _ _ Hl i ce Hi). cbn [cn_Next]. unfold entry_id, getEntry.
  destruct (log k !! S i) as [ce'|] eqn:Hi'; cbn [from_option].
  - by rewrite (lg_node _ _ Hl (S i) ce' Hi').
  - by rewrite (lg_zero _ _ Hl).
Qed.

Lemma take_drop_S {A} (l : list A) i m x :
  l !! i = Some x -> take (S m) (drop i l) = x :: take m (drop (S i) l).
Proof. intros Hi. by rewrite (drop_S _ _ _ Hi). Qed.

(** One change. *)
Lemma send_one_run k i ce (s : subscribing T) :
  log k !! i = Some ce -> (k < sb_locks s)%nat ->
  exists cc s', sent [ce] s s' /\ sb_locks s' = sb_locks s /\
    computeConsensusChange (v_synced (views k)) ce (cs_db (v_set (views k))) = Ret cc (cs_db (v_set (views k))) /\
    on_state (process subscriber cc) (mkSubscribing (sb_locks s) (S (sb_polls s)) (sb_state s)) = Ret () s'.
Proof.
  intros Hi Hk. destruct (change_computed r (n k) (v_set (views k)) (v_synced (views k)) ce Hr
    (view_below k) (view_reachable k)) as [cc Hcc]; [by eapply list_elem_of_lookup_2|].
  exists cc, (mkSubscribing (sb_locks s) (S (sb_polls s)) (f cc (sb_state s))).
  unfold on_state. cbn [sb_state sb_locks]. rewrite Hprocess. split_and!; try done.
  split; [|done]. exists [cc]. split; [|done]. constructor; [|constructor].
  exists k, (cs_db (v_set (views k))). cbn [sb_locks]. split_and!; [lia|by eapply list_elem_of_lookup_2|done].
Qed.

Lemma send_batch_run k m : forall i ce latest s,
  log k !! i = Some ce -> (k < sb_locks s)%nat ->
  exists s' x, batch (views k) (S m) ce latest s = Ret (changeEntry_ID x, log k !! (i + S m)%nat) s' /\
    last (take (S m) (drop i (log k))) = Some x /\
    sb_locks s' = sb_locks s /\ sent (take (S m) (drop i (log k))) s s'.
Proof.
  induction m as [|m IH]; intros i ce latest s Hi Hk;
    destruct (send_one_run k i ce s Hi Hk) as (cc & s1 & Hs1 & Hl1 & Hcc & Hst);
    rewrite (take_drop_S _ _ _ _ Hi), Nat.add_succ_r;
    cbn [send_batch]; unfold poll, on_view, mbind, M_bind; rewrite Hcancel, Hcc, Hst,
      (next_entry_run k i ce s1 Hi).
  - rewrite Nat.add_0_r. exists s1, ce. by destruct (log k !! S i).
  - destruct (log k !! S i) as [ce'|] eqn:Hi'.
    + destruct (IH (S i) ce' (changeEntry_ID ce) s1 Hi') as (s' & x & Hrun & Hx & Hl & Hs); [lia|].
      exists s', x. cbn [send_batch] in Hrun. unfold poll, on_view, mbind, M_bind in Hrun. rewrite Hrun.
      split_and!; [done| |by rewrite Hl|].
      * rewrite last_cons, Hx. done.
      * change (ce :: ?l) with ([ce] ++ l). by eapply sent_app.
    + apply lookup_ge_None in Hi'. exists s1, ce. rewrite drop_ge, take_nil by done.
      rewrite lookup_ge_None_2 by lia. done.
Qed.

(** The entries a thread still has to send when it has sent [i]. *)
Abbreviation rest i k := (drop i (log k)).

Lemma lookup_prefix_le k k' i ce : (k <= k')%nat -> log k !! i = Some ce -> log k' !! i = Some ce.
Proof. intros Hk Hi. by eapply prefix_lookup_Some, log_prefix_le. Qed.

Lemma log_length_le k k' : (k <= k')%nat -> (length (log k) <= length (log k'))%nat.
Proof. intros Hk. by apply prefix_length, log_prefix_le. Qed.

Lemma log_length_final k : (length (log k) <= length (log K))%nat.
Proof. apply prefix_length, log_prefix_final. Qed.

Lemma sent_locks l s s1 s' : sb_state s1 = sb_state s -> (sb_locks s <= sb_locks s1)%nat ->
  sent l s1 s' -> sent l s s'.
Proof. intros Hs Hl H. change l with ([] ++ l). eapply sent_app; [by apply sent_nil|done]. Qed.

Lemma take_rest k k' i m : (k <= k')%nat -> (i + m <= length (log k))%nat ->
  take m (rest i k) = take m (rest i k').
Proof.
  intros Hk Hi. destruct (log_prefix_le k k' Hk) as [l ->].
  by rewrite drop_app_le, take_app_le by (rewrite ?length_drop; lia).
Qed.

Lemma last_rest (l : list changeEntry) i x m :
  last (take (S m) (drop i l)) = Some x -> l !! (i + S m)%nat = None -> last l = Some x.
Proof.
  intros Hx Hn. apply lookup_ge_None in Hn. rewrite take_ge in Hx by (rewrite length_drop; lia).
  rewrite <- (take_drop i l), last_app, Hx. done.
Qed.

Lemma send_batches_run fuel : forall i ce latest s,
  log (sb_locks s) !! i = Some ce -> (length (log K) < i + fuel)%nat ->
  exists s' k x, send_batches process views cancelled fuel subscriber ce latest s = Ret (changeEntry_ID x) s' /\
    sb_locks s' = S k /\ (sb_locks s <= k)%nat /\ last (log k) = Some x /\ sent (rest i k) s s'.
Proof.
  induction fuel as [|fuel IH]; intros i ce latest s Hi Hfuel.
  { pose proof (lookup_lt_Some _ _ _ Hi). pose proof (log_length_final (sb_locks s)). lia. }
  set (s1 := mkSubscribing (S (sb_locks s)) (sb_polls s) (sb_state s)).
  destruct (send_batch_run (sb_locks s) 99 i ce latest s1 Hi) as (s2 & x & Hrun & Hx & Hl2 & Hs2); [cbn; lia|].
  assert (Hsent : sent (take 100 (rest i (sb_locks s))) s s2)
    by (eapply (sent_locks _ _ s1); [done|cbn; lia|done]).
  cbn [send_batches]. unfold lock, mbind, M_bind. fold s1. rewrite Hrun. cbn [fst snd].
  destruct (log (sb_locks s) !! (i + 100)%nat) as [ce'|] eqn:Hi'.
  - destruct (IH (i + 100)%nat ce' (changeEntry_ID x) s2) as (s' & k & y & Hrun' & Hl & Hk & Hlast & Hs).
    + rewrite Hl2. cbn [sb_locks s1]. by apply (lookup_prefix_le (sb_locks s)); [lia|].
    + lia.
    + exists s', k, y. rewrite Hl2 in Hk. cbn [sb_locks s1] in Hk. split_and!; [done..|lia|done|].
      pose proof (lookup_lt_Some _ _ _ Hi'). rewrite (take_rest (sb_locks s) k i 100) in Hsent by lia.
      rewrite <- (take_drop 100 (rest i k)), drop_drop. by eapply sent_app.
  - exists s2, (sb_locks s), x. split_and!; [done|by rewrite Hl2|lia|by eapply last_rest|].
    rewrite take_ge in Hsent; [done|]. rewrite length_drop. apply lookup_ge_None in Hi'. lia.
Qed.

(** ** Subscribing *)

(** The position in a log that a subscriber starts from. *)
Definition starts_at (l : list changeEntry) (start : ConsensusChangeID) (p : nat) : Prop :=
  start = ConsensusChangeBeginning /\ p = 0%nat \/ start = ConsensusChangeRecent /\ p = length l \/
  exists i ce, l !! i = Some ce /\ start = changeEntry_ID ce /\ p = S i.

Lemma recent_run k (s : subscribing T) x :
  last (log k) = Some x -> recentConsensusChangeID (views k) s = Ret (changeEntry_ID x) s.
Proof.
  intros Hx. unfold recentConsensusChangeID. by rewrite (lg_tail _ _ (view_logs k)), Hx.
Qed.

Lemma log_last k : exists x, last (log k) = Some x.
Proof. destruct (last (log k)) eqn:Hl; [eauto|]. by apply last_None in Hl. Qed.

Lemma first_entry_run k start p (s : subscribing T) :
  starts_at (log k) start p -> start <> ConsensusChangeRecent ->
  first_entry (views k) start s = Ret (log k !! p) s.
Proof.
  intros [[-> ->]|[[-> _]|(i & ce & Hi & -> & ->)]] Hne; [|done|]; unfold first_entry.
  - by rewrite bool_decide_true.
  - rewrite bool_decide_false
      by (apply (log_distinct k); by eapply list_elem_of_lookup_2).
    unfold getEntry. rewrite (lg_node _ _ (view_logs k) i ce Hi). cbn [fmap option_fmap option_map].
    by apply next_entry_run.
Qed.

Lemma initialize_run fuel start p s :
  starts_at (log (sb_locks s)) start p -> (length (log K) < fuel)%nat ->
  exists s' k x, managedInitializeSubscribe process views cancelled fuel subscriber start s
      = Ret (changeEntry_ID x) s' /\
    sb_locks s' = S k /\ (sb_locks s <= k)%nat /\ last (log k) = Some x /\ sent (rest p k) s s'.
Proof.
  intros Hstart Hfuel. unfold managedInitializeSubscribe, lock, mbind, M_bind.
  set (s1 := mkSubscribing (S (sb_locks s)) (sb_polls s) (sb_state s)).
  case_bool_decide as Hrec.
  - destruct (log_last (sb_locks s)) as [x Hx]. rewrite (recent_run _ _ _ Hx).
    exists s1, (sb_locks s), x. split_and!; [done..|].
    assert (p = length (log (sb_locks s))) as ->.
    { destruct Hstart as [[Hb _]|[[_ ->]|(i & ce & Hi & Hce & _)]]; [|done|].
      - rewrite Hb in Hrec. by vm_compute in Hrec.
      - destruct (log_distinct (sb_locks s)) as [_ Hd].
        destruct (Hd ce) as [_ Hd']; [by eapply list_elem_of_lookup_2|]. congruence. }
    rewrite drop_ge by done. apply sent_nil; cbn; [done|lia].
  - rewrite (first_entry_run _ _ _ _ Hstart Hrec).
    destruct (log (sb_locks s) !! p) as [ce|] eqn:Hp.
    + destruct (send_batches_run fuel p ce (changeEntry_ID ce) s1) as (s' & k & x & Hrun & Hl & Hk & Hx & Hs).
      * cbn [sb_locks s1]. by apply (lookup_prefix_le (sb_locks s)); [lia|].
      * lia.
      * exists s', k, x. cbn [sb_locks s1] in Hk. split_and!; [done..|lia|done|].
        apply (sent_locks _ s s1); [done|cbn; lia|done].
    + apply lookup_ge_None in Hp. destruct (log_last (sb_locks s)) as [x Hx].
      exists s1, (sb_locks s), x. split_and!; [|done..|].
      * destruct Hstart as [[_ ->]|[[? _]|(i & ce & Hi & -> & ->)]]; [cbn in Hp; lia|done|].
        rewrite last_lookup in Hx. apply lookup_lt_Some in Hi as Hlt.
        replace (pred (length (log (sb_locks s)))) with i in Hx by lia. by replace x with ce by congruence.
      * rewrite drop_ge by done. apply sent_nil; cbn; [done|lia].
Qed.

Lemma log_NoDup k : NoDup (log k).
Proof.
  destruct (reachable_published r (n k) (v_set (views k)) Hr (view_below k) (view_reachable k))
    as (lp & _ & _ & Htr & _).
  constructor; [by eapply genesisEntry_not_later|by eapply trace_NoDup].
Qed.

(** A log that ends at the same entry is the same. *)
Lemma log_same_last k k' x :
  (k <= k')%nat -> last (log k) = Some x -> last (log k') = Some x -> log k' = log k.
Proof.
  intros Hk Hx Hx'. destruct (log_prefix_le k k' Hk) as [l Hl]. rewrite Hl in Hx' |- *.
  destruct l as [|y l]; [by rewrite app_nil_r|]. pose proof (log_NoDup k') as Hnd. rewrite Hl in Hnd.
  apply NoDup_app in Hnd as (_ & Hnd & _). destruct (Hnd x).
  - apply last_Some in Hx as [l' ->]. apply elem_of_app. right. left.
  - rewrite last_app in Hx'. destruct (last (y :: l)) eqn:Hy; [|by apply last_None in Hy].
    injection Hx' as ->. apply last_Some in Hy as [l' ->]. apply elem_of_app. right. left.
Qed.

Lemma subscribe_loop_run fuel rounds : forall start p s,
  starts_at (log (sb_locks s)) start p -> (length (log K) < fuel)%nat ->
  (K < sb_locks s + rounds)%nat -> (0 < rounds)%nat ->
  exists s' k, subscribe_loop process views cancelled stopped rounds fuel subscriber start s
      = Ret (views k) s' /\
    sb_locks s' = S k /\ (sb_locks s <= k)%nat /\ sent (rest p k) s s'.
Proof.
  induction rounds as [|rounds IH]; intros start p s Hstart Hfuel Hrounds Hpos; [lia|].
  destruct (initialize_run fuel start p s Hstart Hfuel) as (s1 & k & x & Hrun & Hl & Hk & Hx & Hs).
  cbn [subscribe_loop]. unfold mbind at 1, M_bind at 1. rewrite Hrun.
  set (s2 := mkSubscribing (S (S k)) (sb_polls s1) (sb_state s1)).
  unfold lock, mbind, M_bind. rewrite Hl. fold s2.
  destruct (log_last (S k)) as [y Hy]. rewrite (recent_run _ _ _ Hy).
  assert (Hin : x ∈ log (S k)).
  { apply last_Some in Hx as [l Hl']. destruct (log_prefix_le k (S k)) as [l' ->]; [lia|].
    rewrite Hl'. apply elem_of_app. left. apply elem_of_app. right. left. }
  assert (Hs2 : sent (rest p k) s s2).
  { rewrite <- (app_nil_r (rest p k)). eapply sent_app; [done|]. apply sent_nil; cbn; [done|lia]. }
  case_bool_decide as Heq.
  - exists s2, (S k). split_and!; [done..|cbn; lia|].
    rewrite (log_same_last k (S k) x); [done|lia|done|].
    rewrite Hy. f_equal. destruct (log_distinct (S k)) as [Hinj _]. symmetry. apply Hinj; [done| |done].
    apply last_Some in Hy as [l ->]. apply elem_of_app. right. left.
  - assert (k < K)%nat.
    { destruct (decide (k < K)%nat); [done|]. destruct Heq. f_equal.
      assert (last (log (S k)) = Some x) by (unfold all_changes; by rewrite Hstable, <- (Hstable k) by lia).
      congruence. }
    unfold stop_check, poll, mbind, M_bind. rewrite Hstop. cbn [err_if check mret M_ret].
    set (s3 := mkSubscribing (S (S k)) (S (sb_polls s2)) (sb_state s2)).
    destruct (IH (changeEntry_ID x) (length (log k)) s3) as (s' & k' & Hrun' & Hl' & Hk' & Hs').
    + right. right. exists (pred (length (log k))), x. cbn [sb_locks s3]. split_and!; [|done|].
      * apply (lookup_prefix_le k); [lia|]. by rewrite <- last_lookup.
      * destruct (log k) eqn:Hlk; [done|]. cbn. lia.
    + done.
    + cbn. lia.
    + lia.
    + exists s', k'. cbn [sb_locks s3] in Hk'. split_and!; [exact Hrun'|done|lia|].
      destruct (decide (p <= length (log k))%nat) as [Hp|Hp].
      * replace (rest p k') with (rest p k ++ rest (length (log k)) k').
        2: { destruct (log_prefix_le k k') as [l ->]; [lia|].
             by rewrite drop_app_length, drop_app_le. }
        eapply sent_app; [|exact Hs']. rewrite <- (app_nil_r (rest p k)).
        eapply sent_app; [exact Hs2|]. apply sent_nil; cbn; [done|lia].
      * exfalso. apply Hp. pose proof (log_length_le (sb_locks s) k Hk).
        destruct Hstart as [[_ ->]|[[_ ->]|(i & ce & Hi & _ & ->)]]; [lia..|].
        apply lookup_lt_Some in Hi. lia.
Qed.

Context (Hnew : forall k, subscriber ∉ v_subscribers (views k)).

Lemma subscribe_run rounds fuel start p s :
  starts_at (log (sb_locks s)) start p -> (length (log K) < fuel)%nat -> (K < rounds)%nat ->
  exists s' k, ConsensusSetSubscribe process views cancelled stopped rounds fuel subscriber start s
      = Ret (views k, v_subscribers (views k) ++ [subscriber]) s' /\
    sb_locks s' = S k /\ (sb_locks s <= k)%nat /\ sent (rest p k) s s'.
Proof.
  intros Hstart Hfuel Hrounds. unfold ConsensusSetSubscribe, stop_check, poll, mbind, M_bind.
  rewrite Hstop. cbn [err_if check mret M_ret].
  set (s1 := mkSubscribing (sb_locks s) (S (sb_polls s)) (sb_state s)).
  destruct (subscribe_loop_run fuel rounds start p s1 Hstart Hfuel) as (s' & k & Hrun & Hl & Hk & Hs);
    [cbn; lia|lia|].
  rewrite Hrun, bool_decide_false, andb_false_r by apply Hnew. exists s', k. split_and!; [done..|].
  apply (sent_locks _ s s1); [done|cbn; lia|done].
Qed.
End subscription.

(** C11. Subscribing to the consensus set while blocks keep arriving: however
    the change log grows between the times the subscribing thread holds the
    lock, the subscriber receives every change after the one it starts from
    once and in order, each as computed from the database at that time, up to
    the last one in the log at the time it is added to the list of subscribers;
    and once no more blocks arrive it is added. *)
Theorem ConsensusSetSubscribe_delivers {P : Params} {C : Crypto} {E : SiaEncoding} (r : release)
    {Sub T : Type} `{EqDecision Sub} (process : Sub -> ConsensusChange -> M T ())
    (f : ConsensusChange -> T -> T) (views : nat -> csView Sub) (cancelled stopped : nat -> bool) n N K
    subscriber (start : ConsensusChangeID) (p : nat) (t : T) (rounds fuel : nat) :
  r <> Testing -> schedule r views n N ->
  (forall k, (K <= k)%nat -> v_set (views k) = v_set (views K)) ->
  ids_distinct (all_changes (v_set (views K))) ->
  (forall cc t, process subscriber cc t = Ret () (f cc t)) ->
  (forall j, cancelled j = false) -> (forall j, stopped j = false) ->
  (forall k, subscriber ∉ v_subscribers (views k)) ->
  starts_at (all_changes (v_set (views 0%nat))) start p ->
  (length (all_changes (v_set (views K))) < fuel)%nat -> (K < rounds)%nat ->
  exists k ccs polls,
    ConsensusSetSubscribe (B:=debug_build r) process views cancelled stopped rounds fuel
      subscriber start (mkSubscribing 0%nat 0%nat t)
    = Ret (views k, v_subscribers (views k) ++ [subscriber])
        (mkSubscribing (S k) polls (after f ccs t)) /\
    Forall2 (computed_by r views k) (drop p (all_changes (v_set (views k)))) ccs.
Proof.
  intros Hr Hsched Hstable Hids Hproc Hc Hs Hnew Hstart Hfuel Hrounds.
  destruct (subscribe_run r Hr process views cancelled stopped f subscriber Hproc Hc Hs n N Hsched
    K Hstable Hids Hnew rounds fuel start p (mkSubscribing 0%nat 0%nat t) Hstart Hfuel Hrounds)
    as (s' & k & Hrun & Hl & _ & [(ccs & Hccs & Hst) _]).
  rewrite Hl in Hccs. exists k, ccs, (sb_polls s'). split; [|exact Hccs].
  rewrite Hrun. f_equal. destruct s' as [locks polls st]. cbn in Hl, Hst |- *. by rewrite Hl, Hst.
Qed.
