(* ===== verification/Replay.v ===== *)
(** * The diffs of a consensus change lead from the old outputs to the new

    A consensus change carries the diffs of the reverted blocks, last first and
    with their directions flipped, and then those of the applied blocks.  Each
    of them is legal where it stands, and together they turn the outputs,
    contracts and pool of the old path into those of the new one. *)

From S2P Require Import Prelude Bytes Interfaces Currency Types Params Target Encoding Transactions.
From S2P Require Import Subsidy ConsensusDB ApplyTransaction GenerateDiffs ProcessedBlock BlockValidation Fork.
From S2P Require Import Accept ConsensusSubscribe Journal Agree Records Steps Revert.
From S2P Require Import RevertApply Frames Chain ChainFork ChainAccept ChainState ChangeLog.

Open Scope Z_scope.

(** What the diffs describe of a database. *)
Record mirror := mkMirror {
  mi_SiacoinOutputs : gmap SiacoinOutputID SiacoinOutput;
  mi_FileContracts : gmap FileContractID FileContract;
  mi_SiafundOutputs : gmap SiafundOutputID SiafundOutput;
  mi_SiafundPool : Currency
}.
Definition mirror_of (d : DB) : mirror :=
  mkMirror (db_SiacoinOutputs d) (db_FileContracts d) (db_SiafundOutputs d) (db_SiafundPool d).
Definition empty_mirror : mirror := mkMirror ∅ ∅ ∅ 0%N.

(** The pool after diffs that are read by their direction. *)
Definition pool_put (x : SiafundPoolDiff) (p : Currency) : Currency :=
  match sfpd_Direction x with DiffApply => sfpd_Adjusted x | DiffRevert => sfpd_Previous x end.
Definition pool_run (l : list SiafundPoolDiff) (p : Currency) : Currency :=
  foldl (fun p x => pool_put x p) p l.

Record carries (cd : ConsensusChangeDiffs) (m m' : mirror) : Prop := mkCarries {
  cr_sco : jlegal id (scod_edit <$> ccd_SiacoinOutputDiffs cd) (mi_SiacoinOutputs m) /\
    mi_SiacoinOutputs m' = jrun (scod_edit <$> ccd_SiacoinOutputDiffs cd) (mi_SiacoinOutputs m);
  cr_fc : jlegal id (fcd_edit <$> ccd_FileContractDiffs cd) (mi_FileContracts m) /\
    mi_FileContracts m' = jrun (fcd_edit <$> ccd_FileContractDiffs cd) (mi_FileContracts m);
  cr_sfo : jlegal id (sfod_edit <$> ccd_SiafundOutputDiffs cd) (mi_SiafundOutputs m) /\
    mi_SiafundOutputs m' = jrun (sfod_edit <$> ccd_SiafundOutputDiffs cd) (mi_SiafundOutputs m);
  cr_pool : mi_SiafundPool m' = pool_run (ccd_SiafundPoolDiffs cd) (mi_SiafundPool m)
}.

Lemma carries_nil m : carries no_change_diffs m m.
Proof. by split. Qed.

Lemma carries_app cd diffs m m1 m2 :
  carries cd m m1 -> carries diffs m1 m2 -> carries (AppendDiffs diffs cd) m m2.
Proof.
  intros [[L1 R1] [L2 R2] [L3 R3] R4] [[L1' R1'] [L2' R2'] [L3' R3'] R4']. split; cbn.
  - rewrite fmap_app, jlegal_app, jrun_app, <- R1. by split_and!.
  - rewrite fmap_app, jlegal_app, jrun_app, <- R2. by split_and!.
  - rewrite fmap_app, jlegal_app, jrun_app, <- R3. by split_and!.
  - unfold pool_run in *. by rewrite foldl_app, <- R4.
Qed.

(** A list of diffs, one after the other. *)
Inductive carry_all : list ConsensusChangeDiffs -> mirror -> mirror -> Prop :=
| carry_nil m : carry_all [] m m
| carry_cons cd l m m1 m2 : carries cd m m1 -> carry_all l m1 m2 -> carry_all (cd :: l) m m2.

Lemma carry_all_app l1 l2 m m1 m2 :
  carry_all l1 m m1 -> carry_all l2 m1 m2 -> carry_all (l1 ++ l2) m m2.
Proof. induction 1; cbn; [done|]. intros. econstructor; eauto. Qed.

Lemma carry_all_concat l m m' : carry_all l m m' -> carries (concat_diffs l) m m'.
Proof.
  unfold concat_diffs. intros Hl. assert (H0 : carries no_change_diffs m m) by apply carries_nil.
  revert H0. generalize m at 1 3. generalize no_change_diffs.
  induction Hl as [m|cd l m m1 m2 H1 _ IH]; intros cd0 m0 H0; cbn [foldl]; [done|].
  apply IH. by eapply carries_app.
Qed.

(** ** One block *)

Lemma flip_edits {A K V} (edit_of : A -> edit K V) (flip : A -> A) (l : list A) :
  (forall x, edit_of (flip x) = flip_edit (edit_of x)) ->
  edit_of <$> reverse (flip <$> l) = undo (edit_of <$> l).
Proof.
  intros Hf. unfold undo. rewrite !fmap_reverse, <- !list_fmap_compose. f_equal.
  apply list_fmap_ext. intros _ x _. apply Hf.
Qed.

Lemma pool_chain_run l p p' : pool_chain l p p' -> pool_run l p = p'.
Proof.
  revert p. induction l as [|x l IH]; intros p; cbn; [done|]. intros (Hd & _ & Hl).
  unfold pool_put. rewrite Hd. by apply IH.
Qed.

Lemma pool_chain_undo l p p' : pool_chain l p p' -> pool_run (reverse (flip_sfpd <$> l)) p' = p.
Proof.
  revert p. induction l as [|x l IH]; intros p; cbn [pool_chain fmap list_fmap]; [done|].
  intros (Hd & <- & Hl). rewrite reverse_cons. unfold pool_run. rewrite foldl_app.
  cbn. unfold pool_put. cbn. by rewrite Hd.
Qed.

Section block.
Context {P : Params} {C : Crypto} {E : SiaEncoding} (r : release).
#[local] Hint Extern 0 Build => exact (debug_build r) : typeclass_instances.

Lemma same_core_mirror d d' : same_core id d d' -> mirror_of d = mirror_of d'.
Proof.
  intros [H1 H2 H3 _ H5]. rewrite !map_fmap_id in H3. unfold mirror_of. congruence.
Qed.

Lemma generated_carries sigma pb :
  ordinary pb -> dev_untouched (pb_Block pb) -> generated r sigma pb ->
  let m := mirror_of (sigma (b_ParentID (pb_Block pb))) in
  let m' := mirror_of (sigma (Block_ID (pb_Block pb))) in
  carries (applied_diffs pb) m m' /\ carries (reverted_diffs pb) m' m.
Proof.
  intros Hord Hdev Hgen m m'.
  destruct (generated_recorded r sigma pb Hord Hdev Hgen) as (e0 & d & Ht & Hrec & Hd & _).
  assert (m = mirror_of e0) as -> by (symmetry; apply same_core_mirror, Ht).
  assert (m' = mirror_of d) as -> by (by apply same_core_mirror).
  destruct (rc_tracks _ _ _ _ Hrec) as [[L1 R1] [L2 R2] [L3 R3] _ Hp _ _].
  split; (split; cbn [applied_diffs reverted_diffs computeConsensusChangeDiffs ccd_SiacoinOutputDiffs
    ccd_FileContractDiffs ccd_SiafundOutputDiffs ccd_SiafundPoolDiffs mirror_of mi_SiacoinOutputs
    mi_FileContracts mi_SiafundOutputs mi_SiafundPool]).
  - by split.
  - by split.
  - by split.
  - symmetry. by apply pool_chain_run.
  - rewrite (flip_edits scod_edit flip_scod) by (by intros [[] ? ?]). rewrite R1.
    split; [by apply jlegal_undo|by rewrite jrun_undo].
  - rewrite (flip_edits fcd_edit flip_fcd) by (by intros [[] ? ?]). rewrite R2.
    split; [by apply jlegal_undo|by rewrite jrun_undo].
  - rewrite (flip_edits sfod_edit flip_sfod) by (by intros [[] ? ?]). rewrite R3.
    split; [by apply jlegal_undo|by rewrite jrun_undo].
  - symmetry. by apply pool_chain_undo.
Qed.

(** ** A path *)

Context (sigma : BlockID -> DB) (n : Z) (d : DB) (Hn : below_forks n) (Hc : chain_ok r sigma n d).
Abbreviation t := (db_BlockMap d).

(** The state the last block of a path left. *)
Definition tip_mirror (lp : list BlockID) : mirror :=
  match last lp with Some bid => mirror_of (sigma bid) | None => empty_mirror end.

Lemma tip_mirror_snoc lp bid : tip_mirror (lp ++ [bid]) = mirror_of (sigma bid).
Proof. unfold tip_mirror. by rewrite last_snoc. Qed.

Lemma chained_node lp bid pb :
  chained t (lp ++ [bid]) -> lp <> [] -> t !! bid = Some pb ->
  carries (applied_diffs pb) (tip_mirror lp) (tip_mirror (lp ++ [bid])) /\
  carries (reverted_diffs pb) (tip_mirror (lp ++ [bid])) (tip_mirror lp).
Proof.
  intros Hch Hne Hpb. destruct (ch_block _ _ Hch (length lp) bid) as (pb' & Hpb' & Hg & Hid & Hh & Hpar).
  { by rewrite list_lookup_middle. }
  assert (pb' = pb) as -> by congruence.
  destruct (last lp) as [pid|] eqn:Hl; [|by apply last_None in Hl].
  pose proof Hl as Hl'. rewrite last_lookup in Hl'. pose proof (lookup_lt_Some _ _ _ Hl') as Hlt.
  assert (Hp : b_ParentID (pb_Block pb) = pid).
  { apply (Hpar (pred (length lp))); [lia|]. by rewrite lookup_app_l. }
  destruct (child_of_height r sigma n t bid pb (co_tree _ _ _ _ Hc) Hpb) as [parent Hchild]; [lia|].
  destruct Hchild as [_ _ _ [Hdev _] [[_ Hf]|(_ & _ & Hgen)]]; [congruence|].
  pose proof (ordinary_below n pb Hn (nd_height _ _ _ _ _ _ (co_tree _ _ _ _ Hc _ _ Hpb))) as Hord.
  destruct (generated_carries sigma pb Hord Hdev Hgen) as [H1 H2]. rewrite Hp, Hid in H1, H2.
  rewrite tip_mirror_snoc. unfold tip_mirror. rewrite Hl. done.
Qed.

Lemma applied_carry kept ids : forall pbs,
  kept <> [] -> chained t (kept ++ ids) -> blocks_at t ids pbs ->
  carry_all (applied_diffs <$> pbs) (tip_mirror kept) (tip_mirror (kept ++ ids)).
Proof.
  revert kept. induction ids as [|bid ids IH]; intros kept pbs Hne Hch Hb; inversion Hb as [|? pb ? pbs' Hpb Hbs]; subst.
  - rewrite app_nil_r. constructor.
  - rewrite cons_middle, app_assoc in Hch |- *. cbn [fmap list_fmap]. econstructor.
    + apply chained_node; [by eapply chained_take; [by destruct kept|]|done|done].
    + apply IH; [by destruct kept|done|done].
Qed.

Lemma reverted_carry kept ids : forall pbs,
  kept <> [] -> chained t (kept ++ reverse ids) -> blocks_at t ids pbs ->
  carry_all (reverted_diffs <$> pbs) (tip_mirror (kept ++ reverse ids)) (tip_mirror kept).
Proof.
  induction ids as [|bid ids IH]; intros pbs Hne Hch Hb; inversion Hb as [|? pb ? pbs' Hpb Hbs]; subst.
  - rewrite reverse_nil, app_nil_r. constructor.
  - rewrite reverse_cons, app_assoc in Hch |- *. cbn [fmap list_fmap].
    assert (Hne' : kept ++ reverse ids <> []) by (by destruct kept). econstructor.
    + by apply chained_node.
    + apply IH; [done|by eapply chained_take|done].
Qed.

Lemma follow_carries ce lp lp' rpbs apbs cc :
  chained t lp -> chained t lp' -> follow ce lp = Some lp' ->
  (length (ce_RevertedBlocks ce) < length lp)%nat ->
  blocks_at t (ce_RevertedBlocks ce) rpbs -> blocks_at t (ce_AppliedBlocks ce) apbs ->
  describes rpbs apbs cc -> carries (cc_Diffs cc) (tip_mirror lp) (tip_mirror lp').
Proof.
  intros Hch Hch' Hf Hlen Hr Ha [_ _ -> -> ->]. destruct (follow_split _ _ _ Hf) as (kept & -> & ->).
  rewrite length_app, length_reverse in Hlen. assert (kept <> []) by (by intros ->; cbn in Hlen; lia).
  apply carry_all_concat. eapply carry_all_app; [by apply reverted_carry|by apply applied_carry].
Qed.
End block.

(** ** The genesis block *)

Section genesis.
Context {P : Params} {C : Crypto} {E : SiaEncoding} (r : release).
#[local] Hint Extern 0 Build => exact (debug_build r) : typeclass_instances.

Lemma genesis_scods_run l : forall d d',
  Forall (fun x => scod_Direction x = DiffApply) l ->
  for_each (fun x => commitSiacoinOutputDiff x DiffApply) l d = Ret () d' ->
  jlegal id (scod_edit <$> l) (db_SiacoinOutputs d) /\
  d' = with_SiacoinOutputs (jrun (scod_edit <$> l) (db_SiacoinOutputs d)) d.
Proof.
  induction l as [|[dir k v] l IH]; intros d d' Hdir Hrun; cbn [for_each] in Hrun; inv_run.
  - by destruct d.
  - inversion Hdir as [|? ? Hx Hxs]; subst. cbn in Hx. subst dir.
    match goal with H : commitSiacoinOutputDiff _ _ _ = _ |- _ => rename H into Hc end.
    match goal with H : for_each _ _ _ = _ |- _ => apply IH in H as [Hl ->]; [|done] end.
    unfold commitSiacoinOutputDiff, addSiacoinOutput, isSiacoinOutput in Hc.
    cbn [scod_Direction sfod_Direction] in Hc. change (same_dir DiffApply DiffApply) with true in Hc.
    cbv match in Hc. inv_run.
    match goal with H : _ && bool_decide (is_Some _) = false |- _ =>
      cbn in H; apply bool_decide_eq_false_1, eq_None_not_Some in H end.
    by destruct d.
Qed.

Lemma genesis_sfods_run l : forall d d',
  Forall (fun x => sfod_Direction x = DiffApply) l ->
  for_each (fun x => commitSiafundOutputDiff x DiffApply) l d = Ret () d' ->
  jlegal id (sfod_edit <$> l) (db_SiafundOutputs d) /\
  d' = with_SiafundOutputs (jrun (sfod_edit <$> l) (db_SiafundOutputs d)) d.
Proof.
  induction l as [|[dir k v] l IH]; intros d d' Hdir Hrun; cbn [for_each] in Hrun; inv_run.
  - by destruct d.
  - inversion Hdir as [|? ? Hx Hxs]; subst. cbn in Hx. subst dir.
    match goal with H : commitSiafundOutputDiff _ _ _ = _ |- _ => rename H into Hc end.
    match goal with H : for_each _ _ _ = _ |- _ => apply IH in H as [Hl ->]; [|done] end.
    unfold commitSiafundOutputDiff, addSiafundOutput in Hc.
    cbn [scod_Direction sfod_Direction] in Hc. change (same_dir DiffApply DiffApply) with true in Hc.
    cbv match in Hc. inv_run.
    match goal with H : _ && bool_decide (is_Some _) = false |- _ =>
      cbn in H; apply bool_decide_eq_false_1, eq_None_not_Some in H end.
    by destruct d.
Qed.

Lemma root_scods_apply : Forall (fun x => scod_Direction x = DiffApply) (pb_SiacoinOutputDiffs blockRoot).
Proof.
  rewrite root_scods. unfold genesis_scods. apply Forall_lookup. intros i x. rewrite list_lookup_imap.
  by intros (y & _ & ->)%fmap_Some.
Qed.
Lemma root_sfods_apply : Forall (fun x => sfod_Direction x = DiffApply) (pb_SiafundOutputDiffs blockRoot).
Proof.
  rewrite root_sfods. unfold genesis_sfods. apply Forall_lookup. intros i x. rewrite list_lookup_imap.
  by intros (y & _ & ->)%fmap_Some.
Qed.

Lemma createConsensusDB_carries d :
  createConsensusDB empty_DB = Ret () d -> carries (applied_diffs blockRoot) empty_mirror (mirror_of d).
Proof.
  intros Hrun. unfold createConsensusDB, addBlockMap in Hrun. inv_run.
  match goal with H : for_each _ (pb_SiacoinOutputDiffs _) _ = _ |- _ =>
    apply genesis_scods_run in H as [L1 ->]; [|apply root_scods_apply] end.
  match goal with H : setSiafundPool _ _ = _ |- _ => injection H as <- end.
  match goal with H : for_each _ (pb_SiafundOutputDiffs _) _ = _ |- _ =>
    apply genesis_sfods_run in H as [L2 ->]; [|apply root_sfods_apply] end.
  match goal with H : createDSCOBucket _ _ = Ret _ _ |- _ =>
    apply (keeps_Ret mirror_of) in H; [|by unfold createDSCOBucket; keeps_run] end.
  match goal with H : addDSCO _ _ _ _ = Ret _ _ |- _ =>
    apply (keeps_Ret mirror_of) in H; [|by unfold addDSCO, isSiacoinOutput; keeps_run] end.
  match goal with H : pushPath _ _ = Ret _ _ |- _ =>
    apply (keeps_Ret mirror_of) in H; [|by unfold pushPath, blockHeight; keeps_run] end.
  match goal with |- carries _ _ ?m =>
    assert (m = mkMirror (jrun (scod_edit <$> pb_SiacoinOutputDiffs blockRoot) ∅) ∅
      (jrun (sfod_edit <$> pb_SiafundOutputDiffs blockRoot) ∅) 0%N) as -> end.
  { cbn [with_BlockMap mirror_of db_SiacoinOutputs] in *. unfold mirror_of in *. cbn in *. congruence. }
  by split.
Qed.

Lemma loadDB_carries d :
  loadDB empty_DB = Ret () d -> carries (applied_diffs blockRoot) empty_mirror (mirror_of d).
Proof.
  intros Hrun. unfold loadDB, initDB in Hrun. inv_run.
  match goal with H : createConsensusDB _ = Ret _ ?x |- _ => rename x into d1;
    apply createConsensusDB_carries in H as Hc end.
  match goal with H : initOak _ = Ret _ ?x |- _ => rename x into d2, H into Hoak end.
  match goal with H : getPath _ _ = Ret _ _ |- _ => injection H as _ <- end.
  replace (mirror_of d2) with (mirror_of (with_Inconsistent false d1)); [done|]. symmetry.
  eapply (keeps_Ret mirror_of); [exact Hoak|].
  unfold initOak, initOak_step, storeBlockTotals, or_panic. keeps_run.
Qed.
End genesis.

(** ** The outputs of a path, from the diffs in the tree *)

Definition replay (cd : ConsensusChangeDiffs) (m : mirror) : mirror :=
  mkMirror (jrun (scod_edit <$> ccd_SiacoinOutputDiffs cd) (mi_SiacoinOutputs m))
    (jrun (fcd_edit <$> ccd_FileContractDiffs cd) (mi_FileContracts m))
    (jrun (sfod_edit <$> ccd_SiafundOutputDiffs cd) (mi_SiafundOutputs m))
    (pool_run (ccd_SiafundPoolDiffs cd) (mi_SiafundPool m)).

Definition path_mirror (t : tree) (lp : list BlockID) : mirror :=
  foldl (fun m bid => match t !! bid with Some pb => replay (applied_diffs pb) m | None => m end)
    empty_mirror lp.

Lemma carries_replay cd m m' : carries cd m m' -> m' = replay cd m.
Proof. intros [[_ H1] [_ H2] [_ H3] H4]. destruct m'. unfold replay. cbn in *. congruence. Qed.

Section paths.
Context {P : Params} {C : Crypto} {E : SiaEncoding} (r : release).
#[local] Hint Extern 0 Build => exact (debug_build r) : typeclass_instances.
Lemma path_mirror_grows t t' lp : grows t t' -> chained t lp -> path_mirror t' lp = path_mirror t lp.
Proof.
  intros Hg [Hb _ _ _ _]. unfold path_mirror. generalize empty_mirror.
  assert (Hall : Forall (fun bid => exists pb, t !! bid = Some pb /\ t' !! bid = Some pb) lp).
  { apply Forall_lookup. intros i bid Hi. destruct (Hb i bid Hi) as (pb & Hpb & Hgen & _).
    exists pb. split; [done|by eapply grows_generated]. }
  clear Hb. induction Hall as [|bid lp (pb & Hpb & Hpb') _ IH]; intros m; cbn [foldl]; [done|].
  by rewrite Hpb, Hpb'.
Qed.

Context (sigma : BlockID -> DB) (n : Z) (d : DB) (Hn : below_forks n) (Hc : chain_ok r sigma n d).
Context (h : Hash) (Hroot : db_BlockMap d !! GenesisID = Some (set_checksum h blockRoot)).

Lemma path_mirror_snoc lp bid pb :
  db_BlockMap d !! bid = Some pb ->
  path_mirror (db_BlockMap d) (lp ++ [bid]) = replay (applied_diffs pb) (path_mirror (db_BlockMap d) lp).
Proof. intros Hpb. unfold path_mirror. rewrite foldl_app. cbn. by rewrite Hpb. Qed.

Lemma tip_mirror_path lp :
  lp = [] \/ chained (db_BlockMap d) lp -> tip_mirror sigma lp = path_mirror (db_BlockMap d) lp.
Proof.
  induction lp as [|bid lp IH] using rev_ind; intros Hcase.
  - done.
  - assert (Hch : chained (db_BlockMap d) (lp ++ [bid])) by (destruct Hcase as [?|?]; [by destruct lp|done]).
    destruct (ch_block _ _ Hch (length lp) bid) as (pb & Hpb & _); [by rewrite list_lookup_middle|].
    rewrite (path_mirror_snoc _ _ _ Hpb). destruct (decide (lp = [])) as [->|Hne].
    + assert (bid = GenesisID) as -> by (pose proof (ch_genesis _ _ Hch) as Hg; cbn in Hg; congruence).
      rewrite Hroot in Hpb. injection Hpb as <-.
      change (applied_diffs (set_checksum h blockRoot)) with (applied_diffs blockRoot).
      change (path_mirror (db_BlockMap d) []) with empty_mirror. unfold tip_mirror. cbn [last].
      apply carries_replay, (loadDB_carries r), (co_genesis _ _ _ _ Hc).
    + rewrite <- IH by (right; by eapply chained_take). apply carries_replay.
      by apply (chained_node r sigma n d Hn Hc).
Qed.

(** A change carries the outputs of one path to those of the next. *)
Lemma change_carries ce lp lp' rpbs apbs cc :
  let t := db_BlockMap d in
  lp = [] /\ ce = genesisEntry \/ chained t lp /\ (length (ce_RevertedBlocks ce) < length lp)%nat ->
  chained t lp' -> follow ce lp = Some lp' ->
  blocks_at t (ce_RevertedBlocks ce) rpbs -> blocks_at t (ce_AppliedBlocks ce) apbs ->
  describes rpbs apbs cc -> carries (cc_Diffs cc) (path_mirror t lp) (path_mirror t lp').
Proof.
  intros t Hlp Hch' Hf Hr Ha Hd. rewrite <- !tip_mirror_path by (naive_solver).
  destruct Hlp as [[-> ->]|[Hch Hlen]]; [|by eapply (follow_carries r sigma n d)].
  cbn in Hf. injection Hf as <-. inversion Hr; subst. destruct Hd as [_ _ -> -> ->].
  inversion Ha as [|? pb ? ? Hpb Hnil]; subst. inversion Hnil; subst.
  assert (Hpb' : t !! GenesisID = Some pb) by exact Hpb. subst t. rewrite Hroot in Hpb'. injection Hpb' as <-.
  cbn [fmap list_fmap app]. apply carry_all_concat. econstructor; [|constructor].
  change (applied_diffs (set_checksum h blockRoot)) with (applied_diffs blockRoot).
  apply (loadDB_carries r), (co_genesis _ _ _ _ Hc).
Qed.
End paths.
