(* ===== verification/Node.v ===== *)
(** * A node: the consensus set and a module that follows it

    A consensus set that accepts blocks hands every change to its subscribers
    before it gives the lock back.  This file composes it with one subscriber,
    whose handler of consensus changes and whose own operations are parameters,
    and gives the rule by which an invariant of the subscriber that speaks of
    the current path is proved: it has to be kept by one change at a time. *)

From S2P Require Import Prelude Bytes Interfaces Currency Types Params Target Encoding Transactions.
From S2P Require Import Subsidy ConsensusDB ProcessedBlock BlockValidation Fork GenerateDiffs Accept.
From S2P Require Import ConsensusSubscribe Agree Chain ChainFork ChainAccept ChainState ChangeLog.
From S2P Require Import Subscription Replay.

Open Scope Z_scope.

Section node.
Context {P : Params} {C : Crypto} {E : SiaEncoding} (r : release) (Hr : r <> Testing).
#[local] Hint Extern 0 Build => exact (debug_build r) : typeclass_instances.
(** The subscriber: its state, its handler on a state of the consensus set, the
    states it starts in and the steps it takes on its own. *)
Context {T : Type} (process : DB -> ConsensusChange -> M T ()).
Context (initial : T -> Prop) (own_step : DB -> T -> T -> Prop).

(** ** The composition *)

(** The end of [managedAcceptBlocks]: every change goes to the subscriber. *)
Definition deliver (synced : bool) (d : DB) (l : list changeEntry) : M T () :=
  for_each (updateSubscribers (fun _ : unit => process d) [tt] synced d) l.

Inductive node : Z -> ConsensusSet -> T -> Prop :=
| node_new d synced t t' :
    loadDB empty_DB = Ret () d -> initial t ->
    deliver synced d [genesisEntry] t = Ret () t' -> node 1 (new_set d) t'
| node_accept n s t clock blocks extended s' new synced t' :
    node n s t -> Forall admissible blocks ->
    managedAcceptBlocks clock blocks s = Ret extended s' ->
    cs_published s' = cs_published s ++ new ->
    deliver synced (cs_db s') new t = Ret () t' ->
    node (n + Z.of_nat (length blocks)) s' t'
| node_reject n s t clock blocks e s' :
    node n s t -> Forall admissible blocks ->
    managedAcceptBlocks clock blocks s = Err e s' ->
    node (n + Z.of_nat (length blocks)) s' t
| node_own n s t t' : node n s t -> own_step (cs_db s) t t' -> node n s t'.

Lemma node_reachable n s t : node n s t -> reachable r n s.
Proof.
  induction 1; [by apply reachable_new|by eapply reachable_accept|by eapply reachable_reject|done].
Qed.

(** ** One change *)

(** The change that leads from the path [lp] to [lp']; the first one leads
    from nothing to the genesis block. *)
Record change_between (d : DB) (lp lp' : list BlockID) (cc : ConsensusChange) : Prop := mkChangeBetween {
  cb_old : lp = [] \/ chained (db_BlockMap d) lp;
  cb_new : chained (db_BlockMap d) lp';
  cb_blocks : exists kept reverted applied rpbs apbs,
    lp = kept ++ reverse reverted /\ lp' = kept ++ applied /\ applied <> [] /\
    (lp <> [] -> kept <> []) /\
    blocks_at (db_BlockMap d) reverted rpbs /\ blocks_at (db_BlockMap d) applied apbs /\
    describes rpbs apbs cc;
  cb_heights : reports_heights lp lp' cc;
  cb_carries : carries (cc_Diffs cc) (path_mirror (db_BlockMap d) lp) (path_mirror (db_BlockMap d) lp');
  cb_child : reports_child (db_BlockMap d) lp' cc
}.

Definition stored_root (d : DB) : Prop :=
  exists h, db_BlockMap d !! GenesisID = Some (set_checksum h blockRoot).

Lemma reachable_root n s : below_forks n -> reachable r n s -> stored_root (cs_db s).
Proof.
  intros Hn Hreach. revert Hn.
  induction Hreach as [d Hd|n s clock blocks x s' Hs IH Hadm Hrun|n s clock blocks x s' Hs IH Hadm Hrun];
    intros Hn.
  - destruct (loadDB_frame r d Hd) as (root & [_ [h ->]] & Hf). exists h. cbn [cs_db new_set].
    unfold frame in Hf. assert (Ht : db_BlockMap d = {[GenesisID := set_checksum h blockRoot]}) by congruence.
    by rewrite Ht, lookup_singleton_eq.
  - assert (Hn' : below_forks n) by (eapply below_forks_le; [|done]; lia).
    pose proof (managedAcceptBlocks_ok r Hr n clock blocks s Hn (reachable_cs_ok r _ _ Hr Hn' Hs) Hadm) as Ho.
    rewrite Hrun in Ho. destruct Ho as (_ & new & _ & _ & [_ _ Hg _ _] & _). destruct (IH Hn') as [h Hh].
    exists h. by eapply grows_generated.
  - assert (Hn' : below_forks n) by (eapply below_forks_le; [|done]; lia).
    pose proof (managedAcceptBlocks_ok r Hr n clock blocks s Hn (reachable_cs_ok r _ _ Hr Hn' Hs) Hadm) as Ho.
    rewrite Hrun in Ho. destruct Ho as (_ & _ & _ & [->|[_ [_ _ Hg _ _]]]); [by apply IH|].
    destruct (IH Hn') as [h Hh]. exists h. by eapply grows_generated.
Qed.

(** The outputs along the current path are those of the database. *)
Lemma path_mirror_db n s lp :
  below_forks n -> reachable r n s -> path_list (cs_db s) lp -> chained (db_BlockMap (cs_db s)) lp ->
  path_mirror (db_BlockMap (cs_db s)) lp = mirror_of (cs_db s).
Proof.
  intros Hn Hreach [Hlen Hpath] Hch. pose proof (lookup_lt_Some _ _ _ (ch_genesis _ _ Hch)) as Hpos.
  destruct (reachable_root n s Hn Hreach) as [h Hroot].
  destruct (reachable_cs_ok r n s Hr Hn Hreach) as [sigma Hc].
  rewrite <- (tip_mirror_path r sigma n (cs_db s) Hn Hc h Hroot lp) by (by right).
  destruct (co_tip _ _ _ _ Hc) as (tip & Htip & Hsame). unfold tip_mirror.
  replace (db_BlockHeight (cs_db s)) with (Z.of_nat (pred (length lp))) in Htip by lia.
  rewrite Hpath in Htip. rewrite last_lookup, Htip. symmetry. apply same_core_mirror, Hsame.
Qed.

Lemma change_computed_between n s synced ce lp lp' :
  below_forks n -> reachable r n s ->
  lp = [] /\ ce = genesisEntry \/
    chained (db_BlockMap (cs_db s)) lp /\ (length (ce_RevertedBlocks ce) < length lp)%nat ->
  chained (db_BlockMap (cs_db s)) lp' -> follow ce lp = Some lp' -> ce_AppliedBlocks ce <> [] ->
  exists cc, computeConsensusChange synced ce (cs_db s) = Ret cc (cs_db s) /\
    change_between (cs_db s) lp lp' cc.
Proof.
  intros Hn Hreach Hlp Hch' Hf Hne. destruct (reachable_root n s Hn Hreach) as [h Hroot].
  destruct (reachable_cs_ok r n s Hr Hn Hreach) as [sigma Hc].
  destruct (chain_tip _ _ _ _ Hc) as (pb & Htip & _).
  destruct (computeConsensusChange_run synced (cs_db s) ce lp lp')
    as (cc & rpbs & apbs & Hrun & _ & Hrev & Happ & Hd & Hh & Hcd);
    [naive_solver|done|done|done|rewrite Htip; eauto|].
  exists cc. split; [done|]. split; [naive_solver|done| |done| |done].
  - destruct (follow_split _ _ _ Hf) as (kept & -> & ->).
    exists kept, (ce_RevertedBlocks ce), (ce_AppliedBlocks ce), rpbs, apbs. split_and!; try done.
    intros Hnn ->. destruct Hlp as [[? _]|[_ Hl]]; [done|]. cbn in Hl. rewrite length_reverse in Hl. lia.
  - by eapply (change_carries r sigma n (cs_db s) Hn Hc h Hroot ce lp lp').
Qed.

(** ** The rule *)

(** What the subscriber knows of the path and of the state of the consensus
    set. *)
Context (J : tree -> list BlockID -> T -> Prop) (K : DB -> T -> Prop).

(** The subscriber is where the path [lp] ends, and knew an earlier state. *)
Definition arrived (d : DB) (lp : list BlockID) (x : T) : Prop :=
  lp = [] /\ initial x \/
  J (db_BlockMap d) lp x /\ exists d0, grows (db_BlockMap d0) (db_BlockMap d) /\ K d0 x.

Record keeps_up : Prop := mkKeepsUp {
  ku_grow t t' lp x : grows t t' -> chained t lp -> J t lp x -> J t' lp x;
  ku_ledger d d' x : grows (db_BlockMap d) (db_BlockMap d') -> ledger d' = ledger d ->
    K d x -> K d' x;
  ku_own d lp x x' : J (db_BlockMap d) lp x -> K d x -> own_step d x x' ->
    J (db_BlockMap d) lp x' /\ K d x';
  ku_change d lp lp' cc x x' :
    change_between d lp lp' cc -> arrived d lp x ->
    process d cc x = Ret () x' -> J (db_BlockMap d) lp' x' /\ K d x'
}.

Context (Hkeep : keeps_up).

Lemma deliver_one n s synced ce lp lp' x x' :
  below_forks n -> reachable r n s ->
  lp = [] /\ ce = genesisEntry \/
    chained (db_BlockMap (cs_db s)) lp /\ (length (ce_RevertedBlocks ce) < length lp)%nat ->
  chained (db_BlockMap (cs_db s)) lp' -> follow ce lp = Some lp' -> ce_AppliedBlocks ce <> [] ->
  arrived (cs_db s) lp x ->
  updateSubscribers (fun _ : unit => process (cs_db s)) [tt] synced (cs_db s) ce x = Ret () x' ->
  J (db_BlockMap (cs_db s)) lp' x' /\ K (cs_db s) x'.
Proof.
  intros Hn Hreach Hlp Hch' Hf Hne Hx Hrun.
  destruct (change_computed_between n s synced ce lp lp' Hn Hreach Hlp Hch' Hf Hne) as (cc & Hcc & Hb).
  unfold updateSubscribers in Hrun. rewrite Hcc in Hrun. cbn [for_each] in Hrun. inv_run.
  match goal with H : process _ _ _ = Ret ?u _ |- _ => destruct u end.
  by eapply (ku_change Hkeep).
Qed.

Lemma deliver_all n s synced l : forall lp lp' x x',
  below_forks n -> reachable r n s -> l <> [] ->
  change_trace (db_BlockMap (cs_db s)) l lp -> follow_all l lp = Some lp' ->
  J (db_BlockMap (cs_db s)) lp x ->
  (exists d0, grows (db_BlockMap d0) (db_BlockMap (cs_db s)) /\ K d0 x) ->
  deliver synced (cs_db s) l x = Ret () x' -> J (db_BlockMap (cs_db s)) lp' x' /\ K (cs_db s) x'.
Proof.
  induction l as [|ce l IH]; intros lp lp' x x' Hn Hreach Hl Htr Hf HJ HK Hrun; [done|].
  destruct Htr as (Hch & Hne & Hlen & lp1 & Hf1 & _ & Htr).
  unfold follow_all in Hf. cbn [foldl mbind option_bind] in Hf. rewrite Hf1 in Hf.
  unfold deliver in Hrun. cbn [for_each] in Hrun. inv_run.
  match goal with H : updateSubscribers _ _ _ _ _ _ = Ret ?u ?y |- _ => destruct u; rename y into x1;
    apply (deliver_one n s synced ce lp lp1) in H as [HJ1 HK1]; [|done|done|by right| |done|done|by right] end.
  2: by destruct l, Htr.
  destruct (decide (l = [])) as [->|Hl'].
  - cbn in Hf. injection Hf as <-. match goal with H : for_each _ [] _ = _ |- _ => by injection H as <- end.
  - by eapply IH; [..|exists (cs_db s); split; [apply grows_refl|]|].
Qed.

(** ** Progress *)

(** On a state with [G] the handler takes every change, except for a panic of
    the kind [Q]. *)
Definition proceeds (G : DB -> Prop) (Q : DB -> string -> Prop) : Prop := forall d lp lp' cc x,
  G d -> change_between d lp lp' cc -> arrived d lp x ->
  match process d cc x with Ret _ _ => True | Err _ _ => False | Panic msg => Q d msg end.

Lemma deliver_proceeds G Q n s synced l : proceeds G Q -> G (cs_db s) -> forall lp lp' x,
  below_forks n -> reachable r n s ->
  change_trace (db_BlockMap (cs_db s)) l lp -> follow_all l lp = Some lp' ->
  J (db_BlockMap (cs_db s)) lp x ->
  (exists d0, grows (db_BlockMap d0) (db_BlockMap (cs_db s)) /\ K d0 x) ->
  match deliver synced (cs_db s) l x with
  | Ret _ _ => True | Err _ _ => False | Panic msg => Q (cs_db s) msg end.
Proof.
  intros HQ HG. induction l as [|ce l IH]; intros lp lp' x Hn Hreach Htr Hf HJ HK; [done|].
  destruct Htr as (Hch & Hne & Hlen & lp1 & Hf1 & _ & Htr).
  unfold follow_all in Hf. cbn [foldl mbind option_bind] in Hf. rewrite Hf1 in Hf.
  assert (Hch1 : chained (db_BlockMap (cs_db s)) lp1) by (by destruct l, Htr).
  destruct (change_computed_between n s synced ce lp lp1 Hn Hreach) as (cc & Hcc & Hb); [by right|done..|].
  pose proof (HQ (cs_db s) lp lp1 cc x HG Hb (or_intror (conj HJ HK))) as Hp.
  assert (Hu : updateSubscribers (fun _ : unit => process (cs_db s)) [tt] synced (cs_db s) ce =
    for_each (fun _ => process (cs_db s) cc) [tt]) by (unfold updateSubscribers; by rewrite Hcc).
  unfold deliver. cbn [for_each]. rewrite Hu. cbn [for_each].
  unfold mbind, M_bind, mret, M_ret. destruct (process (cs_db s) cc x) as [[] x1|e x1|msg] eqn:Hrun; [|done..].
  destruct (ku_change Hkeep _ _ _ _ _ _ Hb (or_intror (conj HJ HK)) Hrun) as [HJ1 HK1].
  apply (IH lp1 lp'); try done. exists (cs_db s). split; [apply grows_refl|done].
Qed.

(** An invariant that is kept by one change at a time holds of the subscriber
    whenever the lock is free. *)
Lemma node_keeps n s x :
  below_forks n -> node n s x ->
  exists lp, path_list (cs_db s) lp /\ chained (db_BlockMap (cs_db s)) lp /\
    J (db_BlockMap (cs_db s)) lp x /\ K (cs_db s) x.
Proof.
  intros Hn Hnode. revert Hn.
  induction Hnode as [d synced x x' Hd Hi Hrun|n s x clock blocks e s' new synced x' Hs IH Hadm Hrun Hpub Hdel
    |n s x clock blocks e s' Hs IH Hadm Hrun|n s x x' Hs IH Hown]; intros Hn.
  - pose proof (reachable_new r d Hd) as Hreach.
    destruct (reachable_published r 1 (new_set d) Hr Hn Hreach) as (lp & Hf & Hpath & Htr & _).
    cbn in Hf. injection Hf as <-. exists [GenesisID]. destruct Htr as [Hch _].
    unfold deliver in Hrun. cbn [for_each] in Hrun. inv_run.
    match goal with H : updateSubscribers _ _ _ _ _ _ = Ret ?u ?y |- _ => destruct u;
      apply (deliver_one 1 (new_set d) synced genesisEntry [] [GenesisID]) in H as [HJ1 HK1] end;
      try done; by left.
  - assert (Hn' : below_forks n) by (eapply below_forks_le; [|done]; lia).
    destruct (IH Hn') as (lp & Hpath & Hch & HJ & HK).
    pose proof (node_reachable _ _ _ Hs) as Hreach.
    pose proof (managedAcceptBlocks_ok r Hr n clock blocks s Hn (reachable_cs_ok r _ _ Hr Hn' Hreach) Hadm) as Ho.
    rewrite Hrun in Ho. destruct Ho as (_ & new' & Hne & Hpub' & [_ Hp Hg _ Ht] & _).
    rewrite Hpub in Hpub'. apply app_inv_head in Hpub' as <-.
    destruct (Hp lp Hpath) as (lp' & Hf & Hpath').
    assert (Hreach' : reachable r (n + Z.of_nat (length blocks)) s') by (by eapply reachable_accept).
    exists lp'. pose proof (reachable_cs_ok r _ _ Hr Hn Hreach') as Hok'.
    split; [done|]. split; [exact (path_chained r _ _ _ Hn Hok' Hpath')|].
    apply (deliver_all (n + Z.of_nat (length blocks)) s' synced new lp lp' x x'); eauto.
    by eapply (ku_grow Hkeep).
  - assert (Hn' : below_forks n) by (eapply below_forks_le; [|done]; lia).
    destruct (IH Hn') as (lp & Hpath & Hch & HJ & HK).
    pose proof (node_reachable _ _ _ Hs) as Hreach.
    pose proof (managedAcceptBlocks_ok r Hr n clock blocks s Hn (reachable_cs_ok r _ _ Hr Hn' Hreach) Hadm) as Ho.
    rewrite Hrun in Ho. destruct Ho as (Hok' & _ & _ & Hdb). exists lp.
    destruct Hdb as [->|[_ [_ Hp Hg Hl _]]]; [done|]. destruct (Hp lp Hpath) as (lp' & [= <-] & Hpath').
    split_and!; [done|exact (path_chained r _ _ _ Hn Hok' Hpath')|by eapply (ku_grow Hkeep)|].
    by eapply (ku_ledger Hkeep); [..|apply Hl|].
  - destruct (IH Hn) as (lp & Hpath & Hch & HJ & HK). exists lp.
    destruct (ku_own Hkeep (cs_db s) lp x x' HJ HK Hown). done.
Qed.

Lemma node_proceeds G Q n s x clock blocks extended s' new synced :
  proceeds G Q -> G (cs_db s') -> below_forks (n + Z.of_nat (length blocks)) -> node n s x -> Forall admissible blocks ->
  managedAcceptBlocks clock blocks s = Ret extended s' -> cs_published s' = cs_published s ++ new ->
  match deliver synced (cs_db s') new x with
  | Ret _ _ => True | Err _ _ => False | Panic msg => Q (cs_db s') msg end.
Proof.
  intros HQ HG Hn Hs Hadm Hrun Hpub.
  assert (Hn' : below_forks n) by (eapply below_forks_le; [|done]; lia).
  destruct (node_keeps n s x Hn' Hs) as (lp & Hpath & Hch & HJ & HK).
  pose proof (node_reachable _ _ _ Hs) as Hreach.
  pose proof (managedAcceptBlocks_ok r Hr n clock blocks s Hn (reachable_cs_ok r _ _ Hr Hn' Hreach) Hadm) as Ho.
  rewrite Hrun in Ho. destruct Ho as (_ & new' & _ & Hpub' & [_ Hp Hg _ Ht] & _).
  rewrite Hpub in Hpub'. apply app_inv_head in Hpub' as <-.
  destruct (Hp lp Hpath) as (lp' & Hf & _).
  apply (deliver_proceeds G Q (n + Z.of_nat (length blocks)) s' synced new HQ HG lp lp' x); auto.
  - by eapply reachable_accept.
  - by eapply (ku_grow Hkeep).
  - exists (cs_db s). by split.
Qed.
End node.
