(* ===== verification/Ledger.v ===== *)
(** * Trying transactions does not look at the tree of blocks

    Two databases with the same ledger, that is, the same outputs, contracts,
    pools, path and height, give the same result for a transaction set, whatever
    blocks their trees hold.  Blocks that do not extend the current path only
    change the tree, so that they leave the transaction pool valid. *)

From S2P Require Import Prelude Bytes Interfaces Currency Types Params Encoding Transactions.
From S2P Require Import Signatures ValidTransaction ConsensusDB ApplyTransaction ConsensusValid.
From S2P Require Import ChainAccept.

Open Scope Z_scope.

(** Two runs that look the same through [v]: the same result, and states that
    look the same. *)
Section alike.
Context {S V : Type} (v : S -> V).

Definition alike_outcome {A} (o o' : outcome S A) : Prop :=
  match o, o' with
  | Ret a s, Ret a' s' => a = a' /\ v s = v s'
  | Err e s, Err e' s' => e = e' /\ v s = v s'
  | Panic msg, Panic msg' => msg = msg'
  | _, _ => False
  end.

Definition alike {A} (m m' : M S A) : Prop := forall s s', v s = v s' -> alike_outcome (m s) (m' s').

Lemma alike_ret {A} (a : A) : alike (mret a) (mret a).
Proof. by intros s s'. Qed.
Lemma alike_throw {A} e : alike (throw e : M S A) (throw e).
Proof. by intros s s'. Qed.
Lemma alike_panic {A} msg : alike (panic msg : M S A) (panic msg).
Proof. by intros s s'. Qed.
Lemma alike_panic_if b msg : alike (panic_if b msg) (panic_if b msg).
Proof. destruct b; [apply alike_panic|apply alike_ret]. Qed.
Lemma alike_check e : alike (check e) (check e).
Proof. destruct e; [apply alike_throw|apply alike_ret]. Qed.
Lemma alike_gets {A} (f : S -> A) : (forall s s', v s = v s' -> f s = f s') -> alike (gets f) (gets f).
Proof. intros Hf s s' Hv. split; [by apply Hf|done]. Qed.
Lemma alike_modify f f' : (forall s s', v s = v s' -> v (f s) = v (f' s')) -> alike (modify f) (modify f').
Proof. intros Hf s s' Hv. split; [done|by apply Hf]. Qed.
Lemma alike_bind {A X} (m m' : M S A) (k k' : A -> M S X) :
  alike m m' -> (forall a, alike (k a) (k' a)) -> alike (m ≫= k) (m' ≫= k').
Proof.
  intros Hm Hk s s' Hv. specialize (Hm s s' Hv). unfold mbind, M_bind.
  destruct (m s), (m' s'); try done. destruct Hm as [-> Hv']. by apply Hk.
Qed.
Lemma alike_get {X} (k k' : S -> M S X) :
  (forall s s', v s = v s' -> alike (k s) (k' s')) -> alike (get ≫= k) (get ≫= k').
Proof. intros Hk s s' Hv. by apply (Hk s s'). Qed.
Lemma alike_for_each {A} (body body' : A -> M S ()) l :
  (forall x, alike (body x) (body' x)) -> alike (for_each body l) (for_each body' l).
Proof. intros Hb. induction l; cbn; [apply alike_ret|]. apply alike_bind; auto. Qed.
Lemma alike_for_fold {A X} (body body' : Z -> A -> X -> M S X) i l b :
  (forall i x b, alike (body i x b) (body' i x b)) -> alike (for_fold body i l b) (for_fold body' i l b).
Proof.
  intros Hb. revert i b. induction l; intros i b; cbn; [apply alike_ret|]. apply alike_bind; auto.
Qed.
End alike.

(** The part of the state a transaction works on. *)
Definition txn_view (s : blockState) := (ledger (bs_db s), bs_pb s).

Lemma alike_on_db {A} (m m' : M DB A) : alike ledger m m' -> alike txn_view (on_db m) (on_db m').
Proof.
  intros Hm s s' [Hl Hp]%pair_equal_spec. specialize (Hm _ _ Hl). unfold on_db.
  destruct (m (bs_db s)), (m' (bs_db s')); try done; destruct Hm as [-> Hv];
    (split; [done|]); by apply pair_equal_spec.
Qed.

(** Closes the side conditions: the fields the ledger names are equal. *)
Ltac same_fields :=
  let s := fresh in let s' := fresh in let H := fresh in
  intros s s' H; unfold txn_view, ledger in *; destruct s, s'; cbn in *;
  injection H; intros; first [subst; reflexivity|congruence].

Create HintDb alike.

Ltac alike_run :=
  intros; cbv beta zeta;
  unfold record_scod, record_fcd, record_sfod, record_dscod, record_sfpd, modify_pb, get_or_zero,
    for_index, nil_bucket;
  repeat lazymatch goal with
  | |- alike _ (get ≫= _) _ => apply alike_get;
      let s := fresh "s" in let s' := fresh "s" in let H := fresh in
      intros s s' H; unfold txn_view, ledger in H; destruct s, s'; cbn in H; injection H; intros; subst; cbn
  | |- alike _ (_ ≫= _) _ => apply alike_bind; [|intros ?]
  | |- alike _ (mret _) _ => apply alike_ret
  | |- alike _ (throw _) _ => apply alike_throw
  | |- alike _ (panic _) _ => apply alike_panic
  | |- alike _ (panic_if _ _) _ => apply alike_panic_if
  | |- alike _ (check _) _ => apply alike_check
  | |- alike _ (gets _) _ => apply alike_gets; same_fields
  | |- alike _ (modify _) _ => apply alike_modify; same_fields
  | |- alike _ (for_each _ _) _ => apply alike_for_each; intros ?
  | |- alike _ (for_fold _ _ _ _) _ => apply alike_for_fold; intros ???
  | |- alike _ (match ?x with _ => _ end) _ => destruct x
  | |- alike _ (on_db _) _ => apply alike_on_db
  | |- alike _ _ _ => solve [eauto with alike]
  end.

Section ledger.
Context {B : Build} {P : Params} {C : Crypto} {E : SiaEncoding}.

(** [m] gives the same result on databases that differ in their trees. *)
Local Abbreviation blind m := (alike ledger m m).
Local Abbreviation blind_txn m := (alike txn_view m m).

Lemma blind_addSiacoinOutput id sco : blind (addSiacoinOutput id sco).
Proof. unfold addSiacoinOutput, isSiacoinOutput. alike_run. Qed.
Lemma blind_removeSiacoinOutput id : blind (removeSiacoinOutput id).
Proof. unfold removeSiacoinOutput, isSiacoinOutput. alike_run. Qed.
Lemma blind_addFileContract id fc : blind (addFileContract id fc).
Proof. unfold addFileContract, getFileContract. alike_run. Qed.
Lemma blind_removeFileContract id : blind (removeFileContract id).
Proof. unfold removeFileContract, getFileContract. alike_run. Qed.
Lemma blind_addSiafundOutput id sfo : blind (addSiafundOutput id sfo).
Proof. unfold addSiafundOutput. alike_run. Qed.
Lemma blind_removeSiafundOutput id : blind (removeSiafundOutput id).
Proof. unfold removeSiafundOutput. alike_run. Qed.
Lemma blind_addDSCO h id sco : blind (addDSCO h id sco).
Proof. unfold addDSCO, isSiacoinOutput. alike_run. Qed.
Lemma blind_removeDSCO h id : blind (removeDSCO h id).
Proof. unfold removeDSCO. alike_run. Qed.
Lemma blind_hardforkPool h : blind (getSiafundHardforkPool h).
Proof. unfold getSiafundHardforkPool. alike_run. Qed.
#[local] Hint Resolve blind_addSiacoinOutput blind_removeSiacoinOutput blind_addFileContract
  blind_removeFileContract blind_addSiafundOutput blind_removeSiafundOutput blind_addDSCO
  blind_removeDSCO blind_hardforkPool : alike.

Lemma blind_siafundClaim sfo : blind (siafundClaim sfo).
Proof. unfold siafundClaim, blockHeight, getSiafundPool. alike_run. Qed.
Lemma blind_commitSiacoinOutputDiff d dir : blind (commitSiacoinOutputDiff d dir).
Proof. unfold commitSiacoinOutputDiff. alike_run. Qed.
Lemma blind_commitFileContractDiff d dir : blind (commitFileContractDiff d dir).
Proof. unfold commitFileContractDiff. alike_run. Qed.
Lemma blind_commitSiafundOutputDiff d dir : blind (commitSiafundOutputDiff d dir).
Proof. unfold commitSiafundOutputDiff. alike_run. Qed.
Lemma blind_commitDelayedSiacoinOutputDiff d dir : blind (commitDelayedSiacoinOutputDiff d dir).
Proof. unfold commitDelayedSiacoinOutputDiff. alike_run. Qed.
Lemma blind_commitSiafundPoolDiff d dir : blind (commitSiafundPoolDiff d dir).
Proof. unfold commitSiafundPoolDiff, getSiafundPool, setSiafundPool. alike_run. Qed.
#[local] Hint Resolve blind_siafundClaim blind_commitSiacoinOutputDiff
  blind_commitFileContractDiff blind_commitSiafundOutputDiff
  blind_commitDelayedSiacoinOutputDiff blind_commitSiafundPoolDiff : alike.

Lemma blind_applySiacoinInputs t : blind_txn (applySiacoinInputs t).
Proof. unfold applySiacoinInputs, getSiacoinOutput. alike_run. Qed.
Lemma blind_applySiacoinOutputs t : blind_txn (applySiacoinOutputs t).
Proof. unfold applySiacoinOutputs. alike_run. Qed.
Lemma blind_applyFileContracts t : blind_txn (applyFileContracts t).
Proof. unfold applyFileContracts, getSiafundPool, blockHeight. alike_run. Qed.
Lemma blind_applyFileContractRevisions t : blind_txn (applyFileContractRevisions t).
Proof. unfold applyFileContractRevisions, getFileContract. alike_run. Qed.
Lemma blind_applyStorageProofs t : blind_txn (applyStorageProofs t).
Proof. unfold applyStorageProofs, getFileContract. alike_run. Qed.
Lemma blind_applySiafundInputs t : blind_txn (applySiafundInputs t).
Proof. unfold applySiafundInputs, getSiafundOutput. alike_run. Qed.
Lemma blind_applySiafundOutputs t : blind_txn (applySiafundOutputs t).
Proof. unfold applySiafundOutputs, getSiafundPool. alike_run. Qed.
#[local] Hint Resolve blind_applySiacoinInputs blind_applySiacoinOutputs
  blind_applyFileContracts blind_applyFileContractRevisions blind_applyStorageProofs
  blind_applySiafundInputs blind_applySiafundOutputs : alike.

Lemma blind_applyTransaction t : blind_txn (applyTransaction t).
Proof. unfold applyTransaction. alike_run. Qed.

Lemma blind_validSiacoins t : blind (validSiacoins t).
Proof. unfold validSiacoins, getSiacoinOutput. alike_run. Qed.
Lemma blind_storageProofSegment id : blind (storageProofSegment id).
Proof. unfold storageProofSegment, getFileContract, blockHeight, getPath. alike_run. Qed.
Lemma blind_get_fc_or_err id : blind (get_fc_or_err id).
Proof. unfold get_fc_or_err, getFileContract. alike_run. Qed.
#[local] Hint Resolve blind_validSiacoins blind_storageProofSegment blind_get_fc_or_err : alike.
Lemma blind_validStorageProofs100e3 t : blind (validStorageProofs100e3 t).
Proof. unfold validStorageProofs100e3, blockHeight. alike_run. Qed.
#[local] Hint Resolve blind_validStorageProofs100e3 : alike.
Lemma blind_validStorageProofs t : blind (validStorageProofs t).
Proof. unfold validStorageProofs, blockHeight. alike_run. Qed.
Lemma blind_validFileContractRevisions t : blind (validFileContractRevisions t).
Proof. unfold validFileContractRevisions, blockHeight. alike_run. Qed.
Lemma blind_validSiafunds t : blind (validSiafunds t).
Proof. unfold validSiafunds, getSiafundOutput. alike_run. Qed.
#[local] Hint Resolve blind_validStorageProofs blind_validFileContractRevisions
  blind_validSiafunds blind_applyTransaction : alike.
Lemma blind_validTransaction t : blind (validTransaction t).
Proof. unfold validTransaction, blockHeight, lift_err. alike_run. Qed.
#[local] Hint Resolve blind_validTransaction : alike.

(** The diffs of a transaction set depend on the ledger alone. *)
Lemma tryTransactionSet_ledger d d' txns :
  ledger d = ledger d' ->
  match tryTransactionSet txns d, tryTransactionSet txns d' with
  | Ret pb _, Ret pb' _ => pb = pb'
  | Err e _, Err e' _ => e = e'
  | Panic msg, Panic msg' => msg = msg'
  | _, _ => False
  end.
Proof.
  intros Hl. assert (Hh : db_BlockHeight d = db_BlockHeight d') by (unfold ledger in Hl; congruence).
  unfold tryTransactionSet. rewrite Hh.
  assert (Ha : blind_txn (for_each (fun txn => _ ← on_db (validTransaction txn);
                            applyTransaction txn) txns)) by alike_run.
  specialize (Ha (mkBlockState d (diffHolder (db_BlockHeight d')))
                 (mkBlockState d' (diffHolder (db_BlockHeight d')))).
  unfold txn_view in Ha at 1 2. cbn [bs_db bs_pb] in Ha. rewrite Hl in Ha. specialize (Ha eq_refl).
  destruct (for_each _ _ _), (for_each _ _ _); cbn in Ha; try done; [|by destruct Ha].
  by destruct Ha as [_ [_ ?]%pair_equal_spec].
Qed.

End ledger.
