(* ===== verification/HostTree.v ===== *)
(** * The host tree

    modules/renter/hostdb/hosttree: hosts in a binary tree whose nodes carry
    the sum of the weights below them, so that a random weight picks a host
    with a probability proportional to its weight.

    A pointer to a node is the path to it from the root: nodes are never moved
    or freed.  The random source, the resolver, the weight function and the
    order in which the iteration over a Go map and [sort.Sort] return entries
    are arguments. *)

From S2P Require Import Prelude Bytes Currency Types.

Open Scope Z_scope.

(** ** Keys *)

Definition hex_digit (z : Z) : byte := zb (if z <? 10 then 48 + z else 87 + z).
Definition hex_EncodeToString (l : bytes) : bytes :=
  concat ((fun b => [hex_digit (bz b / 16); hex_digit (bz b mod 16)]) <$> l).

(** [bytes.TrimRight] of NUL bytes. *)
Fixpoint trim_left_zeros (l : bytes) : bytes :=
  match l with
  | b :: l' => if bz b =? 0 then trim_left_zeros l' else l
  | [] => []
  end.
Definition Specifier_String (s : Specifier) : bytes :=
  reverse (trim_left_zeros (reverse (vec_to_list s))).

(** An ed25519 key is encoded into a buffer for 32 bytes, which a longer key
    overruns: [None] is that panic. *)
Definition SiaPublicKey_String (spk : SiaPublicKey) : option bytes :=
  if bool_decide (spk_Algorithm spk = SignatureEd25519) then
    if (32 <? length (spk_Key spk))%nat then None
    else
      let buf := String.list_byte_of_string "ed25519:" ++ hex_EncodeToString (spk_Key spk) in
      Some (buf ++ replicate (72 - length buf) Byte.x00)
  else
    Some (Specifier_String (spk_Algorithm spk) ++ String.list_byte_of_string ":" ++
          hex_EncodeToString (spk_Key spk)).
Definition key_of {S} (spk : SiaPublicKey) : M S bytes :=
  match SiaPublicKey_String spk with
  | Some key => mret key
  | None => panic "index out of range"
  end.

(** ** Entries and nodes *)

(** The fields of modules.HostDBEntry that the package looks at, and the
    others. *)
Record HostDBEntry (R : Type) := mkHostDBEntry {
  hdb_PublicKey : SiaPublicKey;
  hdb_NetAddress : bytes;
  hdb_AcceptingContracts : bool;
  hdb_ScanHistory : list bool; (* Success of each scan *)
  hdb_Filtered : bool;
  hdb_rest : R
}.
Arguments mkHostDBEntry {R} _ _ _ _ _ _.
Arguments hdb_PublicKey {R} _.
Arguments hdb_NetAddress {R} _.
Arguments hdb_AcceptingContracts {R} _.
Arguments hdb_ScanHistory {R} _.
Arguments hdb_Filtered {R} _.
Arguments hdb_rest {R} _.

Record hostEntry (R : Type) := mkHostEntry {
  he_HostDBEntry : HostDBEntry R;
  he_weight : Currency
}.
Arguments mkHostEntry {R} _ _.
Arguments he_HostDBEntry {R} _.
Arguments he_weight {R} _.

Definition he_PublicKey {R} (e : hostEntry R) : SiaPublicKey := hdb_PublicKey (he_HostDBEntry e).

(** A node, or [nil]. *)
Inductive node (R : Type) :=
| Nil
| Node (left right : node R) (count : Z) (taken : bool) (weight : Currency)
       (entry : option (hostEntry R)).
Arguments Nil {R}.
Arguments Node {R} left right count taken weight entry.

Inductive side := L | R'.
#[export] Instance side_eq_dec : EqDecision side.
Proof. solve_decision. Defined.
Abbreviation path := (list side).

Section tree.
Context {R : Type}.
Implicit Types (n : node R) (e : hostEntry R).

Definition is_nil n : bool := match n with Nil => true | _ => false end.
Definition node_count n : Z := match n with Nil => 0 | Node _ _ c _ _ _ => c end.
Definition node_weight n : Currency :=
  match n with Nil => Currency.ZeroCurrency | Node _ _ _ _ w _ => w end.

Definition createNode e : node R := Node Nil Nil 1 true (he_weight e) (Some e).

(** The new tree, the number of nodes added and the node of the entry;
    [parent] is whether the node has one.  Not called on [nil]. *)
Fixpoint recursiveInsert (parent : bool) n e : node R * Z * path :=
  match n with
  | Nil => (Nil, 0, [])
  | Node l r count taken weight entry =>
      if negb parent && is_nil l && is_nil r && negb taken
      then (Node l r count true (he_weight e) (Some e), 0, [])
      else
        let weight := Currency.Add weight (he_weight e) in
        if negb taken then (Node l r count true weight (Some e), 0, [])
        else if is_nil l then (Node (createNode e) r (count + 1) taken weight entry, 1, [L])
        else if is_nil r then (Node l (createNode e) (count + 1) taken weight entry, 1, [R'])
        else if node_count l <=? node_count r then
          let '(l', nodesAdded, p) := recursiveInsert true l e in
          (Node l' r (count + nodesAdded) taken weight entry, nodesAdded, L :: p)
        else
          let '(r', nodesAdded, p) := recursiveInsert true r e in
          (Node l r' (count + nodesAdded) taken weight entry, nodesAdded, R' :: p)
  end.

(** [None]: a corrupted tree, on which the code reports a critical error and
    returns [nil]. *)
Fixpoint nodeAtWeight n (weight : Currency) : option path :=
  match n with
  | Nil => None
  | Node l r _ taken w _ =>
      if 0 <? Currency.Cmp weight w then None
      else if negb (is_nil l) && (Currency.Cmp weight (node_weight l) <? 0)
      then cons L <$> nodeAtWeight l weight
      else
        let weight := if is_nil l then weight else Currency.Sub weight (node_weight l) in
        if negb (is_nil r) && (Currency.Cmp weight (node_weight r) <? 0)
        then cons R' <$> nodeAtWeight r weight
        else if taken then Some [] else None
  end.

(** The node of a path, and its entry. *)
Fixpoint node_at n (p : path) : node R :=
  match n, p with
  | _, [] => n
  | Nil, _ => Nil
  | Node l r _ _ _ _, L :: p => node_at l p
  | Node l r _ _ _ _, R' :: p => node_at r p
  end.
Definition node_entry n (p : path) : option (hostEntry R) :=
  match node_at n p with Node _ _ _ _ _ entry => entry | Nil => None end.

(** The weight is taken off the node and all nodes above it. *)
Fixpoint take_weight n (p : path) (w : Currency) : node R :=
  match n with
  | Nil => Nil
  | Node l r count taken weight entry =>
      let weight := Currency.Sub weight w in
      match p with
      | [] => Node l r count false weight entry
      | L :: p => Node (take_weight l p w) r count taken weight entry
      | R' :: p => Node l (take_weight r p w) count taken weight entry
      end
  end.
(** [None]: the node has no entry, whose weight is read. *)
Definition remove n (p : path) : option (node R) :=
  e ← node_entry n p; Some (take_weight n p (he_weight e)).

End tree.

(** ** The address filter *)

Definition IPv4FilterRange : Z := 24.
Definition IPv6FilterRange : Z := 54.
Definition IP : Type := bytes.

(** [net.IP.To4]. *)
Definition To4 (ip : IP) : option bytes :=
  if (length ip =? 4)%nat then Some ip
  else if (length ip =? 16)%nat &&
          bool_decide (take 12 ip = replicate 10 Byte.x00 ++ [Byte.xff; Byte.xff])
  then Some (drop 12 ip)
  else None.

(** The first [n] bits of the bytes, zeros after. *)
Fixpoint mask_bits (n : Z) (l : bytes) : bytes :=
  match l with
  | [] => []
  | b :: l =>
      let keep := (n `max` 0) `min` 8 in
      zb (Z.shiftl (Z.shiftr (bz b) (8 - keep)) (8 - keep)) :: mask_bits (n - 8) l
  end.

(** The network [net.ParseCIDR] finds for the address and the filter range;
    an address that is neither of 4 nor of 16 bytes does not parse. *)
Definition subnet (ip : IP) : option bytes :=
  match To4 ip with
  | Some ip4 => Some (mask_bits IPv4FilterRange ip4)
  | None => if (length ip =? 16)%nat then Some (mask_bits IPv6FilterRange ip) else None
  end.

Record Filter := mkFilter {
  f_filter : gmap bytes Z; (* the number of hosts of a subnet *)
  f_iprestriction : Z
}.
Definition NewFilter (allowedhosts : Z) : Filter := mkFilter ∅ allowedhosts.

Section filter.
(** [LookupIP] of the host part of an address; [None] is an error. *)
Context (LookupIP : bytes -> option (list IP)).

Definition add_ip (m : gmap bytes Z) (ip : IP) : gmap bytes Z :=
  match subnet ip with
  | None => m
  | Some ipnet => <[ipnet := match m !! ipnet with Some used => used + 1 | None => 1 end]> m
  end.
Definition Filter_Add (af : Filter) (host : bytes) : Filter :=
  match LookupIP host with
  | None => af
  | Some addresses => mkFilter (foldl add_ip (f_filter af) addresses) (f_iprestriction af)
  end.

(** The loop of [Filtered]: the first subnet that is known decides. *)
Fixpoint filtered_by (af : Filter) (addresses : list IP) : bool :=
  match addresses with
  | [] => false
  | ip :: addresses =>
      match subnet ip with
      | None => filtered_by af addresses
      | Some ipnet =>
          match f_filter af !! ipnet with
          | Some used => f_iprestriction af <=? used
          | None => filtered_by af addresses
          end
      end
  end.
Definition Filtered (af : Filter) (host : bytes) : bool :=
  match LookupIP host with
  | None => true
  | Some addresses =>
      if (2 <? length addresses)%nat then true
      else
        match addresses with
        | [a; b] => if (length a =? length b)%nat then true else filtered_by af addresses
        | _ => filtered_by af addresses
        end
  end.
End filter.

(** ** The host tree *)

Record HostTree (R : Type) := mkHostTree {
  ht_root : node R;
  ht_hosts : gmap bytes path;
  ht_weightFn : HostDBEntry R -> Currency; (* weightFn(entry).Score() *)
  ht_iprestriction : Z
}.
Arguments mkHostTree {R} _ _ _ _.
Arguments ht_root {R} _.
Arguments ht_hosts {R} _.
Arguments ht_weightFn {R} _.
Arguments ht_iprestriction {R} _.

Section host_tree.
Context {R : Type}.
Abbreviation HT := (HostTree R).

Definition empty_root : node R := Node Nil Nil 1 false Currency.ZeroCurrency None.
Definition New (wf : HostDBEntry R -> Currency) : HT := mkHostTree empty_root ∅ wf 0.

Definition set_root (n : node R) (ht : HT) : HT :=
  mkHostTree n (ht_hosts ht) (ht_weightFn ht) (ht_iprestriction ht).
Definition set_hosts (m : gmap bytes path) (ht : HT) : HT :=
  mkHostTree (ht_root ht) m (ht_weightFn ht) (ht_iprestriction ht).

(** [node.remove()]. *)
Definition remove_node (p : path) : M HT () :=
  ht ← get;
  match remove (ht_root ht) p with
  | None => panic "nil pointer dereference"
  | Some root => modify (set_root root)
  end.
(** [node.entry]. *)
Definition entry_of (p : path) : M HT (hostEntry R) :=
  ht ← get;
  match node_entry (ht_root ht) p with
  | None => panic "nil pointer dereference"
  | Some e => mret e
  end.
(** [_, node := ht.root.recursiveInsert(entry); ht.hosts[key] = node]. *)
Definition insert_entry (e : hostEntry R) : M HT () :=
  key ← key_of (he_PublicKey e);
  ht ← get;
  let '(root, _, p) := recursiveInsert false (ht_root ht) e in
  modify (fun ht => set_hosts (<[key := p]> (ht_hosts ht)) (set_root root ht)).
Definition delete_host (key : bytes) : M HT () :=
  modify (fun ht => set_hosts (delete key (ht_hosts ht)) ht).

Definition insert (hdbe : HostDBEntry R) : M HT () :=
  ht ← get;
  let entry := mkHostEntry hdbe (ht_weightFn ht hdbe) in
  key ← key_of (he_PublicKey entry);
  _ ← check (err_if (bool_decide (is_Some (ht_hosts ht !! key))) ErrHostExists);
  insert_entry entry.
Definition Insert (hdbe : HostDBEntry R) : M HT () := insert hdbe.

Definition Remove (pk : SiaPublicKey) : M HT () :=
  key ← key_of pk;
  ht ← get;
  match ht_hosts ht !! key with
  | None => throw ErrNoSuchHost
  | Some p =>
      _ ← remove_node p;
      delete_host key
  end.

Definition Modify (hdbe : HostDBEntry R) : M HT () :=
  key ← key_of (hdb_PublicKey hdbe);
  ht ← get;
  match ht_hosts ht !! key with
  | None => throw ErrNoSuchHost
  | Some p =>
      _ ← remove_node p;
      insert_entry (mkHostEntry hdbe (ht_weightFn ht hdbe))
  end.

Definition Select (spk : SiaPublicKey) : M HT (option (HostDBEntry R)) :=
  key ← key_of spk;
  ht ← get;
  match ht_hosts ht !! key with
  | None => mret None
  | Some p => e ← entry_of p; mret (Some (he_HostDBEntry e))
  end.

Definition SetFiltered (pubKey : SiaPublicKey) (filtered : bool) : M HT () :=
  entry ← Select pubKey;
  match entry with
  | None => throw ErrNoSuchHost
  | Some h =>
      Modify (mkHostDBEntry (hdb_PublicKey h) (hdb_NetAddress h) (hdb_AcceptingContracts h)
                (hdb_ScanHistory h) filtered (hdb_rest h))
  end.

(** The entries of a list of nodes. *)
Fixpoint entries_of (ps : list path) : M HT (list (hostEntry R)) :=
  match ps with
  | [] => mret []
  | p :: ps => e ← entry_of p; es ← entries_of ps; mret (e :: es)
  end.
(** [all], with the order the iteration over the map and the sort by weight
    leave the entries in. *)
Definition all (order : list (hostEntry R) -> list (hostEntry R)) : M HT (list (HostDBEntry R)) :=
  ht ← get;
  he ← entries_of (snd <$> map_to_list (ht_hosts ht));
  mret (he_HostDBEntry <$> order he).
Definition All := all.

(** An error of an insertion is added to the errors returned at the end. *)
Definition insert_tallied (hdbe : HostDBEntry R) (errs : list error) : M HT (list error) := fun ht =>
  match insert hdbe ht with
  | Ret _ ht' => Ret errs ht'
  | Err e ht' => Ret (e :: errs) ht'
  | Panic msg => Panic msg
  end.
(** The composed errors; none is success. *)
Definition SetWeightFunction order (wf : HostDBEntry R -> Currency) : M HT (list error) :=
  allHosts ← all order;
  _ ← modify (fun ht => mkHostTree empty_root ∅ wf (ht_iprestriction ht));
  for_fold (fun _ hdbe errs => insert_tallied hdbe errs) 0 allHosts [].

Definition SetIPRestriction (numhosts : Z) : M HT () :=
  modify (fun ht => mkHostTree (ht_root ht) (ht_hosts ht) (ht_weightFn ht) numhosts).
Definition IPRestriction : M HT Z := gets ht_iprestriction.

(** ** Random selection *)

Section random.
Context (LookupIP : bytes -> option (list IP)).
(** [fastrand.BigIntn], by the number of the call; it panics unless its
    argument is positive. *)
Context (BigIntn : nat -> N -> N).

Definition filter_hosts (addressBlacklist : list SiaPublicKey) (filter : Filter) : M HT Filter :=
  for_fold (fun _ pubkey filter =>
    key ← key_of pubkey;
    ht ← get;
    match ht_hosts ht !! key with
    | None => mret filter
    | Some p => e ← entry_of p; mret (Filter_Add LookupIP filter (hdb_NetAddress (he_HostDBEntry e)))
    end) 0 addressBlacklist filter.

Definition remove_blacklisted (blacklist : list SiaPublicKey) : M HT (list (hostEntry R)) :=
  for_fold (fun _ pubkey removedEntries =>
    key ← key_of pubkey;
    ht ← get;
    match ht_hosts ht !! key with
    | None => mret removedEntries
    | Some p =>
        _ ← remove_node p;
        _ ← delete_host key;
        e ← entry_of p;
        mret (removedEntries ++ [e])
    end) 0 blacklist [].

Definition last_scan_ok (h : HostDBEntry R) : bool :=
  match last (hdb_ScanHistory h) with Some ok => ok | None => false end.
(** The condition on a host that is picked. *)
Definition usable (filter : Filter) (e : hostEntry R) : bool :=
  let h := he_HostDBEntry e in
  hdb_AcceptingContracts h && last_scan_ok h &&
  negb (Filtered LookupIP filter (hdb_NetAddress h)) &&
  (0 <? Currency.Cmp (he_weight e) (Currency.NewCurrency64 1)).

(** Each round removes a host, so [fuel] is the number of hosts. *)
Fixpoint select_loop (fuel : nat) (n : Z) (i : nat) (filter : Filter)
    (hosts : list (HostDBEntry R)) (removedEntries : list (hostEntry R))
  : M HT (list (HostDBEntry R) * list (hostEntry R)) :=
  ht ← get;
  if (Z.of_nat (length hosts) <? n) && bool_decide (ht_hosts ht <> ∅) then
    match fuel with
    | O => panic "diverges"
    | S fuel =>
        _ ← panic_if (Currency.IsZero (node_weight (ht_root ht))) "n must be positive";
        let randWeight := BigIntn i (node_weight (ht_root ht)) in
        match nodeAtWeight (ht_root ht) randWeight with
        | None => panic "nil pointer dereference"
        | Some p =>
            e ← entry_of p;
            let ok := usable filter e in
            let h := he_HostDBEntry e in
            let hosts := if ok then hosts ++ [h] else hosts in
            let filter := if ok && (0 <? ht_iprestriction ht)
                          then Filter_Add LookupIP filter (hdb_NetAddress h) else filter in
            _ ← remove_node p;
            key ← key_of (he_PublicKey e);
            _ ← delete_host key;
            select_loop fuel n (S i) filter hosts (removedEntries ++ [e])
        end
    end
  else mret (hosts, removedEntries).

Definition SelectRandom (n : Z) (blacklist addressBlacklist : list SiaPublicKey)
  : M HT (list (HostDBEntry R)) :=
  ht ← get;
  filter ← filter_hosts addressBlacklist (NewFilter (ht_iprestriction ht));
  removedEntries ← remove_blacklisted blacklist;
  ht ← get;
  '(hosts, removedEntries) ←
    select_loop (size (ht_hosts ht)) n 0 filter [] removedEntries;
  _ ← for_each insert_entry removedEntries;
  mret hosts.

End random.
End host_tree.
