(* ===== verification/HostTreeFacts.v ===== *)
(** * The host tree as a weighted map

    The tree keeps the sums of the weights and the index of the hosts in step
    ([ht_ok]); seen from outside it is a finite map from public keys to entries,
    from which a random weight picks an entry with the frequency its weight
    gives it. *)

From S2P Require Import Prelude Bytes Currency Types HostTree.

Open Scope Z_scope.

Section tree.
Context {R : Type}.
Implicit Types (n l r : node R) (e : hostEntry R) (p q : path).

(** ** The invariant of the nodes *)

Definition own (taken : bool) (entry : option (hostEntry R)) : N :=
  match taken, entry with true, Some e => he_weight e | _, _ => 0%N end.

Fixpoint tree_ok n : Prop :=
  match n with
  | Nil => True
  | Node l r count taken weight entry =>
      count = 1 + node_count l + node_count r /\
      weight = (node_weight l + node_weight r + own taken entry)%N /\
      (taken = true -> is_Some entry) /\ tree_ok l /\ tree_ok r
  end.

(** The host at a node. *)
Definition host_at n p : option (hostEntry R) :=
  match node_at n p with Node _ _ _ true _ entry => entry | _ => None end.

Lemma host_at_L l r c t w en p : host_at (Node l r c t w en) (L :: p) = host_at l p.
Proof. done. Qed.
Lemma host_at_R l r c t w en p : host_at (Node l r c t w en) (R' :: p) = host_at r p.
Proof. done. Qed.
Lemma host_at_Nil p : host_at Nil p = None.
Proof. by destruct p. Qed.

Lemma host_at_entry n p e : host_at n p = Some e -> node_entry n p = Some e.
Proof. unfold host_at, node_entry. by destruct (node_at n p) as [|? ? ? [] ? ?]. Qed.

(** ** Insertion *)

Record inserted n n' (added : Z) p e : Prop := mkInserted {
  ins_ok : tree_ok n';
  ins_weight : node_weight n' = (node_weight n + he_weight e)%N;
  ins_count : node_count n' = node_count n + added;
  ins_free : host_at n p = None;
  ins_hosts : forall q, host_at n' q = if decide (q = p) then Some e else host_at n q
}.

Lemma inserted_new e : inserted Nil (createNode e) 1 [] e.
Proof.
  split; cbn; [naive_solver|done..|].
  unfold createNode. intros [|[] q]; [done|..]; rewrite ?host_at_L, ?host_at_R; by destruct q.
Qed.

Lemma inserted_here l r c w en e :
  tree_ok (Node l r c false w en) ->
  inserted (Node l r c false w en) (Node l r c true (w + he_weight e)%N (Some e)) 0 [] e.
Proof.
  intros (Hc & Hw & _ & Hl & Hr). cbn in Hw. split; cbn; [|done|lia|done|by intros [|[] q]].
  split_and!; try done. lia.
Qed.

Lemma inserted_L l l' r c w en t added p e :
  tree_ok (Node l r c t w en) -> inserted l l' added p e ->
  inserted (Node l r c t w en) (Node l' r (c + added) t (w + he_weight e)%N en) added (L :: p) e.
Proof.
  intros (Hc & Hw & Hen & Hl & Hr) [Ho Hwt Hct Hfree Hh]. split; cbn; [|done..|].
  - split_and!; try done; lia.
  - intros [|[] q]; [done| |done]. rewrite !host_at_L, Hh. repeat case_decide; congruence.
Qed.

Lemma inserted_R l r r' c w en t added p e :
  tree_ok (Node l r c t w en) -> inserted r r' added p e ->
  inserted (Node l r c t w en) (Node l r' (c + added) t (w + he_weight e)%N en) added (R' :: p) e.
Proof.
  intros (Hc & Hw & Hen & Hl & Hr) [Ho Hwt Hct Hfree Hh]. split; cbn; [|done..|].
  - split_and!; try done; lia.
  - intros [|[] q]; [done|done|]. rewrite !host_at_R, Hh. repeat case_decide; congruence.
Qed.

Lemma recursiveInsert_ok b n e n' added p :
  tree_ok n -> n <> Nil -> recursiveInsert b n e = (n', added, p) -> inserted n n' added p e.
Proof.
  revert b n' added p.
  induction n as [|l IHl r IHr c t w en]; intros b n' added p Hok Hne; [done|].
  cbn [recursiveInsert]. pose proof Hok as (Hc & Hw & _ & Hl & Hr).
  destruct (negb b && is_nil l && is_nil r && negb t) eqn:Hroot.
  - apply andb_true_iff in Hroot as [[[_ Hnl]%andb_true_iff Hnr]%andb_true_iff ->%negb_true_iff].
    destruct l, r; try done. cbn in Hw. subst w. injection 1 as <- <- <-.
    exact (inserted_here Nil Nil c 0%N en e Hok).
  - clear Hroot. destruct t; cbn [negb]; [|injection 1 as <- <- <-; by apply inserted_here].
    destruct l as [|ll lr lc lt lw le] eqn:El; cbn [is_nil].
    { injection 1 as <- <- <-. apply inserted_L; [done|]. apply inserted_new. }
    rewrite <- El in *. destruct r as [|rl rr rc rt rw re] eqn:Er; cbn [is_nil].
    { injection 1 as <- <- <-. apply inserted_R; [done|]. apply inserted_new. }
    rewrite <- Er in *. case_match.
    + destruct (recursiveInsert true l e) as [[l' a] pl] eqn:Hrun. injection 1 as <- <- <-.
      apply inserted_L; [done|]. eapply IHl; [done|by rewrite El|exact Hrun].
    + destruct (recursiveInsert true r e) as [[r' a] pr] eqn:Hrun. injection 1 as <- <- <-.
      apply inserted_R; [done|]. eapply IHr; [done|by rewrite Er|exact Hrun].
Qed.

Lemma recursiveInsert_not_Nil b n e n' added p :
  n <> Nil -> recursiveInsert b n e = (n', added, p) -> n' <> Nil.
Proof.
  destruct n as [|l r c t w en]; [done|]. intros _. cbn [recursiveInsert].
  repeat case_match; by injection 1 as <- _ _.
Qed.

(** ** Removal *)

Lemma host_weight_le n p e : tree_ok n -> host_at n p = Some e -> (he_weight e <= node_weight n)%N.
Proof.
  revert p. induction n as [|l IHl r IHr c t w en]; intros p; [by rewrite host_at_Nil|].
  intros (_ & -> & _ & Hl & Hr). destruct p as [|[] p].
  - unfold host_at. cbn. destruct t; [|done]. intros ->. cbn. lia.
  - rewrite host_at_L. intros Hp. specialize (IHl _ Hl Hp). cbn. lia.
  - rewrite host_at_R. intros Hp. specialize (IHr _ Hr Hp). cbn. lia.
Qed.

Lemma Currency_Sub_le x y : (y <= x)%N -> Currency.Sub x y = (x - y)%N.
Proof.
  intros Hle. unfold Currency.Sub, Currency.Cmp.
  destruct (N.compare_spec x y); [done|lia|done].
Qed.

Lemma take_weight_ok n p e : tree_ok n -> host_at n p = Some e ->
  let n' := take_weight n p (he_weight e) in
  tree_ok n' /\ (node_weight n' + he_weight e = node_weight n)%N /\ node_count n' = node_count n /\
  n' <> Nil /\ forall q, host_at n' q = if decide (q = p) then None else host_at n q.
Proof.
  revert p. induction n as [|l IHl r IHr c t w en]; intros p Hok Hp; [by rewrite host_at_Nil in Hp|].
  pose proof (host_weight_le _ _ _ Hok Hp) as Hle. cbn [node_weight] in Hle.
  cbn [take_weight]. rewrite Currency_Sub_le by done.
  destruct Hok as (Hc & Hw & Hen & Hl & Hr). destruct p as [|[] p].
  - unfold host_at in Hp. cbn in Hp. destruct t; [|done]. subst en. cbn in Hw |- *.
    split_and!; try done; [lia..|]. by intros [|[] q].
  - rewrite host_at_L in Hp. destruct (IHl p Hl Hp) as (Ho & Hwt & Hct & Hn & Hh). cbn.
    split_and!; try done; try lia.
    intros [|[] q]; [done| |done]. rewrite !host_at_L, Hh. repeat case_decide; congruence.
  - rewrite host_at_R in Hp. destruct (IHr p Hr Hp) as (Ho & Hwt & Hct & Hn & Hh). cbn.
    split_and!; try done; try lia.
    intros [|[] q]; [done|done|]. rewrite !host_at_R, Hh. repeat case_decide; congruence.
Qed.

(** ** Searching by weight *)

(** The random weights that lead to a node. *)
Definition owns n p (lo len : N) : Prop :=
  (lo + len <= node_weight n)%N /\
  forall w, (w < node_weight n)%N -> nodeAtWeight n w = Some p <-> (lo <= w < lo + len)%N.

Lemma Currency_Cmp_lt x y : (Currency.Cmp x y <? 0) = bool_decide (x < y)%N.
Proof.
  unfold Currency.Cmp. destruct (N.compare_spec x y); symmetry;
    [apply bool_decide_eq_false|apply bool_decide_eq_true|apply bool_decide_eq_false]; lia.
Qed.
Lemma Currency_Cmp_gt x y : (0 <? Currency.Cmp x y) = bool_decide (y < x)%N.
Proof.
  unfold Currency.Cmp. destruct (N.compare_spec x y); symmetry;
    [apply bool_decide_eq_false|apply bool_decide_eq_false|apply bool_decide_eq_true]; lia.
Qed.

Lemma nodeAtWeight_Node l r c t W en w :
  (w <= W)%N ->
  nodeAtWeight (Node l r c t W en) w =
    if decide (w < node_weight l)%N then cons L <$> nodeAtWeight l w
    else if decide (w - node_weight l < node_weight r)%N
    then cons R' <$> nodeAtWeight r (w - node_weight l)%N
    else if t then Some [] else None.
Proof.
  intros Hw. cbn [nodeAtWeight]. rewrite Currency_Cmp_gt, bool_decide_false by lia.
  rewrite Currency_Cmp_lt.
  assert (Hsub : (node_weight l <= w)%N ->
    (if is_nil l then w else Currency.Sub w (node_weight l)) = (w - node_weight l)%N).
  { intros Hle. destruct l; cbn [is_nil]; [cbn; unfold Currency.ZeroCurrency; lia|].
    by rewrite Currency_Sub_le. }
  destruct (decide (w < node_weight l)%N) as [Hl|Hl].
  - rewrite bool_decide_true by done. destruct l; [cbn in Hl; unfold Currency.ZeroCurrency in Hl; lia|done].
  - rewrite (bool_decide_false (w < node_weight l)%N), andb_false_r by done. rewrite Hsub by lia.
    rewrite Currency_Cmp_lt. destruct (decide (w - node_weight l < node_weight r)%N) as [Hr|Hr].
    + rewrite bool_decide_true by done.
      destruct r; [cbn in Hr; unfold Currency.ZeroCurrency in Hr; lia|done].
    + by rewrite bool_decide_false, andb_false_r.
Qed.

Lemma nodeAtWeight_total n w :
  tree_ok n -> (w < node_weight n)%N ->
  exists p e, nodeAtWeight n w = Some p /\ host_at n p = Some e.
Proof.
  revert w. induction n as [|l IHl r IHr c t W en]; intros w Hok Hw.
  { cbn in Hw. unfold Currency.ZeroCurrency in Hw. lia. }
  destruct Hok as (_ & HW & Hen & Hl & Hr). cbn [node_weight] in Hw.
  rewrite nodeAtWeight_Node by lia. repeat case_decide.
  - destruct (IHl w Hl) as (p & e & -> & He); [done|]. by exists (L :: p), e.
  - destruct (IHr (w - node_weight l)%N Hr) as (p & e & -> & He); [done|]. by exists (R' :: p), e.
  - destruct t; [|cbn in HW; lia]. destruct en as [e|]; [|cbn in HW; lia]. by exists [], e.
Qed.

Lemma host_owns n p e :
  tree_ok n -> host_at n p = Some e -> exists lo, owns n p lo (he_weight e).
Proof.
  revert p. induction n as [|l IHl r IHr c t W en]; intros p Hok Hp; [by rewrite host_at_Nil in Hp|].
  destruct Hok as (_ & HW & _ & Hl & Hr). destruct p as [|[] p].
  - unfold host_at in Hp. cbn in Hp. destruct t; [|done]. subst en. cbn in HW.
    exists (node_weight l + node_weight r)%N. split; cbn [node_weight]; [lia|]. intros w Hw.
    rewrite nodeAtWeight_Node by lia. repeat case_decide.
    + destruct (nodeAtWeight l w); cbn; split; (done || lia).
    + destruct (nodeAtWeight r _); cbn; split; (done || lia).
    + split; [lia|done].
  - rewrite host_at_L in Hp. destruct (IHl p Hl Hp) as (lo & Hlo & Hin). exists lo.
    split; cbn [node_weight]; [lia|]. intros w Hw. rewrite nodeAtWeight_Node by lia.
    repeat case_decide.
    + rewrite <- Hin by done. destruct (nodeAtWeight l w); cbn; naive_solver.
    + destruct (nodeAtWeight r _); cbn; split; (done || lia).
    + destruct t; split; (done || lia).
  - rewrite host_at_R in Hp. destruct (IHr p Hr Hp) as (lo & Hlo & Hin).
    exists (node_weight l + lo)%N.
    split; cbn [node_weight]; [lia|]. intros w Hw. rewrite nodeAtWeight_Node by lia.
    repeat case_decide.
    + destruct (nodeAtWeight l _); cbn; split; (done || lia).
    + trans (lo <= w - node_weight l < lo + he_weight e)%N; [|lia].
      rewrite <- Hin by done. destruct (nodeAtWeight r _); cbn; naive_solver.
    + destruct t; split; (done || lia).
Qed.

End tree.

(** ** The host tree as a map *)

Section host_tree.
Context {R : Type}.
Abbreviation HT := (HostTree R).

Definition entry_key (e : hostEntry R) : option bytes := SiaPublicKey_String (he_PublicKey e).

(** The entries by their keys. *)
Definition index (ht : HT) : gmap bytes (hostEntry R) := omap (host_at (ht_root ht)) (ht_hosts ht).

Record ht_ok (ht : HT) : Prop := mkHtOk {
  hto_tree : tree_ok (ht_root ht);
  hto_root : ht_root ht <> Nil;
  hto_index : forall k p, ht_hosts ht !! k = Some p <->
    exists e, host_at (ht_root ht) p = Some e /\ entry_key e = Some k;
  hto_keys : forall p e, host_at (ht_root ht) p = Some e -> is_Some (entry_key e);
  hto_scores : forall p e, host_at (ht_root ht) p = Some e ->
    he_weight e = ht_weightFn ht (he_HostDBEntry e);
  hto_weight : node_weight (ht_root ht) = msum he_weight (index ht)
}.

Lemma index_Some ht k e :
  ht_ok ht -> index ht !! k = Some e <->
  exists p, ht_hosts ht !! k = Some p /\ host_at (ht_root ht) p = Some e.
Proof. intros _. unfold index. rewrite lookup_omap. by rewrite bind_Some. Qed.

Lemma index_key ht k e : ht_ok ht -> index ht !! k = Some e -> entry_key e = Some k.
Proof.
  intros Hok (p & Hp & He)%index_Some; [|done].
  apply (hto_index _ Hok) in Hp as (e' & He' & Hk). congruence.
Qed.

Lemma index_path ht k p :
  ht_ok ht -> ht_hosts ht !! k = Some p ->
  exists e, index ht !! k = Some e /\ host_at (ht_root ht) p = Some e.
Proof.
  intros Hok Hp. pose proof Hp as (e & He & Hk)%(hto_index _ Hok). exists e. split; [|done].
  apply index_Some; [done|]. by exists p.
Qed.

Lemma index_None ht k : ht_ok ht -> index ht !! k = None <-> ht_hosts ht !! k = None.
Proof.
  intros Hok. split.
  - intros Hk. apply eq_None_not_Some. intros [p Hp].
    destruct (index_path _ _ _ Hok Hp) as (e & He & _). congruence.
  - intros Hk. unfold index. by rewrite lookup_omap, Hk.
Qed.

Lemma New_ok wf : ht_ok (New wf).
Proof.
  assert (Hnone : forall p, host_at (empty_root (R:=R)) p = None) by (by intros [|[] []]).
  split; cbn [ht_root ht_hosts New].
  - cbn. naive_solver.
  - done.
  - intros k p. rewrite lookup_empty. setoid_rewrite Hnone. naive_solver.
  - intros p e. by rewrite Hnone.
  - intros p e. by rewrite Hnone.
  - unfold index. cbn. by rewrite omap_empty, msum_empty.
Qed.

Lemma take_weight_entry (n : node R) p w : node_entry (take_weight n p w) p = node_entry n p.
Proof.
  revert p. induction n as [|l IHl r IHr c t W en]; intros p; [done|].
  destruct p as [|[] p]; [done|apply IHl|apply IHr].
Qed.

(** What the operations leave alone. *)
Definition settings (ht : HT) := (ht_weightFn ht, ht_iprestriction ht).
(** The tree without a key. *)
Definition forget (k : bytes) (ht : HT) : HT := set_hosts (delete k (ht_hosts ht)) ht.

(** A node is emptied, and its key is to be forgotten. *)
Lemma remove_node_ok ht k p :
  ht_ok ht -> ht_hosts ht !! k = Some p ->
  exists e ht', index ht !! k = Some e /\ node_entry (ht_root ht) p = Some e /\
    remove_node p ht = Ret () ht' /\ node_entry (ht_root ht') p = Some e /\
    ht_hosts ht' = ht_hosts ht /\ settings ht' = settings ht /\
    ht_ok (forget k ht') /\ index (forget k ht') = delete k (index ht).
Proof.
  intros Hok Hp. destruct (index_path _ _ _ Hok Hp) as (e & Hidx & He).
  pose proof (host_at_entry _ _ _ He) as Hen.
  destruct (take_weight_ok _ _ _ (hto_tree _ Hok) He) as (Ht & Hw & _ & Hnn & Hh).
  set (root' := take_weight (ht_root ht) p (he_weight e)) in *.
  assert (Hother : forall k' q, k' <> k -> ht_hosts ht !! k' = Some q -> q <> p).
  { intros k' q Hk (e1 & He1 & Hk1)%(hto_index _ Hok) ->.
    apply (hto_index _ Hok) in Hp as (e2 & He2 & Hk2). congruence. }
  assert (Hi : index (forget k (set_root root' ht)) = delete k (index ht)).
  { apply map_eq. intros k'. unfold index, forget. cbn. rewrite lookup_omap.
    destruct (decide (k = k')) as [->|Hk]; [by rewrite !lookup_delete_eq|].
    rewrite !lookup_delete_ne, lookup_omap by done.
    destruct (ht_hosts ht !! k') as [q|] eqn:Hq; [cbn|done].
    rewrite Hh, decide_False; [done|]. by eapply Hother. }
  exists e, (set_root root' ht). split_and!; try done.
  - unfold remove_node, get, mbind, M_bind, remove. by rewrite Hen.
  - cbn. subst root'. by rewrite take_weight_entry.
  - split; unfold forget; cbn [ht_root ht_hosts ht_weightFn set_root set_hosts]; try done.
    + intros k' q. rewrite lookup_delete_Some, (hto_index _ Hok), Hh. split.
      * intros (Hk & e' & He' & Hk'). exists e'. rewrite decide_False; [done|].
        eapply Hother; [done|]. apply (hto_index _ Hok). by exists e'.
      * intros (e' & He' & Hk'). case_decide; [done|]. split; [|by exists e'].
        intros <-. assert (ht_hosts ht !! k = Some q) by (apply (hto_index _ Hok); by exists e').
        congruence.
    + intros q e'. rewrite Hh. case_decide; [done|]. apply (hto_keys _ Hok).
    + intros q e'. rewrite Hh. case_decide; [done|]. apply (hto_scores _ Hok).
    + rewrite (hto_weight _ Hok) in Hw. fold (forget k (set_root root' ht)).
      change (set_hosts _ _) with (forget k (set_root root' ht)). rewrite Hi.
      rewrite (msum_delete he_weight _ _ _ Hidx) in Hw. lia.
Qed.

Lemma insert_entry_ok ht k e :
  ht_ok (forget k ht) -> entry_key e = Some k ->
  he_weight e = ht_weightFn ht (he_HostDBEntry e) ->
  exists ht', insert_entry e ht = Ret () ht' /\ ht_ok ht' /\ settings ht' = settings ht /\
    index ht' = <[k := e]> (index (forget k ht)).
Proof.
  intros Hok Hk Hscore. unfold insert_entry, key_of, mbind, M_bind, get.
  unfold entry_key in Hk. rewrite Hk. cbn [mret M_ret].
  destruct (recursiveInsert false (ht_root ht) e) as [[root added] p] eqn:Hrun.
  pose proof (recursiveInsert_ok _ _ _ _ _ _ (hto_tree _ Hok) (hto_root _ Hok) Hrun)
    as [Ht Hw _ Hfree Hh].
  pose proof (recursiveInsert_not_Nil _ _ _ _ _ _ (hto_root _ Hok) Hrun) as Hnn.
  pose proof (hto_index _ Hok) as Hidx. cbn [ht_root ht_hosts forget set_hosts] in Hidx, Hw, Hfree, Hh.
  eexists. split; [reflexivity|]. cbn [ht_hosts set_root].
  set (ht' := set_hosts _ _).
  assert (Hother : forall k' q, delete k (ht_hosts ht) !! k' = Some q -> q <> p).
  { intros k' q (e1 & He1 & _)%Hidx ->. congruence. }
  assert (Hi : index ht' = <[k := e]> (index (forget k ht))).
  { apply map_eq. intros k'. unfold index, forget. cbn. rewrite lookup_omap.
    destruct (decide (k = k')) as [<-|Hne].
    - rewrite !lookup_insert_eq. cbn. by rewrite Hh, decide_True.
    - rewrite !lookup_insert_ne, lookup_omap, lookup_delete_ne by done.
      destruct (ht_hosts ht !! k') as [q|] eqn:Hq; [cbn|done]. rewrite Hh, decide_False; [done|].
      apply (Hother k'). by rewrite lookup_delete_ne. }
  split_and!; try done. split; unfold ht'; cbn [ht_root ht_hosts ht_weightFn set_root set_hosts]; try done.
  - intros k' q. rewrite lookup_insert_Some, Hh. split.
    + intros [[<- <-]|[Hne Hq]]; [exists e; by rewrite decide_True|].
      assert (Hd : delete k (ht_hosts ht) !! k' = Some q) by (by rewrite lookup_delete_ne).
      pose proof (Hother _ _ Hd). rewrite decide_False by done. by apply Hidx.
    + intros (e' & He' & Hk'). case_decide as Hqp.
      * injection He' as <-. left. split; [|done]. unfold entry_key in Hk'. congruence.
      * right. assert (Hd : delete k (ht_hosts ht) !! k' = Some q) by (apply Hidx; by exists e').
        apply lookup_delete_Some in Hd. tauto.
  - intros q e'. rewrite Hh. case_decide; [intros [= <-]; by exists k|]. apply (hto_keys _ Hok).
  - intros q e'. rewrite Hh. case_decide; [by intros [= <-]|]. apply (hto_scores _ Hok).
  - fold ht'. rewrite Hi, Hw, msum_insert.
    + pose proof (hto_weight _ Hok) as HW. cbn [ht_root forget set_hosts] in HW. rewrite HW. lia.
    + apply index_None; [done|]. apply lookup_delete_eq.
Qed.

Lemma forget_id k ht : ht_hosts ht !! k = None -> forget k ht = ht.
Proof. intros Hk. unfold forget. rewrite delete_id by done. by destruct ht. Qed.

Lemma delete_host_Ret k ht : delete_host k ht = Ret () (forget k ht).
Proof. done. Qed.

Lemma forget_settings k ht : settings (forget k ht) = settings ht.
Proof. done. Qed.

(** ** Taking hosts out and putting them back *)

(** The tree [ht] is [ht0] without the hosts in [kes]. *)
Record without (ht0 : HT) (kes : list (bytes * hostEntry R)) (ht : HT) : Prop := mkWithout {
  wo_ok : ht_ok ht;
  wo_settings : settings ht = settings ht0;
  wo_nodup : NoDup kes.*1;
  wo_gone : forall k, k ∈ kes.*1 -> index ht !! k = None;
  wo_index : index ht0 = list_to_map kes ∪ index ht
}.

Lemma without_nil ht : ht_ok ht -> without ht [] ht.
Proof.
  intros Hok. split; try done; [constructor| |].
  - intros k Hk. by apply not_elem_of_nil in Hk.
  - by rewrite list_to_map_nil, (left_id_L ∅ (∪)).
Qed.

Lemma without_more ht0 kes ht ht1 k e :
  without ht0 kes ht -> index ht !! k = Some e -> ht_ok ht1 -> settings ht1 = settings ht ->
  index ht1 = delete k (index ht) -> without ht0 (kes ++ [(k, e)]) ht1.
Proof.
  intros [Hok Hset Hnd Hgone Hidx] Hk Hok1 Hset1 Hidx1.
  assert (Hnew : k ∉ kes.*1) by (intros Hin; specialize (Hgone k Hin); congruence).
  split; [done|congruence|..].
  - rewrite fmap_app, NoDup_app. cbn. split_and!; [done| |apply NoDup_singleton].
    intros k' Hk' ->%list_elem_of_singleton. done.
  - intros k'. rewrite fmap_app, elem_of_app, Hidx1. cbn.
    intros [Hin| ->%list_elem_of_singleton]; [|apply lookup_delete_eq].
    apply lookup_delete_None. right. by apply Hgone.
  - rewrite Hidx, Hidx1, list_to_map_app, <- (assoc_L (∪)). f_equal.
    cbn. rewrite insert_empty, <- insert_union_singleton_l, insert_delete_id; done.
Qed.

Lemma without_entry ht0 kes ht k e :
  ht_ok ht0 -> without ht0 kes ht -> (k, e) ∈ kes -> index ht0 !! k = Some e.
Proof.
  intros _ [_ _ Hnd _ ->] Hin. apply lookup_union_Some_l. by apply elem_of_list_to_map.
Qed.

Lemma index_score ht k e :
  ht_ok ht -> index ht !! k = Some e -> he_weight e = ht_weightFn ht (he_HostDBEntry e).
Proof. intros Hok (p & _ & Hp)%index_Some; [|done]. by eapply hto_scores. Qed.

Lemma settings_eq ht1 ht2 : settings ht1 = settings ht2 ->
  ht_weightFn ht1 = ht_weightFn ht2 /\ ht_iprestriction ht1 = ht_iprestriction ht2.
Proof. unfold settings. intros [= -> ->]. done. Qed.

Lemma reinsert_ok ht0 : ht_ok ht0 -> forall kes ht,
  without ht0 kes ht ->
  exists ht', for_each insert_entry kes.*2 ht = Ret () ht' /\ ht_ok ht' /\
    settings ht' = settings ht0 /\ index ht' = index ht0.
Proof.
  intros Hok0. induction kes as [|[k e] kes IH]; intros ht Hw.
  - exists ht. destruct Hw as [Hok Hset _ _ Hidx].
    rewrite list_to_map_nil, (left_id_L ∅ (∪)) in Hidx. done.
  - pose proof (without_entry ht0 _ _ k e Hok0 Hw ltac:(by left)) as Hke.
    destruct Hw as [Hok Hset Hnd Hgone Hidx]. cbn in Hnd. apply NoDup_cons in Hnd as [Hnew Hnd].
    assert (Hk : index ht !! k = None) by (apply Hgone; by left).
    assert (Hf : forget k ht = ht) by (apply forget_id; by apply index_None).
    destruct (insert_entry_ok ht k e) as (ht1 & Hrun & Hok1 & Hset1 & Hidx1).
    { by rewrite Hf. }
    { exact (index_key ht0 k e Hok0 Hke). }
    { destruct (settings_eq _ _ Hset) as [-> _]. exact (index_score ht0 k e Hok0 Hke). }
    rewrite Hf in Hidx1.
    destruct (IH ht1) as (ht' & Hrun' & Hrest).
    + split; [done|congruence|done| |].
      * intros k' Hk'. rewrite Hidx1, lookup_insert_ne by congruence. apply Hgone. by right.
      * rewrite Hidx, Hidx1, list_to_map_cons, <- insert_union_l, insert_union_r; [done|].
        by apply not_elem_of_list_to_map.
    + exists ht'. split; [|done]. cbn [for_each fmap list_fmap snd]. unfold mbind, M_bind.
      by rewrite Hrun.
Qed.

(** ** The operations *)

Lemma key_of_Some {S} pk k (s : S) : SiaPublicKey_String pk = Some k -> key_of pk s = Ret k s.
Proof. unfold key_of. by intros ->. Qed.
Lemma key_of_None {S} pk (s : S) :
  SiaPublicKey_String pk = None -> key_of pk s = Panic "index out of range".
Proof. unfold key_of. by intros ->. Qed.

Lemma insert_spec ht h k :
  ht_ok ht -> SiaPublicKey_String (hdb_PublicKey h) = Some k ->
  match index ht !! k with
  | Some _ => insert h ht = Err ErrHostExists ht
  | None => exists ht', insert h ht = Ret () ht' /\ ht_ok ht' /\ settings ht' = settings ht /\
      index ht' = <[k := mkHostEntry h (ht_weightFn ht h)]> (index ht)
  end.
Proof.
  intros Hok Hk. unfold insert, mbind, M_bind, get.
  set (e := mkHostEntry h (ht_weightFn ht h)). rewrite (key_of_Some _ k) by exact Hk.
  destruct (index ht !! k) as [e'|] eqn:Hi.
  - apply index_Some in Hi as (p & Hp & _); [|done]. by rewrite bool_decide_true by (by exists p).
  - apply index_None in Hi; [|done].
    rewrite bool_decide_false by (rewrite Hi; by intros [? ?]). cbn [err_if check mret M_ret].
    pose proof (forget_id k ht Hi) as Hf.
    destruct (insert_entry_ok ht k e) as (ht' & Hrun & Hok' & Hset & Hidx);
      [by rewrite Hf|exact Hk|done|]. exists ht'. rewrite Hf in Hidx. done.
Qed.

Lemma Remove_spec ht pk k :
  ht_ok ht -> SiaPublicKey_String pk = Some k ->
  match index ht !! k with
  | None => Remove pk ht = Err ErrNoSuchHost ht
  | Some _ => exists ht', Remove pk ht = Ret () ht' /\ ht_ok ht' /\ settings ht' = settings ht /\
      index ht' = delete k (index ht)
  end.
Proof.
  intros Hok Hk. unfold Remove, mbind, M_bind, get. rewrite (key_of_Some _ k) by exact Hk.
  destruct (index ht !! k) as [e|] eqn:Hi.
  - pose proof Hi as (p & Hp & _)%index_Some; [|done]. rewrite Hp.
    destruct (remove_node_ok ht k p Hok Hp)
      as (e' & ht1 & _ & _ & -> & _ & _ & Hset & Hok1 & Hidx).
    exists (forget k ht1). done.
  - apply index_None in Hi; [|done]. by rewrite Hi.
Qed.

Lemma Modify_spec ht h k :
  ht_ok ht -> SiaPublicKey_String (hdb_PublicKey h) = Some k ->
  match index ht !! k with
  | None => Modify h ht = Err ErrNoSuchHost ht
  | Some _ => exists ht', Modify h ht = Ret () ht' /\ ht_ok ht' /\ settings ht' = settings ht /\
      index ht' = <[k := mkHostEntry h (ht_weightFn ht h)]> (index ht)
  end.
Proof.
  intros Hok Hk. unfold Modify, mbind, M_bind, get. rewrite (key_of_Some _ k) by exact Hk.
  destruct (index ht !! k) as [e|] eqn:Hi.
  - pose proof Hi as (p & Hp & _)%index_Some; [|done]. rewrite Hp.
    destruct (remove_node_ok ht k p Hok Hp)
      as (e' & ht1 & _ & _ & -> & _ & _ & Hset & Hok1 & Hidx).
    destruct (settings_eq _ _ Hset) as [Hwf _].
    destruct (insert_entry_ok ht1 k (mkHostEntry h (ht_weightFn ht h)))
      as (ht' & Hrun & Hok' & Hset' & Hidx'); [done|exact Hk|cbn; by rewrite Hwf|].
    exists ht'. split_and!; [done..|congruence|].
    by rewrite Hidx', Hidx, insert_delete_eq.
  - apply index_None in Hi; [|done]. by rewrite Hi.
Qed.

Lemma entry_of_Some ht k p :
  ht_ok ht -> ht_hosts ht !! k = Some p ->
  exists e, index ht !! k = Some e /\ entry_of p ht = Ret e ht.
Proof.
  intros Hok Hp. destruct (index_path _ _ _ Hok Hp) as (e & Hi & He). exists e. split; [done|].
  unfold entry_of, mbind, M_bind, get. by rewrite (host_at_entry _ _ _ He).
Qed.

Lemma Select_spec ht pk k :
  ht_ok ht -> SiaPublicKey_String pk = Some k ->
  Select pk ht = Ret (he_HostDBEntry <$> index ht !! k) ht.
Proof.
  intros Hok Hk. unfold Select, mbind, M_bind, get. rewrite (key_of_Some _ k) by exact Hk.
  destruct (ht_hosts ht !! k) as [p|] eqn:Hp.
  - destruct (entry_of_Some _ _ _ Hok Hp) as (e & -> & ->). done.
  - apply index_None in Hp; [|done]. by rewrite Hp.
Qed.

End host_tree.
