(* ===== verification/HostTreeSelect.v ===== *)
(** * Selecting hosts at random

    [SelectRandom] takes hosts out of the tree until it has enough and puts
    them back; [SetWeightFunction] builds the tree again.  With the other
    operations they act on the map of hosts ([run_call_refines]). *)

From S2P Require Import Prelude Bytes Currency Types HostTree HostTreeFacts.

Open Scope Z_scope.

Section select.
Context {R : Type}.
Abbreviation HT := (HostTree R).
Context (LookupIP : bytes -> option (list IP)) (BigIntn : nat -> N -> N).
(** [fastrand.BigIntn] returns a number below its argument. *)
Hypothesis BigIntn_lt : forall i n, (0 < n)%N -> (BigIntn i n < n)%N.

(** Every host has a positive weight, as [Score] makes sure of. *)
Definition scored (ht : HT) : Prop := forall h, (0 < ht_weightFn ht h)%N.

Definition eligible (e : hostEntry R) : bool :=
  hdb_AcceptingContracts (he_HostDBEntry e) && last_scan_ok (he_HostDBEntry e) &&
  (0 <? Currency.Cmp (he_weight e) (Currency.NewCurrency64 1)).

(** The address of a host resolves to at most two IP addresses, and to two only
    if they are not of one kind. *)
Definition few_addresses (e : hostEntry R) : Prop := exists ips,
  LookupIP (hdb_NetAddress (he_HostDBEntry e)) = Some ips /\ (length ips <= 2)%nat /\
  forall a b, ips = [a; b] -> length a <> length b.
Definition candidate (e : hostEntry R) : Prop := eligible e = true /\ few_addresses e.

Lemma usable_candidate filter e : usable LookupIP filter e = true -> candidate e.
Proof.
  unfold usable. intros [[[H1 H2]%andb_true_iff Hf%negb_true_iff]%andb_true_iff H3]%andb_true_iff.
  split; [unfold eligible; by rewrite H1, H2, H3|]. unfold Filtered in Hf.
  destruct (LookupIP _) as [ips|] eqn:Hips; [|done]. exists ips. destruct (Nat.ltb_spec 2 (length ips)); [done|].
  split_and!; [done|done|]. intros a b ->. by destruct (Nat.eqb_spec (length a) (length b)).
Qed.

Lemma candidate_usable e : candidate e -> usable LookupIP (NewFilter 0) e = true.
Proof.
  intros [[[H1 H2]%andb_true_iff H3]%andb_true_iff (ips & Hips & Hlen & Htwo)].
  assert (Hno : forall l, filtered_by (NewFilter 0) l = false).
  { induction l as [|ip l IH]; [done|]. cbn [filtered_by NewFilter f_filter]. case_match; [|done].
    by rewrite lookup_empty. }
  unfold usable, Filtered. rewrite H1, H2, H3, Hips, (proj2 (Nat.ltb_ge _ _) Hlen).
  destruct ips as [|a [|b [|c ips]]]; rewrite ?Hno; try done.
  by rewrite (proj2 (Nat.eqb_neq _ _) (Htwo a b eq_refl)).
Qed.

(** A random host is found as long as there is one. *)
Lemma pick_ok (ht : HT) i :
  ht_ok ht -> scored ht -> ht_hosts ht <> ∅ ->
  Currency.IsZero (node_weight (ht_root ht)) = false /\
  exists p k e, nodeAtWeight (ht_root ht) (BigIntn i (node_weight (ht_root ht))) = Some p /\
    ht_hosts ht !! k = Some p /\ index ht !! k = Some e /\ entry_of p ht = Ret e ht /\
    entry_key e = Some k.
Proof.
  intros Hok Hsc (k0 & p0 & Hp0)%map_choose.
  destruct (index_path _ _ _ Hok Hp0) as (e0 & Hi0 & _).
  assert (Hpos : (0 < node_weight (ht_root ht))%N).
  { rewrite (hto_weight _ Hok). pose proof (msum_lookup_le he_weight _ _ _ Hi0).
    rewrite (index_score _ _ _ Hok Hi0) in *. pose proof (Hsc (he_HostDBEntry e0)). lia. }
  split; [unfold Currency.IsZero; apply N.leb_gt; lia|].
  destruct (nodeAtWeight_total (ht_root ht) (BigIntn i (node_weight (ht_root ht))))
    as (p & e & Hp & He); [apply (hto_tree _ Hok)|by apply BigIntn_lt|].
  destruct (hto_keys _ Hok _ _ He) as [k Hk].
  assert (Hpk : ht_hosts ht !! k = Some p) by (apply (hto_index _ Hok); by exists e).
  destruct (entry_of_Some _ _ _ Hok Hpk) as (e' & Hi & Hrun).
  destruct (index_path _ _ _ Hok Hpk) as (e2 & Hi2 & He2).
  exists p, k, e. split_and!; try done; congruence.
Qed.

(** A host is taken out. *)
Lemma take_out (ht0 : HT) kes ht k p :
  without ht0 kes ht -> ht_hosts ht !! k = Some p ->
  exists e ht1, index ht !! k = Some e /\ remove_node p ht = Ret () ht1 /\
    entry_of p (forget k ht1) = Ret e (forget k ht1) /\
    without ht0 (kes ++ [(k, e)]) (forget k ht1) /\
    ht_hosts (forget k ht1) = delete k (ht_hosts ht) /\
    index (forget k ht1) = delete k (index ht).
Proof.
  intros Hw Hp. pose proof (wo_ok _ _ _ Hw) as Hok.
  destruct (remove_node_ok ht k p Hok Hp)
    as (e & ht1 & Hi & _ & Hrun & Hen & Hh & Hset & Hok1 & Hidx).
  exists e, ht1. split_and!; try done.
  - unfold entry_of, mbind, M_bind, get, forget. cbn [ht_root set_hosts]. by rewrite Hen.
  - by eapply without_more.
  - cbn. by rewrite Hh.
Qed.

Record selected (n : Z) (got : nat) (ht0 : HT) (filter : Filter)
    (kes sel new : list (bytes * hostEntry R)) (ht' : HT) : Prop := mkSelected {
  se_without : without ht0 (kes ++ new) ht';
  se_sublist : sublist sel new;
  se_eligible : Forall (fun ke => candidate ke.2) sel;
  se_enough : Z.of_nat (got + length sel) <= (n `max` Z.of_nat got);
  se_all : Z.of_nat (got + length sel) < n -> ht_hosts ht' = ∅;
  se_free : ht_iprestriction ht0 <= 0 ->
    sel = base.filter (fun ke => usable LookupIP filter ke.2 = true) new
}.

Lemma selected_stop n got ht0 filter kes ht :
  without ht0 kes ht -> (Z.of_nat got < n -> ht_hosts ht = ∅) ->
  selected n got ht0 filter kes [] [] ht.
Proof.
  intros Hw Hstop. split; cbn; rewrite ?app_nil_r, ?Nat.add_0_r; [done|constructor|done|lia|done|done].
Qed.

(** One more host: [ok] is whether it was chosen. *)
Lemma selected_step n got ht0 filter filter' kes k e sel new ht' :
  let ok := usable LookupIP filter e in
  Z.of_nat got < n ->
  (ht_iprestriction ht0 <= 0 -> filter' = filter) ->
  selected n (if ok then S got else got) ht0 filter' (kes ++ [(k, e)]) sel new ht' ->
  selected n got ht0 filter kes (if ok then (k, e) :: sel else sel) ((k, e) :: new) ht'.
Proof.
  intros ok Hgot Hfilter [Hw Hsub Hel Hen Hall Hfree].
  rewrite <- app_assoc in Hw. split; [exact Hw|..].
  - destruct ok; by constructor.
  - destruct ok eqn:Hok; [|done]. constructor; [|done]. by eapply usable_candidate.
  - destruct ok; cbn [length]; lia.
  - destruct ok; cbn [length]; intros; apply Hall; lia.
  - intros Hr. rewrite filter_cons. cbn [snd]. fold ok. specialize (Hfilter Hr). subst filter'.
    rewrite (Hfree Hr). destruct ok; by case_decide.
Qed.

Lemma select_loop_stop fuel n i filter hosts removed (ht : HT) :
  (Z.of_nat (length hosts) < n -> ht_hosts ht = ∅) ->
  select_loop LookupIP BigIntn fuel n i filter hosts removed ht = Ret (hosts, removed) ht.
Proof.
  intros Hstop. destruct fuel; cbn [select_loop]; unfold mbind, M_bind, get;
    (destruct (Z.ltb_spec (Z.of_nat (length hosts)) n) as [Hn|Hn]; [|done]);
    rewrite (bool_decide_false (ht_hosts ht <> ∅)) by (intros Hx; by apply Hx, Hstop); done.
Qed.

Lemma select_loop_next fuel n i filter hosts (ht0 ht : HT) kes :
  scored ht0 -> without ht0 kes ht -> Z.of_nat (length hosts) < n -> ht_hosts ht <> ∅ ->
  exists k e ht1 filter',
    select_loop LookupIP BigIntn (S fuel) n i filter hosts kes.*2 ht
    = select_loop LookupIP BigIntn fuel n (S i) filter'
        (if usable LookupIP filter e then hosts ++ [he_HostDBEntry e] else hosts)
        (kes ++ [(k, e)]).*2 ht1 /\
    (ht_iprestriction ht0 <= 0 -> filter' = filter) /\
    without ht0 (kes ++ [(k, e)]) ht1 /\ S (size (ht_hosts ht1)) = size (ht_hosts ht).
Proof.
  intros Hsc Hw Hn Hne. pose proof (wo_ok _ _ _ Hw) as Hok.
  destruct (settings_eq _ _ (wo_settings _ _ _ Hw)) as [Hwf Hip].
  assert (Hsc1 : scored ht) by (intros h; rewrite Hwf; apply Hsc).
  destruct (pick_ok ht i Hok Hsc1 Hne) as (Hz & p & k & e & Hat & Hpk & Hi & Hent & Hkey).
  destruct (take_out ht0 kes ht k p Hw Hpk) as (e' & ht1 & Hi' & Hrm & _ & Hw1 & Hh1 & _).
  assert (e' = e) as -> by congruence.
  exists k, e, (forget k ht1). eexists. split; [|split_and!; [|done|]].
  - cbn [select_loop]. unfold mbind, M_bind, get.
    rewrite (proj2 (Z.ltb_lt _ _) Hn), bool_decide_true by done. cbn [andb].
    rewrite Hz. cbn [panic_if mret M_ret]. rewrite Hat, Hent, Hrm.
    rewrite (key_of_Some _ k) by exact Hkey. rewrite delete_host_Ret, fmap_app. reflexivity.
  - cbv beta. intros Hr. rewrite Hip.
    rewrite (proj2 (Z.ltb_ge _ _)) by lia. by rewrite andb_false_r.
  - rewrite Hh1, map_size_delete_Some by (by exists p).
    assert (size (ht_hosts ht) <> 0%nat) by (by apply map_size_non_empty_iff). lia.
Qed.

Lemma select_loop_ok (ht0 : HT) n : scored ht0 -> forall fuel i filter hosts kes ht,
  without ht0 kes ht -> (size (ht_hosts ht) <= fuel)%nat ->
  exists sel new ht',
    select_loop LookupIP BigIntn fuel n i filter hosts kes.*2 ht
    = Ret (hosts ++ (he_HostDBEntry <$> sel.*2), (kes ++ new).*2) ht' /\
    selected n (length hosts) ht0 filter kes sel new ht'.
Proof.
  intros Hsc. induction fuel as [|fuel IH]; intros i filter hosts kes ht Hw Hf;
    (destruct (decide (Z.of_nat (length hosts) < n /\ ht_hosts ht <> ∅)) as [[Hn Hne]|Hstop];
     [|exists [], [], ht; rewrite !app_nil_r; split; [apply select_loop_stop|apply selected_stop];
       try done; intros Hlt; apply dec_stable; tauto]).
  { apply map_size_non_empty_iff in Hne. lia. }
  destruct (select_loop_next fuel n i filter hosts ht0 ht kes Hsc Hw Hn Hne)
    as (k & e & ht1 & filter' & -> & Hfilter & Hw1 & Hsize).
  destruct (IH (S i) filter' (if usable LookupIP filter e then hosts ++ [he_HostDBEntry e] else hosts)
    (kes ++ [(k, e)]) ht1 Hw1 ltac:(lia)) as (sel & new & ht' & -> & Hsel).
  exists (if usable LookupIP filter e then (k, e) :: sel else sel), ((k, e) :: new), ht'. split.
  - rewrite <- app_assoc. f_equal. f_equal. destruct (usable LookupIP filter e); [|done].
    by rewrite <- app_assoc.
  - apply (selected_step _ _ _ _ filter'); try done.
    by destruct (usable LookupIP filter e); rewrite ?length_app, ?Nat.add_1_r in Hsel.
Qed.

(** ** The blacklists *)

Definition keys_are (pks : list SiaPublicKey) (ks : list bytes) : Prop :=
  Forall2 (fun pk k => SiaPublicKey_String pk = Some k) pks ks.

Lemma remove_blacklisted_ok (ht0 : HT) bl bks : keys_are bl bks -> forall i kes ht,
  without ht0 kes ht ->
  exists new ht',
    for_fold (fun _ pubkey removedEntries =>
      key ← key_of pubkey;
      ht ← get;
      match ht_hosts ht !! key with
      | None => mret removedEntries
      | Some p =>
          _ ← remove_node p;
          _ ← delete_host key;
          e ← entry_of p;
          mret (removedEntries ++ [e])
      end) i bl kes.*2 ht = Ret (kes ++ new).*2 ht' /\
    without ht0 (kes ++ new) ht' /\ (forall k, k ∈ new.*1 -> k ∈ bks) /\
    (forall k, k ∈ bks -> index ht' !! k = None) /\
    (forall k, index ht' !! k <> None -> index ht' !! k = index ht !! k).
Proof.
  induction 1 as [|pk k bl bks Hk Hks IH]; intros i kes ht Hw.
  { exists [], ht. rewrite app_nil_r. split_and!; try done; intros x Hx; by apply not_elem_of_nil in Hx. }
  rewrite for_fold_cons. unfold mbind at 1, M_bind at 1. rewrite (key_of_Some _ k) by exact Hk.
  unfold mbind at 1, M_bind at 1, get at 1. pose proof (wo_ok _ _ _ Hw) as Hok.
  destruct (ht_hosts ht !! k) as [p|] eqn:Hp.
  - destruct (take_out ht0 kes ht k p Hw Hp) as (e & ht1 & Hi & Hrm & Hent & Hw1 & _ & Hd).
    unfold mbind at 1, M_bind at 1. rewrite Hrm. unfold mbind at 1, M_bind at 1.
    rewrite delete_host_Ret. unfold mbind at 1, M_bind at 1. rewrite Hent. cbn [mret M_ret].
    destruct (IH (i + 1) (kes ++ [(k, e)]) (forget k ht1) Hw1)
      as (new & ht' & Hrun & Hw' & Hin & Hgone & Hkeep).
    rewrite (fmap_app snd kes [(k, e)]) in Hrun. cbn [fmap list_fmap snd] in Hrun. rewrite Hrun.
    exists ((k, e) :: new), ht'. rewrite <- !app_assoc in *. cbn [app] in *. split_and!; try done.
    + intros x. cbn. rewrite !elem_of_cons. naive_solver.
    + intros x [->|Hx]%elem_of_cons; [|by apply Hgone].
      apply (wo_gone _ _ _ Hw'). rewrite fmap_app, elem_of_app. right. cbn. by left.
    + intros x Hx. rewrite Hkeep, Hd in * by done. apply lookup_delete_ne.
      intros <-. by rewrite lookup_delete_eq in Hx.
  - cbn [mret M_ret]. destruct (IH (i + 1) kes ht Hw) as (new & ht' & -> & Hw' & Hin & Hgone & Hkeep).
    exists new, ht'. split_and!; try done.
    + intros x Hx. right. by apply Hin.
    + intros x [->|Hx]%elem_of_cons; [|by apply Hgone]. apply index_None in Hp; [|done].
      apply eq_None_not_Some. intros [y Hy]. rewrite Hkeep in Hy; congruence.
Qed.

Lemma filter_hosts_ok (ht : HT) abl abks filter :
  ht_ok ht -> keys_are abl abks ->
  exists filter', filter_hosts LookupIP abl filter ht = Ret filter' ht /\
    (abl = [] -> filter' = filter).
Proof.
  intros Hok Hks. unfold filter_hosts. generalize 0. revert filter.
  induction Hks as [|pk k abl abks Hk Hks IH]; intros filter i; [by exists filter|].
  rewrite for_fold_cons. unfold mbind at 1, M_bind at 1. rewrite (key_of_Some _ k) by exact Hk.
  unfold mbind at 1, M_bind at 1, get at 1.
  destruct (ht_hosts ht !! k) as [p|] eqn:Hp.
  - destruct (entry_of_Some _ _ _ Hok Hp) as (e & _ & Hent).
    unfold mbind at 1, M_bind at 1. rewrite Hent. cbn [mret M_ret].
    destruct (IH (Filter_Add LookupIP filter (hdb_NetAddress (he_HostDBEntry e))) (i + 1))
      as (f & -> & _). by exists f.
  - cbn [mret M_ret]. destruct (IH filter (i + 1)) as (f & -> & _). by exists f.
Qed.

(** ** SelectRandom *)

(** The hosts returned, with their keys. *)
Record random_selection (n : Z) (bks : list bytes) (abl : list SiaPublicKey) (ht : HT)
    (sel : list (bytes * hostEntry R)) : Prop := mkRandomSelection {
  rs_nodup : NoDup sel.*1;
  rs_hosts : Forall (fun ke => index ht !! ke.1 = Some ke.2 /\ (ke.1 ∉ bks) /\ candidate ke.2) sel;
  rs_length : Z.of_nat (length sel) <= (n `max` 0);
  rs_all : Z.of_nat (length sel) < n -> ht_iprestriction ht = 0 -> abl = [] ->
    forall k e, index ht !! k = Some e -> k ∉ bks ->
      candidate e -> k ∈ sel.*1
}.

Lemma selection_of ht ht' bks abl n kes sel new filter :
  ht_ok ht -> (forall k, k ∈ kes.*1 -> k ∈ bks) -> (forall k, k ∈ bks -> k ∉ new.*1) ->
  (ht_iprestriction ht = 0 -> abl = [] -> filter = NewFilter 0) ->
  selected n 0 ht filter kes sel new ht' -> random_selection n bks abl ht sel.
Proof.
  intros Hok Hkes Hbl Hfilter [Hw Hsub Hel Hen Hall Hfree].
  pose proof (wo_nodup _ _ _ Hw) as Hnd. rewrite fmap_app, NoDup_app in Hnd.
  destruct Hnd as (_ & _ & Hnd).
  assert (Hin : forall k e, (k, e) ∈ sel -> (k, e) ∈ new)
    by (intros k e; by apply sublist_subseteq).
  split.
  - eapply sublist_NoDup; [exact Hnd|]. by apply fmap_sublist.
  - rewrite Forall_forall in Hel |- *. intros [k e] Hke. cbn.
    pose proof (Hin k e Hke) as Hnew. split_and!.
    + eapply without_entry; [done|exact Hw|]. apply elem_of_app. by right.
    + intros Hb. apply (Hbl k Hb). rewrite list_elem_of_fmap. by exists (k, e).
    + by apply (Hel (k, e)).
  - lia.
  - intros Hlt Hr Habl k e Hke Hkb Hus. rewrite (Hfilter Hr Habl) in Hfree.
    assert (Hempty : index ht' = ∅).
    { unfold index. rewrite (Hall Hlt). apply omap_empty. }
    pose proof (wo_index _ _ _ Hw) as Hidx. rewrite Hempty, (right_id_L ∅ (∪)) in Hidx.
    rewrite Hidx in Hke. apply elem_of_list_to_map in Hke; [|by apply (wo_nodup _ _ _ Hw)].
    apply elem_of_app in Hke as [Hke|Hke].
    + destruct Hkb. apply Hkes. rewrite list_elem_of_fmap. by exists (k, e).
    + rewrite list_elem_of_fmap. exists (k, e). split; [done|].
      rewrite Hfree by lia. apply list_elem_of_filter. split; [by apply candidate_usable|done].
Qed.

Lemma SelectRandom_runs (ht : HT) n bl bks abl abks :
  ht_ok ht -> scored ht -> keys_are bl bks -> keys_are abl abks ->
  exists sel ht', SelectRandom LookupIP BigIntn n bl abl ht = Ret (he_HostDBEntry <$> sel.*2) ht' /\
    ht_ok ht' /\ settings ht' = settings ht /\ index ht' = index ht /\
    random_selection n bks abl ht sel.
Proof.
  intros Hok Hsc Hbl Habl.
  destruct (filter_hosts_ok ht abl abks (NewFilter (ht_iprestriction ht)) Hok Habl)
    as (filter & Hf & Hfilter).
  destruct (remove_blacklisted_ok ht bl bks Hbl 0 [] ht (without_nil _ Hok))
    as (kes & ht1 & Hrun & Hw & Hin & Hgone & _).
  change (remove_blacklisted bl ht = Ret kes.*2 ht1) in Hrun. cbn [app] in Hw.
  destruct (select_loop_ok ht n Hsc (size (ht_hosts ht1)) 0 filter [] kes ht1 Hw ltac:(done))
    as (sel & new & ht2 & Hloop & Hsel).
  destruct (reinsert_ok ht Hok (kes ++ new) ht2 (se_without _ _ _ _ _ _ _ _ Hsel))
    as (ht' & Hre & Hok' & Hset & Hidx).
  exists sel, ht'. split.
  { unfold SelectRandom, mbind, M_bind, get. by rewrite Hf, Hrun, Hloop, Hre. }
  split_and!; try done.
  apply (selection_of ht ht2 bks abl n kes sel new filter); try done.
  - intros k Hk Hnew. pose proof (se_without _ _ _ _ _ _ _ _ Hsel) as Hw2.
    apply list_elem_of_fmap in Hnew as ([k' e] & -> & Hnew). cbn in Hk.
    assert (Hi : index ht !! k' = Some e).
    { eapply without_entry; [done|exact Hw2|]. apply elem_of_app. by right. }
    rewrite (wo_index _ _ _ Hw), lookup_union_r, (Hgone k' Hk) in Hi; [done|].
    apply not_elem_of_list_to_map. pose proof (wo_nodup _ _ _ Hw2) as Hnd.
    rewrite fmap_app, NoDup_app in Hnd. destruct Hnd as (_ & Hdis & _). intros Hkes.
    apply (Hdis k' Hkes). rewrite list_elem_of_fmap. by exists (k', e).
  - intros Hr Ha. rewrite (Hfilter Ha), Hr. done.
Qed.

(** ** SetWeightFunction *)

Context (order : list (hostEntry R) -> list (hostEntry R)).
Hypothesis order_perm : forall l, order l ≡ₚ l.

Lemma entries_of_ok (ht : HT) kps :
  ht_ok ht -> Forall (fun kp => ht_hosts ht !! kp.1 = Some kp.2) kps ->
  exists kes, entries_of kps.*2 ht = Ret kes.*2 ht /\ kes.*1 = kps.*1 /\
    Forall (fun ke => index ht !! ke.1 = Some ke.2) kes.
Proof.
  intros Hok. induction 1 as [|[k p] kps Hp Hps IH]; [by exists []|].
  destruct IH as (kes & Hrun & Hk & Hall).
  destruct (entry_of_Some _ _ _ Hok Hp) as (e & Hi & Hent).
  exists ((k, e) :: kes). rewrite !fmap_cons. cbn [snd fst entries_of] in *.
  unfold mbind, M_bind. rewrite Hent, Hrun, Hk. split_and!; [done|done|by constructor].
Qed.

(** All hosts, in the order the sort leaves them. *)
Lemma all_ok (ht : HT) :
  ht_ok ht ->
  exists kes, all order ht = Ret (he_HostDBEntry <$> kes.*2) ht /\ NoDup kes.*1 /\
    index ht = list_to_map kes.
Proof.
  intros Hok. destruct (entries_of_ok ht (map_to_list (ht_hosts ht)) Hok) as (kes & Hrun & Hk & Hall).
  { apply Forall_forall. intros [k p]. by rewrite elem_of_map_to_list. }
  assert (Hnd : NoDup kes.*1) by (rewrite Hk; apply NoDup_fst_map_to_list).
  assert (Hidx : index ht = list_to_map kes).
  { apply map_eq. intros k. destruct (index ht !! k) as [e|] eqn:Hi; symmetry.
    - apply elem_of_list_to_map; [done|].
      pose proof Hi as (p & Hp & _)%index_Some; [|done].
      assert (k ∈ kes.*1) as ([k' e'] & -> & Hin)%list_elem_of_fmap.
      { rewrite Hk, list_elem_of_fmap. exists (k, p). by rewrite elem_of_map_to_list. }
      rewrite Forall_forall in Hall. specialize (Hall _ Hin). cbn in *. congruence.
    - apply not_elem_of_list_to_map. intros ([k' e'] & -> & Hin)%list_elem_of_fmap.
      rewrite Forall_forall in Hall. specialize (Hall _ Hin). cbn in *. congruence. }
  destruct (Permutation_map_inv snd kes (order_perm kes.*2)) as (kes' & Heq & Hperm).
  exists kes'. split_and!.
  - unfold all, mbind, M_bind, get. rewrite Hrun. cbv beta iota.
    unfold mret, M_ret. f_equal. f_equal. exact Heq.
  - by rewrite <- Hperm.
  - rewrite Hidx. by apply list_to_map_proper.
Qed.

Lemma insert_all_ok kes : forall i (ht : HT),
  ht_ok ht -> NoDup kes.*1 -> Forall (fun ke => entry_key ke.2 = Some ke.1) kes ->
  (forall k, k ∈ kes.*1 -> index ht !! k = None) ->
  exists ht', for_fold (fun _ hdbe errs => insert_tallied hdbe errs) i
      (he_HostDBEntry <$> kes.*2) [] ht = Ret [] ht' /\
    ht_ok ht' /\ settings ht' = settings ht /\
    he_HostDBEntry <$> index ht'
    = (he_HostDBEntry <$> list_to_map kes) ∪ (he_HostDBEntry <$> index ht).
Proof.
  induction kes as [|[k e] kes IH]; intros i ht Hok Hnd Hkeys Hfree.
  { exists ht. split_and!; try done. by rewrite list_to_map_nil, fmap_empty, (left_id_L ∅ (∪)). }
  cbn in Hnd. apply NoDup_cons in Hnd as [Hnew Hnd]. inversion Hkeys as [|? ? Hk Hkeys']; subst.
  pose proof (insert_spec ht (he_HostDBEntry e) k Hok Hk) as Hins.
  rewrite (Hfree k) in Hins by (by left). destruct Hins as (ht1 & Hrun & Hok1 & Hset1 & Hidx1).
  cbn [fmap list_fmap snd]. rewrite for_fold_cons. unfold insert_tallied at 1. rewrite Hrun.
  destruct (IH (i + 1) ht1 Hok1 Hnd Hkeys') as (ht' & Hrun' & Hok' & Hset' & Hidx').
  { intros k' Hk'. rewrite Hidx1, lookup_insert_ne by congruence. apply Hfree. by right. }
  exists ht'. split_and!; [exact Hrun'|done|congruence|].
  rewrite Hidx', Hidx1, list_to_map_cons, !fmap_insert, <- insert_union_l, <- insert_union_r; [done|].
  rewrite lookup_fmap, not_elem_of_list_to_map_1; done.
Qed.

Lemma SetWeightFunction_spec (ht : HT) wf :
  ht_ok ht ->
  exists ht', SetWeightFunction order wf ht = Ret [] ht' /\ ht_ok ht' /\
    settings ht' = (wf, ht_iprestriction ht) /\
    he_HostDBEntry <$> index ht' = he_HostDBEntry <$> index ht.
Proof.
  intros Hok. destruct (all_ok ht Hok) as (kes & Hall & Hnd & Hidx).
  set (ht1 := mkHostTree empty_root ∅ wf (ht_iprestriction ht)).
  assert (Hok1 : ht_ok ht1).
  { destruct (New_ok wf) as [T1 T2 T3 T4 T5 T6]. by constructor. }
  assert (Hidx1 : index ht1 = ∅) by (unfold index; cbn; apply omap_empty).
  destruct (insert_all_ok kes 0 ht1 Hok1 Hnd) as (ht' & Hrun & Hok' & Hset & Hidx').
  - apply Forall_forall. intros [k e] Hke. cbn. apply (index_key ht); [done|].
    rewrite Hidx. by apply elem_of_list_to_map.
  - intros k _. by rewrite Hidx1.
  - exists ht'. unfold SetWeightFunction, mbind, M_bind. rewrite Hall. split_and!; try done.
    rewrite Hidx', Hidx1, Hidx, fmap_empty. by rewrite (right_id_L ∅ (∪)).
Qed.

(** ** The tree as a map of hosts *)

Definition contents (ht : HT) : gmap bytes (HostDBEntry R) := he_HostDBEntry <$> index ht.

Inductive call :=
| CInsert (h : HostDBEntry R)
| CRemove (pk : SiaPublicKey)
| CModify (h : HostDBEntry R)
| CSetFiltered (pk : SiaPublicKey) (filtered : bool)
| CSetWeightFunction (wf : HostDBEntry R -> Currency)
| CSetIPRestriction (numhosts : Z)
| CSelectRandom (n : Z) (blacklist addressBlacklist : list SiaPublicKey).

Definition run_call (c : call) : M HT () :=
  match c with
  | CInsert h => Insert h
  | CRemove pk => Remove pk
  | CModify h => Modify h
  | CSetFiltered pk b => SetFiltered pk b
  | CSetWeightFunction wf =>
      errs ← SetWeightFunction order wf;
      match errs with [] => mret () | e :: _ => throw e end
  | CSetIPRestriction z => SetIPRestriction z
  | CSelectRandom n bl abl => _ ← SelectRandom LookupIP BigIntn n bl abl; mret ()
  end.

Definition call_keys (c : call) : list SiaPublicKey :=
  match c with
  | CInsert h | CModify h => [hdb_PublicKey h]
  | CRemove pk | CSetFiltered pk _ => [pk]
  | CSelectRandom _ bl abl => bl ++ abl
  | _ => []
  end.
(** New weight functions give positive weights. *)
Definition call_ok (c : call) : Prop :=
  Forall (fun pk => is_Some (SiaPublicKey_String pk)) (call_keys c) /\
  match c with CSetWeightFunction wf => forall h, (0 < wf h)%N | _ => True end.

Abbreviation hosts_map := (gmap bytes (HostDBEntry R)).

(** What a call does to the map of hosts, and its error. *)
Definition abs_call (c : call) (m : hosts_map) : err * hosts_map :=
  let key pk := default [] (SiaPublicKey_String pk) in
  match c with
  | CInsert h =>
      let k := key (hdb_PublicKey h) in
      match m !! k with Some _ => (Some ErrHostExists, m) | None => (None, <[k := h]> m) end
  | CRemove pk =>
      match m !! key pk with None => (Some ErrNoSuchHost, m) | Some _ => (None, delete (key pk) m) end
  | CModify h =>
      let k := key (hdb_PublicKey h) in
      match m !! k with None => (Some ErrNoSuchHost, m) | Some _ => (None, <[k := h]> m) end
  | CSetFiltered pk b =>
      match m !! key pk with
      | None => (Some ErrNoSuchHost, m)
      | Some h =>
          (None, <[key pk := mkHostDBEntry (hdb_PublicKey h) (hdb_NetAddress h)
                     (hdb_AcceptingContracts h) (hdb_ScanHistory h) b (hdb_rest h)]> m)
      end
  | _ => (None, m)
  end.

Lemma contents_lookup (ht : HT) k : contents ht !! k = he_HostDBEntry <$> index ht !! k.
Proof. apply lookup_fmap. Qed.
Lemma contents_insert (ht ht' : HT) k e :
  index ht' = <[k := e]> (index ht) -> contents ht' = <[k := he_HostDBEntry e]> (contents ht).
Proof. unfold contents. intros ->. apply fmap_insert. Qed.
Lemma contents_delete (ht ht' : HT) k :
  index ht' = delete k (index ht) -> contents ht' = delete k (contents ht).
Proof. unfold contents. intros ->. apply fmap_delete. Qed.

Lemma scored_settings (ht ht' : HT) : settings ht' = settings ht -> scored ht -> scored ht'.
Proof. intros [Hwf _]%settings_eq Hsc h. rewrite Hwf. apply Hsc. Qed.

Lemma Modify_refines (ht : HT) h k :
  ht_ok ht -> scored ht -> SiaPublicKey_String (hdb_PublicKey h) = Some k ->
  match Modify h ht with
  | Ret _ ht' =>
      ht_ok ht' /\ scored ht' /\ is_Some (contents ht !! k) /\ contents ht' = <[k := h]> (contents ht)
  | Err e ht' => e = ErrNoSuchHost /\ ht' = ht /\ contents ht !! k = None
  | Panic _ => False
  end.
Proof.
  intros Hok Hsc Hk. pose proof (Modify_spec ht h k Hok Hk) as Hm. rewrite contents_lookup.
  destruct (index ht !! k) as [e|] eqn:Hi.
  - destruct Hm as (ht' & -> & Hok' & Hset & Hidx). split_and!; try done.
    + by eapply scored_settings.
    + by apply contents_insert in Hidx.
  - by rewrite Hm.
Qed.

Lemma contents_key (ht : HT) k h :
  ht_ok ht -> contents ht !! k = Some h -> SiaPublicKey_String (hdb_PublicKey h) = Some k.
Proof.
  intros Hok. rewrite contents_lookup. intros (e & Hi & ->)%fmap_Some.
  by apply (index_key ht k e Hok) in Hi.
Qed.

Lemma keys_exist pks :
  Forall (fun pk => is_Some (SiaPublicKey_String pk)) pks -> exists ks, keys_are pks ks.
Proof.
  induction 1 as [|pk pks [k Hk] _ [ks IH]]; [exists []; constructor|].
  exists (k :: ks). by constructor.
Qed.

(** C29. The host tree is a map of hosts.  On a tree that satisfies its
    invariant (weights and counts are the sums over the subtrees, the index
    lists exactly the hosts of the tree, each under its key and with the weight
    its score gives it), every operation returns without a panic, keeps the
    invariant, and changes the map of hosts and reports errors as [abs_call]
    says; in particular [SelectRandom] and [SetWeightFunction] leave the hosts
    as they are. *)
Theorem run_call_refines (ht : HT) c :
  ht_ok ht -> scored ht -> call_ok c ->
  match run_call c ht with
  | Ret _ ht' => ht_ok ht' /\ scored ht' /\ abs_call c (contents ht) = (None, contents ht')
  | Err e ht' => ht_ok ht' /\ scored ht' /\ abs_call c (contents ht) = (Some e, contents ht')
  | Panic _ => False
  end.
Proof.
  intros Hok Hsc [Hkeys Hwf].
  destruct c as [h|pk|h|pk b|wf|z|n bl abl]; cbn [run_call abs_call call_keys] in *.
  - rewrite Forall_singleton in Hkeys. destruct Hkeys as [k Hk].
    rewrite Hk. cbn [default id]. rewrite contents_lookup.
    pose proof (insert_spec ht h k Hok Hk) as Hi. unfold Insert.
    destruct (index ht !! k) as [e|]; [rewrite Hi; by split_and!|].
    destruct Hi as (ht' & -> & Hok' & Hset & Hidx). cbn.
    split_and!; [done|by eapply scored_settings|]. by apply contents_insert in Hidx as ->.
  - rewrite Forall_singleton in Hkeys. destruct Hkeys as [k Hk].
    rewrite Hk. cbn [default id]. rewrite contents_lookup.
    pose proof (Remove_spec ht pk k Hok Hk) as Hi.
    destruct (index ht !! k) as [e|]; [|rewrite Hi; by split_and!].
    destruct Hi as (ht' & -> & Hok' & Hset & Hidx). cbn.
    split_and!; [done|by eapply scored_settings|]. by apply contents_delete in Hidx as ->.
  - rewrite Forall_singleton in Hkeys. destruct Hkeys as [k Hk]. rewrite Hk. cbn [default id].
    pose proof (Modify_refines ht h k Hok Hsc Hk) as Hm.
    destruct (Modify h ht) as [[] ht'|e ht'|]; [| |done].
    + destruct Hm as (? & ? & [h' ->] & ->). by split_and!.
    + destruct Hm as (-> & -> & ->). by split_and!.
  - rewrite Forall_singleton in Hkeys. destruct Hkeys as [k Hk]. rewrite Hk. cbn [default id].
    unfold SetFiltered, mbind, M_bind. rewrite (Select_spec ht pk k Hok Hk), <- contents_lookup.
    destruct (contents ht !! k) as [h|] eqn:Hh; [|by split_and!].
    set (h' := mkHostDBEntry _ _ _ _ _ _).
    pose proof (Modify_refines ht h' k Hok Hsc (contents_key _ _ _ Hok Hh)) as Hm.
    destruct (Modify h' ht) as [[] ht'|e ht'|]; [| |done].
    + destruct Hm as (? & ? & _ & ->). by split_and!.
    + destruct Hm as (_ & _ & Hn). congruence.
  - unfold mbind, M_bind. destruct (SetWeightFunction_spec ht wf Hok) as (ht' & -> & Hok' & Hset & Hidx).
    unfold mret, M_ret, contents. rewrite Hidx. split_and!; try done.
    intros h. by injection Hset as -> _.
  - split_and!; try done. by destruct Hok.
  - rewrite Forall_app in Hkeys. destruct Hkeys as [(bks & Hbl)%keys_exist (abks & Habl)%keys_exist].
    unfold mbind, M_bind.
    destruct (SelectRandom_runs ht n bl bks abl abks Hok Hsc Hbl Habl)
      as (sel & ht' & -> & Hok' & Hset & Hidx & _).
    unfold mret, M_ret, contents. rewrite Hidx. split_and!; try done. by eapply scored_settings.
Qed.

(** C31. [SelectRandom] on a tree that satisfies its invariant: it returns at
    most [n] hosts of the tree, none twice and none of the blacklist, each of
    them a candidate: accepting contracts, online at its last scan, with a
    weight above one and an address that resolves to at most two IP addresses,
    which are not of one kind if there are two.  If it returns fewer than [n],
    the restriction on subnets being off and the address blacklist empty, then
    it returns every candidate outside of the blacklist. *)
Theorem SelectRandom_spec (ht : HT) n bl bks abl abks :
  ht_ok ht -> scored ht -> keys_are bl bks -> keys_are abl abks ->
  exists sel ht', SelectRandom LookupIP BigIntn n bl abl ht = Ret (he_HostDBEntry <$> sel.*2) ht' /\
    random_selection n bks abl ht sel.
Proof.
  intros Hok Hsc Hbl Habl.
  destruct (SelectRandom_runs ht n bl bks abl abks Hok Hsc Hbl Habl)
    as (sel & ht' & Hrun & _ & _ & _ & Hsel). by exists sel, ht'.
Qed.

(** C30. Random selection is proportional to weight.  On a tree that satisfies
    its invariant the weight of the root is the sum of the weights of the
    hosts; every weight below it leads [nodeAtWeight] to a host; and the
    weights that lead to a host form an interval as long as its own weight. *)
Theorem nodeAtWeight_proportional (ht : HT) :
  ht_ok ht ->
  node_weight (ht_root ht) = msum he_weight (index ht) /\
  (forall w, (w < node_weight (ht_root ht))%N ->
     exists k p e, nodeAtWeight (ht_root ht) w = Some p /\ ht_hosts ht !! k = Some p /\
       index ht !! k = Some e) /\
  (forall k p e, ht_hosts ht !! k = Some p -> index ht !! k = Some e ->
     exists lo, (lo + he_weight e <= node_weight (ht_root ht))%N /\
       forall w, (w < node_weight (ht_root ht))%N ->
         nodeAtWeight (ht_root ht) w = Some p <-> (lo <= w < lo + he_weight e)%N).
Proof.
  intros Hok. split_and!.
  - apply (hto_weight _ Hok).
  - intros w Hw. destruct (nodeAtWeight_total _ w (hto_tree _ Hok) Hw) as (p & e & Hp & He).
    destruct (hto_keys _ Hok _ _ He) as [k Hk].
    assert (Hpk : ht_hosts ht !! k = Some p) by (apply (hto_index _ Hok); by exists e).
    exists k, p, e. split_and!; try done. apply index_Some; [done|]. by exists p.
  - intros k p e Hp Hi. destruct (index_path _ _ _ Hok Hp) as (e' & Hi' & He).
    assert (e' = e) as -> by congruence.
    apply (host_owns _ p e (hto_tree _ Hok) He).
Qed.

End select.

(** ** A tree with two hosts *)

Definition two_pk (b : byte) : SiaPublicKey := mkSiaPublicKey SignatureEd25519 (replicate 32 b).
Definition two_host (b : byte) : HostDBEntry () :=
  mkHostDBEntry (two_pk b) [b] true [false; true] false ().
Definition two_score (h : HostDBEntry ()) : Currency := 7%N.
Definition two_lookup (addr : bytes) : option (list IP) := Some [replicate 4 Byte.x01].
Definition two_rand (i : nat) (n : N) : N := (N.of_nat i * 5 mod n)%N.
Lemma two_rand_lt i n : (0 < n)%N -> (two_rand i n < n)%N.
Proof. intros Hn. apply N.mod_lt. lia. Qed.

Definition after {S A} (m : M S A) (s : S) : S := match m s with Ret _ s' => s' | _ => s end.
Definition two_tree : HostTree () :=
  after (insert (two_host Byte.x02)) (after (insert (two_host Byte.x01)) (New two_score)).
Definition two_key (b : byte) : bytes := default [] (SiaPublicKey_String (two_pk b)).

Lemma after_insert_ok ht h :
  ht_ok ht -> is_Some (SiaPublicKey_String (hdb_PublicKey h)) -> ht_ok (after (insert (R:=()) h) ht).
Proof.
  intros Hok [k Hk]. unfold after. pose proof (insert_spec ht h k Hok Hk) as Hi.
  destruct (index ht !! k); [by rewrite Hi|]. by destruct Hi as (ht' & -> & ? & _).
Qed.
Lemma two_tree_ok : ht_ok two_tree.
Proof. repeat (apply after_insert_ok; [|by eexists]). apply New_ok. Qed.
Lemma two_tree_scored : scored two_tree.
Proof. intros h. vm_compute. reflexivity. Qed.

Lemma run_call_refines_witness :
  ht_ok two_tree /\
  match run_call two_lookup two_rand id (CRemove (two_pk Byte.x02)) two_tree with
  | Ret _ ht' => ht_ok ht' /\ contents ht' = delete (two_key Byte.x02) (contents two_tree)
  | _ => False
  end.
Proof.
  split; [exact two_tree_ok|].
  pose proof (run_call_refines two_lookup two_rand two_rand_lt id (fun l => reflexivity l)
    two_tree (CRemove (two_pk Byte.x02)) two_tree_ok two_tree_scored) as H.
  assert (Hc : call_ok (R:=()) (CRemove (two_pk Byte.x02)))
    by (split; [repeat constructor; by eexists|exact I]).
  specialize (H Hc).
  assert (Hrun : match run_call two_lookup two_rand id (CRemove (two_pk Byte.x02)) two_tree with
                 | Ret _ _ => true | _ => false end = true) by (vm_compute; reflexivity).
  destruct (run_call two_lookup two_rand id (CRemove (two_pk Byte.x02)) two_tree) as [[] ht'| |];
    [|discriminate Hrun..].
  destruct H as (Hok & _ & Habs). split; [exact Hok|].
  assert (Hin : is_Some (contents two_tree !! two_key Byte.x02)) by (vm_compute; by eexists).
  destruct Hin as [h Hh]. cbn [abs_call] in Habs.
  change (default [] (SiaPublicKey_String (two_pk Byte.x02))) with (two_key Byte.x02) in Habs.
  rewrite Hh in Habs. exact (eq_sym (f_equal snd Habs)).
Defined.

Lemma SelectRandom_spec_witness :
  exists sel ht',
    SelectRandom two_lookup two_rand 5 [two_pk Byte.x01] [] two_tree
      = Ret (he_HostDBEntry <$> sel.*2) ht' /\
    two_key Byte.x02 ∈ sel.*1.
Proof.
  destruct (SelectRandom_spec two_lookup two_rand two_rand_lt two_tree 5
    [two_pk Byte.x01] [two_key Byte.x01] [] [] two_tree_ok two_tree_scored) as (sel & ht' & Hrun & Hsel).
  - repeat constructor.
  - constructor.
  - exists sel, ht'. split; [exact Hrun|].
    assert (Hlen : match SelectRandom two_lookup two_rand 5 [two_pk Byte.x01] [] two_tree with
                   | Ret l _ => length l | _ => 9%nat end = 1%nat) by (vm_compute; reflexivity).
    rewrite Hrun, !length_fmap in Hlen.
    destruct (index two_tree !! two_key Byte.x02) as [e|] eqn:He; [|by vm_compute in He].
    apply (rs_all _ _ _ _ _ _ Hsel) with e; [rewrite Hlen; lia|reflexivity|reflexivity|exact He| |].
    + intros H. vm_compute in H. by apply list_elem_of_singleton in H.
    + vm_compute in He. injection He as <-. split; [vm_compute; reflexivity|].
      eexists. split; [reflexivity|]. split; [cbn; lia|discriminate].
Defined.

Lemma nodeAtWeight_proportional_witness :
  node_weight (ht_root two_tree) = msum he_weight (index two_tree) /\
  exists k p e, nodeAtWeight (ht_root two_tree) 9%N = Some p /\
    ht_hosts two_tree !! k = Some p /\ index two_tree !! k = Some e.
Proof.
  destruct (nodeAtWeight_proportional two_tree two_tree_ok) as (Hw & Htot & _).
  split; [exact Hw|]. apply Htot. vm_compute. reflexivity.
Defined.
