(* ===== verification/MinimumSet.v ===== *)
(** * The minimum transaction set

    types/typesutil/minimumtransactionsetexports.go: the parents that a set of
    transactions needs, picked out of a set of related transactions.  A Go map
    that is only used as a set is a [gset]; the order in which the iteration
    over one returns its elements is the argument [range]. *)

From S2P Require Import Prelude Bytes Interfaces Currency Types Params Encoding Transactions.

Open Scope Z_scope.

Section objects.
Context {C : Crypto} {E : SiaEncoding}.

(** The IDs of the objects a transaction consumes or revises. *)
Definition input_ids (t : Transaction) : list Hash :=
  (sci_ParentID <$> t_SiacoinInputs t) ++
  (fcr_ParentID <$> t_FileContractRevisions t) ++
  (sp_ParentID <$> t_StorageProofs t) ++
  (sfi_ParentID <$> t_SiafundInputs t).

(** The IDs of the objects it creates; [for j := range l] gives the index. *)
Definition output_ids (t : Transaction) : list Hash :=
  imap (fun j _ => Transaction_SiacoinOutputID t (Z.of_nat j)) (t_SiacoinOutputs t) ++
  imap (fun j _ => Transaction_FileContractID t (Z.of_nat j)) (t_FileContracts t) ++
  imap (fun j _ => Transaction_SiafundOutputID t (Z.of_nat j)) (t_SiafundOutputs t).

(** [potentialSources]: the last transaction that creates an object. *)
Definition potentialSources (relatedTxns : list Transaction) : gmap Hash Transaction :=
  fold_left (fun m t => fold_left (fun m oid => <[oid := t]> m) (output_ids t) m)
    relatedTxns ∅.

Definition inputs_of (txns : list Transaction) : gset Hash :=
  list_to_set (txns ≫= input_ids).

Record scan := mkScan {
  sc_newRequiredInputs : gset Hash;
  sc_visitedInputs : gset Hash;
  sc_requiredParents : list Transaction
}.

(** The body of the inner loop. *)
Definition scan_input (sources : gmap Hash Transaction) (includedTxns : gset Hash)
    (s : scan) (ri : Hash) : scan :=
  if bool_decide (ri ∈ sc_visitedInputs s) then s
  else
    let visited := {[ri]} ∪ sc_visitedInputs s in
    match sources !! ri with
    | None => mkScan (sc_newRequiredInputs s) visited (sc_requiredParents s)
    | Some txn =>
        if bool_decide (Transaction_ID txn ∈ includedTxns)
        then mkScan (sc_newRequiredInputs s) visited (sc_requiredParents s)
        else mkScan (inputs_of [txn] ∪ sc_newRequiredInputs s) visited
               (sc_requiredParents s ++ [txn])
    end.

(** The outer loop; [fuel] bounds the number of rounds. *)
Fixpoint scan_rounds (range : list Hash -> list Hash) (sources : gmap Hash Transaction)
    (includedTxns : gset Hash) (fuel : nat) (requiredInputs visitedInputs : gset Hash)
    (requiredParents : list Transaction) : option (list Transaction) :=
  if bool_decide (requiredInputs = ∅) then Some requiredParents
  else
    match fuel with
    | O => None
    | S fuel =>
        let s := fold_left (scan_input sources includedTxns)
                   (range (elements requiredInputs))
                   (mkScan ∅ visitedInputs requiredParents) in
        scan_rounds range sources includedTxns fuel (sc_newRequiredInputs s)
          (sc_visitedInputs s) (sc_requiredParents s)
    end.

(** Every round but the last visits an input for the first time. *)
Definition scan_fuel (requiredTxns relatedTxns : list Transaction) : nat :=
  2 + size (inputs_of (requiredTxns ++ relatedTxns)).

Definition MinimumTransactionSet (range : list Hash -> list Hash)
    (requiredTxns relatedTxns : list Transaction) : option (list Transaction) :=
  let includedTxns : gset Hash := list_to_set (Transaction_ID <$> requiredTxns) in
  requiredParents ← scan_rounds range (potentialSources relatedTxns) includedTxns
    (scan_fuel requiredTxns relatedTxns) (inputs_of requiredTxns) ∅ [];
  Some (reverse requiredParents ++ requiredTxns).

(** ** What the set holds *)

(** The parents [MinimumTransactionSet] is meant to find: those that create an
    object a required transaction consumes, and in turn the parents of
    those. *)
Inductive needed (requiredTxns relatedTxns : list Transaction) : Transaction -> Prop :=
| needed_required t oid p :
    t ∈ requiredTxns -> oid ∈ input_ids t ->
    potentialSources relatedTxns !! oid = Some p ->
    Transaction_ID p ∉ Transaction_ID <$> requiredTxns ->
    needed requiredTxns relatedTxns p
| needed_parent t oid p :
    needed requiredTxns relatedTxns t -> oid ∈ input_ids t ->
    potentialSources relatedTxns !! oid = Some p ->
    Transaction_ID p ∉ Transaction_ID <$> requiredTxns ->
    needed requiredTxns relatedTxns p.

Lemma elem_of_inputs_of oid txns :
  oid ∈ inputs_of txns <-> exists t, t ∈ txns /\ oid ∈ input_ids t.
Proof.
  unfold inputs_of. rewrite elem_of_list_to_set, list_elem_of_bind. naive_solver.
Qed.

Section rounds.
Context (range : list Hash -> list Hash) (Hrange : forall l, range l ≡ₚ l).
Context (req rel : list Transaction).

Abbreviation sources := (potentialSources rel).
Abbreviation included := (list_to_set (Transaction_ID <$> req) : gset Hash).

(** A source that is not one of the required transactions. *)
Definition parent_via (oid : Hash) (p : Transaction) : Prop :=
  sources !! oid = Some p /\ Transaction_ID p ∉ Transaction_ID <$> req.

(** What a scan has done: the parents found are needed, the objects waiting
    are consumed by a needed or a required transaction, and every input of a
    transaction found is waiting or visited. *)
Record scan_ok (todo : gset Hash) (s : scan) : Prop := {
  so_needed t : t ∈ sc_requiredParents s -> needed req rel t;
  so_todo oid : oid ∈ todo \/ oid ∈ sc_newRequiredInputs s ->
    exists t, (t ∈ req \/ needed req rel t) /\ oid ∈ input_ids t;
  so_closed t oid : t ∈ req \/ t ∈ sc_requiredParents s -> oid ∈ input_ids t ->
    oid ∈ todo \/ oid ∈ sc_newRequiredInputs s \/ oid ∈ sc_visitedInputs s;
  so_visited oid p : oid ∈ sc_visitedInputs s -> parent_via oid p ->
    p ∈ sc_requiredParents s
}.

(** Membership in what is left to do. *)
Lemma todo_cons oid ri (l : list Hash) :
  oid ∈ (list_to_set (ri :: l) : gset Hash) <-> oid = ri \/ oid ∈ (list_to_set l : gset Hash).
Proof. by rewrite !elem_of_list_to_set, elem_of_cons. Qed.

Lemma scan_visit_ok l s ri :
  scan_ok (list_to_set (ri :: l)) s -> (forall p, ~ parent_via ri p) ->
  scan_ok (list_to_set l)
    (mkScan (sc_newRequiredInputs s) ({[ri]} ∪ sc_visitedInputs s) (sc_requiredParents s)).
Proof.
  intros [Hn Ht Hc Hv] Hno.
  split; cbn [sc_newRequiredInputs sc_visitedInputs sc_requiredParents]; [done| | |].
  - intros oid Hoid. apply Ht. rewrite todo_cons. tauto.
  - intros t oid Ht' Hoid. specialize (Hc t oid Ht' Hoid). rewrite todo_cons in Hc.
    rewrite elem_of_union, elem_of_singleton. tauto.
  - intros oid p [->%elem_of_singleton|Hoid]%elem_of_union Hp; [by destruct (Hno p)|].
    by eapply Hv.
Qed.

Lemma scan_found_ok l s ri p :
  scan_ok (list_to_set (ri :: l)) s -> parent_via ri p ->
  scan_ok (list_to_set l)
    (mkScan (inputs_of [p] ∪ sc_newRequiredInputs s) ({[ri]} ∪ sc_visitedInputs s)
       (sc_requiredParents s ++ [p])).
Proof.
  intros [Hn Ht Hc Hv] Hp.
  assert (Hneed : needed req rel p).
  { destruct Hp as [Hp Hid], (Ht ri) as (t & [Hreq|Hneed] & Hoid);
      [left; apply todo_cons; by left|by eapply needed_required|by eapply needed_parent]. }
  assert (Hins : forall oid, oid ∈ inputs_of [p] <-> oid ∈ input_ids p).
  { intros oid. rewrite elem_of_inputs_of. setoid_rewrite list_elem_of_singleton. naive_solver. }
  split; cbn [sc_newRequiredInputs sc_visitedInputs sc_requiredParents].
  - intros t [Hin'| ->%list_elem_of_singleton]%elem_of_app; [by apply Hn|done].
  - intros oid. rewrite elem_of_union, Hins. intros [Hoid|[Hoid|Hoid]]; [|by eauto|].
    + apply Ht. rewrite todo_cons. tauto.
    + apply Ht. by right.
  - intros t oid. rewrite elem_of_app, list_elem_of_singleton, !elem_of_union, elem_of_singleton, Hins.
    intros Ht' Hoid.
    assert ((t ∈ req \/ t ∈ sc_requiredParents s) \/ t = p) as [Hold| ->] by tauto; [|tauto].
    specialize (Hc t oid Hold Hoid). rewrite todo_cons in Hc. tauto.
  - intros oid q [->%elem_of_singleton|Hoid]%elem_of_union Hq; apply elem_of_app.
    + right. apply list_elem_of_singleton. destruct Hp, Hq. congruence.
    + left. by eapply Hv.
Qed.

Lemma scan_input_ok l s ri :
  scan_ok (list_to_set (ri :: l)) s ->
  scan_ok (list_to_set l) (scan_input sources included s ri).
Proof.
  intros Hs. unfold scan_input. case_bool_decide as Hvis.
  - destruct Hs as [Hn Ht Hc Hv]. split; [done| | |done].
    + intros oid Hoid. apply Ht. rewrite todo_cons. tauto.
    + intros t oid Ht' Hoid. specialize (Hc t oid Ht' Hoid). rewrite todo_cons in Hc.
      destruct Hc as [[->|?]|]; tauto.
  - destruct (sources !! ri) as [p|] eqn:Hp; [case_bool_decide as Hin|];
      try rewrite elem_of_list_to_set in Hin.
    + apply scan_visit_ok; [done|]. intros q [Hq Hq']. congruence.
    + by apply scan_found_ok.
    + apply scan_visit_ok; [done|]. intros q [Hq Hq']. congruence.
Qed.

Lemma scan_fold_ok l s :
  scan_ok (list_to_set l) s -> scan_ok ∅ (fold_left (scan_input sources included) l s).
Proof.
  revert s. induction l as [|ri l IH]; intros s Hs; [done|]. apply IH, scan_input_ok, Hs.
Qed.

(** A new round takes up the objects the last one left. *)
Lemma scan_next_ok s :
  scan_ok ∅ s ->
  scan_ok (sc_newRequiredInputs s) (mkScan ∅ (sc_visitedInputs s) (sc_requiredParents s)).
Proof.
  intros [Hn Ht Hc Hv].
  split; cbn [sc_newRequiredInputs sc_visitedInputs sc_requiredParents]; [done| | |done].
  - intros oid Hoid. apply Ht. rewrite elem_of_empty in *. tauto.
  - intros t oid Ht' Hoid. specialize (Hc t oid Ht' Hoid). rewrite elem_of_empty in *. tauto.
Qed.

(** ** Termination *)

Lemma potentialSources_source oid p : sources !! oid = Some p -> p ∈ rel.
Proof.
  unfold potentialSources.
  assert (Hgen : forall l (m : gmap Hash Transaction), (forall t, t ∈ l -> t ∈ rel) ->
    map_Forall (fun _ q => q ∈ rel) m ->
    map_Forall (fun _ q => q ∈ rel)
      (fold_left (fun m t => fold_left (fun m oid => <[oid := t]> m) (output_ids t) m) l m)).
  { induction l as [|t l IH]; intros m Hl Hm; [done|]. cbn [fold_left].
    apply IH; [intros; apply Hl; by right|].
    assert (Ht : t ∈ rel) by (apply Hl; left).
    generalize (output_ids t). intros os. revert m Hm.
    induction os as [|o os IHo]; intros m Hm; [done|]. cbn [fold_left].
    apply IHo, map_Forall_insert_2; done. }
  intros Hp. by apply (Hgen rel ∅ (fun _ H => H) (map_Forall_empty _) oid p).
Qed.

Abbreviation universe := (inputs_of (req ++ rel)).

Lemma scan_input_frame s ri :
  sc_visitedInputs (scan_input sources included s ri) = {[ri]} ∪ sc_visitedInputs s /\
  (sc_newRequiredInputs s ⊆ universe ->
   sc_newRequiredInputs (scan_input sources included s ri) ⊆ universe) /\
  (ri ∈ sc_visitedInputs s -> scan_input sources included s ri = s).
Proof.
  unfold scan_input. case_bool_decide as Hvis; [split_and!; [|done..]; set_solver +Hvis|].
  destruct (sources !! ri) as [p|] eqn:Hp; [case_bool_decide as Hin|];
    cbn [sc_newRequiredInputs sc_visitedInputs]; split_and!; try done.
  intros Hs oid [(t & ->%list_elem_of_singleton & Hoid)%elem_of_inputs_of|Hoid]%elem_of_union;
    [|by apply Hs].
  apply elem_of_inputs_of. exists p. split; [|done].
  apply elem_of_app. right. by eapply potentialSources_source.
Qed.

Lemma scan_fold_frame l s :
  sc_visitedInputs (fold_left (scan_input sources included) l s) =
    list_to_set l ∪ sc_visitedInputs s /\
  (sc_newRequiredInputs s ⊆ universe ->
   sc_newRequiredInputs (fold_left (scan_input sources included) l s) ⊆ universe) /\
  (list_to_set l ⊆ sc_visitedInputs s -> fold_left (scan_input sources included) l s = s).
Proof.
  revert s. induction l as [|ri l IH]; intros s; cbn [fold_left]; [set_solver +|].
  destruct (scan_input_frame s ri) as (F1 & F2 & F3).
  destruct (IH (scan_input sources included s ri)) as (I1 & I2 & I3). split_and!.
  - rewrite I1, F1. set_solver +.
  - auto.
  - intros Hl. rewrite F3 in * by set_solver +Hl. apply I3. set_solver +Hl.
Qed.

Lemma scan_rounds_total fuel todo visited parents :
  todo ⊆ universe -> visited ⊆ universe ->
  (size universe - size visited < fuel)%nat ->
  scan_ok todo (mkScan ∅ visited parents) ->
  exists parents', scan_rounds range sources included fuel todo visited parents = Some parents' /\
    exists visited', scan_ok ∅ (mkScan ∅ visited' parents').
Proof.
  revert todo visited parents.
  induction fuel as [|fuel IH]; intros todo visited parents Htodo Hvis Hfuel Hok; [lia|].
  cbn [scan_rounds]. case_bool_decide as Hempty; [subst; eauto|].
  assert (Hset : list_to_set (range (elements todo)) = todo).
  { rewrite (list_to_set_perm_L _ _ (Hrange _)). apply list_to_set_elements_L. }
  set (s0 := mkScan ∅ visited parents).
  destruct (scan_fold_frame (range (elements todo)) s0) as (F1 & F2 & F3).
  rewrite Hset in F1, F3. change (sc_visitedInputs s0) with visited in F1, F3.
  rewrite <- Hset in Hok. apply scan_fold_ok, scan_next_ok in Hok. fold s0 in Hok.
  destruct (decide (todo ⊆ visited)) as [Hsub|Hnew].
  - rewrite F3 in * by done. cbn [sc_newRequiredInputs sc_visitedInputs sc_requiredParents s0] in *.
    destruct fuel; cbn [scan_rounds]; rewrite bool_decide_true by done; eauto.
  - apply IH; [apply F2; set_solver +|rewrite F1; set_solver +Htodo Hvis| |done].
    rewrite F1. assert (visited ⊂ todo ∪ visited) as Hlt%subset_size by set_solver +Hnew.
    assert (todo ∪ visited ⊆ universe) as Hle%subseteq_size by set_solver +Htodo Hvis. lia.
Qed.

Lemma scan_start_ok : scan_ok (inputs_of req) (mkScan ∅ ∅ []).
Proof.
  split; cbn [sc_newRequiredInputs sc_visitedInputs sc_requiredParents]; [set_solver +| | |set_solver +].
  - intros oid [(t & Ht & Hoid)%elem_of_inputs_of|[]%elem_of_empty]. eauto.
  - intros t oid [Ht|[]%elem_of_nil] Hoid. left. apply elem_of_inputs_of. eauto.
Qed.

Lemma scan_done_spec visited parents t :
  scan_ok ∅ (mkScan ∅ visited parents) -> t ∈ parents <-> needed req rel t.
Proof.
  intros [Hn _ Hc Hv]. cbn [sc_newRequiredInputs sc_visitedInputs sc_requiredParents] in *.
  split; [apply Hn|].
  induction 1 as [t oid p Ht Hoid Hp Hid|t oid p _ IH Hoid Hp Hid];
    (apply (Hv oid); [|done]).
  - by destruct (Hc t oid (or_introl Ht) Hoid) as [[]%elem_of_empty|[[]%elem_of_empty|]].
  - by destruct (Hc t oid (or_intror IH) Hoid) as [[]%elem_of_empty|[[]%elem_of_empty|]].
Qed.
End rounds.

(** C37. MinimumTransactionSet terminates whatever order the map iterations
    take, keeps the required transactions at the end and in their order, and
    puts in front of them exactly the parents they need: the related
    transactions that create an object consumed by a required transaction or
    by another parent found that way. *)
Theorem MinimumTransactionSet_spec range req rel :
  (forall l, range l ≡ₚ l) ->
  exists parents, MinimumTransactionSet range req rel = Some (parents ++ req) /\
    forall t, t ∈ parents <-> needed req rel t.
Proof.
  intros Hrange.
  destruct (scan_rounds_total range Hrange req rel (scan_fuel req rel) (inputs_of req) ∅ [])
    as (parents & Hrun & visited & Hok).
  - intros oid (t & Ht & Hoid)%elem_of_inputs_of. apply elem_of_inputs_of.
    exists t. rewrite elem_of_app. auto.
  - set_solver +.
  - unfold scan_fuel. lia.
  - apply scan_start_ok.
  - exists (reverse parents). unfold MinimumTransactionSet. rewrite Hrun. split; [done|].
    intros t. rewrite elem_of_reverse. by eapply scan_done_spec.
Qed.
End objects.
