(* ===== verification/TransactionPool.v ===== *)
(** * The transaction pool

    modules/transactionpool: standard.go, accept.go, update.go, subscribe.go,
    transactionpool.go, database.go and persist.go, and the types of
    modules/transactionpool.go.

    The pool is one record.  Its bolt database is a record of the fields the
    code stores under its keys, a bucket of confirmed transactions is a set of
    IDs.  What a subscriber has been sent is kept per subscriber.  The order in
    which the iteration over a Go map returns the keys is the argument [range],
    one order per loop of the source: [range 0], [range 1], and so on.  The
    function that tries a transaction set against the consensus set is an
    argument, as it is in the source; [tryTransactionSet] of
    [ConsensusValid.v] is what the consensus set passes. *)

From S2P Require Import Prelude Bytes Interfaces Currency Types Params Encoding Transactions.
From S2P Require Import ConsensusDB ApplyTransaction ConsensusValid ConsensusSubscribe MinimumSet.

Open Scope Z_scope.

(** ** Data *)

Abbreviation ObjectID := Hash (only parsing).
Abbreviation TransactionSetID := Hash (only parsing).

Definition TransactionSetSizeLimit : Z := 250000.
Definition TransactionSizeLimit : Z := 32000.

Definition PrefixHostAnnouncement : Specifier := NewSpecifier "HostAnnouncement".
Definition PrefixFileContractIdentifier : Specifier := NewSpecifier "FCIdentifier".
Definition PrefixNonSia : Specifier := NewSpecifier "NonSia".

Definition TransactionPoolSizeForFee : Z := 500000.
Definition TransactionPoolSizeTarget : Z := 3000000.
Definition blockFeeEstimationDepth : nat := 6.
Definition maxMultiplier : Z := 3.
Definition feeEstimationConstantPadding : Z := 250000.
Definition minEstimation : Currency :=
  Currency.Div64 (Currency.Div64 ScPrimecoinPrecision 100) 1000.

Record UnconfirmedTransactionSet := mkUnconfirmedTransactionSet {
  ut_Change : option ConsensusChangeDiffs;
  ut_ID : TransactionSetID;
  ut_IDs : list TransactionID;
  ut_Sizes : list Z;
  ut_Transactions : list Transaction
}.

Record TransactionPoolDiff := mkTransactionPoolDiff {
  tpd_AppliedTransactions : list UnconfirmedTransactionSet;
  tpd_RevertedTransactions : list TransactionSetID
}.

Record medianPersist := mkMedianPersist {
  mp_RecentMedians : list Currency;
  mp_RecentMedianFee : Currency
}.

(** The database: a field that was never stored is [None]. *)
Record poolDB := mkPoolDB {
  pd_ConfirmedTransactions : gset TransactionID;
  pd_RecentConsensusChange : option ConsensusChangeID;
  pd_RecentBlockID : option BlockID;
  pd_BlockHeight : option BlockHeight;
  pd_FeeMedian : option medianPersist
}.

(** A subscriber is a name; [tp_sent] is what each has been sent so far. *)
Record TransactionPool := mkTransactionPool {
  tp_knownObjects : gmap ObjectID TransactionSetID;
  tp_subscriberSets : gmap TransactionSetID UnconfirmedTransactionSet;
  tp_transactionHeights : gmap TransactionID BlockHeight;
  tp_transactionSets : gmap TransactionSetID (list Transaction);
  tp_transactionSetDiffs : gmap TransactionSetID ConsensusChangeDiffs;
  tp_transactionListSize : Z;
  tp_blockHeight : BlockHeight;
  tp_recentMedians : list Currency;
  tp_recentMedianFee : Currency;
  tp_subscribers : list Z;
  tp_sent : gmap Z (list TransactionPoolDiff);
  tp_db : poolDB
}.

(** Record updates. *)
Definition with_sets known heights sets diffs size (tp : TransactionPool) : TransactionPool :=
  mkTransactionPool known (tp_subscriberSets tp) heights sets diffs size
    (tp_blockHeight tp) (tp_recentMedians tp) (tp_recentMedianFee tp)
    (tp_subscribers tp) (tp_sent tp) (tp_db tp).
Definition with_heights heights (tp : TransactionPool) : TransactionPool :=
  with_sets (tp_knownObjects tp) heights (tp_transactionSets tp)
    (tp_transactionSetDiffs tp) (tp_transactionListSize tp) tp.
Definition with_chain height medians medianFee db (tp : TransactionPool) : TransactionPool :=
  mkTransactionPool (tp_knownObjects tp) (tp_subscriberSets tp) (tp_transactionHeights tp)
    (tp_transactionSets tp) (tp_transactionSetDiffs tp) (tp_transactionListSize tp)
    height medians medianFee (tp_subscribers tp) (tp_sent tp) db.
Definition with_subscribers subscriberSets subscribers sent (tp : TransactionPool)
  : TransactionPool :=
  mkTransactionPool (tp_knownObjects tp) subscriberSets (tp_transactionHeights tp)
    (tp_transactionSets tp) (tp_transactionSetDiffs tp) (tp_transactionListSize tp)
    (tp_blockHeight tp) (tp_recentMedians tp) (tp_recentMedianFee tp)
    subscribers sent (tp_db tp).
Definition with_db db (tp : TransactionPool) : TransactionPool :=
  with_chain (tp_blockHeight tp) (tp_recentMedians tp) (tp_recentMedianFee tp) db tp.
Definition with_confirmed ids (db : poolDB) : poolDB :=
  mkPoolDB ids (pd_RecentConsensusChange db) (pd_RecentBlockID db) (pd_BlockHeight db)
    (pd_FeeMedian db).

(** ** Fees

    [float64] arithmetic on non-negative values rounds to the nearest 53-bit
    significand, ties to even, which is what [rat_Float64] does to a rational;
    the values here are far inside the normal range.  [math.Pow] with the
    exponent 3 is a square and a product: [x * (x * x)]. *)

Definition float_num (x : Currency.float64) : Z := x.1 * 2 ^ Z.max 0 x.2.
Definition float_den (x : Currency.float64) : Z := 2 ^ Z.max 0 (- x.2).
Definition float_of_int (z : Z) : Currency.float64 := Currency.rat_Float64 z 1.
Definition float_div (x : Currency.float64) (d : Z) : Currency.float64 :=
  Currency.rat_Float64 (float_num x) (float_den x * d).
Definition float_mul (x y : Currency.float64) : Currency.float64 :=
  Currency.rat_Float64 (float_num x * float_num y) (float_den x * float_den y).
Definition float_cube (x : Currency.float64) : Currency.float64 :=
  float_mul x (float_mul x x).
Definition float_trunc (x : Currency.float64) : Z := float_num x / float_den x.

Definition requiredFeesToExtendTpoolAtSize (size : Z) : Currency :=
  let ratioToTarget := float_div (float_of_int size) TransactionPoolSizeTarget in
  let feeFactor := float_cube ratioToTarget in
  Currency.Div64 (Currency.MulFloat ScPrimecoinPrecision feeFactor) 1000.

Definition requiredFeesToExtendTpool (tp : TransactionPool) : Currency :=
  if tp_transactionListSize tp <? TransactionPoolSizeForFee then Currency.ZeroCurrency
  else requiredFeesToExtendTpoolAtSize (tp_transactionListSize tp).

(** The padding by 1.25 is exact in binary. *)
Definition FeeEstimation (tp : TransactionPool) : Currency * Currency :=
  let feeByBlockchain := tp_recentMedianFee tp in
  let sizeAfterConstantPadding := i64 (tp_transactionListSize tp + feeEstimationConstantPadding) in
  let sizeAfterProportionalPadding :=
    float_trunc (float_mul (float_of_int (tp_transactionListSize tp)) (5, -2)) in
  let feeByCurrentTpoolSize :=
    requiredFeesToExtendTpoolAtSize
      (if sizeAfterProportionalPadding <? sizeAfterConstantPadding
       then sizeAfterConstantPadding else sizeAfterProportionalPadding) in
  let min := if 0 <? Currency.Cmp feeByBlockchain feeByCurrentTpoolSize
             then feeByBlockchain else feeByCurrentTpoolSize in
  let min := if Currency.Cmp min minEstimation <? 0 then minEstimation else min in
  (min, Currency.Mul64 min maxMultiplier).

(** The miner fees of a set. *)
Definition set_fees (ts : list Transaction) : Currency :=
  fold_left (fun sum txn => fold_left Currency.Add (t_MinerFees txn) sum) ts
    Currency.ZeroCurrency.

Section pool.
Context {B : Build} {P : Params} {C : Crypto} {E : SiaEncoding}.

(** encoding.Marshal of a transaction and of a set, and the set's ID. *)
Definition txn_size (t : Transaction) : Z := zlen (Transaction_MarshalSia t).
Definition Marshal_set (ts : list Transaction) : bytes := write_slice Transaction_MarshalSia ts.
Definition set_id (ts : list Transaction) : TransactionSetID := HashObject (Marshal_set ts).

Definition CalculateFee (ts : list Transaction) : Currency :=
  Currency.Div64 (set_fees ts) (u64 (zlen (Marshal_set ts))).

(** ** standard.go *)

Definition checkUnlockConditions (uc : UnlockConditions) : err :=
  for_err (fun pk =>
    err_if (bool_decide (spk_Algorithm pk <> SignatureEntropy) &&
            bool_decide (spk_Algorithm pk <> SignatureEd25519)) errUnrecognizedKeyType)
  (uc_PublicKeys uc).

(** [copy(prefix[:], arb)] overwrites as many bytes as [arb] has. *)
Definition copy_prefix (prefix : Specifier) (arb : bytes) : Specifier :=
  copy_array 16 (arb ++ drop (length arb) (vec_to_list prefix)).

(** [prefix] is declared outside of the loop and never cleared. *)
Fixpoint checkArbitraryData (prefix : Specifier) (arbs : list bytes) : err :=
  match arbs with
  | [] => None
  | arb :: arbs =>
      let prefix := copy_prefix prefix arb in
      if bool_decide (prefix = PrefixHostAnnouncement) || bool_decide (prefix = PrefixNonSia) ||
         bool_decide (prefix = PrefixFileContractIdentifier)
      then checkArbitraryData prefix arbs
      else Some ErrInvalidArbPrefix
  end.

Definition isStandardTransaction (t : Transaction) : error + Z :=
  let tlen := txn_size t in
  match
    err_if (TransactionSizeLimit <? tlen) ErrLargeTransaction ;;?
    for_err (fun sci => checkUnlockConditions (sci_UnlockConditions sci)) (t_SiacoinInputs t) ;;?
    for_err (fun fcr => checkUnlockConditions (fcr_UnlockConditions fcr))
      (t_FileContractRevisions t) ;;?
    for_err (fun sfi => checkUnlockConditions (sfi_UnlockConditions sfi)) (t_SiafundInputs t) ;;?
    checkArbitraryData (zero_array 16) (t_ArbitraryData t)
  with
  | Some e => inl e
  | None => inr (u64 tlen)
  end.

Fixpoint standard_sizes (totalSize : Z) (ts : list Transaction) : error + Z :=
  match ts with
  | [] => inr totalSize
  | t :: ts =>
      match isStandardTransaction t with
      | inl e => inl e
      | inr tSize =>
          let totalSize := u64 (totalSize + tSize) in
          if TransactionSetSizeLimit <? totalSize then inl ErrLargeTransactionSet
          else standard_sizes totalSize ts
      end
  end.
Definition isStandardTransactionSet (ts : list Transaction) : error + Z := standard_sizes 0 ts.

(** ** accept.go *)

Context (range : nat -> list Hash -> list Hash).

(** The objects a transaction consumes, revises or creates. *)
Definition txn_objects (t : Transaction) : list ObjectID := input_ids t ++ output_ids t.
Definition related (ts : list Transaction) : gset ObjectID := list_to_set (ts ≫= txn_objects).
Definition relatedObjectIDs (ts : list Transaction) : list ObjectID :=
  range 0 (elements (related ts)).

(** The sets that know one of the objects. *)
Definition find_conflicts (known : gmap ObjectID TransactionSetID) (oids : list ObjectID)
  : list TransactionSetID :=
  omap (fun oid => known !! oid) oids.

Definition sum_err {S A} (r : error + A) : M S A :=
  match r with inl e => throw e | inr a => mret a end.

Definition checkTransactionSetComposition (ts : list Transaction) : M TransactionPool Z :=
  tp ← get;
  _ ← check (err_if (bool_decide (is_Some (tp_transactionSets tp !! set_id ts)))
               ErrDuplicateTransactionSet);
  sum_err (isStandardTransactionSet ts).

(** [txnFn]: what trying a set against the consensus set gives. *)
Definition txn_fn : Type := list Transaction -> outcome () ConsensusChangeDiffs.

Definition try_set (txnFn : txn_fn) (ts : list Transaction) (msg : string)
  : M TransactionPool ConsensusChangeDiffs := fun tp =>
  match txnFn ts with
  | Ret cc _ => Ret cc tp
  | Err e _ => Err (ConsensusConflict msg e) tp
  | Panic msg => Panic msg
  end.

(** The fee rule of both [acceptTransactionSet] and [handleConflicts]. *)
Definition check_fees (ts : list Transaction) (setSize : Z) : M TransactionPool () :=
  tp ← get;
  let requiredFees := Currency.Mul64 (requiredFeesToExtendTpool tp) setSize in
  check (err_if (0 <? Currency.Cmp requiredFees (set_fees ts)) errLowMinerFees).

(** Entering a set into the pool under the objects [oids]; a transaction that
    has a height keeps it. *)
Definition record_heights (height : BlockHeight) (ts : list Transaction)
    (heights : gmap TransactionID BlockHeight) : gmap TransactionID BlockHeight :=
  fold_left (fun m txn =>
    if bool_decide (is_Some (m !! Transaction_ID txn)) then m
    else <[Transaction_ID txn := height]> m) ts heights.
Definition record_objects (setID : TransactionSetID) (oids : list ObjectID)
    (known : gmap ObjectID TransactionSetID) : gmap ObjectID TransactionSetID :=
  fold_left (fun m oid => <[oid := setID]> m) oids known.
Definition add_set (ts : list Transaction) (oids : list ObjectID) (cc : ConsensusChangeDiffs)
    (tp : TransactionPool) : TransactionPool :=
  let setID := set_id ts in
  with_sets (record_objects setID oids (tp_knownObjects tp))
    (record_heights (tp_blockHeight tp) ts (tp_transactionHeights tp))
    (<[setID := ts]> (tp_transactionSets tp))
    (<[setID := cc]> (tp_transactionSetDiffs tp))
    (i64 (tp_transactionListSize tp + zlen (Marshal_set ts))) tp.

Definition diff_ids (cc : ConsensusChangeDiffs) : list ObjectID :=
  (scod_ID <$> ccd_SiacoinOutputDiffs cc) ++ (fcd_ID <$> ccd_FileContractDiffs cc) ++
  (sfod_ID <$> ccd_SiafundOutputDiffs cc).

(** A lookup of a missing key in a Go map gives the zero value, a nil slice. *)
Definition set_of (tp : TransactionPool) (id : TransactionSetID) : list Transaction :=
  default [] (tp_transactionSets tp !! id).

Definition conflict_map (tp : TransactionPool) (conflicts : list TransactionSetID)
  : gmap TransactionID TransactionSetID :=
  fold_left (fun m conflict =>
    fold_left (fun m txn => <[Transaction_ID txn := conflict]> m) (set_of tp conflict) m)
  conflicts ∅.

Definition remove_set (tp : TransactionPool) (conflict : TransactionSetID) : TransactionPool :=
  with_sets (tp_knownObjects tp) (tp_transactionHeights tp)
    (delete conflict (tp_transactionSets tp)) (delete conflict (tp_transactionSetDiffs tp))
    (i64 (tp_transactionListSize tp - zlen (Marshal_set (set_of tp conflict)))) tp.

(** The sets the conflicting transactions are in, and all of their
    transactions with the new ones behind. *)
Definition superset_map (conflictMap : gmap TransactionID TransactionSetID) : gset TransactionSetID :=
  list_to_set (snd <$> map_to_list conflictMap).
Definition merged_txns (tp : TransactionPool) (supersetMap : gset TransactionSetID)
    (dedupSet : list Transaction) : list Transaction :=
  (range 1 (elements supersetMap) ≫= set_of tp) ++ dedupSet.

(** The second half of [handleConflicts]. *)
Definition merge_conflicts (conflictMap : gmap TransactionID TransactionSetID)
    (dedupSet : list Transaction) (txnFn : txn_fn) : M TransactionPool (list Transaction) :=
  tp ← get;
  let supersetMap := superset_map conflictMap in
  let superset := merged_txns tp supersetMap dedupSet in
  setSize ← checkTransactionSetComposition superset;
  _ ← check_fees superset setSize;
  cc ← try_set txnFn superset "provided transaction set has prereqs, but is still invalid: ";
  _ ← modify (fun tp => fold_left remove_set (range 2 (elements supersetMap)) tp);
  _ ← modify (add_set superset (diff_ids cc) cc);
  mret superset.

(** [fuel] bounds the recursion. *)
Fixpoint handleConflicts (fuel : nat) (ts : list Transaction)
    (conflicts : list TransactionSetID) (txnFn : txn_fn)
  : M TransactionPool (list Transaction) :=
  match fuel with
  | O => panic "out of fuel"
  | S fuel =>
      tp ← get;
      let conflictMap := conflict_map tp conflicts in
      let dedupSet := filter (fun t => conflictMap !! Transaction_ID t = None) ts in
      _ ← check (err_if (length dedupSet =? 0)%nat ErrDuplicateTransactionSet);
      if (length dedupSet <? length ts)%nat then
        let oids := relatedObjectIDs dedupSet in
        handleConflicts fuel dedupSet (find_conflicts (tp_knownObjects tp) oids) txnFn
      else merge_conflicts conflictMap dedupSet txnFn
  end.

Definition transactionConfirmed (tp : TransactionPool) (id : TransactionID) : bool :=
  bool_decide (id ∈ pd_ConfirmedTransactions (tp_db tp)).

Definition acceptTransactionSet (ts : list Transaction) (txnFn : txn_fn)
  : M TransactionPool (list Transaction) :=
  _ ← check (err_if (length ts =? 0)%nat errEmptySet);
  tp ← get;
  let ts := filter (fun txn => transactionConfirmed tp (Transaction_ID txn) = false) ts in
  _ ← check (err_if (length ts =? 0)%nat ErrDuplicateTransactionSet);
  setSize ← checkTransactionSetComposition ts;
  _ ← check_fees ts setSize;
  let oids := relatedObjectIDs ts in
  let conflicts := find_conflicts (tp_knownObjects tp) oids in
  if (0 <? length conflicts)%nat then handleConflicts (S (length ts)) ts conflicts txnFn
  else
    cc ← try_set txnFn ts "provided transaction set is standalone and invalid: ";
    _ ← modify (add_set ts oids cc);
    mret ts.

(** ** subscribe.go *)

Definition unconfirmed_set (tp : TransactionPool) (id : TransactionSetID) : UnconfirmedTransactionSet :=
  let set := set_of tp id in
  mkUnconfirmedTransactionSet (tp_transactionSetDiffs tp !! id) id
    (Transaction_ID <$> set) ((fun t => u64 (txn_size t)) <$> set) set.

(** [ReceiveUpdatedUnconfirmedTransactions] of every subscriber. *)
Definition send_diff (subscribers : list Z) (diff : TransactionPoolDiff)
    (sent : gmap Z (list TransactionPoolDiff)) : gmap Z (list TransactionPoolDiff) :=
  fold_left (fun m s => <[s := default [] (m !! s) ++ [diff]]> m) subscribers sent.

Definition updateSubscribersTransactions (tp : TransactionPool) : TransactionPool :=
  let reverted :=
    filter (fun id => tp_transactionSets tp !! id = None)
      (range 3 (elements (dom (tp_subscriberSets tp)))) in
  let kept := fold_left (fun m id => delete id m) reverted (tp_subscriberSets tp) in
  let applied :=
    unconfirmed_set tp <$>
      filter (fun id => kept !! id = None) (range 4 (elements (dom (tp_transactionSets tp)))) in
  let diff := mkTransactionPoolDiff applied reverted in
  with_subscribers (fold_left (fun m ut => <[ut_ID ut := ut]> m) applied kept)
    (tp_subscribers tp) (send_diff (tp_subscribers tp) diff (tp_sent tp)) tp.

Definition TransactionPoolSubscribe (subscriber : Z) : M TransactionPool () :=
  tp ← get;
  _ ← panic_if (DEBUG && bool_decide (subscriber ∈ tp_subscribers tp))
        "refusing to double-subscribe subscriber";
  let applied :=
    omap (fun id => tp_subscriberSets tp !! id)
      (range 5 (elements (dom (tp_subscriberSets tp)))) in
  modify (fun tp =>
    with_subscribers (tp_subscriberSets tp) (tp_subscribers tp ++ [subscriber])
      (send_diff [subscriber] (mkTransactionPoolDiff applied []) (tp_sent tp)) tp).

Definition TransactionPool_Unsubscribe (subscriber : Z) (tp : TransactionPool) : TransactionPool :=
  with_subscribers (tp_subscriberSets tp) (remove_first subscriber (tp_subscribers tp))
    (tp_sent tp) tp.

(** ** Submitting a set *)

(** [LockedTryTransactionSet] passes [tryTransactionSet] on the current
    consensus database. *)
Definition consensus_txnFn (d : DB) : txn_fn := fun ts =>
  match tryTransactionSet ts d with
  | Ret pb _ =>
      Ret (mkConsensusChangeDiffs (pb_SiacoinOutputDiffs pb) (pb_FileContractDiffs pb)
             (pb_SiafundOutputDiffs pb) (pb_DelayedSiacoinOutputDiffs pb)
             (pb_SiafundPoolDiffs pb)) ()
  | Err e _ => Err e ()
  | Panic msg => Panic msg
  end.

(** The result is what is broadcast to the peers. *)
Definition submitTransactionSet (d : DB) (ts : list Transaction)
  : M TransactionPool (option (list Transaction)) :=
  superset ← acceptTransactionSet ts (consensus_txnFn d);
  _ ← modify updateSubscribersTransactions;
  mret (MinimumTransactionSet (range 6) ts superset).

End pool.
