(* ===== verification/TransactionPoolUpdate.v ===== *)
(** * The transaction pool and the blockchain

    modules/transactionpool/update.go: splitting a block into sets of dependent
    transactions, the fee median and the handler of consensus changes; the
    queries of transactionpool.go and the start-up of persist.go.  The
    iteration orders are those of [TransactionPool.v]: [range] for maps keyed
    by an ID, [range_int] for maps keyed by an [int]. *)

From S2P Require Import Prelude Bytes Interfaces Currency Types Params Encoding Transactions.
From S2P Require Import MinimumSet ConsensusSubscribe TransactionPool.

Open Scope Z_scope.

(** MaxTransactionAge of a release. *)
Class PoolParams := { MaxTransactionAge : BlockHeight }.

Definition standard_pool_params : PoolParams := {| MaxTransactionAge := 24 |}.
Definition dev_pool_params : PoolParams := {| MaxTransactionAge := 12 |}.
Definition testing_pool_params : PoolParams := {| MaxTransactionAge := 5 |}.

Section update.
Context {B : Build} {P : Params} {PP : PoolParams} {C : Crypto} {E : SiaEncoding}.
Context (range : nat -> list Hash -> list Hash) (range_int : list nat -> list nat).

(** ** findSets *)

Record setGraph := mkSetGraph {
  sg_txMap : gmap TransactionID nat;
  sg_setMap : gmap nat (list Transaction);
  sg_objMap : gmap ObjectID TransactionID;
  sg_forwards : gmap nat nat
}.

(** The loop of [forward]; [None] is a loop that does not end within the fuel.
    The collapsed entry is that of [prev]. *)
Fixpoint forward_loop (fuel : nat) (prev ret : nat) (forwards : gmap nat nat)
    (next : option nat) : option (nat * gmap nat nat) :=
  match next with
  | None => Some (ret, forwards)
  | Some next =>
      match fuel with
      | O => None
      | S fuel =>
          let forwards := <[prev := next]> forwards in
          forward_loop fuel prev next forwards (forwards !! next)
      end
  end.
Definition forward (forwards : gmap nat nat) (prev : nat) : option (nat * gmap nat nat) :=
  forward_loop (S (size forwards)) prev prev forwards (forwards !! prev).

(** One input of a transaction: the set of the transaction that created the
    object becomes a parent set.  A transaction that has no set is looked up
    as the zero value. *)
Definition add_parent (g : setGraph) (acc : option (gset nat * gmap nat nat)) (oid : ObjectID)
  : option (gset nat * gmap nat nat) :=
  '(parentSets, forwards) ← acc;
  match sg_objMap g !! oid with
  | None => Some (parentSets, forwards)
  | Some txid =>
      '(parentSet, forwards) ← forward forwards (default 0%nat (sg_txMap g !! txid));
      Some ({[parentSet]} ∪ parentSets, forwards)
  end.

Definition merge_set (base : nat) (acc : gmap nat (list Transaction) * gmap nat nat) (j : nat)
  : gmap nat (list Transaction) * gmap nat nat :=
  let '(setMap, forwards) := acc in
  (delete j (<[base := default [] (setMap !! base) ++ default [] (setMap !! j)]> setMap),
   <[j := base]> forwards).

(** The objects a later transaction can depend on. *)
Definition source_ids (t : Transaction) : list ObjectID :=
  imap (fun j _ => Transaction_SiacoinOutputID t (Z.of_nat j)) (t_SiacoinOutputs t) ++
  imap (fun j _ => Transaction_FileContractID t (Z.of_nat j)) (t_FileContracts t) ++
  (fcr_ParentID <$> t_FileContractRevisions t) ++
  imap (fun j _ => Transaction_SiafundOutputID t (Z.of_nat j)) (t_SiafundOutputs t).

Definition add_txn (g : setGraph) (i : nat) (t : Transaction) : option setGraph :=
  let tid := Transaction_ID t in
  '(parentSets, forwards) ← fold_left (add_parent g) (input_ids t) (Some (∅, sg_forwards g));
  let '(txMap, setMap, forwards) :=
    match range_int (elements parentSets) with
    | [] => (<[tid := i]> (sg_txMap g), <[i := [t]]> (sg_setMap g), forwards)
    | base :: rest =>
        let '(setMap, forwards) := fold_left (merge_set base) rest (sg_setMap g, forwards) in
        (<[tid := base]> (sg_txMap g), <[base := default [] (setMap !! base) ++ [t]]> setMap,
         forwards)
    end in
  Some (mkSetGraph txMap setMap
          (fold_left (fun m oid => <[oid := tid]> m) (source_ids t) (sg_objMap g)) forwards).

Fixpoint add_txns (g : setGraph) (i : nat) (ts : list Transaction) : option setGraph :=
  match ts with
  | [] => Some g
  | t :: ts => g ← add_txn g i t; add_txns g (S i) ts
  end.

Definition findSets (ts : list Transaction) : option (list (list Transaction)) :=
  g ← add_txns (mkSetGraph ∅ ∅ ∅ ∅) 0 ts;
  Some (omap (fun i => sg_setMap g !! i) (range_int (elements (dom (sg_setMap g))))).

(** ** The fee median of a block *)

Record feeSummary := mkFeeSummary { fs_fee : Currency; fs_size : Z }.

Definition set_summary (set : list Transaction) : feeSummary :=
  let sizeSum := fold_left (fun n txn => i64 (n + txn_size txn)) set 0 in
  mkFeeSummary (Currency.Div64 (set_fees set) (u64 sizeSum)) sizeSum.

Definition fee_le (x y : feeSummary) : Prop := (fs_fee x <= fs_fee y)%N.
#[export] Instance fee_le_dec x y : Decision (fee_le x y).
Proof. unfold fee_le. apply _. Defined.

(** The first fee at which more than a quarter of the block has gone by. *)
Fixpoint quarter_fee (progress : Z) (fees : list feeSummary) : option Currency :=
  match fees with
  | [] => None
  | f :: fees =>
      let progress := i64 (progress + fs_size f) in
      if BlockSizeLimit / 4 <? u64 progress then Some (fs_fee f) else quarter_fee progress fees
  end.

(** The fee that is picked depends on the order of the fees only, not on
    the order [sort.Slice] leaves equal ones in. *)
Definition block_fee (txnSets : list (list Transaction)) : option Currency :=
  let fees := set_summary <$> txnSets in
  let totalSize := fold_left (fun n f => i64 (n + fs_size f)) fees 0 in
  let remaining := i64 (BlockSizeLimit - totalSize) in
  quarter_fee 0 (merge_sort fee_le (fees ++ [mkFeeSummary Currency.ZeroCurrency remaining])).

(** ** update.go *)

Definition purge (tp : TransactionPool) : TransactionPool := with_sets ∅ ∅ ∅ ∅ 0 tp.
Definition PurgeTransactionPool : M TransactionPool () := modify purge.

(** database.go: the errors are those of bolt. *)
Definition deleteTransaction (id : TransactionID) (tp : TransactionPool) : TransactionPool :=
  with_db (with_confirmed (pd_ConfirmedTransactions (tp_db tp) ∖ {[id]}) (tp_db tp)) tp.
Definition putTransaction (id : TransactionID) (tp : TransactionPool) : TransactionPool :=
  with_db (with_confirmed ({[id]} ∪ pd_ConfirmedTransactions (tp_db tp)) (tp_db tp)) tp.
Definition putRecentConsensusChange (cc : ConsensusChangeID) (tp : TransactionPool)
  : TransactionPool :=
  let db := tp_db tp in
  with_db (mkPoolDB (pd_ConfirmedTransactions db) (Some cc) (pd_RecentBlockID db)
             (pd_BlockHeight db) (pd_FeeMedian db)) tp.
Definition putRecentBlockID (id : BlockID) (tp : TransactionPool) : TransactionPool :=
  let db := tp_db tp in
  with_db (mkPoolDB (pd_ConfirmedTransactions db) (pd_RecentConsensusChange db) (Some id)
             (pd_BlockHeight db) (pd_FeeMedian db)) tp.
Definition putBlockHeight (height : BlockHeight) (tp : TransactionPool) : TransactionPool :=
  let db := tp_db tp in
  with_chain height (tp_recentMedians tp) (tp_recentMedianFee tp)
    (mkPoolDB (pd_ConfirmedTransactions db) (pd_RecentConsensusChange db)
       (pd_RecentBlockID db) (Some height) (pd_FeeMedian db)) tp.
Definition putFeeMedian (mp : medianPersist) (tp : TransactionPool) : TransactionPool :=
  let db := tp_db tp in
  with_db (mkPoolDB (pd_ConfirmedTransactions db) (pd_RecentConsensusChange db)
             (pd_RecentBlockID db) (pd_BlockHeight db) (Some mp)) tp.

(** [None] is [errNilRecentBlock]: nothing stored, or the zero ID. *)
Definition getRecentBlockID (db : poolDB) : option BlockID :=
  match pd_RecentBlockID db with
  | Some id => if bool_decide (id = zero_hash) then None else Some id
  | None => None
  end.

(** The height does not move for the genesis block. *)
Definition step_height (delta : Z) (id : BlockID) (height : BlockHeight) : BlockHeight :=
  if (0 <? height) || bool_decide (id <> Block_ID GenesisBlock) then u64 (height + delta)
  else height.

Definition revert_block (resetSanityCheck : bool) (block : Block) (recentID : BlockID)
  : M TransactionPool BlockID :=
  let id := Block_ID block in
  _ ← panic_if (bool_decide (id <> recentID) && negb resetSanityCheck)
        "Consensus change series appears to be inconsistent - we are reverting the wrong block";
  _ ← modify (fun tp =>
        with_chain (step_height (-1) id (tp_blockHeight tp)) (tp_recentMedians tp)
          (tp_recentMedianFee tp) (tp_db tp) tp);
  _ ← modify (fun tp =>
        fold_left (fun tp txn => deleteTransaction (Transaction_ID txn) tp)
          (b_Transactions block) tp);
  _ ← modify (fun tp =>
        with_chain (tp_blockHeight tp)
          (take (length (tp_recentMedians tp) - 1) (tp_recentMedians tp))
          (tp_recentMedianFee tp) (tp_db tp) tp);
  mret (b_ParentID block).

Definition or_panic_fuel {A} (x : option A) : M TransactionPool A :=
  match x with Some a => mret a | None => panic "out of fuel" end.

Definition apply_block (resetSanityCheck : bool) (block : Block) (recentID : BlockID)
  : M TransactionPool BlockID :=
  let id := Block_ID block in
  _ ← panic_if (bool_decide (b_ParentID block <> recentID) && negb resetSanityCheck)
        "Consensus change series appears to be inconsistent - we are applying the wrong block";
  _ ← modify (fun tp =>
        with_chain (step_height 1 id (tp_blockHeight tp)) (tp_recentMedians tp)
          (tp_recentMedianFee tp) (tp_db tp) tp);
  _ ← modify (fun tp =>
        fold_left (fun tp txn => putTransaction (Transaction_ID txn) tp)
          (b_Transactions block) tp);
  txnSets ← or_panic_fuel (findSets (b_Transactions block));
  _ ← modify (fun tp =>
        let medians := tp_recentMedians tp ++ option_list (block_fee txnSets) in
        with_chain (tp_blockHeight tp) (drop (length medians - blockFeeEstimationDepth) medians)
          (tp_recentMedianFee tp) (tp_db tp) tp);
  mret id.

(** The median of the recent medians. *)
Definition update_median_fee : M TransactionPool () :=
  tp ← get;
  let safeMedians := merge_sort N.le (tp_recentMedians tp) in
  match safeMedians !! (length safeMedians / 2)%nat with
  | None => panic "index out of range"
  | Some fee =>
      modify (with_chain (tp_blockHeight tp) (tp_recentMedians tp) fee (tp_db tp))
  end.

(** Whether all transactions of a set have reached the maximum age; one whose
    height was not recorded is reported by [log.Critical], which panics in a
    debug build. *)
Fixpoint all_old (oldHeights : gmap TransactionID BlockHeight) (tSet : list Transaction)
  : M TransactionPool bool :=
  match tSet with
  | [] => mret true
  | txn :: tSet =>
      let id := Transaction_ID txn in
      tp ← get;
      match oldHeights !! id with
      | None =>
          _ ← modify (with_heights (<[id := u64 (tp_blockHeight tp - 1)]> (tp_transactionHeights tp)));
          _ ← panic_if DEBUG "transaction found in tpool which did not have its height recorded";
          mret false
      | Some seenHeight =>
          if u64 (tp_blockHeight tp - seenHeight) <? MaxTransactionAge then mret false
          else all_old oldHeights tSet
      end
  end.

Definition prune_set (oldHeights : gmap TransactionID BlockHeight) (tSet : list Transaction)
  : M TransactionPool (list Transaction) :=
  old ← all_old oldHeights tSet;
  if old : bool then
    _ ← modify (fun tp =>
          with_heights (fold_left (fun m txn => delete (Transaction_ID txn) m) tSet
                          (tp_transactionHeights tp)) tp);
    mret []
  else mret tSet.

(** A call whose error is ignored. *)
Definition ignore_err {S A} (m : M S A) : M S () := fun s =>
  match m s with
  | Ret _ s' | Err _ s' => Ret () s'
  | Panic msg => Panic msg
  end.

Definition block_txids (blocks : list Block) : gset TransactionID :=
  list_to_set (Transaction_ID <$> (blocks ≫= b_Transactions)).

(** Updating the on-disk structures. *)
Definition store_progress (cc : ConsensusChangeID) (recentID : BlockID) : M TransactionPool () :=
  _ ← modify (putRecentConsensusChange cc);
  _ ← modify (putRecentBlockID recentID);
  _ ← modify (fun tp => putBlockHeight (tp_blockHeight tp) tp);
  modify (fun tp => putFeeMedian (mkMedianPersist (tp_recentMedians tp) (tp_recentMedianFee tp)) tp).

(** The first half of the handler: following the blocks and storing where it
    got to. *)
Definition follow_blocks (cc : ConsensusChange) : M TransactionPool () :=
  tp ← get;
  let recent := getRecentBlockID (tp_db tp) in
  let resetSanityCheck := bool_decide (recent = None) in
  recentID ← for_fold (fun _ => revert_block resetSanityCheck) 0 (cc_RevertedBlocks cc)
    (default zero_hash recent);
  recentID ← for_fold (fun _ => apply_block resetSanityCheck) 0 (cc_AppliedBlocks cc) recentID;
  _ ← update_median_fee;
  store_progress (cc_ID cc) recentID.

(** The sets of the pool without the transactions of the applied blocks. *)
Definition unconfirmed_sets (txids : gset TransactionID) (tp : TransactionPool)
  : list (list Transaction) :=
  (fun id => filter (fun txn => Transaction_ID txn ∉ txids) (set_of tp id)) <$>
    range 7 (elements (dom (tp_transactionSets tp))).

(** One transaction of an old set goes back in under its old height. *)
Definition readd_txn (oldHeights : gmap TransactionID BlockHeight) (txnFn : txn_fn)
    (txn : Transaction) : M TransactionPool () :=
  _ ← ignore_err (acceptTransactionSet range [txn] txnFn);
  modify (fun tp =>
    with_heights (<[Transaction_ID txn := default 0 (oldHeights !! Transaction_ID txn)]>
                    (tp_transactionHeights tp)) tp).

(** The second half: the pool is emptied and filled again against the new
    consensus state. *)
Definition refill (txnFn : txn_fn) (cc : ConsensusChange) : M TransactionPool () :=
  tp ← get;
  let txids := block_txids (cc_AppliedBlocks cc) in
  let unconfirmedSets := unconfirmed_sets txids tp in
  let oldHeights := tp_transactionHeights tp in
  _ ← modify purge;
  unconfirmedSets ← for_fold (fun _ tSet acc => set ← prune_set oldHeights tSet; mret (acc ++ [set]))
    0 unconfirmedSets [];
  _ ← for_each (fun block =>
        for_each (fun txn =>
          if bool_decide (Transaction_ID txn ∈ txids) then mret ()
          else ignore_err (acceptTransactionSet range [txn] txnFn))
        (b_Transactions block))
      (reverse (cc_RevertedBlocks cc));
  for_each (for_each (readd_txn oldHeights txnFn)) unconfirmedSets.

(** [txnFn] is the [TryTransactionSet] of the consensus change. *)
Definition TransactionPool_ProcessConsensusChange (txnFn : txn_fn) (cc : ConsensusChange)
  : M TransactionPool () :=
  _ ← follow_blocks cc;
  _ ← refill txnFn cc;
  modify (updateSubscribersTransactions range).

(** ** transactionpool.go *)

Definition TransactionList (tp : TransactionPool) : list Transaction :=
  range 8 (elements (dom (tp_transactionSets tp))) ≫= set_of tp.
Definition TransactionPool_Transactions (tp : TransactionPool) : list Transaction :=
  range 9 (elements (dom (tp_transactionSets tp))) ≫= set_of tp.

Definition TransactionPool_TransactionSet (tp : TransactionPool) (oid : Hash) : list Transaction :=
  match tp_knownObjects tp !! oid with
  | None => []
  | Some tSetID => default [] (tp_transactionSets tp !! tSetID)
  end.

(** The inner loop breaks at the first match, the outer one goes on, so that
    the last set that holds the ID wins. *)
Fixpoint find_txn (id : TransactionID) (before tSet : list Transaction)
  : option (Transaction * list Transaction) :=
  match tSet with
  | [] => None
  | t :: tSet =>
      if bool_decide (Transaction_ID t = id) then Some (t, before)
      else find_txn id (before ++ [t]) tSet
  end.

(** [addOutputIDs] and [isParent], which looks the contracts and the siafund
    outputs up under siacoin output IDs. *)
Definition parent_ids (t : Transaction) : gset Hash :=
  list_to_set (input_ids t ++ (ts_ParentID <$> t_TransactionSignatures t)).
Definition isParent (parentIDs : gset Hash) (t : Transaction) : bool :=
  let hit n := existsb (fun i => bool_decide (Transaction_SiacoinOutputID t (Z.of_nat i) ∈ parentIDs))
                 (seq 0 n) in
  hit (length (t_SiacoinOutputs t)) || hit (length (t_FileContracts t)) ||
  hit (length (t_SiafundOutputs t)).

Definition prune_parent (parent : Transaction) (acc : gset Hash * list Transaction)
  : gset Hash * list Transaction :=
  let '(parentIDs, necessaryParents) := acc in
  if isParent parentIDs parent then (parentIDs ∪ parent_ids parent, parent :: necessaryParents)
  else acc.

Definition zero_txn : Transaction := mkTransaction [] [] [] [] [] [] [] [] [] [].

Definition TransactionPool_Transaction (tp : TransactionPool) (id : TransactionID)
  : Transaction * list Transaction * bool :=
  let '(txn, allParents, exists_) :=
    fold_left (fun acc setID =>
      match find_txn id [] (set_of tp setID) with
      | Some (t, parents) => (t, parents, true)
      | None => acc
      end) (range 10 (elements (dom (tp_transactionSets tp)))) (zero_txn, [], false) in
  let '(_, necessaryParents) := foldr prune_parent (parent_ids txn, []) allParents in
  (txn, necessaryParents, exists_).

(** ** persist.go *)

Definition resetDB (tp : TransactionPool) : TransactionPool :=
  let tp := with_db (with_confirmed ∅ (tp_db tp)) tp in
  putBlockHeight 0 (putRecentConsensusChange ConsensusChangeBeginning (putRecentBlockID zero_hash tp)).

(** The pool [NewCustomTPool] starts with on the database [db], and the
    consensus change it subscribes from. *)
Definition initPersist (db : poolDB) : TransactionPool * ConsensusChangeID :=
  let tp := mkTransactionPool ∅ ∅ ∅ ∅ ∅ 0 0 [] Currency.ZeroCurrency [] ∅ db in
  let cc := default zero_hash (pd_RecentConsensusChange db) in
  let tp := match pd_RecentConsensusChange db with
            | None => putRecentConsensusChange ConsensusChangeBeginning tp
            | Some _ => tp
            end in
  let tp := match pd_BlockHeight db with
            | None => putRecentConsensusChange ConsensusChangeBeginning (putBlockHeight 0 tp)
            | Some bh => with_chain bh (tp_recentMedians tp) (tp_recentMedianFee tp) (tp_db tp) tp
            end in
  let tp := match pd_FeeMedian db with
            | None => tp
            | Some mp =>
                with_chain (tp_blockHeight tp) (mp_RecentMedians mp) (mp_RecentMedianFee mp)
                  (tp_db tp) tp
            end in
  (tp, cc).

End update.
