(* ===== verification/FindSets.v ===== *)
(** * The sets of dependent transactions of a block

    [findSets] of modules/transactionpool/update.go is a union-find: [forwards]
    leads from a set that was merged to the set it went into.  Following it
    ends, and what comes out is a partition of the transactions in which a
    transaction stands behind the ones it depends on, in one set with them. *)

From S2P Require Import Prelude Bytes Interfaces Currency Types Params Encoding Transactions.
From S2P Require Import MinimumSet ConsensusSubscribe TransactionPool TransactionPoolUpdate.

Open Scope Z_scope.

(** ** Following [forwards] *)

(** The entries passed from [x] to the set [r] at the end. *)
Inductive chain (f : gmap nat nat) : nat -> list nat -> nat -> Prop :=
| chain_end x : f !! x = None -> chain f x [] x
| chain_step x y l r : f !! x = Some y -> chain f y l r -> chain f x (x :: l) r.

Definition root_of (f : gmap nat nat) (x r : nat) : Prop := exists l, chain f x l r.

Section chains.
Context (f : gmap nat nat).

Lemma chain_det x l r l' r' : chain f x l r -> chain f x l' r' -> l = l' /\ r = r'.
Proof.
  intros H. revert l' r'. induction H as [x Hx|x y l r Hx _ IH]; intros l' r'; inversion 1; subst;
    [done|congruence|congruence|].
  match goal with H : f !! x = Some ?z |- _ => assert (z = y) as -> by congruence end.
  naive_solver.
Qed.

Lemma chain_end_root x l r : chain f x l r -> f !! r = None.
Proof. by induction 1. Qed.

Lemma chain_suffix x l r y :
  chain f x l r -> y ∈ l -> exists l', chain f y l' r /\ (length l' <= length l)%nat.
Proof.
  induction 1 as [x Hx|x z l r Hx Hc IH]; [by intros ?%elem_of_nil|].
  intros [->|Hy]%elem_of_cons.
  - exists (x :: l). split; [by econstructor|done].
  - destruct (IH Hy) as (l' & Hl' & Hlen). exists l'. split; [done|]. cbn [length]. lia.
Qed.

Lemma chain_NoDup x l r : chain f x l r -> NoDup l.
Proof.
  induction 1 as [x Hx|x y l r Hx Hc IH]; [constructor|]. constructor; [|done].
  intros Hin. destruct (chain_suffix _ _ _ _ Hc Hin) as (l' & Hl' & Hlen).
  assert (Hc' : chain f x (x :: l) r) by by econstructor.
  destruct (chain_det _ _ _ _ _ Hl' Hc') as [-> _]. cbn [length] in Hlen. lia.
Qed.

Lemma chain_dom x l r : chain f x l r -> forall y, y ∈ l -> is_Some (f !! y).
Proof.
  induction 1 as [x Hx|x y l r Hx Hc IH]; intros z; [by intros ?%elem_of_nil|].
  intros [->|Hz]%elem_of_cons; eauto.
Qed.

(** A chain has no more steps than there are entries. *)
Lemma chain_length x l r : chain f x l r -> (length l <= size f)%nat.
Proof.
  intros Hc. rewrite <- size_dom.
  assert (Hsub : (list_to_set l : gset nat) ⊆ dom f).
  { intros y Hy%elem_of_list_to_set. apply elem_of_dom. by eapply chain_dom. }
  apply subseteq_size in Hsub.
  by rewrite size_list_to_set in Hsub by by eapply chain_NoDup.
Qed.

Lemma root_of_det x r r' : root_of f x r -> root_of f x r' -> r = r'.
Proof. intros [l Hl] [l' Hl']. by destruct (chain_det _ _ _ _ _ Hl Hl'). Qed.

Lemma root_of_self x : f !! x = None -> root_of f x x.
Proof. exists []. by constructor. Qed.

Lemma root_of_step x y r : f !! x = Some y -> root_of f y r -> root_of f x r.
Proof. intros Hx [l Hl]. exists (x :: l). by econstructor. Qed.
End chains.

(** Entries off the path do not matter. *)
Lemma chain_insert f k v x l r : k ∉ l -> k <> r -> chain f x l r -> chain (<[k := v]> f) x l r.
Proof.
  intros Hk Hr Hc. induction Hc as [x Hx|x y l r Hx Hc IH].
  - constructor. by rewrite lookup_insert_ne.
  - apply not_elem_of_cons in Hk as [Hne Hk]. econstructor; [by rewrite lookup_insert_ne|auto].
Qed.

Lemma forward_loop_chain f prev l y r fuel :
  (length l < fuel)%nat -> prev ∉ l -> prev <> r -> chain f y l r ->
  forward_loop fuel prev prev f (Some y) = Some (r, <[prev := r]> f).
Proof.
  intros Hlen Hl Hr Hc.
  enough (Hgen : forall fuel ret f', (length l < fuel)%nat ->
    (forall k, k <> prev -> f' !! k = f !! k) ->
    forward_loop fuel prev ret f' (Some y) = Some (r, <[prev := r]> f')) by by apply Hgen.
  clear fuel Hlen. induction Hc as [y Hy|y z l r Hy Hc IH]; intros fuel ret f' Hlen Hf';
    destruct fuel as [|fuel]; try (cbn [length] in Hlen; lia); cbn [forward_loop].
  - rewrite lookup_insert_ne, Hf', Hy by done. by destruct fuel.
  - apply not_elem_of_cons in Hl as [Hne Hl]. rewrite lookup_insert_ne, Hf', Hy by done.
    rewrite (IH Hl Hr), insert_insert_eq; [done|cbn [length] in Hlen; lia|].
    intros k Hk. by rewrite lookup_insert_ne, Hf'.
Qed.

Lemma forward_spec f x r :
  root_of f x r ->
  forward f x = Some (r, if bool_decide (f !! x = None) then f else <[x := r]> f).
Proof.
  intros [l Hc]. unfold forward. pose proof (chain_length _ _ _ _ Hc) as Hlen.
  pose proof (chain_NoDup _ _ _ _ Hc) as Hnd. pose proof (chain_end_root _ _ _ _ Hc) as Hr.
  destruct Hc as [x Hx|x y l r Hx Hc].
  - rewrite Hx, bool_decide_true by done. done.
  - rewrite Hx, bool_decide_false by done. apply NoDup_cons in Hnd as [Hl _].
    apply (forward_loop_chain _ _ l); [cbn [length] in Hlen; lia|done|congruence|done].
Qed.

(** Collapsing an entry does not change where any entry leads. *)
Lemma root_of_collapse f x r y s :
  root_of f x r -> root_of f y s ->
  root_of (if bool_decide (f !! x = None) then f else <[x := r]> f) y s.
Proof.
  case_bool_decide as Hx; [done|]. intros Hxr [l Hc].
  assert (Hr : f !! r = None) by (destruct Hxr as [l' Hl']; by eapply chain_end_root).
  assert (x <> r) by congruence.
  induction Hc as [y Hy|y z l s Hy Hc IH].
  - apply root_of_self. rewrite lookup_insert_ne; congruence.
  - destruct (decide (y = x)) as [->|Hne].
    + assert (r = s) as -> by (eapply root_of_det; [done|]; eapply root_of_step; [done|by exists l]).
      eapply root_of_step; [apply lookup_insert_eq|].
      apply root_of_self. by rewrite lookup_insert_ne.
    + eapply root_of_step; [by rewrite lookup_insert_ne|done].
Qed.

(** Merging the set [j] into [base] sends what led to [j] to [base]. *)
Lemma root_of_merge f j base y s :
  f !! j = None -> f !! base = None -> j <> base -> root_of f y s ->
  root_of (<[j := base]> f) y (if decide (s = j) then base else s).
Proof.
  intros Hj Hb Hne [l Hc].
  assert (Hbase : root_of (<[j := base]> f) base base)
    by (apply root_of_self; by rewrite lookup_insert_ne).
  induction Hc as [y Hy|y z l s Hy Hc IH].
  - destruct (decide (y = j)) as [->|Hyj].
    + eapply root_of_step; [apply lookup_insert_eq|done].
    + apply root_of_self. by rewrite lookup_insert_ne.
  - eapply root_of_step; [rewrite lookup_insert_ne; [done|congruence]|done].
Qed.

(** ** The transactions of all sets *)

Definition all_txns (m : gmap nat (list Transaction)) : list Transaction :=
  concat (snd <$> map_to_list m).

Lemma all_txns_insert m k S : m !! k = None -> all_txns (<[k := S]> m) ≡ₚ S ++ all_txns m.
Proof.
  intros Hk. unfold all_txns. by rewrite map_to_list_insert.
Qed.

Lemma all_txns_delete m k S : m !! k = Some S -> all_txns m ≡ₚ S ++ all_txns (delete k m).
Proof.
  intros Hk. rewrite <- (insert_delete_id m k S Hk) at 1. by rewrite all_txns_insert by apply lookup_delete_eq.
Qed.

Lemma all_txns_update m k S S' :
  m !! k = Some S -> all_txns (<[k := S']> m) ≡ₚ S' ++ all_txns (delete k m).
Proof.
  intros Hk. rewrite <- insert_delete_eq. apply all_txns_insert, lookup_delete_eq.
Qed.

Section find_sets.
Context {C : Crypto} {E : SiaEncoding}.

(** The transaction of [ts] that an input depends on. *)
Definition last_source (ts : list Transaction) (oid : Hash) : option Transaction :=
  last (filter (fun t => oid ∈ source_ids t) ts).

(** Every transaction of [done] is behind those it depends on, in a set. *)
Definition dependencies_kept (done : list Transaction) (sets : list Transaction -> Prop) : Prop :=
  forall d1 t d2 oid p, done = d1 ++ t :: d2 -> oid ∈ input_ids t -> last_source d1 oid = Some p ->
    exists S pre post, sets S /\ S = pre ++ t :: post /\ Transaction_ID p ∈ Transaction_ID <$> pre.

(** The sets and how the sets of transactions are found. *)
Record forest_ok (done : list Transaction) (txMap : gmap TransactionID nat)
    (setMap : gmap nat (list Transaction)) (fw : gmap nat nat) : Prop := {
  fo_tx tid i : txMap !! tid = Some i ->
    exists r S, root_of fw i r /\ setMap !! r = Some S /\ tid ∈ Transaction_ID <$> S;
  fo_root r : is_Some (setMap !! r) -> fw !! r = None;
  fo_bound x : (length done <= x)%nat -> setMap !! x = None /\ fw !! x = None;
  fo_perm : all_txns setMap ≡ₚ done;
  fo_nonempty : map_Forall (fun _ S => S <> []) setMap;
  fo_dep : dependencies_kept done (fun S => exists r, setMap !! r = Some S)
}.

Record graph_ok (done : list Transaction) (g : setGraph) : Prop := {
  go_forest : forest_ok done (sg_txMap g) (sg_setMap g) (sg_forwards g);
  go_done t : t ∈ done -> is_Some (sg_txMap g !! Transaction_ID t);
  go_obj oid : sg_objMap g !! oid = Transaction_ID <$> last_source done oid
}.

Lemma elem_of_last_source done oid p : last_source done oid = Some p -> p ∈ done.
Proof.
  intros [l Hl]%last_Some. assert (Hp : p ∈ filter (fun t => oid ∈ source_ids t) done).
  { rewrite Hl. apply elem_of_app. right. by apply list_elem_of_singleton. }
  by apply list_elem_of_filter in Hp as [_ Hp].
Qed.

(** ** Looking up the parents *)

(** The lookups only collapse entries. *)
Definition same_roots (fw fw' : gmap nat nat) : Prop :=
  (forall y s, root_of fw y s -> root_of fw' y s) /\ (forall y, fw' !! y = None <-> fw !! y = None).

Lemma forest_same_roots done txMap setMap fw fw' :
  same_roots fw fw' -> forest_ok done txMap setMap fw -> forest_ok done txMap setMap fw'.
Proof.
  intros [Hroots Hdom] [F1 F2 F3 F4 F5 F6]. split; try done.
  - intros tid i (r & S & Hr & HS)%F1. eauto.
  - intros r Hr%F2. by apply Hdom.
  - intros x [H1 H2]%F3. split; [done|]. by apply Hdom.
Qed.

Definition parents_ok (done : list Transaction) (setMap : gmap nat (list Transaction))
    (seen : list Hash) (ps : gset nat) : Prop :=
  (forall r, r ∈ ps -> is_Some (setMap !! r)) /\
  (forall oid p, oid ∈ seen -> last_source done oid = Some p ->
     exists r S, r ∈ ps /\ setMap !! r = Some S /\ Transaction_ID p ∈ Transaction_ID <$> S).

Lemma add_parent_ok done g seen ps fw oid :
  graph_ok done g -> forest_ok done (sg_txMap g) (sg_setMap g) fw ->
  parents_ok done (sg_setMap g) seen ps ->
  exists ps' fw', add_parent g (Some (ps, fw)) oid = Some (ps', fw') /\ same_roots fw fw' /\
    parents_ok done (sg_setMap g) (seen ++ [oid]) ps'.
Proof.
  intros Hg Hf [P1 P2]. unfold add_parent. cbn [mbind option_bind].
  rewrite (go_obj _ _ Hg). destruct (last_source done oid) as [p|] eqn:Hp; cbn [fmap option_fmap option_map].
  - apply elem_of_last_source in Hp as Hin. destruct (go_done _ _ Hg p Hin) as [i Hi].
    rewrite Hi. change (default 0%nat (Some i)) with i.
    destruct (fo_tx _ _ _ _ Hf _ _ Hi) as (r & S & Hr & HS & HpS).
    rewrite (forward_spec _ _ _ Hr). cbn [mbind option_bind].
    eexists _, _. split; [done|]. split.
    { split; [intros y s; by apply root_of_collapse|]. intros y.
      case_bool_decide as Hn; [done|]. destruct (decide (y = i)) as [->|Hne].
      - rewrite lookup_insert_eq. naive_solver.
      - by rewrite lookup_insert_ne. }
    split.
    + intros r' [->%elem_of_singleton|Hr']%elem_of_union; eauto.
    + intros oid' p' [Hs| ->%list_elem_of_singleton]%elem_of_app Hp'.
      * destruct (P2 _ _ Hs Hp') as (r' & S' & ? & ?). exists r', S'. set_solver.
      * assert (p' = p) as -> by congruence. exists r, S. set_solver +HS HpS.
  - eexists _, _. split; [done|]. split; [done|]. split; [done|].
    intros oid' p' [Hs| ->%list_elem_of_singleton]%elem_of_app Hp'; [eauto|congruence].
Qed.

Lemma add_parents_ok done g seen ps fw oids :
  graph_ok done g -> forest_ok done (sg_txMap g) (sg_setMap g) fw ->
  parents_ok done (sg_setMap g) seen ps ->
  exists ps' fw', fold_left (add_parent g) oids (Some (ps, fw)) = Some (ps', fw') /\
    forest_ok done (sg_txMap g) (sg_setMap g) fw' /\
    parents_ok done (sg_setMap g) (seen ++ oids) ps'.
Proof.
  intros Hg. revert seen ps fw. induction oids as [|oid oids IH]; intros seen ps fw Hf Hp.
  { exists ps, fw. by rewrite app_nil_r. }
  destruct (add_parent_ok done g seen ps fw oid Hg Hf Hp) as (ps1 & fw1 & Heq & Hroots & Hp1).
  cbn [fold_left]. rewrite Heq.
  destruct (IH (seen ++ [oid]) ps1 fw1) as (ps' & fw' & Heq' & Hf' & Hp'); [|done|].
  { by eapply forest_same_roots. }
  exists ps', fw'. by rewrite <- app_assoc in Hp'.
Qed.

(** ** Merging sets *)

Lemma dependencies_mono done (P Q : list Transaction -> Prop) :
  (forall S, P S -> exists a b, Q (a ++ S ++ b)) ->
  dependencies_kept done P -> dependencies_kept done Q.
Proof.
  intros HPQ Hdep d1 t d2 oid p Hd Hoid Hp.
  destruct (Hdep d1 t d2 oid p Hd Hoid Hp) as (S & pre & post & HS & -> & Hin).
  destruct (HPQ _ HS) as (a & b & HQ). exists (a ++ (pre ++ t :: post) ++ b), (a ++ pre), (post ++ b).
  split_and!; [done|by rewrite <- !app_assoc|]. rewrite fmap_app. apply elem_of_app. by right.
Qed.

Lemma merge_set_ok done txMap setMap fw base j Sb Sj :
  forest_ok done txMap setMap fw -> setMap !! base = Some Sb -> setMap !! j = Some Sj -> j <> base ->
  exists setMap' fw', merge_set base (setMap, fw) j = (setMap', fw') /\
    forest_ok done txMap setMap' fw' /\ setMap' !! base = Some (Sb ++ Sj) /\
    (forall k, k <> base -> k <> j -> setMap' !! k = setMap !! k).
Proof.
  intros Hf Hb Hj Hne. pose proof (fo_root _ _ _ _ Hf j (mk_is_Some _ _ Hj)) as Rj.
  pose proof (fo_root _ _ _ _ Hf base (mk_is_Some _ _ Hb)) as Rb.
  eexists _, _. split; [done|]. rewrite Hb, Hj.
  change (default [] (Some Sb)) with Sb. change (default [] (Some Sj)) with Sj.
  set (m' := delete j (<[base := Sb ++ Sj]> setMap)).
  assert (Hmb : m' !! base = Some (Sb ++ Sj))
    by (unfold m'; by rewrite lookup_delete_ne, lookup_insert_eq).
  assert (Hmj : m' !! j = None) by apply lookup_delete_eq.
  assert (Hmk : forall k, k <> base -> k <> j -> m' !! k = setMap !! k)
    by (intros k Hkb Hkj; unfold m'; by rewrite lookup_delete_ne, lookup_insert_ne).
  clearbody m'.
  split_and!; [|done|done]. split.
  - intros tid i (r & S & Hr & HS & Htid)%(fo_tx _ _ _ _ Hf).
    pose proof (root_of_merge _ _ _ _ _ Rj Rb Hne Hr) as Hr'.
    destruct (decide (r = j)) as [->|Hrj]; [|destruct (decide (r = base)) as [->|Hrb]].
    + exists base, (Sb ++ Sj). split_and!; [done..|]. rewrite fmap_app. apply elem_of_app. right. congruence.
    + exists base, (Sb ++ Sj). split_and!; [done..|]. rewrite fmap_app. apply elem_of_app. left. congruence.
    + exists r, S. by rewrite Hmk.
  - intros r [S HS]. destruct (decide (r = j)) as [->|Hrj]; [congruence|].
    rewrite lookup_insert_ne by done. destruct (decide (r = base)) as [->|Hrb]; [done|].
    rewrite Hmk in HS by done. eapply fo_root; eauto.
  - intros x Hx. destruct (fo_bound _ _ _ _ Hf x Hx) as [B1 B2].
    assert (x <> base /\ x <> j) as [? ?] by (split; intros ->; congruence).
    by rewrite Hmk, lookup_insert_ne.
  - rewrite <- (fo_perm _ _ _ _ Hf). rewrite (all_txns_delete setMap base Sb Hb).
    rewrite (all_txns_delete (delete base setMap) j Sj) by by rewrite lookup_delete_ne.
    rewrite (all_txns_delete m' base _ Hmb). rewrite <- app_assoc. do 2 f_equiv.
    replace (delete base m') with (delete j (delete base setMap)); [done|].
    apply map_eq. intros k. destruct (decide (k = base)) as [->|Hkb].
    { by rewrite lookup_delete_eq, lookup_delete_ne, lookup_delete_eq. }
    rewrite (lookup_delete_ne m') by done. destruct (decide (k = j)) as [->|Hkj].
    { by rewrite lookup_delete_eq. }
    by rewrite !lookup_delete_ne, Hmk by done.
  - intros k S HS. destruct (decide (k = base)) as [->|Hkb].
    { rewrite Hmb in HS. injection HS as <-. intros [-> _]%app_eq_nil.
      by apply (fo_nonempty _ _ _ _ Hf base []). }
    assert (k <> j) by congruence. rewrite Hmk in HS by done. by eapply fo_nonempty.
  - eapply dependencies_mono, (fo_dep _ _ _ _ Hf). intros S [r HS].
    destruct (decide (r = j)) as [->|Hrj]; [|destruct (decide (r = base)) as [->|Hrb]].
    + exists Sb, []. exists base. rewrite app_nil_r. congruence.
    + exists [], Sj. exists base. cbn [app]. congruence.
    + exists [], []. exists r. cbn [app]. by rewrite app_nil_r, Hmk.
Qed.

Lemma merge_sets_ok done txMap rest base setMap fw Sb :
  forest_ok done txMap setMap fw -> setMap !! base = Some Sb -> NoDup (base :: rest) ->
  (forall j, j ∈ rest -> is_Some (setMap !! j)) ->
  exists setMap' fw' Sb', fold_left (merge_set base) rest (setMap, fw) = (setMap', fw') /\
    forest_ok done txMap setMap' fw' /\ setMap' !! base = Some Sb' /\ Sb ⊆ Sb' /\
    (forall j Sj, j ∈ rest -> setMap !! j = Some Sj -> Sj ⊆ Sb').
Proof.
  revert setMap fw Sb. induction rest as [|j rest IH]; intros setMap fw Sb Hf Hb Hnd Hrest.
  { exists setMap, fw, Sb. split_and!; try done. by intros ? ? ?%elem_of_nil. }
  apply NoDup_cons in Hnd as [[Hjb Hb']%not_elem_of_cons [Hj Hnd]%NoDup_cons].
  destruct (Hrest j) as [Sj HSj]; [left|].
  destruct (merge_set_ok _ _ _ _ base j Sb Sj Hf Hb HSj) as (m1 & f1 & Heq & Hf1 & Hb1 & Hk1);
    [congruence|]. cbn [fold_left]. rewrite Heq.
  assert (Hsame : forall k, k ∈ rest -> m1 !! k = setMap !! k)
    by (intros k Hk; apply Hk1; intros ->; done).
  destruct (IH m1 f1 (Sb ++ Sj)) as (m' & f' & Sb' & Heq' & Hf' & Hb2 & Hsub & Hall); [done..| | |].
  { by constructor. }
  { intros k Hk. rewrite Hsame by done. apply Hrest. by right. }
  exists m', f', Sb'. split_and!; try done.
  - intros x Hx. apply Hsub, elem_of_app. by left.
  - intros k Sk [->|Hk]%elem_of_cons HSk.
    + intros x Hx. apply Hsub, elem_of_app. right. congruence.
    + apply (Hall k); [done|]. by rewrite Hsame.
Qed.

(** ** Adding a transaction *)

(** The new transaction goes behind all of the set [S] at [r], or, with [S]
    empty, into a set of its own. *)
Lemma forest_append done txMap setMap fw t r S :
  forest_ok done txMap setMap fw -> fw !! r = None -> (r <= length done)%nat ->
  default [] (setMap !! r) = S ->
  (forall oid p, oid ∈ input_ids t -> last_source done oid = Some p ->
     Transaction_ID p ∈ Transaction_ID <$> S) ->
  forest_ok (done ++ [t]) (<[Transaction_ID t := r]> txMap) (<[r := S ++ [t]]> setMap) fw.
Proof.
  intros Hf Hr Hlen HS Hdep.
  assert (Hgrow : forall k T, setMap !! k = Some T ->
    exists b, <[r := S ++ [t]]> setMap !! k = Some (T ++ b)).
  { intros k T HT. destruct (decide (k = r)) as [->|Hne].
    - rewrite HT in HS. cbn in HS. subst T. exists [t]. by rewrite lookup_insert_eq.
    - exists []. by rewrite lookup_insert_ne, app_nil_r. }
  split.
  - intros tid i [[<- <-]|[Hne Hi]]%lookup_insert_Some.
    + exists r, (S ++ [t]). split_and!; [by apply root_of_self|by rewrite lookup_insert_eq|].
      rewrite fmap_app. apply elem_of_app. right. by apply list_elem_of_singleton.
    + destruct (fo_tx _ _ _ _ Hf _ _ Hi) as (k & T & Hk & HT & Htid).
      destruct (Hgrow _ _ HT) as [b Hb]. exists k, (T ++ b). split_and!; [done..|].
      rewrite fmap_app. apply elem_of_app. by left.
  - intros k [T [[<- _]|[Hne HT]]%lookup_insert_Some]; [done|]. eapply fo_root; eauto.
  - intros x Hx. rewrite length_app in Hx. cbn [length] in Hx.
    destruct (fo_bound _ _ _ _ Hf x) as [B1 B2]; [lia|]. rewrite lookup_insert_ne; [done|lia].
  - rewrite <- (fo_perm _ _ _ _ Hf). destruct (setMap !! r) as [T|] eqn:HT; cbn in HS; subst S.
    + rewrite (all_txns_update _ _ _ _ HT), (all_txns_delete _ _ _ HT). solve_Permutation.
    + rewrite all_txns_insert by done. solve_Permutation.
  - apply map_Forall_insert_2; [|apply (fo_nonempty _ _ _ _ Hf)]. by intros [_ ?]%app_eq_nil.
  - intros d1 x d2 oid p Hd Hoid Hp. destruct d2 as [|y d2 _] using rev_ind.
    + apply app_inj_tail in Hd as [<- <-]. exists (S ++ [t]), S, []. split_and!; [|done|by eapply Hdep].
      exists r. apply lookup_insert_eq.
    + rewrite app_comm_cons, app_assoc in Hd. apply app_inj_tail in Hd as [Hd _].
      assert (Hd' : dependencies_kept done (fun T => exists k, <[r := S ++ [t]]> setMap !! k = Some T)).
      { eapply dependencies_mono, (fo_dep _ _ _ _ Hf). intros T [k HT].
        destruct (Hgrow _ _ HT) as [b Hb]. exists [], b. eauto. }
      by eapply Hd'.
Qed.

Lemma record_sources_lookup t oid (m : gmap Hash TransactionID) :
  fold_left (fun m oid => <[oid := Transaction_ID t]> m) (source_ids t) m !! oid =
  if decide (oid ∈ source_ids t) then Some (Transaction_ID t) else m !! oid.
Proof.
  generalize (source_ids t). intros l. revert m. induction l as [|x l IH]; intros m; [done|].
  cbn [fold_left]. rewrite IH. destruct (decide (oid = x)) as [->|Hne].
  - rewrite lookup_insert_eq. destruct (decide (x ∈ l)), (decide (x ∈ x :: l)); set_solver.
  - rewrite lookup_insert_ne by done. destruct (decide (oid ∈ l)), (decide (oid ∈ x :: l)); set_solver.
Qed.

Lemma last_source_snoc done t oid :
  last_source (done ++ [t]) oid = if decide (oid ∈ source_ids t) then Some t else last_source done oid.
Proof.
  unfold last_source. rewrite filter_app. destruct (decide (oid ∈ source_ids t)) as [Hin|Hout].
  - rewrite filter_cons_True by done. apply last_snoc.
  - by rewrite filter_cons_False, filter_nil, app_nil_r.
Qed.

Context (range_int : list nat -> list nat) (Hrange : forall l, range_int l ≡ₚ l).

Lemma add_txn_ok done g t :
  graph_ok done g -> exists g', add_txn range_int g (length done) t = Some g' /\ graph_ok (done ++ [t]) g'.
Proof.
  intros Hg. unfold add_txn.
  destruct (add_parents_ok done g [] ∅ (sg_forwards g) (input_ids t) Hg (go_forest _ _ Hg))
    as (ps & fw & -> & Hf & P1 & P2).
  { split; [by intros ? ?%elem_of_empty|by intros ? ? ?%elem_of_nil]. }
  cbn [mbind option_bind app] in *.
  assert (Hnd : NoDup (range_int (elements ps))) by (rewrite Hrange; apply NoDup_elements).
  assert (Hps : forall r, r ∈ range_int (elements ps) <-> r ∈ ps)
    by (intros r; by rewrite Hrange, elem_of_elements).
  assert (Hend : forall r setMap S fw', forest_ok done (sg_txMap g) setMap fw' -> fw' !! r = None ->
    (r <= length done)%nat -> default [] (setMap !! r) = S ->
    (forall oid p, oid ∈ input_ids t -> last_source done oid = Some p ->
       Transaction_ID p ∈ Transaction_ID <$> S) ->
    graph_ok (done ++ [t]) (mkSetGraph (<[Transaction_ID t := r]> (sg_txMap g))
      (<[r := S ++ [t]]> setMap)
      (fold_left (fun m oid => <[oid := Transaction_ID t]> m) (source_ids t) (sg_objMap g)) fw')).
  { intros r setMap S fw' Hf' Hr Hlen HS Hdep.
    split; cbn [sg_txMap sg_setMap sg_objMap sg_forwards]; [by apply forest_append| |].
    - intros x [Hx| ->%list_elem_of_singleton]%elem_of_app; apply lookup_insert_is_Some'.
      + right. by apply (go_done _ _ Hg).
      + by left.
    - intros oid. rewrite record_sources_lookup, last_source_snoc, (go_obj _ _ Hg).
      by destruct (decide (oid ∈ source_ids t)). }
  destruct (range_int (elements ps)) as [|base rest] eqn:Hl.
  - eexists. split; [done|]. destruct (fo_bound _ _ _ _ Hf (length done)) as [B1 B2]; [done|].
    apply (Hend (length done) (sg_setMap g) []); try done; [by rewrite B1|].
    intros oid p Hoid Hp. destruct (P2 oid p Hoid Hp) as (r & S & Hr & _).
    apply Hps in Hr. by apply elem_of_nil in Hr.
  - destruct (P1 base) as [Sb Hb]; [apply Hps; left|].
    destruct (merge_sets_ok done (sg_txMap g) rest base (sg_setMap g) fw Sb)
      as (m' & f' & Sb' & -> & Hf' & Hb' & Hsub & Hall); [done..| |].
    { intros j Hj. apply P1, Hps. by right. }
    rewrite Hb'. change (default [] (Some Sb')) with Sb'. eexists. split; [done|].
    apply Hend; [done|eapply fo_root; eauto| |by rewrite Hb'|].
    + destruct (decide (length done <= base)%nat) as [Hle|]; [|lia].
      destruct (fo_bound _ _ _ _ Hf' base Hle). congruence.
    + intros oid p Hoid Hp. destruct (P2 oid p Hoid Hp) as (r & S & Hr & HS & Hin).
      apply list_elem_of_fmap in Hin as (x & -> & Hx). apply list_elem_of_fmap_2.
      apply Hps, elem_of_cons in Hr as [->|Hr]; [apply Hsub; congruence|by eapply Hall].
Qed.

Lemma add_txns_ok done g ts :
  graph_ok done g ->
  exists g', add_txns range_int g (length done) ts = Some g' /\ graph_ok (done ++ ts) g'.
Proof.
  revert done g. induction ts as [|t ts IH]; intros done g Hg; cbn [add_txns].
  { exists g. by rewrite app_nil_r. }
  destruct (add_txn_ok done g t Hg) as (g1 & -> & Hg1). cbn [mbind option_bind].
  destruct (IH _ _ Hg1) as (g' & Heq & Hg'). exists g'. rewrite length_app in Heq.
  cbn [length] in Heq. rewrite Nat.add_1_r in Heq. by rewrite <- app_assoc in Hg'.
Qed.

Lemma graph_start : graph_ok [] (mkSetGraph ∅ ∅ ∅ ∅).
Proof.
  split; [|by intros ? ?%elem_of_nil|done].
  split; cbn [sg_txMap sg_setMap sg_forwards]; try done.
  intros d1 t d2 oid p Hd. by destruct d1.
Qed.

(** The sets in the order they are returned in. *)
Lemma collect_sets (m : gmap nat (list Transaction)) :
  omap (fun i => m !! i) (range_int (elements (dom m))) ≡ₚ snd <$> map_to_list m.
Proof.
  rewrite Hrange. rewrite <- (list_to_set_elements_L (dom m)) at 1.
  assert (Hd : elements (dom m) ≡ₚ fst <$> map_to_list m).
  { apply NoDup_Permutation; [apply NoDup_elements|apply NoDup_fst_map_to_list|].
    intros k. rewrite elem_of_elements, elem_of_dom, list_elem_of_fmap. split.
    - intros [S HS]. exists (k, S). by rewrite elem_of_map_to_list.
    - intros ([k' S] & -> & Hin%elem_of_map_to_list). eauto. }
  rewrite list_to_set_elements_L, Hd.
  assert (Hin : forall k S, (k, S) ∈ map_to_list m -> m !! k = Some S)
    by (intros k S; apply elem_of_map_to_list).
  revert Hin. generalize (map_to_list m). intros l Hl.
  induction l as [|[k S] l IH]; [done|]. cbn [fmap list_fmap fst snd omap list_omap].
  rewrite (Hl k S) by left. f_equiv. apply IH. intros k' S' Hin. apply Hl. by right.
Qed.

Lemma findSets_partition ts : exists sets, findSets range_int ts = Some sets /\ concat sets ≡ₚ ts.
Proof.
  unfold findSets. destruct (add_txns_ok [] _ ts graph_start) as (g & Heq & Hg).
  cbn [length] in Heq. rewrite Heq. eexists. split; [done|]. rewrite collect_sets.
  by destruct (go_forest _ _ Hg).
Qed.

(** C35. findSets splits the transactions of a block: it ends, every
    transaction is in exactly one place of one set, no set is empty, and a
    transaction with an input that an earlier transaction of the block creates
    or revises is in the set of the last such transaction and behind it. *)
Theorem findSets_spec ts :
  exists sets, findSets range_int ts = Some sets /\ concat sets ≡ₚ ts /\
    Forall (fun S => S <> []) sets /\ dependencies_kept ts (fun S => S ∈ sets).
Proof.
  unfold findSets.
  destruct (add_txns_ok [] _ ts graph_start) as (g & Heq & Hg). cbn [length app] in *.
  rewrite Heq. cbn [mbind option_bind].
  destruct (go_forest _ _ Hg) as [_ _ _ F4 F5 F6].
  eexists. split; [done|]. rewrite collect_sets. split_and!.
  - done.
  - apply Forall_forall. intros S ([k S'] & -> & Hin%elem_of_map_to_list)%list_elem_of_fmap.
    by apply (F5 k).
  - eapply dependencies_mono, F6. intros S [k HS]. exists [], []. cbn [app].
    rewrite app_nil_r, collect_sets, list_elem_of_fmap. exists (k, S). by rewrite elem_of_map_to_list.
Qed.
End find_sets.
