(* ===== verification/TransactionPoolFacts.v ===== *)
(** * The transaction pool's invariant

    What holds of the pool between two operations, and that accepting a
    transaction set keeps it: the pool's sets are valid against the consensus
    set and share no object, and the indices agree with them. *)

From S2P Require Import Prelude Bytes Interfaces Currency Types Params Encoding Transactions.
From S2P Require Import ConsensusDB ApplyTransaction ConsensusValid MinimumSet.
From S2P Require Import ConsensusSubscribe TransactionPool.

Open Scope Z_scope.

(** ** Generic lemmas *)

Lemma i64_mod z : i64 (z mod 2 ^ 64) = i64 z.
Proof. unfold i64. by rewrite Z.mod_mod. Qed.

Lemma i64_eq_mod z : i64 z mod 2 ^ 64 = z mod 2 ^ 64.
Proof.
  unfold i64. destruct (_ <? _); [by rewrite Z.mod_mod|].
  rewrite <- (Z_mod_plus_full _ 1), Z.mul_1_l, Z.sub_add. by rewrite Z.mod_mod.
Qed.

Lemma i64_add_l a b : i64 (i64 a + b) = i64 (a + b).
Proof.
  rewrite <- i64_mod, <- (i64_mod (a + b)). by rewrite Zplus_mod, i64_eq_mod, <- Zplus_mod.
Qed.

Lemma i64_i64 a : i64 (i64 a) = i64 a.
Proof. by rewrite <- i64_mod, i64_eq_mod, i64_mod. Qed.

Lemma i64_sub_l a b : i64 (i64 a - b) = i64 (a - b).
Proof. by rewrite <- !Z.add_opp_r, i64_add_l. Qed.

Lemma fold_insert_lookup {K V} `{Countable K} (l : list K) (v : V) (m : gmap K V) k :
  fold_left (fun m k => <[k := v]> m) l m !! k =
  if bool_decide (k ∈ l) then Some v else m !! k.
Proof.
  revert m. induction l as [|x l IH]; intros m; cbn [fold_left]; [done|].
  rewrite IH. destruct (decide (k = x)) as [->|Hne].
  - rewrite lookup_insert_eq, (bool_decide_true (x ∈ x :: l)) by left. by destruct (bool_decide _).
  - rewrite lookup_insert_ne by done.
    by rewrite (bool_decide_ext (k ∈ x :: l) (k ∈ l)) by (rewrite elem_of_cons; tauto).
Qed.

Lemma filter_id {A} (p : A -> Prop) `{forall x, Decision (p x)} (l : list A) :
  (forall x, x ∈ l -> p x) -> filter p l = l.
Proof.
  induction l as [|x l IH]; intros Hl; [done|].
  rewrite filter_cons_True by (apply Hl; left). f_equal. apply IH. intros y Hy. apply Hl. by right.
Qed.

Lemma filter_full {A} (p : A -> Prop) `{forall x, Decision (p x)} (l : list A) :
  (length l <= length (filter p l))%nat -> filter p l = l.
Proof.
  induction l as [|x l IH]; intros Hl; [done|].
  destruct (decide (p x)) as [Hx|Hx].
  - rewrite filter_cons_True in * by done. f_equal. apply IH. cbn [length] in Hl. lia.
  - rewrite filter_cons_False in Hl by done. pose proof (length_filter p l). cbn [length] in Hl. lia.
Qed.

Section facts.
Context {B : Build} {P : Params} {C : Crypto} {E : SiaEncoding}.
Context (range : nat -> list Hash -> list Hash) (Hrange : forall n l, range n l ≡ₚ l).

(** The transactions in play, of which no two share an ID without naming the
    same objects: IDs are hashes of what a transaction is about. *)
Context (U : Transaction -> Prop).
Context (HU : forall t t', U t -> U t' -> Transaction_ID t = Transaction_ID t' ->
  txn_objects t = txn_objects t').

(** A set that is tried successfully has diffs for its objects and no
    others. *)
Definition diffs_cover (txnFn : txn_fn) : Prop := forall ts cc,
  txnFn ts = Ret cc () -> list_to_set (diff_ids cc) = related ts.

Context (txnFn : txn_fn) (Hcover : diffs_cover txnFn).

(** ** The invariant *)

Definition set_bytes (ts : list Transaction) : N := N.of_nat (length (Marshal_set ts)).

(** A set that may be in the pool under the ID [id]. *)
Record set_ok (tp : TransactionPool) (id : TransactionSetID) (ts : list Transaction) : Prop := {
  st_id : id = set_id ts;
  st_nonempty : ts <> [];
  st_standard : exists size, isStandardTransactionSet ts = inr size;
  st_valid : exists cc, tp_transactionSetDiffs tp !! id = Some cc /\ txnFn ts = Ret cc ();
  st_txns t : t ∈ ts -> U t /\ is_Some (tp_transactionHeights tp !! Transaction_ID t) /\
    transactionConfirmed tp (Transaction_ID t) = false
}.

(** The invariant, except that nothing is said of how the objects [X] are
    indexed, which no set has: [X] is empty between two operations. *)
Record pool_but (X : gset ObjectID) (tp : TransactionPool) : Prop := {
  po_sets : map_Forall (set_ok tp) (tp_transactionSets tp);
  po_diffs : dom (tp_transactionSetDiffs tp) = dom (tp_transactionSets tp);
  po_known oid id : oid ∉ X ->
    tp_knownObjects tp !! oid = Some id <->
    exists ts, tp_transactionSets tp !! id = Some ts /\ oid ∈ related ts;
  po_free id ts oid : tp_transactionSets tp !! id = Some ts -> oid ∈ related ts -> oid ∉ X;
  po_size : tp_transactionListSize tp = i64 (Z.of_N (msum set_bytes (tp_transactionSets tp)))
}.

Definition pool_ok : TransactionPool -> Prop := pool_but ∅.

(** What accepting a set leaves alone. *)
Definition chain_part (tp : TransactionPool) :=
  (tp_blockHeight tp, tp_recentMedians tp, tp_recentMedianFee tp, tp_db tp,
   tp_subscriberSets tp, tp_subscribers tp, tp_sent tp).

Lemma chain_part_db tp tp' : chain_part tp' = chain_part tp -> tp_db tp' = tp_db tp.
Proof. unfold chain_part. congruence. Qed.

(** No two sets of the pool share an object. *)
Lemma pool_disjoint X tp id1 id2 ts1 ts2 oid :
  pool_but X tp -> tp_transactionSets tp !! id1 = Some ts1 ->
  tp_transactionSets tp !! id2 = Some ts2 ->
  oid ∈ related ts1 -> oid ∈ related ts2 -> id1 = id2.
Proof.
  intros Hok H1 H2 Ho1 Ho2. pose proof (po_free _ _ Hok _ _ _ H1 Ho1) as HX.
  assert (tp_knownObjects tp !! oid = Some id1) as K1 by (apply (po_known _ _ Hok); eauto).
  assert (tp_knownObjects tp !! oid = Some id2) as K2 by (apply (po_known _ _ Hok); eauto).
  congruence.
Qed.

(** ** Removing and adding sets *)

Lemma remove_set_ok X tp id ts :
  pool_but X tp -> tp_transactionSets tp !! id = Some ts ->
  pool_but (X ∪ related ts) (remove_set tp id).
Proof.
  intros Hok Hid. split; unfold remove_set; cbn [with_sets tp_transactionSets tp_transactionSetDiffs
    tp_knownObjects tp_transactionListSize].
  - intros id' ts' [Hne Hid']%lookup_delete_Some. destruct (po_sets _ _ Hok id' ts' Hid').
    split; try done. cbn [with_sets tp_transactionSetDiffs].
    by rewrite lookup_delete_ne.
  - by rewrite !dom_delete_L, (po_diffs _ _ Hok).
  - intros oid id' [HX Hts]%not_elem_of_union. rewrite (po_known _ _ Hok) by done.
    split; intros (ts' & Hid' & Hoid); exists ts'.
    + split; [|done]. apply lookup_delete_Some. split; [|done]. intros ->. congruence.
    + apply lookup_delete_Some in Hid'. tauto.
  - intros id' ts' oid [Hne Hid']%lookup_delete_Some Hoid [HX|Hts]%elem_of_union.
    + by eapply po_free.
    + apply Hne. by eapply pool_disjoint.
  - unfold set_of. rewrite Hid, (po_size _ _ Hok), (msum_delete _ _ _ _ Hid), i64_sub_l.
    change (default [] (Some ts)) with ts.
    f_equal. unfold set_bytes at 1, zlen. lia.
Qed.

Lemma remove_sets_ok l X tp :
  NoDup l -> (forall id, id ∈ l -> is_Some (tp_transactionSets tp !! id)) ->
  pool_but X tp ->
  exists Y, (forall oid, oid ∈ Y <-> oid ∈ X \/ oid ∈ related (l ≫= set_of tp)) /\
    pool_but Y (fold_left remove_set l tp) /\
    (forall id, tp_transactionSets (fold_left remove_set l tp) !! id =
       if bool_decide (id ∈ l) then None else tp_transactionSets tp !! id) /\
    chain_part (fold_left remove_set l tp) = chain_part tp.
Proof.
  revert X tp. induction l as [|id l IH]; intros X tp Hnd Hl Hok; cbn [fold_left].
  { exists X. split_and!; try done. intros oid. cbn [mbind list_bind]. unfold related. set_solver +. }
  apply NoDup_cons in Hnd as [Hid Hnd]. destruct (Hl id) as [ts Hts]; [left|].
  pose proof (remove_set_ok _ _ _ _ Hok Hts) as Hok1.
  assert (Hl1 : forall id', id' ∈ l -> is_Some (tp_transactionSets (remove_set tp id) !! id')).
  { intros id' Hid'. cbn [remove_set with_sets tp_transactionSets].
    rewrite lookup_delete_ne by (intros ->; done). apply Hl. by right. }
  destruct (IH _ _ Hnd Hl1 Hok1) as (Y & HY & Hok' & Hsets & Hch).
  assert (Hsame : l ≫= set_of (remove_set tp id) = l ≫= set_of tp).
  { clear -Hid. induction l as [|x l IH]; [done|]. cbn [mbind list_bind].
    rewrite not_elem_of_cons in Hid. rewrite IH by tauto. f_equal. unfold set_of.
    cbn [remove_set with_sets tp_transactionSets]. rewrite lookup_delete_ne; [done|]. tauto. }
  exists Y. split_and!; try done.
  - intros oid. rewrite HY, Hsame. cbn [mbind list_bind]. unfold set_of at 2. rewrite Hts.
    change (default [] (Some ts)) with ts. unfold related. rewrite bind_app, list_to_set_app_L, !elem_of_union. tauto.
  - intros id'. rewrite Hsets. cbn [remove_set with_sets tp_transactionSets].
    destruct (decide (id' = id)) as [->|Hne].
    + rewrite lookup_delete_eq, (bool_decide_true (id ∈ id :: l)) by left. by case_bool_decide.
    + rewrite lookup_delete_ne by done.
      by rewrite (bool_decide_ext (id' ∈ id :: l) (id' ∈ l)) by (rewrite elem_of_cons; tauto).
Qed.

Lemma record_heights_lookup h ts m id :
  record_heights h ts m !! id =
  match m !! id with
  | Some x => Some x
  | None => if bool_decide (id ∈ Transaction_ID <$> ts) then Some h else None
  end.
Proof.
  unfold record_heights. revert m. induction ts as [|t ts IH]; intros m; cbn [fold_left].
  { by destruct (m !! id). }
  rewrite IH. cbn [fmap list_fmap].
  destruct (decide (id = Transaction_ID t)) as [->|Hne].
  - rewrite (bool_decide_true (_ ∈ _ :: _)) by left.
    destruct (m !! Transaction_ID t) as [x|] eqn:Hm.
    + by rewrite bool_decide_true, Hm.
    + by rewrite bool_decide_false, lookup_insert_eq by by intros [? ?].
  - rewrite (bool_decide_ext (id ∈ _ :: _) (id ∈ Transaction_ID <$> ts)) by (rewrite elem_of_cons; tauto).
    destruct (bool_decide (is_Some _)); [done|]. by rewrite lookup_insert_ne.
Qed.

(** Adding a set whose objects include all those in doubt and none of another
    set. *)
Lemma add_set_ok X tp ts oids cc :
  pool_but X tp -> ts <> [] ->
  (exists size, isStandardTransactionSet ts = inr size) -> txnFn ts = Ret cc () ->
  tp_transactionSets tp !! set_id ts = None ->
  list_to_set oids = related ts -> X ⊆ related ts ->
  (forall id cs oid, tp_transactionSets tp !! id = Some cs -> oid ∈ related cs -> oid ∉ related ts) ->
  (forall t, t ∈ ts -> U t /\ transactionConfirmed tp (Transaction_ID t) = false) ->
  pool_ok (add_set ts oids cc tp).
Proof.
  intros Hok Hne Hstd Hval Hfresh Hoids HX Hdisj Htxns.
  assert (Hin : forall oid, oid ∈ oids <-> oid ∈ related ts)
    by (intros oid; by rewrite <- Hoids, elem_of_list_to_set).
  split; unfold add_set; cbn [with_sets tp_transactionSets tp_transactionSetDiffs
    tp_knownObjects tp_transactionListSize].
  - apply map_Forall_insert_2.
    + split; try done; cbn [with_sets tp_transactionSetDiffs tp_transactionHeights].
      * exists cc. by rewrite lookup_insert_eq.
      * intros t Ht. destruct (Htxns t Ht) as [HUt Hconf]. split_and!; [done| |done].
        rewrite record_heights_lookup, bool_decide_true by by apply list_elem_of_fmap_2.
        destruct (tp_transactionHeights tp !! Transaction_ID t); eauto.
    + intros id cs Hid. destruct (po_sets _ _ Hok id cs Hid) as [S1 S2 S3 S4 S5].
      split; try done; cbn [with_sets tp_transactionSetDiffs tp_transactionHeights].
      * rewrite lookup_insert_ne; [done|]. intros Heq. congruence.
      * intros t Ht. destruct (S5 t Ht) as (HUt & [h Hh] & Hconf). split_and!; [done| |done].
        rewrite record_heights_lookup, Hh. done.
  - by rewrite !dom_insert_L, (po_diffs _ _ Hok).
  - intros oid id _. unfold record_objects. rewrite fold_insert_lookup.
    case_bool_decide as Ho; rewrite Hin in Ho.
    + split.
      * intros [= <-]. exists ts. by rewrite lookup_insert_eq.
      * intros (cs & [[<- <-]|[Hne' Hid]]%lookup_insert_Some & Hoid); [done|].
        by destruct (Hdisj _ _ _ Hid Hoid).
    + rewrite (po_known _ _ Hok) by (by intros HXo; apply Ho, HX).
      split; intros (cs & Hid & Hoid); exists cs.
      * split; [|done]. rewrite lookup_insert_ne; [done|]. intros Heq. congruence.
      * apply lookup_insert_Some in Hid as [[<- <-]|[_ Hid]]; [done|]. done.
  - intros id cs oid _ _. apply not_elem_of_empty.
  - rewrite msum_insert, (po_size _ _ Hok), i64_add_l by done. f_equal. unfold set_bytes at 2, zlen. lia.
Qed.

(** ** Conflicts *)

Lemma elem_of_related oid ts : oid ∈ related ts <-> exists t, t ∈ ts /\ oid ∈ txn_objects t.
Proof.
  unfold related. rewrite elem_of_list_to_set, list_elem_of_bind. naive_solver.
Qed.

Lemma related_app ts1 ts2 : related (ts1 ++ ts2) = related ts1 ∪ related ts2.
Proof. unfold related. by rewrite bind_app, list_to_set_app_L. Qed.

Lemma related_mono ts1 ts2 : ts1 ⊆ ts2 -> related ts1 ⊆ related ts2.
Proof. intros Hts oid. rewrite !elem_of_related. naive_solver. Qed.

Abbreviation conflicts_of tp ts :=
  (find_conflicts (tp_knownObjects tp) (relatedObjectIDs range ts)).

Lemma elem_of_relatedObjectIDs oid ts : oid ∈ relatedObjectIDs range ts <-> oid ∈ related ts.
Proof. unfold relatedObjectIDs. by rewrite Hrange, elem_of_elements. Qed.

Lemma elem_of_conflicts tp ts id :
  id ∈ conflicts_of tp ts <->
  exists oid, oid ∈ related ts /\ tp_knownObjects tp !! oid = Some id.
Proof.
  unfold find_conflicts. rewrite list_elem_of_omap.
  by setoid_rewrite elem_of_relatedObjectIDs.
Qed.

Lemma conflict_map_step tp c (m : gmap TransactionID TransactionSetID) tid :
  fold_left (fun m txn => <[Transaction_ID txn := c]> m) (set_of tp c) m !! tid =
  if bool_decide (tid ∈ Transaction_ID <$> set_of tp c) then Some c else m !! tid.
Proof.
  rewrite <- fold_insert_lookup. f_equal. generalize (set_of tp c). intros l. revert m.
  induction l as [|t l IH]; intros m; [done|]. apply IH.
Qed.

(** The set a transaction is filed under holds it; one is filed if any of the
    conflicts holds it. *)
Lemma conflict_map_spec tp conflicts tid :
  match conflict_map tp conflicts !! tid with
  | Some c => c ∈ conflicts /\ tid ∈ Transaction_ID <$> set_of tp c
  | None => forall c, c ∈ conflicts -> tid ∉ Transaction_ID <$> set_of tp c
  end.
Proof.
  unfold conflict_map. induction conflicts as [|c l IH] using rev_ind.
  { cbn [fold_left]. rewrite lookup_empty. by intros c ?%elem_of_nil. }
  rewrite fold_left_app. cbn [fold_left]. rewrite conflict_map_step.
  case_bool_decide as Hc.
  - split; [|done]. apply elem_of_app. right. by apply list_elem_of_singleton.
  - destruct (fold_left _ l ∅ !! tid) as [c'|].
    + destruct IH. split; [|done]. apply elem_of_app. by left.
    + intros c' [Hl| ->%list_elem_of_singleton]%elem_of_app; [by apply IH|done].
Qed.

Lemma elem_of_superset_map (m : gmap TransactionID TransactionSetID) c :
  c ∈ superset_map m <-> exists tid, m !! tid = Some c.
Proof.
  unfold superset_map. rewrite elem_of_list_to_set, list_elem_of_fmap. split.
  - intros ([tid c'] & -> & Hin%elem_of_map_to_list). eauto.
  - intros (tid & Hm). exists (tid, c). by rewrite elem_of_map_to_list.
Qed.

(** A set of the pool that has an object in common with [ts]. *)
Definition shares (tp : TransactionPool) (ts : list Transaction) (id : TransactionSetID) : Prop :=
  exists cs oid, tp_transactionSets tp !! id = Some cs /\ oid ∈ related cs /\ oid ∈ related ts.

Lemma shares_conflict tp ts id : pool_ok tp -> shares tp ts id <-> id ∈ conflicts_of tp ts.
Proof.
  intros Hok. rewrite elem_of_conflicts. unfold shares.
  assert (Hk := fun oid => po_known _ _ Hok oid id (not_elem_of_empty oid)). naive_solver.
Qed.

Lemma set_of_Some tp id ts : tp_transactionSets tp !! id = Some ts -> set_of tp id = ts.
Proof. unfold set_of. by intros ->. Qed.

(** The conflicts that are merged are the sets that share an object. *)
Lemma merged_shares tp ts id :
  pool_ok tp -> id ∈ superset_map (conflict_map tp (conflicts_of tp ts)) <-> shares tp ts id.
Proof.
  intros Hok. rewrite elem_of_superset_map. split.
  - intros (tid & Hm). pose proof (conflict_map_spec tp (conflicts_of tp ts) tid) as Hs.
    rewrite Hm in Hs. destruct Hs as [Hs _]. by apply shares_conflict.
  - intros Hsh. pose proof Hsh as (cs & oid & Hcs & Ho & Hts).
    apply (shares_conflict _ _ _ Hok) in Hsh. apply elem_of_related in Ho as (t & Ht & Ho).
    exists (Transaction_ID t).
    pose proof (conflict_map_spec tp (conflicts_of tp ts) (Transaction_ID t)) as Hs.
    destruct (_ !! Transaction_ID t) as [c|].
    + destruct Hs as [Hc (t' & Hid & Ht')%list_elem_of_fmap].
      destruct (tp_transactionSets tp !! c) as [cs'|] eqn:Hcs';
        [|unfold set_of in Ht'; rewrite Hcs' in Ht'; by apply elem_of_nil in Ht'].
      rewrite (set_of_Some _ _ _ Hcs') in Ht'. f_equal.
      assert (txn_objects t = txn_objects t') as Hobj.
      { apply HU; [eapply (st_txns _ _ _ (po_sets _ _ Hok _ _ Hcs)), Ht
                  |eapply (st_txns _ _ _ (po_sets _ _ Hok _ _ Hcs')), Ht'|done]. }
      eapply (pool_disjoint _ _ c id cs' cs oid Hok); try done; apply elem_of_related.
      * exists t'. by rewrite <- Hobj.
      * by exists t.
    + destruct (Hs id Hsh). rewrite (set_of_Some _ _ _ Hcs). by apply list_elem_of_fmap_2.
Qed.

(** ** Accepting a set *)

(** What an accepted set does to the pool: the sets in [merged], those that
    share an object with the transactions [new], give way to one set that has
    all their transactions and, behind them, [new]; these are the transactions
    of [ts] that are neither confirmed nor in the pool. *)
Record accepted (tp : TransactionPool) (ts superset : list Transaction) (tp' : TransactionPool)
    (merged : gset TransactionSetID) (new : list Transaction) : Prop := {
  ac_superset : superset = merged_txns range tp merged new;
  ac_new : new <> [];
  ac_sublist : new `sublist_of` ts;
  ac_dropped t : t ∈ ts -> t ∉ new ->
    transactionConfirmed tp (Transaction_ID t) = true \/
    exists id cs, tp_transactionSets tp !! id = Some cs /\ Transaction_ID t ∈ Transaction_ID <$> cs;
  ac_merged id : id ∈ merged <-> shares tp new id;
  ac_sets id : tp_transactionSets tp' !! id =
    if bool_decide (id = set_id superset) then Some superset
    else if bool_decide (id ∈ merged) then None else tp_transactionSets tp !! id;
  ac_chain : chain_part tp' = chain_part tp
}.

Definition accept_outcome (tp : TransactionPool) (ts : list Transaction)
    (o : outcome TransactionPool (list Transaction)) : Prop :=
  match o with
  | Ret superset tp' => pool_ok tp' /\ exists merged new, accepted tp ts superset tp' merged new
  | Err _ tp' => tp' = tp
  | Panic msg => exists ts', txnFn ts' = Panic msg
  end.

(** Transactions that can be new to the pool. *)
Definition fresh_txns (tp : TransactionPool) (ts : list Transaction) : Prop :=
  forall t, t ∈ ts -> U t /\ transactionConfirmed tp (Transaction_ID t) = false.

(** The checks before a set is tried leave the pool alone. *)
Lemma composition_cases ts tp :
  (exists e, checkTransactionSetComposition ts tp = Err e tp) \/
  exists size, checkTransactionSetComposition ts tp = Ret size tp /\
    tp_transactionSets tp !! set_id ts = None /\ isStandardTransactionSet ts = inr size.
Proof.
  unfold checkTransactionSetComposition, get, check, err_if, sum_err, throw, mbind, M_bind, mret, M_ret.
  case_bool_decide as Hs; [eauto|]. apply eq_None_not_Some in Hs.
  destruct (isStandardTransactionSet ts) as [e|size]; eauto.
Qed.

Lemma check_fees_cases ts size tp :
  check_fees ts size tp = Ret () tp \/ check_fees ts size tp = Err errLowMinerFees tp.
Proof.
  unfold check_fees, get, check, err_if, throw, mbind, M_bind, mret, M_ret.
  destruct (0 <? _); auto.
Qed.

Lemma merged_objects_free tp new id cs oid :
  pool_ok tp -> ~ shares tp new id -> tp_transactionSets tp !! id = Some cs -> oid ∈ related cs ->
  oid ∉ related (merged_txns range tp (superset_map (conflict_map tp (conflicts_of tp new))) new).
Proof.
  intros Hok Hns Hcs Ho. unfold merged_txns. rewrite related_app. intros [Hin|Hin]%elem_of_union.
  - apply elem_of_related in Hin as (t & (id' & Hid' & Ht)%list_elem_of_bind & Hot).
    rewrite Hrange, elem_of_elements, merged_shares in Ht by done.
    pose proof Ht as (cs' & oid' & Hcs' & _ & _). rewrite (set_of_Some _ _ _ Hcs') in Hid'.
    assert (id = id') as ->; [|done].
    eapply (pool_disjoint _ _ _ _ _ _ _ Hok Hcs Hcs' Ho), elem_of_related. by exists t.
  - apply Hns. by exists cs, oid.
Qed.

Lemma merged_txns_fresh tp merged new t :
  pool_ok tp -> fresh_txns tp new -> t ∈ merged_txns range tp merged new ->
  U t /\ transactionConfirmed tp (Transaction_ID t) = false.
Proof.
  intros Hok Hnew [(id & Ht & _)%list_elem_of_bind|Ht]%elem_of_app; [|by apply Hnew].
  unfold set_of in Ht. destruct (tp_transactionSets tp !! id) as [cs|] eqn:Hcs.
  - destruct (st_txns _ _ _ (po_sets _ _ Hok _ _ Hcs) t Ht) as (? & ? & ?). done.
  - by apply elem_of_nil in Ht.
Qed.

Abbreviation merged_ids tp new := (superset_map (conflict_map tp (conflicts_of tp new))).

(** Replacing the sets that share objects with [new] by the merged set. *)
Lemma replace_sets_ok tp new cc size :
  let superset := merged_txns range tp (merged_ids tp new) new in
  let tp' := add_set superset (diff_ids cc) cc
               (fold_left remove_set (range 2 (elements (merged_ids tp new))) tp) in
  pool_ok tp -> new <> [] -> fresh_txns tp new ->
  tp_transactionSets tp !! set_id superset = None ->
  isStandardTransactionSet superset = inr size -> txnFn superset = Ret cc () ->
  pool_ok tp' /\
  (forall id, tp_transactionSets tp' !! id =
     if bool_decide (id = set_id superset) then Some superset
     else if bool_decide (id ∈ merged_ids tp new) then None else tp_transactionSets tp !! id) /\
  chain_part tp' = chain_part tp.
Proof.
  intros superset tp' Hok Hne Hfresh Hnone Hstd Hval.
  subst tp'. set (l := range 2 (elements (merged_ids tp new))).
  assert (Hl : forall id, id ∈ l <-> shares tp new id)
    by (intros id; unfold l; by rewrite Hrange, elem_of_elements, merged_shares).
  destruct (remove_sets_ok l ∅ tp) as (Y & HY & Hok1 & Hsets & Hch); [| |done|].
  { unfold l. rewrite Hrange. apply NoDup_elements. }
  { intros id (cs & oid & Hcs & _)%Hl. eauto. }
  split_and!; [|intros id|done].
  - apply (add_set_ok Y); [done| |eauto|done| |by apply Hcover| | |].
    + unfold superset, merged_txns. intros [_ ?]%app_eq_nil. done.
    + rewrite Hsets, Hnone. by destruct (bool_decide _).
    + intros oid Hoid. apply HY in Hoid as [[]%elem_of_empty|Hoid].
      revert Hoid. apply related_mono. unfold superset, merged_txns. intros t Ht.
      apply elem_of_app. left. revert Ht. rewrite !list_elem_of_bind.
      unfold l. setoid_rewrite Hrange. done.
    + intros id cs oid. rewrite Hsets. case_bool_decide as Hin; [done|]. rewrite Hl in Hin.
      by apply merged_objects_free.
    + intros t Ht. unfold transactionConfirmed. rewrite (chain_part_db _ _ Hch). by apply (merged_txns_fresh tp (merged_ids tp new) new).
  - unfold add_set. cbn [with_sets tp_transactionSets].
    case_bool_decide as Hid; [by rewrite Hid, lookup_insert_eq|].
    rewrite lookup_insert_ne, Hsets by done.
    by rewrite (bool_decide_ext (id ∈ l) (id ∈ merged_ids tp new)) by (by rewrite Hl, merged_shares).
Qed.

Definition dropped_ok (tp : TransactionPool) (ts new : list Transaction) : Prop :=
  forall t, t ∈ ts -> t ∉ new ->
    transactionConfirmed tp (Transaction_ID t) = true \/
    exists id cs, tp_transactionSets tp !! id = Some cs /\ Transaction_ID t ∈ Transaction_ID <$> cs.

Lemma merge_conflicts_outcome tp ts new :
  pool_ok tp -> new <> [] -> fresh_txns tp new -> new `sublist_of` ts -> dropped_ok tp ts new ->
  accept_outcome tp ts (merge_conflicts range (conflict_map tp (conflicts_of tp new)) new txnFn tp).
Proof.
  intros Hok Hne Hfresh Hsub Hdrop.
  unfold merge_conflicts, get, modify, mbind, M_bind, mret, M_ret.
  set (superset := merged_txns range tp (merged_ids tp new) new).
  destruct (composition_cases superset tp) as [[e ->]|(size & -> & Hnone & Hstd)]; [done|].
  destruct (check_fees_cases superset size tp) as [->| ->]; [|done].
  unfold try_set. destruct (txnFn superset) as [cc []|e []|msg] eqn:Hval; [|done|by exists superset].
  destruct (replace_sets_ok tp new cc size) as (Hok' & Hsets & Hch); try done.
  cbn [accept_outcome]. split; [done|]. exists (merged_ids tp new), new.
  split; try done. intros id. by apply merged_shares.
Qed.

Lemma conflicts_mono tp ts ts' : ts' ⊆ ts -> conflicts_of tp ts' ⊆ conflicts_of tp ts.
Proof.
  intros Hts id. rewrite !elem_of_conflicts. intros (oid & Ho & Hk). exists oid.
  split; [by apply (related_mono ts' ts)|done].
Qed.

Abbreviation dedup tp ts :=
  (filter (fun t => conflict_map tp (conflicts_of tp ts) !! Transaction_ID t = None) ts).

(** The first deduplication is complete. *)
Lemma dedup_idemp tp ts : dedup tp (dedup tp ts) = dedup tp ts.
Proof.
  apply filter_id. intros t [Hnone Ht]%list_elem_of_filter.
  pose proof (conflict_map_spec tp (conflicts_of tp ts) (Transaction_ID t)) as Hs.
  rewrite Hnone in Hs.
  pose proof (conflict_map_spec tp (conflicts_of tp (dedup tp ts)) (Transaction_ID t)) as Hs'.
  destruct (conflict_map tp (conflicts_of tp (dedup tp ts)) !! Transaction_ID t) as [c|]; [|done].
  destruct Hs' as [Hc Hin].
  destruct (Hs c); [|done]. revert Hc. apply conflicts_mono.
  intros x Hx. by apply list_elem_of_filter in Hx as [_ Hx].
Qed.

Lemma dedup_dropped tp ts t :
  t ∈ ts -> t ∉ dedup tp ts ->
  exists id cs, tp_transactionSets tp !! id = Some cs /\ Transaction_ID t ∈ Transaction_ID <$> cs.
Proof.
  intros Ht Hnot. rewrite list_elem_of_filter in Hnot.
  pose proof (conflict_map_spec tp (conflicts_of tp ts) (Transaction_ID t)) as Hs.
  destruct (_ !! Transaction_ID t) as [c|]; [|tauto]. destruct Hs as [_ Hs]. exists c.
  unfold set_of in Hs. destruct (tp_transactionSets tp !! c) as [cs|]; [eauto|].
  by apply elem_of_nil in Hs.
Qed.

(** Two rounds are enough. *)
Lemma handleConflicts_outcome n tp ts0 ts :
  (2 <= n)%nat -> pool_ok tp -> fresh_txns tp ts -> ts `sublist_of` ts0 ->
  (forall t, t ∈ ts0 -> transactionConfirmed tp (Transaction_ID t) = true \/ t ∈ ts) ->
  accept_outcome tp ts0 (handleConflicts range n ts (conflicts_of tp ts) txnFn tp).
Proof.
  intros Hn Hok Hfresh Hsub Hdrop. destruct n as [|[|n]]; [lia..|].
  assert (Hds : dedup tp ts `sublist_of` ts) by apply sublist_filter.
  assert (Hall : dropped_ok tp ts0 (dedup tp ts)).
  { intros t Ht Hnot. destruct (Hdrop t Ht); [by left|right; by eapply dedup_dropped]. }
  assert (Hdfresh : fresh_txns tp (dedup tp ts))
    by (intros t [_ Ht]%list_elem_of_filter; by apply Hfresh).
  cbn [handleConflicts]. unfold get, check, err_if, throw, mbind, M_bind, mret, M_ret.
  destruct (length (dedup tp ts) =? 0)%nat eqn:Hlen; [done|]. apply Nat.eqb_neq in Hlen.
  assert (Hne : dedup tp ts <> []) by (intros Heq; by rewrite Heq in Hlen).
  destruct (length (dedup tp ts) <? length ts)%nat eqn:Hlt.
  - rewrite dedup_idemp. apply Nat.eqb_neq in Hlen. rewrite Hlen, Nat.ltb_irrefl.
    apply merge_conflicts_outcome; try done. by etrans.
  - apply Nat.ltb_ge, filter_full in Hlt. rewrite Hlt in *. by apply merge_conflicts_outcome.
Qed.

Lemma merged_none tp ts :
  pool_ok tp -> conflicts_of tp ts = [] ->
  (forall id, ~ shares tp ts id) /\ merged_txns range tp ∅ ts = ts.
Proof.
  intros Hok Hnil. split.
  - intros id Hid%shares_conflict; [|done]. rewrite Hnil in Hid. by apply elem_of_nil in Hid.
  - unfold merged_txns. rewrite elements_empty.
    assert (range 1 [] = []) as -> by (apply Permutation_nil; symmetry; apply Hrange). done.
Qed.

Lemma acceptTransactionSet_outcome tp ts :
  pool_ok tp -> (forall t, t ∈ ts -> U t) ->
  accept_outcome tp ts (acceptTransactionSet range ts txnFn tp).
Proof.
  intros Hok HUts.
  set (ts' := filter (fun txn => transactionConfirmed tp (Transaction_ID txn) = false) ts).
  assert (Hsub : ts' `sublist_of` ts) by apply sublist_filter.
  assert (Hfresh : fresh_txns tp ts') by (intros t [Hc Ht]%list_elem_of_filter; auto).
  assert (Hdrop : forall t, t ∈ ts -> transactionConfirmed tp (Transaction_ID t) = true \/ t ∈ ts').
  { intros t Ht. unfold ts'. rewrite list_elem_of_filter.
    destruct (transactionConfirmed tp (Transaction_ID t)); auto. }
  unfold acceptTransactionSet, get, check, err_if, throw, modify, mbind, M_bind, mret, M_ret.
  destruct (length ts =? 0)%nat; [done|]. cbv beta iota zeta. fold ts'.
  destruct (length ts' =? 0)%nat eqn:Hlen; [done|]. apply Nat.eqb_neq in Hlen.
  assert (Hne : ts' <> []) by (intros Heq; by rewrite Heq in Hlen).
  destruct (composition_cases ts' tp) as [[e ->]|(size & -> & Hnone & Hstd)]; [done|].
  destruct (check_fees_cases ts' size tp) as [->| ->]; [|done].
  destruct (0 <? length (conflicts_of tp ts'))%nat eqn:Hc.
  { apply handleConflicts_outcome; try done. lia. }
  apply Nat.ltb_ge in Hc.
  destruct (merged_none tp ts' Hok) as [Hns Hm]; [by apply length_zero_iff_nil; lia|].
  unfold try_set. destruct (txnFn ts') as [cc []|e []|msg] eqn:Hval; [|done|by exists ts'].
  cbn [accept_outcome]. split.
  - apply (add_set_ok ∅); [done|done|eauto|done|done| |set_solver +| |done].
    + apply set_eq. intros oid. by rewrite elem_of_list_to_set, elem_of_relatedObjectIDs.
    + intros id cs oid Hcs Ho Hin. destruct (Hns id). by exists cs, oid.
  - exists ∅, ts'. split; try done.
    + intros t Ht Hnot. left. by destruct (Hdrop t Ht).
    + intros id. split; [by intros ?%elem_of_empty|by intros ?%Hns].
    + intros id. unfold add_set. cbn [with_sets tp_transactionSets].
      rewrite (bool_decide_false (id ∈ ∅)) by apply not_elem_of_empty.
      case_bool_decide as Hid; [by rewrite Hid, lookup_insert_eq|by rewrite lookup_insert_ne].
Qed.
End facts.
