(* ===== verification/TransactionPoolSubscribers.v ===== *)
(** * What the subscribers of the transaction pool see

    A subscriber that applies every diff it is sent, in order, has the sets
    that the pool had when it last sent one. *)

From S2P Require Import Prelude Bytes Interfaces Currency Types Params Encoding Transactions.
From S2P Require Import MinimumSet ConsensusSubscribe TransactionPool TransactionPoolFacts.

Open Scope Z_scope.

(** What a subscriber makes of a diff. *)
Definition apply_diff (view : gmap Hash UnconfirmedTransactionSet) (d : TransactionPoolDiff)
  : gmap Hash UnconfirmedTransactionSet :=
  fold_left (fun m ut => <[ut_ID ut := ut]> m) (tpd_AppliedTransactions d)
    (fold_left (fun m id => delete id m) (tpd_RevertedTransactions d) view).

Definition view_of (diffs : list TransactionPoolDiff) : gmap Hash UnconfirmedTransactionSet :=
  fold_left apply_diff diffs ∅.

Lemma fold_delete_lookup {K V} `{Countable K} (l : list K) (m : gmap K V) k :
  fold_left (fun m k => delete k m) l m !! k = if decide (k ∈ l) then None else m !! k.
Proof.
  revert m. induction l as [|x l IH]; intros m; cbn [fold_left]; [done|].
  rewrite IH. destruct (decide (k = x)) as [->|Hne].
  - rewrite lookup_delete_eq. destruct (decide (x ∈ l)), (decide (x ∈ x :: l)); set_solver.
  - rewrite lookup_delete_ne by done.
    destruct (decide (k ∈ l)), (decide (k ∈ x :: l)); set_solver.
Qed.

(** Inserting values that carry their keys. *)
Lemma fold_insert_keyed {K V} `{Countable K} (key : V -> K) (l : list V) (m : gmap K V) k :
  (forall v w, v ∈ l -> w ∈ l -> key v = key w -> v = w) ->
  (exists v, v ∈ l /\ key v = k /\ fold_left (fun m v => <[key v := v]> m) l m !! k = Some v) \/
  (forall v, v ∈ l -> key v <> k) /\ fold_left (fun m v => <[key v := v]> m) l m !! k = m !! k.
Proof.
  intros Hinj. induction l as [|x l IH] using rev_ind.
  { right. split; [by intros ? ?%elem_of_nil|done]. }
  rewrite fold_left_app. cbn [fold_left]. destruct (decide (key x = k)) as [<-|Hne].
  { left. exists x. rewrite lookup_insert_eq. split_and!; [|done..].
    apply elem_of_app. right. by apply list_elem_of_singleton. }
  rewrite lookup_insert_ne by done. destruct IH as [(v & Hv & Hk & ->)|[Hno ->]].
  - intros v w Hv Hw. apply Hinj; apply elem_of_app; by left.
  - left. exists v. split_and!; [|done..]. apply elem_of_app. by left.
  - right. split; [|done]. intros v [Hv| ->%list_elem_of_singleton]%elem_of_app; [by apply Hno|done].
Qed.

Section subscribers.
Context {B : Build} {C : Crypto} {E : SiaEncoding}.
Context (range : nat -> list Hash -> list Hash) (Hrange : forall n l, range n l ≡ₚ l).

(** The record of a set that was sent names the set. *)
Definition names_set (id : Hash) (ut : UnconfirmedTransactionSet) : Prop :=
  ut_ID ut = id /\ set_id (ut_Transactions ut) = id /\
  ut_IDs ut = Transaction_ID <$> ut_Transactions ut /\
  ut_Sizes ut = (fun t => u64 (txn_size t)) <$> ut_Transactions ut.

(** Every subscriber has been sent what the pool believes it has. *)
Record in_sync (tp : TransactionPool) : Prop := {
  sy_once : NoDup (tp_subscribers tp);
  sy_names : map_Forall names_set (tp_subscriberSets tp);
  sy_views s : s ∈ tp_subscribers tp ->
    view_of (default [] (tp_sent tp !! s)) = tp_subscriberSets tp
}.

(** Accepting sets does not change it. *)
Lemma in_sync_chain tp tp' : chain_part tp' = chain_part tp -> in_sync tp -> in_sync tp'.
Proof.
  unfold chain_part. intros Hch [H1 H2 H3].
  assert (tp_subscriberSets tp' = tp_subscriberSets tp) as Hs by congruence.
  assert (tp_subscribers tp' = tp_subscribers tp) as Hn by congruence.
  assert (tp_sent tp' = tp_sent tp) as Ht by congruence.
  split; by rewrite ?Hs, ?Hn, ?Ht.
Qed.

(** The calls of the subscription interface. *)
Inductive subscription_call :=
| CallUpdate
| CallSubscribe (s : Z)
| CallUnsubscribe (s : Z).

Definition run_subscription (c : subscription_call) : M TransactionPool () :=
  match c with
  | CallUpdate => modify (updateSubscribersTransactions range)
  | CallSubscribe s => TransactionPoolSubscribe range s
  | CallUnsubscribe s => modify (TransactionPool_Unsubscribe s)
  end.

Lemma send_diff_lookup subs d sent s :
  NoDup subs ->
  send_diff subs d sent !! s =
  if decide (s ∈ subs) then Some (default [] (sent !! s) ++ [d]) else sent !! s.
Proof.
  unfold send_diff. revert sent. induction subs as [|x subs IH]; intros sent Hnd; [done|].
  apply NoDup_cons in Hnd as [Hx Hnd]. cbn [fold_left]. rewrite IH by done.
  destruct (decide (s = x)) as [->|Hne].
  - rewrite lookup_insert_eq. destruct (decide (x ∈ subs)), (decide (x ∈ x :: subs)); set_solver.
  - rewrite lookup_insert_ne by done.
    destruct (decide (s ∈ subs)), (decide (s ∈ x :: subs)); set_solver.
Qed.

Lemma view_of_snoc diffs d : view_of (diffs ++ [d]) = apply_diff (view_of diffs) d.
Proof. apply fold_left_app. Qed.

(** The sets after an update, one by one. *)
Lemma update_lookup tp id :
  tp_subscriberSets (updateSubscribersTransactions range tp) !! id =
  match tp_transactionSets tp !! id with
  | None => None
  | Some _ =>
      match tp_subscriberSets tp !! id with
      | Some ut => Some ut
      | None => Some (unconfirmed_set tp id)
      end
  end.
Proof.
  unfold updateSubscribersTransactions. cbn [with_subscribers tp_subscriberSets].
  set (reverted := filter _ (range 3 _)). set (kept := fold_left _ reverted _).
  set (applied := unconfirmed_set tp <$> _).
  assert (Hkept : kept !! id = if decide (tp_transactionSets tp !! id = None) then None
                               else tp_subscriberSets tp !! id).
  { unfold kept. rewrite fold_delete_lookup. unfold reverted.
    destruct (decide (id ∈ _)) as [Hin|Hout].
    - apply list_elem_of_filter in Hin as [Hnone _]. by rewrite decide_True.
    - rewrite list_elem_of_filter, Hrange, elem_of_elements, elem_of_dom in Hout.
      destruct (decide _) as [Hnone|]; [|done]. apply eq_None_not_Some. tauto. }
  assert (Hin : forall ut, ut ∈ applied <-> exists k, ut = unconfirmed_set tp k /\
    kept !! k = None /\ is_Some (tp_transactionSets tp !! k)).
  { intros ut. unfold applied. rewrite list_elem_of_fmap.
    setoid_rewrite list_elem_of_filter. setoid_rewrite Hrange.
    setoid_rewrite elem_of_elements. setoid_rewrite elem_of_dom. naive_solver. }
  destruct (fold_insert_keyed ut_ID applied kept id) as [(ut & Hut & Hid & ->)|[Hno ->]].
  - intros v w (k & -> & _)%Hin (k' & -> & _)%Hin. by cbn [unconfirmed_set ut_ID]; intros ->.
  - apply Hin in Hut as (k & -> & Hk & [ts Hts]). cbn [unconfirmed_set ut_ID] in Hid. subst k.
    rewrite Hkept in Hk. destruct (decide (tp_transactionSets tp !! id = None)) as [|_]; [congruence|].
    by rewrite Hts, Hk.
  - destruct (decide (tp_transactionSets tp !! id = None)) as [Hnone|Hsome].
    { by rewrite Hkept, Hnone. }
    destruct (tp_transactionSets tp !! id) as [ts|] eqn:Hts; [|done].
    destruct (tp_subscriberSets tp !! id) as [ut|] eqn:Hs; [done|].
    exfalso. apply (Hno (unconfirmed_set tp id)); [|done]. apply Hin. exists id.
    rewrite Hkept, Hts. eauto.
Qed.

Lemma update_in_sync tp :
  map_Forall (fun id ts => id = set_id ts) (tp_transactionSets tp) -> in_sync tp ->
  in_sync (updateSubscribersTransactions range tp).
Proof.
  intros Hids [Honce Hnames Hviews]. split.
  - done.
  - intros id ut. rewrite update_lookup. destruct (tp_transactionSets tp !! id) as [ts|] eqn:Hts; [|done].
    destruct (tp_subscriberSets tp !! id) as [ut'|] eqn:Hs.
    + intros [= <-]. by apply Hnames.
    + intros [= <-]. unfold unconfirmed_set, names_set, set_of.
      cbn [ut_ID ut_IDs ut_Sizes ut_Transactions]. rewrite Hts. cbn. split_and!; try done.
      symmetry. by apply Hids.
  - intros s Hs. unfold updateSubscribersTransactions in *.
    cbn [with_subscribers tp_subscriberSets tp_sent tp_subscribers] in *.
    rewrite send_diff_lookup, decide_True by done. change (default [] (Some ?x)) with (x).
    by rewrite view_of_snoc, (Hviews s Hs).
Qed.

(** What a new subscriber is sent is all the sets. *)
Lemma view_of_all tp :
  map_Forall names_set (tp_subscriberSets tp) ->
  view_of [mkTransactionPoolDiff (omap (fun id => tp_subscriberSets tp !! id)
             (range 5 (elements (dom (tp_subscriberSets tp))))) []] = tp_subscriberSets tp.
Proof.
  intros Hnames. unfold view_of. cbn [fold_left]. unfold apply_diff.
  cbn [tpd_AppliedTransactions tpd_RevertedTransactions fold_left].
  set (l := omap _ _). apply map_eq. intros id.
  assert (Hl : forall ut, ut ∈ l <-> exists k, tp_subscriberSets tp !! k = Some ut).
  { intros ut. unfold l. rewrite list_elem_of_omap. setoid_rewrite Hrange.
    setoid_rewrite elem_of_elements. setoid_rewrite elem_of_dom. naive_solver. }
  destruct (fold_insert_keyed ut_ID l ∅ id) as [(ut & Hut & Hid & ->)|[Hno ->]].
  - intros v w (k & Hk)%Hl (k' & Hk')%Hl Heq. destruct (Hnames _ _ Hk), (Hnames _ _ Hk'). congruence.
  - apply Hl in Hut as (k & Hk). destruct (Hnames _ _ Hk). congruence.
  - rewrite lookup_empty. destruct (tp_subscriberSets tp !! id) as [ut|] eqn:Hut; [|done].
    exfalso. apply (Hno ut); [apply Hl; eauto|]. by destruct (Hnames _ _ Hut).
Qed.

Lemma subscribe_in_sync tp s tp' :
  s ∉ tp_subscribers tp -> tp_sent tp !! s = None -> in_sync tp ->
  TransactionPoolSubscribe range s tp = Ret () tp' -> in_sync tp'.
Proof.
  intros Hs Hsent [Honce Hnames Hviews] Hrun. unfold TransactionPoolSubscribe in Hrun. inv_run.
  split; cbn [with_subscribers tp_subscribers tp_subscriberSets tp_sent].
  - apply NoDup_app. split_and!; [done| |apply NoDup_singleton].
    intros x Hx ->%list_elem_of_singleton. done.
  - done.
  - intros x Hx. destruct (decide (x = s)) as [->|Hne].
    + rewrite lookup_insert_eq, Hsent. by apply view_of_all.
    + rewrite lookup_insert_ne by done. apply elem_of_app in Hx as [Hx|Hx]; [by apply Hviews|].
      by apply list_elem_of_singleton in Hx.
Qed.

(** C36. The subscribers keep up with the pool: subscribing for the first time,
    unsubscribing and an update keep every subscriber's view, which is what it
    gets by applying the diffs it was sent, equal to the pool's record of what
    it sent; and after an update that record has exactly the pool's sets, each
    under the ID that is the hash of the transactions sent for it. *)
Theorem subscribers_keep_up tp c tp' :
  map_Forall (fun id ts => id = set_id ts) (tp_transactionSets tp) -> in_sync tp ->
  (forall s, c = CallSubscribe s -> s ∉ tp_subscribers tp /\ tp_sent tp !! s = None) ->
  run_subscription c tp = Ret () tp' ->
  in_sync tp' /\ tp_transactionSets tp' = tp_transactionSets tp /\
  (c = CallUpdate -> dom (tp_subscriberSets tp') = dom (tp_transactionSets tp)).
Proof.
  intros Hids Hsync Hnew Hrun. destruct c as [|s|s]; cbn [run_subscription] in Hrun.
  - inv_run. split_and!; [by apply update_in_sync|done|]. intros _. apply set_eq. intros id.
    rewrite !elem_of_dom, update_lookup. destruct (tp_transactionSets tp !! id); [|done].
    split; [eauto|]. intros _. destruct (tp_subscriberSets tp !! id); eauto.
  - destruct (Hnew s eq_refl) as [Hs Hsent]. split_and!; [by eapply subscribe_in_sync| |done].
    unfold TransactionPoolSubscribe in Hrun. by inv_run.
  - inv_run. destruct Hsync as [Honce Hnames Hviews]. split_and!; [|done|done].
    split; cbn; [|done|].
    + eapply sublist_NoDup; [done|apply remove_first_sublist].
    + intros x Hx. apply Hviews. eapply elem_of_submseteq; [done|].
      apply sublist_submseteq, remove_first_sublist.
Qed.
End subscribers.
