(* ===== verification/TransactionPoolConsensus.v ===== *)
(** * The transaction pool over the consensus set

    The consensus set keeps what the pool relies on: the diffs that trying a
    transaction set gives are those of the set's objects.  With that, what
    holds of the pool for any such function holds for the one the consensus set
    passes. *)

From S2P Require Import Prelude Bytes Interfaces Currency Types Params Encoding Transactions.
From S2P Require Import ConsensusDB ApplyTransaction ConsensusValid MinimumSet.
From S2P Require Import ConsensusSubscribe TransactionPool TransactionPoolFacts.

Open Scope Z_scope.

Section cover.
Context {B : Build} {P : Params} {C : Crypto} {E : SiaEncoding}.

(** The objects a processed block has diffs for. *)
Definition pb_objects (pb : processedBlock) : gset Hash :=
  list_to_set ((scod_ID <$> pb_SiacoinOutputDiffs pb) ++ (fcd_ID <$> pb_FileContractDiffs pb) ++
               (sfod_ID <$> pb_SiafundOutputDiffs pb)).

(** A computation that adds diffs for the objects [l]. *)
Definition adds {A} (m : M blockState A) (l : list Hash) : Prop := forall s a s',
  m s = Ret a s' -> pb_objects (bs_pb s') = pb_objects (bs_pb s) ∪ list_to_set l.

Lemma adds_ret {A} (a : A) : adds (mret a) [].
Proof. intros s ? s' [= _ <-]. set_solver +. Qed.

Lemma adds_bind {A A'} (m : M blockState A) (f : A -> M blockState A') l1 l2 :
  adds m l1 -> (forall a, adds (f a) l2) -> adds (m ≫= f) (l1 ++ l2).
Proof.
  intros H1 H2 s a s' (a1 & s1 & R1 & R2)%bind_Ret.
  rewrite (H2 _ _ _ _ R2), (H1 _ _ _ R1), list_to_set_app_L. set_solver +.
Qed.

(** A step in front that adds nothing. *)
Lemma adds_skip {A A'} (m : M blockState A) (f : A -> M blockState A') l :
  adds m [] -> (forall a, adds (f a) l) -> adds (m ≫= f) l.
Proof. apply adds_bind. Qed.

Lemma adds_on_db {A} (m : M DB A) : adds (on_db m) [].
Proof.
  intros s a s'. unfold on_db. destruct (m (bs_db s)); intros [= _ <-]. set_solver +.
Qed.

Lemma adds_get : adds get [].
Proof. intros s a s' [= _ <-]. set_solver +. Qed.

Lemma adds_panic_if b msg : adds (panic_if b msg) [].
Proof. intros s a s' [_ ->]%panic_if_Ret. set_solver +. Qed.

Lemma adds_get_or_zero {A} (m : M DB (option A)) zero : adds (get_or_zero m zero) [].
Proof.
  apply adds_skip; [apply adds_on_db|]. intros [x|]; [apply adds_ret|].
  apply adds_skip; [apply adds_panic_if|]. intros _. apply adds_ret.
Qed.

(** Recording a diff adds its object, if the pool keeps objects of that
    kind. *)
Lemma adds_modify_pb f l :
  (forall pb, pb_objects (f pb) = pb_objects pb ∪ list_to_set l) -> adds (modify_pb f) l.
Proof. intros Hf s a s' [= _ <-]. apply Hf. Qed.

Lemma adds_record (f : processedBlock -> processedBlock) (m : M DB ()) l :
  (forall pb, pb_objects (f pb) = pb_objects pb ∪ list_to_set l) ->
  adds (_ ← modify_pb f; on_db m) l.
Proof.
  intros Hf. rewrite <- (app_nil_r l).
  apply adds_bind; [by apply adds_modify_pb|]. intros _. apply adds_on_db.
Qed.

Lemma adds_scod d : adds (record_scod d) [scod_ID d].
Proof.
  apply adds_record. intros pb. unfold pb_objects, append_scod.
  cbn [pb_SiacoinOutputDiffs pb_FileContractDiffs pb_SiafundOutputDiffs].
  rewrite fmap_app, !list_to_set_app_L. set_solver +.
Qed.

Lemma adds_fcd d : adds (record_fcd d) [fcd_ID d].
Proof.
  apply adds_record. intros pb. unfold pb_objects, append_fcd.
  cbn [pb_SiacoinOutputDiffs pb_FileContractDiffs pb_SiafundOutputDiffs].
  rewrite fmap_app, !list_to_set_app_L. set_solver +.
Qed.

Lemma adds_sfod d : adds (record_sfod d) [sfod_ID d].
Proof.
  apply adds_record. intros pb. unfold pb_objects, append_sfod.
  cbn [pb_SiacoinOutputDiffs pb_FileContractDiffs pb_SiafundOutputDiffs].
  rewrite fmap_app, !list_to_set_app_L. set_solver +.
Qed.

Lemma adds_dscod d : adds (record_dscod d) [].
Proof. apply adds_record. intros pb. unfold pb_objects, append_dscod. set_solver +. Qed.

Lemma adds_sfpd d : adds (record_sfpd d) [].
Proof. apply adds_record. intros pb. unfold pb_objects, append_sfpd. set_solver +. Qed.

Lemma adds_for_each {A} (body : A -> M blockState ()) (F : A -> list Hash) l :
  (forall x, adds (body x) (F x)) -> adds (for_each body l) (l ≫= F).
Proof.
  intros Hbody. induction l as [|x l IH]; [apply adds_ret|].
  cbn [for_each mbind list_bind]. apply adds_bind; [apply Hbody|]. intros _. apply IH.
Qed.

Lemma adds_for_index {A} (body : Z -> A -> M blockState ()) (F : Z -> list Hash) l :
  (forall i x, adds (body i x) (F i)) ->
  adds (for_index body l) (concat (imap (fun i _ => F (Z.of_nat i)) l)).
Proof.
  intros Hbody. unfold for_index.
  enough (Hgen : forall k, adds (for_fold (fun i x _ => body i x) (Z.of_nat k) l ())
            (concat (imap (fun i _ => F (Z.of_nat (k + i))) l))) by apply (Hgen 0%nat).
  induction l as [|x l IH]; intros k; [apply adds_ret|].
  cbn [for_fold imap concat]. rewrite Nat.add_0_r. apply adds_bind; [apply Hbody|].
  intros []. replace (Z.of_nat k + 1) with (Z.of_nat (S k)) by lia.
  rewrite (imap_ext _ (fun i _ => F (Z.of_nat (S k + i)))) by (intros i y _; cbn; do 2 f_equal; lia).
  apply IH.
Qed.

(** ** The objects of a transaction *)

Lemma adds_eq {A} (m : M blockState A) l l' :
  adds m l' -> (list_to_set l' : gset Hash) = list_to_set l -> adds m l.
Proof. intros Hm Hl s a s' Hs. by rewrite (Hm _ _ _ Hs), Hl. Qed.

Lemma concat_singletons {A} (f : nat -> A) {A'} (l : list A') :
  concat (imap (fun i _ => [f i]) l) = imap (fun i _ => f i) l.
Proof.
  revert f. induction l as [|x l IH]; intros f; [done|]. cbn [imap concat app].
  f_equal. apply (IH (fun i => f (S i))).
Qed.

Lemma bind_singletons {A A'} (f : A -> A') (l : list A) : l ≫= (fun x => [f x]) = f <$> l.
Proof. induction l as [|x l IH]; [done|]. cbn [mbind list_bind fmap list_fmap app]. by f_equal. Qed.

Lemma adds_applySiacoinInputs t :
  adds (applySiacoinInputs t) (sci_ParentID <$> t_SiacoinInputs t).
Proof.
  rewrite <- bind_singletons. apply adds_for_each. intros sci.
  apply adds_skip; [apply adds_get_or_zero|]. intros sco. apply adds_scod.
Qed.

Lemma adds_applySiacoinOutputs t :
  adds (applySiacoinOutputs t)
    (imap (fun j _ => Transaction_SiacoinOutputID t (Z.of_nat j)) (t_SiacoinOutputs t)).
Proof.
  rewrite <- concat_singletons.
  apply (adds_for_index _ (fun i => [Transaction_SiacoinOutputID t i])). intros i sco. apply adds_scod.
Qed.

Lemma adds_applyFileContracts t :
  adds (applyFileContracts t)
    (imap (fun j _ => Transaction_FileContractID t (Z.of_nat j)) (t_FileContracts t)).
Proof.
  rewrite <- concat_singletons.
  apply (adds_for_index _ (fun i => [Transaction_FileContractID t i])). intros i fc.
  apply (adds_bind _ _ [_] []); [apply adds_fcd|]. intros _.
  apply adds_skip; [apply adds_on_db|]. intros sfp.
  apply adds_skip; [apply adds_on_db|]. intros height. apply adds_sfpd.
Qed.

Lemma adds_applyFileContractRevisions t :
  adds (applyFileContractRevisions t) (fcr_ParentID <$> t_FileContractRevisions t).
Proof.
  rewrite <- bind_singletons. apply adds_for_each. intros fcr.
  apply adds_skip; [apply adds_get_or_zero|]. intros fc.
  eapply adds_eq; [apply adds_bind; [apply adds_fcd|intros _; apply adds_fcd]|].
  cbn [fcd_ID]. set_solver +.
Qed.

Lemma adds_dscods {A} (body : Z -> A -> M blockState ()) l :
  (forall i x, adds (body i x) []) -> adds (for_index body l) [].
Proof.
  intros Hbody. eapply adds_eq; [by apply (adds_for_index _ (fun _ => []))|].
  induction l using rev_ind; [done|]. rewrite imap_app, concat_app, list_to_set_app_L, IHl. done.
Qed.

Lemma adds_applyStorageProofs t :
  adds (applyStorageProofs t) (sp_ParentID <$> t_StorageProofs t).
Proof.
  rewrite <- bind_singletons. apply adds_for_each. intros sp.
  apply adds_skip; [apply adds_get_or_zero|]. intros fc.
  apply adds_skip; [|intros _; apply adds_fcd].
  apply adds_dscods. intros i vpo. apply adds_skip; [apply adds_get|]. intros s. apply adds_dscod.
Qed.

Lemma adds_applySiafundInputs t :
  adds (applySiafundInputs t) (sfi_ParentID <$> t_SiafundInputs t).
Proof.
  rewrite <- bind_singletons. apply adds_for_each. intros sfi.
  apply adds_skip; [apply adds_get_or_zero|]. intros sfo.
  apply adds_skip; [apply adds_on_db|]. intros claim.
  apply adds_skip; [apply adds_get|]. intros s.
  apply adds_skip; [apply adds_dscod|]. intros _. apply adds_sfod.
Qed.

Lemma adds_applySiafundOutputs t :
  adds (applySiafundOutputs t)
    (imap (fun j _ => Transaction_SiafundOutputID t (Z.of_nat j)) (t_SiafundOutputs t)).
Proof.
  rewrite <- concat_singletons.
  apply (adds_for_index _ (fun i => [Transaction_SiafundOutputID t i])). intros i sfo.
  apply adds_skip; [apply adds_on_db|]. intros pool. apply adds_sfod.
Qed.

Lemma adds_applyTransaction t : adds (applyTransaction t) (txn_objects t).
Proof.
  eapply adds_eq.
  { apply adds_bind; [apply adds_applySiacoinInputs|]. intros _.
    apply adds_bind; [apply adds_applySiacoinOutputs|]. intros _.
    apply adds_bind; [apply adds_applyFileContracts|]. intros _.
    apply adds_bind; [apply adds_applyFileContractRevisions|]. intros _.
    apply adds_bind; [apply adds_applyStorageProofs|]. intros _.
    apply adds_bind; [apply adds_applySiafundInputs|]. intros _.
    apply adds_applySiafundOutputs. }
  unfold txn_objects, input_ids, output_ids. rewrite !list_to_set_app_L. set_solver +.
Qed.

(** What the consensus set promises to the pool. *)
Lemma consensus_diffs_cover d : diffs_cover (consensus_txnFn d).
Proof.
  intros ts cc. unfold consensus_txnFn, tryTransactionSet.
  destruct (for_each _ ts _) as [[] s|e s|msg] eqn:Hrun; [|done..]. intros [= <-].
  apply (adds_for_each _ txn_objects) in Hrun.
  2: { intros t. apply adds_skip; [apply adds_on_db|]. intros _. apply adds_applyTransaction. }
  cbn [bs_pb diffHolder pb_objects] in Hrun.
  transitivity (pb_objects (bs_pb s)); [done|]. rewrite Hrun. unfold related. set_solver +.
Qed.
End cover.

(** ** Accepting a set against the consensus set *)

(** No two of the transactions share an ID and name different objects. *)
Definition ids_name_objects `{Crypto, SiaEncoding} (U : list Transaction) : Prop :=
  forall t t', t ∈ U -> t' ∈ U -> Transaction_ID t = Transaction_ID t' ->
    txn_objects t = txn_objects t'.

Section accept.
Context {B : Build} {P : Params} {C : Crypto} {E : SiaEncoding}.
Context (range : nat -> list Hash -> list Hash).

(** C33. Accepting a transaction set keeps the pool's invariant with respect to
    the consensus state it is tried against: every set of the pool is valid
    and standard, no two share an object, none has a confirmed transaction,
    and the object index, the diffs, the heights and the size agree with the
    sets.  An accepted set takes the place of exactly the sets it shares
    objects with, whose transactions go in front of its new ones; an error
    leaves the pool as it was.  The recursion of handleConflicts ends. *)
Theorem acceptTransactionSet_spec d U tp ts :
  (forall n l, range n l ≡ₚ l) -> ids_name_objects U -> (forall t, t ∈ ts -> t ∈ U) ->
  pool_ok (fun t => t ∈ U) (consensus_txnFn d) tp ->
  match acceptTransactionSet range ts (consensus_txnFn d) tp with
  | Ret superset tp' =>
      pool_ok (fun t => t ∈ U) (consensus_txnFn d) tp' /\
      exists merged new, accepted range tp ts superset tp' merged new
  | Err _ tp' => tp' = tp
  | Panic msg => exists ts', consensus_txnFn d ts' = Panic msg
  end.
Proof.
  intros Hrange HU Hts Hok.
  apply (acceptTransactionSet_outcome range Hrange _ HU _ (consensus_diffs_cover d) _ _ Hok Hts).
Qed.
End accept.
