(* ===== verification/TransactionPoolFollow.v ===== *)
(** * The transaction pool follows the blockchain

    What the handler of a consensus change does to the pool: the confirmed
    transactions, the height, the fee median and the recent block follow the
    reverted and the applied blocks, and the pool is filled again with the
    transactions that are left, against the new state of the consensus set. *)

From S2P Require Import Prelude Bytes Interfaces Currency Types Params Encoding Transactions.
From S2P Require Import ConsensusDB ApplyTransaction ConsensusValid MinimumSet ConsensusSubscribe TransactionPool.
From S2P Require Import TransactionPoolUpdate FindSets TransactionPoolFacts TransactionPoolConsensus.

Open Scope Z_scope.

Section follow.
Context {B : Build} {P : Params} {PP : PoolParams} {C : Crypto} {E : SiaEncoding}.
Context (range : nat -> list Hash -> list Hash) (Hrange : forall n l, range n l ≡ₚ l).
Context (range_int : list nat -> list nat) (Hrange_int : forall l, range_int l ≡ₚ l).

(** ** A fee is found for every block *)

Lemma quarter_fee_Some progress fees :
  fees <> [] -> i64 (fold_left (fun n f => i64 (n + fs_size f)) fees progress) = BlockSizeLimit ->
  is_Some (quarter_fee progress fees).
Proof.
  revert progress. induction fees as [|f fees IH]; intros progress Hne Hsum; [done|].
  cbn [quarter_fee fold_left] in *. destruct (_ <? u64 _) eqn:Hq; [eauto|].
  destruct fees as [|f' fees]; [|by apply IH].
  cbn [fold_left] in Hsum. rewrite i64_i64 in Hsum. by rewrite Hsum in Hq.
Qed.

Lemma fold_sizes_Permutation l1 l2 n :
  l1 ≡ₚ l2 ->
  i64 (fold_left (fun n f => i64 (n + fs_size f)) l1 n) =
  i64 (fold_left (fun n f => i64 (n + fs_size f)) l2 n).
Proof.
  intros Hp. revert n.
  assert (Hsum : forall l n, i64 (fold_left (fun n f => i64 (n + fs_size f)) l n) =
                             i64 (n + foldr Z.add 0 (fs_size <$> l))).
  { induction l as [|f l IH]; intros n; cbn [fold_left fmap list_fmap foldr]; [by rewrite Z.add_0_r|].
    rewrite IH, i64_add_l. f_equal. lia. }
  intros n. rewrite !Hsum. do 2 f_equal.
  induction Hp as [|x l1 l2 _ IH|x y l|l1 l2 l3 _ IH1 _ IH2]; cbn [fmap list_fmap foldr]; lia.
Qed.

Lemma block_fee_Some sets : is_Some (block_fee sets).
Proof.
  unfold block_fee. set (fees := set_summary <$> sets).
  set (total := fold_left (fun n f => i64 (n + fs_size f)) fees 0).
  apply quarter_fee_Some.
  - intros Hnil. pose proof (merge_sort_Permutation fee_le
      (fees ++ [mkFeeSummary Currency.ZeroCurrency (i64 (BlockSizeLimit - total))])) as Hp.
    rewrite Hnil in Hp. apply Permutation_nil in Hp. by apply app_eq_nil in Hp as [_ ?].
  - rewrite (fold_sizes_Permutation _ _ _ (merge_sort_Permutation fee_le _)).
    rewrite fold_left_app. fold total. cbn [fold_left fs_size].
    by rewrite i64_i64, Z.add_comm, i64_add_l, Z.sub_add.
Qed.

(** ** The fee window *)

Definition drop_last {A} (n : nat) (l : list A) : list A := take (length l - n) l.
Definition keep_last {A} (n : nat) (l : list A) : list A := drop (length l - n) l.

Lemma drop_last_0 {A} (l : list A) : drop_last 0 l = l.
Proof. unfold drop_last. by rewrite Nat.sub_0_r, firstn_all. Qed.
Lemma drop_last_add {A} n (l : list A) : drop_last n (drop_last 1 l) = drop_last (S n) l.
Proof. unfold drop_last. rewrite take_take, length_take. f_equal. lia. Qed.
Lemma keep_last_app {A} n (l l' : list A) : keep_last n (keep_last n l ++ l') = keep_last n (l ++ l').
Proof.
  unfold keep_last. rewrite !length_app, length_drop.
  replace (drop (length l - n) l ++ l') with (drop (length l - n) (l ++ l')) by (apply drop_app_le; lia).
  rewrite drop_drop. f_equal. lia.
Qed.

(** ** The fee of a block *)

Definition set_bytes (set : list Transaction) : Z := Zsum (txn_size <$> set).

(** How a block of the sets [sets] is shared out: each set at the average of its
    fees over its size, and what is left of the block for free. *)
Definition block_space (sets : list (list Transaction)) : list (Currency * Z) :=
  ((fun set => ((set_fees set / Z.to_N (set_bytes set))%N, set_bytes set)) <$> sets) ++
  [(0%N, BlockSizeLimit - Zsum (set_bytes <$> sets))].
Definition space_where (p : Currency -> bool) (space : list (Currency * Z)) : Z :=
  Zsum (snd <$> filter (fun x => p x.1 = true) space).

(** [fee] is the price a quarter into the block: the cheaper part takes at most
    a quarter of it, and with what costs as much it takes more. *)
Definition quarter_price (space : list (Currency * Z)) (fee : Currency) : Prop :=
  space_where (fun x => x <? fee)%N space <= BlockSizeLimit / 4 <
  space_where (fun x => x <=? fee)%N space.

(** The fee the pool takes for a block, whose transactions are not larger than
    a block. *)
Definition fee_of (b : Block) (fee : Currency) : Prop := exists sets,
  findSets range_int (b_Transactions b) = Some sets /\ concat sets ≡ₚ b_Transactions b /\
  (Zsum (txn_size <$> b_Transactions b) <= BlockSizeLimit -> quarter_price (block_space sets) fee).

Lemma sets_bytes sets : Zsum (set_bytes <$> sets) = Zsum (txn_size <$> concat sets).
Proof.
  induction sets as [|set sets IH]; [done|]. cbn [concat]. rewrite fmap_app, Zsum_app, <- IH. done.
Qed.
Lemma set_bytes_nonneg set : 0 <= set_bytes set.
Proof. apply Zsum_nonneg, Forall_fmap, Forall_forall. intros t _. cbn. unfold txn_size, zlen. lia. Qed.

Lemma quarter_fee_split l : forall progress fee,
  Forall (fun f => 0 <= fs_size f) l -> 0 <= progress <= BlockSizeLimit / 4 ->
  progress + Zsum (fs_size <$> l) < 2 ^ 63 -> quarter_fee progress l = Some fee ->
  exists l1 x l2, l = l1 ++ x :: l2 /\ fs_fee x = fee /\
    progress + Zsum (fs_size <$> l1) <= BlockSizeLimit / 4 < progress + Zsum (fs_size <$> l1) + fs_size x.
Proof.
  induction l as [|x l IH]; intros progress fee Hl Hp Hs; cbn [quarter_fee]; [done|].
  inversion Hl as [|? ? Hx Hl']; subst. rewrite fmap_cons, Zsum_cons in Hs.
  assert (0 <= Zsum (fs_size <$> l)) by (apply Zsum_nonneg; by apply Forall_fmap).
  rewrite i64_small by lia. rewrite u64_small by (unfold is_u64; lia).
  destruct (Z.ltb_spec (BlockSizeLimit / 4) (progress + fs_size x)).
  - intros [= <-]. exists [], x, l. cbn [fmap list_fmap Zsum foldr]. split_and!; try done; lia.
  - intros Hq. destruct (IH (progress + fs_size x) fee) as (l1 & y & l2 & -> & Hy & H1); [done|lia..|done|].
    exists (x :: l1), y, l2. rewrite fmap_cons, Zsum_cons. split_and!; try done; lia.
Qed.

Abbreviation as_space := (fmap (fun f => (fs_fee f, fs_size f))).

Lemma space_where_Permutation p l1 l2 : l1 ≡ₚ l2 -> space_where p l1 = space_where p l2.
Proof. intros Hp. apply Zsum_Permutation. by rewrite Hp. Qed.
Lemma space_where_app p l1 l2 : space_where p (l1 ++ l2) = space_where p l1 + space_where p l2.
Proof. unfold space_where. by rewrite filter_app, fmap_app, Zsum_app. Qed.
Lemma space_where_cons p x l : space_where p (as_space (x :: l)) =
  (if p (fs_fee x) then fs_size x else 0) + space_where p (as_space l).
Proof.
  unfold space_where. rewrite fmap_cons, filter_cons. destruct (p (fs_fee x)) eqn:Hp;
    [rewrite decide_True by done|rewrite decide_False by (cbn; congruence)]; [|lia].
  by rewrite fmap_cons, Zsum_cons.
Qed.
Lemma space_where_bounds p l : Forall (fun f => 0 <= fs_size f) l ->
  0 <= space_where p (as_space l) <= Zsum (fs_size <$> l).
Proof.
  induction 1 as [|x l Hx Hl IH]; [done|]. rewrite space_where_cons, fmap_cons, Zsum_cons.
  destruct (p (fs_fee x)); lia.
Qed.
Lemma space_where_none p l : Forall (fun f => p (fs_fee f) = false) l -> space_where p (as_space l) = 0.
Proof. induction 1 as [|x l Hx Hl IH]; [done|]. rewrite space_where_cons, Hx. lia. Qed.
Lemma space_where_all p l : Forall (fun f => p (fs_fee f) = true) l ->
  space_where p (as_space l) = Zsum (fs_size <$> l).
Proof. induction 1 as [|x l Hx Hl IH]; [done|]. rewrite space_where_cons, fmap_cons, Zsum_cons, Hx. lia. Qed.

Lemma quarter_fee_price l fee : StronglySorted fee_le l -> Forall (fun f => 0 <= fs_size f) l ->
  Zsum (fs_size <$> l) < 2 ^ 63 -> quarter_fee 0 l = Some fee -> quarter_price (as_space l) fee.
Proof.
  intros Hsort Hl Hs Hq. destruct (quarter_fee_split l 0 fee) as (l1 & x & l2 & -> & <- & H1);
    [done|by split|lia|done|].
  apply Forall_app in Hl as [Hl1 Hl2]. apply Forall_cons in Hl2 as [Hx Hl2].
  assert (Hbefore : Forall (fun f => fee_le f x) l1).
  { clear -Hsort. induction l1 as [|y l1 IH]; [constructor|]. apply StronglySorted_inv in Hsort as [Hs Hall].
    constructor; [|by apply IH]. rewrite Forall_forall in Hall. apply Hall, elem_of_app. right. by left. }
  assert (Hafter : Forall (fun f => fee_le x f) l2).
  { clear -Hsort. induction l1 as [|y l1 IH]; apply StronglySorted_inv in Hsort as [Hs Hall]; [done|by apply IH]. }
  unfold quarter_price. rewrite !fmap_app, !space_where_app, !space_where_cons, N.ltb_irrefl, N.leb_refl.
  rewrite (space_where_none (fun y => y <? fs_fee x)%N l2), (space_where_all (fun y => y <=? fs_fee x)%N l1) by
    (eapply Forall_impl; [done|]; intros f Hf; (by apply N.ltb_ge) || (by apply N.leb_le)).
  pose proof (space_where_bounds (fun y => y <? fs_fee x)%N l1 Hl1).
  pose proof (space_where_bounds (fun y => y <=? fs_fee x)%N l2 Hl2). lia.
Qed.

Lemma sets_bytes_nonneg sets : Forall (fun x => 0 <= x) (set_bytes <$> sets).
Proof. apply Forall_fmap, Forall_forall. intros S _. apply set_bytes_nonneg. Qed.

Lemma summaries_run sets : Zsum (set_bytes <$> sets) <= BlockSizeLimit ->
  set_summary <$> sets = (fun S => mkFeeSummary (set_fees S / Z.to_N (set_bytes S)) (set_bytes S)) <$> sets.
Proof.
  intros Hsmall. apply list_fmap_ext. intros i S HS%list_elem_of_lookup_2.
  pose proof (set_bytes_nonneg S). assert (BlockSizeLimit < 2 ^ 63) by done.
  assert (set_bytes S <= Zsum (set_bytes <$> sets)).
  { apply Zsum_elem; [apply sets_bytes_nonneg|]. by apply list_elem_of_fmap_2. }
  unfold set_summary. rewrite (fold_i64 txn_size S 0);
    [|apply Forall_forall; intros t _; unfold txn_size, zlen; lia|lia|fold (set_bytes S); lia].
  rewrite Z.add_0_l. fold (set_bytes S). by rewrite u64_small by (unfold is_u64; lia).
Qed.

Lemma block_fee_price sets fee : Zsum (set_bytes <$> sets) <= BlockSizeLimit ->
  block_fee sets = Some fee -> quarter_price (block_space sets) fee.
Proof.
  intros Hsmall. assert (Hlim : BlockSizeLimit < 2 ^ 63) by done.
  pose proof (sets_bytes_nonneg sets) as Hpos. pose proof (Zsum_nonneg _ Hpos) as Htotal.
  unfold block_fee. rewrite summaries_run by done. set (fees := _ <$> sets).
  assert (Hsz : fs_size <$> fees = set_bytes <$> sets) by (unfold fees; by rewrite <- list_fmap_compose).
  assert (Hposf : Forall (fun f => 0 <= fs_size f) fees) by (rewrite <- Hsz, Forall_fmap in Hpos; exact Hpos).
  rewrite (fold_i64 fs_size fees 0), Hsz, Z.add_0_l by (done || rewrite ?Hsz; lia).
  rewrite i64_small by lia. set (free := mkFeeSummary _ _). intros Hfee.
  pose proof (merge_sort_Permutation fee_le (fees ++ [free])) as Hp.
  assert (Heq : as_space (merge_sort fee_le (fees ++ [free])) ≡ₚ block_space sets).
  { rewrite Hp, fmap_app. unfold fees. by rewrite <- list_fmap_compose. }
  unfold quarter_price. rewrite <- !(space_where_Permutation _ _ _ Heq). apply quarter_fee_price; [|rewrite Hp| |done].
  - apply StronglySorted_merge_sort; unfold fee_le; [intros ???; lia|intros ??; lia].
  - apply Forall_app. split; [done|]. repeat constructor. cbn. lia.
  - rewrite (Zsum_Permutation _ (fs_size <$> fees ++ [free])) by (by rewrite Hp).
    rewrite fmap_app, Zsum_app, Hsz. cbn. lia.
Qed.

Lemma block_fee_of b : exists sets fee, findSets range_int (b_Transactions b) = Some sets /\
  block_fee sets = Some fee /\ fee_of b fee.
Proof.
  destruct (findSets_partition range_int Hrange_int (b_Transactions b)) as (sets & Hsets & Hperm).
  destruct (block_fee_Some sets) as [fee Hfee]. exists sets, fee. split_and!; [done..|]. exists sets.
  split_and!; try done.
  intros Hsmall. apply block_fee_price; [|done]. rewrite sets_bytes.
  by rewrite (Zsum_Permutation _ (txn_size <$> b_Transactions b)) by (by rewrite Hperm).
Qed.

(** ** The blocks *)

(** The part of the pool that following blocks leaves alone. *)
Definition unconfirmed_part (tp : TransactionPool) :=
  (tp_knownObjects tp, tp_subscriberSets tp, tp_transactionHeights tp, tp_transactionSets tp,
   tp_transactionSetDiffs tp, tp_transactionListSize tp, tp_subscribers tp, tp_sent tp).

Abbreviation confirmed tp := (pd_ConfirmedTransactions (tp_db tp)).

Lemma delete_txns_confirmed txns tp :
  let tp' := fold_left (fun tp txn => deleteTransaction (Transaction_ID txn) tp) txns tp in
  tp' = with_db (with_confirmed (confirmed tp ∖ list_to_set (Transaction_ID <$> txns)) (tp_db tp)) tp.
Proof.
  revert tp. induction txns as [|t txns IH]; intros tp; cbn [fold_left].
  - destruct tp as [? ? ? ? ? ? ? ? ? ? ? []]. unfold with_db, with_confirmed, with_chain. cbn.
    f_equal. f_equal. set_solver +.
  - rewrite IH. unfold deleteTransaction, with_db, with_confirmed, with_chain. cbn. f_equal. f_equal. set_solver +.
Qed.

Lemma put_txns_confirmed txns tp :
  let tp' := fold_left (fun tp txn => putTransaction (Transaction_ID txn) tp) txns tp in
  tp' = with_db (with_confirmed (list_to_set (Transaction_ID <$> txns) ∪ confirmed tp) (tp_db tp)) tp.
Proof.
  revert tp. induction txns as [|t txns IH]; intros tp; cbn [fold_left].
  - destruct tp as [? ? ? ? ? ? ? ? ? ? ? []]. unfold with_db, with_confirmed, with_chain. cbn.
    f_equal. f_equal. set_solver +.
  - rewrite IH. unfold putTransaction, with_db, with_confirmed, with_chain. cbn. f_equal. f_equal. set_solver +.
Qed.

Lemma revert_block_run reset b recent tp :
  reset = true \/ Block_ID b = recent ->
  exists tp', revert_block reset b recent tp = Ret (b_ParentID b) tp' /\
    unconfirmed_part tp' = unconfirmed_part tp /\
    confirmed tp' = confirmed tp ∖ block_txids [b] /\
    tp_blockHeight tp' = step_height (-1) (Block_ID b) (tp_blockHeight tp) /\
    tp_recentMedians tp' = drop_last 1 (tp_recentMedians tp).
Proof.
  intros Hr. unfold revert_block, panic_if, modify, mbind, M_bind, mret, M_ret.
  assert (bool_decide (Block_ID b <> recent) && negb reset = false) as ->.
  { destruct Hr as [-> | ->]; [by rewrite andb_false_r|]. by rewrite bool_decide_false by naive_solver. }
  cbv beta iota. rewrite delete_txns_confirmed.
  eexists. split; [done|]. unfold with_db, with_chain, with_confirmed. cbn.
  split_and!; [done| |done|done].
  unfold block_txids. cbn [mbind list_bind]. by rewrite app_nil_r.
Qed.

Lemma apply_block_run reset b recent tp :
  reset = true \/ b_ParentID b = recent ->
  exists tp', apply_block range_int reset b recent tp = Ret (Block_ID b) tp' /\
    unconfirmed_part tp' = unconfirmed_part tp /\
    confirmed tp' = block_txids [b] ∪ confirmed tp /\
    tp_blockHeight tp' = step_height 1 (Block_ID b) (tp_blockHeight tp) /\
    exists fee, fee_of b fee /\
      tp_recentMedians tp' = keep_last blockFeeEstimationDepth (tp_recentMedians tp ++ [fee]).
Proof.
  intros Hr. unfold apply_block, panic_if, modify, or_panic_fuel, mbind, M_bind, mret, M_ret.
  destruct (block_fee_of b) as (sets & fee & -> & Hfee & Hof).
  assert (bool_decide (b_ParentID b <> recent) && negb reset = false) as ->.
  { destruct Hr as [-> | ->]; [by rewrite andb_false_r|]. by rewrite bool_decide_false by naive_solver. }
  cbv beta iota. rewrite put_txns_confirmed.
  eexists. split; [done|]. cbv zeta. rewrite Hfee. unfold with_db, with_chain, with_confirmed. cbn [tp_knownObjects
    tp_subscriberSets tp_transactionHeights tp_transactionSets tp_transactionSetDiffs
    tp_transactionListSize tp_subscribers tp_sent tp_db tp_blockHeight tp_recentMedians
    pd_ConfirmedTransactions unconfirmed_part option_list].
  change (option_list (Some fee)) with [fee].
  split_and!; [done| |done|by exists fee].
  unfold block_txids. cbn [mbind list_bind]. by rewrite app_nil_r.
Qed.

(** The blocks are the ones that lead from the recent block to [last]. *)
Fixpoint reverts_to (recent mid : BlockID) (bs : list Block) : Prop :=
  match bs with
  | [] => mid = recent
  | b :: bs => Block_ID b = recent /\ reverts_to (b_ParentID b) mid bs
  end.
Fixpoint applies_to (mid last : BlockID) (bs : list Block) : Prop :=
  match bs with
  | [] => last = mid
  | b :: bs => b_ParentID b = mid /\ applies_to (Block_ID b) last bs
  end.

(** A consensus change that fits the block the pool is at; a pool without a
    recent block takes any. *)
Definition change_fits (db : poolDB) (cc : ConsensusChange) : Prop :=
  match getRecentBlockID db with
  | None => True
  | Some recent => exists mid last,
      reverts_to recent mid (cc_RevertedBlocks cc) /\ applies_to mid last (cc_AppliedBlocks cc)
  end.

Definition heights_along (delta : Z) (bs : list Block) (height : BlockHeight) : BlockHeight :=
  fold_left (fun h b => step_height delta (Block_ID b) h) bs height.

Lemma block_txids_cons b bs : block_txids (b :: bs) = block_txids [b] ∪ block_txids bs.
Proof.
  unfold block_txids. cbn [mbind list_bind]. by rewrite app_nil_r, fmap_app, list_to_set_app_L.
Qed.

Lemma revert_blocks_run reset bs recent i tp :
  (reset = true \/ exists mid, reverts_to recent mid bs) ->
  exists tp' mid, for_fold (fun _ => revert_block reset) i bs recent tp = Ret mid tp' /\
    (reset = true \/ reverts_to recent mid bs) /\
    unconfirmed_part tp' = unconfirmed_part tp /\
    confirmed tp' = confirmed tp ∖ block_txids bs /\
    tp_blockHeight tp' = heights_along (-1) bs (tp_blockHeight tp) /\
    tp_recentMedians tp' = drop_last (length bs) (tp_recentMedians tp).
Proof.
  revert recent i tp. induction bs as [|b bs IH]; intros recent i tp Hr.
  { exists tp, recent. split_and!; try done; [by right|unfold block_txids; set_solver +|by rewrite drop_last_0]. }
  destruct (revert_block_run reset b recent tp) as (tp1 & Hrun1 & U1 & C1 & H1 & L1).
  { destruct Hr as [->|(mid & -> & _)]; auto. }
  rewrite for_fold_cons, Hrun1.
  destruct (IH (b_ParentID b) (i + 1) tp1) as (tp' & mid & Hrun & Hm & U2 & C2 & H2 & L2).
  { destruct Hr as [->|(mid & _ & Hr)]; eauto. }
  exists tp', mid. split_and!; [done| |congruence| |by rewrite H2, H1|by rewrite L2, L1, drop_last_add].
  - destruct Hr as [->|(? & Hb & _)]; [by left|]. destruct Hm; [by left|right]. by split.
  - rewrite C2, C1, (block_txids_cons b bs). set_solver +.
Qed.

Lemma apply_blocks_run reset bs mid i tp :
  bs <> [] -> (reset = true \/ exists last, applies_to mid last bs) ->
  exists tp' b, for_fold (fun _ => apply_block range_int reset) i bs mid tp = Ret (Block_ID b) tp' /\
    last bs = Some b /\
    unconfirmed_part tp' = unconfirmed_part tp /\
    confirmed tp' = block_txids bs ∪ confirmed tp /\
    tp_blockHeight tp' = heights_along 1 bs (tp_blockHeight tp) /\
    exists fees, Forall2 fee_of bs fees /\
      tp_recentMedians tp' = keep_last blockFeeEstimationDepth (tp_recentMedians tp ++ fees).
Proof.
  revert mid i tp. induction bs as [|b bs IH]; intros mid i tp Hne Hr; [done|].
  destruct (apply_block_run reset b mid tp) as (tp1 & Hrun1 & U1 & C1 & H1 & fee & F1 & L1).
  { destruct Hr as [->|(last & -> & _)]; auto. }
  rewrite for_fold_cons, Hrun1. destruct (decide (bs = [])) as [->|Hbs].
  { exists tp1, b. split_and!; try done. exists [fee]. by repeat constructor. }
  destruct (IH (Block_ID b) (i + 1) tp1 Hbs) as (tp' & b' & Hrun & Hl & U2 & C2 & H2 & fees & F2 & L2).
  { destruct Hr as [->|(last & _ & Hr)]; eauto. }
  exists tp', b'. split_and!; [done| |congruence| |by rewrite H2, H1|].
  - destruct bs; [done|]. by rewrite last_cons_cons.
  - rewrite C2, C1, (block_txids_cons b bs). set_solver +.
  - exists (fee :: fees). split; [by constructor|]. by rewrite L2, L1, keep_last_app, <- app_assoc.
Qed.

(** The element in the middle. *)
Definition median_of (l : list Currency) (m : Currency) : Prop := exists sorted,
  sorted ≡ₚ l /\ StronglySorted N.le sorted /\ sorted !! (length l / 2)%nat = Some m.

Lemma update_median_fee_run tp :
  (1 <= length (tp_recentMedians tp))%nat ->
  exists fee, median_of (tp_recentMedians tp) fee /\
    update_median_fee tp = Ret () (with_chain (tp_blockHeight tp) (tp_recentMedians tp) fee (tp_db tp) tp).
Proof.
  intros Hlen. unfold update_median_fee, get, mbind, M_bind.
  destruct (lookup_lt_is_Some_2 (merge_sort N.le (tp_recentMedians tp))
    (length (merge_sort N.le (tp_recentMedians tp)) / 2)%nat) as [fee Hfee].
  { rewrite merge_sort_Permutation. apply Nat.Div0.div_lt_upper_bound; lia. }
  exists fee. rewrite Hfee. split; [|done]. exists (merge_sort N.le (tp_recentMedians tp)).
  rewrite (Permutation_length (merge_sort_Permutation N.le (tp_recentMedians tp))) in Hfee.
  split_and!; [apply merge_sort_Permutation| |done].
  apply StronglySorted_merge_sort; [intros ???; lia|intros ??; lia].
Qed.

Lemma store_progress_run cc id tp :
  exists tp', store_progress cc id tp = Ret () tp' /\
    unconfirmed_part tp' = unconfirmed_part tp /\ tp_blockHeight tp' = tp_blockHeight tp /\
    tp_recentMedians tp' = tp_recentMedians tp /\ tp_recentMedianFee tp' = tp_recentMedianFee tp /\
    tp_db tp' = mkPoolDB (confirmed tp) (Some cc) (Some id) (Some (tp_blockHeight tp))
                  (Some (mkMedianPersist (tp_recentMedians tp) (tp_recentMedianFee tp))).
Proof. eexists. split; [done|]. by destruct tp. Qed.

(** What the first half of the handler leaves. *)
Record followed (tp : TransactionPool) (cc : ConsensusChange) (tp' : TransactionPool) : Prop := {
  fl_part : unconfirmed_part tp' = unconfirmed_part tp;
  fl_confirmed : confirmed tp' =
    (confirmed tp ∖ block_txids (cc_RevertedBlocks cc)) ∪ block_txids (cc_AppliedBlocks cc);
  fl_height : tp_blockHeight tp' =
    heights_along 1 (cc_AppliedBlocks cc) (heights_along (-1) (cc_RevertedBlocks cc) (tp_blockHeight tp));
  fl_recent b : last (cc_AppliedBlocks cc) = Some b -> pd_RecentBlockID (tp_db tp') = Some (Block_ID b);
  fl_change : pd_RecentConsensusChange (tp_db tp') = Some (cc_ID cc);
  fl_stored : pd_BlockHeight (tp_db tp') = Some (tp_blockHeight tp') /\
    pd_FeeMedian (tp_db tp') = Some (mkMedianPersist (tp_recentMedians tp') (tp_recentMedianFee tp'));
  fl_medians : exists fees, Forall2 fee_of (cc_AppliedBlocks cc) fees /\
    tp_recentMedians tp' = keep_last blockFeeEstimationDepth
      (drop_last (length (cc_RevertedBlocks cc)) (tp_recentMedians tp) ++ fees);
  fl_median : median_of (tp_recentMedians tp') (tp_recentMedianFee tp')
}.

Lemma follow_blocks_run tp cc :
  change_fits (tp_db tp) cc -> cc_AppliedBlocks cc <> [] ->
  exists tp', follow_blocks range_int cc tp = Ret () tp' /\ followed tp cc tp'.
Proof.
  intros Hfit Hne. unfold follow_blocks, change_fits in *.
  set (reset := bool_decide (getRecentBlockID (tp_db tp) = None)).
  destruct (revert_blocks_run reset (cc_RevertedBlocks cc)
    (default zero_hash (getRecentBlockID (tp_db tp))) 0 tp) as (tp1 & mid & R1 & Hmid & U1 & C1 & H1 & L1).
  { destruct (getRecentBlockID (tp_db tp)); [right|by left].
    destruct Hfit as (mid & ? & Hmid & _). by exists mid. }
  destruct (apply_blocks_run reset (cc_AppliedBlocks cc) mid 0 tp1 Hne)
    as (tp2 & b & R2 & Hb & U2 & C2 & H2 & fees & F2 & L2).
  { destruct Hmid as [->|Hmid]; [by left|]. destruct (getRecentBlockID (tp_db tp)) as [recent|] eqn:Hr.
    - destruct Hfit as (mid' & last & Hm & Hl). right. exists last. cbn in Hmid.
      assert (mid = mid') as ->; [|done]. clear -Hmid Hm.
      revert recent Hmid Hm. induction (cc_RevertedBlocks cc) as [|b bs IH]; intros recent; cbn [reverts_to].
      + congruence.
      + intros [_ H1] [_ H2]. by eapply IH.
    - left. unfold reset. by rewrite bool_decide_true. }
  destruct (update_median_fee_run tp2) as (fee & Hmed & R3).
  { rewrite L2. apply Forall2_length in F2. destruct (cc_AppliedBlocks cc); [done|].
    unfold keep_last. rewrite length_drop, length_app, <- F2. cbn [length]. unfold blockFeeEstimationDepth. lia. }
  set (tp3 := with_chain (tp_blockHeight tp2) (tp_recentMedians tp2) fee (tp_db tp2) tp2) in *.
  destruct (store_progress_run (cc_ID cc) (Block_ID b) tp3) as (tp4 & R4 & U4 & H4 & M4 & F4 & D4).
  exists tp4. unfold get, mbind, M_bind. cbv beta iota. fold reset. rewrite R1, R2, R3, R4.
  split; [done|].
  split; rewrite ?D4, ?H4, ?M4, ?F4;
    cbn [pd_ConfirmedTransactions pd_RecentBlockID pd_RecentConsensusChange pd_BlockHeight pd_FeeMedian];
    unfold tp3, with_chain; cbn [tp_db tp_blockHeight tp_recentMedians]; try done.
  - by rewrite U4, <- U1, <- U2.
  - rewrite C2, C1. set_solver +.
  - by rewrite H2, H1.
  - intros b' Hb'. congruence.
  - exists fees. by rewrite L2, L1.
Qed.

(** ** Filling the pool again *)

Definition pooled (tp : TransactionPool) (t : Transaction) : Prop :=
  exists id ts, tp_transactionSets tp !! id = Some ts /\ t ∈ ts.

Section refill.
Context (U : Transaction -> Prop).
Context (HU : forall t t', U t -> U t' -> Transaction_ID t = Transaction_ID t' ->
  txn_objects t = txn_objects t').
Context (txnFn : txn_fn) (Hcover : diffs_cover txnFn).

Abbreviation ok := (pool_ok U txnFn).

(** A computation that keeps the invariant and what following the blocks
    stored, and panics only if trying a set does. *)
Definition refills (m : M TransactionPool ()) : Prop := forall tp, ok tp ->
  match m tp with
  | Ret _ tp' => ok tp' /\ chain_part tp' = chain_part tp
  | Err _ _ => False
  | Panic msg => exists ts, txnFn ts = Panic msg
  end.

Lemma refills_ret : refills (mret ()).
Proof. by intros tp. Qed.

Lemma refills_bind m (f : () -> M TransactionPool ()) :
  refills m -> (forall u, refills (f u)) -> refills (m ≫= f).
Proof.
  intros Hm Hf tp Hok. specialize (Hm tp Hok). unfold mbind, M_bind.
  destruct (m tp) as [[] tp1|e tp1|msg]; [|done..]. destruct Hm as [Hok1 Hch].
  specialize (Hf () tp1 Hok1). destruct (f () tp1) as [u tp2|e tp2|msg]; [|done..].
  destruct Hf. split; [done|congruence].
Qed.

Lemma refills_for_each {A} (body : A -> M TransactionPool ()) l :
  (forall x, x ∈ l -> refills (body x)) -> refills (for_each body l).
Proof.
  induction l as [|x l IH]; intros Hl; cbn [for_each]; [apply refills_ret|].
  apply refills_bind; [apply Hl; left|]. intros _. apply IH. intros y Hy. apply Hl. by right.
Qed.

Lemma refills_accept ts :
  (forall t, t ∈ ts -> U t) -> refills (ignore_err (acceptTransactionSet range ts txnFn)).
Proof.
  intros Hts tp Hok. unfold ignore_err.
  pose proof (acceptTransactionSet_outcome range Hrange U HU txnFn Hcover tp ts Hok Hts) as Ho.
  destruct (acceptTransactionSet range ts txnFn tp) as [superset tp'|e tp'|msg]; cbn [accept_outcome] in Ho.
  - destruct Ho as [Hok' (merged & new & Hacc)]. split; [done|by destruct Hacc].
  - by subst tp'.
  - done.
Qed.

Lemma pool_ok_heights m tp :
  (forall id, is_Some (tp_transactionHeights tp !! id) -> is_Some (m !! id)) ->
  ok tp -> ok (with_heights m tp).
Proof.
  intros Hm [P1 P2 P3 P4 P5]. split; try done. intros id ts Hid.
  destruct (P1 id ts Hid) as [S1 S2 S3 S4 S5]. split; try done.
  intros t Ht. destruct (S5 t Ht) as (? & ? & ?). cbn. auto.
Qed.

Lemma refills_set_height id h :
  refills (modify (fun tp => with_heights (<[id := h]> (tp_transactionHeights tp)) tp)).
Proof.
  intros tp Hok. split; [|done]. apply pool_ok_heights; [|done].
  intros id' Hs. apply lookup_insert_is_Some'. by right.
Qed.

Lemma refills_readd oldHeights t : U t -> refills (readd_txn range oldHeights txnFn t).
Proof.
  intros Ht. apply refills_bind; [|intros _; apply refills_set_height].
  apply refills_accept. by intros x ->%list_elem_of_singleton.
Qed.

(** The pool between purging and filling. *)
Definition emptied (tp : TransactionPool) : Prop :=
  tp_knownObjects tp = ∅ /\ tp_transactionSets tp = ∅ /\ tp_transactionSetDiffs tp = ∅ /\
  tp_transactionListSize tp = 0.

Lemma emptied_ok tp : emptied tp -> ok tp.
Proof.
  intros (K & S & D & Z). split; rewrite ?K, ?S, ?D, ?Z.
  - apply map_Forall_empty.
  - by rewrite !dom_empty_L.
  - intros oid id _. rewrite lookup_empty. split; [done|]. intros (ts & Hts & _).
    by rewrite lookup_empty in Hts.
  - intros id ts oid Hts. by rewrite lookup_empty in Hts.
  - by rewrite msum_empty.
Qed.

(** Every transaction of the pool has a height, so that none is reported. *)
Lemma all_old_run oldHeights tSet tp :
  (forall t, t ∈ tSet -> is_Some (oldHeights !! Transaction_ID t)) ->
  exists old, all_old oldHeights tSet tp = Ret old tp.
Proof.
  induction tSet as [|t tSet IH]; intros Hall; cbn [all_old]; [by exists true|].
  destruct (Hall t) as [h Hh]; [left|]. unfold get, mbind, M_bind. rewrite Hh.
  destruct (_ <? _); [by exists false|]. apply IH. intros x Hx. apply Hall. by right.
Qed.

Lemma prune_set_run oldHeights tSet tp :
  (forall t, t ∈ tSet -> is_Some (oldHeights !! Transaction_ID t)) -> emptied tp ->
  exists set tp', prune_set oldHeights tSet tp = Ret set tp' /\ emptied tp' /\
    chain_part tp' = chain_part tp /\ set ⊆ tSet.
Proof.
  intros Hall He. unfold prune_set. destruct (all_old_run oldHeights tSet tp Hall) as [old Hrun].
  unfold modify, mbind, M_bind, mret, M_ret. rewrite Hrun. destruct old.
  - eexists [], _. split; [done|]. split_and!; [done|done|apply list_subseteq_nil].
  - by exists tSet, tp.
Qed.

Lemma prune_sets_run oldHeights sets i acc tp :
  (forall t, t ∈ concat sets -> is_Some (oldHeights !! Transaction_ID t)) -> emptied tp ->
  exists sets' tp',
    for_fold (fun _ tSet acc => set ← prune_set oldHeights tSet; mret (acc ++ [set])) i sets acc tp =
      Ret (acc ++ sets') tp' /\ emptied tp' /\
    chain_part tp' = chain_part tp /\ concat sets' ⊆ concat sets.
Proof.
  revert i acc tp. induction sets as [|tSet sets IH]; intros i acc tp Hall He.
  { exists [], tp. by rewrite app_nil_r. }
  destruct (prune_set_run oldHeights tSet tp) as (set & tp1 & R1 & He1 & Hc1 & Hs1); [|done|].
  { intros t Ht. apply Hall. cbn [concat]. apply elem_of_app. by left. }
  destruct (IH (i + 1) (acc ++ [set]) tp1) as (sets' & tp' & R2 & He2 & Hc2 & Hs2); [|done|].
  { intros t Ht. apply Hall. cbn [concat]. apply elem_of_app. by right. }
  exists (set :: sets'), tp'. rewrite for_fold_cons. unfold mbind, M_bind. rewrite R1.
  unfold mret, M_ret. unfold mbind, M_bind, mret, M_ret in R2. rewrite R2, <- app_assoc.
  split_and!; [done..|congruence|]. cbn [concat]. intros t [Ht|Ht]%elem_of_app; apply elem_of_app; auto.
Qed.

Lemma refill_run cc tp :
  (forall t, pooled tp t -> U t /\ is_Some (tp_transactionHeights tp !! Transaction_ID t)) ->
  (forall t, t ∈ cc_RevertedBlocks cc ≫= b_Transactions -> U t) ->
  match refill range txnFn cc tp with
  | Ret _ tp' => ok tp' /\ chain_part tp' = chain_part tp
  | Err _ _ => False
  | Panic msg => exists ts, txnFn ts = Panic msg
  end.
Proof.
  intros Hpool Hrev. set (sets := unconfirmed_sets range (block_txids (cc_AppliedBlocks cc)) tp).
  assert (Hsets : forall t, t ∈ concat sets -> pooled tp t).
  { unfold sets, unconfirmed_sets. intros t Ht.
    apply list_elem_of_In, in_concat in Ht as (l & Hl%list_elem_of_In & Ht%list_elem_of_In).
    apply list_elem_of_fmap in Hl as (id & -> & _). apply list_elem_of_filter in Ht as [_ Ht].
    unfold set_of in Ht. destruct (tp_transactionSets tp !! id) as [ts|] eqn:Hts; [by exists id, ts|].
    by apply elem_of_nil in Ht. }
  destruct (prune_sets_run (tp_transactionHeights tp) sets 0 [] (purge tp))
    as (sets' & tp1 & R1 & He1 & Hc1 & Hs1); [|done|].
  { intros t Ht. by apply Hpool, Hsets. }
  unfold refill, get, modify, mbind at 1 2 3, M_bind at 1 2 3. cbv beta iota. fold sets. rewrite R1.
  cbn [app].
  assert (Hkeep : refills (for_each (fun block => for_each (fun txn =>
      if bool_decide (Transaction_ID txn ∈ block_txids (cc_AppliedBlocks cc)) then mret ()
      else ignore_err (acceptTransactionSet range [txn] txnFn)) (b_Transactions block))
      (reverse (cc_RevertedBlocks cc)) ≫= fun _ =>
    for_each (for_each (readd_txn range (tp_transactionHeights tp) txnFn)) sets')).
  { apply refills_bind; [|intros _]; apply refills_for_each.
    - intros b Hb. rewrite elem_of_reverse in Hb. apply refills_for_each. intros t Ht.
      case_bool_decide; [apply refills_ret|]. apply refills_accept.
      intros x ->%list_elem_of_singleton. apply Hrev, list_elem_of_bind. by exists b.
    - intros l Hl. apply refills_for_each. intros t Ht. apply refills_readd, Hpool, Hsets, Hs1.
      apply list_elem_of_In, in_concat. exists l. split; by apply list_elem_of_In. }
  specialize (Hkeep tp1 (emptied_ok _ He1)).
  destruct ((for_each _ _ ≫= _) tp1); [|done..]. destruct Hkeep as [Hok Hk]. split; [done|by rewrite Hk, Hc1].
Qed.
End refill.

Lemma pool_change_run d_old d (U : Transaction -> Prop) tp cc :
  (forall t t', U t -> U t' -> Transaction_ID t = Transaction_ID t' -> txn_objects t = txn_objects t') ->
  (forall t, t ∈ cc_RevertedBlocks cc ≫= b_Transactions -> U t) ->
  pool_ok U (consensus_txnFn d_old) tp ->
  change_fits (tp_db tp) cc -> cc_AppliedBlocks cc <> [] ->
  match TransactionPool_ProcessConsensusChange range range_int (consensus_txnFn d) cc tp with
  | Ret _ tp' =>
      pool_ok (fun t => pooled tp t \/ t ∈ cc_RevertedBlocks cc ≫= b_Transactions)
        (consensus_txnFn d) tp' /\
      exists tp1, followed tp cc tp1 /\ tp_db tp' = tp_db tp1 /\
        tp_blockHeight tp' = tp_blockHeight tp1 /\ tp_recentMedians tp' = tp_recentMedians tp1 /\
        tp_recentMedianFee tp' = tp_recentMedianFee tp1
  | Err _ _ => False
  | Panic msg => exists ts, consensus_txnFn d ts = Panic msg
  end.
Proof.
  intros HU Hrev Hok Hfit Hne. unfold TransactionPool_ProcessConsensusChange.
  destruct (follow_blocks_run tp cc Hfit Hne) as (tp1 & R1 & Hf).
  set (U' := fun t => pooled tp t \/ t ∈ cc_RevertedBlocks cc ≫= b_Transactions).
  assert (HU' : forall t, U' t -> U t).
  { intros t [(id & ts & Hid & Ht)|Ht]; [|by apply Hrev].
    by destruct (st_txns _ _ _ _ _ (po_sets _ _ _ _ Hok id ts Hid) t Ht). }
  assert (Hsame : unconfirmed_part tp1 = unconfirmed_part tp) by apply Hf.
  assert (Hpool : forall t, pooled tp1 t -> U' t /\ is_Some (tp_transactionHeights tp1 !! Transaction_ID t)).
  { unfold unconfirmed_part in Hsame. intros t (id & ts & Hid & Ht).
    assert (tp_transactionSets tp1 = tp_transactionSets tp) as Hs by congruence.
    assert (tp_transactionHeights tp1 = tp_transactionHeights tp) as -> by congruence.
    rewrite Hs in Hid. split; [left; by exists id, ts|].
    by destruct (st_txns _ _ _ _ _ (po_sets _ _ _ _ Hok id ts Hid) t Ht) as (_ & ? & _). }
  pose proof (refill_run U' (fun t t' Ht Ht' => HU t t' (HU' t Ht) (HU' t' Ht'))
    (consensus_txnFn d) (consensus_diffs_cover d) cc tp1 Hpool (fun t Ht => or_intror Ht)) as Hrefill.
  unfold modify, mbind, M_bind. rewrite R1.
  destruct (refill range (consensus_txnFn d) cc tp1) as [u tp2|e tp2|msg]; [|done..].
  destruct Hrefill as [[P1 P2 P3 P4 P5] Hch]. split.
  - split; try done. intros id ts Hid. by destruct (P1 id ts Hid).
  - exists tp1. unfold chain_part in Hch. split_and!; [done|cbn; congruence..].
Qed.
(** Fewer transactions in play. *)
Lemma pool_ok_mono (U U' : Transaction -> Prop) txnFn tp :
  (forall t, U t -> U' t) -> pool_ok U txnFn tp -> pool_ok U' txnFn tp.
Proof.
  intros HU [P1 P2 P3 P4 P5]. split; try done. intros id ts Hid. destruct (P1 id ts Hid) as [S1 S2 S3 S4 S5].
  split; try done. intros t Ht. destruct (S5 t Ht) as (? & ? & ?). auto.
Qed.

(** C34. Handling a consensus change: a change that fits the block the pool is
    at is taken without a panic of the pool's own (a reported inconsistency,
    a transaction without a height, an empty fee window, a loop that does not
    end).  The confirmed transactions become the old ones without those of the
    reverted blocks and with those of the applied ones; the height, the recent
    block and the change follow and are stored.  The fee window loses one entry
    for each reverted block, gains the fee of each applied one and keeps the
    last ten; the fee of a block is the average fee a quarter into the space of
    the block, sorted by fee with the unused space for free; the median fee is
    the middle of the window.  The pool satisfies its invariant with respect to
    the new state of the consensus set and holds only transactions that were in
    it or in a reverted block. *)
Theorem ProcessConsensusChange_spec d_old d U tp cc :
  ids_name_objects U -> (forall t, t ∈ cc_RevertedBlocks cc ≫= b_Transactions -> t ∈ U) ->
  pool_ok (fun t => t ∈ U) (consensus_txnFn d_old) tp ->
  change_fits (tp_db tp) cc -> cc_AppliedBlocks cc <> [] ->
  match TransactionPool_ProcessConsensusChange range range_int (consensus_txnFn d) cc tp with
  | Ret _ tp' =>
      pool_ok (fun t => pooled tp t \/ t ∈ cc_RevertedBlocks cc ≫= b_Transactions)
        (consensus_txnFn d) tp' /\
      exists tp1, followed tp cc tp1 /\ tp_db tp' = tp_db tp1 /\
        tp_blockHeight tp' = tp_blockHeight tp1 /\ tp_recentMedians tp' = tp_recentMedians tp1 /\
        tp_recentMedianFee tp' = tp_recentMedianFee tp1
  | Err _ _ => False
  | Panic msg => exists ts, consensus_txnFn d ts = Panic msg
  end.
Proof. apply (pool_change_run d_old d (fun t => t ∈ U)). Qed.
End follow.
