(* ===== verification/NodePool.v ===== *)
(** * The transaction pool of a node

    The pool composed with the consensus set it subscribes to: whatever blocks
    arrive and whatever sets are submitted in between, the pool is at the
    current block of the consensus set and every set it holds is valid there. *)

From S2P Require Import Prelude Bytes Interfaces Currency Types Params Target Encoding Transactions.
From S2P Require Import Subsidy ConsensusDB ApplyTransaction ConsensusValid GenerateDiffs.
From S2P Require Import ProcessedBlock BlockValidation Fork Accept.
From S2P Require Import ConsensusSubscribe Agree Chain ChainFork ChainAccept ChainState ChangeLog.
From S2P Require Import Subscription Replay Ledger Node.
From S2P Require Import MinimumSet TransactionPool TransactionPoolUpdate TransactionPoolFacts.
From S2P Require Import TransactionPoolConsensus TransactionPoolFollow.

Open Scope Z_scope.

Section pool.
Context {P : Params} {PP : PoolParams} {C : Crypto} {E : SiaEncoding} (r : release).
#[local] Hint Extern 0 Build => exact (debug_build r) : typeclass_instances.
Context (range : nat -> list Hash -> list Hash) (range_int : list nat -> list nat).

(** ** The pool as a subscriber *)

Definition pool_process (d : DB) : ConsensusChange -> M TransactionPool () :=
  TransactionPool_ProcessConsensusChange range range_int (consensus_txnFn d).

(** A pool on a new database. *)
Definition pool_initial (tp : TransactionPool) : Prop :=
  tp = fst (initPersist (mkPoolDB ∅ None None None None)).

(** What the pool does between two changes, with transactions of [U]. *)
Inductive pool_step (U : list Transaction) (d : DB) (tp : TransactionPool) : TransactionPool -> Prop :=
| step_submit ts sent tp' : (forall t, t ∈ ts -> t ∈ U) ->
    submitTransactionSet range d ts tp = Ret sent tp' -> pool_step U d tp tp'
| step_refuse ts e tp' : (forall t, t ∈ ts -> t ∈ U) ->
    submitTransactionSet range d ts tp = Err e tp' -> pool_step U d tp tp'
| step_purge tp' : PurgeTransactionPool tp = Ret () tp' -> pool_step U d tp tp'
| step_subscribe sub tp' : TransactionPoolSubscribe range sub tp = Ret () tp' -> pool_step U d tp tp'
| step_unsubscribe sub : pool_step U d tp (TransactionPool_Unsubscribe sub tp).

Definition pool_node (U : list Transaction) : Z -> ConsensusSet -> TransactionPool -> Prop :=
  node r pool_process pool_initial (pool_step U).

(** The transactions of a path. *)
Definition path_txids (t : tree) (lp : list BlockID) : gset TransactionID :=
  block_txids (omap (fun bid => pb_Block <$> t !! bid) lp).

(** No transaction is in two blocks of a path. *)
Definition no_repeats (t : tree) : Prop := forall lp1 lp2,
  chained t (lp1 ++ lp2) -> path_txids t lp1 ## path_txids t lp2.

(** The pool is at the end of the path. *)
Record pool_at (t : tree) (lp : list BlockID) (tp : TransactionPool) : Prop := mkPoolAt {
  pa_recent : pd_RecentBlockID (tp_db tp) = last lp;
  pa_height : tp_blockHeight tp = Z.of_nat (pred (length lp));
  pa_stored : pd_BlockHeight (tp_db tp) = Some (tp_blockHeight tp);
  pa_confirmed : pd_ConfirmedTransactions (tp_db tp) ⊆ path_txids t lp;
  pa_complete : no_repeats t -> path_txids t lp ⊆ pd_ConfirmedTransactions (tp_db tp)
}.

(** ** Paths *)

Lemma path_txids_app t l1 l2 : path_txids t (l1 ++ l2) = path_txids t l1 ∪ path_txids t l2.
Proof.
  unfold path_txids. rewrite omap_app. unfold block_txids.
  by rewrite bind_app, fmap_app, list_to_set_app_L.
Qed.

Lemma path_txids_at t ids pbs :
  blocks_at t ids pbs -> path_txids t ids = block_txids (pb_Block <$> pbs).
Proof.
  unfold path_txids. induction 1 as [|bid pb ids pbs Hpb _ IH]; [done|]. cbn [omap list_omap fmap list_fmap].
  rewrite Hpb. cbn [fmap option_fmap option_map]. rewrite block_txids_cons, IH. symmetry. apply block_txids_cons.
Qed.

Lemma path_txids_reverse t ids : path_txids t (reverse ids) = path_txids t ids.
Proof.
  induction ids as [|bid ids IH]; [done|]. rewrite reverse_cons, path_txids_app, IH.
  change (bid :: ids) with ([bid] ++ ids). rewrite path_txids_app. set_solver +.
Qed.

Lemma path_txids_grows t t' lp ids :
  grows t t' -> chained t lp -> ids ⊆ lp -> path_txids t' ids = path_txids t ids.
Proof.
  intros Hg Hch. unfold path_txids. induction ids as [|bid ids IH]; intros Hin; [done|].
  destruct (proj1 (list_elem_of_lookup lp bid)) as [i Hi]; [apply Hin; left|].
  destruct (ch_block _ _ Hch i bid Hi) as (pb & Hpb & Hgen & _). cbn [omap list_omap].
  rewrite Hpb, (grows_generated _ _ _ _ Hg Hpb Hgen). cbn [fmap option_fmap option_map].
  rewrite block_txids_cons, IH by (intros x Hx; apply Hin; by right). symmetry. apply block_txids_cons.
Qed.

Lemma no_repeats_grows t t' : grows t t' -> no_repeats t' -> no_repeats t.
Proof.
  intros Hg Hno l1 l2 Hch. rewrite <- (path_txids_grows t t' (l1 ++ l2) l1), <- (path_txids_grows t t' (l1 ++ l2) l2);
    [by apply Hno, (chained_grow t)|done|done|..|done|done|]; intros x Hx; apply elem_of_app; auto.
Qed.

(** ** The blocks of a change *)

Lemma chained_child t lp bid pb :
  chained t (lp ++ [bid]) -> t !! bid = Some pb ->
  Block_ID (pb_Block pb) = bid /\ (lp <> [] -> Some (b_ParentID (pb_Block pb)) = last lp /\ bid <> GenesisID) /\
  (lp = [] -> bid = GenesisID) /\ Z.of_nat (length lp) < 2 ^ 63.
Proof.
  intros Hch Hpb. destruct (ch_block _ _ Hch (length lp) bid) as (pb' & Hpb' & _ & Hid & _ & Hpar).
  { by rewrite list_lookup_middle. }
  assert (pb' = pb) as -> by congruence. split; [done|]. split_and!.
  - intros Hne. destruct (last lp) as [pid|] eqn:Hl; [|by apply last_None in Hl].
    pose proof Hl as Hl'. rewrite last_lookup in Hl. pose proof (lookup_lt_Some _ _ _ Hl) as Hlt.
    split; [f_equal; apply (Hpar (pred (length lp))); [lia|by rewrite lookup_app_l]|].
    intros ->. assert (length lp = 0%nat); [|by destruct lp].
    eapply (NoDup_lookup (lp ++ [GenesisID])); [apply Hch| |apply (ch_genesis _ _ Hch)].
    by rewrite list_lookup_middle.
  - intros ->. pose proof (ch_genesis _ _ Hch) as Hg. cbn in Hg. congruence.
  - pose proof (ch_length _ _ Hch) as Hl. rewrite length_app in Hl. cbn in Hl. lia.
Qed.

Lemma applied_follow t kept ids : forall pbs,
  chained t (kept ++ ids) -> blocks_at t ids pbs ->
  heights_along 1 (pb_Block <$> pbs) (Z.of_nat (pred (length kept))) = Z.of_nat (pred (length (kept ++ ids))) /\
  (forall mid, last kept = Some mid -> exists tip, last (kept ++ ids) = Some tip /\
    applies_to mid tip (pb_Block <$> pbs)).
Proof.
  revert kept. induction ids as [|bid ids IH]; intros kept pbs Hch Hb; inversion Hb as [|? pb ? pbs' Hpb Hbs]; subst.
  { rewrite app_nil_r. split; [done|]. intros mid Hm. by exists mid. }
  rewrite cons_middle, app_assoc in Hch |- *.
  destruct (chained_child t kept bid pb) as (Hid & Hpar & Hgen & Hlen); [|done|].
  { eapply chained_take; [|done]. by destruct kept. }
  destruct (IH (kept ++ [bid]) pbs' Hch Hbs) as [Hh Happ]. split.
  - rewrite <- Hh. cbn [fmap list_fmap heights_along fold_left]. unfold heights_along. f_equal.
    unfold step_height. rewrite Hid, length_app. cbn [length]. destruct kept as [|k kept].
    + rewrite (Hgen eq_refl). by rewrite bool_decide_false by (intros H; by apply H).
    + rewrite bool_decide_true by (by apply Hpar). rewrite orb_true_r, u64_small; [cbn [length] in *; lia|].
      unfold is_u64. cbn [length] in *. lia.
  - intros mid Hm. destruct (Happ bid) as (tip & Ht & Ha); [by rewrite last_snoc|].
    exists tip. split; [done|]. cbn [fmap list_fmap applies_to]. rewrite Hid. split; [|done].
    destruct Hpar as [Hp _]; [by intros ->|]. congruence.
Qed.

Lemma reverted_follow t kept ids : forall pbs,
  kept <> [] -> chained t (kept ++ reverse ids) -> blocks_at t ids pbs ->
  heights_along (-1) (pb_Block <$> pbs) (Z.of_nat (pred (length (kept ++ reverse ids)))) =
    Z.of_nat (pred (length kept)) /\
  (forall tip, last (kept ++ reverse ids) = Some tip -> exists mid, last kept = Some mid /\
    reverts_to tip mid (pb_Block <$> pbs)).
Proof.
  induction ids as [|bid ids IH]; intros pbs Hne Hch Hb; inversion Hb as [|? pb ? pbs' Hpb Hbs]; subst.
  { rewrite reverse_nil, app_nil_r. split; [done|]. intros mid Hm. by exists mid. }
  rewrite reverse_cons, app_assoc in Hch |- *.
  assert (Hne' : kept ++ reverse ids <> []) by (by destruct kept).
  destruct (chained_child t (kept ++ reverse ids) bid pb Hch Hpb) as (Hid & Hpar & _ & Hlen).
  destruct (Hpar Hne') as [Hp Hng].
  destruct (IH pbs' Hne (chained_take _ _ _ Hne' Hch) Hbs) as [Hh Hrev]. split.
  - rewrite <- Hh. cbn [fmap list_fmap heights_along fold_left]. unfold heights_along. f_equal.
    unfold step_height. rewrite Hid, bool_decide_true by done. rewrite orb_true_r, (length_app _ [bid]).
    cbn [length]. destruct (kept ++ reverse ids); [done|]. cbn [length] in *. rewrite u64_small; [lia|].
    unfold is_u64. lia.
  - intros tip. rewrite last_snoc. intros [= <-]. destruct (Hrev (b_ParentID (pb_Block pb))) as (mid & Hm & Hr); [done|].
    exists mid. split; [done|]. cbn [fmap list_fmap reverts_to]. done.
Qed.

(** ** The pool keeps up *)

Context (Hr : r <> Testing) (Hrange : forall n l, range n l ≡ₚ l) (Hrange_int : forall l, range_int l ≡ₚ l).
Context (U : list Transaction) (HU : ids_name_objects U).

(** The transactions of the stored blocks are in play. *)
Definition txns_in (t : tree) : Prop := forall bid pb,
  t !! bid = Some pb -> forall tx, tx ∈ b_Transactions (pb_Block pb) -> tx ∈ U.

Lemma txns_in_grows t t' : grows t t' -> txns_in t' -> txns_in t.
Proof.
  intros Hg Ht bid pb Hpb tx Htx. destruct (Hg bid pb Hpb) as (pb' & Hpb' & [Hb _ _ _]).
  apply (Ht bid pb' Hpb'). by rewrite Hb.
Qed.

Definition pool_J (t : tree) (lp : list BlockID) (tp : TransactionPool) : Prop :=
  txns_in t -> pool_at t lp tp.
Definition pool_K (d : DB) (tp : TransactionPool) : Prop :=
  txns_in (db_BlockMap d) -> pool_ok (fun t => t ∈ U) (consensus_txnFn d) tp.

Lemma pool_at_grows t t' lp tp : grows t t' -> chained t lp -> pool_at t lp tp -> pool_at t' lp tp.
Proof.
  intros Hg Hch [P1 P2 P3 P4 P5]. split; try done.
  - by rewrite (path_txids_grows t t' lp lp).
  - intros Hno. rewrite (path_txids_grows t t' lp lp) by done. by apply P5, (no_repeats_grows t t').
Qed.

Lemma pool_at_same t lp tp tp' :
  tp_db tp' = tp_db tp -> tp_blockHeight tp' = tp_blockHeight tp -> pool_at t lp tp -> pool_at t lp tp'.
Proof. intros Hd Hh [P1 P2 P3 P4 P5]. split; by rewrite ?Hd, ?Hh. Qed.

Lemma pool_ok_subscribers V f sets subs sent tp :
  pool_ok V f tp -> pool_ok V f (with_subscribers sets subs sent tp).
Proof. intros [P1 P2 P3 P4 P5]. split; try done. intros id ts Hid. by destruct (P1 id ts Hid). Qed.

Lemma consensus_txnFn_ledger d d' : ledger d' = ledger d -> forall ts, consensus_txnFn d' ts = consensus_txnFn d ts.
Proof.
  intros Hl ts. unfold consensus_txnFn. pose proof (tryTransactionSet_ledger d' d ts Hl) as Ht.
  destruct (tryTransactionSet ts d'), (tryTransactionSet ts d); try done; by subst.
Qed.

Lemma pool_ok_txnFn V f g tp : (forall ts, g ts = f ts) -> pool_ok V f tp -> pool_ok V g tp.
Proof.
  intros Hfg [P1 P2 P3 P4 P5]. split; try done. intros id ts Hid. destruct (P1 id ts Hid) as [S1 S2 S3 S4 S5].
  split; try done. by rewrite Hfg.
Qed.

Lemma pool_own d lp tp tp' :
  pool_J (db_BlockMap d) lp tp -> pool_K d tp -> pool_step U d tp tp' ->
  pool_J (db_BlockMap d) lp tp' /\ pool_K d tp'.
Proof.
  intros HJ HK Hstep. unfold pool_J, pool_K in *.
  enough (Hgoal : txns_in (db_BlockMap d) ->
    pool_at (db_BlockMap d) lp tp' /\ pool_ok (fun t => t ∈ U) (consensus_txnFn d) tp') by tauto.
  intros Hin. specialize (HJ Hin). specialize (HK Hin).
  pose proof (fun ts Hts => acceptTransactionSet_outcome range Hrange _ HU _ (consensus_diffs_cover d) tp ts HK Hts) as Hacc.
  destruct Hstep as [ts sent tp' Hts Hrun|ts e tp' Hts Hrun|tp' Hrun|sub tp' Hrun|sub].
  - unfold submitTransactionSet in Hrun. inv_run. specialize (Hacc ts Hts).
    match goal with H : acceptTransactionSet _ _ _ _ = _ |- _ => rewrite H in Hacc end.
    destruct Hacc as [Hok' (merged & new & Hacc)]. pose proof (ac_chain _ _ _ _ _ _ _ Hacc) as Hch.
    unfold chain_part in Hch. split; [|by apply pool_ok_subscribers].
    eapply pool_at_same; [..|exact HJ]; cbn; congruence.
  - assert (tp' = tp) as ->; [|done]. specialize (Hacc ts Hts). unfold submitTransactionSet, mbind, M_bind in Hrun.
    destruct (acceptTransactionSet range ts (consensus_txnFn d) tp); [done| |done].
    injection Hrun as _ <-. done.
  - injection Hrun as <-. split; [by apply (pool_at_same _ _ tp)|by apply emptied_ok; split_and!].
  - unfold TransactionPoolSubscribe in Hrun. inv_run. split; [by apply (pool_at_same _ _ tp)|by apply pool_ok_subscribers].
  - split; [by apply (pool_at_same _ _ tp)|by apply pool_ok_subscribers].
Qed.

(** ** One change *)

Lemma pool_change_fits d lp lp' cc tp :
  change_between d lp lp' cc -> pd_RecentBlockID (tp_db tp) = last lp -> change_fits (tp_db tp) cc.
Proof.
  intros [Hold Hnew Hb _ _ _] Hrec. destruct Hb as (kept & rev & app & rpbs & apbs & -> & -> & Hne & Hk & Hr1 & Ha1 & Hd).
  unfold change_fits, getRecentBlockID. rewrite Hrec.
  destruct (last (kept ++ reverse rev)) as [tip|] eqn:Hl; [|done]. case_bool_decide; [done|].
  assert (Hlp : kept ++ reverse rev <> []) by (by intros Hn; rewrite Hn in Hl).
  destruct Hold as [?|Hold]; [done|].
  destruct (reverted_follow _ kept rev rpbs (Hk Hlp) Hold Hr1) as [_ Hrev].
  destruct (Hrev tip Hl) as (mid & Hm & Hrv). destruct (applied_follow _ kept app apbs Hnew Ha1) as [_ Happ].
  destruct (Happ mid Hm) as (tip' & _ & Hap). exists mid, tip'.
  by rewrite (ds_reverted _ _ _ Hd), (ds_applied _ _ _ Hd).
Qed.

(** The height and the last block after a change. *)
Lemma change_follows d lp lp' cc : change_between d lp lp' cc ->
  heights_along 1 (cc_AppliedBlocks cc) (heights_along (-1) (cc_RevertedBlocks cc) (Z.of_nat (pred (length lp)))) =
    Z.of_nat (pred (length lp')) /\
  exists block, last (cc_AppliedBlocks cc) = Some block /\ last lp' = Some (Block_ID block).
Proof.
  intros [Hold Hnew Hb _ _ _].
  destruct Hb as (kept & rev & app & rpbs & apbs & -> & -> & Hne & Hk & Hr1 & Ha1 & [Dr Da _ _ _]). rewrite Dr, Da.
  assert (Hrev : heights_along (-1) (pb_Block <$> rpbs) (Z.of_nat (pred (length (kept ++ reverse rev)))) =
    Z.of_nat (pred (length kept))).
  { destruct (decide (rev = [])) as [->|Hn]; [inversion Hr1; subst; by rewrite reverse_nil, app_nil_r|].
    assert (Hlp : kept ++ reverse rev <> []).
    { intros [_ H]%app_eq_nil. by apply (f_equal reverse) in H; rewrite reverse_involutive in H. }
    destruct Hold as [?|Hold]; [done|]. by apply (reverted_follow _ kept rev rpbs (Hk Hlp) Hold Hr1). }
  split; [rewrite Hrev; apply (applied_follow _ kept app apbs Hnew Ha1)|].
  destruct (last apbs) as [apb|] eqn:Hl; [|apply last_None in Hl as ->; by inversion Ha1; subst].
  exists (pb_Block apb). split; [by rewrite fmap_last, Hl|].
  apply Forall2_length in Ha1 as Hlen. rewrite last_lookup in Hl.
  destruct (Forall2_lookup_r _ _ _ _ _ Ha1 Hl) as (bid & Hbid & Hpb).
  rewrite last_app, last_lookup. rewrite Hlen in *. rewrite Hbid.
  assert (Hi : (kept ++ app) !! (length kept + pred (length apbs))%nat = Some bid) by (rewrite lookup_app_r by lia; by rewrite Nat.add_sub_swap, Nat.sub_diag).
  destruct (ch_block _ _ Hnew _ _ Hi) as (pb' & Hpb' & _ & Hid & _). f_equal. congruence.
Qed.

Lemma pool_followed d lp lp' cc tp tp1 :
  change_between d lp lp' cc ->
  pd_ConfirmedTransactions (tp_db tp) ⊆ path_txids (db_BlockMap d) lp ->
  (no_repeats (db_BlockMap d) -> path_txids (db_BlockMap d) lp ⊆ pd_ConfirmedTransactions (tp_db tp)) ->
  tp_blockHeight tp = Z.of_nat (pred (length lp)) ->
  followed range_int tp cc tp1 -> pool_at (db_BlockMap d) lp' tp1.
Proof.
  intros Hcb Hsub Hsup Hh [_ Fc Fh Fr _ [Fs _] _].
  destruct (change_follows _ _ _ _ Hcb) as (Hheights & block & Hl & Hl'). destruct Hcb as [Hold Hnew Hb _ _ _].
  destruct Hb as (kept & rev & app & rpbs & apbs & -> & -> & Hne & Hk & Hr1 & Ha1 & [Dr Da _ _ _]).
  rewrite Dr, Da in *. rewrite <- (path_txids_at _ _ _ Hr1), <- (path_txids_at _ _ _ Ha1) in Fc.
  rewrite path_txids_app, path_txids_reverse in Hsub, Hsup.
  split.
  - rewrite Hl'. by apply Fr.
  - by rewrite Fh, Hh, Hheights.
  - done.
  - rewrite Fc, path_txids_app. set_solver +Hsub.
  - intros Hno. rewrite Fc, path_txids_app. specialize (Hsup Hno).
    assert (Hdis : path_txids (db_BlockMap d) kept ## path_txids (db_BlockMap d) rev).
    { destruct Hold as [Hn|Hold].
      - apply app_eq_nil in Hn as [-> _]. unfold path_txids at 1. set_solver +.
      - rewrite <- (path_txids_reverse _ rev). by apply Hno. }
    set_solver +Hsup Hdis.
Qed.

Lemma pool_outcome d lp lp' cc tp :
  change_between d lp lp' cc -> arrived pool_initial pool_J pool_K d lp tp -> txns_in (db_BlockMap d) ->
  match pool_process d cc tp with
  | Ret _ tp' => pool_at (db_BlockMap d) lp' tp' /\ pool_ok (fun t => t ∈ U) (consensus_txnFn d) tp'
  | Err _ _ => False
  | Panic msg => exists ts, consensus_txnFn d ts = Panic msg
  end.
Proof.
  intros Hcb Harr Hin.
  assert (Hst : (pd_RecentBlockID (tp_db tp) = last lp /\ tp_blockHeight tp = Z.of_nat (pred (length lp)) /\
    pd_ConfirmedTransactions (tp_db tp) ⊆ path_txids (db_BlockMap d) lp /\
    (no_repeats (db_BlockMap d) -> path_txids (db_BlockMap d) lp ⊆ pd_ConfirmedTransactions (tp_db tp))) /\
    exists d0, pool_ok (fun t => t ∈ U) (consensus_txnFn d0) tp).
  { destruct Harr as [[-> ->]|(HJ & d0 & Hg & HK)].
    - split; [|exists d; by apply emptied_ok; split_and!]. split_and!; try done.
    - destruct (HJ Hin) as [P1 P2 _ P4 P5]. split; [done|]. exists d0. apply HK. by eapply txns_in_grows. }
  destruct Hst as [(S1 & S2 & S3 & S4) [d0 Hok]].
  assert (Hrev : forall t, t ∈ cc_RevertedBlocks cc ≫= b_Transactions -> t ∈ U).
  { destruct (cb_blocks _ _ _ _ Hcb) as (kept & rev & app & rpbs & apbs & _ & _ & _ & _ & Hr1 & _ & [Dr _ _ _ _]).
    rewrite Dr. intros t (b & Ht & (pb & -> & [i Hi]%list_elem_of_lookup)%list_elem_of_fmap)%list_elem_of_bind.
    destruct (Forall2_lookup_r _ _ _ _ _ Hr1 Hi) as (bid & _ & Hpb). by eapply Hin. }
  assert (Hne : cc_AppliedBlocks cc <> []).
  { destruct (cb_blocks _ _ _ _ Hcb) as (kept & rev & app & rpbs & apbs & _ & _ & Hne & _ & _ & Ha1 & [_ Da _ _ _]).
    rewrite Da. intros ->%fmap_nil_inv. by inversion Ha1; subst. }
  pose proof (pool_change_run range Hrange range_int Hrange_int d0 d (fun t => t ∈ U) tp cc HU Hrev Hok
    (pool_change_fits _ _ _ _ _ Hcb S1) Hne) as Hrun.
  unfold pool_process. destruct (TransactionPool_ProcessConsensusChange _ _ _ cc tp) as [u tp'|e tp'|msg]; [|done..].
  destruct Hrun as [Hok' (tp1 & Hf & E1 & E2 & _)]. split.
  - eapply (pool_at_same _ _ tp1); [done|done|]. by eapply pool_followed.
  - eapply pool_ok_mono; [|exact Hok']. cbn. intros t [(id & ts & Hid & Ht)|Ht]; [|by apply Hrev].
    by destruct (st_txns _ _ _ _ _ (po_sets _ _ _ _ Hok id ts Hid) t Ht).
Qed.

Lemma pool_keeps_up : keeps_up pool_process pool_initial (pool_step U) pool_J pool_K.
Proof.
  split.
  - intros t t' lp tp Hg Hch HJ Hin. by apply (pool_at_grows t), HJ, (txns_in_grows t t').
  - intros d d' tp Hg Hl HK Hin. eapply pool_ok_txnFn; [by apply consensus_txnFn_ledger|].
    by apply HK, (txns_in_grows _ (db_BlockMap d')).
  - intros d lp tp tp'. apply pool_own.
  - intros d lp lp' cc tp tp' Hcb Harr Hrun. pose proof (pool_outcome d lp lp' cc tp Hcb Harr) as Ho.
    rewrite Hrun in Ho. unfold pool_J, pool_K. tauto.
Qed.

Lemma pool_proceeds :
  proceeds pool_process pool_initial pool_J pool_K (fun d => txns_in (db_BlockMap d))
    (fun d msg => exists ts, consensus_txnFn d ts = Panic msg).
Proof.
  intros d lp lp' cc tp Hin Hcb Harr. pose proof (pool_outcome d lp lp' cc tp Hcb Harr Hin) as Ho.
  by destruct (pool_process d cc tp).
Qed.

(** C5. The transaction pool of a node: after any sequence of accepted and
    rejected blocks, with forks among them, and of submitted sets, purges and
    subscriptions, the pool is at the current block and height of the consensus
    set, and every set it holds is valid in the current state; what it takes as
    confirmed is in a block of the current path, and if no transaction is in two
    blocks of a path then it is exactly what the path confirms.  The next
    blocks are taken without a panic of the pool's own (a reported
    inconsistency, a transaction without a height, an empty fee window). *)
Theorem node_pool_follows n s tp :
  below_forks n -> pool_node U n s tp ->
  (txns_in (db_BlockMap (cs_db s)) -> exists lp, path_list (cs_db s) lp /\
    pool_at (db_BlockMap (cs_db s)) lp tp /\ pool_ok (fun t => t ∈ U) (consensus_txnFn (cs_db s)) tp) /\
  forall clock blocks extended s' new synced,
    below_forks (n + Z.of_nat (length blocks)) -> Forall admissible blocks ->
    managedAcceptBlocks clock blocks s = Ret extended s' -> cs_published s' = cs_published s ++ new ->
    txns_in (db_BlockMap (cs_db s')) ->
    match deliver r pool_process synced (cs_db s') new tp with
    | Ret _ _ => True
    | Err _ _ => False
    | Panic msg => exists ts, consensus_txnFn (cs_db s') ts = Panic msg
    end.
Proof.
  intros Hn Hnode. split.
  - intros Hin. destruct (node_keeps r Hr _ _ _ _ _ pool_keeps_up n s tp Hn Hnode) as (lp & Hpath & _ & HJ & HK).
    exists lp. split_and!; [done|by apply HJ|by apply HK].
  - intros clock blocks extended s' new synced Hn' Hadm Hrun Hpub Hin.
    exact (node_proceeds r Hr _ _ _ _ _ pool_keeps_up _ _ n s tp clock blocks extended s' new synced
      pool_proceeds Hin Hn' Hnode Hadm Hrun Hpub).
Qed.
End pool.
