(* ===== verification/Wallet.v ===== *)
(** * The wallet: keys and database

    crypto/signatures.go, the types of modules/wallet.go and modules/txtypes.go,
    and of modules/wallet the files wallet.go, database.go, consts.go and
    seed.go, as far as they are about the state: keys derived from a seed, the
    lookahead, and the buckets of the database.  A bucket is a map from what its
    keys decode to; errors of bolt are not modelled.  [Wallet] is the state a
    thread finds when it holds the lock. *)

From S2P Require Import Prelude Bytes Interfaces Currency Types Params Encoding Transactions.
From S2P Require Import Decoding Signatures ConsensusSubscribe TransactionPool.

Open Scope Z_scope.

(** ** crypto/signatures.go *)

Class Ed25519 := {
  (* ed25519.GenerateKey on a reader of 32 bytes: public key, private key *)
  ed25519_GenerateKey : array 32 -> array 32 * array 64;
  (* ed25519.Sign(privateKey, message) *)
  ed25519_Sign : array 64 -> bytes -> array 64
}.

(** RFC 8032 and the documentation of the package: a private key is the seed
    followed by the public key, and what it signs verifies. *)
Class Ed25519Laws (C : Crypto) (S : Ed25519) : Prop := {
  GenerateKey_private seed :
    drop 32 (vec_to_list (ed25519_GenerateKey seed).2) = vec_to_list (ed25519_GenerateKey seed).1;
  verify_Sign seed m :
    ed25519_verify (ed25519_GenerateKey seed).1 m (ed25519_Sign (ed25519_GenerateKey seed).2 m) = true
}.

Abbreviation SecretKey := (array 64) (only parsing).
Abbreviation PublicKey := (array 32) (only parsing).

Definition SecretKey_PublicKey (sk : SecretKey) : PublicKey := copy_array 32 (drop 32 (vec_to_list sk)).

(** ** Data *)

Abbreviation OutputID := Hash (only parsing).
Abbreviation Seed := (array 32) (only parsing).

Record ProcessedInput := mkProcessedInput {
  pi_ParentID : OutputID;
  pi_FundType : Specifier;
  pi_WalletAddress : bool;
  pi_RelatedAddress : UnlockHash;
  pi_Value : Currency
}.

Record ProcessedOutput := mkProcessedOutput {
  po_ID : OutputID;
  po_FundType : Specifier;
  po_MaturityHeight : BlockHeight;
  po_WalletAddress : bool;
  po_RelatedAddress : UnlockHash;
  po_Value : Currency
}.

(** modules/txtypes.go *)
Inductive TXType :=
| TXTypeSetup | TXTypeMiner | TXTypeSCPMove | TXTypeSPFMove | TXTypeFileContractNew
| TXTypeFileContractRenew | TXTypeContractRevisionRegular | TXTypeContractRevisionForRenew
| TXTypeStorageProof | TXTypeHostAnnouncement | TXTypeArbitraryData | TXTypeMixed.

Record ProcessedTransaction := mkProcessedTransaction {
  pt_Transaction : Transaction;
  pt_TransactionID : TransactionID;
  pt_ConfirmationHeight : BlockHeight;
  pt_ConfirmationTimestamp : Timestamp;
  pt_Inputs : list ProcessedInput;
  pt_Outputs : list ProcessedOutput;
  pt_TxType : TXType
}.

(** The secret keys of an address and its unlock conditions. *)
Record spendableKey := mkSpendableKey {
  sk_UnlockConditions : UnlockConditions;
  sk_SecretKeys : list SecretKey
}.

Definition zero_conditions : UnlockConditions := mkUnlockConditions 0 [] 0.
Definition zero_key : spendableKey := mkSpendableKey zero_conditions [].

(** The buckets, under their keys.  [wd_Sequence] is the counter of the bucket
    of processed transactions; the seed progress is missing until the wallet is
    encrypted. *)
Record walletDB := mkWalletDB {
  wd_ProcessedTransactions : gmap Z ProcessedTransaction;
  wd_Sequence : Z;
  wd_ProcessedTxnIndex : gmap TransactionID Z;
  wd_AddrTransactions : gmap UnlockHash (list Z);
  wd_SiacoinOutputs : gmap SiacoinOutputID SiacoinOutput;
  wd_SiafundOutputs : gmap SiafundOutputID SiafundOutput;
  wd_SpentOutputs : gmap OutputID BlockHeight;
  wd_UnlockConditions : gmap UnlockHash UnlockConditions;
  wd_ConsensusChange : ConsensusChangeID;
  wd_ConsensusHeight : BlockHeight;
  wd_SiafundPool : Currency;
  wd_PrimarySeedProgress : option Z;
  wd_WatchedAddrs : list UnlockHash
}.

Record Wallet := mkWallet {
  w_unlocked : bool;
  w_primarySeed : Seed;
  w_seeds : list Seed;
  w_keys : gmap UnlockHash spendableKey;
  w_lookahead : gmap UnlockHash Z;
  w_watchedAddrs : gset UnlockHash;
  w_unconfirmedSets : gmap Hash (list TransactionID);
  w_unconfirmedProcessedTransactions : list ProcessedTransaction;
  w_db : walletDB;
  w_dbRollback : bool;
  w_defragDisabled : bool
}.

Definition with_processed pts seq index addrs (d : walletDB) : walletDB :=
  mkWalletDB pts seq index addrs (wd_SiacoinOutputs d) (wd_SiafundOutputs d) (wd_SpentOutputs d)
    (wd_UnlockConditions d) (wd_ConsensusChange d) (wd_ConsensusHeight d) (wd_SiafundPool d)
    (wd_PrimarySeedProgress d) (wd_WatchedAddrs d).
Definition with_outputs scos sfos pool (d : walletDB) : walletDB :=
  mkWalletDB (wd_ProcessedTransactions d) (wd_Sequence d) (wd_ProcessedTxnIndex d)
    (wd_AddrTransactions d) scos sfos (wd_SpentOutputs d) (wd_UnlockConditions d)
    (wd_ConsensusChange d) (wd_ConsensusHeight d) pool (wd_PrimarySeedProgress d) (wd_WatchedAddrs d).
Definition with_spent spent (d : walletDB) : walletDB :=
  mkWalletDB (wd_ProcessedTransactions d) (wd_Sequence d) (wd_ProcessedTxnIndex d)
    (wd_AddrTransactions d) (wd_SiacoinOutputs d) (wd_SiafundOutputs d) spent
    (wd_UnlockConditions d) (wd_ConsensusChange d) (wd_ConsensusHeight d) (wd_SiafundPool d)
    (wd_PrimarySeedProgress d) (wd_WatchedAddrs d).
Definition with_consensus change height (d : walletDB) : walletDB :=
  mkWalletDB (wd_ProcessedTransactions d) (wd_Sequence d) (wd_ProcessedTxnIndex d)
    (wd_AddrTransactions d) (wd_SiacoinOutputs d) (wd_SiafundOutputs d) (wd_SpentOutputs d)
    (wd_UnlockConditions d) change height (wd_SiafundPool d) (wd_PrimarySeedProgress d)
    (wd_WatchedAddrs d).
Definition with_addresses ucs progress watched (d : walletDB) : walletDB :=
  mkWalletDB (wd_ProcessedTransactions d) (wd_Sequence d) (wd_ProcessedTxnIndex d)
    (wd_AddrTransactions d) (wd_SiacoinOutputs d) (wd_SiafundOutputs d) (wd_SpentOutputs d)
    ucs (wd_ConsensusChange d) (wd_ConsensusHeight d) (wd_SiafundPool d) progress watched.

Definition with_wdb d (w : Wallet) : Wallet :=
  mkWallet (w_unlocked w) (w_primarySeed w) (w_seeds w) (w_keys w) (w_lookahead w)
    (w_watchedAddrs w) (w_unconfirmedSets w) (w_unconfirmedProcessedTransactions w) d
    (w_dbRollback w) (w_defragDisabled w).
Definition with_keys keys lookahead (w : Wallet) : Wallet :=
  mkWallet (w_unlocked w) (w_primarySeed w) (w_seeds w) keys lookahead
    (w_watchedAddrs w) (w_unconfirmedSets w) (w_unconfirmedProcessedTransactions w) (w_db w)
    (w_dbRollback w) (w_defragDisabled w).
Definition with_watched addrs (w : Wallet) : Wallet :=
  mkWallet (w_unlocked w) (w_primarySeed w) (w_seeds w) (w_keys w) (w_lookahead w)
    addrs (w_unconfirmedSets w) (w_unconfirmedProcessedTransactions w) (w_db w)
    (w_dbRollback w) (w_defragDisabled w).
Definition with_unconfirmed sets pts (w : Wallet) : Wallet :=
  mkWallet (w_unlocked w) (w_primarySeed w) (w_seeds w) (w_keys w) (w_lookahead w)
    (w_watchedAddrs w) sets pts (w_db w) (w_dbRollback w) (w_defragDisabled w).
Definition with_flags rollback nodefrag (w : Wallet) : Wallet :=
  mkWallet (w_unlocked w) (w_primarySeed w) (w_seeds w) (w_keys w) (w_lookahead w)
    (w_watchedAddrs w) (w_unconfirmedSets w) (w_unconfirmedProcessedTransactions w) (w_db w)
    rollback nodefrag.

(** consts.go and scan.go *)
Class WalletParams := {
  lookaheadBuffer : Z;
  lookaheadRescanThreshold : Z
}.

Definition standard_wallet_params : WalletParams :=
  {| lookaheadBuffer := 4000; lookaheadRescanThreshold := 1000 |}.
Definition dev_wallet_params : WalletParams :=
  {| lookaheadBuffer := 400; lookaheadRescanThreshold := 100 |}.
Definition testing_wallet_params : WalletParams :=
  {| lookaheadBuffer := 40; lookaheadRescanThreshold := 10 |}.

Definition RespendTimeout : BlockHeight := 100.
Definition globalTimelock : BlockHeight := 0.

(** ** database.go *)

Definition dbPutSiacoinOutput (id : SiacoinOutputID) (sco : SiacoinOutput) (d : walletDB) : walletDB :=
  with_outputs (<[id := sco]> (wd_SiacoinOutputs d)) (wd_SiafundOutputs d) (wd_SiafundPool d) d.
Definition dbDeleteSiacoinOutput (id : SiacoinOutputID) (d : walletDB) : walletDB :=
  with_outputs (delete id (wd_SiacoinOutputs d)) (wd_SiafundOutputs d) (wd_SiafundPool d) d.
Definition dbPutSiafundOutput (id : SiafundOutputID) (sfo : SiafundOutput) (d : walletDB) : walletDB :=
  with_outputs (wd_SiacoinOutputs d) (<[id := sfo]> (wd_SiafundOutputs d)) (wd_SiafundPool d) d.
Definition dbDeleteSiafundOutput (id : SiafundOutputID) (d : walletDB) : walletDB :=
  with_outputs (wd_SiacoinOutputs d) (delete id (wd_SiafundOutputs d)) (wd_SiafundPool d) d.
Definition dbPutSiafundPool (pool : Currency) (d : walletDB) : walletDB :=
  with_outputs (wd_SiacoinOutputs d) (wd_SiafundOutputs d) pool d.

Definition dbPutSpentOutput (id : OutputID) (height : BlockHeight) (d : walletDB) : walletDB :=
  with_spent (<[id := height]> (wd_SpentOutputs d)) d.
Definition dbGetSpentOutput (id : OutputID) (d : walletDB) : option BlockHeight :=
  wd_SpentOutputs d !! id.
Definition dbDeleteSpentOutput (id : OutputID) (d : walletDB) : walletDB :=
  with_spent (delete id (wd_SpentOutputs d)) d.

Definition dbPutConsensusChangeID (cc : ConsensusChangeID) (d : walletDB) : walletDB :=
  with_consensus cc (wd_ConsensusHeight d) d.
Definition dbPutConsensusHeight (height : BlockHeight) (d : walletDB) : walletDB :=
  with_consensus (wd_ConsensusChange d) height d.
Definition dbPutPrimarySeedProgress (progress : Z) (d : walletDB) : walletDB :=
  with_addresses (wd_UnlockConditions d) (Some progress) (wd_WatchedAddrs d) d.
Definition dbPutWatchedAddresses (addrs : list UnlockHash) (d : walletDB) : walletDB :=
  with_addresses (wd_UnlockConditions d) (wd_PrimarySeedProgress d) addrs d.

(** The indices of the transactions of an address. *)
Definition dbAddAddrTransaction (addr : UnlockHash) (txn : Z) (m : gmap UnlockHash (list Z))
  : gmap UnlockHash (list Z) :=
  let txns := default [] (m !! addr) in
  if bool_decide (txn ∈ txns) then m else <[addr := txns ++ [txn]]> m.

(** Miner fees have no address.  The order in which the addresses are visited
    does not matter: they are distinct. *)
Definition processed_addrs (pt : ProcessedTransaction) : gset UnlockHash :=
  list_to_set (pi_RelatedAddress <$> pt_Inputs pt) ∪
  list_to_set (po_RelatedAddress <$>
    filter (fun o => po_FundType o <> SpecifierMinerFee) (pt_Outputs pt)).

Definition dbAddProcessedTransactionAddrs (pt : ProcessedTransaction) (txn : Z)
    (m : gmap UnlockHash (list Z)) : gmap UnlockHash (list Z) :=
  fold_left (fun m addr => dbAddAddrTransaction addr txn m) (elements (processed_addrs pt)) m.

Definition dbAppendProcessedTransaction (pt : ProcessedTransaction) (d : walletDB) : walletDB :=
  let key := u64 (wd_Sequence d + 1) in
  with_processed (<[key := pt]> (wd_ProcessedTransactions d)) key
    (<[pt_TransactionID pt := key]> (wd_ProcessedTxnIndex d))
    (dbAddProcessedTransactionAddrs pt key (wd_AddrTransactions d)) d.

(** Nothing under the counter decodes to an error. *)
Definition dbGetLastProcessedTransaction (d : walletDB) : option ProcessedTransaction :=
  wd_ProcessedTransactions d !! wd_Sequence d.

Definition dbDeleteLastProcessedTransaction (d : walletDB) : option walletDB :=
  pt ← dbGetLastProcessedTransaction d;
  let seq := wd_Sequence d in
  Some (with_processed (delete seq (wd_ProcessedTransactions d)) (u64 (seq - 1))
          (delete (pt_TransactionID pt) (wd_ProcessedTxnIndex d)) (wd_AddrTransactions d) d).

Definition dbGetProcessedTransaction (d : walletDB) (index : Z) : option ProcessedTransaction :=
  wd_ProcessedTransactions d !! index.

Definition dbReset : walletDB :=
  mkWalletDB ∅ 0 ∅ ∅ ∅ ∅ ∅ ∅ ConsensusChangeBeginning 0 Currency.ZeroCurrency None [].

Section keys.
Context {B : Build} {P : Params} {C : Crypto} {E : SiaEncoding} {D : SiaDecoder}.
Context {S : Ed25519} {WP : WalletParams}.

(** The secret and the public key. *)
Definition GenerateKeyPairDeterministic (entropy : array 32) : SecretKey * PublicKey :=
  let '(epk, esk) := ed25519_GenerateKey entropy in (esk, epk).

Definition SignHash (data : Hash) (sk : SecretKey) : array 64 := ed25519_Sign sk (vec_to_list data).

Definition modify_wdb (f : walletDB -> walletDB) : M Wallet () := modify (fun w => with_wdb (f (w_db w)) w).

(** A commit that is followed by a new transaction leaves the contents; after a
    failed update it is refused. *)
Definition syncDB : M Wallet () :=
  w ← get; check (err_if (w_dbRollback w) (WalletError errRollbackRequested)).

Definition dbPutUnlockConditions (uc : UnlockConditions) (d : walletDB) : walletDB :=
  with_addresses (<[UnlockConditions_UnlockHash uc := uc]> (wd_UnlockConditions d))
    (wd_PrimarySeedProgress d) (wd_WatchedAddrs d) d.

Definition dbGetPrimarySeedProgress : M Wallet Z :=
  w ← get;
  match wd_PrimarySeedProgress (w_db w) with
  | Some progress => mret progress
  | None => throw (WalletError errDecode)
  end.

(** ** seed.go *)

Definition generateSpendableKey (seed : Seed) (index : Z) : spendableKey :=
  let '(sk, pk) := GenerateKeyPairDeterministic (HashAll [vec_to_list seed; WriteUint64 index]) in
  mkSpendableKey (mkUnlockConditions globalTimelock [Ed25519PublicKey pk] 1) [sk].

Definition key_hash (k : spendableKey) : UnlockHash := UnlockConditions_UnlockHash (sk_UnlockConditions k).

(** The goroutines fill disjoint parts of the slice. *)
Definition generateKeys (seed : Seed) (start n : Z) : list spendableKey :=
  (fun i => generateSpendableKey seed (u64 (start + i))) <$> seqZ 0 n.

Definition maxLookahead (start : Z) : Z :=
  u64 (start + lookaheadRescanThreshold + lookaheadBuffer + start / 10).

(** Indexed keys of the lookahead. *)
Definition add_lookahead (start : Z) (keys : list spendableKey) (m : gmap UnlockHash Z)
  : gmap UnlockHash Z :=
  fold_left (fun m ik => <[key_hash ik.2 := u64 (start + Z.of_nat ik.1)]> m) (imap pair keys) m.

Definition regenerateLookahead (start : Z) (w : Wallet) : Wallet :=
  let maxKeys := maxLookahead start in
  let existingKeys := Z.of_nat (size (w_lookahead w)) in
  let keys := generateKeys (w_primarySeed w) (u64 (start + existingKeys)) (u64 (maxKeys - existingKeys)) in
  with_keys (w_keys w) (add_lookahead (u64 (start + existingKeys)) keys (w_lookahead w)) w.

Definition integrateSeed (seed : Seed) (n : Z) (w : Wallet) : Wallet :=
  with_keys (fold_left (fun m k => <[key_hash k := k]> m) (generateKeys seed 0 n) (w_keys w))
    (w_lookahead w) w.

(** Keys become spendable and leave the lookahead. *)
Definition spend_keys (keys : list spendableKey) (w : Wallet) : Wallet :=
  with_keys (fold_left (fun m k => <[key_hash k := k]> m) keys (w_keys w))
    (fold_left (fun m k => delete (key_hash k) m) keys (w_lookahead w)) w.

Definition nextPrimarySeedAddresses (n : Z) : M Wallet (list UnlockConditions) :=
  w ← get;
  _ ← check (err_if (negb (w_unlocked w)) (WalletError ErrLockedWallet));
  progress ← dbGetPrimarySeedProgress;
  _ ← modify_wdb (dbPutPrimarySeedProgress (u64 (progress + n)));
  let spendableKeys := generateKeys (w_primarySeed w) progress n in
  _ ← modify (spend_keys spendableKeys);
  _ ← modify (regenerateLookahead (u64 (progress + n)));
  mret (sk_UnlockConditions <$> spendableKeys).

Definition nextPrimarySeedAddress : M Wallet UnlockConditions :=
  ucs ← nextPrimarySeedAddresses 1;
  match ucs with uc :: _ => mret uc | [] => panic "index out of range" end.

(** [errors.Compose] of the two errors: either makes the call fail. *)
Definition NextAddresses (n : Z) : M Wallet (list UnlockConditions) := fun w =>
  match nextPrimarySeedAddresses n w with
  | Ret ucs w' => (_ ← syncDB; mret ucs) w'
  | Err e w' => Err e w'
  | Panic msg => Panic msg
  end.

Definition isWalletAddress (w : Wallet) (uh : UnlockHash) : bool :=
  bool_decide (is_Some (w_keys w !! uh)) || bool_decide (uh ∈ w_watchedAddrs w).

(** ** modules/txtypes.go and modules/negotiate.go *)

(** The decoder of package encoding reads the fields in order. *)
Definition HostAnnouncement_decode : Dec (Specifier * bytes * SiaPublicKey) :=
  specifier ← ReadFull 16; addr ← ReadPrefixedBytes; pk ← SiaPublicKey_UnmarshalSia;
  mret (specifier, addr, pk).
Definition HostAnnouncement_encode (specifier : Specifier) (addr : bytes) (pk : SiaPublicKey) : bytes :=
  vec_to_list specifier ++ WritePrefixedBytes addr ++ SiaPublicKey_MarshalSia pk.

(** The address and the key, if there is no error. *)
Definition DecodeAnnouncement (fullAnnouncement : bytes) : option (bytes * SiaPublicKey) :=
  let '((specifier, addr, pk), d) :=
    HostAnnouncement_decode (NewDecoder fullAnnouncement (zlen fullAnnouncement * 3)) in
  if dec_Err d then None
  else if negb (bool_decide (specifier = PrefixHostAnnouncement)) then None
  else if negb (bool_decide (spk_Algorithm pk = SignatureEd25519)) then None
  else
    let '(sig, d) := ReadFull 64 d in
    if dec_Err d then None
    else
      let annHash := HashObject (HostAnnouncement_encode specifier addr pk) in
      match VerifyHash annHash (copy_array 32 (spk_Key pk)) sig with
      | Some _ => None
      | None => Some (addr, pk)
      end.

Definition first_contract_type (fcs : list FileContract) : TXType :=
  if existsb (fun fc => bool_decide (fc_FileMerkleRoot fc = zero_hash)) fcs
  then TXTypeFileContractNew else TXTypeFileContractRenew.

(** Only the first revision is looked at. *)
Definition first_revision_type (fcr : FileContractRevision) : TXType :=
  if (fcr_NewRevisionNumber fcr =? 2 ^ 64 - 1) && (zlen (fcr_NewMissedProofOutputs fcr) <? 3)
  then TXTypeContractRevisionForRenew else TXTypeContractRevisionRegular.

Definition TransactionType (t : Transaction) : TXType :=
  if zlen (t_SiacoinInputs t) + zlen (t_SiafundInputs t) + zlen (t_FileContracts t) +
     zlen (t_FileContractRevisions t) + zlen (t_StorageProofs t) =? 0 then TXTypeMiner
  else if 1 <? zlen (t_FileContracts t) + zlen (t_FileContractRevisions t) + zlen (t_StorageProofs t)
  then TXTypeMixed
  else if 0 <? zlen (t_FileContracts t) then first_contract_type (t_FileContracts t)
  else
    match t_FileContractRevisions t with
    | fcr :: _ => first_revision_type fcr
    | [] =>
        if 0 <? zlen (t_StorageProofs t) then TXTypeStorageProof
        else if zlen (t_MinerFees t) =? 0 then TXTypeSetup
        else if 0 <? zlen (t_SiafundInputs t) then TXTypeSPFMove
        else if (zlen (t_SiacoinOutputs t) =? 0) && (0 <? zlen (t_ArbitraryData t)) then
          if existsb (fun arb => bool_decide (is_Some (DecodeAnnouncement arb))) (t_ArbitraryData t)
          then TXTypeHostAnnouncement else TXTypeArbitraryData
        else TXTypeSCPMove
    end.

End keys.
