(* ===== verification/WalletUpdate.v ===== *)
(** * The wallet and the blockchain

    modules/wallet/update.go: the handlers of consensus changes and of changes
    of the transaction pool.  Failures of bolt apart, the only errors are a
    missing seed progress and a bucket of processed transactions that is empty
    where it must not be. *)

From S2P Require Import Prelude Bytes Interfaces Currency Types Params Encoding Transactions.
From S2P Require Import Decoding Signatures ConsensusSubscribe TransactionPool Wallet.

Open Scope Z_scope.

(** The threads a handler starts. *)
Inductive walletThread := threadedResetSubscriptions | threadedDefragWallet.
#[export] Instance walletThread_eq_dec : EqDecision walletThread.
Proof. solve_decision. Defined.

Section update.
Context {B : Build} {P : Params} {C : Crypto} {E : SiaEncoding} {D : SiaDecoder}.
Context {S : Ed25519} {WP : WalletParams}.

(** ** The lookahead *)

(** Whether a rescan is needed. *)
Definition advanceSeedLookahead (index : Z) : M Wallet bool :=
  progress ← dbGetPrimarySeedProgress;
  w ← get;
  let newProgress := u64 (index + 1) in
  let spendableKeys := generateKeys (w_primarySeed w) progress (u64 (newProgress - progress)) in
  _ ← modify (spend_keys spendableKeys);
  _ ← modify_wdb (dbPutPrimarySeedProgress newProgress);
  _ ← modify (regenerateLookahead newProgress);
  mret (lookaheadRescanThreshold <? zlen spendableKeys).

Definition largest_index (lookahead : gmap UnlockHash Z) (largest : Z) (uh : UnlockHash) : Z :=
  match lookahead !! uh with
  | Some index => if largest <? index then index else largest
  | None => largest
  end.

(** The addresses of the output diffs. *)
Definition change_hashes (cd : ConsensusChangeDiffs) : list UnlockHash :=
  ((fun x => sco_UnlockHash (scod_SiacoinOutput x)) <$> ccd_SiacoinOutputDiffs cd) ++
  ((fun x => sfo_UnlockHash (sfod_SiafundOutput x)) <$> ccd_SiafundOutputDiffs cd).

Definition updateLookahead (cc : ConsensusChange) : M Wallet bool :=
  w ← get;
  let largestIndex := fold_left (largest_index (w_lookahead w)) (change_hashes (cc_Diffs cc)) 0 in
  if 0 <? largestIndex then advanceSeedLookahead largestIndex else mret false.

(** ** The confirmed outputs *)

Definition confirm_scod (w : Wallet) (d : walletDB) (x : SiacoinOutputDiff) : walletDB :=
  if isWalletAddress w (sco_UnlockHash (scod_SiacoinOutput x)) then
    match scod_Direction x with
    | DiffApply => dbPutSiacoinOutput (scod_ID x) (scod_SiacoinOutput x) d
    | DiffRevert => dbDeleteSiacoinOutput (scod_ID x) d
    end
  else d.
Definition confirm_sfod (w : Wallet) (d : walletDB) (x : SiafundOutputDiff) : walletDB :=
  if isWalletAddress w (sfo_UnlockHash (sfod_SiafundOutput x)) then
    match sfod_Direction x with
    | DiffApply => dbPutSiafundOutput (sfod_ID x) (sfod_SiafundOutput x) d
    | DiffRevert => dbDeleteSiafundOutput (sfod_ID x) d
    end
  else d.
Definition confirm_sfpd (d : walletDB) (x : SiafundPoolDiff) : walletDB :=
  match sfpd_Direction x with
  | DiffApply => dbPutSiafundPool (sfpd_Adjusted x) d
  | DiffRevert => dbPutSiafundPool (sfpd_Previous x) d
  end.

Definition updateConfirmedSet (cc : ConsensusChange) : M Wallet () :=
  modify (fun w =>
    let d := fold_left (confirm_scod w) (ccd_SiacoinOutputDiffs (cc_Diffs cc)) (w_db w) in
    let d := fold_left (confirm_sfod w) (ccd_SiafundOutputDiffs (cc_Diffs cc)) d in
    with_wdb (fold_left confirm_sfpd (ccd_SiafundPoolDiffs (cc_Diffs cc)) d) w).

(** ** The history *)

Definition delete_last : M Wallet () :=
  w ← get;
  match dbDeleteLastProcessedTransaction (w_db w) with
  | Some d => modify (with_wdb d)
  | None => throw (WalletError errEmptyBucket)
  end.

(** The transactions of a block, last to first. *)
Fixpoint revert_txns (txids : list TransactionID) : M Wallet () :=
  match txids with
  | [] => mret ()
  | txid :: txids =>
      w ← get;
      match dbGetLastProcessedTransaction (w_db w) with
      | None => mret ()
      | Some pt =>
          if bool_decide (txid = pt_TransactionID pt) then _ ← delete_last; revert_txns txids
          else revert_txns txids
      end
  end.

(** The loop over the miner payouts ends with the first match, and every round
    sees the same transaction until then. *)
Fixpoint revert_payouts (id : TransactionID) (payouts : list SiacoinOutput) : M Wallet () :=
  match payouts with
  | [] => mret ()
  | _ :: payouts =>
      w ← get;
      match dbGetLastProcessedTransaction (w_db w) with
      | None => mret ()
      | Some pt =>
          if bool_decide (id = pt_TransactionID pt) then delete_last else revert_payouts id payouts
      end
  end.

Definition revert_wallet_block (block : Block) : M Wallet () :=
  _ ← revert_txns (reverse (Transaction_ID <$> b_Transactions block));
  _ ← revert_payouts (Block_ID block) (b_MinerPayouts block);
  if bool_decide (Block_ID block <> Block_ID GenesisBlock)
  then modify_wdb (fun d => dbPutConsensusHeight (u64 (wd_ConsensusHeight d - 1)) d)
  else mret ().

Definition revertHistory (reverted : list Block) : M Wallet () := for_each revert_wallet_block reverted.

Definition computeSpentSiacoinOutputSet (diffs : list SiacoinOutputDiff)
  : gmap SiacoinOutputID SiacoinOutput :=
  fold_left (fun m x => match scod_Direction x with
                        | DiffRevert => <[scod_ID x := scod_SiacoinOutput x]> m
                        | DiffApply => m
                        end) diffs ∅.
Definition computeSpentSiafundOutputSet (diffs : list SiafundOutputDiff)
  : gmap SiafundOutputID SiafundOutput :=
  fold_left (fun m x => match sfod_Direction x with
                        | DiffRevert => <[sfod_ID x := sfod_SiafundOutput x]> m
                        | DiffApply => m
                        end) diffs ∅.

(** A lookup in a map of outputs gives the zero value if there is none. *)
Definition sc_value (m : gmap SiacoinOutputID SiacoinOutput) (id : SiacoinOutputID) : Currency :=
  match m !! id with Some sco => sco_Value sco | None => Currency.ZeroCurrency end.
Definition sf_output (m : gmap SiafundOutputID SiafundOutput) (id : SiafundOutputID) : SiafundOutput :=
  default (mkSiafundOutput Currency.ZeroCurrency zero_hash Currency.ZeroCurrency) (m !! id).

Definition input_hash (sci : SiacoinInput) : UnlockHash := UnlockConditions_UnlockHash (sci_UnlockConditions sci).
Definition sfi_hash (sfi : SiafundInput) : UnlockHash := UnlockConditions_UnlockHash (sfi_UnlockConditions sfi).

(** The miner payouts of a block as one transaction. *)
Definition miner_pt (w : Wallet) (block : Block) (height : BlockHeight) : ProcessedTransaction :=
  mkProcessedTransaction empty_transaction (Block_ID block) height (b_Timestamp block) []
    (imap (fun i mp =>
       mkProcessedOutput (MinerPayoutID block (Z.of_nat i)) SpecifierMinerPayout
         (u64 (height + MaturityDelay)) (isWalletAddress w (sco_UnlockHash mp)) (sco_UnlockHash mp)
         (sco_Value mp)) (b_MinerPayouts block))
    TXTypeSetup.

Definition relevant_payouts (w : Wallet) (block : Block) : bool :=
  existsb (fun mp => isWalletAddress w (sco_UnlockHash mp)) (b_MinerPayouts block).

(** The addresses that make a transaction relevant. *)
Definition txn_hashes (txn : Transaction) : list UnlockHash :=
  (input_hash <$> t_SiacoinInputs txn) ++ (sco_UnlockHash <$> t_SiacoinOutputs txn) ++
  (sfi_hash <$> t_SiafundInputs txn) ++ (sfo_UnlockHash <$> t_SiafundOutputs txn) ++
  (t_FileContracts txn ≫= fun fc =>
     (sco_UnlockHash <$> fc_ValidProofOutputs fc) ++ (sco_UnlockHash <$> fc_MissedProofOutputs fc)) ++
  (t_FileContractRevisions txn ≫= fun fcr =>
     (sco_UnlockHash <$> fcr_NewValidProofOutputs fcr) ++ (sco_UnlockHash <$> fcr_NewMissedProofOutputs fcr)).
Definition relevant_txn (w : Wallet) (txn : Transaction) : bool :=
  existsb (isWalletAddress w) (txn_hashes txn).

(** The outputs a contract or a revision may pay. *)
Definition proof_outputs (w : Wallet) (fcid : FileContractID) (proofStatus : bool) (windowEnd : BlockHeight)
    (outputs : list SiacoinOutput) : list ProcessedOutput :=
  imap (fun j o =>
    mkProcessedOutput (StorageProofOutputID fcid proofStatus (Z.of_nat j)) SpecifierSiacoinOutput
      (u64 (windowEnd + MaturityDelay)) (isWalletAddress w (sco_UnlockHash o)) (sco_UnlockHash o)
      (sco_Value o)) outputs.

(** A siafund input and its claim.  A claim start above the pool makes [Sub]
    report a negative currency, which panics in a debug build. *)
Definition process_sfi (w : Wallet) (spent : gmap SiafundOutputID SiafundOutput) (height : BlockHeight)
    (sfi : SiafundInput) : M Wallet (ProcessedInput * ProcessedOutput) :=
  let sfo := sf_output spent (sfi_ParentID sfi) in
  let siafundPool := wd_SiafundPool (w_db w) in
  _ ← panic_if (DEBUG && Currency.Sub_critical siafundPool (sfo_ClaimStart sfo)) "negative currency";
  mret
    (mkProcessedInput (sfi_ParentID sfi) SpecifierSiafundInput (isWalletAddress w (sfi_hash sfi))
       (sfi_hash sfi) (sfo_Value sfo),
     mkProcessedOutput (sfi_ParentID sfi) SpecifierClaimOutput (u64 (height + MaturityDelay))
       (isWalletAddress w (sfi_hash sfi)) (sfi_ClaimUnlockHash sfi)
       (Currency.Mul (Currency.Sub siafundPool (sfo_ClaimStart sfo)) (sfo_Value sfo))).

Definition process_txn (w : Wallet) (spentSC : gmap SiacoinOutputID SiacoinOutput)
    (spentSF : gmap SiafundOutputID SiafundOutput) (block : Block) (height : BlockHeight)
    (txn : Transaction) : M Wallet ProcessedTransaction :=
  sfis ← for_fold (fun _ sfi acc => x ← process_sfi w spentSF height sfi; mret (acc ++ [x]))
           0 (t_SiafundInputs txn) [];
  mret (mkProcessedTransaction txn (Transaction_ID txn) height (b_Timestamp block)
    (((fun sci =>
        mkProcessedInput (sci_ParentID sci) SpecifierSiacoinInput (isWalletAddress w (input_hash sci))
          (input_hash sci) (sc_value spentSC (sci_ParentID sci))) <$> t_SiacoinInputs txn) ++ sfis.*1)
    (imap (fun i sco =>
        mkProcessedOutput (Transaction_SiacoinOutputID txn (Z.of_nat i)) SpecifierSiacoinOutput height
          (isWalletAddress w (sco_UnlockHash sco)) (sco_UnlockHash sco) (sco_Value sco))
        (t_SiacoinOutputs txn) ++
     sfis.*2 ++
     imap (fun i sfo =>
        mkProcessedOutput (Transaction_SiafundOutputID txn (Z.of_nat i)) SpecifierSiafundOutput height
          (isWalletAddress w (sfo_UnlockHash sfo)) (sfo_UnlockHash sfo) (sfo_Value sfo))
        (t_SiafundOutputs txn) ++
     ((fun fee =>
        mkProcessedOutput zero_hash SpecifierMinerFee (u64 (height + MaturityDelay)) false zero_hash fee) <$>
        t_MinerFees txn) ++
     concat (imap (fun i fc =>
        let fcid := Transaction_FileContractID txn (Z.of_nat i) in
        proof_outputs w fcid true (fc_WindowEnd fc) (fc_ValidProofOutputs fc) ++
        proof_outputs w fcid false (fc_WindowEnd fc) (fc_MissedProofOutputs fc)) (t_FileContracts txn)) ++
     (t_FileContractRevisions txn ≫= fun fcr =>
        proof_outputs w (fcr_ParentID fcr) true (fcr_NewWindowEnd fcr) (fcr_NewValidProofOutputs fcr) ++
        proof_outputs w (fcr_ParentID fcr) false (fcr_NewWindowEnd fcr) (fcr_NewMissedProofOutputs fcr)))
    (TransactionType txn)).

Definition computeProcessedTransactionsFromBlock (block : Block)
    (spentSC : gmap SiacoinOutputID SiacoinOutput) (spentSF : gmap SiafundOutputID SiafundOutput)
    (height : BlockHeight) : M Wallet (list ProcessedTransaction) :=
  w ← get;
  let pts := if relevant_payouts w block then [miner_pt w block height] else [] in
  for_fold (fun _ txn pts =>
    if relevant_txn w txn then
      pt ← process_txn w spentSC spentSF block height txn; mret (pts ++ [pt])
    else mret pts) 0 (b_Transactions block) pts.

Definition apply_wallet_block (spentSC : gmap SiacoinOutputID SiacoinOutput)
    (spentSF : gmap SiafundOutputID SiafundOutput) (block : Block) : M Wallet () :=
  w ← get;
  let consensusHeight :=
    if bool_decide (Block_ID block <> Block_ID GenesisBlock)
    then u64 (wd_ConsensusHeight (w_db w) + 1) else wd_ConsensusHeight (w_db w) in
  _ ← modify_wdb (dbPutConsensusHeight consensusHeight);
  pts ← computeProcessedTransactionsFromBlock block spentSC spentSF consensusHeight;
  for_each (fun pt => modify_wdb (dbAppendProcessedTransaction pt)) pts.

Definition applyHistory (cc : ConsensusChange) : M Wallet () :=
  let spentSC := computeSpentSiacoinOutputSet (ccd_SiacoinOutputDiffs (cc_Diffs cc)) in
  let spentSF := computeSpentSiafundOutputSet (ccd_SiafundOutputDiffs (cc_Diffs cc)) in
  for_each (apply_wallet_block spentSC spentSF) (cc_AppliedBlocks cc).

(** ** The handlers *)

(** An error is reported by [log.Severe], which panics in a debug build, and the
    next commit is refused. *)
Definition or_rollback {A} (m : M Wallet A) (a : A) : M Wallet A := fun w =>
  match m w with
  | Ret x w' => Ret x w'
  | Err _ w' => (_ ← panic_if DEBUG "Severe error";
                 _ ← modify (fun w => with_flags true (w_defragDisabled w) w); mret a) w'
  | Panic msg => Panic msg
  end.

Definition Wallet_ProcessConsensusChange (cc : ConsensusChange) : M Wallet (list walletThread) :=
  needRescan ← or_rollback (updateLookahead cc) false;
  _ ← or_rollback (updateConfirmedSet cc) ();
  _ ← or_rollback (revertHistory (cc_RevertedBlocks cc)) ();
  _ ← or_rollback (applyHistory cc) ();
  _ ← modify_wdb (dbPutConsensusChangeID (cc_ID cc));
  mret ((if needRescan : bool then [threadedResetSubscriptions] else []) ++
        (if cc_Synced cc then [threadedDefragWallet] else [])).

(** The transactions of the sets that left the pool. *)
Definition dropped_txids (sets : gmap Hash (list TransactionID)) (reverted : list Hash)
  : gset TransactionID * gmap Hash (list TransactionID) :=
  fold_left (fun acc id =>
    (acc.1 ∪ list_to_set (default [] (acc.2 !! id)), delete id acc.2)) reverted (∅, sets).

Definition unconfirmed_relevant (w : Wallet) (txn : Transaction) : bool :=
  existsb (isWalletAddress w) ((input_hash <$> t_SiacoinInputs txn) ++ (sco_UnlockHash <$> t_SiacoinOutputs txn)).

Definition unconfirmed_pt (w : Wallet) (spentSC : gmap SiacoinOutputID SiacoinOutput)
    (txid : TransactionID) (txn : Transaction) : ProcessedTransaction :=
  mkProcessedTransaction txn txid (2 ^ 64 - 1) (2 ^ 64 - 1)
    ((fun sci =>
        mkProcessedInput (sci_ParentID sci) SpecifierSiacoinInput (isWalletAddress w (input_hash sci))
          (input_hash sci) (sc_value spentSC (sci_ParentID sci))) <$> t_SiacoinInputs txn)
    (imap (fun i sco =>
        mkProcessedOutput (Transaction_SiacoinOutputID txn (Z.of_nat i)) SpecifierSiacoinOutput (2 ^ 64 - 1)
          (isWalletAddress w (sco_UnlockHash sco)) (sco_UnlockHash sco) (sco_Value sco))
        (t_SiacoinOutputs txn) ++
     ((fun fee => mkProcessedOutput zero_hash SpecifierMinerFee 0 false zero_hash fee) <$> t_MinerFees txn))
    TXTypeSetup.

(** [Change] is never missing in what the pool sends; a missing one is
    dereferenced.  An ID is looked up for every relevant transaction. *)
Definition add_unconfirmed_set (ut : UnconfirmedTransactionSet) : M Wallet () :=
  match ut_Change ut with
  | None => panic "nil pointer dereference"
  | Some change =>
      _ ← modify (fun w =>
            with_unconfirmed (<[ut_ID ut := ut_IDs ut]> (w_unconfirmedSets w))
              (w_unconfirmedProcessedTransactions w) w);
      let spentSC := computeSpentSiacoinOutputSet (ccd_SiacoinOutputDiffs change) in
      for_fold (fun i txn _ =>
        w ← get;
        if unconfirmed_relevant w txn then
          match ut_IDs ut !! Z.to_nat i with
          | None => panic "index out of range"
          | Some txid =>
              modify (fun w =>
                with_unconfirmed (w_unconfirmedSets w)
                  (w_unconfirmedProcessedTransactions w ++ [unconfirmed_pt w spentSC txid txn]) w)
          end
        else mret ()) 0 (ut_Transactions ut) ()
  end.

Definition ReceiveUpdatedUnconfirmedTransactions (diff : TransactionPoolDiff) : M Wallet () :=
  _ ← modify (fun w =>
        let '(dropped, sets) := dropped_txids (w_unconfirmedSets w) (tpd_RevertedTransactions diff) in
        with_unconfirmed sets
          (filter (fun pt => pt_TransactionID pt ∉ dropped) (w_unconfirmedProcessedTransactions w)) w);
  for_each add_unconfirmed_set (tpd_AppliedTransactions diff).

End update.
