(* ===== verification/WalletBuilder.v ===== *)
(** * Building transactions

    modules/wallet/transactionbuilder.go, money.go and defrag.go: funding a
    transaction from the wallet's outputs, signing it, and sending coins and
    funds.  [cursor] is the order in which bolt visits a bucket, [sort_outputs]
    what [sort.Sort(sort.Reverse(so))] makes of the outputs; the lock is held
    where the code holds it.  The pool's fees are an argument, and so is the
    pool's method that takes a transaction set. *)

From S2P Require Import Prelude Bytes Interfaces Currency Types Params Encoding Transactions.
From S2P Require Import Decoding Signatures ConsensusDB ConsensusSubscribe TransactionPool TransactionPoolUpdate.
From S2P Require Import Wallet WalletUpdate.

Open Scope Z_scope.

(** ** Data *)

Record transactionBuilder := mkTransactionBuilder {
  tb_parents : list Transaction;
  tb_signed : bool;
  tb_transaction : Transaction;
  tb_newParents : list Z;
  tb_siacoinInputs : list Z;
  tb_siafundInputs : list Z;
  tb_transactionSignatures : list Z
}.

(** A builder and its wallet. *)
Record building := mkBuilding { bd_wallet : Wallet; bd_tb : transactionBuilder }.

Definition on_wallet {A} (m : M Wallet A) : M building A := fun s =>
  match m (bd_wallet s) with
  | Ret a w => Ret a (mkBuilding w (bd_tb s))
  | Err e w => Err e (mkBuilding w (bd_tb s))
  | Panic msg => Panic msg
  end.
Definition modify_tb (f : transactionBuilder -> transactionBuilder) : M building () :=
  modify (fun s => mkBuilding (bd_wallet s) (f (bd_tb s))).

Definition with_txn t (tb : transactionBuilder) : transactionBuilder :=
  mkTransactionBuilder (tb_parents tb) (tb_signed tb) t (tb_newParents tb) (tb_siacoinInputs tb)
    (tb_siafundInputs tb) (tb_transactionSignatures tb).
Definition with_inputs scis sfis (tb : transactionBuilder) : transactionBuilder :=
  mkTransactionBuilder (tb_parents tb) (tb_signed tb) (tb_transaction tb) (tb_newParents tb) scis sfis
    (tb_transactionSignatures tb).
Definition with_parents parents new (tb : transactionBuilder) : transactionBuilder :=
  mkTransactionBuilder parents (tb_signed tb) (tb_transaction tb) new (tb_siacoinInputs tb)
    (tb_siafundInputs tb) (tb_transactionSignatures tb).
Definition with_sigs signed sigs (tb : transactionBuilder) : transactionBuilder :=
  mkTransactionBuilder (tb_parents tb) signed (tb_transaction tb) (tb_newParents tb)
    (tb_siacoinInputs tb) (tb_siafundInputs tb) sigs.

(** The fields of a transaction grow. *)
Definition append_to (scis : list SiacoinInput) (scos : list SiacoinOutput) (fcs : list FileContract)
    (fcrs : list FileContractRevision) (sps : list StorageProof) (sfis : list SiafundInput)
    (sfos : list SiafundOutput) (fees : list Currency) (arb : list bytes)
    (sigs : list TransactionSignature) (t : Transaction) : Transaction :=
  mkTransaction (t_SiacoinInputs t ++ scis) (t_SiacoinOutputs t ++ scos) (t_FileContracts t ++ fcs)
    (t_FileContractRevisions t ++ fcrs) (t_StorageProofs t ++ sps) (t_SiafundInputs t ++ sfis)
    (t_SiafundOutputs t ++ sfos) (t_MinerFees t ++ fees) (t_ArbitraryData t ++ arb)
    (t_TransactionSignatures t ++ sigs).
Definition append_sig (sig : TransactionSignature) : Transaction -> Transaction :=
  append_to [] [] [] [] [] [] [] [] [] [sig].

(** [txn.TransactionSignatures[i].Signature = sig]. *)
Definition set_signature (i : nat) (sig : bytes) (t : Transaction) : Transaction :=
  mkTransaction (t_SiacoinInputs t) (t_SiacoinOutputs t) (t_FileContracts t)
    (t_FileContractRevisions t) (t_StorageProofs t) (t_SiafundInputs t) (t_SiafundOutputs t)
    (t_MinerFees t) (t_ArbitraryData t)
    (alter (fun s => mkTransactionSignature (ts_ParentID s) (ts_PublicKeyIndex s) (ts_Timelock s)
                       (ts_CoveredFields s) sig) i (t_TransactionSignatures t)).

Definition FullCoveredFields : CoveredFields := mkCoveredFields true [] [] [] [] [] [] [] [] [] [].

Definition estimatedTransactionSize : Z := 750.
Definition defragBatchSize : nat := 35.
Definition defragStartIndex : nat := 10.
Definition defragThreshold : nat := 50.

(** [wallet.DustThreshold], from the lower fee of the pool. *)
Definition DustThreshold (fees : Currency * Currency) : Currency := Currency.Mul64 fees.1 3.

Section builder.
Context {B : Build} {P : Params} {C : Crypto} {E : SiaEncoding} {D : SiaDecoder}.
Context {S : Ed25519} {WP : WalletParams}.
Context (cursor : forall V : Type, gmap Hash V -> list (Hash * V)).
Context (sort_outputs : list (SiacoinOutputID * SiacoinOutput) -> list (SiacoinOutputID * SiacoinOutput)).

(** ** Signing *)

(** The first secret key that belongs to a public key. *)
Definition find_secret (pk : SiaPublicKey) (keys : list SecretKey) : option SecretKey :=
  head (filter (fun sk => spk_Key pk = vec_to_list (SecretKey_PublicKey sk)) keys).

(** The loop over the public keys; [None] is a signature hash that indexes out
    of range. *)
Fixpoint add_signatures (cf : CoveredFields) (required : Z) (parentID : Hash) (secrets : list SecretKey)
    (height : BlockHeight) (pks : list SiaPublicKey) (i total : Z) (txn : Transaction) (indices : list Z)
  : option (Transaction * list Z) :=
  match pks with
  | [] => Some (txn, indices)
  | pk :: pks =>
      match find_secret pk secrets with
      | Some sk =>
          let sigIndex := zlen (t_TransactionSignatures txn) in
          let txn := append_sig (mkTransactionSignature parentID i 0 cf []) txn in
          sigHash ← SigHash txn sigIndex height;
          let txn := set_signature (Z.to_nat sigIndex) (vec_to_list (SignHash sigHash sk)) txn in
          let indices := indices ++ [sigIndex] in
          if u64 (total + 1) =? required then Some (txn, indices)
          else add_signatures cf required parentID secrets height pks (i + 1) (u64 (total + 1)) txn indices
      | None =>
          if total =? required then Some (txn, indices)
          else add_signatures cf required parentID secrets height pks (i + 1) total txn indices
      end
  end.
Definition addSignatures (txn : Transaction) (cf : CoveredFields) (uc : UnlockConditions) (parentID : Hash)
    (spendKey : spendableKey) (height : BlockHeight) : option (Transaction * list Z) :=
  add_signatures cf (uc_SignaturesRequired uc) parentID (sk_SecretKeys spendKey) height
    (uc_PublicKeys uc) 0 0 txn [].

(** A missing key is the zero value. *)
Definition key_of (w : Wallet) (uh : UnlockHash) : spendableKey := default zero_key (w_keys w !! uh).

(** Signing inputs of a transaction of the wallet's own. *)
Fixpoint sign_all (w : Wallet) (height : BlockHeight) (inputs : list (Hash * UnlockConditions))
    (txn : Transaction) : option Transaction :=
  match inputs with
  | [] => Some txn
  | (parentID, uc) :: inputs =>
      '(txn, _) ← addSignatures txn FullCoveredFields uc parentID
                    (key_of w (UnlockConditions_UnlockHash uc)) height;
      sign_all w height inputs txn
  end.

Definition or_range {S' A} (x : option A) : M S' A :=
  match x with Some a => mret a | None => panic "index out of range" end.

(** ** Funding *)

Definition checkOutput (w : Wallet) (currentHeight : BlockHeight) (id : SiacoinOutputID)
    (output : SiacoinOutput) (dustThreshold : Currency) : option wallet_error :=
  if Currency.Cmp (sco_Value output) dustThreshold <? 0 then Some errDustOutput
  else
    match dbGetSpentOutput id (w_db w) with
    | Some spendHeight =>
        if currentHeight <? u64 (spendHeight + RespendTimeout) then Some errSpendHeightTooHigh
        else if currentHeight <? uc_Timelock (sk_UnlockConditions (key_of w (sco_UnlockHash output)))
        then Some errOutputTimelock else None
    | None =>
        if currentHeight <? uc_Timelock (sk_UnlockConditions (key_of w (sco_UnlockHash output)))
        then Some errOutputTimelock else None
    end.

(** The unconfirmed outputs of the wallet. *)
Definition unconfirmed_outputs (w : Wallet) : list (SiacoinOutputID * SiacoinOutput) :=
  w_unconfirmedProcessedTransactions w ≫= fun upt =>
    filter (fun x => is_Some (w_keys w !! sco_UnlockHash x.2))
      (imap (fun i sco => (Transaction_SiacoinOutputID (pt_Transaction upt) (Z.of_nat i), sco))
         (t_SiacoinOutputs (pt_Transaction upt))).

(** The outputs that are spent, what they are worth, and what the wallet has
    including recently spent outputs. *)
Fixpoint select_outputs (w : Wallet) (height : BlockHeight) (dustThreshold amount : Currency)
    (so : list (SiacoinOutputID * SiacoinOutput)) (fund potentialFund : Currency)
  : list (SiacoinOutputID * SiacoinOutput) * Currency * Currency :=
  match so with
  | [] => ([], fund, potentialFund)
  | (scoid, sco) :: so =>
      match checkOutput w height scoid sco dustThreshold with
      | Some e =>
          select_outputs w height dustThreshold amount so fund
            (if bool_decide (e = errSpendHeightTooHigh) then Currency.Add potentialFund (sco_Value sco)
             else potentialFund)
      | None =>
          let fund := Currency.Add fund (sco_Value sco) in
          let potentialFund := Currency.Add potentialFund (sco_Value sco) in
          if 0 <=? Currency.Cmp fund amount then ([(scoid, sco)], fund, potentialFund)
          else
            let '(chosen, fund, potentialFund) :=
              select_outputs w height dustThreshold amount so fund potentialFund in
            ((scoid, sco) :: chosen, fund, potentialFund)
      end
  end.

Definition check_fund (amount fund potentialFund : Currency) : err :=
  err_if ((0 <=? Currency.Cmp potentialFund amount) && (Currency.Cmp fund amount <? 0))
    (WalletError ErrIncompleteTransactions) ;;?
  err_if (Currency.Cmp fund amount <? 0) (WalletError ErrLowBalance).

(** The parent that has an output of exactly [amount], unsigned. *)
Definition parent_txn (w : Wallet) (amount fund : Currency) (parentUC refundUC : UnlockConditions)
    (chosen : list (SiacoinOutputID * SiacoinOutput)) : Transaction :=
  append_to
    ((fun x => mkSiacoinInput x.1 (sk_UnlockConditions (key_of w (sco_UnlockHash x.2)))) <$> chosen)
    (mkSiacoinOutput amount (UnlockConditions_UnlockHash parentUC) ::
     (if Currency.Equals amount fund then []
      else [mkSiacoinOutput (Currency.Sub fund amount) (UnlockConditions_UnlockHash refundUC)]))
    [] [] [] [] [] [] [] [] empty_transaction.

Definition spend_ids (ids : list OutputID) (height : BlockHeight) (d : walletDB) : walletDB :=
  fold_left (fun d id => dbPutSpentOutput id height d) ids d.

(** The parent goes in front and its first output becomes an input. *)
Definition add_funding (parentTxn : Transaction) (parentUC : UnlockConditions) (tb : transactionBuilder)
  : transactionBuilder :=
  let newInput := mkSiacoinInput (Transaction_SiacoinOutputID parentTxn 0) parentUC in
  mkTransactionBuilder (tb_parents tb ++ [parentTxn]) (tb_signed tb)
    (append_to [newInput] [] [] [] [] [] [] [] [] [] (tb_transaction tb))
    (tb_newParents tb ++ [zlen (tb_parents tb)])
    (tb_siacoinInputs tb ++ [zlen (t_SiacoinInputs (tb_transaction tb))])
    (tb_siafundInputs tb) (tb_transactionSignatures tb).

Definition FundSiacoinsFixedAddress (fees : Currency * Currency) (amount : Currency)
    (parentUC refundUC : UnlockConditions) : M building () :=
  s ← get;
  let w := bd_wallet s in
  let consensusHeight := wd_ConsensusHeight (w_db w) in
  let so := sort_outputs (cursor _ (wd_SiacoinOutputs (w_db w)) ++ unconfirmed_outputs w) in
  let '(chosen, fund, potentialFund) :=
    select_outputs w consensusHeight (DustThreshold fees) amount so
      Currency.ZeroCurrency Currency.ZeroCurrency in
  _ ← check (check_fund amount fund potentialFund);
  let unsigned := parent_txn w amount fund parentUC refundUC chosen in
  parentTxn ← or_range (sign_all w consensusHeight
    ((fun sci => (sci_ParentID sci, sci_UnlockConditions sci)) <$> t_SiacoinInputs unsigned) unsigned);
  _ ← on_wallet (modify_wdb (dbPutSpentOutput (Transaction_SiacoinOutputID parentTxn 0) consensusHeight));
  _ ← modify_tb (add_funding parentTxn parentUC);
  on_wallet (modify_wdb (spend_ids chosen.*1 consensusHeight)).

Definition FundSiacoins (fees : Currency * Currency) (amount : Currency) : M building () :=
  parentUC ← on_wallet nextPrimarySeedAddress;
  refundUC ← on_wallet nextPrimarySeedAddress;
  FundSiacoinsFixedAddress fees amount parentUC refundUC.

(** The siafund outputs in the order of the bucket; every input gets an address
    for its claim. *)
Fixpoint select_siafunds (height : BlockHeight) (amount : Currency)
    (sfos : list (SiafundOutputID * SiafundOutput)) (fund potentialFund : Currency)
  : M Wallet (list SiafundInput * Currency * Currency) :=
  match sfos with
  | [] => mret ([], fund, potentialFund)
  | (sfoid, sfo) :: sfos =>
      w ← get;
      let spendHeight := default 0 (dbGetSpentOutput sfoid (w_db w)) in
      let allowedHeight := if height <? RespendTimeout then 0 else height - RespendTimeout in
      if allowedHeight <? spendHeight
      then select_siafunds height amount sfos fund (Currency.Add potentialFund (sfo_Value sfo))
      else
        let uc := sk_UnlockConditions (key_of w (sfo_UnlockHash sfo)) in
        if height <? uc_Timelock uc then select_siafunds height amount sfos fund potentialFund
        else
          claimUC ← nextPrimarySeedAddress;
          let sfi := mkSiafundInput sfoid uc (UnlockConditions_UnlockHash claimUC) in
          let fund := Currency.Add fund (sfo_Value sfo) in
          let potentialFund := Currency.Add potentialFund (sfo_Value sfo) in
          if 0 <=? Currency.Cmp fund amount then mret ([sfi], fund, potentialFund)
          else
            '(sfis, fund, potentialFund) ← select_siafunds height amount sfos fund potentialFund;
            mret (sfi :: sfis, fund, potentialFund)
  end.

Definition refund_funds (amount fund : Currency) : M Wallet (list SiafundOutput) :=
  if Currency.Equals amount fund then mret []
  else
    refundUC ← nextPrimarySeedAddress;
    mret [mkSiafundOutput (Currency.Sub fund amount) (UnlockConditions_UnlockHash refundUC)
            Currency.ZeroCurrency].

Definition add_siafund_funding (parentTxn : Transaction) (parentUC : UnlockConditions)
    (claim : UnlockHash) (tb : transactionBuilder) : transactionBuilder :=
  let newInput := mkSiafundInput (Transaction_SiafundOutputID parentTxn 0) parentUC claim in
  mkTransactionBuilder (tb_parents tb ++ [parentTxn]) (tb_signed tb)
    (append_to [] [] [] [] [] [newInput] [] [] [] [] (tb_transaction tb))
    (tb_newParents tb ++ [zlen (tb_parents tb)]) (tb_siacoinInputs tb)
    (tb_siafundInputs tb ++ [zlen (t_SiafundInputs (tb_transaction tb))]) (tb_transactionSignatures tb).

Definition FundSiafunds (amount : Currency) : M building () :=
  s ← get;
  let consensusHeight := wd_ConsensusHeight (w_db (bd_wallet s)) in
  '(sfis, fund, potentialFund) ← on_wallet
    (select_siafunds consensusHeight amount (cursor _ (wd_SiafundOutputs (w_db (bd_wallet s))))
       Currency.ZeroCurrency Currency.ZeroCurrency);
  _ ← check (check_fund amount fund potentialFund);
  parentUC ← on_wallet nextPrimarySeedAddress;
  refund ← on_wallet (refund_funds amount fund);
  let unsigned :=
    append_to [] [] [] [] [] sfis
      (mkSiafundOutput amount (UnlockConditions_UnlockHash parentUC) Currency.ZeroCurrency :: refund)
      [] [] [] empty_transaction in
  s ← get;
  parentTxn ← or_range (sign_all (bd_wallet s) consensusHeight
    ((fun sfi => (sfi_ParentID sfi, sfi_UnlockConditions sfi)) <$> sfis) unsigned);
  claimUC ← on_wallet nextPrimarySeedAddress;
  _ ← modify_tb (add_siafund_funding parentTxn parentUC (UnlockConditions_UnlockHash claimUC));
  on_wallet (modify_wdb (spend_ids (sfi_ParentID <$> sfis) consensusHeight)).

(** ** The other operations of a builder *)

(** The deep copy decodes what it encodes, and so has the same value. *)
Definition registerTransaction (t : Transaction) (parents : list Transaction) : transactionBuilder :=
  mkTransactionBuilder parents false t [] [] [] [].
Definition StartTransaction : transactionBuilder := registerTransaction empty_transaction [].

(** The builder that is registered, with the other fields copied over. *)
Definition Builder_Copy (tb : transactionBuilder) : transactionBuilder :=
  let copyBuilder := registerTransaction (tb_transaction tb) (tb_parents tb) in
  with_sigs (tb_signed tb) (tb_transactionSignatures tb)
    (with_inputs (tb_siacoinInputs tb) (tb_siafundInputs tb)
       (with_parents (tb_parents copyBuilder) (tb_newParents tb) copyBuilder)).

Definition managedCanSpendUnlockHash (w : Wallet) (uh : UnlockHash) : bool :=
  bool_decide (is_Some (w_keys w !! uh)).

(** A siafund input that is not marked replaces the siacoin inputs of the
    builder, those just marked included, by its siafund inputs and itself.  The
    new slice may share its array with the siafund inputs; a later append to
    these is not modelled. *)
Definition mark_siacoin (w : Wallet) (acc : transactionBuilder * bool) (i : Z) (sci : SiacoinInput)
  : transactionBuilder * bool :=
  let '(tb, marked) := acc in
  if managedCanSpendUnlockHash w (input_hash sci) && negb (bool_decide (i ∈ tb_siacoinInputs tb))
  then (with_inputs (tb_siacoinInputs tb ++ [i]) (tb_siafundInputs tb) tb, true) else acc.
Definition mark_siafund (w : Wallet) (acc : transactionBuilder * bool) (i : Z) (sfi : SiafundInput)
  : transactionBuilder * bool :=
  let '(tb, marked) := acc in
  if managedCanSpendUnlockHash w (sfi_hash sfi) && negb (bool_decide (i ∈ tb_siafundInputs tb))
  then (with_inputs (tb_siafundInputs tb ++ [i]) (tb_siafundInputs tb) tb, true) else acc.
Definition MarkWalletInputs : M building bool :=
  s ← get;
  let w := bd_wallet s in
  let t := tb_transaction (bd_tb s) in
  let acc := fold_left (fun acc ix => mark_siacoin w acc (Z.of_nat ix.1) ix.2)
               (imap pair (t_SiacoinInputs t)) (bd_tb s, false) in
  let '(tb, marked) := fold_left (fun acc ix => mark_siafund w acc (Z.of_nat ix.1) ix.2)
                         (imap pair (t_SiafundInputs t)) acc in
  _ ← modify_tb (fun _ => tb);
  mret marked.

Definition AddParents (newParents : list Transaction) : M building () :=
  modify_tb (fun tb => with_parents (tb_parents tb ++ newParents) (tb_newParents tb) tb).
Definition add_field (f : Transaction -> Transaction) (len : Transaction -> Z) : M building Z :=
  _ ← modify_tb (fun tb => with_txn (f (tb_transaction tb)) tb);
  s ← get; mret (len (tb_transaction (bd_tb s)) - 1).
Definition AddMinerFee (fee : Currency) : M building Z :=
  add_field (append_to [] [] [] [] [] [] [] [fee] [] []) (fun t => zlen (t_MinerFees t)).
Definition AddSiacoinInput (input : SiacoinInput) : M building Z :=
  add_field (append_to [input] [] [] [] [] [] [] [] [] []) (fun t => zlen (t_SiacoinInputs t)).
Definition AddSiacoinOutput (output : SiacoinOutput) : M building Z :=
  add_field (append_to [] [output] [] [] [] [] [] [] [] []) (fun t => zlen (t_SiacoinOutputs t)).
Definition AddFileContract (fc : FileContract) : M building Z :=
  add_field (append_to [] [] [fc] [] [] [] [] [] [] []) (fun t => zlen (t_FileContracts t)).
Definition AddFileContractRevision (fcr : FileContractRevision) : M building Z :=
  add_field (append_to [] [] [] [fcr] [] [] [] [] [] []) (fun t => zlen (t_FileContractRevisions t)).
Definition AddStorageProof (sp : StorageProof) : M building Z :=
  add_field (append_to [] [] [] [] [sp] [] [] [] [] []) (fun t => zlen (t_StorageProofs t)).
Definition AddSiafundInput (input : SiafundInput) : M building Z :=
  add_field (append_to [] [] [] [] [] [input] [] [] [] []) (fun t => zlen (t_SiafundInputs t)).
Definition AddSiafundOutput (output : SiafundOutput) : M building Z :=
  add_field (append_to [] [] [] [] [] [] [output] [] [] []) (fun t => zlen (t_SiafundOutputs t)).
Definition AddArbitraryData (arb : bytes) : M building Z :=
  add_field (append_to [] [] [] [] [] [] [] [] [arb] []) (fun t => zlen (t_ArbitraryData t)).
Definition AddTransactionSignature (sig : TransactionSignature) : M building Z :=
  add_field (append_sig sig) (fun t => zlen (t_TransactionSignatures t)).

Definition ReplaceSiacoinOutput (index : Z) (output : SiacoinOutput) : M building () :=
  s ← get;
  let t := tb_transaction (bd_tb s) in
  _ ← check (err_if (zlen (t_SiacoinOutputs t) <=? index) (WalletError errReplaceIndexOutOfBounds));
  modify_tb (with_txn (mkTransaction (t_SiacoinInputs t) (<[Z.to_nat index := output]> (t_SiacoinOutputs t))
    (t_FileContracts t) (t_FileContractRevisions t) (t_StorageProofs t) (t_SiafundInputs t)
    (t_SiafundOutputs t) (t_MinerFees t) (t_ArbitraryData t) (t_TransactionSignatures t))).

(** Only siacoin inputs are given back. *)
Definition unspend_txns (txns : list Transaction) (d : walletDB) : walletDB :=
  fold_left (fun d id => dbDeleteSpentOutput id d) (txns ≫= fun t => sci_ParentID <$> t_SiacoinInputs t) d.
Definition Drop : M building () :=
  s ← get;
  _ ← on_wallet (modify_wdb (unspend_txns (tb_parents (bd_tb s) ++ [tb_transaction (bd_tb s)])));
  modify_tb (fun _ => mkTransactionBuilder [] false empty_transaction [] [] [] []).

Definition seq_indices {A} (l : list A) : list Z := Z.of_nat <$> seq 0 (length l).
Definition covered_fields (wholeTransaction : bool) (t : Transaction) : CoveredFields :=
  let sigs := seq_indices (t_TransactionSignatures t) in
  if wholeTransaction then mkCoveredFields true [] [] [] [] [] [] [] [] [] sigs
  else mkCoveredFields false (seq_indices (t_SiacoinInputs t)) (seq_indices (t_SiacoinOutputs t))
         (seq_indices (t_FileContracts t)) (seq_indices (t_FileContractRevisions t))
         (seq_indices (t_StorageProofs t)) (seq_indices (t_SiafundInputs t))
         (seq_indices (t_SiafundOutputs t)) (seq_indices (t_MinerFees t))
         (seq_indices (t_ArbitraryData t)) sigs.

(** One input the builder added: [input] finds it in the transaction. *)
Definition sign_input (cf : CoveredFields) (height : BlockHeight)
    (input : Transaction -> Z -> option (Hash * UnlockConditions)) (i : Z) : M building () :=
  s ← get;
  '(parentID, uc) ← or_range (input (tb_transaction (bd_tb s)) i);
  match w_keys (bd_wallet s) !! UnlockConditions_UnlockHash uc with
  | None => throw (WalletError errCannotSign)
  | Some key =>
      '(t, newSigIndices) ← or_range (addSignatures (tb_transaction (bd_tb s)) cf uc parentID key height);
      modify_tb (fun tb => with_sigs true (tb_transactionSignatures tb ++ newSigIndices) (with_txn t tb))
  end.
Definition sci_at (t : Transaction) (i : Z) : option (Hash * UnlockConditions) :=
  (fun sci => (sci_ParentID sci, sci_UnlockConditions sci)) <$> t_SiacoinInputs t !! Z.to_nat i.
Definition sfi_at (t : Transaction) (i : Z) : option (Hash * UnlockConditions) :=
  (fun sfi => (sfi_ParentID sfi, sfi_UnlockConditions sfi)) <$> t_SiafundInputs t !! Z.to_nat i.

Definition Builder_Sign (wholeTransaction : bool) : M building (list Transaction) :=
  s ← get;
  _ ← check (err_if (tb_signed (bd_tb s)) (WalletError errBuilderAlreadySigned));
  let consensusHeight := wd_ConsensusHeight (w_db (bd_wallet s)) in
  let cf := covered_fields wholeTransaction (tb_transaction (bd_tb s)) in
  _ ← for_each (sign_input cf consensusHeight sci_at) (tb_siacoinInputs (bd_tb s));
  _ ← for_each (sign_input cf consensusHeight sfi_at) (tb_siafundInputs (bd_tb s));
  s ← get;
  mret (tb_parents (bd_tb s) ++ [tb_transaction (bd_tb s)]).

Definition Builder_View (tb : transactionBuilder) : Transaction * list Transaction :=
  (tb_transaction tb, tb_parents tb).
Definition ViewAdded (tb : transactionBuilder) : list Z * list Z * list Z * list Z :=
  (tb_newParents tb, tb_siacoinInputs tb, tb_siafundInputs tb, tb_transactionSignatures tb).
Definition Builder_Sweep (output : SiacoinOutput) (tb : transactionBuilder) : Transaction * list Transaction :=
  Builder_View (with_txn (append_to [] [output] [] [] [] [] [] [] [] []
    (tb_transaction (Builder_Copy tb))) (Builder_Copy tb)).

(** Every transaction of the sets of the parents' inputs, once: the break only
    ends the loop over the outputs. *)
Definition UnconfirmedParents (tp : TransactionPool) (tb : transactionBuilder) : list Transaction :=
  (fold_left (fun (acc : gset TransactionID * list Transaction) txn =>
     if bool_decide (Transaction_ID txn ∈ acc.1) then acc
     else ({[Transaction_ID txn]} ∪ acc.1, acc.2 ++ [txn]))
   (tb_parents tb ≫= fun p => t_SiacoinInputs p ≫= fun sci =>
      TransactionPool_TransactionSet tp (sci_ParentID sci)) (∅, [])).2.

(** ** money.go *)

(** [ConsensusSet.SiafundClaim] on the database [cs] of the consensus set. *)
Definition SiafundClaim (cs : DB) (sfo : SiafundOutput) : M Wallet Currency := fun w =>
  match siafundClaim sfo cs with
  | Ret claim _ => Ret claim w
  | Err _ _ => Ret Currency.ZeroCurrency w
  | Panic msg => Panic msg
  end.

Definition ConfirmedBalance (cs : DB) (fees : Currency * Currency)
  : M Wallet (Currency * Currency * Currency) :=
  _ ← syncDB;
  w ← get;
  let siacoins := fold_left (fun x (sco : SiacoinOutput) =>
    if 0 <? Currency.Cmp (sco_Value sco) (DustThreshold fees) then Currency.Add x (sco_Value sco) else x)
    (cursor _ (wd_SiacoinOutputs (w_db w))).*2 Currency.ZeroCurrency in
  siafunds ← for_fold (fun _ sfo (x : Currency * Currency) =>
    let siafundBalance := Currency.Add x.1 (sfo_Value sfo) in
    if 0 <? Currency.Cmp (sfo_ClaimStart sfo) (wd_SiafundPool (w_db w)) then mret (siafundBalance, x.2)
    else claim ← SiafundClaim cs sfo; mret (siafundBalance, Currency.Add x.2 claim))
    0 (cursor _ (wd_SiafundOutputs (w_db w))).*2 (Currency.ZeroCurrency, Currency.ZeroCurrency);
  mret (siacoins, siafunds.1, siafunds.2).

Definition UnconfirmedBalance (fees : Currency * Currency) (w : Wallet) : Currency * Currency :=
  fold_left (fun x upt =>
    (fold_left (fun out input =>
       if bool_decide (pi_FundType input = SpecifierSiacoinInput) && pi_WalletAddress input
       then Currency.Add out (pi_Value input) else out) (pt_Inputs upt) x.1,
     fold_left (fun inc output =>
       if bool_decide (po_FundType output = SpecifierSiacoinOutput) && po_WalletAddress output &&
          (0 <? Currency.Cmp (po_Value output) (DustThreshold fees))
       then Currency.Add inc (po_Value output) else inc) (pt_Outputs upt) x.2))
    (w_unconfirmedProcessedTransactions w) (Currency.ZeroCurrency, Currency.ZeroCurrency).

(** A builder that is dropped if the body or [AcceptTransactionSet] fails. *)
Definition with_builder (accept : list Transaction -> M Wallet ()) (body : M building (list Transaction))
  : M Wallet (list Transaction) := fun w =>
  match (txnSet ← body; _ ← on_wallet (accept txnSet); mret txnSet) (mkBuilding w StartTransaction) with
  | Ret txnSet s => Ret txnSet (bd_wallet s)
  | Err e s =>
      match Drop s with
      | Ret _ s | Err _ s => Err e (bd_wallet s)
      | Panic msg => Panic msg
      end
  | Panic msg => Panic msg
  end.

(** [synced] is the answer of the consensus set. *)
Definition check_send (synced : bool) : M Wallet () :=
  _ ← check (err_if (negb synced) (WalletError errNotSynced));
  w ← get; check (err_if (negb (w_unlocked w)) (WalletError ErrLockedWallet)).

Definition send_siacoins (fees : Currency * Currency) (amount fee : Currency) (dest : UnlockHash)
  : M building (list Transaction) :=
  _ ← FundSiacoins fees (Currency.Add amount fee);
  _ ← AddMinerFee fee;
  _ ← AddSiacoinOutput (mkSiacoinOutput amount dest);
  Builder_Sign true.

Definition managedSendSiacoins (synced : bool) (accept : list Transaction -> M Wallet ())
    (fees : Currency * Currency) (amount fee : Currency) (dest : UnlockHash) : M Wallet (list Transaction) :=
  _ ← check_send synced;
  with_builder accept (send_siacoins fees amount fee dest).

Definition SendSiacoins (synced : bool) (accept : list Transaction -> M Wallet ())
    (fees : Currency * Currency) (amount : Currency) (dest : UnlockHash) : M Wallet (list Transaction) :=
  managedSendSiacoins synced accept fees amount (Currency.Mul64 fees.2 estimatedTransactionSize) dest.

Definition SendSiacoinsFeeIncluded (synced : bool) (accept : list Transaction -> M Wallet ())
    (fees : Currency * Currency) (amount : Currency) (dest : UnlockHash) : M Wallet (list Transaction) :=
  let fee := Currency.Mul64 fees.2 estimatedTransactionSize in
  _ ← check (err_if (Currency.Cmp amount fee <=? 0) (WalletError ErrLowBalance));
  managedSendSiacoins synced accept fees (Currency.Sub amount fee) fee dest.

Definition send_multi (fees : Currency * Currency) (outputs : list SiacoinOutput)
  : M building (list Transaction) :=
  let tpoolFee := Currency.Mul64 (Currency.Mul64 fees.2 2) (u64 (1000 + 60 * zlen outputs)) in
  _ ← AddMinerFee tpoolFee;
  _ ← FundSiacoins fees (fold_left (fun x sco => Currency.Add x (sco_Value sco)) outputs tpoolFee);
  _ ← for_each (fun sco => _ ← AddSiacoinOutput sco; mret ()) outputs;
  Builder_Sign true.
Definition SendSiacoinsMulti (synced : bool) (accept : list Transaction -> M Wallet ())
    (fees : Currency * Currency) (outputs : list SiacoinOutput) : M Wallet (list Transaction) :=
  _ ← check_send synced;
  with_builder accept (send_multi fees outputs).

Definition send_siafunds (fees : Currency * Currency) (amount : Currency) (dest : UnlockHash)
  : M building (list Transaction) :=
  let tpoolFee := Currency.Mul64 (Currency.Mul64 fees.2 750) 5 in
  _ ← FundSiacoins fees tpoolFee;
  _ ← FundSiafunds amount;
  _ ← AddMinerFee tpoolFee;
  _ ← AddSiafundOutput (mkSiafundOutput amount dest Currency.ZeroCurrency);
  Builder_Sign true.
Definition SendSiafunds (synced : bool) (accept : list Transaction -> M Wallet ())
    (fees : Currency * Currency) (amount : Currency) (dest : UnlockHash) : M Wallet (list Transaction) :=
  _ ← check_send synced;
  with_builder accept (send_siafunds fees amount dest).

(** ** defrag.go *)

Definition defrag_fee (fees : Currency * Currency) : Currency :=
  Currency.Mul64 fees.1 (250 * Z.of_nat defragBatchSize).

Definition managedCreateDefragTransaction (fees : Currency * Currency) : M Wallet (list Transaction) :=
  w ← get;
  let consensusHeight := wd_ConsensusHeight (w_db w) in
  let so := sort_outputs
    (filter (fun x => checkOutput w consensusHeight x.1 x.2 (DustThreshold fees) = None)
       (cursor _ (wd_SiacoinOutputs (w_db w)))) in
  _ ← check (err_if (length so <=? defragThreshold)%nat (WalletError errDefragNotNeeded));
  let chosen := take defragBatchSize (drop defragStartIndex so) in
  let amount := fold_left (fun x y => Currency.Add x (sco_Value y.2)) chosen Currency.ZeroCurrency in
  parentUC ← nextPrimarySeedAddress;
  let unsigned := parent_txn w amount amount parentUC zero_conditions chosen in
  w1 ← get;
  parentTxn ← or_range (sign_all w1 consensusHeight
    ((fun sci => (sci_ParentID sci, sci_UnlockConditions sci)) <$> t_SiacoinInputs unsigned) unsigned);
  refundUC ← nextPrimarySeedAddress;
  let fee := defrag_fee fees in
  _ ← panic_if (DEBUG && Currency.Sub_critical amount fee) "negative currency";
  let parentID := Transaction_SiacoinOutputID parentTxn 0 in
  let unsigned := append_to [mkSiacoinInput parentID parentUC]
    [mkSiacoinOutput (Currency.Sub amount fee) (UnlockConditions_UnlockHash refundUC)]
    [] [] [] [] [] [fee] [] [] empty_transaction in
  w2 ← get;
  '(txn, _) ← or_range (addSignatures unsigned FullCoveredFields parentUC parentID
    (key_of w2 (UnlockConditions_UnlockHash parentUC)) consensusHeight);
  _ ← modify_wdb (spend_ids chosen.*1 consensusHeight);
  _ ← modify_wdb (dbPutSpentOutput parentID consensusHeight);
  mret [parentTxn; txn].

(** The error of the pool gives the outputs back. *)
Definition Wallet_threadedDefragWallet (accept : list Transaction -> M Wallet ())
    (fees : Currency * Currency) : M Wallet () := fun w =>
  if w_defragDisabled w || negb (w_unlocked w) then Ret () w
  else
    match managedCreateDefragTransaction fees w with
    | Err _ w' => Ret () w'
    | Panic msg => Panic msg
    | Ret txnSet w' =>
        match accept txnSet w' with
        | Ret _ w2 => Ret () w2
        | Err _ w2 => Ret () (with_wdb (unspend_txns txnSet (w_db w2)) w2)
        | Panic msg => Panic msg
        end
    end.

End builder.
