(* ===== verification/WalletKeys.v ===== *)
(** * The keys of a wallet

    The lookahead holds exactly the addresses of the next indices of the primary
    seed.  It keeps doing so when addresses are handed out and when a payment
    to one of its addresses advances the seed. *)

From S2P Require Import Prelude Bytes Interfaces Currency Types Params Encoding Transactions.
From S2P Require Import Decoding Signatures ConsensusSubscribe TransactionPool Wallet WalletUpdate.

Open Scope Z_scope.

Section keys.
Context {B : Build} {P : Params} {C : Crypto} {E : SiaEncoding} {D : SiaDecoder}.
Context {S : Ed25519} {WP : WalletParams}.
Context (seed : Seed) (N p0 : Z).

(** The address of an index. *)
Definition addr (i : Z) : UnlockHash := key_hash (generateSpendableKey seed i).

(** The wallet started with a progress of [p0] or more.  The first [N] addresses of the seed differ. *)
Definition addrs_differ : Prop := forall i j, 0 <= i < N -> 0 <= j < N -> addr i = addr j -> i = j.

(** The lookahead of a progress of [p] stays below [N]. *)
Definition fits (p : Z) : Prop :=
  p + (p + lookaheadRescanThreshold + lookaheadBuffer + p / 10) <= N.

(** A map from the addresses of [k] indices from [p] on. *)
Definition window (p k : Z) (m : gmap UnlockHash Z) : Prop := forall uh i,
  m !! uh = Some i <-> p <= i < p + k /\ uh = addr i.

Context (Hinj : addrs_differ) (HN : N < 2 ^ 64).
Context (Hthr : 0 <= lookaheadRescanThreshold) (Hbuf : 0 <= lookaheadBuffer) (Hp0 : 0 <= p0).

Lemma fits_le p p' : 0 <= p <= p' -> fits p' -> fits p.
Proof. unfold fits. intros Hp Hf. assert (p / 10 <= p' / 10) by (apply Z.div_le_mono; lia). lia. Qed.

Lemma maxLookahead_fits p : 0 <= p -> fits p ->
  maxLookahead p = p + lookaheadRescanThreshold + lookaheadBuffer + p / 10 /\
  0 <= maxLookahead p /\ p + maxLookahead p <= N.
Proof.
  unfold fits, maxLookahead. intros Hp Hf. assert (0 <= p / 10) by (apply Z.div_pos; lia).
  rewrite u64_small by (unfold is_u64; lia). lia.
Qed.

Lemma maxLookahead_mono p p' : 0 <= p <= p' -> fits p' -> maxLookahead p <= maxLookahead p'.
Proof.
  intros Hp Hf. assert (p / 10 <= p' / 10) by (apply Z.div_le_mono; lia).
  destruct (maxLookahead_fits p) as (-> & _); [lia|by eapply fits_le; [|exact Hf]; lia|].
  destruct (maxLookahead_fits p') as (-> & _); [lia|done|]. lia.
Qed.

Lemma window_size p k m : 0 <= p -> 0 <= k -> p + k <= N -> window p k m -> Z.of_nat (size m) = k.
Proof.
  intros Hp Hk HkN Hw.
  assert (Hm : m = list_to_map ((fun i => (addr i, i)) <$> seqZ p k)).
  { assert (Hnd : NoDup ((fun i => (addr i, i)) <$> seqZ p k).*1).
    { rewrite <- list_fmap_compose. apply NoDup_fmap_2_strong; [|apply NoDup_seqZ].
      intros i j Hi%elem_of_seqZ Hj%elem_of_seqZ Heq. apply Hinj; [lia|lia|exact Heq]. }
    apply map_eq. intros uh. apply option_eq. intros i. rewrite (Hw uh i).
    rewrite <- elem_of_list_to_map by done. rewrite list_elem_of_fmap. split.
    - intros [Hi ->]. exists i. split; [done|]. by apply elem_of_seqZ.
    - intros (j & [= -> ->] & Hj%elem_of_seqZ). done. }
  rewrite Hm, map_size_list_to_map.
  - rewrite length_fmap, length_seqZ. lia.
  - rewrite <- list_fmap_compose. apply NoDup_fmap_2_strong; [|apply NoDup_seqZ].
    intros i j Hi%elem_of_seqZ Hj%elem_of_seqZ Heq. apply Hinj; [lia|lia|exact Heq].
Qed.

(** Consecutive keys. *)
Definition keys_from (p : Z) (k : nat) : list spendableKey :=
  (fun i => generateSpendableKey seed (p + i)) <$> seqZ 0 (Z.of_nat k).

Lemma generateKeys_from p k : 0 <= p -> 0 <= k -> p + k <= N ->
  generateKeys seed p k = keys_from p (Z.to_nat k).
Proof.
  intros Hp Hk HkN. unfold generateKeys, keys_from. rewrite Z2Nat.id by done.
  apply list_fmap_ext. intros j i Hi. apply list_elem_of_lookup_2, elem_of_seqZ in Hi.
  by rewrite u64_small by (unfold is_u64; lia).
Qed.

Lemma keys_from_S p k :
  keys_from p (Datatypes.S k) = keys_from p k ++ [generateSpendableKey seed (p + Z.of_nat k)].
Proof.
  unfold keys_from. rewrite Nat2Z.inj_succ, <- Z.add_1_r, seqZ_app by lia.
  rewrite fmap_app, Z.add_0_l. done.
Qed.

Lemma length_keys_from p k : length (keys_from p k) = k.
Proof. unfold keys_from. rewrite length_fmap, length_seqZ. lia. Qed.

Lemma add_lookahead_window p k n m :
  0 <= p -> 0 <= k -> p + k + Z.of_nat n <= N -> window p k m ->
  window p (k + Z.of_nat n) (add_lookahead (p + k) (keys_from (p + k) n) m).
Proof.
  intros Hp Hk HkN Hw. induction n as [|n IH].
  - unfold keys_from. cbn. by rewrite Z.add_0_r.
  - rewrite keys_from_S. unfold add_lookahead in *. rewrite imap_app, fold_left_app. cbn [imap fold_left fst snd].
    specialize (IH ltac:(lia)). rewrite length_keys_from, Nat.add_0_r.
    rewrite (u64_small (p + k + _)) by (unfold is_u64; lia). fold (addr (p + k + Z.of_nat n)).
    intros uh i. rewrite lookup_insert_Some, (IH uh i). split.
    + intros [[<- <-]|(_ & Hi & ->)]; split; try done; lia.
    + intros [Hi ->]. destruct (decide (i = p + k + Z.of_nat n)) as [->|Hne]; [by left|right].
      split_and!; [|lia|lia|done]. intros Heq%Hinj; lia.
Qed.

Lemma forget_window p k n m :
  0 <= p -> 0 <= k -> p + k <= N -> p + Z.of_nat n <= N -> window p k m ->
  window (p + Z.of_nat n) (Z.max 0 (k - Z.of_nat n))
    (fold_left (fun m x => delete (key_hash x) m) (keys_from p n) m).
Proof.
  intros Hp Hk HkN HnN Hw. induction n as [|n IH].
  - unfold keys_from. cbn. by rewrite Z.add_0_r, Z.sub_0_r, Z.max_r.
  - rewrite keys_from_S, fold_left_app. cbn [fold_left]. specialize (IH ltac:(lia)).
    fold (addr (p + Z.of_nat n)). intros uh i. rewrite lookup_delete_Some, (IH uh i). split.
    + intros (Hne & Hi & ->). split; [|done].
      assert (i <> p + Z.of_nat n) by congruence. lia.
    + intros [Hi ->]. split; [|split; [lia|done]]. intros Heq%Hinj; lia.
Qed.

Lemma spend_keys_lookup p n uh (m : gmap UnlockHash spendableKey) :
  is_Some (fold_left (fun m x => <[key_hash x := x]> m) (keys_from p n) m !! uh) <->
  is_Some (m !! uh) \/ exists i, p <= i < p + Z.of_nat n /\ uh = addr i.
Proof.
  induction n as [|n IH].
  - unfold keys_from. cbn. split; [by left|]. intros [?|(i & Hi & _)]; [done|lia].
  - rewrite keys_from_S, fold_left_app. cbn [fold_left]. fold (addr (p + Z.of_nat n)).
    rewrite lookup_insert_is_Some, IH. split.
    + intros [<-|[_ [?|(i & Hi & ->)]]]; [right; exists (p + Z.of_nat n); split; [lia|done]|by left|].
      right. exists i. split; [lia|done].
    + intros Hc. destruct (decide (addr (p + Z.of_nat n) = uh)) as [?|Hne]; [by left|right]. split; [done|].
      destruct Hc as [?|(i & Hi & ->)]; [by left|right]. exists i. split; [|done].
      assert (i <> p + Z.of_nat n) by congruence. lia.
Qed.

(** ** The state of the keys *)

Record keys_at (p : Z) (w : Wallet) : Prop := mkKeysAt {
  ka_seed : w_primarySeed w = seed;
  ka_progress : wd_PrimarySeedProgress (w_db w) = Some p;
  ka_start : p0 <= p;
  ka_fits : fits p;
  ka_lookahead : window p (maxLookahead p) (w_lookahead w);
  ka_spendable i : 0 <= i < p -> is_Some (w_keys w !! addr i)
}.

Lemma regenerateLookahead_window p k w :
  w_primarySeed w = seed -> 0 <= p -> fits p -> 0 <= k <= maxLookahead p ->
  window p k (w_lookahead w) -> window p (maxLookahead p) (w_lookahead (regenerateLookahead p w)).
Proof.
  intros Hs Hp Hf Hk Hw. destruct (maxLookahead_fits p Hp Hf) as (_ & Hpos & HpN).
  unfold regenerateLookahead. rewrite Hs, (window_size p k) by (done || lia). cbn [with_keys w_lookahead].
  rewrite (u64_small (p + k)), (u64_small (maxLookahead p - k)) by (unfold is_u64; lia).
  rewrite generateKeys_from by lia.
  replace (maxLookahead p) with (k + Z.of_nat (Z.to_nat (maxLookahead p - k))) at 1 by lia.
  apply add_lookahead_window; (done || lia).
Qed.

(** The seed moves on to [p']. *)
Definition move_seed (p p' : Z) (w : Wallet) : Wallet :=
  regenerateLookahead p' (spend_keys (keys_from p (Z.to_nat (p' - p)))
    (with_wdb (dbPutPrimarySeedProgress p' (w_db w)) w)).

Lemma move_seed_keys p p' w : keys_at p w -> p <= p' -> fits p' -> keys_at p' (move_seed p p' w).
Proof.
  intros [Hs Hg Hp Hf Hl Hk] Hle Hf'. destruct (maxLookahead_fits p ltac:(lia) Hf) as (_ & Hpos & HpN).
  destruct (maxLookahead_fits p') as (_ & Hpos' & HpN'); [lia|done|].
  pose proof (maxLookahead_mono p p' ltac:(lia) Hf') as Hmono.
  split; [done|done|lia|done| |].
  - eapply (regenerateLookahead_window _ (Z.max 0 (maxLookahead p - (p' - p)))); [done|lia|done|lia|].
    cbn [spend_keys with_keys w_lookahead with_wdb].
    pose proof (forget_window p (maxLookahead p) (Z.to_nat (p' - p)) (w_lookahead w)) as Hw.
    rewrite Z2Nat.id in Hw by lia. replace (p + (p' - p)) with p' in Hw by lia. apply Hw; (done || lia).
  - intros i Hi. cbn. apply spend_keys_lookup. destruct (decide (i < p)) as [Hlt|Hge].
    + left. apply Hk. lia.
    + right. exists i. split; [lia|done].
Qed.

Lemma move_seed_address p p' w uh :
  isWalletAddress (move_seed p p' w) uh = true <->
  isWalletAddress w uh = true \/ exists i, p <= i < p + Z.of_nat (Z.to_nat (p' - p)) /\ uh = addr i.
Proof.
  unfold isWalletAddress. rewrite !orb_true_iff, !bool_decide_eq_true. cbn. rewrite spend_keys_lookup. tauto.
Qed.

(** Handing out addresses moves the seed, or is refused. *)
Lemma nextPrimarySeedAddresses_run p n w :
  keys_at p w -> 0 <= n -> p + n <= N ->
  nextPrimarySeedAddresses n w =
    if w_unlocked w then Ret (sk_UnlockConditions <$> keys_from p (Z.to_nat n)) (move_seed p (p + n) w)
    else Err (WalletError ErrLockedWallet) w.
Proof.
  intros [Hs Hg Hp Hf Hl Hk] Hn HnN. unfold nextPrimarySeedAddresses, dbGetPrimarySeedProgress.
  unfold get, check, err_if, modify_wdb, modify, mbind, M_bind, mret, M_ret.
  destruct (w_unlocked w); [|done]. cbn [negb]. rewrite Hg. 
  rewrite Hs, u64_small, generateKeys_from by (unfold is_u64; lia).
  unfold move_seed. by replace (p + n - p) with n by lia.
Qed.

(** ** A payment into the lookahead *)

Lemma largest_index_spec m l : forall x0,
  x0 <= fold_left (largest_index m) l x0 /\
  (forall uh i, uh ∈ l -> m !! uh = Some i -> i <= fold_left (largest_index m) l x0) /\
  (fold_left (largest_index m) l x0 = x0 \/
   exists uh, uh ∈ l /\ m !! uh = Some (fold_left (largest_index m) l x0)).
Proof.
  induction l as [|uh l IH]; intros x0; cbn [fold_left].
  - split_and!; [lia|by intros ? ? ?%elem_of_nil|by left].
  - destruct (IH (largest_index m x0 uh)) as (H1 & H2 & H3). unfold largest_index in H1 at 1.
    split_and!.
    + destruct (m !! uh) as [i|]; [destruct (Z.ltb_spec x0 i)|]; lia.
    + intros uh' i [->|Hin]%elem_of_cons Hi; [|by eapply H2]. rewrite Hi in H1.
      destruct (Z.ltb_spec x0 i); lia.
    + destruct H3 as [H3|(uh' & Hin & H3)]; [|right; exists uh'; split; [by right|done]].
      rewrite H3. unfold largest_index. destruct (m !! uh) as [i|] eqn:Hi; [|by left].
      destruct (x0 <? i); [right; exists uh; split; [by left|done]|by left].
Qed.

Lemma updateLookahead_run p M cc w :
  keys_at p w -> fits M -> 0 < M -> M <= lookaheadRescanThreshold + lookaheadBuffer ->
  (forall uh i, uh ∈ change_hashes (cc_Diffs cc) -> 0 <= i < N -> uh = addr i ->
     i < M /\ (i = 0 -> 0 < p0)) ->
  exists rescan p', p <= p' /\ fits p' /\
    updateLookahead cc w = Ret rescan (if decide (p' = p) then w else move_seed p p' w) /\
    (M <= p0 + lookaheadRescanThreshold -> rescan = false) /\
    (forall uh i, uh ∈ change_hashes (cc_Diffs cc) -> 0 <= i < N -> uh = addr i -> i < p').
Proof.
  intros Hka HfM HM HMl Hpaid. pose proof Hka as [Hs Hg Hp Hf Hl Hk].
  destruct (maxLookahead_fits p ltac:(lia) Hf) as (Hmax & Hpos & HpN).
  assert (Hdiv : 0 <= p / 10) by (apply Z.div_pos; lia).
  destruct (largest_index_spec (w_lookahead w) (change_hashes (cc_Diffs cc)) 0) as (H1 & H2 & H3).
  unfold updateLookahead, get, mbind, M_bind, mret, M_ret. set (largest := fold_left _ _ 0) in *.
  assert (Hcov : forall uh i, uh ∈ change_hashes (cc_Diffs cc) -> 0 <= i < N -> uh = addr i ->
    i < p \/ i <= largest).
  { intros uh i Hin Hi Heq. pose proof (Hpaid uh i Hin Hi Heq). destruct (decide (i < p)); [by left|right].
    apply (H2 uh i Hin). apply Hl. split; [lia|done]. }
  destruct (Z.ltb_spec 0 largest) as [Hlt|Hge].
  - destruct H3 as [H3|(uh & Hin & H3)]; [lia|]. apply Hl in H3 as [Hr ->].
    assert (Hlt' : largest < M) by (eapply Hpaid; [exact Hin|lia|done]).
    exists (lookaheadRescanThreshold <? zlen (keys_from p (Z.to_nat (largest + 1 - p)))), (largest + 1).
    assert (Hf' : fits (largest + 1)) by (eapply fits_le; [|exact HfM]; lia).
    split_and!; [lia|done| | |].
    + rewrite decide_False by lia. unfold advanceSeedLookahead, dbGetPrimarySeedProgress.
      unfold modify_wdb, modify, get, mbind, M_bind, mret, M_ret. rewrite Hg.
      rewrite Hs, (u64_small (largest + 1)), (u64_small (largest + 1 - p)) by (unfold is_u64; lia).
      rewrite generateKeys_from by lia. done.
    + intros HM'. apply Z.ltb_ge. unfold zlen. rewrite length_keys_from. lia.
    + intros uh i Hi1 Hi2 Hi3. destruct (Hcov uh i Hi1 Hi2 Hi3); lia.
  - exists false, p. rewrite decide_True by done. split_and!; [lia|done|done|done|].
    intros uh i Hi1 Hi2 Hi3. destruct (Hpaid uh i Hi1 Hi2 Hi3) as [_ H0]. destruct (Hcov uh i Hi1 Hi2 Hi3); [done|].
    destruct (decide (i = 0)) as [Hi0|Hi0]; [specialize (H0 Hi0)|]; lia.
Qed.
End keys.
