(* ===== verification/WalletHistory.v ===== *)
(** * The history of a wallet

    The bucket of processed transactions is a stack: a block that is applied
    pushes its relevant transactions, a block that is reverted pops the same
    ones, whatever keys the wallet has by then. *)

From S2P Require Import Prelude Bytes Interfaces Currency Types Params Encoding Transactions.
From S2P Require Import Decoding Signatures ConsensusSubscribe TransactionPool Frames Wallet WalletUpdate.

Open Scope Z_scope.

Abbreviation pt_ids := (fmap pt_TransactionID).

(** ** The stack *)

Record stack (d : walletDB) (pts : list ProcessedTransaction) : Prop := mkStack {
  sk_sequence : wd_Sequence d = Z.of_nat (length pts);
  sk_entry k pt : wd_ProcessedTransactions d !! k = Some pt <->
    1 <= k /\ pts !! Z.to_nat (k - 1) = Some pt;
  sk_index id k : wd_ProcessedTxnIndex d !! id = Some k <->
    1 <= k /\ exists pt, pts !! Z.to_nat (k - 1) = Some pt /\ pt_TransactionID pt = id
}.

Lemma lookup_snoc_index {A} (l : list A) x y k : 1 <= k ->
  (l ++ [x]) !! Z.to_nat (k - 1) = Some y <->
  l !! Z.to_nat (k - 1) = Some y \/ k = Z.of_nat (length l) + 1 /\ x = y.
Proof.
  intros Hk. rewrite lookup_app_Some. split.
  - intros [?|[Hle Hx]]; [by left|right]. apply list_lookup_singleton_Some in Hx as [Hx <-]. split; [lia|done].
  - intros [?|[-> <-]]; [by left|right]. split; [lia|].
    replace (Z.to_nat (Z.of_nat (length l) + 1 - 1) - length l)%nat with 0%nat by lia. done.
Qed.

Lemma stack_append d pts pt :
  stack d pts -> Z.of_nat (length pts) + 1 < 2 ^ 64 -> pt_TransactionID pt ∉ pt_ids pts ->
  stack (dbAppendProcessedTransaction pt d) (pts ++ [pt]).
Proof.
  intros [H1 H2 H3] Hlen Hid. unfold dbAppendProcessedTransaction. rewrite H1, u64_small by (unfold is_u64; lia).
  split; cbn [with_processed wd_Sequence wd_ProcessedTransactions wd_ProcessedTxnIndex].
  - rewrite length_app. cbn. lia.
  - intros k pt'. rewrite lookup_insert_Some, H2. split.
    + intros [[<- <-]|(Hne & Hk & Hl)]; (split; [lia|]); apply lookup_snoc_index; (lia || naive_solver).
    + intros [Hk Hl]. apply lookup_snoc_index in Hl as [Hl|[-> ->]]; [right|by left|done].
      split; [|done]. apply lookup_lt_Some in Hl. lia.
  - intros id k. rewrite lookup_insert_Some, H3. split.
    + intros [[<- <-]|(Hne & Hk & pt' & Hl & Hp)]; (split; [lia|]).
      * exists pt. split; [|done]. apply lookup_snoc_index; [lia|by right].
      * exists pt'. split; [|done]. apply lookup_snoc_index; [lia|by left].
    + intros (Hk & pt' & Hl & <-). apply lookup_snoc_index in Hl as [Hl|[-> ->]]; [right|by left|done].
      split; [|naive_solver]. intros Heq. apply Hid. rewrite Heq. apply list_elem_of_fmap_2.
      by eapply list_elem_of_lookup_2.
Qed.

Lemma stack_last d pts : stack d pts -> dbGetLastProcessedTransaction d = last pts.
Proof.
  intros [H1 H2 _]. unfold dbGetLastProcessedTransaction. rewrite H1. apply option_eq. intros pt.
  rewrite H2, last_lookup. replace (Z.to_nat (Z.of_nat (length pts) - 1)) with (pred (length pts)) by lia.
  split; [tauto|]. intros Hl. split; [|done]. apply lookup_lt_Some in Hl. lia.
Qed.

Lemma stack_delete d pts pt :
  stack d (pts ++ [pt]) -> Z.of_nat (length pts) < 2 ^ 64 -> pt_TransactionID pt ∉ pt_ids pts ->
  exists d', dbDeleteLastProcessedTransaction d = Some d' /\ stack d' pts.
Proof.
  intros Hst Hlen Hid. pose proof (stack_last _ _ Hst) as Hlast. rewrite last_snoc in Hlast.
  destruct Hst as [H1 H2 H3]. unfold dbDeleteLastProcessedTransaction. rewrite Hlast. cbn [mbind option_bind].
  eexists. split; [done|]. rewrite length_app in H1. cbn [length] in H1.
  split; cbn [with_processed wd_Sequence wd_ProcessedTransactions wd_ProcessedTxnIndex].
  - rewrite H1, u64_small by (unfold is_u64; lia). lia.
  - intros k pt'. rewrite lookup_delete_Some, H2. split.
    + intros (Hne & Hk & Hl). split; [done|]. apply lookup_snoc_index in Hl as [Hl|[-> _]]; [done|lia|done].
    + intros [Hk Hl]. pose proof (lookup_lt_Some _ _ _ Hl). split_and!; [lia|done|].
      apply lookup_snoc_index; [done|by left].
  - intros id k. rewrite lookup_delete_Some, H3. split.
    + intros (Hne & Hk & pt' & Hl & <-). split; [done|]. exists pt'. split; [|done].
      apply lookup_snoc_index in Hl as [Hl|[_ ->]]; done.
    + intros (Hk & pt' & Hl & <-). split_and!; [|done|].
      * intros Heq. apply Hid. rewrite Heq. apply list_elem_of_fmap_2. by eapply list_elem_of_lookup_2.
      * exists pt'. split; [|done]. apply lookup_snoc_index; [done|by left].
Qed.

(** What the history does not touch. *)
Definition clear_history (w : Wallet) : Wallet :=
  with_wdb (with_consensus (wd_ConsensusChange (w_db w)) 0 (with_processed ∅ 0 ∅ ∅ (w_db w))) w.

Lemma put_height_clear h w : clear_history (with_wdb (dbPutConsensusHeight h (w_db w)) w) = clear_history w.
Proof. done. Qed.
Lemma put_height_stack h d pts : stack d pts -> stack (dbPutConsensusHeight h d) pts.
Proof. by intros [H1 H2 H3]. Qed.

Section history.
Context {B : Build} {P : Params} {C : Crypto} {E : SiaEncoding} {D : SiaDecoder}.
Context {S : Ed25519} {WP : WalletParams}.

(** The IDs the history may use for a block. *)
Definition block_ids (b : Block) : list TransactionID := Block_ID b :: (Transaction_ID <$> b_Transactions b).

(** ** Reverting *)

Lemma delete_last_run w pts pt :
  stack (w_db w) (pts ++ [pt]) -> Z.of_nat (length pts) < 2 ^ 64 -> pt_TransactionID pt ∉ pt_ids pts ->
  exists w', delete_last w = Ret () w' /\ stack (w_db w') pts /\ clear_history w' = clear_history w /\
    wd_ConsensusHeight (w_db w') = wd_ConsensusHeight (w_db w).
Proof.
  intros Hst Hlen Hid. destruct (stack_delete _ _ _ Hst Hlen Hid) as (d' & Hd & Hst').
  exists (with_wdb d' w). unfold delete_last, get, modify, mbind, M_bind. rewrite Hd. split_and!; [done|done|..].
  all: unfold dbDeleteLastProcessedTransaction in Hd;
    destruct (dbGetLastProcessedTransaction (w_db w)); [|done]; by injection Hd as <-.
Qed.

Lemma sublist_snoc_other {A} (k l : list A) x :
  k `sublist_of` l ++ [x] -> last k <> Some x -> k `sublist_of` l.
Proof.
  intros (k1 & k2 & -> & H1 & H2)%sublist_app_r Hl. destruct k2 as [|y k2]; [by rewrite app_nil_r|].
  apply sublist_cons_r in H2 as [H2|(k' & [= -> ->] & H2)].
  - by apply sublist_nil_r in H2.
  - apply sublist_nil_r in H2 as ->. by rewrite last_snoc in Hl.
Qed.

Lemma revert_txns_run bs l : forall pre seg w,
  stack (w_db w) (pre ++ seg) -> NoDup (pt_ids (pre ++ seg)) -> Z.of_nat (length (pre ++ seg)) < 2 ^ 64 ->
  pt_ids seg `sublist_of` bs ++ l -> (forall x, x ∈ pt_ids pre -> x ∉ l) ->
  exists w' seg', revert_txns (reverse l) w = Ret () w' /\ stack (w_db w') (pre ++ seg') /\
    seg' `prefix_of` seg /\ pt_ids seg' `sublist_of` bs /\ clear_history w' = clear_history w /\
    wd_ConsensusHeight (w_db w') = wd_ConsensusHeight (w_db w).
Proof.
  induction l as [|x l IH] using rev_ind; intros pre seg w Hst Hnd Hlen Hsub Hdis.
  { rewrite app_nil_r in Hsub. exists w, seg. by split_and!. }
  rewrite reverse_snoc. cbn [revert_txns]. unfold get, mbind, M_bind. rewrite (stack_last _ _ Hst).
  rewrite app_assoc in Hsub.
  assert (Hdis' : forall y, y ∈ pt_ids pre -> y ∉ l) by (intros y Hy Hl; apply (Hdis y Hy), elem_of_app; by left).
  destruct seg as [|pt seg _] using rev_ind.
  - rewrite app_nil_r in *. destruct (last pre) as [pt|] eqn:Hl.
    + rewrite bool_decide_false; [by apply (IH pre [] w); rewrite ?app_nil_r; try done; apply sublist_nil_l|].
      intros ->. apply (Hdis (pt_TransactionID pt)); [|apply elem_of_app; right; by left].
      apply list_elem_of_fmap_2. by apply last_Some_elem_of.
    + exists w, []. rewrite app_nil_r. split_and!; try done. apply sublist_nil_l.
  - rewrite app_assoc, last_snoc. rewrite fmap_app in Hsub. cbn [fmap list_fmap] in Hsub.
    rewrite app_assoc in Hst, Hnd, Hlen. case_bool_decide as Hx.
    + subst x. apply sublist_app_inv_r in Hsub. rewrite fmap_app in Hnd. apply NoDup_app in Hnd as (Hnd & Hni & _).
      rewrite length_app in Hlen. cbn [length] in Hlen.
      destruct (delete_last_run w (pre ++ seg) pt Hst) as (w1 & Hrun & Hst1 & Hc1 & Hh1); [lia| |].
      { intros Hin. apply (Hni _ Hin). cbn. by left. }
      rewrite Hrun. destruct (IH pre seg w1) as (w' & seg' & R1 & R2 & R3 & R4 & R5 & R6); try done; [lia|].
      exists w', seg'. split_and!; try done; [by apply prefix_app_r|congruence..].
    + destruct (IH pre (seg ++ [pt]) w) as (w' & seg' & R); try by rewrite ?app_assoc.
      * rewrite fmap_app. eapply sublist_snoc_other; [exact Hsub|]. cbn. rewrite last_snoc. congruence.
      * by exists w', seg'.
Qed.

Lemma revert_payouts_run id payouts pre seg : forall w,
  stack (w_db w) (pre ++ seg) -> Z.of_nat (length (pre ++ seg)) < 2 ^ 64 ->
  pt_ids seg `sublist_of` [id] -> id ∉ pt_ids pre -> (seg <> [] -> payouts <> []) ->
  exists w', revert_payouts id payouts w = Ret () w' /\ stack (w_db w') pre /\
    clear_history w' = clear_history w /\ wd_ConsensusHeight (w_db w') = wd_ConsensusHeight (w_db w).
Proof.
  intros w Hst Hlen Hsub Hid Hpay. destruct seg as [|pt seg].
  - rewrite app_nil_r in Hst. exists w. split_and!; try done. clear Hpay.
    induction payouts as [|mp payouts IH]; [done|]. cbn [revert_payouts]. unfold get, mbind, M_bind.
    rewrite (stack_last _ _ Hst). destruct (last pre) as [pt|] eqn:Hl; [|done].
    rewrite bool_decide_false; [done|]. intros ->. apply Hid, list_elem_of_fmap_2. by apply last_Some_elem_of.
  - cbn [fmap list_fmap] in Hsub. apply sublist_cons_l in Hsub as (k1 & k2 & Heq & Hsub).
    destruct k1 as [|y k1]; [|by destruct k1]. injection Heq as Heq <-.
    apply sublist_nil_r in Hsub. apply fmap_nil_inv in Hsub as ->.
    destruct payouts as [|mp payouts]; [by destruct Hpay|]. cbn [revert_payouts]. unfold get, mbind, M_bind.
    rewrite (stack_last _ _ Hst), last_snoc, bool_decide_true by done.
    rewrite length_app in Hlen. apply (delete_last_run w pre pt); [done|cbn in Hlen; lia|by rewrite <- Heq].
Qed.

Lemma revert_wallet_block_run b pre seg w :
  stack (w_db w) (pre ++ seg) -> NoDup (pt_ids (pre ++ seg)) -> Z.of_nat (length (pre ++ seg)) < 2 ^ 64 ->
  pt_ids seg `sublist_of` block_ids b -> (forall x, x ∈ pt_ids pre -> x ∉ block_ids b) ->
  (Block_ID b ∈ pt_ids seg -> b_MinerPayouts b <> []) ->
  exists w', revert_wallet_block b w = Ret () w' /\ stack (w_db w') pre /\
    clear_history w' = clear_history w /\
    wd_ConsensusHeight (w_db w') = if bool_decide (Block_ID b <> Block_ID GenesisBlock)
      then u64 (wd_ConsensusHeight (w_db w) - 1) else wd_ConsensusHeight (w_db w).
Proof.
  intros Hst Hnd Hlen Hsub Hdis Hpay.
  destruct (revert_txns_run [Block_ID b] (Transaction_ID <$> b_Transactions b) pre seg w)
    as (w1 & seg' & R1 & R2 & [rest ->] & R4 & R5 & R6); try done.
  { intros x Hx Hl. apply (Hdis x Hx). by right. }
  destruct (revert_payouts_run (Block_ID b) (b_MinerPayouts b) pre seg' w1) as (w2 & Q1 & Q2 & Q3 & Q4); try done.
  { rewrite app_assoc, length_app in Hlen. lia. }
  { intros Hx. apply (Hdis _ Hx). by left. }
  { intros Hne. apply Hpay. destruct seg' as [|pt seg']; [done|]. cbn [fmap list_fmap] in R4.
    apply sublist_cons_l in R4 as (k1 & k2 & Heq & _). destruct k1 as [|y k1]; [|by destruct k1].
    injection Heq as -> _. by left. }
  unfold revert_wallet_block, modify_wdb, modify, mbind, M_bind, mret, M_ret. rewrite R1, Q1.
  case_bool_decide; eexists; (split; [done|]).
  - rewrite put_height_clear, Q4, R6, Q3. split_and!; [by apply put_height_stack|done|done].
  - split_and!; [done|congruence..].
Qed.

(** ** Applying *)

(** What a block adds to the history of a wallet that has the addresses [K], and
    none outside of [A]: entries for its payouts and its transactions, in order,
    under their IDs and at its height, all that concern [K] and only such as
    concern [A]. *)
Record entries_of (K : gset UnlockHash) (A : UnlockHash -> Prop) (b : Block) (h : BlockHeight)
    (seg : list ProcessedTransaction) : Prop := mkEntriesOf {
  eo_ids : pt_ids seg `sublist_of` block_ids b;
  eo_place pt : pt ∈ seg -> pt_ConfirmationHeight pt = h /\ pt_ConfirmationTimestamp pt = b_Timestamp b;
  eo_txn pt : pt ∈ seg ->
    pt_TransactionID pt = Block_ID b /\ pt_Transaction pt = empty_transaction /\
      (exists mp, mp ∈ b_MinerPayouts b /\ A (sco_UnlockHash mp)) \/
    pt_TransactionID pt = Transaction_ID (pt_Transaction pt) /\ pt_Transaction pt ∈ b_Transactions b /\
      (exists uh, uh ∈ txn_hashes (pt_Transaction pt) /\ A uh);
  eo_payouts mp : mp ∈ b_MinerPayouts b -> sco_UnlockHash mp ∈ K -> Block_ID b ∈ pt_ids seg;
  eo_complete txn uh : txn ∈ b_Transactions b -> uh ∈ txn_hashes txn -> uh ∈ K ->
    Transaction_ID txn ∈ pt_ids seg
}.

Lemma entries_mono K (A A' : UnlockHash -> Prop) b h seg :
  (forall uh, A uh -> A' uh) -> entries_of K A b h seg -> entries_of K A' b h seg.
Proof. intros HA [H1 H2 H3 H4 H5]. split; try done. intros pt Hpt. destruct (H3 pt Hpt); naive_solver. Qed.

(** What makes a transaction or the payouts of a block relevant. *)
Lemma relevant_txn_spec w txn : relevant_txn w txn = true <->
  exists uh, uh ∈ txn_hashes txn /\ isWalletAddress w uh = true.
Proof. unfold relevant_txn. rewrite existsb_exists. by setoid_rewrite list_elem_of_In. Qed.
Lemma relevant_payouts_spec w b : relevant_payouts w b = true <->
  exists mp, mp ∈ b_MinerPayouts b /\ isWalletAddress w (sco_UnlockHash mp) = true.
Proof. unfold relevant_payouts. rewrite existsb_exists. by setoid_rewrite list_elem_of_In. Qed.

Lemma for_fold_total {A X} (Q : string -> Prop) (body : Z -> A -> X -> M Wallet X) (w : Wallet) l : forall i x0,
  (forall i a x, match body i a x w with Ret _ w' => w' = w | Err _ _ => False | Panic msg => Q msg end) ->
  match for_fold body i l x0 w with Ret _ w' => w' = w | Err _ _ => False | Panic msg => Q msg end.
Proof.
  induction l as [|a l IH]; intros i x0 Hb; cbn [for_fold]; [done|]. unfold mbind, M_bind.
  specialize (Hb i a x0) as Ha. destruct (body i a x0 w) as [x w'|e w'|msg]; [|done..]. subst w'. by apply IH.
Qed.

Lemma process_txn_run w sc sf b h txn w0 :
  match process_txn w sc sf b h txn w0 with
  | Ret pt w' => w' = w0 /\ pt_Transaction pt = txn /\ pt_TransactionID pt = Transaction_ID txn /\
      pt_ConfirmationHeight pt = h /\ pt_ConfirmationTimestamp pt = b_Timestamp b
  | Err _ _ => False
  | Panic msg => msg = "negative currency"%string
  end.
Proof.
  unfold process_txn. unfold mbind at 1, M_bind at 1.
  match goal with |- context [for_fold ?body 0 ?l [] w0] =>
    pose proof (for_fold_total (fun msg => msg = "negative currency"%string) body w0 l 0 []) as Hf end.
  match type of Hf with ?X -> _ => assert (Hb : X) end.
  { intros i sfi acc. unfold process_sfi, panic_if, mbind, M_bind, mret, M_ret. by destruct (DEBUG && _). }
  specialize (Hf Hb). by destruct (for_fold _ 0 _ [] w0) as [sfis w'|e w'|msg]; [subst|..].
Qed.

(** The transactions of a block, after [acc]. *)
Lemma txn_entries_run (K : gset UnlockHash) (A : UnlockHash -> Prop) w sc sf b h l : forall i acc,
  (forall uh, isWalletAddress w uh = true -> A uh) ->
  (forall uh, uh ∈ K -> isWalletAddress w uh = true) ->
  match for_fold (fun _ txn pts =>
      if relevant_txn w txn then pt ← process_txn w sc sf b h txn; mret (pts ++ [pt]) else mret pts) i l acc w with
  | Ret pts w' => w' = w /\ exists seg, pts = acc ++ seg /\ pt_ids seg `sublist_of` (Transaction_ID <$> l) /\
      (forall pt, pt ∈ seg -> pt_ConfirmationHeight pt = h /\ pt_ConfirmationTimestamp pt = b_Timestamp b /\
         pt_TransactionID pt = Transaction_ID (pt_Transaction pt) /\ pt_Transaction pt ∈ l /\
         exists uh, uh ∈ txn_hashes (pt_Transaction pt) /\ A uh) /\
      (forall txn uh, txn ∈ l -> uh ∈ txn_hashes txn -> uh ∈ K -> Transaction_ID txn ∈ pt_ids seg)
  | Err _ _ => False
  | Panic msg => msg = "negative currency"%string
  end.
Proof.
  induction l as [|txn l IH]; intros i acc HA HK; cbn [for_fold].
  { split; [done|]. exists []. rewrite app_nil_r.
    split_and!; [done|done|by intros ? ?%elem_of_nil|by intros ? ? ?%elem_of_nil]. }
  unfold mbind at 1, M_bind at 1. destruct (relevant_txn w txn) eqn:Hrel.
  - pose proof (process_txn_run w sc sf b h txn w) as Hp. unfold mbind at 1, M_bind at 1.
    destruct (process_txn w sc sf b h txn w) as [pt w'|e w'|msg]; [|done..].
    destruct Hp as (-> & Ht & Hid & Hh & Hts). cbn [mret M_ret]. specialize (IH (i + 1) (acc ++ [pt]) HA HK).
    unfold mret, M_ret. destruct (for_fold _ (i + 1) l _ w) as [pts w'|e w'|msg]; [|done..].
    destruct IH as (-> & seg & -> & Hsub & Hpl & Hcm). split; [done|]. exists (pt :: seg).
    rewrite <- app_assoc. split_and!; [done|cbn; rewrite Hid; by constructor|..].
    + intros pt' [->|Hin]%elem_of_cons.
      * rewrite Ht. apply relevant_txn_spec in Hrel as (uh & Hu & Hm). split_and!; try done; [by left|].
        exists uh. auto.
      * destruct (Hpl pt' Hin) as (? & ? & ? & ? & ?). split_and!; try done. by right.
    + intros txn' uh [->|Hin]%elem_of_cons Huh HuK; cbn; [rewrite Hid; by left|right; by eapply Hcm].
  - unfold mret, M_ret. specialize (IH (i + 1) acc HA HK).
    destruct (for_fold _ (i + 1) l _ w) as [pts w'|e w'|msg]; [|done..].
    destruct IH as (-> & seg & -> & Hsub & Hpl & Hcm). split; [done|]. exists seg.
    split_and!; [done|by constructor|..].
    + intros pt' Hin. destruct (Hpl pt' Hin) as (? & ? & ? & ? & ?). split_and!; try done. by right.
    + intros txn' uh [->|Hin]%elem_of_cons Huh HuK; [|by eapply Hcm]. exfalso.
      apply not_true_iff_false in Hrel. apply Hrel, relevant_txn_spec. exists uh. auto.
Qed.

Lemma computeProcessedTransactions_run (K : gset UnlockHash) (A : UnlockHash -> Prop) b sc sf h w :
  (forall uh, isWalletAddress w uh = true -> A uh) ->
  (forall uh, uh ∈ K -> isWalletAddress w uh = true) ->
  match computeProcessedTransactionsFromBlock b sc sf h w with
  | Ret seg w' => w' = w /\ entries_of K A b h seg
  | Err _ _ => False
  | Panic msg => msg = "negative currency"%string
  end.
Proof.
  intros HA HK. unfold computeProcessedTransactionsFromBlock. unfold get, mbind at 1, M_bind at 1.
  set (acc := if relevant_payouts w b then [miner_pt w b h] else []).
  pose proof (txn_entries_run K A w sc sf b h (b_Transactions b) 0 acc HA HK) as Hrun.
  destruct (for_fold _ 0 (b_Transactions b) acc w) as [pts w'|e w'|msg]; [|done..].
  destruct Hrun as (-> & seg & -> & Hsub & Hpl & Hcm). split; [done|].
  assert (Hacc : acc = [] /\ (forall mp, mp ∈ b_MinerPayouts b -> sco_UnlockHash mp ∉ K) \/
    acc = [miner_pt w b h] /\ exists mp, mp ∈ b_MinerPayouts b /\ A (sco_UnlockHash mp)).
  { unfold acc. destruct (relevant_payouts w b) eqn:He; [right|left]; (split; [done|]).
    - apply relevant_payouts_spec in He as (mp & Hmp & Hm). exists mp. auto.
    - intros mp Hmp HmK. apply not_true_iff_false in He. apply He, relevant_payouts_spec. exists mp. auto. }
  split.
  - destruct Hacc as [[-> _]|[-> _]]; cbn; by constructor.
  - intros pt [Hin|Hin]%elem_of_app; [|by destruct (Hpl pt Hin) as (? & ? & _)].
    destruct Hacc as [[-> _]|[-> _]]; [by apply elem_of_nil in Hin|]. by apply list_elem_of_singleton in Hin as ->.
  - intros pt [Hin|Hin]%elem_of_app; [left|right; by destruct (Hpl pt Hin) as (_ & _ & ? & ? & ?)].
    destruct Hacc as [[-> _]|[-> ?]]; [by apply elem_of_nil in Hin|]. by apply list_elem_of_singleton in Hin as ->.
  - intros mp Hmp HmK. destruct Hacc as [[_ Hno]|[-> _]]; [by destruct (Hno mp Hmp)|]. cbn. by left.
  - intros txn uh Ht Hu HuK. rewrite fmap_app. apply elem_of_app. right. by eapply Hcm.
Qed.

Lemma append_entries_run seg : forall pts w,
  stack (w_db w) pts -> NoDup (pt_ids (pts ++ seg)) -> Z.of_nat (length (pts ++ seg)) < 2 ^ 64 ->
  exists w', for_each (fun pt => modify_wdb (dbAppendProcessedTransaction pt)) seg w = Ret () w' /\
    stack (w_db w') (pts ++ seg) /\ clear_history w' = clear_history w /\
    wd_ConsensusHeight (w_db w') = wd_ConsensusHeight (w_db w).
Proof.
  induction seg as [|pt seg IH]; intros pts w Hst Hnd Hlen; cbn [for_each].
  { exists w. by rewrite app_nil_r. }
  unfold modify_wdb at 1, modify, mbind at 1, M_bind at 1. rewrite cons_middle, app_assoc in *.
  destruct (IH (pts ++ [pt]) (with_wdb (dbAppendProcessedTransaction pt (w_db w)) w)) as (w' & R1 & R2 & R3 & R4).
  - apply stack_append; [done|rewrite !length_app in Hlen; cbn in Hlen; lia|].
    rewrite !fmap_app in Hnd. apply NoDup_app in Hnd as (Hnd & _ & _). apply NoDup_app in Hnd as (_ & Hni & _).
    intros Hin. apply (Hni _ Hin). cbn. by left.
  - done.
  - done.
  - exists w'. by split_and!.
Qed.

Lemma apply_wallet_block_run (K : gset UnlockHash) (A : UnlockHash -> Prop) b sc sf pts w :
  (forall uh, isWalletAddress w uh = true -> A uh) ->
  (forall uh, uh ∈ K -> isWalletAddress w uh = true) -> stack (w_db w) pts ->
  (forall seg, pt_ids seg `sublist_of` block_ids b ->
     NoDup (pt_ids (pts ++ seg)) /\ Z.of_nat (length (pts ++ seg)) < 2 ^ 64) ->
  let h := if bool_decide (Block_ID b <> Block_ID GenesisBlock)
           then u64 (wd_ConsensusHeight (w_db w) + 1) else wd_ConsensusHeight (w_db w) in
  match apply_wallet_block sc sf b w with
  | Ret _ w' => exists seg, entries_of K A b h seg /\ stack (w_db w') (pts ++ seg) /\
      clear_history w' = clear_history w /\ wd_ConsensusHeight (w_db w') = h
  | Err _ _ => False
  | Panic msg => msg = "negative currency"%string
  end.
Proof.
  intros HA HK Hst Hroom h. set (w1 := with_wdb (dbPutConsensusHeight h (w_db w)) w).
  assert (Heq : apply_wallet_block sc sf b w =
    match computeProcessedTransactionsFromBlock b sc sf h w1 with
    | Ret seg w' => for_each (fun pt => modify_wdb (dbAppendProcessedTransaction pt)) seg w'
    | Err e w' => Err e w'
    | Panic msg => Panic msg
    end) by done.
  rewrite Heq. pose proof (computeProcessedTransactions_run K A b sc sf h w1 HA HK) as Hc.
  destruct (computeProcessedTransactionsFromBlock b sc sf h w1) as [seg w'|e w'|msg]; [|done..].
  destruct Hc as [-> Hent]. destruct (Hroom seg (eo_ids _ _ _ _ _ Hent)) as [Hnd Hlen].
  destruct (append_entries_run seg pts w1) as (w' & -> & R2 & R3 & R4); [by apply put_height_stack|done..|].
  exists seg. split_and!; [done|done|by rewrite R3|by rewrite R4].
Qed.
End history.
