(* ===== verification/WalletMoves.v ===== *)
(** * What a wallet does on its own

    Between two consensus changes a wallet hands out addresses, builds and signs
    transactions and hears of unconfirmed ones.  None of this touches the
    confirmed outputs or the history; the keys only move on along the seed, by
    at most as many addresses as the operation may ask for. *)

From S2P Require Import Prelude Bytes Interfaces Currency Types Params Encoding Transactions.
From S2P Require Import Decoding Signatures ConsensusSubscribe TransactionPool Wallet WalletUpdate.
From S2P Require Import WalletBuilder WalletKeys.

Open Scope Z_scope.

(** What consensus changes determine. *)
Definition settled (w : Wallet) :=
  let d := w_db w in
  (wd_SiacoinOutputs d, wd_SiafundOutputs d, wd_SiafundPool d, wd_ProcessedTransactions d,
   wd_Sequence d, wd_ProcessedTxnIndex d, wd_ConsensusHeight d).

(** What the keys consist of. *)
Definition key_part (w : Wallet) :=
  (w_primarySeed w, w_keys w, w_lookahead w, w_watchedAddrs w, wd_PrimarySeedProgress (w_db w)).

Section moves.
Context {B : Build} {P : Params} {C : Crypto} {E : SiaEncoding} {D : SiaDecoder}.
Context {S : Ed25519} {WP : WalletParams}.
Context (cursor : forall V : Type, gmap Hash V -> list (Hash * V)).
Context (sort_outputs : list (SiacoinOutputID * SiacoinOutput) -> list (SiacoinOutputID * SiacoinOutput)).

(** ** The operations *)

(** The pool tells its subscribers of the set it took, and answers. *)
Definition pool_answer (news : list TransactionPoolDiff) (verdict : err) (_ : list Transaction) : M Wallet () :=
  _ ← for_each ReceiveUpdatedUnconfirmedTransactions news; check verdict.

Inductive walletOp :=
| OpAddresses (n : Z)
| OpSend (synced : bool) (news : list TransactionPoolDiff) (verdict : err)
    (fees : Currency * Currency) (amount fee : Currency) (dest : UnlockHash)
| OpSendMulti (synced : bool) (news : list TransactionPoolDiff) (verdict : err)
    (fees : Currency * Currency) (outputs : list SiacoinOutput)
| OpSendFunds (synced : bool) (news : list TransactionPoolDiff) (verdict : err)
    (fees : Currency * Currency) (amount : Currency) (dest : UnlockHash)
| OpDefrag (news : list TransactionPoolDiff) (verdict : err) (fees : Currency * Currency)
| OpUnconfirmed (diff : TransactionPoolDiff).

Definition ignore {A} (m : M Wallet A) : M Wallet () := _ ← m; mret ().
Definition run_op (op : walletOp) : M Wallet () :=
  match op with
  | OpAddresses n => ignore (NextAddresses n)
  | OpSend synced news verdict fees amount fee dest =>
      ignore (managedSendSiacoins cursor sort_outputs synced (pool_answer news verdict) fees amount fee dest)
  | OpSendMulti synced news verdict fees outputs =>
      ignore (SendSiacoinsMulti cursor sort_outputs synced (pool_answer news verdict) fees outputs)
  | OpSendFunds synced news verdict fees amount dest =>
      ignore (SendSiafunds cursor sort_outputs synced (pool_answer news verdict) fees amount dest)
  | OpDefrag news verdict fees =>
      Wallet_threadedDefragWallet cursor sort_outputs (pool_answer news verdict) fees
  | OpUnconfirmed diff => ReceiveUpdatedUnconfirmedTransactions diff
  end.

(** How many addresses an operation may ask for. *)
Definition op_cost (op : walletOp) (w : Wallet) : Z :=
  match op with
  | OpAddresses n => n
  | OpSend _ _ _ _ _ _ _ | OpSendMulti _ _ _ _ _ | OpDefrag _ _ _ => 2
  | OpSendFunds _ _ _ _ _ _ => 5 + zlen (cursor _ (wd_SiafundOutputs (w_db w)))
  | OpUnconfirmed _ => 0
  end.

(** ** What they keep *)

Context (seed : Seed) (N p0 : Z).
Context (Hinj : addrs_differ seed N) (HN : N < 2 ^ 64).
Context (Hthr : 0 <= lookaheadRescanThreshold) (Hbuf : 0 <= lookaheadBuffer) (Hp0 : 0 <= p0).

Record moved (p p' : Z) (w w' : Wallet) : Prop := mkMoved {
  mv_le : p <= p';
  mv_keys : keys_at seed N p0 p' w';
  mv_settled : settled w' = settled w;
  mv_address uh : isWalletAddress w' uh = true <->
    isWalletAddress w uh = true \/ exists i, p <= i < p' /\ uh = addr seed i
}.

Lemma moved_trans p p1 p2 w w1 w2 : moved p p1 w w1 -> moved p1 p2 w1 w2 -> moved p p2 w w2.
Proof.
  intros [L1 K1 S1 A1] [L2 K2 S2 A2]. split; [lia|done|congruence|]. intros uh. rewrite A2, A1. split.
  - intros [[?|(i & Hi & ->)]|(i & Hi & ->)]; [by left|right; exists i; split; [lia|done]..].
  - intros [?|(i & Hi & ->)]; [by left; left|]. destruct (decide (i < p1)).
    + left. right. exists i. split; [lia|done].
    + right. exists i. split; [lia|done].
Qed.

Lemma keys_at_part p w w' : key_part w' = key_part w -> keys_at seed N p0 p w -> keys_at seed N p0 p w'.
Proof.
  intros Hk [K1 K2 K3 K4 K5 K6]. unfold key_part in Hk. injection Hk as H1 H2 H3 _ H5.
  split; rewrite ?H1, ?H2, ?H3, ?H5; done.
Qed.

Lemma moved_idle p w w' :
  keys_at seed N p0 p w -> key_part w' = key_part w -> settled w' = settled w -> moved p p w w'.
Proof.
  intros Hka Hk Hs. split; [lia|by apply (keys_at_part p w)|done|].
  unfold key_part in Hk. injection Hk as _ H2 _ H4 _.
  intros uh. unfold isWalletAddress. rewrite H2, H4. split; [by left|]. intros [?|(i & Hi & _)]; [done|lia].
Qed.

Lemma moved_seed p p' w :
  keys_at seed N p0 p w -> p <= p' -> fits N p' -> moved p p' w (move_seed seed p p' w).
Proof.
  intros Hk Hle Hf. split; [done|by apply move_seed_keys|done|]. intros uh.
  rewrite (move_seed_address seed). by replace (p + Z.of_nat (Z.to_nat (p' - p))) with p' by lia.
Qed.

(** An outcome reached with at most [c] more addresses. *)
Definition lands {St A} (wallet_of : St -> Wallet) (c p : Z) (w : Wallet) (o : outcome St A) : Prop :=
  match o with
  | Ret _ s | Err _ s => exists p', p' <= p + c /\ moved p p' w (wallet_of s)
  | Panic _ => True
  end.
Definition walks {St A} (wallet_of : St -> Wallet) (c : Z) (m : M St A) : Prop := forall s p,
  keys_at seed N p0 p (wallet_of s) -> fits N (p + c) -> lands wallet_of c p (wallet_of s) (m s).

Section rules.
Context {St : Type} (wallet_of : St -> Wallet).

Lemma walks_bind {A Y} c1 c2 (m : M St A) (k : A -> M St Y) : 0 <= c1 -> 0 <= c2 ->
  walks wallet_of c1 m -> (forall a, walks wallet_of c2 (k a)) -> walks wallet_of (c1 + c2) (m ≫= k).
Proof.
  intros H1 H2 Hm Hk s p Hka Hf. assert (0 <= p) by (pose proof (ka_start _ _ _ _ _ Hka); lia).
  assert (Hf1 : fits N (p + c1)) by (eapply fits_le; [|exact Hf]; lia). specialize (Hm s p Hka Hf1).
  unfold mbind, M_bind. destruct (m s) as [a s1|e s1|msg]; cbn in Hm |- *; [|destruct Hm as (p1 & ? & ?); exists p1; split; [lia|done]|done].
  destruct Hm as (p1 & Hp1 & Hmv1). pose proof (mv_le _ _ _ _ Hmv1).
  assert (Hf2 : fits N (p1 + c2)) by (eapply fits_le; [|exact Hf]; lia).
  specialize (Hk a s1 p1 (mv_keys _ _ _ _ Hmv1) Hf2). destruct (k a s1) as [y s2|e s2|msg]; cbn in Hk |- *; [| |done];
    destruct Hk as (p2 & Hp2 & Hmv2); exists p2; (split; [lia|by eapply moved_trans]).
Qed.

Lemma walks_bind0 {A Y} c (m : M St A) (k : A -> M St Y) : 0 <= c ->
  walks wallet_of 0 m -> (forall a, walks wallet_of c (k a)) -> walks wallet_of c (m ≫= k).
Proof. intros Hc Hm Hk. apply (walks_bind 0 c); [lia|done..]. Qed.

Lemma walks_more {A} c c' (m : M St A) : 0 <= c <= c' -> walks wallet_of c m -> walks wallet_of c' m.
Proof.
  intros Hc Hm s p Hka Hf. assert (0 <= p) by (pose proof (ka_start _ _ _ _ _ Hka); lia).
  assert (Hf1 : fits N (p + c)) by (eapply fits_le; [|exact Hf]; lia). specialize (Hm s p Hka Hf1).
  destruct (m s); cbn in *; [..|done]; destruct Hm as (p1 & ? & ?); exists p1; (split; [lia|done]).
Qed.

Lemma walks_idle {A} (m : M St A) :
  (forall s, match m s with
             | Ret _ s' | Err _ s' => key_part (wallet_of s') = key_part (wallet_of s) /\
                 settled (wallet_of s') = settled (wallet_of s)
             | Panic _ => True
             end) -> walks wallet_of 0 m.
Proof.
  intros Hm s p Hka _. specialize (Hm s). destruct (m s); cbn; [..|done]; destruct Hm as [Hk Hs];
    exists p; (split; [lia|by apply moved_idle]).
Qed.

Lemma walks_for_each {A} (body : A -> M St ()) l :
  (forall x, walks wallet_of 0 (body x)) -> walks wallet_of 0 (for_each body l).
Proof.
  intros Hb. induction l as [|x l IH]; cbn [for_each]; [by apply walks_idle|].
  by apply walks_bind0; [lia|..].
Qed.
End rules.

Lemma walks_on_wallet {A} c (m : M Wallet A) : walks id c m -> walks bd_wallet c (on_wallet m).
Proof.
  intros Hm s p Hka Hf. specialize (Hm (bd_wallet s) p Hka Hf). unfold on_wallet.
  by destruct (m (bd_wallet s)).
Qed.

Lemma walks_next n : 0 <= n -> walks id n (nextPrimarySeedAddresses n).
Proof.
  intros Hn w p Hka Hf. cbn [id] in *. pose proof (ka_start _ _ _ _ _ Hka).
  destruct (maxLookahead_fits N HN Hthr Hbuf (p + n)) as (_ & ? & ?); [lia|done|].
  rewrite (nextPrimarySeedAddresses_run seed N p0 HN Hp0 p n w Hka) by lia.
  destruct (w_unlocked w); cbn.
  - exists (p + n). split; [lia|]. apply moved_seed; [done|lia|done].
  - exists p. split; [lia|]. by apply moved_idle.
Qed.

(** ** The steps of the operations *)

Lemma walks_get {St A} (f : St -> Wallet) c (k : St -> M St A) :
  (forall s, walks f c (k s)) -> walks f c (get ≫= k).
Proof. intros Hk s p Hka Hf. by apply (Hk s s p). Qed.
Lemma walks_ret {St A} (f : St -> Wallet) (a : A) : walks f 0 (mret a).
Proof. by apply walks_idle. Qed.
Lemma walks_check {St} (f : St -> Wallet) e : walks f 0 (check e).
Proof. apply walks_idle. intros s. by destruct e. Qed.
Lemma walks_panic_if {St} (f : St -> Wallet) b msg : walks f 0 (panic_if b msg).
Proof. apply walks_idle. intros s. by destruct b. Qed.
Lemma walks_or_range {St A} (f : St -> Wallet) (x : option A) : walks f 0 (or_range x).
Proof. apply walks_idle. intros s. by destruct x. Qed.
Lemma walks_modify_tb g : walks bd_wallet 0 (modify_tb g).
Proof. by apply walks_idle. Qed.

Lemma walks_modify_wdb g :
  (forall d, wd_PrimarySeedProgress (g d) = wd_PrimarySeedProgress d) ->
  (forall w, settled (with_wdb (g (w_db w)) w) = settled w) -> walks id 0 (modify_wdb g).
Proof. intros H1 H2. apply walks_idle. intros w. cbn. split; [|apply H2]. unfold key_part. cbn. by rewrite H1. Qed.

Lemma spend_ids_settled ids h : forall d,
  wd_PrimarySeedProgress (spend_ids ids h d) = wd_PrimarySeedProgress d /\
  forall w, settled (with_wdb (spend_ids ids h d) w) = settled (with_wdb d w).
Proof.
  unfold spend_ids. induction ids as [|x ids IH]; intros d; cbn [fold_left]; [done|].
  destruct (IH (dbPutSpentOutput x h d)) as [-> IH2]. split; [done|]. intros w. by rewrite IH2.
Qed.
Lemma unspend_txns_settled txns d :
  wd_PrimarySeedProgress (unspend_txns txns d) = wd_PrimarySeedProgress d /\
  forall w, settled (with_wdb (unspend_txns txns d) w) = settled (with_wdb d w).
Proof.
  unfold unspend_txns. generalize (txns ≫= fun t => sci_ParentID <$> t_SiacoinInputs t). intros ids.
  revert d. induction ids as [|x ids IH]; intros d; cbn [fold_left]; [done|].
  destruct (IH (dbDeleteSpentOutput x d)) as [-> IH2]. split; [done|]. intros w. by rewrite IH2.
Qed.

Lemma walks_spend_ids ids h : walks id 0 (modify_wdb (spend_ids ids h)).
Proof. apply walks_modify_wdb; intros; apply spend_ids_settled. Qed.
Lemma walks_unspend txns : walks id 0 (modify_wdb (unspend_txns txns)).
Proof. apply walks_modify_wdb; intros; apply unspend_txns_settled. Qed.
Lemma walks_put_spent x h : walks id 0 (modify_wdb (dbPutSpentOutput x h)).
Proof. by apply walks_modify_wdb. Qed.

Lemma walks_nextAddress : walks id 1 nextPrimarySeedAddress.
Proof.
  apply (walks_bind id 1 0); [lia..|by apply walks_next|]. intros [|uc l]; by apply walks_idle.
Qed.
Lemma walks_sync : walks id 0 syncDB.
Proof. apply walks_get. intros w. apply walks_check. Qed.

Lemma walks_NextAddresses n : 0 <= n -> walks id n (NextAddresses n).
Proof.
  intros Hn. replace n with (n + 0) at 1 by lia. apply (walks_bind id n 0 (nextPrimarySeedAddresses n)
    (fun ucs => _ ← syncDB; mret ucs)); [lia..|by apply walks_next|].
  intros ucs. apply walks_bind0; [lia|apply walks_sync|]. intros. apply walks_ret.
Qed.

Lemma walks_unconfirmed diff : walks id 0 (ReceiveUpdatedUnconfirmedTransactions diff).
Proof.
  apply walks_bind0; [lia| |].
  { apply walks_idle. intros w. cbn. by destruct (dropped_txids _ _). }
  intros _. apply walks_for_each. intros ut. unfold add_unconfirmed_set.
  destruct (ut_Change ut) as [change|]; [|by apply walks_idle].
  apply walks_bind0; [lia|by apply walks_idle|]. intros _. generalize 0 at 2.
  generalize (computeSpentSiacoinOutputSet (ccd_SiacoinOutputDiffs change)). intros spent.
  induction (ut_Transactions ut) as [|txn l IH]; intros i; cbn [for_fold]; [apply walks_ret|].
  apply walks_bind0; [lia| |intros []; apply IH]. apply walks_get. intros w.
  destruct (unconfirmed_relevant w txn); [|apply walks_ret].
  by destruct (ut_IDs ut !! Z.to_nat i); apply walks_idle.
Qed.

Lemma walks_pool_answer news verdict ts : walks id 0 (pool_answer news verdict ts).
Proof.
  apply walks_bind0; [lia|apply walks_for_each, walks_unconfirmed|]. intros. apply walks_check.
Qed.

(** ** The builder *)

Ltac walk_step :=
  lazymatch goal with
  | |- walks _ _ (get ≫= _) => apply walks_get; intros ?
  | |- walks _ _ (on_wallet nextPrimarySeedAddress ≫= _) => idtac
  | |- walks _ _ (_ ≫= _) => apply walks_bind0; [lia| |intros ?]
  | |- walks _ 0 (mret _) => apply walks_ret
  | |- walks _ 0 (check _) => apply walks_check
  | |- walks _ 0 (panic_if _ _) => apply walks_panic_if
  | |- walks _ 0 (or_range _) => apply walks_or_range
  | |- walks _ 0 (modify_tb _) => apply walks_modify_tb
  | |- walks _ 0 (modify_wdb (spend_ids _ _)) => apply walks_spend_ids
  | |- walks _ 0 (modify_wdb (dbPutSpentOutput _ _)) => apply walks_put_spent
  | |- walks _ 0 (on_wallet _) => apply walks_on_wallet
  end.
Ltac walk := repeat walk_step.

Lemma walks_fund_fixed fees amount parentUC refundUC :
  walks bd_wallet 0 (FundSiacoinsFixedAddress cursor sort_outputs fees amount parentUC refundUC).
Proof.
  apply walks_get. intros s. cbv zeta. destruct (select_outputs _ _ _ _ _ _ _) as [[chosen fund] potential]. walk.
Qed.

Lemma walks_address_then {A} c (k : UnlockConditions -> M building A) : 0 <= c ->
  (forall uc, walks bd_wallet c (k uc)) -> walks bd_wallet (1 + c) (on_wallet nextPrimarySeedAddress ≫= k).
Proof. intros Hc Hk. apply walks_bind; [lia|done|apply walks_on_wallet, walks_nextAddress|done]. Qed.

Lemma walks_fund fees amount : walks bd_wallet 2 (FundSiacoins cursor sort_outputs fees amount).
Proof.
  apply (walks_address_then 1); [lia|]. intros uc. apply (walks_address_then 0); [lia|]. intros uc'.
  apply walks_fund_fixed.
Qed.

Lemma walks_select_siafunds h amount l : forall fund potential,
  walks id (zlen l) (select_siafunds h amount l fund potential).
Proof.
  induction l as [|[id sfo] l IH]; intros fund potential; cbn [select_siafunds]; [apply walks_ret|].
  unfold zlen in *. cbn [length]. rewrite Nat2Z.inj_succ, <- Z.add_1_l. apply walks_get. intros w. cbv zeta.
  destruct (_ <? default 0 _); [eapply walks_more; [|apply IH]; lia|].
  destruct (h <? _); [eapply walks_more; [|apply IH]; lia|].
  apply walks_bind; [lia|lia|apply walks_nextAddress|]. intros uc. destruct (0 <=? _).
  - eapply walks_more; [|apply walks_ret]. lia.
  - replace (Z.of_nat (length l)) with (Z.of_nat (length l) + 0) by lia.
    apply walks_bind; [lia|lia|apply IH|]. intros [[sfis f] pf]. apply walks_ret.
Qed.

Lemma walks_refund amount fund : walks id 1 (refund_funds amount fund).
Proof.
  unfold refund_funds. destruct (Currency.Equals amount fund); [eapply walks_more; [|apply walks_ret]; lia|].
  apply (walks_bind id 1 0); [lia..|apply walks_nextAddress|]. intros. apply walks_ret.
Qed.

(** The claim address of every input, then an address for the parent, the refund
    and the claim of the new input. *)
Lemma walks_fund_siafunds amount s p :
  keys_at seed N p0 p (bd_wallet s) ->
  let c := 3 + zlen (cursor _ (wd_SiafundOutputs (w_db (bd_wallet s)))) in
  fits N (p + c) -> lands bd_wallet c p (bd_wallet s) (FundSiafunds cursor amount s).
Proof.
  intros Hka c. revert p Hka. unfold FundSiafunds. set (outputs := cursor _ _) in c.
  assert (Hw : walks bd_wallet c
    ('(sfis, fund, potentialFund) ← on_wallet (select_siafunds (wd_ConsensusHeight (w_db (bd_wallet s))) amount
        outputs Currency.ZeroCurrency Currency.ZeroCurrency);
     _ ← check (check_fund amount fund potentialFund);
     parentUC ← on_wallet nextPrimarySeedAddress;
     refund ← on_wallet (refund_funds amount fund);
     let unsigned :=
       append_to [] [] [] [] [] sfis
         (mkSiafundOutput amount (UnlockConditions_UnlockHash parentUC) Currency.ZeroCurrency :: refund)
         [] [] [] empty_transaction in
     s0 ← get;
     parentTxn ← or_range (sign_all (bd_wallet s0) (wd_ConsensusHeight (w_db (bd_wallet s)))
       ((fun sfi => (sfi_ParentID sfi, sfi_UnlockConditions sfi)) <$> sfis) unsigned);
     claimUC ← on_wallet nextPrimarySeedAddress;
     _ ← modify_tb (add_siafund_funding parentTxn parentUC (UnlockConditions_UnlockHash claimUC));
     on_wallet (modify_wdb (spend_ids (sfi_ParentID <$> sfis) (wd_ConsensusHeight (w_db (bd_wallet s))))))).
  { unfold c. rewrite Z.add_comm. apply walks_bind; [unfold zlen; lia|lia|apply walks_on_wallet, walks_select_siafunds|].
    intros [[sfis fund] potential]. walk_step; [walk|]. apply (walks_address_then 2); [lia|]. intros uc.
    apply (walks_bind bd_wallet 1 1); [lia..|apply walks_on_wallet, walks_refund|]. intros refund. cbv zeta.
    walk_step. walk_step; [walk|]. apply (walks_address_then 0); [lia|]. intros. walk. }
  intros p Hka Hf. exact (Hw s p Hka Hf).
Qed.

Lemma walks_sign_input cf h input i : walks bd_wallet 0 (sign_input cf h input i).
Proof.
  apply walks_get. intros s. walk_step; [walk|]. destruct a as [parentID uc].
  destruct (w_keys _ !! _) as [key|]; [|by apply walks_idle]. walk_step; [walk|]. destruct a as [t l]. walk.
Qed.
Lemma walks_sign whole : walks bd_wallet 0 (Builder_Sign whole).
Proof. unfold Builder_Sign. walk; apply walks_for_each, walks_sign_input. Qed.
Lemma walks_add_field f len : walks bd_wallet 0 (add_field f len).
Proof. unfold add_field. walk. Qed.

(** ** Sending *)

Lemma drop_lands c p w s :
  (exists p', p' <= p + c /\ moved p p' w (bd_wallet s)) ->
  match Drop s with Ret _ s' | Err _ s' => exists p', p' <= p + c /\ moved p p' w (bd_wallet s') | Panic _ => True end.
Proof.
  intros (p' & Hle & Hm). cbn. exists p'. split; [done|]. eapply moved_trans; [exact Hm|].
  apply moved_idle; [apply Hm|..].
  - unfold key_part. cbn. by rewrite (proj1 (unspend_txns_settled _ _)).
  - exact (proj2 (unspend_txns_settled _ (w_db (bd_wallet s))) (bd_wallet s)).
Qed.

Lemma with_builder_lands c p w news verdict body : 0 <= c ->
  keys_at seed N p0 p w -> fits N (p + c) ->
  (forall tb, lands bd_wallet c p w (body (mkBuilding w tb))) ->
  lands id c p w (with_builder (pool_answer news verdict) body w).
Proof.
  intros Hc Hka Hf Hbody. specialize (Hbody StartTransaction). unfold with_builder, mbind, M_bind.
  destruct (body (mkBuilding w StartTransaction)) as [ts s|e s|msg]; cbn [lands] in Hbody; [| |done].
  - destruct Hbody as (p1 & Hle & Hm).
    assert (Hf1 : fits N (p1 + 0)).
    { pose proof (ka_start _ _ _ _ _ (mv_keys _ _ _ _ Hm)). eapply fits_le; [|exact Hf]; lia. }
    pose proof (walks_on_wallet 0 _ (walks_pool_answer news verdict ts) s p1 (mv_keys _ _ _ _ Hm) Hf1) as Ha.
    destruct (on_wallet (pool_answer news verdict ts) s) as [u s1|e s1|msg]; cbn [lands] in Ha; [..|done].
    all: destruct Ha as (p2 & Hle2 & Hm2); assert (Hm' : exists p', p' <= p + c /\ moved p p' w (bd_wallet s1))
      by (exists p2; split; [lia|by eapply moved_trans]).
    + exact Hm'.
    + pose proof (drop_lands c p w s1 Hm') as Hd. by destruct (Drop s1).
  - pose proof (drop_lands c p w s Hbody) as Hd. by destruct (Drop s).
Qed.

Lemma walks_builder c news verdict body : 0 <= c -> walks bd_wallet c body ->
  walks id c (with_builder (pool_answer news verdict) body).
Proof.
  intros Hc Hb w p Hka Hf. apply with_builder_lands; [done..|]. intros tb. exact (Hb (mkBuilding w tb) p Hka Hf).
Qed.

Lemma walks_check_send synced : walks id 0 (check_send synced).
Proof. unfold check_send. walk. Qed.

Lemma walks_send synced news verdict fees amount fee dest :
  walks id 2 (managedSendSiacoins cursor sort_outputs synced (pool_answer news verdict) fees amount fee dest).
Proof.
  apply walks_bind0; [lia|apply walks_check_send|]. intros _. apply walks_builder; [lia|].
  apply (walks_bind bd_wallet 2 0); [lia..|apply walks_fund|]. intros _.
  walk_step; [apply walks_add_field|]. walk_step; [apply walks_add_field|]. apply walks_sign.
Qed.

Lemma walks_send_multi synced news verdict fees outputs :
  walks id 2 (SendSiacoinsMulti cursor sort_outputs synced (pool_answer news verdict) fees outputs).
Proof.
  apply walks_bind0; [lia|apply walks_check_send|]. intros _. apply walks_builder; [lia|].
  unfold send_multi. cbv zeta. walk_step; [apply walks_add_field|].
  apply (walks_bind bd_wallet 2 0); [lia..|apply walks_fund|]. intros _. walk_step; [|apply walks_sign].
  apply walks_for_each. intros sco. walk_step; [apply walks_add_field|walk].
Qed.

Lemma walks_defrag_txn fees : walks id 2 (managedCreateDefragTransaction cursor sort_outputs fees).
Proof.
  apply walks_get. intros w. cbv zeta. walk_step; [walk|].
  apply (walks_bind id 1 1); [lia..|apply walks_nextAddress|]. intros uc. walk_step. walk_step; [walk|].
  apply (walks_bind id 1 0); [lia..|apply walks_nextAddress|]. intros uc'. walk_step; [walk|]. walk_step.
  apply walks_bind0; [lia|walk|]. intros [txn l]. walk.
Qed.

Lemma walks_defrag news verdict fees :
  walks id 2 (Wallet_threadedDefragWallet cursor sort_outputs (pool_answer news verdict) fees).
Proof.
  intros w p Hka Hf. cbn [id] in *. unfold Wallet_threadedDefragWallet.
  destruct (_ || _). { exists p. split; [lia|]. by apply moved_idle. }
  pose proof (walks_defrag_txn fees w p Hka Hf) as Hd. cbn [id] in Hd.
  destruct (managedCreateDefragTransaction _ _ fees w) as [ts w1|e w1|msg]; [|done..].
  destruct Hd as (p1 & Hle & Hm).
  assert (Hf1 : fits N (p1 + 0)).
  { pose proof (ka_start _ _ _ _ _ (mv_keys _ _ _ _ Hm)). eapply fits_le; [|exact Hf]; lia. }
  pose proof (walks_pool_answer news verdict ts w1 p1 (mv_keys _ _ _ _ Hm) Hf1) as Ha. cbn [id] in Ha.
  destruct (pool_answer news verdict ts w1) as [u w2|e w2|msg]; [| |done]; destruct Ha as (p2 & Hle2 & Hm2);
    exists p2; (split; [lia|]); (eapply moved_trans; [exact Hm|]); [done|].
  eapply moved_trans; [exact Hm2|]. apply moved_idle; [apply Hm2|..].
  - unfold key_part. cbn. by rewrite (proj1 (unspend_txns_settled _ _)).
  - exact (proj2 (unspend_txns_settled ts (w_db w2)) w2).
Qed.

Lemma send_siafunds_lands fees amount dest w tb p :
  keys_at seed N p0 p w ->
  let c := 5 + zlen (cursor _ (wd_SiafundOutputs (w_db w))) in
  fits N (p + c) -> lands bd_wallet c p w (send_siafunds cursor sort_outputs fees amount dest (mkBuilding w tb)).
Proof.
  intros Hka c Hf. pose proof (ka_start _ _ _ _ _ Hka). set (k := zlen _) in c. assert (0 <= k) by (unfold k, zlen; lia).
  unfold send_siafunds. cbv zeta. unfold mbind at 1, M_bind at 1.
  pose proof (walks_fund fees (Currency.Mul64 (Currency.Mul64 fees.2 750) 5) (mkBuilding w tb) p Hka) as H1.
  cbn [bd_wallet] in H1. specialize (H1 ltac:(eapply fits_le; [|exact Hf]; unfold c; lia)).
  destruct (FundSiacoins _ _ _ _ _) as [u s1|e s1|msg]; cbn [lands] in H1 |- *; [| |done].
  2: { destruct H1 as (p1 & ? & ?). exists p1. split; [unfold c; lia|done]. }
  destruct H1 as (p1 & Hle & Hm). pose proof (mv_le _ _ _ _ Hm).
  assert (Hsame : wd_SiafundOutputs (w_db (bd_wallet s1)) = wd_SiafundOutputs (w_db w)).
  { pose proof (mv_settled _ _ _ _ Hm) as Hs. unfold settled in Hs. congruence. }
  pose proof (walks_fund_siafunds amount s1 p1 (mv_keys _ _ _ _ Hm)) as H2. cbv zeta in H2.
  rewrite Hsame in H2. fold k in H2. specialize (H2 ltac:(eapply fits_le; [|exact Hf]; unfold c; lia)).
  unfold mbind at 1, M_bind at 1.
  destruct (FundSiafunds _ _ s1) as [u2 s2|e s2|msg]; cbn [lands] in H2 |- *; [| |done].
  2: { destruct H2 as (p2 & ? & ?). exists p2. split; [unfold c; lia|by eapply moved_trans]. }
  destruct H2 as (p2 & Hle2 & Hm2). pose proof (mv_le _ _ _ _ Hm2).
  match goal with |- lands _ _ _ _ (?m s2) => assert (H3 : walks bd_wallet 0 m) end.
  { walk_step; [apply walks_add_field|]. walk_step; [apply walks_add_field|]. apply walks_sign. }
  specialize (H3 s2 p2 (mv_keys _ _ _ _ Hm2) ltac:(eapply fits_le; [|exact Hf]; unfold c; lia)).
  match goal with |- lands _ _ _ _ ?o => destruct o end; cbn [lands] in H3 |- *; [..|done];
    destruct H3 as (p3 & ? & Hm3); exists p3; (split; [unfold c; lia|]);
    (eapply moved_trans; [exact Hm|]); by eapply moved_trans.
Qed.

Lemma run_op_lands op w p :
  keys_at seed N p0 p w -> 0 <= op_cost op w -> fits N (p + op_cost op w) ->
  lands id (op_cost op w) p w (run_op op w).
Proof.
  assert (Hign : forall A (m : M Wallet A) c, lands id c p w (m w) -> lands id c p w (ignore m w)).
  { intros A m c Hm. unfold ignore, mbind, M_bind. by destruct (m w). }
  intros Hka Hc Hf. destruct op as [n|synced news verdict fees amount fee dest|synced news verdict fees outputs
    |synced news verdict fees amount dest|news verdict fees|diff]; cbn [op_cost run_op] in *.
  - by apply Hign, (walks_NextAddresses n).
  - by apply Hign, walks_send.
  - by apply Hign, walks_send_multi.
  - apply Hign. unfold SendSiafunds, mbind, M_bind.
    assert (Hcs : (exists e, check_send synced w = Err e w) \/ check_send synced w = Ret () w).
    { unfold check_send, get, check, err_if, throw, mbind, M_bind, mret, M_ret.
      destruct synced; cbn; [|left; by eexists]. destruct (w_unlocked w) eqn:Hu; cbn; [by right|left; by eexists]. }
    destruct Hcs as [[e ->]| ->]; cbn [lands].
    + exists p. split; [lia|]. by apply moved_idle.
    + apply with_builder_lands; [done..|]. intros tb. by apply send_siafunds_lands.
  - by apply walks_defrag.
  - by apply walks_unconfirmed.
Qed.
End moves.
