(* ===== verification/NodeWallet.v ===== *)
(** * The wallet of a node

    The wallet composed with the consensus set it subscribes to: whatever blocks
    arrive and whatever it does in between, until it starts a rescan its
    confirmed outputs are those of the consensus set that belong to it, and its
    history is that of the current path. *)

From S2P Require Import Prelude Bytes Interfaces Currency Types Params Target Encoding Transactions.
From S2P Require Import Decoding Signatures Subsidy ConsensusDB GenerateDiffs ProcessedBlock BlockValidation.
From S2P Require Import Fork Accept ConsensusSubscribe Journal Agree Records Chain ChainFork ChainAccept.
From S2P Require Import ChainState ChangeLog Subscription Replay Node TransactionPool NodePool.
From S2P Require Import Wallet WalletUpdate WalletBuilder WalletKeys WalletHistory WalletMoves.

Open Scope Z_scope.

(** ** The outputs that are kept *)

Section keep.
Context {V : Type} (keep : V -> bool).

Definition kept (m : gmap Hash V) : gmap Hash V := filter (fun kv => keep kv.2 = true) m.
Definition keep_edit (e : edit Hash V) (m : gmap Hash V) : gmap Hash V := if keep e.2 then jput e m else m.

Lemma keep_edit_kept e m : jok id e m -> keep_edit e (kept m) = kept (jput e m).
Proof.
  unfold keep_edit, kept. destruct e as [[[] k] v]; cbn.
  - intros Hk. destruct (keep v) eqn:Hv.
    + by rewrite map_filter_insert_True.
    + rewrite map_filter_insert_False by (cbn; congruence). by rewrite delete_id.
  - intros (x & Hk & <-). cbn. rewrite map_filter_delete. destruct (keep x) eqn:Hv; [done|].
    rewrite delete_id; [done|]. apply map_lookup_filter_None. right. intros y Hy. cbn. congruence.
Qed.

Lemma keep_edits_kept l : forall m, jlegal id l m ->
  foldl (fun m e => keep_edit e m) (kept m) l = kept (jrun l m).
Proof. induction l as [|e l IH]; intros m; cbn; [done|]. intros [He Hl]. rewrite keep_edit_kept by done. by apply IH.
Qed.

Lemma jrun_values (Q : V -> Prop) (l : list (edit Hash V)) : forall m,
  (forall k v, m !! k = Some v -> Q v) -> Forall (fun e => Q e.2) l -> forall k v, jrun l m !! k = Some v -> Q v.
Proof.
  induction l as [|[[[] k0] v0] l IH]; intros m Hm Hl; cbn [jrun]; [done|..]; inversion Hl; subst; apply IH; try done.
  - cbn [jput]. intros k v [[_ <-]|[_ Hk]]%lookup_insert_Some; [done|by eapply Hm].
  - cbn [jput]. intros k v [_ Hk]%lookup_delete_Some. by eapply Hm.
Qed.
End keep.

Lemma kept_ext {V} (f g : V -> bool) m :
  (forall k v, m !! k = Some v -> f v = g v) -> kept f m = kept g m.
Proof. intros Hfg. apply map_filter_ext. intros k v Hk. cbn. by rewrite (Hfg k v Hk). Qed.

Section wallet.
Context {P : Params} {C : Crypto} {E : SiaEncoding} {D : SiaDecoder} {S : Ed25519} {WP : WalletParams}.
Context (r : release).
#[local] Hint Extern 0 Build => exact (debug_build r) : typeclass_instances.
Context (cursor : forall V : Type, gmap Hash V -> list (Hash * V)).
Context (sort_outputs : list (SiacoinOutputID * SiacoinOutput) -> list (SiacoinOutputID * SiacoinOutput)).

Definition mine_sco (w : Wallet) (sco : SiacoinOutput) : bool := isWalletAddress w (sco_UnlockHash sco).
Definition mine_sfo (w : Wallet) (sfo : SiafundOutput) : bool := isWalletAddress w (sfo_UnlockHash sfo).

Lemma updateConfirmedSet_run cc w :
  updateConfirmedSet cc w = Ret () (with_wdb (with_outputs
    (foldl (fun m e => keep_edit (mine_sco w) e m) (wd_SiacoinOutputs (w_db w))
       (scod_edit <$> ccd_SiacoinOutputDiffs (cc_Diffs cc)))
    (foldl (fun m e => keep_edit (mine_sfo w) e m) (wd_SiafundOutputs (w_db w))
       (sfod_edit <$> ccd_SiafundOutputDiffs (cc_Diffs cc)))
    (pool_run (ccd_SiafundPoolDiffs (cc_Diffs cc)) (wd_SiafundPool (w_db w))) (w_db w)) w).
Proof.
  unfold updateConfirmedSet, modify. do 2 f_equal. generalize (w_db w). intros d.
  assert (H1 : forall l d, fold_left (confirm_scod w) l d = with_outputs
    (foldl (fun m e => keep_edit (mine_sco w) e m) (wd_SiacoinOutputs d) (scod_edit <$> l))
    (wd_SiafundOutputs d) (wd_SiafundPool d) d).
  { induction l as [|[dir id0 sco] l IH]; intros d0; cbn [fold_left fmap list_fmap foldl]; [by destruct d0|].
    rewrite IH. unfold confirm_scod, keep_edit, mine_sco. cbn. by destruct (isWalletAddress _ _), dir. }
  assert (H2 : forall l d, fold_left (confirm_sfod w) l d = with_outputs (wd_SiacoinOutputs d)
    (foldl (fun m e => keep_edit (mine_sfo w) e m) (wd_SiafundOutputs d) (sfod_edit <$> l)) (wd_SiafundPool d) d).
  { induction l as [|[dir id0 sfo] l IH]; intros d0; cbn [fold_left fmap list_fmap foldl]; [by destruct d0|].
    rewrite IH. unfold confirm_sfod, keep_edit, mine_sfo. cbn. by destruct (isWalletAddress _ _), dir. }
  assert (H3 : forall l d, fold_left confirm_sfpd l d =
    with_outputs (wd_SiacoinOutputs d) (wd_SiafundOutputs d) (pool_run l (wd_SiafundPool d)) d).
  { induction l as [|x l IH]; intros d0; cbn [fold_left]; [by destruct d0|].
    rewrite IH. unfold confirm_sfpd, pool_run, pool_put. cbn. by destruct (sfpd_Direction x). }
  by rewrite H1, H2, H3.
Qed.

(** ** The wallet as a subscriber *)

(** The wallet and the threads its handler has started. *)
Record walletNode := mkWalletNode { wn_wallet : Wallet; wn_started : list walletThread }.

Definition wallet_process (d : DB) (cc : ConsensusChange) : M walletNode () := fun x =>
  match Wallet_ProcessConsensusChange cc (wn_wallet x) with
  | Ret threads w => Ret () (mkWalletNode w (wn_started x ++ threads))
  | Err e w => Err e (mkWalletNode w (wn_started x))
  | Panic msg => Panic msg
  end.

(** A rescan was started: a thread that subscribes the wallet again from the
    first block.  What it does is not modelled. *)
Abbreviation rescans x := (threadedResetSubscriptions ∈ wn_started x).

Context (seed : Seed) (N p0 limit : Z) (K : gset UnlockHash).

(** A wallet that was unlocked on a new database with a progress of [p0], and
    has the addresses [K]. *)
Definition new_wallet (w : Wallet) : Prop := exists w0,
  w_primarySeed w0 = seed /\ w_lookahead w0 = ∅ /\ w_db w0 = dbPutPrimarySeedProgress p0 dbReset /\
  w = regenerateLookahead p0 (integrateSeed seed p0 w0) /\
  forall uh, uh ∈ K -> isWalletAddress w uh = true.

Definition wallet_initial (x : walletNode) : Prop := new_wallet (wn_wallet x) /\ wn_started x = [].

(** An operation that does not use up the addresses of the seed, whether it
    succeeds or fails.  The thread [threadedDefragWallet] is one of them. *)
Definition wallet_step (_ : DB) (x x' : walletNode) : Prop := exists op p,
  let w := wn_wallet x in
  wd_PrimarySeedProgress (w_db w) = Some p /\ 0 <= op_cost cursor op w /\ fits N (p + op_cost cursor op w) /\
  (run_op cursor sort_outputs op w = Ret () (wn_wallet x') \/
   exists e, run_op cursor sort_outputs op w = Err e (wn_wallet x')) /\
  wn_started x' = wn_started x.

Definition wallet_node : Z -> ConsensusSet -> walletNode -> Prop :=
  node r wallet_process wallet_initial wallet_step.

(** The blocks pay no address of the seed at the index [limit] or above, and
    none at index 0 unless the wallet had handed it out from the start. *)
Definition pays_within (t : tree) : Prop := forall bid pb,
  t !! bid = Some pb -> pb_DiffsGenerated pb = true ->
  forall uh i, uh ∈ change_hashes (applied_diffs pb) -> 0 <= i < N -> uh = addr seed i ->
  i < limit /\ (i = 0 -> 0 < p0).

(** The IDs of the blocks and transactions of a path. *)
Definition path_ids (t : tree) (lp : list BlockID) : list TransactionID :=
  omap (fun bid => pb_Block <$> t !! bid) lp ≫= block_ids.

(** On every path they differ, and are few enough to be counted. *)
Definition history_fits (t : tree) : Prop := forall lp, chained t lp ->
  NoDup (path_ids t lp) /\ Z.of_nat (length (path_ids t lp)) < 2 ^ 64.

(** The history of a path for a wallet with the addresses [A], from the start
    with [K]: what its blocks add, one after the other. *)
Inductive wallet_history (A : UnlockHash -> Prop) (t : tree) : list BlockID -> list ProcessedTransaction -> Prop :=
| wallet_history_nil : wallet_history A t [] []
| wallet_history_snoc lp bid pb pts seg :
    wallet_history A t lp pts -> t !! bid = Some pb -> entries_of K A (pb_Block pb) (Z.of_nat (length lp)) seg ->
    wallet_history A t (lp ++ [bid]) (pts ++ seg).
Definition has (w : Wallet) (uh : UnlockHash) : Prop := isWalletAddress w uh = true.

(** No output pays an address of the seed that is not handed out. *)
Definition below (p : Z) (uh : UnlockHash) : Prop := forall i, 0 <= i < N -> uh = addr seed i -> i < p.

Record wallet_at (t : tree) (lp : list BlockID) (w : Wallet) : Prop := mkWalletAt {
  wa_keys : exists p, keys_at seed N p0 p w /\
    (forall id sco, mi_SiacoinOutputs (path_mirror t lp) !! id = Some sco -> below p (sco_UnlockHash sco)) /\
    (forall id sfo, mi_SiafundOutputs (path_mirror t lp) !! id = Some sfo -> below p (sfo_UnlockHash sfo));
  wa_addresses uh : uh ∈ K -> isWalletAddress w uh = true;
  wa_siacoins : wd_SiacoinOutputs (w_db w) = kept (mine_sco w) (mi_SiacoinOutputs (path_mirror t lp));
  wa_siafunds : wd_SiafundOutputs (w_db w) = kept (mine_sfo w) (mi_SiafundOutputs (path_mirror t lp));
  wa_pool : wd_SiafundPool (w_db w) = mi_SiafundPool (path_mirror t lp);
  wa_height : wd_ConsensusHeight (w_db w) = Z.of_nat (pred (length lp));
  wa_history : exists pts, stack (w_db w) pts /\ wallet_history (has w) t lp pts
}.

(** ** The tree grows *)

Lemma pays_within_grows t t' : grows t t' -> pays_within t' -> pays_within t.
Proof. intros Hg Hp bid pb Hpb Hgen. apply (Hp bid); [by eapply grows_generated|done]. Qed.

Lemma path_ids_app t l1 l2 : path_ids t (l1 ++ l2) = path_ids t l1 ++ path_ids t l2.
Proof. unfold path_ids. by rewrite omap_app, bind_app. Qed.

Lemma path_ids_one t bid pb : t !! bid = Some pb -> path_ids t [bid] = block_ids (pb_Block pb).
Proof. intros Hpb. unfold path_ids. cbn [omap list_omap]. rewrite Hpb. cbn. by rewrite app_nil_r. Qed.

Lemma path_ids_grows t t' lp : grows t t' -> chained t lp -> path_ids t' lp = path_ids t lp.
Proof.
  intros Hg Hch. unfold path_ids. f_equal.
  assert (Hin : forall bid, bid ∈ lp -> t' !! bid = t !! bid).
  { intros bid [i Hi]%list_elem_of_lookup. destruct (ch_block _ _ Hch i bid Hi) as (pb & Hpb & Hgen & _).
    by rewrite Hpb, (grows_generated _ _ _ _ Hg Hpb Hgen). }
  clear Hch. induction lp as [|bid lp IH]; [done|]. cbn [omap list_omap]. rewrite Hin by (by left).
  rewrite IH; [done|]. intros b Hb. apply Hin. by right.
Qed.

Lemma history_fits_grows t t' : grows t t' -> history_fits t' -> history_fits t.
Proof.
  intros Hg Hf lp Hch. rewrite <- (path_ids_grows t t' lp) by done. by apply Hf, (chained_grow t).
Qed.

Lemma history_mono (A A' : UnlockHash -> Prop) t lp pts :
  (forall uh, A uh -> A' uh) -> wallet_history A t lp pts -> wallet_history A' t lp pts.
Proof. intros HA. induction 1; econstructor; try done. by eapply entries_mono. Qed.

Lemma history_grows A t t' lp pts : grows t t' ->
  (forall bid, bid ∈ lp -> exists pb, t !! bid = Some pb /\ pb_DiffsGenerated pb = true) ->
  wallet_history A t lp pts -> wallet_history A t' lp pts.
Proof.
  intros Hg Hgen Hh. induction Hh as [|lp bid pb pts seg Hh IH Hpb Hs]; [constructor|].
  econstructor; [|..|exact Hs].
  - apply IH. intros b Hb. apply Hgen, elem_of_app. by left.
  - destruct (Hgen bid) as (pb' & Hpb' & Hg'); [apply elem_of_app; right; by left|].
    assert (pb' = pb) as -> by congruence. by eapply grows_generated.
Qed.

Lemma chained_generated t lp bid : chained t lp -> bid ∈ lp ->
  exists pb, t !! bid = Some pb /\ pb_DiffsGenerated pb = true.
Proof.
  intros Hch [i Hi]%list_elem_of_lookup. destruct (ch_block _ _ Hch i bid Hi) as (pb & Hpb & Hgen & _). by exists pb.
Qed.

Lemma wallet_at_grows t t' lp w : grows t t' -> chained t lp -> wallet_at t lp w -> wallet_at t' lp w.
Proof.
  intros Hg Hch [A1 A2 A3 A4 A5 A6 (pts & A7 & A8)].
  split; rewrite ?(path_mirror_grows t t' lp Hg Hch); try done.
  exists pts. split; [done|]. eapply history_grows; [done| |done]. intros bid. by apply chained_generated.
Qed.

Lemma history_sublist A t lp pts : wallet_history A t lp pts -> pt_ids pts `sublist_of` path_ids t lp.
Proof.
  induction 1 as [|lp bid pb pts seg Hh IH Hpb Hs]; [done|].
  rewrite fmap_app, path_ids_app, (path_ids_one _ _ _ Hpb).
  apply sublist_app; [done|exact (eo_ids _ _ _ _ _ Hs)].
Qed.

(** ** The history of one change *)

Lemma history_snoc_inv A t lp bid pts : wallet_history A t (lp ++ [bid]) pts -> exists pb pts0 seg,
  pts = pts0 ++ seg /\ wallet_history A t lp pts0 /\ t !! bid = Some pb /\
  entries_of K A (pb_Block pb) (Z.of_nat (length lp)) seg.
Proof.
  inversion 1 as [Hn|lp' bid' pb pts0 seg Hh Hpb Hs Heq]; [by destruct lp|].
  apply app_inj_tail in Heq as [-> ->]. by exists pb, pts0, seg.
Qed.

Lemma history_room A t lp pts : history_fits t -> chained t lp -> wallet_history A t lp pts ->
  NoDup (pt_ids pts) /\ Z.of_nat (length pts) < 2 ^ 64.
Proof.
  intros Hf Hch Hh. destruct (Hf lp Hch) as [Hnd Hlen]. pose proof (history_sublist _ _ _ _ Hh) as Hsub.
  split; [by eapply sublist_NoDup|]. apply sublist_length in Hsub. rewrite length_fmap in Hsub. lia.
Qed.

Lemma revertHistory_run A t front ids : forall pbs w pts,
  history_fits t -> front <> [] -> chained t (front ++ reverse ids) -> blocks_at t ids pbs ->
  stack (w_db w) pts -> wallet_history A t (front ++ reverse ids) pts ->
  wd_ConsensusHeight (w_db w) = Z.of_nat (pred (length (front ++ reverse ids))) ->
  exists w' pts', revertHistory (pb_Block <$> pbs) w = Ret () w' /\ stack (w_db w') pts' /\
    wallet_history A t front pts' /\ clear_history w' = clear_history w /\
    wd_ConsensusHeight (w_db w') = Z.of_nat (pred (length front)).
Proof.
  unfold revertHistory. induction ids as [|bid ids IH]; intros pbs w pts Hf Hne Hch Hb Hst Hh Hht;
    inversion Hb as [|? pb ? pbs' Hpb Hbs]; subst.
  { rewrite reverse_nil, app_nil_r in *. by exists w, pts. }
  rewrite reverse_cons, app_assoc in *. assert (Hne' : front ++ reverse ids <> []) by (by destruct front).
  destruct (chained_child t (front ++ reverse ids) bid pb Hch Hpb) as (Hid & Hpar & _ & Hlen).
  destruct (Hpar Hne') as [_ Hng]. destruct (history_room A t _ pts Hf Hch Hh) as [Hnd Hroom].
  destruct (history_snoc_inv _ _ _ _ _ Hh) as (pb' & pts0 & seg & -> & Hh0 & Hpb' & Hs).
  assert (pb' = pb) as -> by (cbn in Hpb; congruence).
  destruct (Hf _ Hch) as [Hnd' _]. rewrite path_ids_app, (path_ids_one _ _ _ Hpb') in Hnd'.
  apply NoDup_app in Hnd' as (_ & Hdis & _).
  destruct (revert_wallet_block_run (pb_Block pb) pts0 seg w) as (w1 & R1 & R2 & R3 & R4); try done.
  - exact (eo_ids _ _ _ _ _ Hs).
  - intros x Hx. apply Hdis. by apply (sublist_subseteq _ _ (history_sublist _ _ _ _ Hh0)).
  - intros (pt & Hpt & Hin)%list_elem_of_fmap.
    destruct (eo_txn _ _ _ _ _ Hs pt Hin) as [(_ & _ & mp & Hmp & _)|(He & Ht & _)].
    { intros Hn. rewrite Hn in Hmp. by apply elem_of_nil in Hmp. }
    exfalso. assert (Hn : NoDup (block_ids (pb_Block pb))).
    { destruct (Hf _ Hch) as [Hn _]. rewrite path_ids_app, (path_ids_one _ _ _ Hpb') in Hn.
      by apply NoDup_app in Hn as (_ & _ & ?). }
    apply NoDup_cons in Hn as [Hn _]. apply Hn. rewrite Hpt, He. by apply list_elem_of_fmap_2.
  - rewrite Hid, bool_decide_true in R4 by done.
    destruct (IH pbs' w1 pts0) as (w' & pts' & Q1 & Q2 & Q3 & Q4 & Q5); try done.
    { by eapply chained_take. }
    { rewrite R4, Hht, (length_app _ [bid]). cbn [length]. destruct (front ++ reverse ids); [done|].
      cbn [length] in *. rewrite u64_small; [lia|]. unfold is_u64. lia. }
    exists w', pts'. cbn [fmap list_fmap for_each]. unfold mbind, M_bind. rewrite R1. split_and!; try done. congruence.
Qed.

Lemma applyHistory_run A t sc sf front ids : forall pbs w pts,
  history_fits t -> ids = [] \/ chained t (front ++ ids) -> blocks_at t ids pbs ->
  (forall uh, has w uh -> A uh) ->
  (forall uh, uh ∈ K -> isWalletAddress w uh = true) -> stack (w_db w) pts -> wallet_history A t front pts ->
  wd_ConsensusHeight (w_db w) = Z.of_nat (pred (length front)) ->
  match for_each (apply_wallet_block sc sf) (pb_Block <$> pbs) w with
  | Ret _ w' => exists pts', stack (w_db w') pts' /\ wallet_history A t (front ++ ids) pts' /\
      clear_history w' = clear_history w /\ wd_ConsensusHeight (w_db w') = Z.of_nat (pred (length (front ++ ids)))
  | Err _ _ => False
  | Panic msg => msg = "negative currency"%string
  end.
Proof.
  revert front. induction ids as [|bid ids IH]; intros front pbs w pts Hf Hch Hb HA HK Hst Hh Hht;
    inversion Hb as [|? pb ? pbs' Hpb Hbs]; subst.
  { rewrite app_nil_r. by exists pts. }
  destruct Hch as [?|Hch]; [done|]. rewrite cons_middle, app_assoc in Hch |- *.
  assert (Hch1 : chained t (front ++ [bid])) by (eapply chained_take; [|done]; by destruct front).
  destruct (chained_child t front bid pb Hch1 Hpb) as (Hid & Hpar & Hgen & Hlen).
  destruct (Hf _ Hch1) as [Hnd Hroom]. cbn [fmap list_fmap for_each]. unfold mbind, M_bind.
  pose proof (apply_wallet_block_run K A (pb_Block pb) sc sf pts w HA HK Hst) as Ha. cbv zeta in Ha.
  specialize (Ha ltac:(intros seg Hseg;
    assert (Hsub : pt_ids (pts ++ seg) `sublist_of` path_ids t (front ++ [bid])) by
      (rewrite fmap_app, path_ids_app, (path_ids_one _ _ _ Hpb); apply sublist_app; [by eapply history_sublist|done]);
    split; [by eapply sublist_NoDup|apply sublist_length in Hsub; rewrite length_fmap in Hsub; lia])).
  destruct (apply_wallet_block sc sf (pb_Block pb) w) as [u w1|e w1|msg]; [|done..].
  destruct Ha as (seg & Hs & Hst1 & Hc1 & Hh1).
  assert (Hht' : (if bool_decide (Block_ID (pb_Block pb) <> Block_ID GenesisBlock)
    then u64 (wd_ConsensusHeight (w_db w) + 1) else wd_ConsensusHeight (w_db w)) = Z.of_nat (length front)).
  { rewrite Hid, Hht. destruct front as [|b0 front].
    - rewrite (Hgen eq_refl). by rewrite bool_decide_false by (intros Hn; by apply Hn).
    - rewrite bool_decide_true by (by apply Hpar). cbn [length] in *. rewrite u64_small; [lia|]. unfold is_u64. lia. }
  rewrite Hht' in Hs, Hh1.
  assert (HK1 : forall uh, uh ∈ K -> isWalletAddress w1 uh = true).
  { intros uh Huh. change (isWalletAddress (clear_history w1) uh = true). rewrite Hc1. by apply HK. }
  assert (HA1 : forall uh, has w1 uh -> A uh).
  { intros uh Huh. apply HA. change (isWalletAddress (clear_history w) uh = true). by rewrite <- Hc1. }
  specialize (IH (front ++ [bid]) pbs' w1 (pts ++ seg) Hf (or_intror Hch) Hbs HA1 HK1 Hst1
    (wallet_history_snoc _ _ _ _ _ _ _ Hh Hpb Hs)).
  rewrite Hh1, length_app in IH. cbn [length] in IH. specialize (IH ltac:(lia)).
  destruct (for_each _ _ w1) as [u2 w2|e w2|msg]; [|done..]. destruct IH as (pts' & Q1 & Q2 & Q3 & Q4).
  exists pts'. split_and!; try done. congruence.
Qed.

(** ** The addresses of one change *)

Lemma change_hashes_append x y uh :
  uh ∈ change_hashes (AppendDiffs x y) <-> uh ∈ change_hashes y \/ uh ∈ change_hashes x.
Proof. unfold change_hashes. cbn. rewrite !fmap_app, !elem_of_app. tauto. Qed.

Lemma change_hashes_concat l uh :
  uh ∈ change_hashes (concat_diffs l) -> exists cd, cd ∈ l /\ uh ∈ change_hashes cd.
Proof.
  unfold concat_diffs. induction l as [|cd l IH] using rev_ind; [by intros ?%elem_of_nil|].
  rewrite foldl_snoc, change_hashes_append. intros [Hu|Hu].
  - destruct (IH Hu) as (cd' & Hin & ?). exists cd'. split; [|done]. apply elem_of_app. by left.
  - exists cd. split; [|done]. apply elem_of_app. right. by left.
Qed.

Lemma change_hashes_reverted pb uh :
  uh ∈ change_hashes (reverted_diffs pb) -> uh ∈ change_hashes (applied_diffs pb).
Proof.
  unfold change_hashes. cbn. rewrite !elem_of_app, !fmap_reverse, !elem_of_reverse, <- !list_fmap_compose. tauto.
Qed.

Lemma change_pays d lp lp' cc uh i :
  change_between d lp lp' cc -> pays_within (db_BlockMap d) ->
  uh ∈ change_hashes (cc_Diffs cc) -> 0 <= i < N -> uh = addr seed i -> i < limit /\ (i = 0 -> 0 < p0).
Proof.
  intros [Hold Hnew Hb _ _ _] Hp Hu Hi Heq.
  destruct Hb as (front & rev & app & rpbs & apbs & -> & -> & _ & _ & Hr1 & Ha1 & [_ _ Dr Da Dd]).
  rewrite Dd, Dr, Da in Hu. apply change_hashes_concat in Hu as (cd & Hcd & Hu).
  apply elem_of_app in Hcd as [Hcd|Hcd]; apply list_elem_of_fmap in Hcd as (pb & -> & [j Hj]%list_elem_of_lookup).
  - apply change_hashes_reverted in Hu. destruct (Forall2_lookup_r _ _ _ _ _ Hr1 Hj) as (bid & Hbid & Hpb).
    assert (Hin : bid ∈ front ++ reverse rev) by (apply elem_of_app; right;
      by eapply elem_of_reverse, list_elem_of_lookup_2).
    destruct Hold as [Hn|Hold]; [rewrite Hn in Hin; by apply elem_of_nil in Hin|].
    destruct (chained_generated _ _ _ Hold Hin) as (pb' & Hpb' & Hg).
    assert (pb' = pb) as -> by congruence. by eapply Hp.
  - destruct (Forall2_lookup_r _ _ _ _ _ Ha1 Hj) as (bid & Hbid & Hpb).
    assert (Hin : bid ∈ front ++ app) by (apply elem_of_app; right; by eapply list_elem_of_lookup_2).
    destruct (chained_generated _ _ _ Hnew Hin) as (pb' & Hpb' & Hg).
    assert (pb' = pb) as -> by congruence. by eapply Hp.
Qed.

(** ** The wallet keeps up *)

Context (Hinj : addrs_differ seed N) (HN : N < 2 ^ 64).
Context (Hthr : 0 <= lookaheadRescanThreshold) (Hbuf : 0 <= lookaheadBuffer) (Hp0 : 0 <= p0).
Context (Hfit0 : fits N p0) (Hfit : fits N limit) (Hlimit : 0 < limit <= lookaheadRescanThreshold + lookaheadBuffer).

Lemma new_wallet_at t w : new_wallet w -> wallet_at t [] w.
Proof.
  intros (w0 & Hs & Hl & Hd & -> & HK).
  destruct (maxLookahead_fits N HN Hthr Hbuf p0 Hp0 Hfit0) as (_ & ? & ?).
  split; try done.
  - exists p0. split; [|done]. split; [done|cbn; by rewrite Hd|lia|done|..].
    + apply (regenerateLookahead_window seed N Hinj HN Hthr Hbuf p0 0); [done|done|done|lia|].
      cbn. rewrite Hl. intros uh i. rewrite lookup_empty. split; [done|lia].
    + intros i Hi. cbn. rewrite (generateKeys_from seed N HN) by lia.
      apply spend_keys_lookup. right. exists i. split; [lia|done].
  - cbn. rewrite Hd. cbn. unfold kept. by rewrite map_filter_empty.
  - cbn. rewrite Hd. cbn. unfold kept. by rewrite map_filter_empty.
  - cbn. by rewrite Hd.
  - cbn. by rewrite Hd.
  - exists []. split; [|constructor]. cbn. rewrite Hd. split; [done|..]; intros; cbn; rewrite lookup_empty;
      (split; [done|]); [by intros [_ ?]|by intros (_ & ? & ? & _)].
Qed.

Lemma mine_moved p p' w w' uh :
  moved seed N p0 p p' w w' -> 0 <= p -> below p uh -> isWalletAddress w' uh = isWalletAddress w uh.
Proof.
  intros [Hle Hk _ Ha] Hp Hb.
  destruct (maxLookahead_fits N HN Hthr Hbuf p') as (_ & ? & ?); [lia|apply Hk|].
  apply eq_true_iff_eq. rewrite Ha. split; [|by left]. intros [?|(i & Hi & ->)]; [done|].
  specialize (Hb i ltac:(lia) eq_refl). lia.
Qed.

Lemma below_mono p p' uh : p <= p' -> below p uh -> below p' uh.
Proof. intros Hle Hb i Hi Heq. specialize (Hb i Hi Heq). lia. Qed.

Lemma wallet_own d lp x x' : wallet_at (db_BlockMap d) lp (wn_wallet x) -> wallet_step d x x' ->
  wallet_at (db_BlockMap d) lp (wn_wallet x').
Proof.
  intros [(p & Hk & B1 & B2) A2 A3 A4 A5 A6 (pts & A7 & A8)] (op & p1 & Hp & Hc & Hf & Hrun & _).
  set (w := wn_wallet x) in *. set (w' := wn_wallet x') in *.
  assert (p1 = p) as -> by (pose proof (ka_progress _ _ _ _ _ Hk); congruence).
  pose proof (run_op_lands cursor sort_outputs seed N p0 Hinj HN Hthr Hbuf Hp0 op w p Hk Hc Hf) as Hl.
  assert (exists p', moved seed N p0 p p' w w') as [p' Hm].
  { destruct Hrun as [Hrun|[e Hrun]]; rewrite Hrun in Hl; destruct Hl as (p' & _ & Hm); by exists p'. }
  pose proof (mv_settled _ _ _ _ _ _ _ Hm) as Hs. unfold settled in Hs. injection Hs as S1 S2 S3 S4 S5 S6 S7.
  pose proof (ka_start _ _ _ _ _ Hk). pose proof (mv_le _ _ _ _ _ _ _ Hm).
  split; rewrite ?S1, ?S2, ?S3, ?S7; try done.
  - exists p'. split_and!; [apply Hm|..]; intros id o Ho; eapply below_mono; eauto.
  - intros uh Huh. apply (mv_address _ _ _ _ _ _ _ Hm). left. by apply A2.
  - rewrite A3. apply kept_ext. intros id o Ho. symmetry. eapply (mine_moved p p'); [done|lia|by eapply B1].
  - rewrite A4. apply kept_ext. intros id o Ho. symmetry. eapply (mine_moved p p'); [done|lia|by eapply B2].
  - exists pts. split.
    + destruct A7 as [T1 T2 T3]. split; [congruence|by rewrite S4|by rewrite S6].
    + eapply history_mono; [|exact A8]. intros uh Huh. apply (mv_address _ _ _ _ _ _ _ Hm). by left.
Qed.

(** ** One change *)

Lemma lookahead_moved d lp lp' cc w p :
  change_between d lp lp' cc -> pays_within (db_BlockMap d) -> keys_at seed N p0 p w ->
  exists rescan p' w1, updateLookahead cc w = Ret rescan w1 /\ moved seed N p0 p p' w w1 /\
    (limit <= p0 + lookaheadRescanThreshold -> rescan = false) /\
    forall uh, uh ∈ change_hashes (cc_Diffs cc) -> below p' uh.
Proof.
  intros Hcb Hp Hk.
  destruct (updateLookahead_run seed N p0 HN Hthr Hbuf Hp0 p limit cc w) as (rescan & p' & Hle & Hf' & Hrun & Hno & Hb);
    [done|done|lia|lia|by intros uh i; apply (change_pays d lp lp')|].
  exists rescan, p'. eexists. split; [exact Hrun|]. split; [|split; [done|intros uh Hu i; by apply Hb]].
  case_decide as Hd; [subst p'; by apply moved_idle|by apply moved_seed].
Qed.

(** The outputs after a change, for keys that cover what it pays. *)
Lemma confirmed_kept cd m m' p p' w w1 :
  carries cd m m' -> moved seed N p0 p p' w w1 -> 0 <= p -> (forall uh, uh ∈ change_hashes cd -> below p' uh) ->
  (forall id sco, mi_SiacoinOutputs m !! id = Some sco -> below p (sco_UnlockHash sco)) ->
  (forall id sfo, mi_SiafundOutputs m !! id = Some sfo -> below p (sfo_UnlockHash sfo)) ->
  (foldl (fun m e => keep_edit (mine_sco w1) e m) (kept (mine_sco w) (mi_SiacoinOutputs m))
     (scod_edit <$> ccd_SiacoinOutputDiffs cd) = kept (mine_sco w1) (mi_SiacoinOutputs m') /\
   forall id sco, mi_SiacoinOutputs m' !! id = Some sco -> below p' (sco_UnlockHash sco)) /\
  (foldl (fun m e => keep_edit (mine_sfo w1) e m) (kept (mine_sfo w) (mi_SiafundOutputs m))
     (sfod_edit <$> ccd_SiafundOutputDiffs cd) = kept (mine_sfo w1) (mi_SiafundOutputs m') /\
   forall id sfo, mi_SiafundOutputs m' !! id = Some sfo -> below p' (sfo_UnlockHash sfo)).
Proof.
  intros [[L1 R1] _ [L3 R3] _] Hm Hp Hb B1 B2. pose proof (mv_le _ _ _ _ _ _ _ Hm).
  split; (split; [|intros id o]).
  - rewrite (kept_ext (mine_sco w) (mine_sco w1)), keep_edits_kept by
      (done || (intros id o Ho; symmetry; eapply (mine_moved p p'); [done|done|by eapply B1])). by rewrite R1.
  - rewrite R1. apply (jrun_values (fun o => below p' (sco_UnlockHash o))).
    + intros k v Hk. eapply below_mono; eauto.
    + apply Forall_forall. intros e (x & -> & Hx)%list_elem_of_fmap. apply Hb. unfold change_hashes.
      apply elem_of_app. left. destruct x as [dir k0 o0].
      by apply (list_elem_of_fmap_2 (fun x => sco_UnlockHash (scod_SiacoinOutput x))) in Hx.
  - rewrite (kept_ext (mine_sfo w) (mine_sfo w1)), keep_edits_kept by
      (done || (intros id o Ho; symmetry; eapply (mine_moved p p'); [done|done|by eapply B2])). by rewrite R3.
  - rewrite R3. apply (jrun_values (fun o => below p' (sfo_UnlockHash o))).
    + intros k v Hk. eapply below_mono; eauto.
    + apply Forall_forall. intros e (x & -> & Hx)%list_elem_of_fmap. apply Hb. unfold change_hashes.
      apply elem_of_app. right. destruct x as [dir k0 o0].
      by apply (list_elem_of_fmap_2 (fun x => sfo_UnlockHash (sfod_SiafundOutput x))) in Hx.
Qed.

(** The two loops of the history. *)
Lemma change_history A d lp lp' cc w pts :
  change_between d lp lp' cc -> history_fits (db_BlockMap d) ->
  (forall uh, has w uh -> A uh) -> (forall uh, uh ∈ K -> isWalletAddress w uh = true) ->
  stack (w_db w) pts -> wallet_history A (db_BlockMap d) lp pts ->
  wd_ConsensusHeight (w_db w) = Z.of_nat (pred (length lp)) ->
  exists w1, revertHistory (cc_RevertedBlocks cc) w = Ret () w1 /\
  match applyHistory cc w1 with
  | Ret _ w' => exists pts', stack (w_db w') pts' /\ wallet_history A (db_BlockMap d) lp' pts' /\
      clear_history w' = clear_history w /\ wd_ConsensusHeight (w_db w') = Z.of_nat (pred (length lp'))
  | Err _ _ => False
  | Panic msg => msg = "negative currency"%string
  end.
Proof.
  intros [Hold Hnew Hb _ _ _] Hf HA HK Hst Hh Hht.
  destruct Hb as (front & rev & app & rpbs & apbs & -> & -> & Hne & Hk & Hr1 & Ha1 & [Dr Da _ _ _]).
  assert (exists w1 pts1, revertHistory (pb_Block <$> rpbs) w = Ret () w1 /\ stack (w_db w1) pts1 /\
    wallet_history A (db_BlockMap d) front pts1 /\ clear_history w1 = clear_history w /\
    wd_ConsensusHeight (w_db w1) = Z.of_nat (pred (length front))) as (w1 & pts1 & R1 & R2 & R3 & R4 & R5).
  { destruct (decide (rev = [])) as [->|Hn].
    - inversion Hr1; subst. rewrite reverse_nil, app_nil_r in *. by exists w, pts.
    - assert (Hlp : front ++ reverse rev <> []).
      { intros [_ H]%app_eq_nil. by apply (f_equal reverse) in H; rewrite reverse_involutive in H. }
      destruct Hold as [?|Hold]; [done|].
      exact (revertHistory_run A _ front rev rpbs w pts Hf (Hk Hlp) Hold Hr1 Hst Hh Hht). }
  exists w1. rewrite Dr. split; [done|]. unfold applyHistory. rewrite Da.
  assert (HK1 : forall uh, uh ∈ K -> isWalletAddress w1 uh = true).
  { intros uh Huh. change (isWalletAddress (clear_history w1) uh = true). rewrite R4. by apply HK. }
  assert (HA1 : forall uh, has w1 uh -> A uh).
  { intros uh Huh. apply HA. change (isWalletAddress (clear_history w) uh = true). by rewrite <- R4. }
  pose proof (applyHistory_run A (db_BlockMap d) (computeSpentSiacoinOutputSet (ccd_SiacoinOutputDiffs (cc_Diffs cc)))
    (computeSpentSiafundOutputSet (ccd_SiafundOutputDiffs (cc_Diffs cc))) front app apbs w1 pts1 Hf
    (or_intror Hnew) Ha1 HA1 HK1 R2 R3 R5) as Ha.
  destruct (for_each _ _ w1) as [u w2|e w2|msg]; [|done..]. destruct Ha as (pts' & Q1 & Q2 & Q3 & Q4).
  exists pts'. split_and!; try done. congruence.
Qed.

Lemma wallet_outcome d lp lp' cc w :
  change_between d lp lp' cc -> wallet_at (db_BlockMap d) lp w ->
  pays_within (db_BlockMap d) -> history_fits (db_BlockMap d) ->
  match Wallet_ProcessConsensusChange cc w with
  | Ret threads w' => wallet_at (db_BlockMap d) lp' w' /\
      (limit <= p0 + lookaheadRescanThreshold -> threadedResetSubscriptions ∉ threads)
  | Err _ _ => False
  | Panic msg => msg = "negative currency"%string
  end.
Proof.
  intros Hcb [(p & Hk & B1 & B2) A2 A3 A4 A5 A6 (pts & A7 & A8)] Hp Hf.
  destruct (lookahead_moved d lp lp' cc w p Hcb Hp Hk) as (rescan & p' & w1 & Hrun1 & Hm & Hno & Hb).
  pose proof (mv_settled _ _ _ _ _ _ _ Hm) as Hs. unfold settled in Hs. injection Hs as S1 S2 S3 S4 S5 S6 S7.
  pose proof (ka_start _ _ _ _ _ Hk).
  destruct (confirmed_kept (cc_Diffs cc) _ _ p p' w w1 (cb_carries _ _ _ _ Hcb) Hm ltac:(lia) Hb B1 B2)
    as [[C1 C2] [C3 C4]].
  pose proof (updateConfirmedSet_run cc w1) as Hrun2. rewrite S1, A3, C1, S2, A4, C3, S3, A5 in Hrun2.
  rewrite <- (cr_pool _ _ _ (cb_carries _ _ _ _ Hcb)) in Hrun2.
  match type of Hrun2 with _ = Ret () ?x => set (w2 := x) in * end.
  assert (HK2 : forall uh, uh ∈ K -> isWalletAddress w2 uh = true).
  { intros uh Huh. apply (mv_address _ _ _ _ _ _ _ Hm). left. by apply A2. }
  assert (Hst2 : stack (w_db w2) pts).
  { destruct A7 as [T1 T2 T3]. split; cbn; [congruence|by rewrite S4|by rewrite S6]. }
  assert (Hh2 : wallet_history (has w2) (db_BlockMap d) lp pts).
  { eapply history_mono; [|exact A8]. intros uh Huh. apply (mv_address _ _ _ _ _ _ _ Hm). by left. }
  destruct (change_history (has w2) d lp lp' cc w2 pts Hcb Hf (fun _ H => H) HK2 Hst2 Hh2) as (w3 & Hrun3 & Hrun4);
    [cbn; congruence|].
  unfold Wallet_ProcessConsensusChange, or_rollback, mbind, M_bind.
  rewrite Hrun1, Hrun2, Hrun3. destruct (applyHistory cc w3) as [u w4|e w4|msg]; [|done..].
  destruct Hrun4 as (pts' & Q1 & Q2 & Q3 & Q4). cbn [modify_wdb modify mret M_ret].
  assert (Hf4 : forall X (f : Wallet -> X), (forall x, f (clear_history x) = f x) -> f w4 = f w2).
  { intros X f Hx. by rewrite <- (Hx w4), Q3, Hx. }
  set (w5 := with_wdb (dbPutConsensusChangeID (cc_ID cc) (w_db w4)) w4).
  assert (Hmine : forall uh, isWalletAddress w5 uh = isWalletAddress w1 uh).
  { intros uh. exact (Hf4 _ (fun x => isWalletAddress x uh) (fun _ => eq_refl)). }
  assert (Hkey : key_part w5 = key_part w1) by exact (Hf4 _ key_part (fun _ => eq_refl)).
  split; [split|].
  - exists p'. split; [|done]. by apply (keys_at_part _ _ _ p' w1), (mv_keys _ _ _ _ _ _ _ Hm).
  - intros uh Huh. rewrite Hmine. by apply (HK2 uh).
  - transitivity (wd_SiacoinOutputs (w_db w2));
      [exact (Hf4 _ (fun x => wd_SiacoinOutputs (w_db x)) (fun _ => eq_refl))|].
    apply kept_ext. intros id o _. symmetry. apply Hmine.
  - transitivity (wd_SiafundOutputs (w_db w2));
      [exact (Hf4 _ (fun x => wd_SiafundOutputs (w_db x)) (fun _ => eq_refl))|].
    apply kept_ext. intros id o _. symmetry. apply Hmine.
  - exact (Hf4 _ (fun x => wd_SiafundPool (w_db x)) (fun _ => eq_refl)).
  - done.
  - exists pts'. split; [by destruct Q1|]. eapply history_mono; [|exact Q2]. intros uh Huh. unfold has.
    by rewrite Hmine.
  - intros Hl. rewrite (Hno Hl). destruct (cc_Synced cc); cbn [app]; [|by intros ?%elem_of_nil].
    by intros ?%list_elem_of_singleton.
Qed.

(** ** The node *)

(** Nothing is known of a wallet that is scanning again; none does so if the
    blocks stay within the threshold. *)
Definition wallet_J (t : tree) (lp : list BlockID) (x : walletNode) : Prop :=
  pays_within t -> history_fits t ->
  (~ rescans x -> wallet_at t lp (wn_wallet x)) /\ (limit <= p0 + lookaheadRescanThreshold -> ~ rescans x).
Definition wallet_K (_ : DB) (_ : walletNode) : Prop := True.

Lemma wallet_arrived d lp x :
  arrived wallet_initial wallet_J wallet_K d lp x ->
  pays_within (db_BlockMap d) -> history_fits (db_BlockMap d) ->
  (~ rescans x -> wallet_at (db_BlockMap d) lp (wn_wallet x)) /\
    (limit <= p0 + lookaheadRescanThreshold -> ~ rescans x).
Proof.
  intros [[-> [Hi Hs]]|[HJ _]] Hp Hf; [|by apply HJ]. rewrite Hs.
  split; [intros _; by apply new_wallet_at|by intros _ ?%elem_of_nil].
Qed.

Lemma wallet_keeps_up : keeps_up wallet_process wallet_initial wallet_step wallet_J wallet_K.
Proof.
  split.
  - intros t t' lp x Hg Hch HJ Hp Hf.
    destruct HJ as [H1 H2]; [by eapply pays_within_grows|by eapply history_fits_grows|].
    split; [|done]. intros Hx. by apply (wallet_at_grows t), H1.
  - done.
  - intros d lp x x' HJ _ Hstep. split; [|done]. intros Hp Hf. destruct (HJ Hp Hf) as [H1 H2].
    pose proof Hstep as (_ & _ & _ & _ & _ & _ & Hs). rewrite Hs.
    split; [|done]. intros Hx. eapply wallet_own; [by apply H1|done].
  - intros d lp lp' cc x x' Hcb Harr Hrun. split; [|done]. intros Hp Hf.
    destruct (wallet_arrived d lp x Harr Hp Hf) as [H1 H2].
    pose proof (fun Hx => wallet_outcome d lp lp' cc (wn_wallet x) Hcb (H1 Hx) Hp Hf) as Ho.
    unfold wallet_process in Hrun. destruct (Wallet_ProcessConsensusChange cc (wn_wallet x)); [|done..].
    injection Hrun as <-. cbn [wn_wallet wn_started]. rewrite elem_of_app. split.
    + intros Hx. apply Ho. tauto.
    + intros Hl [Hx|Hx]; [by apply (H2 Hl)|]. by apply (proj2 (Ho (H2 Hl)) Hl).
Qed.

Lemma wallet_proceeds :
  proceeds wallet_process wallet_initial wallet_J wallet_K
    (fun d => limit <= p0 + lookaheadRescanThreshold /\ pays_within (db_BlockMap d) /\ history_fits (db_BlockMap d))
    (fun _ msg => msg = "negative currency"%string).
Proof.
  intros d lp lp' cc x (Hl & Hp & Hf) Hcb Harr. destruct (wallet_arrived d lp x Harr Hp Hf) as [H1 H2].
  pose proof (wallet_outcome d lp lp' cc (wn_wallet x) Hcb (H1 (H2 Hl)) Hp Hf) as Ho.
  unfold wallet_process. by destruct (Wallet_ProcessConsensusChange cc (wn_wallet x)).
Qed.

Context (Hr : r <> Testing).

Lemma wallet_node_at n s x :
  below_forks n -> wallet_node n s x ->
  pays_within (db_BlockMap (cs_db s)) -> history_fits (db_BlockMap (cs_db s)) ->
  (limit <= p0 + lookaheadRescanThreshold -> ~ rescans x) /\
  exists lp, (0 < length lp)%nat /\ path_list (cs_db s) lp /\
    (~ rescans x -> wallet_at (db_BlockMap (cs_db s)) lp (wn_wallet x)) /\
    path_mirror (db_BlockMap (cs_db s)) lp = mirror_of (cs_db s).
Proof.
  intros Hn Hnode Hp Hf.
  destruct (node_keeps r Hr _ _ _ _ _ wallet_keeps_up n s x Hn Hnode) as (lp & Hpath & Hch & HJ & _).
  destruct (HJ Hp Hf) as [H1 H2]. split; [done|].
  exists lp. split_and!; [exact (lookup_lt_Some _ _ _ (ch_genesis _ _ Hch))|done|done|].
  eapply (path_mirror_db r Hr); [done|by eapply node_reachable|done..].
Qed.

(** C6. The wallet of a node knows what it owns: after any sequence of accepted
    and rejected blocks, with forks among them, and of addresses handed out,
    coins and funds sent, defragmentations and news of the pool in between,
    and as long as no rescan was started, its siacoin and siafund outputs are
    exactly those of the consensus set that pay one of its addresses, its
    siafund pool and height are the ones of the consensus set, every address of
    the seed below its progress is among its addresses and no output pays one
    above.  The blocks are taken to pay no address of the seed at [limit] or
    above, which lies within the first lookahead, and not the first one unless
    it was handed out.  If [limit] is also within the threshold of a rescan, no
    rescan is ever started, and the next blocks are taken without an error, so
    that the database is never marked for a rollback; the only panic left is
    the one of a claim that starts above the pool. *)
Theorem node_wallet_outputs n s x :
  below_forks n -> wallet_node n s x ->
  let d := cs_db s in
  let w := wn_wallet x in
  (pays_within (db_BlockMap d) -> history_fits (db_BlockMap d) ->
   (limit <= p0 + lookaheadRescanThreshold -> ~ rescans x) /\
   (~ rescans x ->
    wd_SiacoinOutputs (w_db w) = kept (mine_sco w) (db_SiacoinOutputs d) /\
    wd_SiafundOutputs (w_db w) = kept (mine_sfo w) (db_SiafundOutputs d) /\
    wd_SiafundPool (w_db w) = db_SiafundPool d /\ wd_ConsensusHeight (w_db w) = db_BlockHeight d /\
    exists p, wd_PrimarySeedProgress (w_db w) = Some p /\
      (forall i, 0 <= i < p -> isWalletAddress w (addr seed i) = true) /\
      (forall id sco, db_SiacoinOutputs d !! id = Some sco -> below p (sco_UnlockHash sco)) /\
      (forall id sfo, db_SiafundOutputs d !! id = Some sfo -> below p (sfo_UnlockHash sfo)))) /\
  forall clock blocks extended s' new synced,
    below_forks (n + Z.of_nat (length blocks)) -> Forall admissible blocks ->
    managedAcceptBlocks clock blocks s = Ret extended s' -> cs_published s' = cs_published s ++ new ->
    limit <= p0 + lookaheadRescanThreshold ->
    pays_within (db_BlockMap (cs_db s')) -> history_fits (db_BlockMap (cs_db s')) ->
    match deliver r wallet_process synced (cs_db s') new x with
    | Ret _ _ => True
    | Err _ _ => False
    | Panic msg => msg = "negative currency"%string
    end.
Proof.
  intros Hn Hnode d w. split.
  - intros Hp Hf. destruct (wallet_node_at n s x Hn Hnode Hp Hf) as (Hno & lp & Hpos & [Hlen _] & Hat & Hm).
    split; [done|]. intros Hx. destruct (Hat Hx) as [(p & Hk & B1 & B2) _ A3 A4 A5 A6 _]. rewrite Hm in *.
    split_and!; [done|done|done|unfold w; rewrite A6; fold d in Hlen; lia|]. exists p.
    split_and!; [apply Hk| |done|done]. intros i Hi. unfold isWalletAddress.
    rewrite bool_decide_true by (by apply (ka_spendable _ _ _ _ _ Hk)). done.
  - intros clock blocks extended s' new synced Hn' Hadm Hrun Hpub Hl Hp Hf.
    exact (node_proceeds r Hr _ _ _ _ _ wallet_keeps_up _ _ n s x clock blocks extended s' new synced
      wallet_proceeds (conj Hl (conj Hp Hf)) Hn' Hnode Hadm Hrun Hpub).
Qed.

(** C7. The history of the wallet of a node is the history of the current path:
    as long as no rescan was started, the bucket of processed transactions
    holds, in the order of the blocks of the path, entries for payouts and
    transactions of these blocks and no other, each with the height and the
    time of its block; each of them concerns an address of the wallet, whatever
    concerns an address the wallet had from the start is there, and the index
    finds each entry under its ID; so a reorganisation takes out exactly what
    the reverted blocks had put in.  The blocks are taken to pay no address of
    the seed beyond the first lookahead, and no rescan is started if they stay
    within the threshold of one. *)
Theorem node_wallet_history n s x :
  below_forks n -> wallet_node n s x ->
  pays_within (db_BlockMap (cs_db s)) -> history_fits (db_BlockMap (cs_db s)) ->
  (limit <= p0 + lookaheadRescanThreshold -> ~ rescans x) /\
  (~ rescans x -> exists lp pts, path_list (cs_db s) lp /\ stack (w_db (wn_wallet x)) pts /\
    wallet_history (has (wn_wallet x)) (db_BlockMap (cs_db s)) lp pts).
Proof.
  intros Hn Hnode Hp Hf. destruct (wallet_node_at n s x Hn Hnode Hp Hf) as (Hno & lp & _ & Hpath & Hat & _).
  split; [done|]. intros Hx. destruct (wa_history _ _ _ (Hat Hx)) as (pts & Hst & Hh). by exists lp, pts.
Qed.
End wallet.
