(* ===== verification/WalletSpend.v ===== *)
(** * Sending coins

    What [managedSendSiacoins] builds: a parent that gathers outputs of the
    wallet into one of the exact amount, and a transaction that spends it.  Both
    are balanced and carry signatures that consensus accepts; outputs are marked
    as spent, and given back if the pool refuses. *)

From S2P Require Import Prelude Bytes Interfaces Currency Types Params Encoding EncodingFacts Transactions.
From S2P Require Import Decoding Signatures SignaturesFacts ConsensusSubscribe TransactionPool.
From S2P Require Import Wallet WalletUpdate WalletBuilder WalletKeys WalletMoves.

Open Scope Z_scope.

(** A transaction with other signatures. *)
Definition with_signatures (sigs : list TransactionSignature) (t : Transaction) : Transaction :=
  mkTransaction (t_SiacoinInputs t) (t_SiacoinOutputs t) (t_FileContracts t) (t_FileContractRevisions t)
    (t_StorageProofs t) (t_SiafundInputs t) (t_SiafundOutputs t) (t_MinerFees t) (t_ArbitraryData t) sigs.

Lemma Cmp_leb x y : (0 <=? Currency.Cmp x y) = (y <=? x)%N.
Proof. rewrite Z.leb_antisym, Currency.Cmp_ltb. symmetry. apply N.leb_antisym. Qed.

Section spend.
Context {B : Build} {P : Params} {C : Crypto} {E : SiaEncoding} {D : SiaDecoder}.
Context {S : Ed25519} {WP : WalletParams} {L : Ed25519Laws C S}.

(** ** One signature *)

(** What is signed for an input, whatever the other signatures. *)
Definition input_digest (t : Transaction) (id : Hash) (height : BlockHeight) : option Hash :=
  wholeSigHash t (mkTransactionSignature id 0 0 FullCoveredFields []) height.

Lemma SigHash_whole t sigs i id sig h :
  sigs !! Z.to_nat i = Some (mkTransactionSignature id 0 0 FullCoveredFields sig) ->
  SigHash (with_signatures sigs t) i h = input_digest t id h.
Proof. intros Hi. unfold SigHash. cbn [with_signatures t_TransactionSignatures]. by rewrite Hi. Qed.

Lemma input_digest_signatures t sigs id h : input_digest (with_signatures sigs t) id h = input_digest t id h.
Proof. done. Qed.

Lemma input_digest_defined t id h : exists hash, input_digest t id h = Some hash.
Proof. unfold input_digest, wholeSigHash, write_indexed. cbn. by eexists. Qed.

(** The signature of a key of a seed. *)
Definition signature_of (k : spendableKey) (t : Transaction) (id : Hash) (h : BlockHeight) : TransactionSignature :=
  mkTransactionSignature id 0 0 FullCoveredFields
    match input_digest t id h, sk_SecretKeys k with
    | Some hash, sk :: _ => vec_to_list (SignHash hash sk)
    | _, _ => []
    end.

Lemma find_secret_generated sd :
  find_secret (Ed25519PublicKey (ed25519_GenerateKey sd).1) [(ed25519_GenerateKey sd).2] =
    Some (ed25519_GenerateKey sd).2.
Proof.
  unfold find_secret. rewrite filter_cons_True; [done|].
  unfold SecretKey_PublicKey. by rewrite GenerateKey_private, copy_array_vec.
Qed.

Lemma addSignatures_generated t sd i id h :
  let k := generateSpendableKey sd i in
  addSignatures t FullCoveredFields (sk_UnlockConditions k) id k h =
    Some (with_signatures (t_TransactionSignatures t ++ [signature_of k t id h]) t,
          [zlen (t_TransactionSignatures t)]).
Proof.
  intros k. unfold addSignatures, k, generateSpendableKey, GenerateKeyPairDeterministic.
  set (sd' := HashAll _). pose proof (find_secret_generated sd') as Hf.
  destruct (ed25519_GenerateKey sd') as [epk esk] eqn:Hg. cbn [fst snd] in Hf.
  cbn [sk_UnlockConditions sk_SecretKeys uc_PublicKeys uc_SignaturesRequired add_signatures].
  rewrite Hf. set (n := length (t_TransactionSignatures t)).
  assert (Hz : Z.to_nat (zlen (t_TransactionSignatures t)) = n) by (unfold zlen; lia).
  change (append_sig ?sig t) with (append_to [] [] [] [] [] [] [] [] [] [sig] t).
  assert (Happ : forall sig, append_to [] [] [] [] [] [] [] [] [] [sig] t =
    with_signatures (t_TransactionSignatures t ++ [sig]) t).
  { intros sig. unfold append_to, with_signatures. by rewrite !app_nil_r. }
  rewrite Happ. erewrite SigHash_whole by (rewrite Hz; unfold n; by rewrite list_lookup_middle).
  unfold signature_of. cbn [sk_SecretKeys]. destruct (input_digest_defined t id h) as [hash Hd]. rewrite Hd.
  cbn [mbind option_bind]. change (u64 (0 + 1) =? 1) with true. cbv match. do 2 f_equal.
  unfold set_signature, with_signatures. cbn. f_equal. rewrite Hz. unfold n.
  by rewrite alter_app_r_alt, Nat.sub_diag by lia.
Qed.

(** ** The keys of the wallet *)

(** Every key is one of a seed, under its address. *)
Definition keys_sound (w : Wallet) : Prop := forall uh k,
  w_keys w !! uh = Some k -> key_hash k = uh /\ exists sd i, k = generateSpendableKey sd i.

(** [sig] is the signature for an input, by the key of its conditions. *)
Definition signs (t : Transaction) (h : BlockHeight) (x : Hash * UnlockConditions) (sig : TransactionSignature)
  : Prop :=
  exists sd i, sk_UnlockConditions (generateSpendableKey sd i) = x.2 /\
    sig = signature_of (generateSpendableKey sd i) t x.1 h.

Lemma sign_all_run w h inputs : forall t,
  keys_sound w -> Forall (fun x => exists k, w_keys w !! UnlockConditions_UnlockHash x.2 = Some k /\
    sk_UnlockConditions k = x.2) inputs ->
  exists sigs, sign_all w h inputs t = Some (with_signatures (t_TransactionSignatures t ++ sigs) t) /\
    Forall2 (signs t h) inputs sigs.
Proof.
  induction inputs as [|[id uc] inputs IH]; intros t Hks Hin; cbn [sign_all].
  - exists []. split; [|constructor]. rewrite app_nil_r. by destruct t.
  - inversion Hin as [|? ? (k & Hk & Huc) Hin']; subst. cbn [snd] in *.
    destruct (Hks _ _ Hk) as (_ & sd & i & Hgen). unfold key_of. rewrite Hk. cbn [default].
    rewrite <- Huc, Hgen, addSignatures_generated. cbn [mbind option_bind].
    destruct (IH (with_signatures (t_TransactionSignatures t ++ [signature_of k t id h]) t) Hks Hin')
      as (sigs & Hs & Hf). rewrite <- Hgen, Hs. exists (signature_of k t id h :: sigs). split.
    + cbn. by rewrite <- app_assoc.
    + constructor; [|done]. exists sd, i. by rewrite <- Hgen.
Qed.

Lemma signs_ok t h sigs j x sig :
  sigs !! j = Some sig -> signs t h x sig -> x ∈ signed_inputs (with_signatures sigs t) -> 0 <= h ->
  sig_ok (with_signatures sigs t) h (Z.of_nat j) sig.
Proof.
  destruct x as [id uc]. intros Hj (sd & i & Huc & ->) Hin Hh. cbn [fst snd] in *.
  destruct (input_digest_defined t id h) as [hash Hd].
  assert (Hsh : SigHash (with_signatures sigs t) (Z.of_nat j) h = Some hash).
  { rewrite <- Hd. eapply SigHash_whole. rewrite Nat2Z.id. exact Hj. }
  exists uc. unfold signature_of. rewrite Hd. cbn [ts_ParentID ts_PublicKeyIndex ts_Timelock]. rewrite <- Huc.
  unfold generateSpendableKey, GenerateKeyPairDeterministic in *. set (sd' := HashAll _) in *.
  pose proof (verify_Sign sd' (vec_to_list hash)) as Hv.
  destruct (ed25519_GenerateKey sd') as [epk esk]. cbn [sk_UnlockConditions sk_SecretKeys uc_PublicKeys fst snd] in *.
  exists (Ed25519PublicKey epk). split_and!; [by rewrite Huc|done|done|]. split.
  - cbn. intros Hbad. by apply (f_equal vec_to_list) in Hbad.
  - intros _. exists hash. split; [done|]. cbn [spk_Key Ed25519PublicKey ts_Signature]. by rewrite !copy_array_vec.
Qed.

Lemma signs_keys t h ins sigs : Forall2 (signs t h) ins sigs -> NoDup ins.*1 ->
  forall id, (id ∉ ins.*1 -> keys_for id sigs = []) /\
    forall uc, (id, uc) ∈ ins -> keys_for id sigs = [0] /\ uc_SignaturesRequired uc = 1.
Proof.
  intros Hf. induction Hf as [|[id' uc'] sig ins sigs (sd & i & Huc & ->) Hf IH]; intros Hnd id.
  { split; [done|]. by intros uc ?%elem_of_nil. }
  cbn [fst snd fmap list_fmap] in *. apply NoDup_cons in Hnd as [Hni Hnd]. specialize (IH Hnd).
  unfold keys_for. rewrite filter_cons. cbn [signature_of ts_ParentID]. split.
  - intros [Hn1 Hn2]%not_elem_of_cons. rewrite decide_False by congruence. by apply IH.
  - intros uc [[= -> ->]|Hin]%elem_of_cons.
    + rewrite decide_True by done. cbn [fmap list_fmap signature_of ts_PublicKeyIndex].
      fold (keys_for id' sigs). rewrite (proj1 (IH id') Hni). split; [done|].
      rewrite <- Huc. unfold generateSpendableKey. by destruct (GenerateKeyPairDeterministic _).
    + rewrite decide_False; [by apply IH|]. intros ->. apply Hni. by apply (list_elem_of_fmap_2 fst) in Hin.
Qed.

(** A transaction whose inputs are signed one by one is fully signed. *)
Lemma signed_valid t h sigs :
  t_FileContractRevisions t = [] -> t_SiafundInputs t = [] ->
  NoDup (sci_ParentID <$> t_SiacoinInputs t) -> 0 <= h ->
  Forall2 (signs t h) ((fun sci => (sci_ParentID sci, sci_UnlockConditions sci)) <$> t_SiacoinInputs t) sigs ->
  fully_signed (with_signatures sigs t) h.
Proof.
  intros Hfcr Hsfi Hnd Hh Hsig.
  assert (Hins : signed_inputs (with_signatures sigs t) =
    (fun sci => (sci_ParentID sci, sci_UnlockConditions sci)) <$> t_SiacoinInputs t).
  { unfold signed_inputs. cbn [with_signatures t_SiacoinInputs t_FileContractRevisions t_SiafundInputs].
    by rewrite Hfcr, Hsfi, !app_nil_r. }
  assert (Hnd' : NoDup (signed_inputs (with_signatures sigs t)).*1) by (rewrite Hins; by rewrite <- list_fmap_compose).
  rewrite <- Hins in Hsig. unfold fully_signed. split_and!; [| done | |].
  - apply Forall_lookup. intros j sig Hj. destruct (Forall2_lookup_r _ _ _ _ _ Hsig Hj) as (x & _ & sd & i & _ & ->).
    split; cbn; repeat constructor.
  - intros j sig Hj. destruct (Forall2_lookup_r _ _ _ _ _ Hsig Hj) as (x & Hx & Hs).
    eapply signs_ok; [done|done|by eapply list_elem_of_lookup_2|done].
  - change (t_TransactionSignatures (with_signatures sigs t)) with sigs.
    intros id uc Hin. destruct (proj2 (signs_keys _ _ _ _ Hsig Hnd' id) uc Hin) as [-> ->].
    split; [apply NoDup_singleton|done].
Qed.

(** ** The choice of outputs *)

Context (cursor : forall V : Type, gmap Hash V -> list (Hash * V)).
Context (sort_outputs : list (SiacoinOutputID * SiacoinOutput) -> list (SiacoinOutputID * SiacoinOutput)).
Context (Hsort : forall l, sort_outputs l ≡ₚ l).

Abbreviation value_of := (fun x : SiacoinOutputID * SiacoinOutput => sco_Value x.2).

(** The outputs that are considered, and those among them that can be spent. *)
Definition available (w : Wallet) : list (SiacoinOutputID * SiacoinOutput) :=
  cursor _ (wd_SiacoinOutputs (w_db w)) ++ unconfirmed_outputs w.
Definition usable_outputs (w : Wallet) (fees : Currency * Currency) (x : SiacoinOutputID * SiacoinOutput) : Prop :=
  checkOutput w (wd_ConsensusHeight (w_db w)) x.1 x.2 (DustThreshold fees) = None.
#[local] Instance usable_dec w fees x : Decision (usable_outputs w fees x).
Proof. unfold usable_outputs. apply _. Defined.

Lemma select_outputs_run w fees amount so : forall fund potential,
  let '(chosen, fund', _) :=
    select_outputs w (wd_ConsensusHeight (w_db w)) (DustThreshold fees) amount so fund potential in
  chosen `sublist_of` so /\ Forall (usable_outputs w fees) chosen /\ fund' = (fund + sum_of value_of chosen)%N /\
  ((amount <= fund')%N \/ fund' = (fund + sum_of value_of (filter (usable_outputs w fees) so))%N).
Proof.
  induction so as [|[id sco] so IH]; intros fund potential; cbn [select_outputs].
  { rewrite sum_of_nil. split_and!; [done|constructor|lia|right]. rewrite filter_nil, sum_of_nil. lia. }
  destruct (checkOutput w _ id sco _) as [e|] eqn:Hc.
  - specialize (IH fund (if bool_decide (e = errSpendHeightTooHigh) then Currency.Add potential (sco_Value sco) else potential)).
    destruct (select_outputs _ _ _ _ _ _ _) as [[chosen fund'] pot']. destruct IH as (I1 & I2 & I3 & I4).
    split_and!; [by constructor|done|done|]. rewrite filter_cons_False; [done|]. unfold usable_outputs. cbn [fst snd]. congruence.
  - assert (Hu : usable_outputs w fees (id, sco)) by done. rewrite Cmp_leb. unfold Currency.Add at 1 2.
    destruct (N.leb_spec amount (fund + sco_Value sco)).
    + split_and!; [constructor; apply sublist_nil_l|by repeat constructor|rewrite sum_of_cons, sum_of_nil; cbn; lia|by left].
    + specialize (IH (Currency.Add fund (sco_Value sco)) (Currency.Add potential (sco_Value sco))).
      destruct (select_outputs _ _ _ _ _ _ _) as [[chosen fund'] pot']. destruct IH as (I1 & I2 & I3 & I4).
      unfold Currency.Add in *.
      split_and!; [by constructor|by constructor|rewrite sum_of_cons; cbn; lia|].
      rewrite filter_cons_True by done. rewrite sum_of_cons. cbn [snd]. destruct I4; [by left|right; lia].
Qed.

(** ** Funding *)

Abbreviation input_pairs := (fmap (fun sci => (sci_ParentID sci, sci_UnlockConditions sci))).

(** The keys of all outputs are known: none is only watched. *)
Definition spendable (w : Wallet) : Prop := forall x,
  x ∈ available w -> is_Some (w_keys w !! sco_UnlockHash x.2).

Lemma check_fund_run amount fund potential :
  (fund < amount)%N /\ (check_fund amount fund potential = Some (WalletError ErrLowBalance) \/
    check_fund amount fund potential = Some (WalletError ErrIncompleteTransactions)) \/
  (amount <= fund)%N /\ check_fund amount fund potential = None.
Proof.
  unfold check_fund. rewrite Currency.Cmp_ltb. destruct (N.ltb_spec fund amount).
  - left. split; [done|]. destruct (0 <=? _); cbn; auto.
  - right. split; [done|]. by rewrite andb_false_r.
Qed.

Lemma parent_inputs_keys w amount fund parentUC refundUC chosen :
  keys_sound w -> (forall x, x ∈ chosen -> is_Some (w_keys w !! sco_UnlockHash x.2)) ->
  Forall (fun x => exists k, w_keys w !! UnlockConditions_UnlockHash x.2 = Some k /\ sk_UnlockConditions k = x.2)
    (input_pairs (t_SiacoinInputs (parent_txn w amount fund parentUC refundUC chosen))) /\
  Forall2 (fun sci x => sci_ParentID sci = x.1 /\
      UnlockConditions_UnlockHash (sci_UnlockConditions sci) = sco_UnlockHash x.2)
    (t_SiacoinInputs (parent_txn w amount fund parentUC refundUC chosen)) chosen.
Proof.
  intros Hks Hsp. cbn [parent_txn append_to t_SiacoinInputs empty_transaction app].
  rewrite <- list_fmap_compose. rewrite Forall_fmap, Forall2_fmap_l.
  assert (Hone : forall x, x ∈ chosen -> exists k, w_keys w !! sco_UnlockHash x.2 = Some k /\ key_hash k = sco_UnlockHash x.2).
  { intros x Hx. destruct (Hsp x Hx) as [k Hk]. exists k. split; [done|]. by apply Hks. }
  split.
  - apply Forall_forall. intros x Hx. destruct (Hone x Hx) as (k & Hk & Hh). cbn. unfold key_of. rewrite Hk. cbn.
    exists k. unfold key_hash in Hh. rewrite Hh. done.
  - apply Forall_Forall2_diag, Forall_forall. intros x Hx. destruct (Hone x Hx) as (k & Hk & Hh). cbn.
    unfold key_of. by rewrite Hk.
Qed.

(** The calls in a row. *)
Lemma fund_fixed_eq fees amount parentUC refundUC s :
  let w := bd_wallet s in
  let h := wd_ConsensusHeight (w_db w) in
  FundSiacoinsFixedAddress cursor sort_outputs fees amount parentUC refundUC s =
  let '(chosen, fund, potential) :=
    select_outputs w h (DustThreshold fees) amount (sort_outputs (available w)) 0 0 in
  let unsigned := parent_txn w amount fund parentUC refundUC chosen in
  match check_fund amount fund potential with
  | Some e => Err e s
  | None =>
      match sign_all w h (input_pairs (t_SiacoinInputs unsigned)) unsigned with
      | None => Panic "index out of range"
      | Some parent =>
          Ret () (mkBuilding (with_wdb (spend_ids chosen.*1 h
            (dbPutSpentOutput (Transaction_SiacoinOutputID parent 0) h (w_db w))) w)
            (add_funding parent parentUC (bd_tb s)))
      end
  end.
Proof.
  intros w h. unfold FundSiacoinsFixedAddress. unfold get. unfold mbind at 1, M_bind at 1. cbv zeta.
  fold w h. change (cursor _ _ ++ unconfirmed_outputs w) with (available w).
  destruct (select_outputs _ _ _ _ _ _ _) as [[chosen fund] potential]. unfold mbind, M_bind, check.
  destruct (check_fund amount fund potential) as [e|]; [done|]. unfold mret, M_ret, or_range.
  by destruct (sign_all _ _ _ _).
Qed.

Lemma fund_fixed_run fees amount parentUC refundUC s :
  let w := bd_wallet s in
  let h := wd_ConsensusHeight (w_db w) in
  keys_sound w -> spendable w ->
  (exists e, FundSiacoinsFixedAddress cursor sort_outputs fees amount parentUC refundUC s = Err (WalletError e) s /\
     (e = ErrLowBalance \/ e = ErrIncompleteTransactions) /\
     (sum_of value_of (filter (usable_outputs w fees) (available w)) < amount)%N) \/
  exists chosen sigs,
    let unsigned := parent_txn w amount (sum_of value_of chosen) parentUC refundUC chosen in
    let parent := with_signatures sigs unsigned in
    chosen ⊆+ available w /\ Forall (usable_outputs w fees) chosen /\ (amount <= sum_of value_of chosen)%N /\
    Forall2 (signs unsigned h) (input_pairs (t_SiacoinInputs unsigned)) sigs /\
    FundSiacoinsFixedAddress cursor sort_outputs fees amount parentUC refundUC s =
      Ret () (mkBuilding (with_wdb (spend_ids chosen.*1 h
        (dbPutSpentOutput (Transaction_SiacoinOutputID parent 0) h (w_db w))) w) (add_funding parent parentUC (bd_tb s))).
Proof.
  intros w h Hks Hsp. rewrite fund_fixed_eq. fold w h.
  assert (Hso : sort_outputs (available w) ≡ₚ available w) by apply Hsort.
  pose proof (select_outputs_run w fees amount (sort_outputs (available w)) 0 0) as Hsel. fold h in Hsel.
  destruct (select_outputs _ _ _ _ _ _ _) as [[chosen fund] potential].
  destruct Hsel as (Hsub & Hus & Hfund & Hall). rewrite N.add_0_l in Hfund. cbv zeta.
  destruct (check_fund_run amount fund potential) as [[Hlt Hcf]|[Hle ->]].
  - left. destruct Hall as [?|Hall]; [lia|]. rewrite N.add_0_l in Hall.
    assert (Hsum : fund = sum_of value_of (filter (usable_outputs w fees) (available w))).
    { rewrite Hall. apply sum_of_Permutation. by rewrite Hso. }
    destruct Hcf as [-> | ->]; eexists; (split; [done|]); (split; [auto|by rewrite <- Hsum]).
  - right. assert (Hch : chosen ⊆+ available w) by (rewrite <- Hso; by apply sublist_submseteq).
    destruct (parent_inputs_keys w amount fund parentUC refundUC chosen Hks) as [Hkeys _].
    { intros x Hx. apply Hsp. by eapply elem_of_submseteq. }
    destruct (sign_all_run w h _ (parent_txn w amount fund parentUC refundUC chosen) Hks Hkeys) as (sigs & Hsign & Hsigs).
    exists chosen, sigs. rewrite Hsign, <- Hfund. by split_and!.
Qed.

(** ** The addresses *)

Context (seed : Seed) (N p0 : Z).
Context (Hinj : addrs_differ seed N) (HN : N < 2 ^ 64).
Context (Hthr : 0 <= lookaheadRescanThreshold) (Hbuf : 0 <= lookaheadBuffer) (Hp0 : 0 <= p0).

(** The wallet after the two addresses of [FundSiacoins]. *)
Definition two_addresses (p : Z) (w : Wallet) : Wallet :=
  move_seed seed (p + 1) (p + 2) (move_seed seed p (p + 1) w).

Lemma move_one_keys p w :
  w_keys (move_seed seed p (p + 1) w) = <[addr seed p := generateSpendableKey seed p]> (w_keys w).
Proof.
  unfold move_seed. replace (p + 1 - p) with 1 by lia.
  change (keys_from seed p (Z.to_nat 1)) with [generateSpendableKey seed (p + 0)]. by rewrite Z.add_0_r.
Qed.

Lemma two_addresses_keys p w :
  w_keys (two_addresses p w) =
    <[addr seed (p + 1) := generateSpendableKey seed (p + 1)]>
      (<[addr seed p := generateSpendableKey seed p]> (w_keys w)).
Proof.
  unfold two_addresses. replace (p + 2) with (p + 1 + 1) by lia. by rewrite !move_one_keys.
Qed.

Lemma two_addresses_sound p w : keys_sound w -> keys_sound (two_addresses p w).
Proof.
  intros Hks uh k. rewrite two_addresses_keys, !lookup_insert_Some.
  intros [[<- <-]|[_ [[<- <-]|[_ Hk]]]]; [by eauto|by eauto|by apply Hks].
Qed.

Lemma two_addresses_first p w : 0 <= p -> p + 1 < N ->
  w_keys (two_addresses p w) !! addr seed p = Some (generateSpendableKey seed p).
Proof.
  intros Hp HpN. rewrite two_addresses_keys, lookup_insert_ne, lookup_insert_eq; [done|].
  intros Heq%Hinj; lia.
Qed.

Lemma next_address_run p w : keys_at seed N p0 p w -> p + 1 <= N -> w_unlocked w = true ->
  nextPrimarySeedAddress w = Ret (sk_UnlockConditions (generateSpendableKey seed p)) (move_seed seed p (p + 1) w).
Proof.
  intros Hk HpN Hu. unfold nextPrimarySeedAddress, mbind, M_bind.
  rewrite (nextPrimarySeedAddresses_run seed N p0 HN Hp0 p 1 w Hk ltac:(lia) HpN), Hu.
  change (keys_from seed p (Z.to_nat 1)) with [generateSpendableKey seed (p + 0)]. by rewrite Z.add_0_r.
Qed.

Lemma FundSiacoins_eq p w tb fees amount :
  keys_at seed N p0 p w -> fits N (p + 2) -> w_unlocked w = true ->
  FundSiacoins cursor sort_outputs fees amount (mkBuilding w tb) =
  FundSiacoinsFixedAddress cursor sort_outputs fees amount
    (sk_UnlockConditions (generateSpendableKey seed p)) (sk_UnlockConditions (generateSpendableKey seed (p + 1)))
    (mkBuilding (two_addresses p w) tb).
Proof.
  intros Hk Hf Hu. pose proof (ka_start _ _ _ _ _ Hk).
  destruct (maxLookahead_fits N HN Hthr Hbuf (p + 2)) as (_ & ? & ?); [lia|done|].
  assert (Hf1 : fits N (p + 1)) by (eapply fits_le; [|exact Hf]; lia).
  assert (Hk1 : keys_at seed N p0 (p + 1) (move_seed seed p (p + 1) w)) by (by apply move_seed_keys; [..|lia|]).
  unfold FundSiacoins, on_wallet, mbind, M_bind. cbn [bd_wallet bd_tb].
  rewrite (next_address_run p w Hk ltac:(lia) Hu). cbn [bd_wallet bd_tb].
  rewrite (next_address_run (p + 1) _ Hk1 ltac:(lia) Hu). unfold two_addresses.
  by replace (p + 1 + 1) with (p + 2) by lia.
Qed.

(** ** The transaction *)

(** What is left to sign once the parent is made. *)
Definition payment (parent : Transaction) (uc : UnlockConditions) (amount fee : Currency) (dest : UnlockHash)
  : Transaction :=
  append_to [mkSiacoinInput (Transaction_SiacoinOutputID parent 0) uc] [mkSiacoinOutput amount dest]
    [] [] [] [] [] [fee] [] [] empty_transaction.

Lemma sign_input_run cf h input i s id uc k t sigs :
  input (tb_transaction (bd_tb s)) i = Some (id, uc) ->
  w_keys (bd_wallet s) !! UnlockConditions_UnlockHash uc = Some k ->
  addSignatures (tb_transaction (bd_tb s)) cf uc id k h = Some (t, sigs) ->
  sign_input cf h input i s = Ret () (mkBuilding (bd_wallet s)
    (with_sigs true (tb_transactionSignatures (bd_tb s) ++ sigs) (with_txn t (bd_tb s)))).
Proof.
  intros Hi Hk Ha. unfold sign_input, get, mbind, M_bind. rewrite Hi. unfold or_range, mret, M_ret.
  rewrite Hk. unfold mbind, M_bind. by rewrite Ha.
Qed.

(** A builder with one input of its own and no signature. *)
Lemma Builder_Sign_one w tb id sd i :
  tb_signed tb = false -> tb_siacoinInputs tb = [0] -> tb_siafundInputs tb = [] ->
  t_TransactionSignatures (tb_transaction tb) = [] ->
  w_keys w !! addr sd i = Some (generateSpendableKey sd i) ->
  sci_at (tb_transaction tb) 0 = Some (id, sk_UnlockConditions (generateSpendableKey sd i)) ->
  let txn := with_signatures [signature_of (generateSpendableKey sd i) (tb_transaction tb) id
    (wd_ConsensusHeight (w_db w))] (tb_transaction tb) in
  exists tb', Builder_Sign true (mkBuilding w tb) = Ret (tb_parents tb ++ [txn]) (mkBuilding w tb') /\
    tb_parents tb' = tb_parents tb /\ tb_transaction tb' = txn.
Proof.
  intros Hs Hsc Hsf Hts Hk Hat txn.
  exists (with_sigs true (tb_transactionSignatures tb ++ [0]) (with_txn txn tb)). split; [|done].
  assert (Hcf : covered_fields true (tb_transaction tb) = FullCoveredFields) by (unfold covered_fields; by rewrite Hts).
  pose proof (addSignatures_generated (tb_transaction tb) sd i id (wd_ConsensusHeight (w_db w))) as Ha.
  cbv zeta in Ha. rewrite Hts in Ha.
  unfold Builder_Sign, get, mbind, M_bind, mret, M_ret, check, err_if. cbn [bd_tb bd_wallet].
  rewrite Hs, Hsc, Hsf, Hcf. cbn [for_each]. unfold mbind, M_bind, mret, M_ret.
  rewrite (sign_input_run FullCoveredFields _ sci_at 0 (mkBuilding w tb) id _ _ _ _ Hat Hk Ha). done.
Qed.

Lemma finish_run w parent sd i amount fee dest :
  w_keys w !! addr sd i = Some (generateSpendableKey sd i) ->
  let uc := sk_UnlockConditions (generateSpendableKey sd i) in
  let unsigned := payment parent uc amount fee dest in
  let txn := with_signatures [signature_of (generateSpendableKey sd i) unsigned
    (Transaction_SiacoinOutputID parent 0) (wd_ConsensusHeight (w_db w))] unsigned in
  exists tb, (_ ← AddMinerFee fee; _ ← AddSiacoinOutput (mkSiacoinOutput amount dest); Builder_Sign true)
      (mkBuilding w (add_funding parent uc StartTransaction)) = Ret [parent; txn] (mkBuilding w tb) /\
    tb_parents tb = [parent] /\ tb_transaction tb = txn.
Proof.
  intros Hk uc unsigned txn.
  set (tb := mkTransactionBuilder [parent] false unsigned [0] [0] [] []).
  destruct (Builder_Sign_one w tb (Transaction_SiacoinOutputID parent 0) sd i) as (tb' & Hrun & Hp & Ht); try done.
  exists tb'. split; [exact Hrun|done].
Qed.

(** ** The marks *)

Lemma spend_ids_lookup ids h id : forall d,
  dbGetSpentOutput id (spend_ids ids h d) = if decide (id ∈ ids) then Some h else dbGetSpentOutput id d.
Proof.
  unfold spend_ids. induction ids as [|x ids IH]; intros d; cbn [fold_left]; [done|].
  rewrite IH. unfold dbGetSpentOutput. cbn. destruct (decide (id = x)) as [->|Hne].
  - rewrite lookup_insert_eq. rewrite (decide_True (P := x ∈ x :: ids)) by (by left). by case_decide.
  - rewrite lookup_insert_ne by done. apply decide_ext. rewrite elem_of_cons. naive_solver.
Qed.

Lemma spend_ids_height ids h id h' d :
  wd_ConsensusHeight (spend_ids ids h (dbPutSpentOutput id h' d)) = wd_ConsensusHeight d.
Proof.
  transitivity (wd_ConsensusHeight (dbPutSpentOutput id h' d)); [|done]. generalize (dbPutSpentOutput id h' d).
  unfold spend_ids. induction ids as [|x ids IH]; intros d0; cbn [fold_left]; [done|]. by rewrite IH.
Qed.

Lemma unspend_lookup txns d id :
  dbGetSpentOutput id (unspend_txns txns d) =
  if decide (id ∈ txns ≫= fun t => sci_ParentID <$> t_SiacoinInputs t) then None else dbGetSpentOutput id d.
Proof.
  unfold unspend_txns. generalize (txns ≫= fun t => sci_ParentID <$> t_SiacoinInputs t). intros ids.
  revert d. induction ids as [|x ids IH]; intros d; cbn [fold_left]; [done|].
  rewrite IH. unfold dbGetSpentOutput. cbn. destruct (decide (id = x)) as [->|Hne].
  - rewrite lookup_delete_eq. rewrite (decide_True (P := x ∈ x :: ids)) by (by left). by case_decide.
  - rewrite lookup_delete_ne by done. apply decide_ext. rewrite elem_of_cons. naive_solver.
Qed.

(** ** What is sent *)

(** From [chosen] outputs of [w] the pair of transactions pays [amount] to
    [dest] and [fee] to the miner. *)
Record pays (w : Wallet) (fees : Currency * Currency) (amount fee : Currency) (dest : UnlockHash)
    (chosen : list (SiacoinOutputID * SiacoinOutput)) (parent txn : Transaction) : Prop := mkPays {
  py_chosen : chosen ⊆+ available w;
  py_usable : Forall (usable_outputs w fees) chosen;
  py_inputs : Forall2 (fun sci x => sci_ParentID sci = x.1 /\
      UnlockConditions_UnlockHash (sci_UnlockConditions sci) = sco_UnlockHash x.2) (t_SiacoinInputs parent) chosen;
  py_balance : SiacoinOutputSum parent = sum_of value_of chosen;
  py_exact : exists uc, head (t_SiacoinOutputs parent) =
      Some (mkSiacoinOutput (amount + fee) (UnlockConditions_UnlockHash uc)) /\
    t_SiacoinInputs txn = [mkSiacoinInput (Transaction_SiacoinOutputID parent 0) uc];
  py_change o : o ∈ tail (t_SiacoinOutputs parent) -> isWalletAddress w (sco_UnlockHash o) = true;
  py_outputs : t_SiacoinOutputs txn = [mkSiacoinOutput amount dest] /\ t_MinerFees txn = [fee];
  py_signed t : t ∈ [parent; txn] -> wf_txn t ->
    validSignatures t (wd_ConsensusHeight (w_db w)) = Some None
}.

Lemma inputs_ids scis (chosen : list (SiacoinOutputID * SiacoinOutput)) :
  Forall2 (fun sci x => sci_ParentID sci = x.1 /\
    UnlockConditions_UnlockHash (sci_UnlockConditions sci) = sco_UnlockHash x.2) scis chosen ->
  sci_ParentID <$> scis = chosen.*1.
Proof. induction 1 as [|sci x scis chosen [Hid _] _ IH]; [done|]. cbn. by rewrite Hid, IH. Qed.

Lemma parent_sum w amount parentUC refundUC chosen sigs :
  (amount <= sum_of value_of chosen)%N ->
  SiacoinOutputSum (with_signatures sigs (parent_txn w amount (sum_of value_of chosen) parentUC refundUC chosen)) =
    sum_of value_of chosen.
Proof.
  intros Hle. rewrite SiacoinOutputSum_sums. cbn [with_signatures parent_txn append_to t_SiacoinOutputs
    t_FileContracts t_MinerFees empty_transaction app]. rewrite !sum_of_nil, sum_of_cons. cbn [sco_Value].
  destruct (Currency.Equals amount _) eqn:He.
  - apply Currency.Equals_true in He. rewrite sum_of_nil. lia.
  - rewrite sum_of_cons, sum_of_nil, Currency.Sub_sub. cbn [sco_Value]. lia.
Qed.

Lemma pays_run p w fees amount fee dest chosen sigs :
  let w2 := two_addresses p w in
  let h := wd_ConsensusHeight (w_db w2) in
  let uc := sk_UnlockConditions (generateSpendableKey seed p) in
  let uc' := sk_UnlockConditions (generateSpendableKey seed (p + 1)) in
  let unsigned := parent_txn w2 (amount + fee) (sum_of value_of chosen) uc uc' chosen in
  let parent := with_signatures sigs unsigned in
  let unsigned' := payment parent uc amount fee dest in
  let txn := with_signatures [signature_of (generateSpendableKey seed p) unsigned'
    (Transaction_SiacoinOutputID parent 0) h] unsigned' in
  keys_sound w -> spendable w2 -> NoDup (available w2).*1 -> 0 <= h ->
  chosen ⊆+ available w2 -> Forall (usable_outputs w2 fees) chosen -> (amount + fee <= sum_of value_of chosen)%N ->
  Forall2 (signs unsigned h) (input_pairs (t_SiacoinInputs unsigned)) sigs ->
  pays w2 fees amount fee dest chosen parent txn.
Proof.
  intros w2 h uc uc' unsigned parent unsigned' txn Hks Hsp Hnd Hh Hch Hus Hle Hsigs.
  destruct (parent_inputs_keys w2 (amount + fee) (sum_of value_of chosen) uc uc' chosen) as [_ Hins];
    [by apply two_addresses_sound|intros x Hx; apply Hsp; by eapply elem_of_submseteq|].
  assert (Hndc : NoDup (sci_ParentID <$> t_SiacoinInputs unsigned)).
  { replace (sci_ParentID <$> t_SiacoinInputs unsigned) with chosen.*1.
    - destruct (submseteq_Permutation _ _ Hch) as [k Hk]. rewrite Hk, fmap_app in Hnd. by apply NoDup_app in Hnd as [? _].
    - symmetry. by apply inputs_ids. }
  split; [done|done|done|by apply parent_sum|by exists uc| |done|].
  - intros o. cbn. destruct (Currency.Equals _ _); [by intros ?%elem_of_nil|]. intros ->%list_elem_of_singleton. cbn [sco_UnlockHash].
    unfold isWalletAddress. rewrite bool_decide_true; [done|]. unfold w2. rewrite two_addresses_keys.
    exists (generateSpendableKey seed (p + 1)). apply lookup_insert_eq.
  - intros t Ht Hwf. apply validSignatures_decides; [done|].
    apply elem_of_cons in Ht as [->|Ht%list_elem_of_singleton]; [|subst t].
    + by apply signed_valid.
    + apply signed_valid; [done|done|apply NoDup_singleton|done|]. constructor; [|constructor]. by exists seed, p.
Qed.

(** The outputs that are marked: the ones spent and the one in between. *)
Definition marked (chosen : list (SiacoinOutputID * SiacoinOutput)) (parent : Transaction) : list OutputID :=
  Transaction_SiacoinOutputID parent 0 :: chosen.*1.

Lemma send_siacoins_run fees amount fee dest p w :
  keys_at seed N p0 p w -> fits N (p + 2) -> keys_sound w -> w_unlocked w = true ->
  0 <= wd_ConsensusHeight (w_db w) ->
  let w2 := two_addresses p w in
  let h := wd_ConsensusHeight (w_db w2) in
  spendable w2 -> NoDup (available w2).*1 ->
  (exists e, send_siacoins cursor sort_outputs fees amount fee dest (mkBuilding w StartTransaction) =
       Err (WalletError e) (mkBuilding w2 StartTransaction) /\
     (e = ErrLowBalance \/ e = ErrIncompleteTransactions) /\
     (sum_of value_of (filter (usable_outputs w2 fees) (available w2)) < amount + fee)%N) \/
  exists chosen parent txn tb, pays w2 fees amount fee dest chosen parent txn /\
    tb_parents tb = [parent] /\ tb_transaction tb = txn /\
    send_siacoins cursor sort_outputs fees amount fee dest (mkBuilding w StartTransaction) =
      Ret [parent; txn] (mkBuilding (with_wdb (spend_ids chosen.*1 h
        (dbPutSpentOutput (Transaction_SiacoinOutputID parent 0) h (w_db w2))) w2) tb).
Proof.
  intros Hk Hf Hks Hu Hh w2 h Hsp Hnd. pose proof (ka_start _ _ _ _ _ Hk).
  destruct (maxLookahead_fits N HN Hthr Hbuf (p + 2)) as (_ & ? & ?); [lia|done|].
  assert (Heq : forall m, send_siacoins cursor sort_outputs fees amount fee dest (mkBuilding w StartTransaction) = m <->
    match FundSiacoins cursor sort_outputs fees (Currency.Add amount fee) (mkBuilding w StartTransaction) with
    | Ret _ s => (_ ← AddMinerFee fee; _ ← AddSiacoinOutput (mkSiacoinOutput amount dest); Builder_Sign true) s
    | Err e s => Err e s
    | Panic msg => Panic msg
    end = m) by done.
  setoid_rewrite Heq. rewrite (FundSiacoins_eq p w StartTransaction fees _ Hk Hf Hu). fold w2. clear Heq.
  destruct (fund_fixed_run fees (Currency.Add amount fee) (sk_UnlockConditions (generateSpendableKey seed p))
    (sk_UnlockConditions (generateSpendableKey seed (p + 1))) (mkBuilding w2 StartTransaction))
    as [(e & Hrun & He & Hsum)|(chosen & sigs & Hch & Hus & Hle & Hsigs & Hrun)]; [by apply two_addresses_sound|done|..].
  - left. exists e. by rewrite Hrun.
  - right. pose proof (pays_run p w fees amount fee dest chosen sigs Hks Hsp Hnd Hh Hch Hus Hle Hsigs) as Hpays.
    rewrite Hrun.
    match type of Hrun with _ = Ret () (mkBuilding ?x (add_funding ?y _ _)) => set (w3 := x); set (parent := y) in * end.
    destruct (finish_run w3 parent seed p amount fee dest) as (tb & Hfin & Htp & Htt).
    { unfold w3. cbn [with_wdb w_keys]. apply two_addresses_first; lia. }
    assert (Hh3 : wd_ConsensusHeight (w_db w3) = wd_ConsensusHeight (w_db w2)) by apply spend_ids_height.
    rewrite Hh3 in Hfin, Htt.
    exists chosen, parent. eexists. exists tb. split; [exact Hpays|]. split; [exact Htp|]. split; [exact Htt|exact Hfin].
Qed.

(** C10. Sending coins: [managedSendSiacoins] never panics.  If it succeeds, it
    returns a parent and a transaction; the parent spends outputs of the wallet
    that are neither dust, nor locked, nor recently spent, under the conditions
    their addresses stand for, and pays out exactly what they are worth, first
    the amount and the fee together and then the change to an address of the
    wallet; the transaction spends that first output and pays the amount to the
    destination and the fee to the miner; consensus accepts the signatures of
    both.  The outputs are then marked as spent at the current height.  If the
    pool refuses the set, its error is returned and the marks are gone.
    Otherwise the error is the one of a low balance or of incomplete
    transactions, the outputs that can be spent do not cover the amount and the
    fee, and no mark has changed.  The outputs are taken to have distinct IDs
    and known keys. *)
Theorem managedSendSiacoins_spec verdict fees amount fee dest p w :
  keys_at seed N p0 p w -> fits N (p + 2) -> keys_sound w -> w_unlocked w = true ->
  0 <= wd_ConsensusHeight (w_db w) ->
  let w2 := two_addresses p w in
  spendable w2 -> NoDup (available w2).*1 ->
  match managedSendSiacoins cursor sort_outputs true (pool_answer [] verdict) fees amount fee dest w with
  | Ret txns w' => verdict = None /\ exists chosen parent txn, txns = [parent; txn] /\
      pays w2 fees amount fee dest chosen parent txn /\
      forall id, dbGetSpentOutput id (w_db w') =
        if decide (id ∈ marked chosen parent) then Some (wd_ConsensusHeight (w_db w)) else dbGetSpentOutput id (w_db w)
  | Err e w' =>
      (verdict = Some e /\ exists chosen parent txn, pays w2 fees amount fee dest chosen parent txn /\
        forall id, dbGetSpentOutput id (w_db w') =
          if decide (id ∈ marked chosen parent) then None else dbGetSpentOutput id (w_db w)) \/
      ((e = WalletError ErrLowBalance \/ e = WalletError ErrIncompleteTransactions) /\
       (sum_of value_of (filter (usable_outputs w2 fees) (available w2)) < amount + fee)%N /\
       forall id, dbGetSpentOutput id (w_db w') = dbGetSpentOutput id (w_db w))
  | Panic _ => False
  end.
Proof.
  intros Hk Hf Hks Hu Hh w2 Hsp Hnd.
  assert (Heq : managedSendSiacoins cursor sort_outputs true (pool_answer [] verdict) fees amount fee dest w =
    with_builder (pool_answer [] verdict) (send_siacoins cursor sort_outputs fees amount fee dest) w).
  { unfold managedSendSiacoins, check_send, get, check, err_if, mbind, M_bind. cbn [negb mret M_ret].
    unfold mret, M_ret. by rewrite Hu. }
  rewrite Heq. clear Heq. unfold with_builder, mbind, M_bind.
  assert (Hhw : wd_ConsensusHeight (w_db (two_addresses p w)) = wd_ConsensusHeight (w_db w)) by reflexivity.
  destruct (send_siacoins_run fees amount fee dest p w Hk Hf Hks Hu Hh Hsp Hnd)
    as [(e & -> & He & Hsum)|(chosen & parent & txn & tb & Hpays & Htp & Htt & ->)]; [|rewrite Hhw].
  - right. split; [destruct He as [-> | ->]; auto|]. split; [done|]. done.
  - unfold on_wallet, pool_answer. cbn [for_each bd_wallet]. unfold mbind, M_bind, mret, M_ret, check, throw.
    assert (Hin : forall id, id ∈ [parent; txn] ≫= (fun t => sci_ParentID <$> t_SiacoinInputs t) <-> id ∈ marked chosen parent).
    { intros id. destruct (py_exact _ _ _ _ _ _ _ _ Hpays) as (uc & _ & Hti). cbn. rewrite Hti. cbn. unfold marked.
      assert (Hp : sci_ParentID <$> t_SiacoinInputs parent = chosen.*1).
      { by eapply inputs_ids, py_inputs. }
      rewrite Hp, elem_of_app, !elem_of_cons, elem_of_nil. tauto. }
    destruct verdict as [e|].
    + left. split; [done|]. exists chosen, parent, txn. split; [done|]. intros id. cbn [bd_wallet bd_tb].
      change (dbGetSpentOutput id (unspend_txns (tb_parents tb ++ [tb_transaction tb]) (spend_ids chosen.*1
        (wd_ConsensusHeight (w_db w)) (dbPutSpentOutput (Transaction_SiacoinOutputID parent 0)
        (wd_ConsensusHeight (w_db w)) (w_db w2)))) =
        if decide (id ∈ marked chosen parent) then None else dbGetSpentOutput id (w_db w)).
      rewrite Htp, Htt, unspend_lookup. cbn [app]. rewrite (decide_ext _ _ _ _ (Hin id)). case_decide as Hm; [done|].
      rewrite spend_ids_lookup. apply not_elem_of_cons in Hm as [Hm1 Hm2]. rewrite decide_False by done.
      unfold dbGetSpentOutput. cbn. by rewrite lookup_insert_ne.
    + split; [done|]. exists chosen, parent, txn. split; [done|]. split; [done|]. intros id.
      cbn [bd_wallet with_wdb w_db]. rewrite spend_ids_lookup. unfold marked.
      destruct (decide (id = Transaction_SiacoinOutputID parent 0)) as [->|Hne].
      * rewrite (decide_True (P := _ ∈ _ :: _)) by (by left). case_decide; [done|]. unfold dbGetSpentOutput. cbn.
        by rewrite lookup_insert_eq.
      * rewrite (decide_ext (id ∈ _ :: _) (id ∈ chosen.*1)) by (rewrite elem_of_cons; naive_solver).
        case_decide; [done|]. unfold dbGetSpentOutput. cbn. by rewrite lookup_insert_ne.
Qed.
End spend.
