(* ===== verification/WalletPool.v ===== *)
(** * The wallet as a subscriber of the transaction pool

    The unconfirmed transactions of a wallet follow the sets of the pool: it
    lists once every transaction of these sets that has a siacoin input or
    output of an address it has had since it subscribed, and none without a
    siacoin input or output of one of its addresses. *)

From S2P Require Import Prelude Bytes Interfaces Currency Types Params Encoding Transactions.
From S2P Require Import Decoding Signatures ConsensusSubscribe MinimumSet TransactionPool TransactionPoolFacts.
From S2P Require Import TransactionPoolSubscribers Wallet WalletUpdate.

Open Scope Z_scope.

Section pool.
Context {B : Build} {P : Params} {C : Crypto} {E : SiaEncoding}.
(** The addresses the wallet has from the start. *)
Context (K : gset UnlockHash).

(** The addresses of the siacoin inputs and outputs of a transaction. *)
Definition coin_hashes (txn : Transaction) : list UnlockHash :=
  (input_hash <$> t_SiacoinInputs txn) ++ (sco_UnlockHash <$> t_SiacoinOutputs txn).

Lemma unconfirmed_relevant_spec w txn : unconfirmed_relevant w txn = true <->
  exists uh, uh ∈ coin_hashes txn /\ isWalletAddress w uh = true.
Proof. unfold unconfirmed_relevant. rewrite existsb_exists. by setoid_rewrite list_elem_of_In. Qed.

(** The wallet knows the sets [view]. *)
Record hears (view : gmap Hash UnconfirmedTransactionSet) (w : Wallet) : Prop := mkHears {
  he_sets : w_unconfirmedSets w = ut_IDs <$> view;
  he_once : NoDup (pt_TransactionID <$> w_unconfirmedProcessedTransactions w);
  he_sound pt : pt ∈ w_unconfirmedProcessedTransactions w -> exists id ut, view !! id = Some ut /\
    pt_Transaction pt ∈ ut_Transactions ut /\ pt_TransactionID pt = Transaction_ID (pt_Transaction pt) /\
    pt_ConfirmationHeight pt = MaxUint64 /\
    exists uh, uh ∈ coin_hashes (pt_Transaction pt) /\ isWalletAddress w uh = true;
  he_complete id ut txn uh : view !! id = Some ut -> txn ∈ ut_Transactions ut -> uh ∈ coin_hashes txn -> uh ∈ K ->
    exists pt, pt ∈ w_unconfirmedProcessedTransactions w /\ pt_TransactionID pt = Transaction_ID txn;
  he_addresses uh : uh ∈ K -> isWalletAddress w uh = true
}.

(** No transaction is in the sets twice. *)
Record ids_once (view : gmap Hash UnconfirmedTransactionSet) : Prop := mkIdsOnce {
  io_set id ut : view !! id = Some ut -> NoDup (ut_IDs ut);
  io_sets id1 id2 ut1 ut2 txid : view !! id1 = Some ut1 -> view !! id2 = Some ut2 ->
    txid ∈ ut_IDs ut1 -> txid ∈ ut_IDs ut2 -> id1 = id2
}.

Lemma ids_once_subseteq v v' : v ⊆ v' -> ids_once v' -> ids_once v.
Proof.
  intros Hs [H1 H2]. split; [intros id ut Hid; by eapply H1, lookup_weaken|].
  intros id1 id2 ut1 ut2 txid Hi1 Hi2. eapply H2; by eapply lookup_weaken.
Qed.

Abbreviation without l v := (fold_left (fun m id => delete id m) l v).

(** ** Sets that leave the pool *)

Lemma dropped_run l : forall (D : gset TransactionID) (v : gmap Hash UnconfirmedTransactionSet),
  let x := fold_left (fun (acc : gset TransactionID * gmap Hash (list TransactionID)) id =>
    (acc.1 ∪ list_to_set (default [] (acc.2 !! id)), delete id acc.2)) l (D, ut_IDs <$> v) in
  x.2 = ut_IDs <$> without l v /\
  forall txid : TransactionID, txid ∈ x.1 <-> txid ∈ D \/ exists id ut, id ∈ l /\ v !! id = Some ut /\ txid ∈ ut_IDs ut.
Proof.
  induction l as [|id l IH]; intros D v; cbn [fold_left fst snd].
  { split; [done|]. intros txid. split; [by left|]. intros [?|(? & ? & ?%elem_of_nil & _)]; done. }
  rewrite <- fmap_delete. specialize (IH (D ∪ list_to_set (default [] ((ut_IDs <$> v) !! id))) (delete id v)).
  destruct IH as [H1 H2]. split; [exact H1|]. intros txid. rewrite H2, elem_of_union, elem_of_list_to_set, lookup_fmap.
  split.
  - intros [[?|Hin]|(id' & ut & Hid' & Hv & Hin)]; [by left|..]; right.
    + destruct (v !! id) as [ut|] eqn:Hv; cbn in Hin; [|by apply elem_of_nil in Hin]. exists id, ut.
      split_and!; [by left|done..].
    + apply lookup_delete_Some in Hv as [_ Hv]. exists id', ut. split_and!; [by right|done..].
  - intros [?|(id' & ut & Hid' & Hv & Hin)]; [by left; left|]. destruct (decide (id' = id)) as [->|Hne].
    + left. right. by rewrite Hv.
    + right. exists id', ut. apply elem_of_cons in Hid' as [?|?]; [done|].
      split_and!; [done|by rewrite lookup_delete_ne|done].
Qed.

Lemma drop_run l view w : map_Forall names_set view -> ids_once view -> hears view w ->
  let '(dropped, sets) := dropped_txids (w_unconfirmedSets w) l in
  hears (without l view) (with_unconfirmed sets
    (filter (fun pt => pt_TransactionID pt ∉ dropped) (w_unconfirmedProcessedTransactions w)) w).
Proof.
  intros Hnames Honce [H1 H2 H3 H4 H5]. unfold dropped_txids. rewrite H1.
  destruct (dropped_run l ∅ view) as [D1 D2]. destruct (fold_left _ l _) as [dropped sets]. cbn [fst snd] in D1, D2.
  split; cbn [with_unconfirmed w_unconfirmedSets w_unconfirmedProcessedTransactions].
  - exact D1.
  - eapply sublist_NoDup; [exact H2|]. by apply fmap_sublist, sublist_filter.
  - intros pt [Hd Hpt]%list_elem_of_filter. destruct (H3 pt Hpt) as (id & ut & Hv & Hin & Hid & Hh & Huh).
    exists id, ut. split; [|exact (conj Hin (conj Hid (conj Hh Huh)))].
    rewrite fold_delete_lookup. destruct (decide (id ∈ l)); [|done].
    destruct Hd. apply D2. right. exists id, ut. split_and!; [done..|].
    destruct (Hnames _ _ Hv) as (_ & _ & -> & _). rewrite Hid. by apply list_elem_of_fmap_2.
  - intros id ut txn uh Hv Htxn Huh HK. rewrite fold_delete_lookup in Hv. destruct (decide (id ∈ l)) as [|Hl]; [done|].
    destruct (H4 id ut txn uh Hv Htxn Huh HK) as (pt & Hpt & Hid). exists pt. split; [|done].
    apply list_elem_of_filter. split; [|done]. intros [Hd%elem_of_empty|(id' & ut' & Hl' & Hv' & Hin)]%D2; [done|].
    destruct Hl. replace id with id'; [done|]. eapply (io_sets _ Honce); [done|exact Hv|done|].
    destruct (Hnames _ _ Hv) as (_ & _ & -> & _). rewrite Hid. by apply list_elem_of_fmap_2.
  - exact H5.
Qed.

(** ** Sets that enter it *)

Lemma add_txns_run sc (ids : list TransactionID) : forall txns i w,
  (forall j txn, txns !! j = Some txn -> ids !! (Z.to_nat i + j)%nat = Some (Transaction_ID txn)) -> 0 <= i ->
  for_fold (fun i txn _ =>
    w ← get;
    if unconfirmed_relevant w txn then
      match ids !! Z.to_nat i with
      | None => panic "index out of range"
      | Some txid =>
          modify (fun w =>
            with_unconfirmed (w_unconfirmedSets w)
              (w_unconfirmedProcessedTransactions w ++ [unconfirmed_pt w sc txid txn]) w)
      end
    else mret ()) i txns () w =
  Ret () (with_unconfirmed (w_unconfirmedSets w)
    (w_unconfirmedProcessedTransactions w ++
     ((fun txn => unconfirmed_pt w sc (Transaction_ID txn) txn) <$>
        filter (fun txn => unconfirmed_relevant w txn = true) txns)) w).
Proof.
  match goal with |- context [for_fold ?b] => set (body := b) end.
  induction txns as [|txn txns IH]; intros i w Hids Hi.
  { rewrite filter_nil, app_nil_r. by destruct w. }
  assert (Hnext : forall j t, txns !! j = Some t -> ids !! (Z.to_nat (i + 1) + j)%nat = Some (Transaction_ID t)).
  { intros j t Hj. specialize (Hids (S j) t Hj).
    by replace (Z.to_nat (i + 1) + j)%nat with (Z.to_nat i + S j)%nat by lia. }
  pose proof (Hids 0%nat txn eq_refl) as H0. rewrite Nat.add_0_r in H0.
  rewrite for_fold_cons, filter_cons. unfold body at 1, mbind, M_bind, get. rewrite H0.
  destruct (unconfirmed_relevant w txn) eqn:Hrel.
  - rewrite decide_True by done. unfold modify. rewrite IH by (done || lia). f_equal.
    rewrite fmap_cons. etrans; [|by rewrite cons_middle, app_assoc]. reflexivity.
  - rewrite decide_False by congruence. cbn [mret M_ret]. by rewrite IH by (done || lia).
Qed.

Lemma add_set_run ut view w :
  names_set (ut_ID ut) ut -> is_Some (ut_Change ut) -> view !! ut_ID ut = None ->
  ids_once (<[ut_ID ut := ut]> view) -> hears view w ->
  map_Forall names_set view ->
  exists w', add_unconfirmed_set ut w = Ret () w' /\ hears (<[ut_ID ut := ut]> view) w'.
Proof.
  intros (_ & _ & Hids & _) [change Hchange] Hfresh Honce [H1 H2 H3 H4 H5] Hnames.
  unfold add_unconfirmed_set. rewrite Hchange. unfold mbind at 1, M_bind at 1, modify at 1.
  rewrite add_txns_run; [|intros j txn Hj; change (Z.to_nat 0 + j)%nat with j;
    by rewrite Hids, list_lookup_fmap, Hj|lia].
  eexists. split; [reflexivity|].
  set (w1 := with_unconfirmed _ _ w). set (new := (fun txn => unconfirmed_pt w1 _ (Transaction_ID txn) txn) <$> _).
  assert (Hnew : forall pt, pt ∈ new -> pt_Transaction pt ∈ ut_Transactions ut /\
    pt_TransactionID pt = Transaction_ID (pt_Transaction pt) /\ pt_ConfirmationHeight pt = MaxUint64 /\
    exists uh, uh ∈ coin_hashes (pt_Transaction pt) /\ isWalletAddress w uh = true).
  { intros pt (txn & -> & [Hrel Htxn]%list_elem_of_filter)%list_elem_of_fmap. split_and!; try done.
    by apply unconfirmed_relevant_spec in Hrel. }
  assert (Hut : <[ut_ID ut := ut]> view !! ut_ID ut = Some ut) by apply lookup_insert_eq.
  split; cbn [with_unconfirmed w_unconfirmedSets w_unconfirmedProcessedTransactions w1].
  - by rewrite H1, fmap_insert.
  - rewrite fmap_app. apply NoDup_app. split_and!; [exact H2| |].
    + intros txid (pt & -> & Hpt)%list_elem_of_fmap (pt' & Heq & Hpt')%list_elem_of_fmap.
      destruct (H3 pt Hpt) as (id & ut' & Hv & Hin & Hid & _). destruct (Hnew pt' Hpt') as (Hin' & Hid' & _).
      assert (id = ut_ID ut) as ->; [|congruence].
      eapply (io_sets _ Honce id (ut_ID ut) ut' ut (pt_TransactionID pt)); [rewrite lookup_insert_ne; [done|]|done|..].
      * intros <-. congruence.
      * destruct (Hnames _ _ Hv) as (_ & _ & -> & _). rewrite Hid. by apply list_elem_of_fmap_2.
      * rewrite Hids, Heq, Hid'. by apply list_elem_of_fmap_2.
    + eapply sublist_NoDup; [exact (io_set _ Honce _ _ Hut)|]. rewrite Hids. unfold new.
      rewrite <- list_fmap_compose. cbn. apply fmap_sublist, sublist_filter.
  - intros pt [Hpt|Hpt]%elem_of_app.
    + destruct (H3 pt Hpt) as (id & ut' & Hv & Hr). exists id, ut'. split; [|exact Hr].
      rewrite lookup_insert_ne; [done|]. intros <-. congruence.
    + exists (ut_ID ut), ut. split; [done|]. by apply Hnew.
  - intros id ut' txn uh [[<- <-]|[Hne Hv]]%lookup_insert_Some Htxn Huh HK.
    + exists (unconfirmed_pt w1 (computeSpentSiacoinOutputSet (ccd_SiacoinOutputDiffs change)) (Transaction_ID txn) txn).
      split; [|done]. apply elem_of_app. right. apply list_elem_of_fmap. exists txn. split; [done|].
      apply list_elem_of_filter. split; [|done]. apply unconfirmed_relevant_spec. exists uh.
      split; [done|exact (H5 uh HK)].
    + destruct (H4 id ut' txn uh Hv Htxn Huh HK) as (pt & Hpt & Hid). exists pt. split; [|done]. apply elem_of_app.
      by left.
  - exact H5.
Qed.

(** ** A diff *)

(** The new sets are named by their hashes, come with their diffs, and are not
    yet known. *)
Definition diff_ok (view : gmap Hash UnconfirmedTransactionSet) (d : TransactionPoolDiff) : Prop :=
  NoDup (ut_ID <$> tpd_AppliedTransactions d) /\
  Forall (fun ut => names_set (ut_ID ut) ut /\ is_Some (ut_Change ut) /\
    without (tpd_RevertedTransactions d) view !! ut_ID ut = None) (tpd_AppliedTransactions d).

Lemma add_sets_run l : forall view w,
  NoDup (ut_ID <$> l) ->
  Forall (fun ut => names_set (ut_ID ut) ut /\ is_Some (ut_Change ut) /\ view !! ut_ID ut = None) l ->
  map_Forall names_set view -> ids_once (fold_left (fun m ut => <[ut_ID ut := ut]> m) l view) -> hears view w ->
  exists w', for_each add_unconfirmed_set l w = Ret () w' /\
    hears (fold_left (fun m ut => <[ut_ID ut := ut]> m) l view) w'.
Proof.
  assert (Hmono : forall l (view : gmap Hash UnconfirmedTransactionSet), NoDup (ut_ID <$> l) ->
    Forall (fun ut => view !! ut_ID ut = None) l ->
    view ⊆ fold_left (fun m ut => <[ut_ID ut := ut]> m) l view).
  { clear l. induction l as [|ut l IH]; intros view Hnd Hf; cbn [fold_left]; [done|].
    inversion Hnd as [|? ? Hni Hnd']; inversion Hf as [|? ? Hf1 Hf2]; subst.
    etrans; [by apply (insert_subseteq _ (ut_ID ut) ut)|]. apply IH; [done|].
    rewrite Forall_forall in Hf2 |- *. intros ut' Hin. rewrite lookup_insert_ne; [by apply Hf2|].
    intros Heq. apply Hni. rewrite Heq. by apply list_elem_of_fmap_2. }
  induction l as [|ut l IH]; intros view w Hnd Hok Hnames Honce Hw; cbn [for_each fold_left] in *; [by exists w|].
  inversion Hnd as [|? ? Hni Hnd']; inversion Hok as [|? ? (O1 & O2 & O3) Hok']; subst.
  assert (Hok1 : Forall (fun ut' => names_set (ut_ID ut') ut' /\ is_Some (ut_Change ut') /\
    <[ut_ID ut := ut]> view !! ut_ID ut' = None) l).
  { rewrite Forall_forall in Hok' |- *. intros ut' Hin. destruct (Hok' ut' Hin) as (? & ? & ?). split_and!; [done..|].
    rewrite lookup_insert_ne; [done|]. intros Heq. apply Hni. rewrite Heq. by apply list_elem_of_fmap_2. }
  destruct (add_set_run ut view w O1 O2 O3) as (w1 & Hrun & Hw1); [|done..|].
  { eapply ids_once_subseteq; [|exact Honce]. apply Hmono; [done|]. eapply Forall_impl; [exact Hok1|]. naive_solver. }
  unfold mbind, M_bind. rewrite Hrun. apply IH; try done. by apply map_Forall_insert_2.
Qed.

Lemma receive_run view w d :
  map_Forall names_set view -> ids_once view -> ids_once (apply_diff view d) -> diff_ok view d -> hears view w ->
  exists w', ReceiveUpdatedUnconfirmedTransactions d w = Ret () w' /\ hears (apply_diff view d) w'.
Proof.
  intros Hnames Honce Honce' [Hnd Hok] Hw. unfold ReceiveUpdatedUnconfirmedTransactions, mbind, M_bind, modify.
  pose proof (drop_run (tpd_RevertedTransactions d) view w Hnames Honce Hw) as Hd.
  destruct (dropped_txids _ _) as [dropped sets]. apply add_sets_run; try done.
  intros id ut. rewrite fold_delete_lookup. destruct (decide _); [done|]. apply Hnames.
Qed.

(** ** The pool and the wallet *)

Context (range : nat -> list Hash -> list Hash) (Hrange : forall n l, range n l ≡ₚ l) (me : Z).

(** The pool as its own operations leave it: sets under their hashes, with
    their diffs. *)
Definition sets_named (tp : TransactionPool) : Prop :=
  map_Forall (fun id ts => id = set_id ts /\ is_Some (tp_transactionSetDiffs tp !! id)) (tp_transactionSets tp).
Definition told (tp : TransactionPool) := (tp_subscriberSets tp, tp_subscribers tp, tp_sent tp).

(** The pool and the wallet, which subscribed to it under the name [me].  In
    between both do other things: the pool changes its sets without telling,
    the wallet keeps its list and its addresses, and may gain some. *)
Inductive listening : TransactionPool -> Wallet -> Prop :=
| listening_subscribe tp w tp' d w' :
    in_sync tp -> map_Forall (fun _ ut => is_Some (ut_Change ut)) (tp_subscriberSets tp) ->
    me ∉ tp_subscribers tp -> tp_sent tp !! me = None ->
    ids_once (tp_subscriberSets tp) -> hears ∅ w ->
    TransactionPoolSubscribe range me tp = Ret () tp' -> tp_sent tp' !! me = Some [d] ->
    ReceiveUpdatedUnconfirmedTransactions d w = Ret () w' -> listening tp' w'
| listening_update tp w sent d w' :
    listening tp w -> sets_named tp -> ids_once (tp_subscriberSets (updateSubscribersTransactions range tp)) ->
    tp_sent (updateSubscribersTransactions range tp) !! me = Some (sent ++ [d]) ->
    ReceiveUpdatedUnconfirmedTransactions d w = Ret () w' ->
    listening (updateSubscribersTransactions range tp) w'
| listening_pool tp w tp' : listening tp w -> told tp' = told tp -> listening tp' w
| listening_wallet tp w w' :
    listening tp w -> w_unconfirmedSets w' = w_unconfirmedSets w ->
    w_unconfirmedProcessedTransactions w' = w_unconfirmedProcessedTransactions w ->
    (forall uh, isWalletAddress w uh = true -> isWalletAddress w' uh = true) -> listening tp w'.

(** What an update sends. *)
Lemma update_sends tp sent d :
  in_sync tp -> me ∈ tp_subscribers tp -> sets_named tp ->
  tp_sent (updateSubscribersTransactions range tp) !! me = Some (sent ++ [d]) ->
  tp_subscriberSets (updateSubscribersTransactions range tp) = apply_diff (tp_subscriberSets tp) d /\
  diff_ok (tp_subscriberSets tp) d.
Proof.
  intros Hsync Hme Hnamed Hsent. unfold updateSubscribersTransactions in *.
  cbn [with_subscribers tp_subscriberSets tp_sent] in *.
  set (reverted := filter _ (range 3 _)) in *. set (new := filter _ (range 4 _)) in *.
  rewrite (send_diff_lookup range), decide_True in Hsent by (done || apply Hsync).
  injection Hsent as Hsent. apply app_inj_tail in Hsent as [_ <-]. split; [done|].
  assert (Hnew : forall id, id ∈ new -> is_Some (tp_transactionSets tp !! id) /\
    without reverted (tp_subscriberSets tp) !! id = None).
  { intros id [Hk Hid]%list_elem_of_filter. rewrite Hrange, elem_of_elements, elem_of_dom in Hid. done. }
  split; cbn [tpd_AppliedTransactions tpd_RevertedTransactions].
  - rewrite <- list_fmap_compose. replace (ut_ID ∘ unconfirmed_set tp <$> new) with new by (symmetry;
      apply list_fmap_id).
    apply NoDup_filter. rewrite Hrange. apply NoDup_elements.
  - apply Forall_fmap, Forall_forall. intros id Hid. destruct (Hnew id Hid) as [[ts Hts] Hk].
    destruct (Hnamed _ _ Hts) as [Heq Hd]. cbn. split_and!; [|exact Hd|exact Hk].
    unfold unconfirmed_set, names_set, set_of. rewrite Hts. by cbn.
Qed.

Lemma subscribe_sends tp tp' d :
  in_sync tp -> map_Forall (fun _ ut => is_Some (ut_Change ut)) (tp_subscriberSets tp) -> tp_sent tp !! me = None ->
  TransactionPoolSubscribe range me tp = Ret () tp' -> tp_sent tp' !! me = Some [d] ->
  tp_subscriberSets tp' = tp_subscriberSets tp /\ apply_diff ∅ d = tp_subscriberSets tp /\ diff_ok ∅ d.
Proof.
  intros Hsync Hch Hnone Hrun Hsent. unfold TransactionPoolSubscribe in Hrun. inv_run.
  cbn [with_subscribers tp_subscriberSets tp_sent send_diff fold_left] in *.
  rewrite lookup_insert_eq, Hnone in Hsent. injection Hsent as <-. split; [done|].
  split; [exact (view_of_all range Hrange tp (sy_names _ Hsync))|].
  set (l := range 5 _). assert (Hl : forall id, id ∈ l -> exists ut, tp_subscriberSets tp !! id = Some ut /\
    ut_ID ut = id).
  { intros id Hid. unfold l in Hid. rewrite Hrange, elem_of_elements, elem_of_dom in Hid. destruct Hid as [ut Hut].
    exists ut. split; [done|]. by destruct (sy_names _ Hsync _ _ Hut). }
  split; cbn [tpd_AppliedTransactions tpd_RevertedTransactions fold_left].
  - assert (Heq : ut_ID <$> omap (fun id => tp_subscriberSets tp !! id) l = l).
    { clearbody l. induction l as [|id l IH]; [done|]. cbn [omap list_omap].
      destruct (Hl id) as (ut & -> & Hid); [by left|]. cbn [fmap list_fmap]. rewrite Hid. f_equal.
      apply IH. intros id' Hid'. apply Hl. by right. }
    rewrite Heq. unfold l. rewrite Hrange. apply NoDup_elements.
  - apply Forall_forall. intros ut (id & Hid & Hut)%list_elem_of_omap.
    pose proof (sy_names _ Hsync _ _ Hut) as Hn. destruct Hn as [Hn1 Hn2].
    split_and!; [by split; [|rewrite Hn1]|by eapply Hch|].
    apply lookup_empty.
Qed.

Lemma in_sync_told tp tp' : told tp' = told tp -> in_sync tp -> in_sync tp'.
Proof. unfold told. intros [= H1 H2 H3] [S1 S2 S3]. split; by rewrite ?H1, ?H2, ?H3. Qed.

Lemma listening_hears tp w : listening tp w ->
  in_sync tp /\ me ∈ tp_subscribers tp /\ ids_once (tp_subscriberSets tp) /\ hears (tp_subscriberSets tp) w.
Proof.
  induction 1 as [tp w tp' d w' Hsync Hch Hme Hnone Honce Hw Hrun Hsent Hrec
    |tp w sent d w' _ (Hsync & Hme & Honce & Hw) Hnamed Honce' Hsent Hrec
    |tp w tp' _ (Hsync & Hme & Honce & Hw) Ht|tp w w' _ (Hsync & Hme & Honce & Hw) H1 H2 H3].
  - destruct (subscribe_sends tp tp' d Hsync Hch Hnone Hrun Hsent) as (Hsets & Hap & Hd).
    assert (ids_once ∅) by (split; intros *; by rewrite lookup_empty).
    destruct (receive_run ∅ w d) as (w1 & Hrun' & Hw1); try done; [by rewrite Hap|].
    rewrite Hrun' in Hrec. injection Hrec as <-. rewrite Hsets.
    split_and!; [by eapply (subscribe_in_sync range Hrange)| |done|by rewrite Hap in Hw1].
    unfold TransactionPoolSubscribe in Hrun. inv_run. cbn. apply elem_of_app. right. by apply list_elem_of_singleton.
  - destruct (update_sends tp sent d Hsync Hme Hnamed Hsent) as [Hap Hd].
    destruct (receive_run _ w d (sy_names _ Hsync) Honce ltac:(by rewrite <- Hap) Hd Hw) as (w1 & Hrun' & Hw1).
    rewrite Hrun' in Hrec. injection Hrec as <-. split_and!; [|done|done|by rewrite Hap].
    apply update_in_sync; [done| |done]. intros id ts Hts. apply (Hnamed id ts Hts).
  - split; [by eapply in_sync_told|]. unfold told in Ht. injection Ht as -> -> _. done.
  - split_and!; try done. destruct Hw as [A1 A2 A3 A4 A5]. split; rewrite ?H1, ?H2; try done; [|by auto].
    intros pt Hpt. destruct (A3 pt Hpt) as (id & ut & ? & ? & ? & ? & uh & ? & ?). exists id, ut. split_and!; try done.
    exists uh. auto.
Qed.

(** C38. The wallet follows the transaction pool it subscribed to: whatever
    happens in between, its list of unconfirmed transactions holds every
    transaction of the sets it was told about that has a siacoin input or output
    of an address the wallet has had since it subscribed ([K]), each once and
    under its ID, and only transactions of these sets that have a siacoin input
    or output of one of its addresses.  The next update is taken without an
    error or a panic, and then these sets are the sets of the pool.  The sets
    are taken to hold no transaction twice, and the wallet to keep its
    addresses. *)
Theorem wallet_follows_pool tp w : listening tp w ->
  hears (tp_subscriberSets tp) w /\
  (sets_named tp -> ids_once (tp_subscriberSets (updateSubscribersTransactions range tp)) ->
   exists sent d w', let tp' := updateSubscribersTransactions range tp in
     tp_sent tp' !! me = Some (sent ++ [d]) /\ ReceiveUpdatedUnconfirmedTransactions d w = Ret () w' /\
     hears (tp_subscriberSets tp') w' /\ dom (tp_subscriberSets tp') = dom (tp_transactionSets tp)).
Proof.
  intros Hl. destruct (listening_hears tp w Hl) as (Hsync & Hme & Honce & Hw). split; [done|]. intros Hnamed Honce'.
  assert (Hsent : exists sent d, tp_sent (updateSubscribersTransactions range tp) !! me = Some (sent ++ [d])).
  { unfold updateSubscribersTransactions. cbn [with_subscribers tp_sent].
    rewrite (send_diff_lookup range), decide_True by (done || apply Hsync). eauto. }
  destruct Hsent as (sent & d & Hsent). destruct (update_sends tp sent d Hsync Hme Hnamed Hsent) as [Hap Hd].
  destruct (receive_run _ w d (sy_names _ Hsync) Honce ltac:(by rewrite <- Hap) Hd Hw) as (w1 & Hrun' & Hw1).
  exists sent, d, w1. cbv zeta. split_and!; [done|done|by rewrite Hap|]. apply set_eq. intros id.
  rewrite !elem_of_dom, (update_lookup range Hrange). destruct (tp_transactionSets tp !! id); [|done].
  split; [eauto|]. intros _. destruct (tp_subscriberSets tp !! id); eauto.
Qed.
End pool.
