(* ===== verification/SeedScan.v ===== *)
(** * Scanning the blockchain for the addresses of a seed

    modules/wallet/scan.go: the scanner subscribes to the consensus set from the
    first block on and collects the outputs that pay an address of the seed; it
    generates more keys and scans again until the upper half of the keys is
    unused.  Other threads may accept blocks at any time; what the scanner finds
    whenever it takes the lock is the argument [views] of
    [ConsensusSetSubscribe], which lists the subscribers other than the scanner
    itself. *)

From S2P Require Import Prelude Bytes Interfaces Currency Types Params Target Encoding Decoding.
From S2P Require Import Transactions Subsidy Signatures ConsensusDB GenerateDiffs.
From S2P Require Import ProcessedBlock BlockValidation Fork Accept ConsensusSubscribe.
From S2P Require Import Journal Agree Records Chain ChainFork ChainAccept ChainState ChangeLog.
From S2P Require Import Subscription Replay Node TransactionPool Wallet WalletUpdate WalletKeys.
From S2P Require Import NodeWallet.

Open Scope Z_scope.

Definition scanMultiplier : Z := 4.

Class ScanParams := {
  maxScanKeys : Z;
  numInitialKeys : Z
}.

Definition standard_scan_params : ScanParams := {| maxScanKeys := 100000000; numInitialKeys := 1000000 |}.
Definition dev_scan_params : ScanParams := {| maxScanKeys := 1000000; numInitialKeys := 10000 |}.
Definition testing_scan_params : ScanParams := {| maxScanKeys := 100000; numInitialKeys := 1000 |}.

Record scannedOutput := mkScannedOutput {
  so_id : OutputID;
  so_value : Currency;
  so_seedIndex : Z
}.

Record seedScanner := mkSeedScanner {
  ss_dustThreshold : Currency;
  ss_keys : gmap UnlockHash Z;
  ss_largestIndexSeen : Z;
  ss_scannedHeight : BlockHeight;
  ss_seed : Seed;
  ss_siacoinOutputs : gmap SiacoinOutputID scannedOutput;
  ss_siafundOutputs : gmap SiafundOutputID scannedOutput
}.

Definition with_scan_keys keys (s : seedScanner) : seedScanner :=
  mkSeedScanner (ss_dustThreshold s) keys (ss_largestIndexSeen s) (ss_scannedHeight s) (ss_seed s)
    (ss_siacoinOutputs s) (ss_siafundOutputs s).
Definition with_scan_height height (s : seedScanner) : seedScanner :=
  mkSeedScanner (ss_dustThreshold s) (ss_keys s) (ss_largestIndexSeen s) height (ss_seed s)
    (ss_siacoinOutputs s) (ss_siafundOutputs s).

(** The caller that sweeps a seed sets [dustThreshold] next. *)
Definition newSeedScanner (dustThreshold : Currency) (seed : Seed) : seedScanner :=
  mkSeedScanner dustThreshold ∅ 0 0 seed ∅ ∅.

Definition numKeys (s : seedScanner) : Z := Z.of_nat (size (ss_keys s)).

(** ** One change *)

Definition scan_scod (s : seedScanner) (m : gmap SiacoinOutputID scannedOutput) (x : SiacoinOutputDiff)
  : gmap SiacoinOutputID scannedOutput :=
  let sco := scod_SiacoinOutput x in
  match scod_Direction x, ss_keys s !! sco_UnlockHash sco with
  | DiffApply, Some index =>
      if 0 <? Currency.Cmp (sco_Value sco) (ss_dustThreshold s)
      then <[scod_ID x := mkScannedOutput (scod_ID x) (sco_Value sco) index]> m else m
  | DiffRevert, Some _ => delete (scod_ID x) m
  | _, None => m
  end.
Definition scan_sfod (s : seedScanner) (m : gmap SiafundOutputID scannedOutput) (x : SiafundOutputDiff)
  : gmap SiafundOutputID scannedOutput :=
  let sfo := sfod_SiafundOutput x in
  match sfod_Direction x, ss_keys s !! sfo_UnlockHash sfo with
  | DiffApply, Some index => <[sfod_ID x := mkScannedOutput (sfod_ID x) (sfo_Value sfo) index]> m
  | DiffRevert, Some _ => delete (sfod_ID x) m
  | _, None => m
  end.

Definition seedScanner_ProcessConsensusChange (cc : ConsensusChange) (s : seedScanner) : seedScanner :=
  mkSeedScanner (ss_dustThreshold s) (ss_keys s)
    (fold_left (largest_index (ss_keys s)) (change_hashes (cc_Diffs cc)) (ss_largestIndexSeen s))
    (u64 (ss_scannedHeight s + (zlen (cc_AppliedBlocks cc) - zlen (cc_RevertedBlocks cc))))
    (ss_seed s)
    (fold_left (scan_scod s) (ccd_SiacoinOutputDiffs (cc_Diffs cc)) (ss_siacoinOutputs s))
    (fold_left (scan_sfod s) (ccd_SiafundOutputDiffs (cc_Diffs cc)) (ss_siafundOutputs s)).

Section scan.
Context {B : Build} {P : Params} {C : Crypto} {E : SiaEncoding} {D : SiaDecoder}.
Context {S : Ed25519} {SP : ScanParams}.

Definition seedScanner_generateKeys (n : Z) (s : seedScanner) : seedScanner :=
  let initialProgress := numKeys s in
  with_scan_keys (add_lookahead initialProgress (generateKeys (ss_seed s) initialProgress n) (ss_keys s)) s.

(** ** The scan *)

Context {Sub : Type} `{EqDecision Sub} (subscriber : Sub).
Context (views : nat -> csView Sub) (cancelled stopped : nat -> bool).

Abbreviation process := (fun (_ : Sub) cc => modify (seedScanner_ProcessConsensusChange cc)).

(** [cs.Unsubscribe(s)]: until it has the lock, the threads that accept blocks
    send their changes to the scanner. *)
Definition scan_unsubscribe (v : csView Sub) : M (subscribing seedScanner) () :=
  v' ← lock views;
  for_each (fun ce =>
    cc ← on_view (computeConsensusChange (v_synced v') ce) (cs_db (v_set v'));
    on_state (process subscriber cc))
    (drop (length (cs_published (v_set v))) (cs_published (v_set v'))).

(** The number of keys of the next round. *)
Definition next_keys (numKeys numKeys' : Z) : Z :=
  let numKeys := u64 (numKeys * scanMultiplier) in
  let remaining := u64 (maxScanKeys - numKeys') in
  if remaining <? numKeys then remaining else numKeys.

Fixpoint scan_loop (scans rounds fuel : nat) (n : Z) : M (subscribing seedScanner) () :=
  match scans with
  | O => panic "out of fuel"
  | Datatypes.S scans =>
      s ← on_state get;
      if numKeys s <? maxScanKeys then
        _ ← on_state (modify (fun s => with_scan_height 0 (seedScanner_generateKeys n s)));
        '(v, _) ← ConsensusSetSubscribe process views cancelled stopped rounds fuel subscriber
                    ConsensusChangeBeginning;
        _ ← scan_unsubscribe v;
        s ← on_state get;
        if ss_largestIndexSeen s <? numKeys s / 2 then mret ()
        else scan_loop scans rounds fuel (next_keys n (numKeys s))
      else throw (WalletError errMaxKeys)
  end.

Definition seedScanner_scan (scans rounds fuel : nat) : M (subscribing seedScanner) () :=
  scan_loop scans rounds fuel numInitialKeys.
End scan.

(** * What a scan finds

    A scan ends, and then the scanner has exactly the outputs of the consensus
    set that pay a generated address, although blocks arrive and are reverted
    while it runs and although later rounds start from the outputs the earlier
    ones found. *)

(** ** Collecting outputs from a journal *)

Section collect.
Context {V : Type} (owned : V -> bool) (wanted : Hash -> V -> option scannedOutput).
Context (Hwanted : forall k v, is_Some (wanted k v) -> owned v = true).

Definition collect_edit (e : edit Hash V) (m : gmap Hash scannedOutput) : gmap Hash scannedOutput :=
  match e with
  | (DiffApply, k, v) => match wanted k v with Some o => <[k := o]> m | None => m end
  | (DiffRevert, k, v) => if owned v then delete k m else m
  end.

(** The collection [m] shows the wanted outputs; besides them it may hold some
    of [stale], the collection at the start. *)
Definition shows (stale : gmap Hash scannedOutput) (outputs : gmap Hash V) (m : gmap Hash scannedOutput) : Prop :=
  forall k, match outputs !! k ≫= wanted k with
            | Some o => m !! k = Some o
            | None => m !! k = None \/ m !! k = stale !! k
            end.

Lemma shows_start stale : shows stale ∅ stale.
Proof. intros k. rewrite lookup_empty. by right. Qed.

Lemma shows_exact outputs m : shows ∅ outputs m -> m = map_imap wanted outputs.
Proof.
  intros Hm. apply map_eq. intros k. rewrite map_lookup_imap. specialize (Hm k).
  destruct (outputs !! k ≫= wanted k); [done|]. rewrite lookup_empty in Hm. by destruct Hm.
Qed.

(** What was stale is up to date where it was collected. *)
Lemma shows_settle stale outputs m :
  (forall k, outputs !! k ≫= wanted k = None -> stale !! k = None) -> shows stale outputs m -> shows ∅ outputs m.
Proof.
  intros Hs Hm k. specialize (Hm k). specialize (Hs k). rewrite lookup_empty.
  destruct (outputs !! k ≫= wanted k); [done|]. left. rewrite Hs in Hm by done. by destruct Hm.
Qed.

Lemma shows_edit stale e outputs m :
  jok id e outputs -> shows stale outputs m -> shows stale (jput e outputs) (collect_edit e m).
Proof.
  intros He Hm k'. destruct e as [[[] k] v]; cbn in *.
  - specialize (Hm k'). destruct (decide (k = k')) as [<-|Hne].
    + rewrite lookup_insert_eq. rewrite He in Hm. cbn in *.
      destruct (wanted k v); [by rewrite lookup_insert_eq|exact Hm].
    + rewrite lookup_insert_ne by done. destruct (wanted k v); [by rewrite lookup_insert_ne|done].
  - destruct He as (x & Hk & <-). cbn in *. specialize (Hm k'). destruct (decide (k = k')) as [<-|Hne].
    + rewrite lookup_delete_eq. rewrite Hk in Hm. cbn in *. destruct (owned x) eqn:Ho.
      * left. apply lookup_delete_eq.
      * destruct (wanted k x) eqn:Hw; [|exact Hm]. by rewrite (Hwanted k x) in Ho by (rewrite Hw; eauto).
    + rewrite lookup_delete_ne by done. destruct (owned x); [by rewrite lookup_delete_ne|done].
Qed.

Lemma shows_edits stale l : forall outputs m,
  jlegal id l outputs -> shows stale outputs m ->
  shows stale (jrun l outputs) (foldl (fun m e => collect_edit e m) m l).
Proof.
  induction l as [|e l IH]; intros outputs m; cbn; [done|]. intros [He Hl] Hm. apply IH; [done|by apply shows_edit].
Qed.
End collect.

(** ** The scanner along a change *)

Definition owned_hash (s : seedScanner) (uh : UnlockHash) : bool := bool_decide (is_Some (ss_keys s !! uh)).
Definition wanted_sco (s : seedScanner) (id : Hash) (sco : SiacoinOutput) : option scannedOutput :=
  index ← ss_keys s !! sco_UnlockHash sco;
  if 0 <? Currency.Cmp (sco_Value sco) (ss_dustThreshold s)
  then Some (mkScannedOutput id (sco_Value sco) index) else None.
Definition wanted_sfo (s : seedScanner) (id : Hash) (sfo : SiafundOutput) : option scannedOutput :=
  index ← ss_keys s !! sfo_UnlockHash sfo; Some (mkScannedOutput id (sfo_Value sfo) index).
Definition owned_sco (s : seedScanner) (sco : SiacoinOutput) : bool := owned_hash s (sco_UnlockHash sco).
Definition owned_sfo (s : seedScanner) (sfo : SiafundOutput) : bool := owned_hash s (sfo_UnlockHash sfo).

Lemma wanted_sco_owned s id sco : is_Some (wanted_sco s id sco) -> owned_sco s sco = true.
Proof.
  intros [o Ho]. unfold wanted_sco in Ho. apply bind_Some in Ho as (i & Hi & _).
  unfold owned_sco, owned_hash. rewrite Hi. by apply bool_decide_eq_true_2.
Qed.
Lemma wanted_sfo_owned s id sfo : is_Some (wanted_sfo s id sfo) -> owned_sfo s sfo = true.
Proof.
  intros [o Ho]. unfold wanted_sfo in Ho. apply bind_Some in Ho as (i & Hi & _).
  unfold owned_sfo, owned_hash. rewrite Hi. by apply bool_decide_eq_true_2.
Qed.

Lemma scan_scods_run s l : forall m, fold_left (scan_scod s) l m =
  foldl (fun m e => collect_edit (owned_sco s) (wanted_sco s) e m) m (scod_edit <$> l).
Proof.
  induction l as [|[dir id0 sco] l IH]; intros m; cbn [fold_left fmap list_fmap foldl]; [done|].
  rewrite IH. f_equal. unfold scan_scod, owned_sco, owned_hash, wanted_sco. cbn.
  destruct dir, (ss_keys s !! sco_UnlockHash sco); cbn; try done. by destruct (0 <? _).
Qed.
Lemma scan_sfods_run s l : forall m, fold_left (scan_sfod s) l m =
  foldl (fun m e => collect_edit (owned_sfo s) (wanted_sfo s) e m) m (sfod_edit <$> l).
Proof.
  induction l as [|[dir id0 sfo] l IH]; intros m; cbn [fold_left fmap list_fmap foldl]; [done|].
  rewrite IH. f_equal. unfold scan_sfod, owned_sfo, owned_hash, wanted_sfo. cbn.
  by destruct dir, (ss_keys s !! sfo_UnlockHash sfo).
Qed.

(** The scanner knows the state of a path of [h] blocks, apart from what is
    left of the outputs in [s0], with which the scan began. *)
Record scanning (s0 : seedScanner) (mi : mirror) (h : nat) (s : seedScanner) : Prop := mkScanning {
  sg_dust : ss_dustThreshold s = ss_dustThreshold s0;
  sg_keys : ss_keys s = ss_keys s0;
  sg_seed : ss_seed s = ss_seed s0;
  sg_largest : ss_largestIndexSeen s0 <= ss_largestIndexSeen s;
  sg_height : ss_scannedHeight s = u64 (Z.of_nat h);
  sg_sco : shows (wanted_sco s0) (ss_siacoinOutputs s0) (mi_SiacoinOutputs mi) (ss_siacoinOutputs s);
  sg_sfo : shows (wanted_sfo s0) (ss_siafundOutputs s0) (mi_SiafundOutputs mi) (ss_siafundOutputs s);
  sg_sco_seen id sco i : mi_SiacoinOutputs mi !! id = Some sco -> ss_keys s0 !! sco_UnlockHash sco = Some i ->
    i <= ss_largestIndexSeen s;
  sg_sfo_seen id sfo i : mi_SiafundOutputs mi !! id = Some sfo -> ss_keys s0 !! sfo_UnlockHash sfo = Some i ->
    i <= ss_largestIndexSeen s
}.

Lemma scanning_start s : ss_scannedHeight s = 0 -> scanning s empty_mirror 0 s.
Proof.
  intros Hh. split; try done; [apply shows_start|apply shows_start|..];
    intros k x i Hx; cbn in Hx; by rewrite lookup_empty in Hx.
Qed.

Lemma u64_add_u64 a b : u64 (u64 a + b) = u64 (a + b).
Proof. unfold u64. by rewrite Zplus_mod_idemp_l. Qed.

Section replay.
Context {P : Params} {C : Crypto} {E : SiaEncoding} (r : release) (Hr : r <> Testing).
#[local] Hint Extern 0 Build => exact (debug_build r) : typeclass_instances.

Lemma scanning_change d s0 s lp lp' cc :
  change_between d lp lp' cc -> scanning s0 (path_mirror (db_BlockMap d) lp) (length lp) s ->
  scanning s0 (path_mirror (db_BlockMap d) lp') (length lp') (seedScanner_ProcessConsensusChange cc s).
Proof.
  intros [_ _ Hb _ [[L1 R1] _ [L2 R2] _] _] [A1 A2 A3 A4 A5 A6 A7 A8 A9].
  destruct (largest_index_spec (ss_keys s) (change_hashes (cc_Diffs cc)) (ss_largestIndexSeen s)) as (M1 & M2 & _).
  split; cbn [seedScanner_ProcessConsensusChange ss_dustThreshold ss_keys ss_seed ss_largestIndexSeen
    ss_scannedHeight ss_siacoinOutputs ss_siafundOutputs]; try done; [lia|..].
  - destruct Hb as (front & rev & app & rpbs & apbs & -> & -> & _ & _ & Hr1 & Ha1 & [Dr Da _ _ _]).
    rewrite A5, u64_add_u64. f_equal. unfold zlen. rewrite Dr, Da, !length_app, length_reverse, !length_fmap.
    apply Forall2_length in Hr1, Ha1. lia.
  - rewrite scan_scods_run, R1. unfold wanted_sco, owned_sco, owned_hash. rewrite A1, A2.
    apply (shows_edits (owned_sco s0) (wanted_sco s0)); [apply wanted_sco_owned|done..].
  - rewrite scan_sfods_run, R2. unfold wanted_sfo, owned_sfo, owned_hash. rewrite A2.
    apply (shows_edits (owned_sfo s0) (wanted_sfo s0)); [apply wanted_sfo_owned|done..].
  - rewrite R1. intros k sco i Hk. revert i. revert k sco Hk. apply (jrun_values (fun sco => forall i,
      ss_keys s0 !! sco_UnlockHash sco = Some i -> i <= _)).
    + intros k sco Hk i Hi. specialize (A8 k sco i Hk Hi). lia.
    + apply Forall_fmap, Forall_forall. intros x Hx i Hi. apply (M2 (sco_UnlockHash (scod_SiacoinOutput x))); [|by rewrite A2].
      unfold change_hashes. apply elem_of_app. left. by apply (list_elem_of_fmap_2 (fun x => sco_UnlockHash (scod_SiacoinOutput x))).
  - rewrite R2. intros k sfo i Hk. revert i. revert k sfo Hk. apply (jrun_values (fun sfo => forall i,
      ss_keys s0 !! sfo_UnlockHash sfo = Some i -> i <= _)).
    + intros k sfo Hk i Hi. specialize (A9 k sfo i Hk Hi). lia.
    + apply Forall_fmap, Forall_forall. intros x Hx i Hi. apply (M2 (sfo_UnlockHash (sfod_SiafundOutput x))); [|by rewrite A2].
      unfold change_hashes. apply elem_of_app. right. by apply (list_elem_of_fmap_2 (fun x => sfo_UnlockHash (sfod_SiafundOutput x))).
Qed.

(** ** The scanner along the change log *)

Context {Sub : Type} (views : nat -> csView Sub) (n : nat -> Z) (N : Z) (Hsched : schedule r views n N).

Abbreviation log k := (all_changes (v_set (views k))).
Abbreviation db k := (cs_db (v_set (views k))).
Abbreviation tree_at k := (db_BlockMap (db k)).
Abbreviation scan_all := (after seedScanner_ProcessConsensusChange).

Lemma view_grows j k : (j <= k)%nat -> grows (tree_at j) (tree_at k).
Proof.
  induction 1 as [|k _ IH]; [apply grows_refl|]. eapply grows_trans; [exact IH|].
  eapply (steps_grows r (n k) _ (n (S k))); [done|by eapply view_reachable|apply Hsched|by eapply view_below].
Qed.

Lemma log_path k : exists lp, follow_all (log k) [] = Some lp /\ path_list (db k) lp /\ chained (tree_at k) lp.
Proof.
  destruct (reachable_published r (n k) (v_set (views k)) Hr) as (lp & Hf & Hp & _);
    [by eapply view_below|by eapply view_reachable|]. exists lp. split_and!; [exact Hf|done|].
  eapply (path_chained r (n k)); [by eapply view_below| |done].
  by apply reachable_cs_ok; [|eapply view_below|eapply view_reachable].
Qed.

Lemma entry_between k l1 ce l2 synced : log k = l1 ++ ce :: l2 -> exists lp1 lp2 cc,
  follow_all l1 [] = Some lp1 /\ follow ce lp1 = Some lp2 /\
  computeConsensusChange synced ce (db k) = Ret cc (db k) /\ change_between (db k) lp1 lp2 cc.
Proof.
  pose proof (view_below r views n N Hsched k) as Hn. pose proof (view_reachable r views n N Hsched k) as Hreach.
  destruct (reachable_published r (n k) (v_set (views k)) Hr Hn Hreach) as (lp & _ & _ & Htr & _).
  destruct l1 as [|g l1]; cbn [app]; intros [= <- Heq].
  - exists [], [GenesisID]. destruct (change_computed_between r Hr (n k) (v_set (views k)) synced genesisEntry [] [GenesisID])
      as (cc & H1 & H2); try done; [by left|by destruct (cs_published _), Htr|]. by exists cc.
  - rewrite Heq in Htr. destruct (trace_entry _ _ _ _ _ Htr) as (lp1 & lp2 & Hc1 & Hc2 & Hf & Hl & Hne & Hall).
    destruct (change_computed_between r Hr (n k) (v_set (views k)) synced ce lp1 lp2)
      as (cc & H1 & H2); try done; [by right|]. exists lp1, lp2, cc. by split_and!.
Qed.

(** An entry stands at the same place in every log that has it. *)
Lemma log_place j k l1 ce l2 : (j <= k)%nat -> log k = l1 ++ ce :: l2 -> ce ∈ log j ->
  exists l2', log j = l1 ++ ce :: l2'.
Proof.
  intros Hj Hk [i Hi]%list_elem_of_lookup. destruct (log_prefix_le r Hr views n N Hsched j k Hj) as [l Hl].
  pose proof (log_NoDup r Hr views n N Hsched k) as Hnd.
  assert (i = length l1) as ->.
  { eapply (NoDup_lookup (log k)); [done|rewrite Hl; by apply lookup_app_l_Some|].
    by rewrite Hk, list_lookup_middle. }
  exists (drop (S (length l1)) (log j)). rewrite <- (take_drop_middle _ _ _ Hi) at 1. f_equal.
  pose proof (lookup_lt_Some _ _ _ Hi). rewrite <- (take_app_le _ l) by lia. rewrite <- Hl, Hk. by rewrite take_app_length.
Qed.

Lemma scan_entry k l1 ce l2 cc lp1 lp2 s0 s :
  log k = l1 ++ ce :: l2 -> computed_by r views k ce cc ->
  follow_all l1 [] = Some lp1 -> follow ce lp1 = Some lp2 ->
  scanning s0 (path_mirror (tree_at k) lp1) (length lp1) s ->
  scanning s0 (path_mirror (tree_at k) lp2) (length lp2) (seedScanner_ProcessConsensusChange cc s).
Proof.
  intros Hk (j & d & Hj & Hin & Hcc) Hf1 Hf2 Hs. destruct (log_place j k l1 ce l2 Hj Hk Hin) as [l2' Hlj].
  destruct (entry_between j l1 ce l2' (v_synced (views j)) Hlj) as (lp1' & lp2' & cc' & Hf1' & Hf2' & Hcc' & Hb).
  rewrite Hf1 in Hf1'. injection Hf1' as <-. rewrite Hf2 in Hf2'. injection Hf2' as <-.
  rewrite Hcc in Hcc'. injection Hcc' as -> ->. pose proof (view_grows j k Hj) as Hg.
  rewrite (path_mirror_grows _ _ lp2 Hg) by apply Hb. eapply scanning_change; [done|].
  destruct (cb_old _ _ _ _ Hb) as [->|Hch]; [exact Hs|]. by rewrite (path_mirror_grows _ _ _ Hg Hch) in Hs.
Qed.

Lemma scan_entries k s0 l2 : forall l0 l1 ccs lp0 s,
  log k = l0 ++ l1 ++ l2 -> Forall2 (computed_by r views k) l1 ccs ->
  follow_all l0 [] = Some lp0 -> scanning s0 (path_mirror (tree_at k) lp0) (length lp0) s ->
  exists lp, follow_all (l0 ++ l1) [] = Some lp /\
    scanning s0 (path_mirror (tree_at k) lp) (length lp) (scan_all ccs s).
Proof.
  intros l0 l1. revert l0. induction l1 as [|ce l1 IH]; intros l0 ccs lp0 s Hk Hc Hf Hs; inversion Hc as [|? cc ? ccs' Hcc Hccs]; subst.
  { rewrite app_nil_r. by exists lp0. }
  destruct (entry_between k l0 ce (l1 ++ l2) true Hk) as (lp0' & lp1 & _ & Hf' & Hf1 & _).
  rewrite Hf in Hf'. injection Hf' as <-. rewrite cons_middle, app_assoc in *.
  apply (IH (l0 ++ [ce]) ccs' lp1); [by rewrite Hk, <- !app_assoc|done| |].
  - rewrite (follow_all_app _ _ _ _ Hf). unfold follow_all. cbn. by rewrite Hf1.
  - eapply (scan_entry k l0 ce (l1 ++ l2)); try done. by rewrite Hk, <- app_assoc.
Qed.

(** A scan that starts with the outputs an earlier one found. *)
Definition without_outputs (s : seedScanner) : seedScanner :=
  mkSeedScanner (ss_dustThreshold s) (ss_keys s) (ss_largestIndexSeen s) (ss_scannedHeight s) (ss_seed s) ∅ ∅.

Definition outdated (k : nat) (s : seedScanner) : Prop :=
  (forall id, db_SiacoinOutputs (db k) !! id ≫= wanted_sco s id = None -> ss_siacoinOutputs s !! id = None) /\
  (forall id, db_SiafundOutputs (db k) !! id ≫= wanted_sfo s id = None -> ss_siafundOutputs s !! id = None).

Lemma scan_log j k ccs s :
  (j <= k)%nat -> outdated j s -> ss_scannedHeight s = 0 -> Forall2 (computed_by r views k) (log k) ccs ->
  scanning (without_outputs s) (mirror_of (db k)) (Z.to_nat (db_BlockHeight (db k) + 1)) (scan_all ccs s).
Proof.
  intros Hj [Ho1 Ho2] Hh Hc. destruct (log_prefix_le r Hr views n N Hsched j k Hj) as [l Hl].
  rewrite Hl in Hc. apply Forall2_app_inv_l in Hc as (c1 & c2 & Hc1 & Hc2 & ->).
  destruct (log_path j) as (lpj & Hfj & Hpj & Hchj). destruct (log_path k) as (lpk & Hfk & Hpk & Hchk).
  assert (Hmj : path_mirror (tree_at k) lpj = mirror_of (db j)).
  { rewrite (path_mirror_grows _ _ _ (view_grows j k Hj) Hchj).
    by eapply path_mirror_db; [done|eapply view_below|eapply view_reachable|..]. }
  destruct (scan_entries k s l [] (log j) c1 [] s Hl Hc1) as (lp1 & Hf1 & Hs1); [done|by apply scanning_start|].
  cbn [app] in Hf1. rewrite Hfj in Hf1. injection Hf1 as <-. rewrite Hmj in Hs1.
  destruct (scan_entries k (without_outputs s) [] (log j) l c2 lpj (scan_all c1 s)) as (lp2 & Hf2 & Hs2);
    [by rewrite app_nil_r|done|done| |].
  { rewrite Hmj. destruct Hs1 as [A1 A2 A3 A4 A5 A6 A7 A8 A9]. split; try done.
    - apply (shows_settle _ _ _ _ Ho1 A6).
    - apply (shows_settle _ _ _ _ Ho2 A7). }
  rewrite <- Hl, Hfk in Hf2. injection Hf2 as <-. unfold after. rewrite foldl_app. fold (scan_all c1 s).
  replace (Z.to_nat (db_BlockHeight (db k) + 1)) with (length lpk) by (destruct Hpk as [Hlen _]; lia).
  erewrite <- (path_mirror_db r Hr (n k)); [exact Hs2|by eapply view_below|by eapply view_reachable|done..].
Qed.

(** The largest index comes from a change. *)
Lemma scan_largest ccs : forall s,
  ss_largestIndexSeen (scan_all ccs s) = ss_largestIndexSeen s \/
  exists cc uh, cc ∈ ccs /\ uh ∈ change_hashes (cc_Diffs cc) /\ ss_keys s !! uh = Some (ss_largestIndexSeen (scan_all ccs s)).
Proof.
  induction ccs as [|cc ccs IH]; intros s; [by left|]. unfold after. cbn [foldl]. fold (scan_all ccs (seedScanner_ProcessConsensusChange cc s)).
  destruct (IH (seedScanner_ProcessConsensusChange cc s)) as [->|(cc' & uh & H1 & H2 & H3)].
  - destruct (largest_index_spec (ss_keys s) (change_hashes (cc_Diffs cc)) (ss_largestIndexSeen s)) as (_ & _ & [H|(uh & H1 & H2)]).
    + by left.
    + right. exists cc, uh. split_and!; [by left|done|exact H2].
  - right. exists cc', uh. split_and!; [by right|done|exact H3].
Qed.
End replay.

(** ** The rounds of a scan *)

Section scan.
Context {P : Params} {C : Crypto} {E : SiaEncoding} {S : Ed25519} {SP : ScanParams}.
Context (r : release) (Hr : r <> Testing).
#[local] Hint Extern 0 Build => exact (debug_build r) : typeclass_instances.
Context {Sub : Type} `{EqDecision Sub} (subscriber : Sub) (views : nat -> csView Sub).
Context (cancelled stopped : nat -> bool).
Context (Hcancel : forall j, cancelled j = false) (Hstop : forall j, stopped j = false).
Context (n : nat -> Z) (N : Z) (Hsched : schedule r views n N).
Context (K : nat) (Hstable : forall k, (K <= k)%nat -> v_set (views k) = v_set (views K)).
Context (Hids : ids_distinct (all_changes (v_set (views K)))).
Context (Hnew : forall k, subscriber ∉ v_subscribers (views k)).
Context (seed : Seed) (Hinj : addrs_differ seed maxScanKeys).
Context (Hinit : 0 < numInitialKeys <= maxScanKeys) (Hmax : maxScanKeys * scanMultiplier < 2 ^ 64).

Abbreviation log k := (all_changes (v_set (views k))).
Abbreviation db k := (cs_db (v_set (views k))).

(** What the scanner has found with [m] keys in the consensus set of a view. *)
Record found (k : nat) (m : Z) (s : seedScanner) : Prop := mkFound {
  fo_keys : window seed 0 m (ss_keys s);
  fo_siacoins id o : ss_siacoinOutputs s !! id = Some o <-> exists sco i,
    db_SiacoinOutputs (db k) !! id = Some sco /\ 0 <= i < m /\ sco_UnlockHash sco = addr seed i /\
    (ss_dustThreshold s < sco_Value sco)%N /\ o = mkScannedOutput id (sco_Value sco) i;
  fo_siafunds id o : ss_siafundOutputs s !! id = Some o <-> exists sfo i,
    db_SiafundOutputs (db k) !! id = Some sfo /\ 0 <= i < m /\ sfo_UnlockHash sfo = addr seed i /\
    o = mkScannedOutput id (sfo_Value sfo) i;
  fo_siacoins_seen id sco i : db_SiacoinOutputs (db k) !! id = Some sco -> 0 <= i < m ->
    sco_UnlockHash sco = addr seed i -> i <= ss_largestIndexSeen s;
  fo_siafunds_seen id sfo i : db_SiafundOutputs (db k) !! id = Some sfo -> 0 <= i < m ->
    sfo_UnlockHash sfo = addr seed i -> i <= ss_largestIndexSeen s;
  fo_height : ss_scannedHeight s = u64 (db_BlockHeight (db k) + 1)
}.

(** The largest index is that of an address some change names, or 0. *)
Definition seen (k : nat) (s : seedScanner) : Prop :=
  ss_largestIndexSeen s = 0 \/ exists ce cc, ce ∈ log k /\ computed_by r views k ce cc /\
    addr seed (ss_largestIndexSeen s) ∈ change_hashes (cc_Diffs cc).

(** Between two rounds: the outputs are the ones of an earlier view. *)
Record between (dust : Currency) (l : nat) (m : Z) (s : seedScanner) : Prop := mkBetween {
  bt_keys : window seed 0 m (ss_keys s);
  bt_range : 0 <= m <= maxScanKeys;
  bt_seed : ss_seed s = seed;
  bt_dust : ss_dustThreshold s = dust;
  bt_seen : seen l s;
  bt_outputs : exists j, (j <= l)%nat /\
    (forall id o, ss_siacoinOutputs s !! id = Some o -> exists sco,
      db_SiacoinOutputs (db j) !! id = Some sco /\ wanted_sco s id sco = Some o) /\
    (forall id o, ss_siafundOutputs s !! id = Some o -> exists sfo,
      db_SiafundOutputs (db j) !! id = Some sfo /\ wanted_sfo s id sfo = Some o)
}.

Lemma seen_mono j k s : (j <= k)%nat -> seen j s -> seen k s.
Proof.
  intros Hj [?|(ce & cc & Hin & Hc & Ha)]; [by left|]. right. exists ce, cc. split_and!; [|by eapply computed_by_mono|done].
  destruct (log_prefix_le r Hr views n N Hsched j k Hj) as [l ->]. apply elem_of_app. by left.
Qed.

Lemma window_numKeys m s : window seed 0 m (ss_keys s) -> 0 <= m <= maxScanKeys -> numKeys s = m.
Proof. intros Hw Hm. apply (window_size seed maxScanKeys Hinj 0 m); [lia..|done]. Qed.

(** The keys of the next round. *)
Lemma more_keys dust l m q s : between dust l m s -> 0 < q -> m + q <= maxScanKeys ->
  let s1 := with_scan_height 0 (seedScanner_generateKeys q s) in
  window seed 0 (m + q) (ss_keys s1) /\ exists j, (j <= l)%nat /\ outdated views j s1.
Proof.
  intros [B1 B2 B3 B4 _ (j & Hj & B5 & B6)] Hq Hmq s1.
  assert (Hkeys : ss_keys s1 = add_lookahead (0 + m) (keys_from seed (0 + m) (Z.to_nat q)) (ss_keys s)).
  { subst s1. cbn. rewrite (window_numKeys m) by done.
    rewrite B3, (generateKeys_from seed maxScanKeys) by (unfold scanMultiplier in *; lia). by rewrite !Z.add_0_l. }
  assert (Hw : window seed 0 (m + q) (ss_keys s1)).
  { rewrite Hkeys. rewrite <- (Z2Nat.id q) at 1 by lia.
    apply (add_lookahead_window seed maxScanKeys); [done|unfold scanMultiplier in *; lia|lia..|done]. }
  split; [done|]. exists j. split; [done|].
  assert (Hsub : forall uh i, ss_keys s !! uh = Some i -> ss_keys s1 !! uh = Some i).
  { intros uh i Hi. apply B1 in Hi as [Hi ->]. apply Hw. split; [lia|done]. }
  split; intros id Hnone.
  - destruct (ss_siacoinOutputs s1 !! id) as [o|] eqn:Ho; [|done]. exfalso.
    destruct (B5 id o Ho) as (sco & Hsco & Hwt). rewrite Hsco in Hnone. cbn in Hnone. unfold wanted_sco in *.
    destruct (ss_keys s !! sco_UnlockHash sco) as [i|] eqn:Hi; [|done]. rewrite (Hsub _ _ Hi) in Hnone.
    cbn in Hnone, Hwt. by destruct (0 <? _).
  - destruct (ss_siafundOutputs s1 !! id) as [o|] eqn:Ho; [|done]. exfalso.
    destruct (B6 id o Ho) as (sfo & Hsfo & Hwt). rewrite Hsfo in Hnone. cbn in Hnone. unfold wanted_sfo in *.
    destruct (ss_keys s !! sfo_UnlockHash sfo) as [i|] eqn:Hi; [|done]. by rewrite (Hsub _ _ Hi) in Hnone.
Qed.

Lemma round_found j k dust m s1 ccs :
  window seed 0 m (ss_keys s1) -> 0 <= m <= maxScanKeys -> ss_seed s1 = seed -> ss_dustThreshold s1 = dust ->
  ss_scannedHeight s1 = 0 -> seen k s1 -> (j <= k)%nat -> outdated views j s1 ->
  Forall2 (computed_by r views k) (log k) ccs ->
  let s2 := after seedScanner_ProcessConsensusChange ccs s1 in found k m s2 /\ between dust k m s2.
Proof.
  intros Hw Hm Hseed Hdust Hh Hseen Hj Hout Hc s2.
  pose proof (scan_log r Hr views n N Hsched j k ccs s1 Hj Hout Hh Hc) as [A1 A2 A3 A4 A5 A6%shows_exact A7%shows_exact A8 A9].
  fold s2 in A1, A2, A3, A4, A5, A6, A7, A8, A9.
  cbn [without_outputs ss_dustThreshold ss_keys ss_seed ss_largestIndexSeen mirror_of mi_SiacoinOutputs mi_SiafundOutputs]
    in A1, A2, A3, A4, A6, A7, A8, A9.
  assert (Hw2 : window seed 0 m (ss_keys s2)) by (by rewrite A2).
  assert (Hpos : 0 <= db_BlockHeight (db k) + 1).
  { destruct (log_path r Hr views n N Hsched k) as (lp & _ & [Hlen _] & _). lia. }
  assert (Hs2 : seen k s2).
  { destruct (scan_largest ccs s1) as [Heq|(cc & uh & Hcc & Hin & Hk)];
      [fold s2 in Heq|fold s2 in Hk].
    - unfold seen in *. by rewrite Heq.
    - right. apply list_elem_of_lookup in Hcc as [i Hcc]. destruct (Forall2_lookup_r _ _ _ _ _ Hc Hcc) as (ce & Hce & Hby).
      exists ce, cc. split_and!; [by eapply list_elem_of_lookup_2|done|]. by apply Hw in Hk as [_ <-]. }
  split; split; try done; try congruence.
  - intros id o. rewrite A6, map_lookup_imap. split.
    + intros (sco & Hsco & Hwt)%bind_Some. unfold wanted_sco in Hwt. apply bind_Some in Hwt as (i & Hi & Hwt).
      cbn in Hi, Hwt. apply Hw in Hi as [Hi Hu]. exists sco, i. unfold Currency.Cmp in Hwt.
      destruct (N.compare_spec (sco_Value sco) (ss_dustThreshold s1)) in Hwt; try discriminate Hwt.
      injection Hwt as <-. rewrite A1. split_and!; try done; lia.
    + intros (sco & i & Hsco & Hi & Hu & Hd & ->). rewrite Hsco. cbn. unfold wanted_sco. cbn.
      assert (Hk : ss_keys s1 !! sco_UnlockHash sco = Some i) by (apply Hw; split; [lia|done]). rewrite Hk. cbn.
      rewrite A1 in Hd. unfold Currency.Cmp. by destruct (N.compare_spec (sco_Value sco) (ss_dustThreshold s1)); try lia.
  - intros id o. rewrite A7, map_lookup_imap. split.
    + intros (sfo & Hsfo & Hwt)%bind_Some. unfold wanted_sfo in Hwt. apply bind_Some in Hwt as (i & Hi & [= <-]).
      cbn in Hi. apply Hw in Hi as [Hi Hu]. exists sfo, i. split_and!; try done; lia.
    + intros (sfo & i & Hsfo & Hi & Hu & ->). rewrite Hsfo. cbn. unfold wanted_sfo. cbn.
      assert (Hk : ss_keys s1 !! sfo_UnlockHash sfo = Some i) by (apply Hw; split; [lia|done]). by rewrite Hk.
  - intros id sco i Hsco Hi Hu. apply (A8 id sco i Hsco), Hw. split; [lia|done].
  - intros id sfo i Hsfo Hi Hu. apply (A9 id sfo i Hsfo), Hw. split; [lia|done].
  - rewrite A5. f_equal. lia.
  - exists k. split_and!; [done|..].
    + intros id o. rewrite A6, map_lookup_imap. intros (sco & Hsco & Hwt)%bind_Some. exists sco. split; [exact Hsco|].
      unfold wanted_sco in *. by rewrite A1, A2.
    + intros id o. rewrite A7, map_lookup_imap. intros (sfo & Hsfo & Hwt)%bind_Some. exists sfo. split; [exact Hsfo|].
      unfold wanted_sfo in *. by rewrite A2.
Qed.

Lemma unsubscribe_run k (st : subscribing seedScanner) : sb_locks st = Datatypes.S k -> exists ccs,
  scan_unsubscribe subscriber views (views k) st = Ret ()
    (mkSubscribing (Datatypes.S (Datatypes.S k)) (sb_polls st) (after seedScanner_ProcessConsensusChange ccs (sb_state st))) /\
  Forall2 (computed_by r views (Datatypes.S k)) (drop (length (log k)) (log (Datatypes.S k))) ccs.
Proof.
  intros Hl. unfold scan_unsubscribe, lock, mbind, M_bind. rewrite Hl.
  change (drop (length (log k)) (log (Datatypes.S k))) with
    (drop (length (cs_published (v_set (views k)))) (cs_published (v_set (views (Datatypes.S k))))).
  assert (Hin : drop (length (cs_published (v_set (views k)))) (cs_published (v_set (views (Datatypes.S k)))) ⊆ log (Datatypes.S k)).
  { intros x Hx. right. by eapply subseteq_drop. }
  revert Hin. generalize (drop (length (cs_published (v_set (views k)))) (cs_published (v_set (views (Datatypes.S k))))).
  intros l. generalize (sb_state st). induction l as [|ce l IH]; intros s Hin; [by exists []|].
  destruct (change_computed r (n (Datatypes.S k)) (v_set (views (Datatypes.S k))) (v_synced (views (Datatypes.S k))) ce Hr)
    as [cc Hcc]; [by eapply view_below|by eapply view_reachable|apply Hin; by left|].
  destruct (IH (seedScanner_ProcessConsensusChange cc s)) as (ccs & Hrun & Hf); [intros x Hx; apply Hin; by right|].
  exists (cc :: ccs). split.
  - cbn [for_each]. unfold on_view, on_state, mbind, M_bind. rewrite Hcc. cbn. exact Hrun.
  - constructor; [|done]. exists (Datatypes.S k), (cs_db (v_set (views (Datatypes.S k)))).
    split_and!; [done|apply Hin; by left|done].
Qed.

(** One round: [q] more keys, and a scan from the first block. *)
Lemma round_run rounds fuel dust m q (st : subscribing seedScanner) :
  (length (log K) < fuel)%nat -> (K < rounds)%nat ->
  between dust (sb_locks st) m (sb_state st) -> 0 < q -> m + q <= maxScanKeys ->
  exists k v st1 st2,
    ConsensusSetSubscribe (fun (_ : Sub) cc => modify (seedScanner_ProcessConsensusChange cc)) views cancelled stopped
      rounds fuel subscriber ConsensusChangeBeginning
      (mkSubscribing (sb_locks st) (sb_polls st) (with_scan_height 0 (seedScanner_generateKeys q (sb_state st)))) = Ret v st1 /\
    scan_unsubscribe subscriber views v.1 st1 = Ret () st2 /\
    sb_locks st2 = Datatypes.S k /\ found k (m + q) (sb_state st2) /\ between dust k (m + q) (sb_state st2).
Proof.
  intros Hfuel Hrounds Hb Hq Hmq. destruct (more_keys dust _ m q _ Hb Hq Hmq) as (Hw & j & Hj & Hout).
  set (s1 := with_scan_height 0 (seedScanner_generateKeys q (sb_state st))) in *.
  set (st0 := mkSubscribing (sb_locks st) (sb_polls st) s1).
  destruct (subscribe_run r Hr (fun (_ : Sub) cc => modify (seedScanner_ProcessConsensusChange cc)) views cancelled stopped
    seedScanner_ProcessConsensusChange subscriber (fun _ _ => eq_refl) Hcancel Hstop n N Hsched K Hstable Hids Hnew
    rounds fuel ConsensusChangeBeginning 0 st0) as (st1 & k & Hrun & Hl & Hk & [(c1 & Hc1 & Hs1) _]);
    [by left|done|done|].
  rewrite Hl, drop_0 in Hc1. cbn [pred] in Hc1. destruct (unsubscribe_run k st1 Hl) as (c2 & Hrun2 & Hc2).
  exists (Datatypes.S k). do 3 eexists. split; [exact Hrun|]. split; [exact Hrun2|]. split; [done|].
  cbn [sb_state]. rewrite Hs1. unfold after. rewrite <- foldl_app.
  destruct Hb as [B1 B2 B3 B4 B5 _]. cbn [sb_locks st0] in Hk.
  apply (round_found j (Datatypes.S k) dust); try done; [lia| |lia|].
  - apply (seen_mono (sb_locks st)); [lia|exact B5].
  - destruct (log_prefix_le r Hr views n N Hsched k (Datatypes.S k)) as [l Hlog]; [lia|].
    rewrite Hlog, drop_app_length in Hc2. rewrite Hlog. apply Forall2_app; [|exact Hc2].
    eapply Forall2_impl; [exact Hc1|]. intros ce cc. apply computed_by_mono. lia.
Qed.

(** Enough rounds for the keys that are left: each round multiplies the number
    of new keys, until it is cut to what is left. *)
Definition enough (scans : nat) (m q : Z) : Prop :=
  (0 < scans)%nat /\ (m < maxScanKeys ->
    (1 < scans)%nat /\ 0 < q /\ m + q <= maxScanKeys /\
    (m + q = maxScanKeys \/ maxScanKeys <= q * scanMultiplier ^ (Z.of_nat scans - 2))).

Lemma enough_next scans m q : 0 <= m -> m < maxScanKeys -> enough (Datatypes.S scans) m q ->
  enough scans (m + q) (next_keys q (m + q)).
Proof.
  intros Hm Hlt [_ He]. destruct (He Hlt) as (Hs & Hq & Hle & Hcase). split; [lia|]. intros Hlt'.
  destruct Hcase as [?|Hcase]; [lia|]. unfold next_keys.
  rewrite !u64_small by (unfold is_u64, scanMultiplier in *; lia).
  assert (Hs1 : (1 < scans)%nat).
  { destruct scans as [|[|scans]]; [lia| |lia]. cbn in Hcase. lia. }
  replace (Z.of_nat (Datatypes.S scans) - 2) with (Z.succ (Z.of_nat scans - 2)) in Hcase by lia.
  rewrite Z.pow_succ_r in Hcase by lia. unfold scanMultiplier in *.
  destruct (maxScanKeys - (m + q) <? q * 4) eqn:Hcut.
  - split_and!; [done|lia|lia|left; lia].
  - apply Z.ltb_ge in Hcut. split_and!; [done|lia|lia|right; lia].
Qed.

Lemma scan_loop_run rounds fuel dust : (length (log K) < fuel)%nat -> (K < rounds)%nat -> forall scans m q st outcome,
  between dust (sb_locks st) m (sb_state st) -> enough scans m q ->
  (m = maxScanKeys -> exists k, sb_locks st = Datatypes.S k /\ found k m (sb_state st) /\
    seen k (sb_state st) /\ m / 2 <= ss_largestIndexSeen (sb_state st)) ->
  scan_loop subscriber views cancelled stopped scans rounds fuel q st = outcome ->
  exists k m' st', sb_locks st' = Datatypes.S k /\ found k m' (sb_state st') /\ 0 < m' <= maxScanKeys /\
    ss_dustThreshold (sb_state st') = dust /\ seen k (sb_state st') /\
    (outcome = Ret () st' /\ ss_largestIndexSeen (sb_state st') < m' / 2 \/
     outcome = Err (WalletError errMaxKeys) st' /\ m' = maxScanKeys /\ m' / 2 <= ss_largestIndexSeen (sb_state st')).
Proof.
  intros Hfuel Hrounds. induction scans as [|scans IH]; intros m q st outcome Hb He Hend Hout; [destruct He; lia|].
  pose proof (bt_range _ _ _ _ Hb) as Hm. destruct st as [locks polls s]. cbn [scan_loop] in Hout.
  unfold mbind, M_bind in Hout. unfold on_state at 1, get in Hout. cbn [sb_locks sb_polls sb_state] in *.
  rewrite (window_numKeys m) in Hout by apply Hb. destruct (Z.ltb_spec m maxScanKeys) as [Hlt|Hge].
  2: { assert (m = maxScanKeys) as -> by lia. destruct (Hend eq_refl) as (k & Hl & Hf & Hseen & Hhalf).
       exists k, maxScanKeys, (mkSubscribing locks polls s). split_and!; try done; [lia|apply Hb|]. right. by split_and!. }
  destruct (proj2 He Hlt) as (Hs & Hq & Hmq & _). pose proof (enough_next scans m q ltac:(lia) Hlt He) as He'.
  destruct (round_run rounds fuel dust m q (mkSubscribing locks polls s) Hfuel Hrounds Hb Hq Hmq)
    as (k & v & st1 & st2 & Hrun1 & Hrun2 & Hl & Hf & Hb2).
  unfold on_state at 1, modify at 1 in Hout. cbn [sb_locks sb_polls sb_state] in *. rewrite Hrun1 in Hout. destruct v as [v subs].
  cbn [fst] in Hrun2. rewrite Hrun2 in Hout. unfold on_state at 1 in Hout. cbn [sb_locks sb_polls sb_state] in Hout.
  destruct st2 as [locks2 polls2 s2]. cbn [sb_locks sb_polls sb_state] in *.
  rewrite (window_numKeys (m + q)) in Hout by apply Hb2.
  destruct (Z.ltb_spec (ss_largestIndexSeen s2) ((m + q) / 2)) as [Hless|Hmore].
  - exists k, (m + q), (mkSubscribing locks2 polls2 s2). split_and!; try done; [lia|apply Hb2|apply Hb2|]. by left.
  - eapply (IH (m + q)); [|done| |exact Hout]; cbn [sb_locks sb_state].
    + destruct Hb2 as [B1 B2 B3 B4 B5 (j & Hj & B6)]. split; try done; [|exists j; split; [lia|done]].
      apply (seen_mono k); [lia|done].
    + intros _. exists k. split_and!; try done. apply Hb2.
Qed.

(** C40. Scanning for a seed: [scan] ends without a panic, however blocks arrive
    and are reverted while it subscribes, and then the scanner holds exactly the
    siacoin outputs above the dust threshold and the siafund outputs of the
    consensus set that pay one of the generated addresses, each with its value
    and the index of its address, although the later rounds start from the
    outputs of the earlier ones.  Every such address has an index of at most
    [largestIndexSeen], which is an index some change names.  If the scan
    succeeds, [largestIndexSeen] is in the lower half of the generated keys;
    otherwise the error is [errMaxKeys], all the keys have been generated, and
    it is not.  Five rounds and a last check are enough on every network. *)
Theorem seedScanner_scan_spec scans rounds fuel dust :
  (length (log K) < fuel)%nat -> (K < rounds)%nat -> (1 < scans)%nat ->
  maxScanKeys <= numInitialKeys * scanMultiplier ^ (Z.of_nat scans - 2) ->
  exists k m st', let s' := sb_state st' in
    sb_locks st' = Datatypes.S k /\ numKeys s' = m /\ ss_dustThreshold s' = dust /\
    found k m s' /\ seen k s' /\
    let outcome := seedScanner_scan subscriber views cancelled stopped scans rounds fuel
      (mkSubscribing 0%nat 0%nat (newSeedScanner dust seed)) in
    (outcome = Ret () st' /\ ss_largestIndexSeen s' < m / 2 \/
     outcome = Err (WalletError errMaxKeys) st' /\ m = maxScanKeys /\ m / 2 <= ss_largestIndexSeen s').
Proof.
  intros Hfuel Hrounds Hscans Hpow.
  destruct (scan_loop_run rounds fuel dust Hfuel Hrounds scans 0 numInitialKeys
    (mkSubscribing 0%nat 0%nat (newSeedScanner dust seed))
    (seedScanner_scan subscriber views cancelled stopped scans rounds fuel (mkSubscribing 0%nat 0%nat (newSeedScanner dust seed))))
    as (k & m & st' & Hl & Hf & Hm & Hd & Hs & Hout).
  - split; try done; [|lia|by left|].
    + intros uh i. cbn. rewrite lookup_empty. split; [done|lia].
    + exists 0%nat. split_and!; [done|..]; intros id o; cbn; by rewrite lookup_empty.
  - split; [lia|]. intros _. split_and!; [done|lia..|by right].
  - lia.
  - reflexivity.
  - exists k, m, st'. split_and!; try done. apply window_numKeys; [apply Hf|lia].
Qed.
End scan.
