(* ===== verification/MapHeap.v ===== *)
(** * The heaps of the miner

    modules/miner/splitsetheap.go: a binary heap of sets of transactions by
    average fee, with a map from the ID of a set to its element.  The slice and
    the map hold pointers to the same elements, and an element knows its index
    in the slice; moving it within the slice changes the element in memory.
    [heapState] is the memory with the elements and one heap.

    The heap is a finite map from IDs to sets ([contents]) from which the set
    with the lowest, or in a max-heap the highest, average fee can be taken. *)

From S2P Require Import Prelude Currency Types Encoding.

Open Scope Z_scope.

Record splitSet := mkSplitSet {
  sp_averageFee : Currency;
  sp_size : Z;
  sp_transactions : list Transaction
}.

Abbreviation splitSetID := Z (only parsing).

Record mapElement := mkMapElement {
  me_set : splitSet;
  me_id : splitSetID;
  me_index : Z
}.

(** The address of an element. *)
Abbreviation elemPtr := nat (only parsing).

Record mapHeap := mkMapHeap {
  mh_selectID : gmap splitSetID elemPtr;
  mh_data : list elemPtr;
  mh_size : Z;
  mh_minHeap : bool
}.

Record heapState := mkHeapState {
  hs_elems : gmap elemPtr mapElement;
  hs_heap : mapHeap
}.

Definition with_index (i : Z) (e : mapElement) : mapElement := mkMapElement (me_set e) (me_id e) i.
Definition with_elems f (s : heapState) : heapState := mkHeapState (f (hs_elems s)) (hs_heap s).
Definition with_data data (s : heapState) : heapState :=
  mkHeapState (hs_elems s)
    (mkMapHeap (mh_selectID (hs_heap s)) data (mh_size (hs_heap s)) (mh_minHeap (hs_heap s))).
Definition with_selectID select (s : heapState) : heapState :=
  mkHeapState (hs_elems s)
    (mkMapHeap select (mh_data (hs_heap s)) (mh_size (hs_heap s)) (mh_minHeap (hs_heap s))).
Definition with_size size (s : heapState) : heapState :=
  mkHeapState (hs_elems s)
    (mkMapHeap (mh_selectID (hs_heap s)) (mh_data (hs_heap s)) size (mh_minHeap (hs_heap s))).

Abbreviation data s := (mh_data (hs_heap s)).
Abbreviation select s := (mh_selectID (hs_heap s)).

(** ** Operations *)

(** [mh.data[i]]. *)
Definition data_at (i : Z) : M heapState elemPtr := fun s =>
  match (if 0 <=? i then data s !! Z.to_nat i else None) with
  | Some p => Ret p s
  | None => Panic "index out of range"
  end.
Definition deref (p : elemPtr) : M heapState mapElement := fun s =>
  match hs_elems s !! p with
  | Some e => Ret e s
  | None => Panic "nil pointer dereference"
  end.
Definition set_index (p : elemPtr) (i : Z) : M heapState () :=
  e ← deref p;
  modify (with_elems <[p := with_index i e]>).

Definition heap_len (s : heapState) : Z := zlen (data s).

Definition less (i j : Z) : M heapState bool :=
  x ← data_at i; x ← deref x;
  y ← data_at j; y ← deref y;
  minHeap ← gets (fun s => mh_minHeap (hs_heap s));
  mret (if minHeap : bool then Currency.Cmp (sp_averageFee (me_set x)) (sp_averageFee (me_set y)) =? -1
        else Currency.Cmp (sp_averageFee (me_set x)) (sp_averageFee (me_set y)) =? 1).

Definition swap (i j : Z) : M heapState () :=
  q ← data_at j;
  p ← data_at i;
  _ ← modify (fun s => with_data (<[Z.to_nat j := p]> (<[Z.to_nat i := q]> (data s))) s);
  _ ← set_index q i;
  p ← data_at j;
  set_index p j.

(** [up]; an element moves up at most [j] times. *)
Fixpoint up_loop (fuel : nat) (j : Z) : M heapState () :=
  match fuel with
  | O => panic "out of fuel"
  | S fuel =>
      let i := Z.quot (j - 1) 2 in
      if i =? j then mret ()
      else
        b ← less j i;
        if negb b then mret ()
        else
          _ ← swap i j;
          up_loop fuel i
  end.
Definition up (j : Z) : M heapState () := up_loop (S (Z.to_nat j)) j.

(** [down], which moves an element down at most [n] times; the index [i] at the
    end of the loop. *)
Fixpoint down_loop (fuel : nat) (n i : Z) : M heapState Z :=
  match fuel with
  | O => panic "out of fuel"
  | S fuel =>
      let j1 := 2 * i + 1 in
      if (n <=? j1) || (j1 <? 0) then mret i
      else
        let j2 := j1 + 1 in
        j ← (if j2 <? n then b ← less j1 j2; mret (if b : bool then j1 else j2) else mret j1);
        b ← less j i;
        if negb b then mret i
        else
          _ ← swap i j;
          down_loop fuel n j
  end.
Definition down (i0 n : Z) : M heapState bool :=
  i ← down_loop (S (Z.to_nat n)) n i0;
  mret (i0 <? i).

Definition push (p : elemPtr) : M heapState () :=
  n ← gets heap_len;
  _ ← set_index p n;
  _ ← modify (fun s => with_data (data s ++ [p]) s);
  elem ← deref p;
  _ ← modify (fun s => with_selectID (<[me_id elem := p]> (select s)) s);
  _ ← modify (fun s => with_size (u64 (mh_size (hs_heap s) + sp_size (me_set elem))) s);
  up n.

(** The end of [pop] and [mapHeap_remove]: the last element leaves the heap. *)
Definition drop_last (n : Z) : M heapState elemPtr :=
  p ← data_at n;
  _ ← modify (fun s => with_data (take (Z.to_nat n) (data s)) s);
  elem ← deref p;
  _ ← modify (fun s => with_selectID (delete (me_id elem) (select s)) s);
  _ ← modify (fun s => with_size (u64 (mh_size (hs_heap s) - sp_size (me_set elem))) s);
  mret p.

Definition pop : M heapState elemPtr :=
  len ← gets heap_len;
  let n := len - 1 in
  _ ← swap 0 n;
  _ ← down 0 n;
  drop_last n.

Definition mapHeap_remove (i : Z) : M heapState elemPtr :=
  len ← gets heap_len;
  let n := len - 1 in
  _ ← (if negb (n =? i) then _ ← swap i n; _ ← down i n; up i else mret ());
  drop_last n.

Definition removeSetByID (id : splitSetID) : M heapState elemPtr :=
  s ← get;
  match select s !! id with
  | Some p => elem ← deref p; mapHeap_remove (me_index elem)
  | None => panic "nil pointer dereference"
  end.

Definition peek (s : heapState) : option elemPtr := head (data s).

Fixpoint init_loop (k : nat) (n : Z) : M heapState () :=
  match k with
  | O => mret ()
  | S i => _ ← down (Z.of_nat i) n; init_loop i n
  end.
Definition init : M heapState () :=
  n ← gets heap_len;
  init_loop (Z.to_nat (n / 2)) n.

(** ** Elements in their places *)

(** What never changes of an element. *)
Definition fixed_part (e : mapElement) : splitSet * splitSetID := (me_set e, me_id e).

(** Every element of the slice is in memory, knows its index and is found by
    its ID; the map has no other elements. *)
Record placed (s : heapState) : Prop := mkPlaced {
  pl_data i p : data s !! i = Some p -> exists e, hs_elems s !! p = Some e /\
    me_index e = Z.of_nat i /\ select s !! me_id e = Some p;
  pl_select id p : select s !! id = Some p -> exists i e, data s !! i = Some p /\
    hs_elems s !! p = Some e /\ me_id e = id
}.

(** [s'] is [s] with the elements of the heap in another order. *)
Record moved (s s' : heapState) : Prop := mkMoved {
  mv_data : data s' ≡ₚ data s;
  mv_select : select s' = select s;
  mv_size : mh_size (hs_heap s') = mh_size (hs_heap s);
  mv_min : mh_minHeap (hs_heap s') = mh_minHeap (hs_heap s);
  mv_fixed : fixed_part <$> hs_elems s' = fixed_part <$> hs_elems s;
  mv_frame p : p ∉ data s -> hs_elems s' !! p = hs_elems s !! p;
  mv_placed : placed s'
}.

Lemma moved_refl s : placed s -> moved s s.
Proof. done. Qed.

Lemma heap_moved_trans s1 s2 s3 : moved s1 s2 -> moved s2 s3 -> moved s1 s3.
Proof.
  intros [A1 A2 A3 A4 A5 A6 A7] [B1 B2 B3 B4 B5 B6 B7]. split; try congruence; [by etrans|].
  intros p Hp. rewrite B6; [by apply A6|]. by rewrite A1.
Qed.

Lemma placed_NoDup s : placed s -> NoDup (data s).
Proof.
  intros [H _]. apply NoDup_alt. intros i j p Hi Hj.
  destruct (H _ _ Hi) as (e & He & Hie & _), (H _ _ Hj) as (e' & He' & Hje & _). simplify_eq. lia.
Qed.

(** The fee at an index, negated in a max-heap. *)
Definition rank (minHeap : bool) (fee : Currency) : Z := if minHeap then Z.of_N fee else - Z.of_N fee.
Definition key (s : heapState) (i : Z) : Z :=
  rank (mh_minHeap (hs_heap s))
    (default 0%N ((fun e => sp_averageFee (me_set e)) <$> (data s !! Z.to_nat i ≫= (hs_elems s !!.)))).

Definition in_range (s : heapState) (i : Z) : Prop := 0 <= i < heap_len s.

Lemma data_at_run s i : in_range s i -> exists p, data s !! Z.to_nat i = Some p /\ data_at i s = Ret p s.
Proof.
  unfold in_range, heap_len, zlen. intros [Hi Hl].
  destruct (lookup_lt_is_Some_2 (data s) (Z.to_nat i)) as [p Hp]; [lia|].
  exists p. split; [done|]. unfold data_at. rewrite Hp. by destruct (Z.leb_spec 0 i); [|lia].
Qed.

Lemma elem_run s i : placed s -> in_range s i -> exists p e, data s !! Z.to_nat i = Some p /\ data_at i s = Ret p s /\
  hs_elems s !! p = Some e /\ deref p s = Ret e s /\ me_index e = i /\
  key s i = rank (mh_minHeap (hs_heap s)) (sp_averageFee (me_set e)).
Proof.
  intros Hp Hi. destruct (data_at_run s i Hi) as (p & Hd & Hrun). destruct (pl_data s Hp _ _ Hd) as (e & He & Hie & _).
  exists p, e. unfold deref, key. rewrite Hd. cbn. rewrite He. cbn. destruct Hi. split_and!; try done. lia.
Qed.

Lemma less_run s i j : placed s -> in_range s i -> in_range s j -> less i j s = Ret (key s i <? key s j) s.
Proof.
  intros Hp Hi Hj. destruct (elem_run s i Hp Hi) as (p & x & _ & H1 & _ & H2 & _ & ->),
    (elem_run s j Hp Hj) as (q & y & _ & H3 & _ & H4 & _ & ->).
  unfold less, mbind, M_bind, gets. rewrite H1, H2, H3, H4. unfold mret, M_ret. f_equal. unfold rank, Currency.Cmp.
  destruct (mh_minHeap _), (N.compare_spec (sp_averageFee (me_set x)) (sp_averageFee (me_set y))), (Z.ltb_spec (Z.of_N (sp_averageFee (me_set x))) (Z.of_N (sp_averageFee (me_set y)))),
   (Z.ltb_spec (- Z.of_N (sp_averageFee (me_set x))) (- Z.of_N (sp_averageFee (me_set y)))); cbn; lia || done.
Qed.

(** The index that the swap of [i] and [j] brings to [k]. *)
Definition transpose (i j k : nat) : nat := if decide (k = j) then i else if decide (k = i) then j else k.

Lemma transpose_twice i j k : transpose i j (transpose i j k) = k.
Proof. unfold transpose. repeat case_decide; congruence. Qed.

Lemma swapped_lookup (l : list elemPtr) i j p q k : (i < length l)%nat -> (j < length l)%nat ->
  l !! i = Some p -> l !! j = Some q ->
  <[j := p]> (<[i := q]> l) !! k = l !! transpose i j k.
Proof.
  intros Hi Hj Hp Hq. unfold transpose. destruct (decide (k = j)) as [->|Hkj].
  - by rewrite list_lookup_insert_eq by (by rewrite length_insert).
  - rewrite list_lookup_insert_ne by done. destruct (decide (k = i)) as [->|Hki].
    + by rewrite list_lookup_insert_eq.
    + by rewrite list_lookup_insert_ne.
Qed.

(** Rewriting the index of an element of the heap keeps what is fixed. *)
Lemma fixed_insert (elems : gmap elemPtr mapElement) p e i : elems !! p = Some e ->
  fixed_part <$> <[p := with_index i e]> elems = fixed_part <$> elems.
Proof.
  intros He. rewrite fmap_insert. apply insert_id. rewrite lookup_fmap, He. by destruct e.
Qed.

Lemma moved_len s s' : moved s s' -> heap_len s' = heap_len s.
Proof. intros H. unfold heap_len, zlen. by rewrite (mv_data _ _ H). Qed.

Lemma moved_fixed s s' p e : moved s s' -> hs_elems s !! p = Some e ->
  exists e', hs_elems s' !! p = Some e' /\ me_set e' = me_set e /\ me_id e' = me_id e.
Proof.
  intros H He. assert (Hf : (fixed_part <$> hs_elems s') !! p = (fixed_part <$> hs_elems s) !! p) by (by rewrite (mv_fixed _ _ H)).
  rewrite !lookup_fmap, He in Hf. destruct (hs_elems s' !! p) as [e'|]; [|done]. cbn in Hf.
  exists e'. split; [done|]. unfold fixed_part in Hf. naive_solver.
Qed.

(** The state after a swap: [x] and [y] are the elements at [i] and [j], [x']
    the one at [i] after [y] was written. *)
Definition swapped (i j : Z) (p q : elemPtr) (x' y : mapElement) (s : heapState) : heapState :=
  mkHeapState (<[p := with_index j x']> (<[q := with_index i y]> (hs_elems s)))
    (mkMapHeap (select s) (<[Z.to_nat j := p]> (<[Z.to_nat i := q]> (data s))) (mh_size (hs_heap s)) (mh_minHeap (hs_heap s))).

Record swaps (i j : Z) (p q : elemPtr) (x x' y : mapElement) (s : heapState) : Prop := mkSwaps {
  sw_i : 0 <= i; sw_j : 0 <= j;
  sw_p : data s !! Z.to_nat i = Some p; sw_q : data s !! Z.to_nat j = Some q;
  sw_x : hs_elems s !! p = Some x; sw_y : hs_elems s !! q = Some y;
  sw_x' : <[q := with_index i y]> (hs_elems s) !! p = Some x'; sw_set : me_set x' = me_set x; sw_id : me_id x' = me_id x
}.

Section swaps.
Context (i j : Z) (p q : elemPtr) (x x' y : mapElement) (s : heapState) (Hsw : swaps i j p q x x' y s).
Abbreviation s' := (swapped i j p q x' y s).

Lemma swapped_data k : data s' !! k = data s !! (transpose (Z.to_nat i) (Z.to_nat j) k).
Proof. apply swapped_lookup; [eapply lookup_lt_Some, Hsw|eapply lookup_lt_Some, Hsw|apply Hsw..]. Qed.

Lemma swapped_fixed : fixed_part <$> hs_elems s' = fixed_part <$> hs_elems s.
Proof.
  destruct Hsw as [_ _ _ _ Ep Eq Ep' Sx Nx]. cbn [swapped hs_elems]. etransitivity; by eapply fixed_insert.
Qed.

Lemma swap_computes : swap i j s = Ret () s'.
Proof.
  destruct Hsw as [Hi Hj Dp Dq Ep Eq Ep' Sx Nx]. pose proof (lookup_lt_Some _ _ _ Dq) as Hlj.
  assert (H1 : data_at i s = Ret p s) by (unfold data_at; destruct (Z.leb_spec 0 i); [|lia]; by rewrite Dp).
  assert (H3 : data_at j s = Ret q s) by (unfold data_at; destruct (Z.leb_spec 0 j); [|lia]; by rewrite Dq).
  unfold swap, mbind, M_bind. rewrite H3, H1. unfold modify at 1, set_index at 1, mbind, M_bind, deref.
  cbn [with_data hs_elems]. rewrite Eq. unfold modify at 1. unfold data_at at 1.
  cbn [with_elems with_data hs_heap mh_data hs_elems].
  destruct (Z.leb_spec 0 j); [|lia]. rewrite list_lookup_insert_eq by (by rewrite length_insert).
  unfold set_index, mbind, M_bind, deref. cbn [with_elems with_data hs_elems]. rewrite Ep'. reflexivity.
Qed.

Lemma swapped_placed : placed s -> placed s'.
Proof.
  intros Hp. pose proof (placed_NoDup s Hp) as Hnd. pose proof swapped_data as Hd. pose proof swapped_fixed as Hf.
  destruct Hsw as [Hi Hj Dp Dq Ep Eq Ep' Sx Nx]. split.
  - intros k r Hk. rewrite Hd in Hk. cbn [swapped hs_elems hs_heap mh_selectID].
    unfold transpose in Hk. destruct (decide (k = Z.to_nat j)) as [->|Hkj].
    { rewrite Dp in Hk. injection Hk as <-. exists (with_index j x'). rewrite lookup_insert_eq.
      cbn [with_index me_index me_id].
      split_and!; [done|lia|]. destruct (pl_data s Hp _ _ Dp) as (? & ? & _ & ?). simplify_eq. by rewrite Nx. }
    destruct (decide (k = Z.to_nat i)) as [->|Hki].
    { rewrite Dq in Hk. injection Hk as <-. assert (p <> q) by (intros ->; apply Hkj; by eapply NoDup_lookup).
      exists (with_index i y). rewrite lookup_insert_ne, lookup_insert_eq by done. cbn [with_index me_index me_id].
      split_and!; [done|lia|]. destruct (pl_data s Hp _ _ Dq) as (? & ? & _ & ?). by simplify_eq. }
    assert (p <> r) by (intros ->; apply Hki; by eapply NoDup_lookup).
    assert (q <> r) by (intros ->; apply Hkj; by eapply NoDup_lookup).
    destruct (pl_data s Hp _ _ Hk) as (e & He & ? & ?). exists e. by rewrite !lookup_insert_ne.
  - intros id r Hr. destruct (pl_select s Hp id r Hr) as (k & e & Hk & He & Hid).
    assert (Hfe : (fixed_part <$> hs_elems s') !! r = Some (fixed_part e)) by (rewrite Hf, lookup_fmap, He; done).
    rewrite lookup_fmap in Hfe. apply fmap_Some in Hfe as (e' & He' & Hfe).
    exists (transpose (Z.to_nat i) (Z.to_nat j) k), e'.
    split_and!; [|done|unfold fixed_part in Hfe; congruence]. by rewrite Hd, transpose_twice.
Qed.

Lemma swapped_moved : placed s -> moved s s'.
Proof.
  intros Hp. pose proof swapped_data as Hd. pose proof (swapped_placed Hp) as Hp'. split; try done.
  - apply NoDup_Permutation; [by apply placed_NoDup..|]. intros r. rewrite !list_elem_of_lookup. split.
    + intros [k Hk]. rewrite Hd in Hk. eauto.
    + intros [k Hk]. exists (transpose (Z.to_nat i) (Z.to_nat j) k). by rewrite Hd, transpose_twice.
  - exact swapped_fixed.
  - destruct Hsw. intros r Hr. cbn [swapped hs_elems].
    rewrite !lookup_insert_ne; [done|intros ->; apply Hr; apply list_elem_of_lookup; eauto..].
Qed.
End swaps.

Lemma swap_run s i j : placed s -> in_range s i -> in_range s j ->
  exists s', swap i j s = Ret () s' /\ moved s s' /\
    (forall k, data s' !! k = data s !! (transpose (Z.to_nat i) (Z.to_nat j) k)).
Proof.
  intros Hp Hi Hj. destruct (elem_run s i Hp Hi) as (p & x & Dp & H1 & Ep & H2 & _ & _),
    (elem_run s j Hp Hj) as (q & y & Dq & H3 & Eq & H4 & _ & _).
  assert (exists x', swaps i j p q x x' y s) as [x' Hsw].
  { destruct (decide (p = q)) as [->|Hpq].
    - exists (with_index i y). destruct Hi, Hj. split; try done; [by rewrite lookup_insert_eq|by simplify_eq..].
    - exists x. destruct Hi, Hj. split; try done. by rewrite lookup_insert_ne. }
  exists (swapped i j p q x' y s). split_and!; [by eapply swap_computes|by eapply swapped_moved|by eapply swapped_data].
Qed.

(** ** The order *)

Lemma swap_ok s i j : placed s -> in_range s i -> in_range s j ->
  exists s', swap i j s = Ret () s' /\ moved s s' /\
    (forall k, 0 <= k -> k <> i -> k <> j -> data s' !! Z.to_nat k = data s !! Z.to_nat k) /\
    forall k, 0 <= k -> key s' k = key s (if k =? j then i else if k =? i then j else k).
Proof.
  intros Hp Hi Hj. destruct (swap_run s i j Hp Hi Hj) as (s' & Hrun & Hm & Hd). exists s'. split_and!; [done|done| |].
  { intros k Hk Hki Hkj. rewrite Hd. unfold transpose. destruct Hi, Hj. repeat case_decide; lia || done. }
  intros k Hk. unfold key. rewrite (mv_min _ _ Hm), Hd.
  replace (transpose (Z.to_nat i) (Z.to_nat j) (Z.to_nat k)) with (Z.to_nat (if k =? j then i else if k =? i then j else k)).
  2: { unfold transpose. destruct Hi, Hj. repeat case_decide; destruct (Z.eqb_spec k j), (Z.eqb_spec k i); lia. }
  destruct (data s !! _) as [p|] eqn:Hl; [|done]. cbn [mbind option_bind].
  destruct (pl_data s Hp _ _ Hl) as (e & He & _). destruct (moved_fixed _ _ _ _ Hm He) as (e' & He' & Hs & _).
  rewrite He, He'. cbn. by rewrite Hs.
Qed.

(** Linear arithmetic with division by constants. *)
Ltac dlia := Z.to_euclidean_division_equations; lia.

Abbreviation parent k := ((k - 1) / 2).

(** The first [n] elements are a heap. *)
Definition ordered (s : heapState) (n : Z) : Prop := forall k, 0 < k < n -> key s (parent k) <= key s k.

(** From the children of the element at [lo] on they are one but for the element
    at [i] and its parent. *)
Definition ordered_up (s : heapState) (n lo i : Z) : Prop :=
  (forall k, 0 < k < n -> lo <= parent k -> k <> i -> key s (parent k) <= key s k) /\
  (forall k, 0 < k < n -> parent k = i -> 0 < i -> lo <= parent i -> key s (parent i) <= key s k).

(** They are one but for the element at [i] and its children, which is on its
    way down from [i0], and for the one at [i0] and its parent. *)
Definition ordered_down (s : heapState) (n lo i0 i : Z) : Prop :=
  (forall k, 0 < k < n -> lo <= parent k -> k <> i0 -> parent k <> i -> key s (parent k) <= key s k) /\
  (forall k, 0 < k < n -> parent k = i -> 0 < i -> lo <= parent i -> key s (parent i) <= key s k) /\
  (i <> i0 -> 0 < i0 -> lo <= parent i0 -> key s (parent i0) <= key s i0).

Lemma up_loop_run fuel : forall s n j, placed s -> n <= heap_len s -> 0 <= j < n -> (Z.to_nat j < fuel)%nat ->
  ordered_up s n 0 j -> exists s', up_loop fuel j s = Ret () s' /\ moved s s' /\ ordered s' n /\
    forall k, n <= k -> data s' !! Z.to_nat k = data s !! Z.to_nat k.
Proof.
  induction fuel as [|fuel IH]; intros s n j Hp Hn Hj Hf [H1 H2]; [lia|]. cbn [up_loop].
  destruct (decide (j = 0)) as [->|Hj0].
  { exists s. split_and!; [done|by apply moved_refl| |done]. intros k Hk. apply H1; dlia. }
  rewrite Z.quot_div_nonneg by lia. destruct (Z.eqb_spec (parent j) j); [dlia|].
  assert (Hri : in_range s (parent j)) by (unfold in_range in *; dlia).
  assert (Hrj : in_range s j) by (unfold in_range in *; dlia).
  unfold mbind, M_bind. rewrite less_run by done.
  destruct (Z.ltb_spec (key s j) (key s (parent j))) as [Hlt|Hge]; cbn [negb].
  2: { exists s. split_and!; [done|by apply moved_refl| |done]. intros k Hk.
       destruct (decide (k = j)) as [->|]; [done|]. apply H1; dlia. }
  destruct (swap_ok s (parent j) j Hp Hri Hrj) as (s1 & -> & Hm & Hd1 & Hk1).
  destruct (IH s1 n (parent j)) as (s' & Hrun & Hm' & Ho & Hk').
  - apply Hm.
  - by rewrite (moved_len _ _ Hm).
  - dlia.
  - dlia.
  - split.
    + intros k Hk Hl Hne. rewrite !Hk1 by dlia. pose proof (H1 k Hk). pose proof (H2 k Hk).
      destruct (Z.eqb_spec k j), (Z.eqb_spec k (parent j)), (Z.eqb_spec (parent k) j), (Z.eqb_spec (parent k) (parent j)); subst; try dlia.
      all: rewrite <- e in *; lia.
    + intros k Hk Hpk Hpos Hl. rewrite !Hk1 by dlia. pose proof (H1 k Hk). pose proof (H1 (parent j)). rewrite Hpk in *.
      destruct (Z.eqb_spec k j), (Z.eqb_spec k (parent j)), (Z.eqb_spec (parent (parent j)) j),
        (Z.eqb_spec (parent (parent j)) (parent j)); subst; try dlia.
  - exists s'. split_and!; [done|by eapply heap_moved_trans|done|]. intros k Hk. by rewrite Hk', Hd1 by dlia.
Qed.

(** The child that goes first. *)
Lemma first_child_run s n i : placed s -> n <= heap_len s -> 0 <= i -> 2 * i + 1 < n ->
  exists j, (if 2 * i + 1 + 1 <? n then b ← less (2 * i + 1) (2 * i + 1 + 1);
      mret (if b : bool then 2 * i + 1 else 2 * i + 1 + 1) else mret (2 * i + 1)) s = Ret j s /\
    parent j = i /\ 0 < j < n /\ forall k, 0 < k < n -> parent k = i -> key s j <= key s k.
Proof.
  intros Hp Hn Hi Hc. destruct (Z.ltb_spec (2 * i + 1 + 1) n).
  - unfold mbind, M_bind. rewrite less_run by (done || unfold in_range; lia). unfold mret, M_ret.
    destruct (Z.ltb_spec (key s (2 * i + 1)) (key s (2 * i + 1 + 1))); eexists; (split_and!; [done|dlia|dlia|dlia|]);
      intros k Hk Hpk; assert (k = 2 * i + 1 \/ k = 2 * i + 1 + 1) as [->| ->] by dlia; lia.
  - exists (2 * i + 1). split_and!; [done|dlia|dlia|dlia|]. intros k Hk Hpk. assert (k = 2 * i + 1) as -> by dlia. lia.
Qed.

Lemma down_loop_run fuel : forall s n lo i0 i, placed s -> n <= heap_len s -> 0 <= i0 <= i -> lo <= i0 ->
  (Z.to_nat (n - i) < fuel)%nat ->
  ordered_down s n lo i0 i -> exists i' s', down_loop fuel n i s = Ret i' s' /\ moved s s' /\ ordered_up s' n lo i0 /\
    forall k, n <= k -> data s' !! Z.to_nat k = data s !! Z.to_nat k.
Proof.
  induction fuel as [|fuel IH]; intros s n lo i0 i Hp Hn Hi Hlo Hf (H1 & H2 & H3); [lia|]. cbn [down_loop].
  (* the loop ends here *)
  assert (Hend : (forall k, 0 < k < n -> parent k = i -> key s i <= key s k) ->
    exists i' s', Ret i s = Ret i' s' /\ moved s s' /\ ordered_up s' n lo i0 /\
      forall k, n <= k -> data s' !! Z.to_nat k = data s !! Z.to_nat k).
  { intros Hc. assert (Ho : forall k, 0 < k < n -> lo <= parent k -> k <> i0 -> key s (parent k) <= key s k).
    { intros k Hk Hl Hne. destruct (decide (parent k = i)) as [<-|]; [by apply Hc|by apply H1]. }
    exists i, s. split_and!; [done|by apply moved_refl| |done]. split; [done|]. intros k Hk Hpk Hpos Hl.
    destruct (decide (i = i0)) as [->|Hne]; [by apply H2|]. pose proof (Ho k Hk). rewrite Hpk in *.
    specialize (H3 Hne Hpos Hl). dlia. }
  destruct (Z.leb_spec n (2 * i + 1)); cbn [orb]; [apply Hend; intros; dlia|].
  destruct (Z.ltb_spec (2 * i + 1) 0); [lia|].
  destruct (first_child_run s n i Hp Hn) as (j & Hj & Hpj & Hjn & Hmin); [lia..|].
  unfold mbind at 1, M_bind at 1. rewrite Hj.
  assert (Hri : in_range s i) by (unfold in_range; dlia). assert (Hrj : in_range s j) by (unfold in_range; dlia).
  unfold mbind, M_bind. rewrite less_run by done. destruct (Z.ltb_spec (key s j) (key s i)) as [Hlt|Hge]; cbn [negb].
  2: { apply Hend. intros k Hk Hpk. specialize (Hmin k Hk Hpk). lia. }
  destruct (swap_ok s i j Hp Hri Hrj) as (s1 & -> & Hm & Hd1 & Hk1).
  assert (Kj : key s1 j = key s i) by (rewrite Hk1, Z.eqb_refl by lia; done).
  assert (Ki : key s1 i = key s j) by (rewrite Hk1, Z.eqb_refl by lia; destruct (Z.eqb_spec i j); [dlia|done]).
  assert (Kother : forall k, 0 <= k -> k <> i -> k <> j -> key s1 k = key s k)
    by (intros k ? ? ?; rewrite Hk1 by done; destruct (Z.eqb_spec k j), (Z.eqb_spec k i); done).
  destruct (IH s1 n lo i0 j) as (i' & s' & Hrun & Hm' & Ho & Hk').
  - apply Hm.
  - by rewrite (moved_len _ _ Hm).
  - dlia.
  - done.
  - dlia.
  - split_and!.
    + intros k Hk Hl Hk0 Hpk. pose proof (H1 k Hk Hl Hk0). pose proof (Hmin k Hk). pose proof (H2 j Hjn Hpj).
      destruct (decide (k = i)) as [->|Hki]; [|destruct (decide (parent k = i)) as [Hpi|Hpi]].
      * rewrite Kother, Ki by dlia. dlia.
      * rewrite Hpi, Ki. destruct (decide (k = j)) as [->|Hkj]; [rewrite Kj; lia|]. rewrite Kother by dlia. lia.
      * rewrite !Kother by dlia. dlia.
    + intros k Hk Hpk Hpos Hl. pose proof (H1 k Hk). rewrite Hpj, Ki, Kother by dlia. rewrite Hpk in *. dlia.
    + intros _ Hpos Hl. rewrite (Kother (parent i0)) by dlia. destruct (decide (i = i0)) as [->|Hne].
      * rewrite Ki. by apply H2.
      * rewrite Kother by dlia. by apply H3.
  - exists i', s'. split_and!; [done|by eapply heap_moved_trans|done|]. intros k Hk. by rewrite Hk', Hd1 by dlia.
Qed.

Lemma up_run s n j : placed s -> n <= heap_len s -> 0 <= j < n -> ordered_up s n 0 j ->
  exists s', up j s = Ret () s' /\ moved s s' /\ ordered s' n /\
    forall k, n <= k -> data s' !! Z.to_nat k = data s !! Z.to_nat k.
Proof. intros. apply up_loop_run; [done..|lia|done]. Qed.

Lemma down_run s n lo i0 : placed s -> n <= heap_len s -> 0 <= i0 -> lo <= i0 -> ordered_down s n lo i0 i0 ->
  exists b s', down i0 n s = Ret b s' /\ moved s s' /\ ordered_up s' n lo i0 /\
    forall k, n <= k -> data s' !! Z.to_nat k = data s !! Z.to_nat k.
Proof.
  intros Hp Hn Hi Hlo Ho. destruct (down_loop_run (S (Z.to_nat n)) s n lo i0 i0 Hp Hn) as (i' & s' & Hrun & H);
    [lia..|done|].
  exists (i0 <? i'), s'. unfold down, mbind, M_bind. by rewrite Hrun.
Qed.

(** ** The heap as a finite map *)

Definition contents (s : heapState) : gmap splitSetID splitSet :=
  omap (fun p => me_set <$> hs_elems s !! p) (select s).

(** The total size, as the heap counts it. *)
Definition set_sizes (m : gmap splitSetID splitSet) : Z := map_fold (fun _ v acc => sp_size v + acc) 0 m.

Record heap_ok (s : heapState) : Prop := mkHeapOk {
  ho_placed : placed s;
  ho_ordered : ordered s (heap_len s);
  ho_size : mh_size (hs_heap s) = u64 (set_sizes (contents s))
}.

Lemma moved_contents s s' : placed s -> moved s s' -> contents s' = contents s.
Proof.
  intros Hp Hm. unfold contents. rewrite (mv_select _ _ Hm). apply map_eq. intros id. rewrite !lookup_omap.
  destruct (select s !! id) as [p|] eqn:Hid; [|done]. cbn.
  destruct (pl_select s Hp id p Hid) as (i & e & _ & He & _).
  destruct (moved_fixed _ _ _ _ Hm He) as (e' & He' & Hs & _).
  rewrite He, He'. cbn. by rewrite Hs.
Qed.

Lemma heap_contents_lookup s id set : placed s -> contents s !! id = Some set <->
  exists i p e, data s !! i = Some p /\ hs_elems s !! p = Some e /\ me_id e = id /\ me_set e = set.
Proof.
  intros Hp. unfold contents. rewrite lookup_omap. split.
  - destruct (select s !! id) as [p|] eqn:Hid; [|done]. cbn. intros (e & He & ->)%fmap_Some.
    destruct (pl_select s Hp id p Hid) as (i & e' & Hi & He' & Hid'). simplify_eq. eauto 10.
  - intros (i & p & e & Hi & He & <- & <-). destruct (pl_data s Hp i p Hi) as (e' & He' & _ & Hsel). simplify_eq.
    rewrite Hsel. cbn. by rewrite He.
Qed.

Lemma heap_contents_key s id set : placed s -> contents s !! id = Some set ->
  exists i, in_range s i /\ key s i = rank (mh_minHeap (hs_heap s)) (sp_averageFee set).
Proof.
  intros Hp Hid. apply heap_contents_lookup in Hid as (i & p & e & Hi & He & _ & <-); [|done].
  pose proof (lookup_lt_Some _ _ _ Hi). exists (Z.of_nat i). unfold in_range, heap_len, zlen, key.
  rewrite Nat2Z.id, Hi. cbn. rewrite He.
  split; [lia|done].
Qed.

(** The root comes first. *)
Lemma ordered_root s n i : ordered s n -> 0 <= i < n -> key s 0 <= key s i.
Proof.
  intros Ho. induction i as [i IH] using (well_founded_induction (Z.lt_wf 0)). intros Hi.
  destruct (decide (i = 0)) as [->|]; [lia|]. transitivity (key s (parent i)); [apply IH; dlia|apply Ho; lia].
Qed.

Lemma set_sizes_insert m id set : m !! id = None -> set_sizes (<[id := set]> m) = sp_size set + set_sizes m.
Proof. intros H. unfold set_sizes. rewrite map_fold_insert_L; [done| |done]. intros. lia. Qed.
Lemma set_sizes_delete m id set : m !! id = Some set -> set_sizes m = sp_size set + set_sizes (delete id m).
Proof. intros H. rewrite <- (insert_delete_id m id set H) at 1. by apply set_sizes_insert, lookup_delete_eq. Qed.

(** ** Operations on the map *)

(** [s'] is [s] with the element [p] pushed. *)
Record pushed (s : heapState) (p : elemPtr) (e : mapElement) (s' : heapState) : Prop := mkPushed {
  pu_ok : heap_ok s';
  pu_contents : contents s' = <[me_id e := me_set e]> (contents s);
  pu_data : data s' ≡ₚ p :: data s;
  pu_min : mh_minHeap (hs_heap s') = mh_minHeap (hs_heap s);
  pu_fixed : fixed_part <$> hs_elems s' = fixed_part <$> hs_elems s;
  pu_frame q : q ∉ p :: data s -> hs_elems s' !! q = hs_elems s !! q
}.

(** [s'] is [s] without the element [p], which has the ID and the set of [e]. *)
Record taken (s : heapState) (p : elemPtr) (e : mapElement) (s' : heapState) : Prop := mkTaken {
  ta_ok : heap_ok s';
  ta_elem : hs_elems s' !! p = Some e;
  ta_in : contents s !! me_id e = Some (me_set e);
  ta_contents : contents s' = delete (me_id e) (contents s);
  ta_data : data s ≡ₚ p :: data s';
  ta_min : mh_minHeap (hs_heap s') = mh_minHeap (hs_heap s);
  ta_fixed : fixed_part <$> hs_elems s' = fixed_part <$> hs_elems s;
  ta_frame q : q ∉ data s -> hs_elems s' !! q = hs_elems s !! q
}.

(** The state of [push] before the element moves up. *)
Lemma push_placed s p e : placed s -> hs_elems s !! p = Some e -> contents s !! me_id e = None ->
  let s1 := mkHeapState (<[p := with_index (heap_len s) e]> (hs_elems s))
    (mkMapHeap (<[me_id e := p]> (select s)) (data s ++ [p]) (u64 (mh_size (hs_heap s) + sp_size (me_set e)))
      (mh_minHeap (hs_heap s))) in
  (p ∉ data s) /\ placed s1 /\ contents s1 = <[me_id e := me_set e]> (contents s) /\
  forall k, 0 <= k < heap_len s -> key s1 k = key s k.
Proof.
  intros Hp He Hnew s1.
  assert (Hnp : p ∉ data s).
  { intros (i & Hi)%list_elem_of_lookup. assert (contents s !! me_id e = Some (me_set e)); [|congruence].
    apply heap_contents_lookup; eauto 10. }
  assert (Hsel : select s !! me_id e = None).
  { destruct (select s !! me_id e) as [q|] eqn:Hq; [|done].
    destruct (pl_select s Hp _ _ Hq) as (i & e' & Hi & He' & Hid).
    assert (contents s !! me_id e = Some (me_set e')); [|congruence]. apply heap_contents_lookup; eauto 10. }
  assert (Hother : forall q i, data s !! i = Some q -> hs_elems s1 !! q = hs_elems s !! q).
  { intros q i Hi. cbn [s1 hs_elems]. rewrite lookup_insert_ne; [done|]. intros ->. apply Hnp.
    by eapply list_elem_of_lookup_2. }
  assert (Hp1 : placed s1).
  { split.
    - intros i q Hi. change (data s1) with (data s ++ [p]) in Hi. apply lookup_app_Some in Hi as [Hi|[Hl Hi]].
      + destruct (pl_data s Hp i q Hi) as (e' & He' & Hie & Hs). exists e'. rewrite (Hother q i Hi).
        split_and!; [done..|].
        change (<[me_id e := p]> (select s) !! me_id e' = Some q). rewrite lookup_insert_ne; [done|congruence].
      + apply list_lookup_singleton_Some in Hi as [Hi <-]. exists (with_index (heap_len s) e).
        change (select s1) with (<[me_id e := p]> (select s)). cbn [s1 hs_elems with_index me_id me_index].
        rewrite !lookup_insert_eq. split_and!; [done| |done]. unfold heap_len, zlen. lia.
    - intros id q Hq. change (<[me_id e := p]> (select s) !! id = Some q) in Hq. change (data s1) with (data s ++ [p]).
      apply lookup_insert_Some in Hq as [[<- <-]|[Hne Hq]].
      + exists (length (data s)), (with_index (heap_len s) e). cbn [s1 hs_elems]. rewrite lookup_insert_eq.
        split_and!; [|done..]. by rewrite lookup_app_r, Nat.sub_diag.
      + destruct (pl_select s Hp _ _ Hq) as (i & e' & Hi & He' & Hid). exists i, e'. rewrite (Hother q i Hi).
        split_and!; [|done..]. by apply lookup_app_l_Some. }
  split_and!; [done|done| |].
  - unfold contents. change (select s1) with (<[me_id e := p]> (select s)). rewrite omap_insert. cbn [s1 hs_elems].
    rewrite lookup_insert_eq. cbn [fmap option_fmap option_map with_index me_set]. f_equal.
    apply map_eq. intros id. rewrite !lookup_omap. destruct (select s !! id) as [q|] eqn:Hq; [|done]. cbn.
    destruct (pl_select s Hp _ _ Hq) as (i & e' & Hi & He' & Hid). by rewrite <- (Hother q i Hi).
  - intros k [Hk1 Hk2]. unfold heap_len, zlen in Hk2. unfold key. change (data s1) with (data s ++ [p]).
    destruct (lookup_lt_is_Some_2 (data s) (Z.to_nat k)) as [q Hq]; [lia|].
    rewrite lookup_app_l, Hq by lia. cbn [mbind option_bind]. by rewrite (Hother q _ Hq).
Qed.

Lemma push_run s p e : heap_ok s -> hs_elems s !! p = Some e -> contents s !! me_id e = None ->
  exists s', push p s = Ret () s' /\ pushed s p e s'.
Proof.
  intros [Hp Ho Hs] He Hnew. destruct (push_placed s p e Hp He Hnew) as (Hnp & Hp1 & Hc1 & Hk1).
  set (s1 := mkHeapState _ _) in *. assert (Hl1 : heap_len s1 = heap_len s + 1).
  { unfold heap_len, zlen. change (data s1) with (data s ++ [p]). rewrite length_app. cbn. lia. }
  assert (Hpos : 0 <= heap_len s) by (unfold heap_len, zlen; lia).
  destruct (up_run s1 (heap_len s1) (heap_len s) Hp1 ltac:(lia) ltac:(lia)) as (s' & Hup & Hm & Hord & _).
  { split; [|intros; dlia]. intros k Hk _ Hne. rewrite !Hk1 by dlia. apply Ho. lia. }
  exists s'. split.
  - unfold push, mbind, M_bind, gets, set_index. unfold mbind, M_bind, deref. rewrite He. unfold modify.
    cbn [with_elems with_data hs_elems]. rewrite lookup_insert_eq. cbn [with_index me_id me_set]. exact Hup.
  - rewrite <- (moved_len _ _ Hm) in Hord. pose proof (moved_contents _ _ Hp1 Hm) as Hc. split.
    + split; [apply Hm|done|]. rewrite (mv_size _ _ Hm), Hc, Hc1, set_sizes_insert by done. cbn [s1 hs_heap mh_size].
      rewrite Hs. unfold u64. rewrite Zplus_mod_idemp_l. f_equal. lia.
    + by rewrite Hc.
    + rewrite (mv_data _ _ Hm). change (data s1) with (data s ++ [p]). by rewrite Permutation_app_comm.
    + by rewrite (mv_min _ _ Hm).
    + rewrite (mv_fixed _ _ Hm). by apply fixed_insert.
    + intros q Hq. rewrite not_elem_of_cons in Hq. destruct Hq as [Hq1 Hq2]. rewrite (mv_frame _ _ Hm).
      * cbn [s1 hs_elems]. by rewrite lookup_insert_ne.
      * change (data s1) with (data s ++ [p]). rewrite elem_of_app, list_elem_of_singleton. naive_solver.
Qed.

Lemma drop_last_run s : placed s -> 0 < heap_len s -> ordered s (heap_len s - 1) ->
  mh_size (hs_heap s) = u64 (set_sizes (contents s)) ->
  exists p e s', drop_last (heap_len s - 1) s = Ret p s' /\
    data s !! Z.to_nat (heap_len s - 1) = Some p /\ taken s p e s'.
Proof.
  intros Hp Hlen Ho Hs. set (n := heap_len s - 1). assert (Hn : in_range s n) by (unfold in_range; lia).
  destruct (elem_run s n Hp Hn) as (p & e & Dp & H1 & Ep & H2 & _ & _).
  set (s' := mkHeapState (hs_elems s) (mkMapHeap (delete (me_id e) (select s)) (take (Z.to_nat n) (data s))
    (u64 (mh_size (hs_heap s) - sp_size (me_set e))) (mh_minHeap (hs_heap s)))).
  assert (Hd : data s = data s' ++ [p]).
  { rewrite <- (take_drop (Z.to_nat n) (data s)) at 1. f_equal. rewrite (drop_S _ _ _ Dp). f_equal.
    apply drop_ge. unfold n, heap_len, zlen in *. lia. }
  assert (Hin : contents s !! me_id e = Some (me_set e)) by (apply heap_contents_lookup; eauto 10).
  assert (Hl' : heap_len s' = n).
  { assert (heap_len s = heap_len s' + 1); [|lia]. unfold heap_len, zlen. rewrite Hd, length_app. cbn [length]. lia. }
  assert (Hp' : placed s').
  { pose proof (placed_NoDup s Hp) as Hnd. rewrite Hd in Hnd. apply NoDup_app in Hnd as (_ & Hnp & _). split.
    - intros i q Hi. assert (Hi' : data s !! i = Some q) by (rewrite Hd; by apply lookup_app_l_Some).
      destruct (pl_data s Hp i q Hi') as (e' & He' & Hie & Hq). exists e'. split_and!; [done..|].
      change (delete (me_id e) (select s) !! me_id e' = Some q). rewrite lookup_delete_ne; [done|].
      intros Hid. destruct (pl_data s Hp _ _ Dp) as (? & ? & _ & Hpe). simplify_eq. assert (p = q) as -> by congruence.
      apply (Hnp q); [by eapply list_elem_of_lookup_2|by left].
    - intros id q Hq. change (delete (me_id e) (select s) !! id = Some q) in Hq.
      apply lookup_delete_Some in Hq as [Hne Hq].
      destruct (pl_select s Hp _ _ Hq) as (i & e' & Hi & He' & Hid). exists i, e'. split_and!; [|done..].
      rewrite Hd in Hi. apply lookup_app_Some in Hi as [Hi|[_ Hi]]; [done|].
      apply list_lookup_singleton_Some in Hi as [_ <-]. simplify_eq. }
  assert (Hc : contents s' = delete (me_id e) (contents s)) by (unfold contents; apply omap_delete).
  exists p, e, s'. split_and!; [|done|].
  - unfold drop_last, mbind, M_bind. rewrite H1. unfold modify, deref. cbn [with_data hs_elems]. by rewrite Ep.
  - split; try done; [|rewrite Hd at 1; by rewrite Permutation_app_comm]. split; [done| |].
    + rewrite Hl'. intros k Hk. assert (Hkey : forall i, 0 <= i < n -> key s' i = key s i).
      { intros i Hi. unfold key. rewrite Hd, lookup_app_l; [done|]. unfold heap_len, zlen in Hl'. lia. }
      rewrite !Hkey by dlia. by apply Ho.
    + rewrite Hc. cbn [s' hs_heap mh_size]. rewrite Hs, (set_sizes_delete _ _ _ Hin). unfold u64.
      rewrite Zminus_mod_idemp_l. f_equal. lia.
Qed.

Lemma moved_taken s s1 p e s' : placed s -> moved s s1 -> taken s1 p e s' -> taken s p e s'.
Proof.
  intros Hp Hm [H1 H2 H3 H4 H5 H6 H7 H8]. rewrite (moved_contents _ _ Hp Hm) in H3, H4. split; try done.
  - by rewrite <- (mv_data _ _ Hm).
  - by rewrite H6, (mv_min _ _ Hm).
  - by rewrite H7, (mv_fixed _ _ Hm).
  - intros q Hq. rewrite H8; [by apply Hm|by rewrite (mv_data _ _ Hm)].
Qed.

Lemma empty_len s : placed s -> contents s = ∅ <-> heap_len s = 0.
Proof.
  intros Hp. split.
  - intros Hc. unfold heap_len, zlen. destruct (data s) as [|p l] eqn:Hd; [done|]. exfalso.
    destruct (pl_data s Hp 0 p) as (e & He & _ & _); [by rewrite Hd|].
    assert (contents s !! me_id e = Some (me_set e)) as Hl by (apply heap_contents_lookup; [done|]; exists 0%nat;
      rewrite Hd; eauto 10).
    by rewrite Hc, lookup_empty in Hl.
  - intros Hl. apply map_eq. intros id. rewrite lookup_empty. destruct (contents s !! id) as [set|] eqn:Hid; [|done].
    destruct (heap_contents_key s id set Hp Hid) as (i & [Hi1 Hi2] & _). lia.
Qed.

(** [pop] takes a set whose fee is the lowest, or in a max-heap the highest. *)
Lemma pop_run s : heap_ok s -> contents s <> ∅ ->
  exists p e s', pop s = Ret p s' /\ taken s p e s' /\ peek s = Some p /\
    forall id set, contents s !! id = Some set ->
      rank (mh_minHeap (hs_heap s)) (sp_averageFee (me_set e)) <= rank (mh_minHeap (hs_heap s)) (sp_averageFee set).
Proof.
  intros [Hp Ho Hs] Hne. assert (Hlen : 0 < heap_len s).
  { assert (heap_len s <> 0) by (by rewrite <- empty_len). assert (0 <= heap_len s) by (unfold heap_len, zlen; lia).
    lia. }
  set (n := heap_len s - 1). assert (Hr0 : in_range s 0) by (unfold in_range; lia).
  assert (Hrn : in_range s n) by (unfold in_range; lia).
  destruct (elem_run s 0 Hp Hr0) as (p & e & Dp & _ & Ep & _ & _ & Hkey).
  destruct (swap_run s 0 n Hp Hr0 Hrn) as (s1 & Hsw & Hm1 & Hd1).
  destruct (swap_ok s 0 n Hp Hr0 Hrn) as (s1' & Hsw' & _ & _ & Hk1).
  assert (s1' = s1) as -> by congruence.
  assert (Kother : forall k, 0 < k < n -> key s1 k = key s k)
    by (intros k ?; rewrite Hk1 by lia; destruct (Z.eqb_spec k n), (Z.eqb_spec k 0); lia || done).
  destruct (down_run s1 n 0 0 (mv_placed _ _ Hm1)) as (b & s2 & Hdn & Hm2 & [Ho2 _] & Hd2);
    [rewrite (moved_len _ _ Hm1); lia|lia..| |].
  { split_and!; [|intros; dlia|intros; dlia]. intros k Hk _ _ Hpk. rewrite !Kother by dlia. apply Ho. lia. }
  pose proof (heap_moved_trans _ _ _ Hm1 Hm2) as Hm. pose proof (moved_len _ _ Hm) as Hl2.
  destruct (drop_last_run s2) as (q & e' & s' & Hdr & Hq & Ht).
  - apply Hm.
  - lia.
  - rewrite Hl2. intros k Hk. apply Ho2; dlia.
  - by rewrite (mv_size _ _ Hm), (moved_contents _ _ Hp Hm).
  - rewrite Hl2 in Hdr, Hq. fold n in Hdr, Hq. rewrite Hd2, Hd1 in Hq by lia. unfold transpose in Hq.
    rewrite decide_True in Hq by done. assert (q = p) as -> by (cbn in Hq, Dp; congruence).
    exists p, e', s'. pose proof (moved_taken _ _ _ _ _ Hp Hm Ht) as Ht'. split_and!; [|done| |].
    + unfold pop, mbind, M_bind, gets. fold n. by rewrite Hsw, Hdn.
    + unfold peek. by destruct (data s).
    + intros id set Hid. destruct (heap_contents_key s id set Hp Hid) as (i & Hi & <-).
      destruct (moved_fixed _ _ _ _ Hm Ep) as (e2 & He2 & Hse & _).
      assert (Hf : fixed_part <$> hs_elems s' !! p = fixed_part <$> hs_elems s !! p) by (by rewrite <- !lookup_fmap, (ta_fixed _ _ _ _ Ht')).
      rewrite (ta_elem _ _ _ _ Ht'), Ep in Hf. injection Hf as -> _. rewrite <- Hkey.
      by eapply ordered_root.
Qed.

Lemma remove_run s i : heap_ok s -> in_range s i ->
  exists p e s', mapHeap_remove i s = Ret p s' /\ data s !! Z.to_nat i = Some p /\ taken s p e s'.
Proof.
  intros [Hp Ho Hs] Hi. set (n := heap_len s - 1). unfold mapHeap_remove, mbind, M_bind, gets. fold n.
  destruct (Z.eqb_spec n i) as [Hn|Hn]; cbn [negb].
  { destruct (drop_last_run s) as (q & e' & s' & Hdr & Hq & Ht); [done|unfold in_range in Hi; lia| |done|].
    - intros k Hk. apply Ho. lia.
    - rewrite <- Hn. fold n in Hdr, Hq. unfold mret, M_ret. rewrite Hdr. by exists q, e', s'. }
  assert (Hrn : in_range s n) by (unfold in_range in *; lia). assert (Hin : 0 <= i < n) by (unfold in_range in *; lia).
  destruct (swap_run s i n Hp Hi Hrn) as (s1 & Hsw & Hm1 & Hd1).
  destruct (swap_ok s i n Hp Hi Hrn) as (s1' & Hsw' & _ & _ & Hk1).
  assert (s1' = s1) as -> by congruence.
  assert (Kother : forall k, 0 <= k < n -> k <> i -> key s1 k = key s k)
    by (intros k ? ?; rewrite Hk1 by lia; destruct (Z.eqb_spec k n), (Z.eqb_spec k i); lia || done).
  destruct (down_run s1 n 0 i (mv_placed _ _ Hm1)) as (b & s2 & Hdn & Hm2 & Ho2 & Hd2);
    [rewrite (moved_len _ _ Hm1); lia|lia..| |].
  { split_and!; [| |done].
    - intros k Hk _ Hki Hpk. rewrite !Kother by dlia. apply Ho. lia.
    - intros k Hk Hpk Hpos _. rewrite !Kother by dlia. pose proof (Ho k) as H1. pose proof (Ho i) as H2.
      rewrite Hpk in H1. lia. }
  destruct (up_run s2 n i (mv_placed _ _ Hm2)) as (s3 & Hup & Hm3 & Ho3 & Hd3);
    [rewrite (moved_len _ _ Hm2), (moved_len _ _ Hm1); lia|lia|done|].
  pose proof (heap_moved_trans _ _ _ (heap_moved_trans _ _ _ Hm1 Hm2) Hm3) as Hm. pose proof (moved_len _ _ Hm) as Hl.
  destruct (drop_last_run s3) as (q & e' & s' & Hdr & Hq & Ht); [apply Hm|lia|by rewrite Hl| |].
  { by rewrite (mv_size _ _ Hm), (moved_contents _ _ Hp Hm). }
  rewrite Hl in Hdr, Hq. fold n in Hdr, Hq. rewrite Hd3, Hd2, Hd1 in Hq by lia. unfold transpose in Hq.
  rewrite decide_True in Hq by done. exists q, e', s'. rewrite Hsw, Hdn, Hup. split_and!; [done..|].
  by eapply moved_taken.
Qed.

Lemma removeSetByID_run s id set : heap_ok s -> contents s !! id = Some set ->
  exists p e s', removeSetByID id s = Ret p s' /\ taken s p e s' /\ me_id e = id /\ me_set e = set.
Proof.
  intros Hok Hid. pose proof (ho_placed _ Hok) as Hp.
  apply heap_contents_lookup in Hid as (i & p & e & Hi & He & <- & <-); [|done].
  destruct (pl_data s Hp i p Hi) as (e0 & He0 & Hie & Hsel). simplify_eq.
  pose proof (lookup_lt_Some _ _ _ Hi) as Hlt.
  destruct (remove_run s (Z.of_nat i) Hok) as (q & e' & s' & Hrun & Hq & Ht); [unfold in_range, heap_len, zlen; lia|].
  rewrite Nat2Z.id, Hi in Hq. injection Hq as <-. exists p, e', s'. unfold removeSetByID, mbind, M_bind, get, deref.
  rewrite Hsel, He, Hie.
  assert (Hf : fixed_part <$> hs_elems s' !! p = fixed_part <$> hs_elems s !! p) by (by rewrite <- !lookup_fmap, (ta_fixed _ _ _ _ Ht)).
  rewrite (ta_elem _ _ _ _ Ht), He in Hf. by injection Hf as -> ->.
Qed.

Lemma init_loop_run k : forall s, placed s -> 2 * Z.of_nat k <= heap_len s ->
  (forall x, 0 < x < heap_len s -> Z.of_nat k <= parent x -> key s (parent x) <= key s x) ->
  exists s', init_loop k (heap_len s) s = Ret () s' /\ moved s s' /\ ordered s' (heap_len s).
Proof.
  induction k as [|k IH]; intros s Hp Hk Ho; cbn [init_loop].
  { exists s. split_and!; [done|by apply moved_refl|]. intros x Hx. apply Ho; dlia. }
  unfold mbind, M_bind. destruct (down_run s (heap_len s) (Z.of_nat k) (Z.of_nat k) Hp) as (b & s1 & ->
    & Hm1 & [Ho1 _] & _); [lia..| |].
  { split_and!; [|intros; dlia|done]. intros x Hx Hl Hne Hpx. apply Ho; lia. }
  pose proof (moved_len _ _ Hm1) as Hl1. rewrite <- Hl1 in *.
  destruct (IH s1) as (s' & Hrun & Hm & Ho'); [apply Hm1|lia| |].
  - intros x Hx Hl. apply Ho1; [lia|done|]. dlia.
  - exists s'. split_and!; [done|by eapply heap_moved_trans|done].
Qed.

Lemma init_run s : placed s -> exists s', init s = Ret () s' /\ moved s s' /\ ordered s' (heap_len s').
Proof.
  intros Hp. assert (0 <= heap_len s) by (unfold heap_len, zlen; lia).
  destruct (init_loop_run (Z.to_nat (heap_len s / 2)) s Hp) as (s' & Hrun & Hm & Ho); [dlia|intros; dlia|].
  exists s'. rewrite (moved_len _ _ Hm). split_and!; [|done..]. unfold init, mbind, M_bind, gets. exact Hrun.
Qed.

Lemma peek_run s : heap_ok s ->
  match peek s with
  | None => contents s = ∅
  | Some p => exists e, hs_elems s !! p = Some e /\ contents s !! me_id e = Some (me_set e) /\
      forall id set, contents s !! id = Some set ->
        rank (mh_minHeap (hs_heap s)) (sp_averageFee (me_set e)) <= rank (mh_minHeap (hs_heap s)) (sp_averageFee set)
  end.
Proof.
  intros [Hp Ho _]. unfold peek. destruct (data s) as [|p l] eqn:Hd; cbn [head].
  { apply empty_len; [done|]. unfold heap_len, zlen. by rewrite Hd. }
  assert (Hr : in_range s 0) by (unfold in_range, heap_len, zlen; rewrite Hd; cbn [length]; lia).
  destruct (elem_run s 0 Hp Hr) as (q & e & Dq & _ & Eq & _ & _ & Hk). rewrite Hd in Dq. injection Dq as <-.
  exists e. split_and!; [done| |].
  - apply heap_contents_lookup; [done|]. exists 0%nat. rewrite Hd. eauto 10.
  - intros id set Hid. destruct (heap_contents_key s id set Hp Hid) as (i & Hi & <-). rewrite <- Hk.
    by eapply ordered_root.
Qed.

Lemma pop_empty s : heap_ok s -> contents s = ∅ -> pop s = Panic "index out of range".
Proof.
  intros Hok Hc. apply empty_len in Hc; [|apply Hok]. unfold pop, mbind, M_bind, gets. rewrite Hc. reflexivity.
Qed.

Lemma removeSetByID_absent s id : heap_ok s -> contents s !! id = None ->
  removeSetByID id s = Panic "nil pointer dereference".
Proof.
  intros Hok Hid. unfold removeSetByID, mbind, M_bind, get. destruct (select s !! id) as [p|] eqn:Hp; [|done].
  destruct (pl_select s (ho_placed _ Hok) _ _ Hp) as (i & e & Hi & He & Hie).
  assert (contents s !! id = Some (me_set e)); [|congruence].
  apply heap_contents_lookup; [apply Hok|]. eauto 10.
Qed.

(** The fee of [x] comes no later than that of [y]. *)
Definition no_later (s : heapState) (x y : splitSet) : Prop :=
  if mh_minHeap (hs_heap s) then (sp_averageFee x <= sp_averageFee y)%N else (sp_averageFee y <= sp_averageFee x)%N.

Lemma rank_no_later s x y :
  rank (mh_minHeap (hs_heap s)) (sp_averageFee x) <= rank (mh_minHeap (hs_heap s)) (sp_averageFee y) -> no_later s x y.
Proof. unfold rank, no_later. destruct (mh_minHeap _); lia. Qed.

Lemma empty_heap_ok elems b : heap_ok (mkHeapState elems (mkMapHeap ∅ [] 0 b)).
Proof.
  split; [split; cbn| |done]; [done|intros id p; by rewrite lookup_empty|].
  intros k Hk. unfold heap_len, zlen in Hk. cbn in Hk. lia.
Qed.

(** C32. The heap implements a finite map with access to its first set: on a
    heap whose elements know their places, are ordered by fee and whose size is
    counted, every operation ends in such a heap.  [push] adds a set; [pop]
    takes the set that [peek] shows, whose fee is the lowest of a min-heap and
    the highest of a max-heap, and panics on an empty heap; [removeSetByID]
    takes the set with the given ID, wherever it is, and panics if there is
    none; [init] turns any heap whose elements know their places into one that
    is ordered, with the same sets. *)
Theorem mapHeap_refines_map s :
  (heap_ok s ->
    (forall p e, hs_elems s !! p = Some e -> contents s !! me_id e = None ->
      exists s', push p s = Ret () s' /\ heap_ok s' /\ contents s' = <[me_id e := me_set e]> (contents s)) /\
    (if decide (contents s = ∅) then pop s = Panic "index out of range" /\ peek s = None
     else exists p e s', pop s = Ret p s' /\ peek s = Some p /\ hs_elems s' !! p = Some e /\ heap_ok s' /\
       contents s !! me_id e = Some (me_set e) /\ contents s' = delete (me_id e) (contents s) /\
       forall id set, contents s !! id = Some set -> no_later s (me_set e) set) /\
    (forall id, match contents s !! id with
      | None => removeSetByID id s = Panic "nil pointer dereference"
      | Some set => exists p e s', removeSetByID id s = Ret p s' /\ hs_elems s' !! p = Some e /\ me_id e = id /\
          me_set e = set /\ heap_ok s' /\ contents s' = delete id (contents s)
      end)) /\
  (placed s -> exists s', init s = Ret () s' /\ placed s' /\ ordered s' (heap_len s') /\ contents s' = contents s).
Proof.
  split; [intros Hok; split_and!|].
  - intros p e He Hnew. destruct (push_run s p e Hok He Hnew) as (s' & Hrun & H). exists s'.
    split_and!; [done|apply H..].
  - case_decide as Hc.
    + split; [by apply pop_empty|]. pose proof (peek_run s Hok) as Hp. destruct (peek s) as [p|]; [|done].
      destruct Hp as (e & _ & He & _). by rewrite Hc, lookup_empty in He.
    + destruct (pop_run s Hok Hc) as (p & e & s' & Hrun & Ht & Hpk & Hmin). exists p, e, s'.
      split_and!; [done|done|apply Ht..|]. intros id set Hid. apply rank_no_later. by eapply Hmin.
  - intros id. destruct (contents s !! id) as [set|] eqn:Hid; [|by apply removeSetByID_absent].
    destruct (removeSetByID_run s id set Hok Hid) as (p & e & s' & Hrun & Ht & <- & <-). exists p, e, s'.
    split_and!; [done|apply Ht|done|done|apply Ht..].
  - intros Hp. destruct (init_run s Hp) as (s' & Hrun & Hm & Ho). exists s'. split_and!; [done|apply Hm|done|].
    by apply moved_contents.
Qed.
