(* ===== verification/Miner.v ===== *)
(** * The miner

    modules/miner (miner.go, update.go, blockmanager.go, persist.go): the miner
    follows the consensus set and the transaction pool, keeps a block that
    extends the current one, filled with the sets of transactions that pay
    most, gives out headers to work on, and rebuilds the block of a header that
    comes back.

    Elements of the heaps and source blocks are shared through pointers; the
    fields [m_elems] and [hm_blocks] are the memory they point to.  What the
    miner asks of the clock, the random source and the wallet is an argument
    [outside], and so is the order in which Go ranges over a map. *)

From S2P Require Import Prelude Bytes Interfaces Currency Types Params Encoding Transactions.
From S2P Require Import Subsidy Signatures ProcessedBlock ConsensusSubscribe TransactionPool TransactionPoolUpdate MapHeap.

Open Scope Z_scope.

(** ** State *)

Class MinerParams := {
  BlockMemory : Z;
  HeaderMemory : Z;
  MaxSourceBlockAge : Z
}.
Definition standard_miner_params : MinerParams :=
  {| BlockMemory := 50; HeaderMemory := 10000; MaxSourceBlockAge := 30 * 1000000000 |}.
Definition dev_miner_params : MinerParams :=
  {| BlockMemory := 10; HeaderMemory := 500; MaxSourceBlockAge := 5 * 1000000000 |}.
Definition testing_miner_params : MinerParams :=
  {| BlockMemory := 5; HeaderMemory := 50; MaxSourceBlockAge := 1 * 1000000000 |}.

#[export] Instance BlockHeader_eq_dec : EqDecision BlockHeader.
Proof. solve_decision. Defined.
#[export] Program Instance BlockHeader_countable : Countable BlockHeader :=
  inj_countable' (fun h => (h_ParentID h, h_Nonce h, h_Timestamp h, h_MerkleRoot h))
    (fun '(p, n, t, r) => mkBlockHeader p n t r) _.
Next Obligation. by intros []. Qed.

Record persistence := mkPersistence {
  mp_RecentChange : ConsensusChangeID;
  mp_Height : BlockHeight;
  mp_Target : Target;
  mp_Address : UnlockHash;
  mp_BlocksFound : list BlockID;
  mp_UnsolvedBlock : Block
}.

(** The variables of the block manager. *)
Record headerMemory := mkHeaderMemory {
  hm_blockMem : gmap BlockHeader nat;
  hm_arbDataMem : gmap BlockHeader (array 32);
  hm_headerMem : list BlockHeader;
  hm_sourceBlock : option nat;
  hm_sourceBlockTime : Z;
  hm_memProgress : Z;
  hm_blocks : list Block
}.

Record Miner := mkMiner {
  m_mem : headerMemory;
  m_fullSets : gmap TransactionSetID (list splitSetID);
  m_blockMapHeap : mapHeap;
  m_overflowMapHeap : mapHeap;
  m_setCounter : splitSetID;
  m_splitSets : gmap splitSetID splitSet;
  m_splitSetIDFromTxID : gmap TransactionID splitSetID;
  m_unsolvedBlockIndex : gmap TransactionID Z;
  m_elems : gmap elemPtr mapElement;
  m_persist : persistence
}.

Definition zero_header : BlockHeader := mkBlockHeader zero_hash (zero_array 8) 0 zero_hash.
Definition zero_block : Block := mkBlock zero_hash (zero_array 8) 0 [] [].

(** The miner that [New] assembles, with no settings on disk. *)
Definition new_miner `{MinerParams} : Miner :=
  mkMiner (mkHeaderMemory ∅ ∅ (replicate (Z.to_nat HeaderMemory) zero_header) None 0 0 [])
    ∅ (mkMapHeap ∅ [] 0 true) (mkMapHeap ∅ [] 0 false) 0 ∅ ∅ ∅ ∅
    (mkPersistence zero_hash 0 zero_hash zero_hash [] zero_block).

Definition with_mem f m := mkMiner (f (m_mem m)) (m_fullSets m) (m_blockMapHeap m) (m_overflowMapHeap m) (m_setCounter m)
  (m_splitSets m) (m_splitSetIDFromTxID m) (m_unsolvedBlockIndex m) (m_elems m) (m_persist m).
Definition with_fullSets f m := mkMiner (m_mem m) (f (m_fullSets m)) (m_blockMapHeap m) (m_overflowMapHeap m) (m_setCounter m)
  (m_splitSets m) (m_splitSetIDFromTxID m) (m_unsolvedBlockIndex m) (m_elems m) (m_persist m).
Definition with_blockHeap s m := mkMiner (m_mem m) (m_fullSets m) (hs_heap s) (m_overflowMapHeap m) (m_setCounter m)
  (m_splitSets m) (m_splitSetIDFromTxID m) (m_unsolvedBlockIndex m) (hs_elems s) (m_persist m).
Definition with_overflowHeap s m := mkMiner (m_mem m) (m_fullSets m) (m_blockMapHeap m) (hs_heap s) (m_setCounter m)
  (m_splitSets m) (m_splitSetIDFromTxID m) (m_unsolvedBlockIndex m) (hs_elems s) (m_persist m).
Definition with_setCounter n m := mkMiner (m_mem m) (m_fullSets m) (m_blockMapHeap m) (m_overflowMapHeap m) n
  (m_splitSets m) (m_splitSetIDFromTxID m) (m_unsolvedBlockIndex m) (m_elems m) (m_persist m).
Definition with_splitSets f m := mkMiner (m_mem m) (m_fullSets m) (m_blockMapHeap m) (m_overflowMapHeap m) (m_setCounter m)
  (f (m_splitSets m)) (m_splitSetIDFromTxID m) (m_unsolvedBlockIndex m) (m_elems m) (m_persist m).
Definition with_setIDs f m := mkMiner (m_mem m) (m_fullSets m) (m_blockMapHeap m) (m_overflowMapHeap m) (m_setCounter m)
  (m_splitSets m) (f (m_splitSetIDFromTxID m)) (m_unsolvedBlockIndex m) (m_elems m) (m_persist m).
Definition with_blockIndex f m := mkMiner (m_mem m) (m_fullSets m) (m_blockMapHeap m) (m_overflowMapHeap m) (m_setCounter m)
  (m_splitSets m) (m_splitSetIDFromTxID m) (f (m_unsolvedBlockIndex m)) (m_elems m) (m_persist m).
Definition with_new_elem p e m := mkMiner (m_mem m) (m_fullSets m) (m_blockMapHeap m) (m_overflowMapHeap m) (m_setCounter m)
  (m_splitSets m) (m_splitSetIDFromTxID m) (m_unsolvedBlockIndex m) (<[p := e]> (m_elems m)) (m_persist m).
Definition with_persist f m := mkMiner (m_mem m) (m_fullSets m) (m_blockMapHeap m) (m_overflowMapHeap m) (m_setCounter m)
  (m_splitSets m) (m_splitSetIDFromTxID m) (m_unsolvedBlockIndex m) (m_elems m) (f (m_persist m)).

Definition with_unsolved f p := mkPersistence (mp_RecentChange p) (mp_Height p) (mp_Target p) (mp_Address p)
  (mp_BlocksFound p) (f (mp_UnsolvedBlock p)).
Definition with_height h p := mkPersistence (mp_RecentChange p) h (mp_Target p) (mp_Address p)
  (mp_BlocksFound p) (mp_UnsolvedBlock p).
Definition with_target t p := mkPersistence (mp_RecentChange p) (mp_Height p) t (mp_Address p)
  (mp_BlocksFound p) (mp_UnsolvedBlock p).
Definition with_address a p := mkPersistence (mp_RecentChange p) (mp_Height p) (mp_Target p) a
  (mp_BlocksFound p) (mp_UnsolvedBlock p).
Definition with_found id p := mkPersistence (mp_RecentChange p) (mp_Height p) (mp_Target p) (mp_Address p)
  (mp_BlocksFound p ++ [id]) (mp_UnsolvedBlock p).
Definition with_recent c p := mkPersistence c (mp_Height p) (mp_Target p) (mp_Address p)
  (mp_BlocksFound p) (mp_UnsolvedBlock p).

Definition with_txns txns b := mkBlock (b_ParentID b) (b_Nonce b) (b_Timestamp b) (b_MinerPayouts b) txns.

(** [m.persist.UnsolvedBlock.Transactions]. *)
Abbreviation unsolved m := (b_Transactions (mp_UnsolvedBlock (m_persist m))).
Definition set_unsolved (txns : list Transaction) (m : Miner) : Miner :=
  with_persist (with_unsolved (with_txns txns)) m.

(** A heap of the miner with the memory. *)
Abbreviation blockHeap m := (mkHeapState (m_elems m) (m_blockMapHeap m)).
Abbreviation overflowHeap m := (mkHeapState (m_elems m) (m_overflowMapHeap m)).

Definition on_heap {A} (view : Miner -> heapState) (update : heapState -> Miner -> Miner) (act : M heapState A)
  : M Miner A := fun m =>
  match act (view m) with
  | Ret a s => Ret a (update s m)
  | Err e s => Err e (update s m)
  | Panic msg => Panic msg
  end.
Abbreviation on_block := (on_heap (fun m => blockHeap m) with_blockHeap).
Abbreviation on_overflow := (on_heap (fun m => overflowHeap m) with_overflowHeap).

(** ** The transactions of the block: update.go *)

Section update.
Context {B : Build} {P : Params} {C : Crypto} {E : SiaEncoding}.
(** The order in which Go ranges over a set of IDs. *)
Context (range : list TransactionID -> list TransactionID).

(** [s[i] = x] for a slice of transactions. *)
Definition set_txn (i : Z) (txn : Transaction) : M Miner () :=
  m ← get;
  if (0 <=? i) && (i <? zlen (unsolved m)) then modify (set_unsolved (<[Z.to_nat i := txn]> (unsolved m)))
  else panic "index out of range".

Definition removeTxFromUnsolvedBlock (id : TransactionID) : M Miner TransactionID :=
  m ← get;
  let index := default 0 (m_unsolvedBlockIndex m !! id) in
  let length := zlen (unsolved m) in
  _ ← modify (with_blockIndex (delete id));
  match last (unsolved m) with
  | None => panic "index out of range"
  | Some lastTx =>
      if index =? length - 1 then
        _ ← modify (fun m => set_unsolved (take (Z.to_nat (length - 1)) (unsolved m)) m);
        mret id
      else
        let lastTxID := Transaction_ID lastTx in
        _ ← set_txn index lastTx;
        _ ← modify (with_blockIndex <[lastTxID := index]>);
        _ ← modify (fun m => set_unsolved (take (Z.to_nat (length - 1)) (unsolved m)) m);
        mret lastTxID
  end.

(** The last loop of [fixSplitSetOrdering]. *)
Definition put_in_place (x : Transaction * Z) : M Miner () :=
  let '(txn, expectedIndex) := x in
  m ← get;
  let index := default 0 (m_unsolvedBlockIndex m !! Transaction_ID txn) in
  if negb (index =? expectedIndex) then
    _ ← set_txn expectedIndex txn;
    modify (with_blockIndex <[Transaction_ID txn := expectedIndex]>)
  else mret ().

Definition fixSplitSetOrdering (id : splitSetID) : M Miner () :=
  m ← get;
  match m_splitSets m !! id with
  | None => panic "nil pointer dereference"
  | Some set =>
      let setTxs := sp_transactions set in
      if zlen setTxs <? 2 then mret ()
      else
        let setTxIDs := Transaction_ID <$> setTxs in
        let setTxIndices := merge_sort Z.le ((fun txID => default 0 (m_unsolvedBlockIndex m !! txID)) <$> setTxIDs) in
        for_each put_in_place (zip setTxs setTxIndices)
  end.

(** The second loop of [removeSplitSetFromUnsolvedBlock]. *)
Definition fix_swapped (id : splitSetID) (_ : Z) (txID : TransactionID) (setsFixed : gset splitSetID)
  : M Miner (gset splitSetID) :=
  m ← get;
  let setID := default 0 (m_splitSetIDFromTxID m !! txID) in
  if bool_decide (setID ∈ setsFixed) || bool_decide (setID = id) then mret setsFixed
  else
    _ ← fixSplitSetOrdering setID;
    mret ({[setID]} ∪ setsFixed).

Definition removeSplitSetFromUnsolvedBlock (id : splitSetID) : M Miner () :=
  m ← get;
  match m_splitSets m !! id with
  | None => panic "nil pointer dereference"
  | Some set =>
      swappedTxs ← for_fold (fun _ txn swappedTxs =>
          txID ← removeTxFromUnsolvedBlock (Transaction_ID txn);
          mret ({[txID]} ∪ swappedTxs)) 0 (sp_transactions set) (∅ : gset TransactionID);
      _ ← for_fold (fix_swapped id) 0 (range (elements swappedTxs)) ∅;
      mret ()
  end.

Definition popFromBlock : M Miner elemPtr :=
  p ← on_block pop;
  elem ← on_block (deref p);
  _ ← removeSplitSetFromUnsolvedBlock (me_id elem);
  mret p.
Definition popFromOverflow : M Miner elemPtr := on_overflow pop.
Definition peekAtOverflow (m : Miner) : option elemPtr := peek (overflowHeap m).

Definition pushToBlock (p : elemPtr) : M Miner () :=
  _ ← on_block (push p);
  elem ← on_block (deref p);
  for_each (fun txn =>
    modify (fun m =>
      set_unsolved (unsolved m ++ [txn]) (with_blockIndex <[Transaction_ID txn := zlen (unsolved m)]> m)))
    (sp_transactions (me_set elem)).
Definition pushToOverflow (p : elemPtr) : M Miner () := on_overflow (push p).

(** A set of this size fits next to sets of the given size. *)
Definition fits_in_block (size setSize : Z) : bool := u64 (size + setSize) <? u64 (BlockSizeLimit - 5000).

(** The loop of [addMapElementTxns].  The average of a round is declared in its
    body and lost at its end, so that the one the next round multiplies is
    always zero.  Every round but the last takes a set out of the block. *)
Fixpoint displace (fuel : nat) (p : elemPtr) (candidateSet : splitSet) (bottomSets : list elemPtr) (sizeOfBottomSets : Z)
  : M Miner () :=
  match fuel with
  | O => panic "out of fuel"
  | S fuel =>
      m ← get;
      if fits_in_block (u64 (mh_size (m_blockMapHeap m) - sizeOfBottomSets)) (sp_size candidateSet) then
        _ ← pushToBlock p;
        for_each pushToOverflow bottomSets
      else
        match peek (blockHeap m) with
        | None =>
            _ ← pushToOverflow p;
            for_each pushToBlock bottomSets
        | Some _ =>
            q ← popFromBlock;
            nextSet ← on_block (deref q);
            let bottomSets := bottomSets ++ [q] in
            let totalFeeFromNextSet :=
              Currency.Mul64 (sp_averageFee (me_set nextSet)) (sp_size (me_set nextSet)) in
            let totalBottomFees :=
              Currency.Add (Currency.Mul64 Currency.ZeroCurrency sizeOfBottomSets) totalFeeFromNextSet in
            let sizeOfBottomSets := u64 (sizeOfBottomSets + sp_size (me_set nextSet)) in
            _ ← panic_if (sizeOfBottomSets =? 0) "division by zero";
            let averageFeeOfBottomSets := Currency.Div64 totalBottomFees sizeOfBottomSets in
            if Currency.Cmp averageFeeOfBottomSets (sp_averageFee candidateSet) =? 1 then
              _ ← pushToOverflow p;
              for_each pushToBlock bottomSets
            else displace fuel p candidateSet bottomSets sizeOfBottomSets
        end
  end.

Definition addMapElementTxns (p : elemPtr) : M Miner () :=
  elem ← on_block (deref p);
  m ← get;
  if fits_in_block (mh_size (m_blockMapHeap m)) (sp_size (me_set elem)) then pushToBlock p
  else displace (S (length (mh_data (m_blockMapHeap m)))) p (me_set elem) [] 0.

(** The size and the fees of a set. *)
Definition sum_set (newSet : UnconfirmedTransactionSet) : M Miner (Z * Currency) :=
  for_fold (fun i _ '(size, totalFees) =>
    match ut_Sizes newSet !! Z.to_nat i, ut_Transactions newSet !! Z.to_nat i with
    | Some s, Some txn =>
        mret (u64 (size + s), fold_left Currency.Add (t_MinerFees txn) totalFees)
    | _, _ => panic "index out of range"
    end) 0 (ut_IDs newSet) (0, Currency.ZeroCurrency).

Definition new_split_set (_ : Z) (newSet : UnconfirmedTransactionSet) (newElements : list elemPtr) : M Miner (list elemPtr) :=
  _ ← modify (fun m => with_setCounter (i64 (m_setCounter m + 1)) m);
  _ ← modify (fun m => with_fullSets <[ut_ID newSet := [m_setCounter m]]> m);
  '(size, totalFees) ← sum_set newSet;
  _ ← panic_if (size =? 0) "division by zero";
  m ← get;
  let s := mkSplitSet (Currency.Div64 totalFees size) size (ut_Transactions newSet) in
  let p := fresh (dom (m_elems m)) in
  _ ← modify (with_new_elem p (mkMapElement s (m_setCounter m) 0));
  mret (newElements ++ [p]).
Definition getNewSplitSets (diff : TransactionPoolDiff) : M Miner (list elemPtr) :=
  for_fold new_split_set 0 (tpd_AppliedTransactions diff) [].

Definition add_new_element (p : elemPtr) : M Miner () :=
  elem ← on_block (deref p);
  _ ← modify (with_splitSets <[me_id elem := me_set elem]>);
  _ ← modify (with_setIDs (fun ids =>
        fold_left (fun ids tx => <[Transaction_ID tx := me_id elem]> ids) (sp_transactions (me_set elem)) ids));
  addMapElementTxns p.
Definition addNewTxns (diff : TransactionPoolDiff) : M Miner () :=
  newElements ← getNewSplitSets diff;
  for_each add_new_element newElements.

(** The loop of [deleteMapElementTxns]: the set it compares is the one that was
    on top before its first round. *)
Fixpoint promote (fuel : nat) (overflowSet : splitSet) : M Miner () :=
  match fuel with
  | O => panic "out of fuel"
  | S fuel =>
      m ← get;
      if fits_in_block (mh_size (m_blockMapHeap m)) (sp_size overflowSet) then
        promotedElem ← popFromOverflow;
        _ ← pushToBlock promotedElem;
        promote fuel overflowSet
      else mret ()
  end.

Definition deleteMapElementTxns (id : splitSetID) : M Miner () :=
  m ← get;
  if bool_decide (is_Some (mh_selectID (m_overflowMapHeap m) !! id)) then
    _ ← on_overflow (removeSetByID id); mret ()
  else if bool_decide (is_Some (mh_selectID (m_blockMapHeap m) !! id)) then
    _ ← on_block (removeSetByID id);
    _ ← removeSplitSetFromUnsolvedBlock id;
    m ← get;
    match peekAtOverflow m with
    | None => mret ()
    | Some overflowElem =>
        elem ← on_overflow (deref overflowElem);
        promote (S (S (length (mh_data (m_overflowMapHeap m))))) (me_set elem)
    end
  else mret ().

(** The body of [deleteReverts]. *)
Definition delete_full_set (id : TransactionSetID) : M Miner () :=
  m ← get;
  _ ← for_each (fun ss =>
        _ ← deleteMapElementTxns ss;
        modify (with_splitSets (delete ss))) (default [] (m_fullSets m !! id));
  modify (with_fullSets (delete id)).
Definition deleteReverts (diff : TransactionPoolDiff) : M Miner () :=
  for_each delete_full_set (tpd_RevertedTransactions diff).

Definition Miner_ReceiveUpdatedUnconfirmedTransactions (diff : TransactionPoolDiff) : M Miner () :=
  _ ← deleteReverts diff;
  addNewTxns diff.
End update.

(** ** Blocks to work on: blockmanager.go *)

(** What the wallet answers to one [checkAddress]. *)
Record walletAnswers := mkWalletAnswers {
  wa_AllAddresses : error + list UnlockHash;
  wa_NextAddress : error + UnlockConditions
}.

(** What the miner reads from outside during one call: the wallet, which may be
    asked for an address twice; the clock, for timestamps and in nanoseconds;
    and the random source. *)
Record outside := mkOutside {
  o_Unlocked : error + bool;
  o_wallet : walletAnswers;
  o_wallet' : walletAnswers;
  o_now : Timestamp;
  o_now' : Timestamp;
  o_since : Z;
  o_time : Z;
  o_randBytes : array 16;
  o_arbData : array 32
}.

Definition with_blockMem f s := mkHeaderMemory (f (hm_blockMem s)) (hm_arbDataMem s) (hm_headerMem s) (hm_sourceBlock s)
  (hm_sourceBlockTime s) (hm_memProgress s) (hm_blocks s).
Definition with_arbDataMem f s := mkHeaderMemory (hm_blockMem s) (f (hm_arbDataMem s)) (hm_headerMem s) (hm_sourceBlock s)
  (hm_sourceBlockTime s) (hm_memProgress s) (hm_blocks s).
Definition with_headerMem l s := mkHeaderMemory (hm_blockMem s) (hm_arbDataMem s) l (hm_sourceBlock s)
  (hm_sourceBlockTime s) (hm_memProgress s) (hm_blocks s).
Definition with_memProgress n s := mkHeaderMemory (hm_blockMem s) (hm_arbDataMem s) (hm_headerMem s) (hm_sourceBlock s)
  (hm_sourceBlockTime s) n (hm_blocks s).
Definition with_blocks l s := mkHeaderMemory (hm_blockMem s) (hm_arbDataMem s) (hm_headerMem s) (hm_sourceBlock s)
  (hm_sourceBlockTime s) (hm_memProgress s) l.
(** A new block in memory, which becomes the source block. *)
Definition with_source b time s := mkHeaderMemory (hm_blockMem s) (hm_arbDataMem s) (hm_headerMem s) (Some (length (hm_blocks s)))
  time (hm_memProgress s) (hm_blocks s ++ [b]).

Definition with_payouts payouts b := mkBlock (b_ParentID b) (b_Nonce b) (b_Timestamp b) payouts (b_Transactions b).
Definition with_timestamp t b := mkBlock (b_ParentID b) (b_Nonce b) t (b_MinerPayouts b) (b_Transactions b).
Definition with_parent id b := mkBlock id (b_Nonce b) (b_Timestamp b) (b_MinerPayouts b) (b_Transactions b).
Definition with_nonce n b := mkBlock (b_ParentID b) n (b_Timestamp b) (b_MinerPayouts b) (b_Transactions b).
Definition header_nonce n h := mkBlockHeader (h_ParentID h) n (h_Timestamp h) (h_MerkleRoot h).
Definition with_arb data t := mkTransaction (t_SiacoinInputs t) (t_SiacoinOutputs t) (t_FileContracts t)
  (t_FileContractRevisions t) (t_StorageProofs t) (t_SiafundInputs t) (t_SiafundOutputs t) (t_MinerFees t) data
  (t_TransactionSignatures t).

(** [copy(dst, src)]. *)
Definition copy_bytes (dst src : bytes) : bytes := take (length dst) src ++ drop (length src) dst.

(** An error that is only logged. *)
Definition logged {S} (act : M S ()) : M S () := fun s =>
  match act s with Err _ s => Ret () s | o => o end.

Section work.
Context {B : Build} {P : Params} {C : Crypto} {E : SiaEncoding} {MP : MinerParams}.

Definition checkAddress (w : walletAnswers) : M Miner () :=
  match wa_AllAddresses w with
  | inl e => throw e
  | inr addrs =>
      m ← get;
      let hasAddr := bool_decide (mp_Address (m_persist m) ∈ addrs) in
      if negb (bool_decide (mp_Address (m_persist m) = zero_hash)) && hasAddr then mret ()
      else
        match wa_NextAddress w with
        | inl e => throw e
        | inr uc => modify (with_persist (with_address (UnlockConditions_UnlockHash uc)))
        end
  end.

(** The two variants of [blockForWork] differ in the payouts. *)
Definition block_for_work (payouts : Block -> Miner -> list SiacoinOutput) (o : outside) : M Miner Block :=
  b ← gets (fun m => mp_UnsolvedBlock (m_persist m));
  let b := if b_Timestamp b <? o_now o then with_timestamp (o_now' o) b else b in
  _ ← logged (checkAddress (o_wallet' o));
  m ← get;
  let b := with_payouts (payouts b m) b in
  let randTxn := with_arb [vec_to_list PrefixNonSia ++ vec_to_list (o_randBytes o)] empty_transaction in
  mret (with_txns (randTxn :: b_Transactions b) b).

Definition blockForWorkWithoutDevFund : outside -> M Miner Block := block_for_work (fun b m =>
  [mkSiacoinOutput (CalculateSubsidy b (u64 (mp_Height (m_persist m) + 1))) (mp_Address (m_persist m))]).

Definition blockForWorkWithDevFund : outside -> M Miner Block := block_for_work (fun b m =>
  let '(minerPayoutVal, subsidyPayoutVal) := CalculateSubsidies b (u64 (mp_Height (m_persist m) + 1)) in
  [mkSiacoinOutput minerPayoutVal (mp_Address (m_persist m));
   mkSiacoinOutput subsidyPayoutVal DevFundUnlockHash]).

Definition blockForWork (o : outside) : M Miner Block :=
  m ← get;
  if DevFundEnabled && (DevFundInitialBlockHeight <=? u64 (mp_Height (m_persist m) + 1))
  then blockForWorkWithDevFund o
  else blockForWorkWithoutDevFund o.

(** Forgetting the header of the current slot and going to the next one. *)
Definition forget_header : M Miner () :=
  m ← get;
  match hm_headerMem (m_mem m) !! Z.to_nat (hm_memProgress (m_mem m)) with
  | None => panic "index out of range"
  | Some h => modify (with_mem (fun s => with_arbDataMem (delete h) (with_blockMem (delete h) s)))
  end.
Definition next_slot : M Miner () :=
  modify (with_mem (fun s =>
    let progress := hm_memProgress s + 1 in
    with_memProgress (if progress =? HeaderMemory then 0 else progress) s)).

(** The loop of [newSourceBlock]; a slot that is a multiple of the divisor comes
    within so many rounds. *)
Fixpoint skip_slots (fuel : nat) : M Miner () :=
  match fuel with
  | O => panic "out of fuel"
  | S fuel =>
      m ← get;
      if hm_memProgress (m_mem m) mod (HeaderMemory / BlockMemory) =? 0 then mret ()
      else
        _ ← forget_header;
        _ ← next_slot;
        skip_slots fuel
  end.

Definition newSourceBlock (o : outside) : M Miner () :=
  _ ← skip_slots (Z.to_nat (HeaderMemory / BlockMemory));
  block ← blockForWork o;
  modify (with_mem (with_source block (o_time o))).

(** [copy(m.sourceBlock.Transactions[0].ArbitraryData[0], arbData[:])]. *)
Definition mark_source (arbData : array 32) : M Miner (nat * Block) :=
  m ← get;
  match hm_sourceBlock (m_mem m) with
  | None => panic "nil pointer dereference"
  | Some p =>
      match hm_blocks (m_mem m) !! p with
      | None => panic "nil pointer dereference"
      | Some b =>
          match b_Transactions b with
          | [] => panic "index out of range"
          | t :: txns =>
              match t_ArbitraryData t with
              | [] => panic "index out of range"
              | data :: rest =>
                  let b := with_txns (with_arb (copy_bytes data (vec_to_list arbData) :: rest) t :: txns) b in
                  _ ← modify (with_mem (fun s => with_blocks (<[p := b]> (hm_blocks s)) s));
                  mret (p, b)
              end
          end
      end
  end.

Definition HeaderForWork (o : outside) : M Miner (BlockHeader * Target) :=
  match o_Unlocked o with
  | inl e => throw e
  | inr false => throw (WalletError ErrLockedWallet)
  | inr true =>
      _ ← checkAddress (o_wallet o);
      m ← get;
      _ ← (if (MaxSourceBlockAge <? o_since o - hm_sourceBlockTime (m_mem m)) ||
              (hm_memProgress (m_mem m) mod (HeaderMemory / BlockMemory) =? 0)
           then newSourceBlock o else mret ());
      '(p, b) ← mark_source (o_arbData o);
      let header := Block_Header b in
      _ ← forget_header;
      _ ← modify (with_mem (fun s => with_arbDataMem <[header := o_arbData o]> (with_blockMem <[header := p]> s)));
      _ ← modify (with_mem (fun s => with_headerMem (<[Z.to_nat (hm_memProgress s) := header]> (hm_headerMem s)) s));
      _ ← next_slot;
      m ← get;
      mret (header, mp_Target (m_persist m))
  end.

(** The part of [SubmitHeader] under the lock: the block of a header. *)
Definition recover_block (bh : BlockHeader) : M Miner Block :=
  m ← get;
  let nonce := h_Nonce bh in
  let bh := header_nonce (zero_array 8) bh in
  match hm_blockMem (m_mem m) !! bh, hm_arbDataMem (m_mem m) !! bh with
  | Some p, Some arbData =>
      match hm_blocks (m_mem m) !! p with
      | None => panic "nil pointer dereference"
      | Some b =>
          match b_Transactions b with
          | [] => panic "index out of range"
          | t :: txns =>
              let b := with_nonce nonce (with_txns (with_arb [vec_to_list arbData] t :: txns) b) in
              let bh := header_nonce nonce bh in
              _ ← panic_if (DEBUG && bool_decide (BlockHeader_ID bh <> Block_ID b)) "block reconstruction failed";
              mret b
          end
      end
  | _, _ => throw errLateHeader
  end.

(** The miner and the transaction pool. *)
Definition on_miner {A} (act : M Miner A) : M (Miner * TransactionPool) A := fun '(m, tp) =>
  match act m with
  | Ret a m => Ret a (m, tp)
  | Err e m => Err e (m, tp)
  | Panic msg => Panic msg
  end.
Definition on_pool {A} (act : M TransactionPool A) : M (Miner * TransactionPool) A := fun '(m, tp) =>
  match act tp with
  | Ret a tp => Ret a (m, tp)
  | Err e tp => Err e (m, tp)
  | Panic msg => Panic msg
  end.

(** [AcceptBlock] of the consensus set, which informs the miner and the pool of
    the changes. *)
Context (AcceptBlock : Block -> M (Miner * TransactionPool) ()).

(** [next] is the answer of [NextAddress], [saved] that of [saveSync]. *)
Definition managedSubmitBlock (next : error + UnlockConditions) (saved : option error) (b : Block) : M (Miner * TransactionPool) () := fun s =>
  match AcceptBlock b s with
  | Panic msg => Panic msg
  | Err ErrNonExtendingBlock s =>
      (_ ← on_miner (modify (with_persist (with_found (Block_ID b)))); throw ErrNonExtendingBlock) s
  | Err ErrBlockUnsolved s => Err ErrBlockUnsolved s
  | Err e s =>
      (_ ← on_pool PurgeTransactionPool;
       _ ← panic_if DEBUG "an invalid block was submitted";
       throw e) s
  | Ret _ s =>
      (_ ← on_miner (modify (with_persist (with_found (Block_ID b))));
       match next with
       | inl e => throw e
       | inr uc =>
           _ ← on_miner (modify (with_persist (with_address (UnlockConditions_UnlockHash uc))));
           check saved
       end) s
  end.

Definition SubmitBlock (next : error + UnlockConditions) (saved : option error) (b : Block)
  : M (Miner * TransactionPool) () :=
  managedSubmitBlock next saved b.

Definition SubmitHeader (next : error + UnlockConditions) (saved : option error) (bh : BlockHeader)
  : M (Miner * TransactionPool) () :=
  b ← on_miner (recover_block bh);
  managedSubmitBlock next saved b.

(** ** Following the consensus set *)

(** The height after one block; [step] is [Height--] or [Height++].  The branch
    for a genesis block at another height cannot be reached. *)
Definition miner_height_step (step : Z) (block : Block) : M Miner () :=
  m ← get;
  let h := mp_Height (m_persist m) in
  if (0 <? h) || bool_decide (Block_ID block <> GenesisID)
  then modify (with_persist (with_height (u64 (h + step))))
  else if negb (h =? 0) then
    _ ← panic_if DEBUG "genesis block at a height above zero";
    modify (with_persist (with_height 0))
  else mret ().

Definition Miner_ProcessConsensusChange (o : outside) (cc : ConsensusChange) : M Miner () :=
  _ ← for_each (miner_height_step (-1)) (cc_RevertedBlocks cc);
  _ ← for_each (miner_height_step 1) (cc_AppliedBlocks cc);
  match last (cc_AppliedBlocks cc) with
  | None => panic "index out of range"
  | Some block =>
      _ ← modify (with_persist (fun p =>
            with_unsolved (with_timestamp (cc_MinimumValidChildTimestamp cc))
              (with_target (cc_ChildTarget cc) (with_unsolved (with_parent (Block_ID block)) p))));
      _ ← (if cc_Synced cc then newSourceBlock o else mret ());
      modify (with_persist (with_recent (cc_ID cc)))
  end.

(** The reset of [startupRescan]; the subscription from the first block on
    follows it. *)
Definition startupRescan_reset (m : Miner) : Miner :=
  with_persist (fun p => with_target zero_hash (with_height 0 (with_recent ConsensusChangeBeginning p))) m.

Definition BlocksMined (InCurrentPath : BlockID -> bool) (m : Miner) : Z * Z :=
  fold_left (fun '(good, stale) id => if InCurrentPath id then (good + 1, stale) else (good, stale + 1))
    (mp_BlocksFound (m_persist m)) (0, 0).
End work.
