(* ===== verification/MinerSelect.v ===== *)
(** * The transactions a miner selects

    The unsolved block of the miner holds the sets of the block heap, each with
    its transactions in their order; the other sets of the pool are in the
    overflow heap. *)

From S2P Require Import Prelude Bytes Interfaces Currency Types Params Encoding Transactions.
From S2P Require Import Subsidy ProcessedBlock ConsensusSubscribe TransactionPool TransactionPoolUpdate MapHeap Miner.

Open Scope Z_scope.

(** ** Transactions and their positions *)

Section positions.
Context {C : Crypto} {E : SiaEncoding}.

Abbreviation ids X := (Transaction_ID <$> X).

(** The index has the position of every transaction. *)
Record indexed (T : list Transaction) (idx : gmap TransactionID Z) : Prop := mkIndexed {
  ix_at k t : T !! k = Some t -> idx !! Transaction_ID t = Some (Z.of_nat k);
  ix_dom txid i : idx !! txid = Some i -> txid ∈ ids T
}.

(** The transactions of [X] in [T], in the order of [T]. *)
Definition picked (X T : list Transaction) : list Transaction := filter (fun t => Transaction_ID t ∈ ids X) T.

Lemma indexed_NoDup T idx : indexed T idx -> NoDup (ids T).
Proof.
  intros H. apply NoDup_alt. intros i j txid Hi Hj. rewrite list_lookup_fmap in Hi, Hj.
  destruct (T !! i) as [t|] eqn:Ht, (T !! j) as [u|] eqn:Hu; try done. injection Hi as Hi. injection Hj as Hj.
  apply (ix_at _ _ H) in Ht, Hu. rewrite Hi in Ht. rewrite Hj, Ht in Hu. injection Hu. lia.
Qed.

Lemma ids_inj T t u : NoDup (ids T) -> t ∈ T -> u ∈ T -> Transaction_ID t = Transaction_ID u -> t = u.
Proof.
  intros Hnd (i & Hi)%list_elem_of_lookup (j & Hj)%list_elem_of_lookup Heq.
  assert (i = j); [|congruence]. eapply NoDup_lookup; [exact Hnd|..]; rewrite list_lookup_fmap, ?Hi, ?Hj; cbn;
    [done|by rewrite Heq].
Qed.

Lemma ids_NoDup T : NoDup (ids T) -> NoDup T.
Proof. apply NoDup_fmap_1. Qed.

Lemma picked_perm X T : NoDup (ids X) -> NoDup (ids T) -> (forall t, t ∈ X -> t ∈ T) -> picked X T ≡ₚ X.
Proof.
  intros HX HT Hsub. apply NoDup_Permutation; [by apply NoDup_filter, ids_NoDup|by apply ids_NoDup|].
  intros t. unfold picked. rewrite list_elem_of_filter. split.
  - intros [(u & Hid & Hu)%list_elem_of_fmap Ht]. by rewrite (ids_inj T t u) by auto.
  - intros Ht. split; [by apply list_elem_of_fmap_2|auto].
Qed.

Lemma picked_app X T1 T2 : picked X (T1 ++ T2) = picked X T1 ++ picked X T2.
Proof. apply filter_app. Qed.
Lemma picked_other X t T : Transaction_ID t ∉ ids X -> picked X (t :: T) = picked X T.
Proof. intros H. unfold picked. by rewrite filter_cons_False. Qed.

Lemma picked_none X T : (forall t, t ∈ T -> Transaction_ID t ∉ ids X) -> picked X T = [].
Proof.
  induction T as [|t T IH]; intros H; [done|]. rewrite picked_other by (apply H; by left). apply IH. intros u Hu.
  apply H. by right.
Qed.
Lemma picked_self X : picked X X = X.
Proof.
  assert (H : forall T, (forall t, t ∈ T -> Transaction_ID t ∈ ids X) -> picked X T = T);
    [|apply H; intros t; apply list_elem_of_fmap_2].
  induction T as [|t T IH]; intros H; [done|]. unfold picked in *. rewrite filter_cons_True by (apply H; by left).
  f_equal. apply IH. intros u Hu. apply H. by right.
Qed.

(** ** Removing a transaction *)

(** [x] is removed from [T] and the last transaction [l] moved to its place. *)
Inductive shrunk (T : list Transaction) (x l : Transaction) (T' : list Transaction) : Prop :=
| shrunk_last : T = T' ++ [x] -> l = x -> shrunk T x l T'
| shrunk_swap A M : T = A ++ x :: M ++ [l] -> T' = A ++ l :: M -> shrunk T x l T'.

Lemma shrunk_perm T x l T' : shrunk T x l T' -> T ≡ₚ x :: T'.
Proof. intros [-> ->|A M -> ->]; solve_Permutation. Qed.

Lemma shrunk_in T x l T' : shrunk T x l T' -> l ∈ T.
Proof. intros [-> ->|A M -> _]; rewrite ?elem_of_app, ?elem_of_cons, ?elem_of_app, ?list_elem_of_singleton; tauto. Qed.

Lemma shrunk_picked X T x l T' : shrunk T x l T' -> Transaction_ID x ∉ ids X -> Transaction_ID l ∉ ids X ->
  picked X T' = picked X T.
Proof.
  intros [-> ->|A M -> ->] Hx Hl; rewrite !picked_app, ?picked_other, ?picked_app, ?picked_other by done.
  - by rewrite app_nil_r.
  - by rewrite app_nil_r.
Qed.

Lemma shrunk_picked_perm X T x l T' : shrunk T x l T' -> Transaction_ID x ∉ ids X -> picked X T' ≡ₚ picked X T.
Proof.
  intros H Hx. unfold picked. rewrite (shrunk_perm _ _ _ _ H). by rewrite filter_cons_False.
Qed.

Lemma indexed_last T x idx : indexed (T ++ [x]) idx -> indexed T (delete (Transaction_ID x) idx).
Proof.
  intros H. pose proof (indexed_NoDup _ _ H) as Hnd. rewrite fmap_app, NoDup_app in Hnd. destruct Hnd as (_ & Hx & _).
  split.
  - intros k t Hk. rewrite lookup_delete_ne; [apply (ix_at _ _ H); by apply lookup_app_l_Some|].
    intros Heq. apply (Hx (Transaction_ID t)); [apply list_elem_of_fmap_2; by eapply list_elem_of_lookup_2|].
    rewrite <- Heq. by left.
  - intros txid i [Hne Hi]%lookup_delete_Some. apply (ix_dom _ _ H) in Hi. rewrite fmap_app, elem_of_app in Hi.
    destruct Hi as [Hi|Hi]; [done|]. by apply list_elem_of_singleton in Hi as ->.
Qed.

Lemma indexed_swap A x M l idx : indexed (A ++ x :: M ++ [l]) idx ->
  indexed (A ++ l :: M) (<[Transaction_ID l := Z.of_nat (length A)]> (delete (Transaction_ID x) idx)).
Proof.
  intros H. pose proof (indexed_NoDup _ _ H) as Hnd.
  assert (Hother : forall k t, (A ++ l :: M) !! k = Some t -> k <> length A ->
    (A ++ x :: M ++ [l]) !! k = Some t /\ k <> (length A + S (length M))%nat).
  { intros k t Hk Hne. destruct (decide (k < length A)%nat) as [Hlt|Hge].
    - rewrite lookup_app_l in Hk by done. rewrite lookup_app_l by done. split; [done|lia].
    - rewrite lookup_app_r in Hk by lia. rewrite lookup_app_r by lia.
      destruct (k - length A)%nat as [|j] eqn:Hj; [lia|]. cbn in Hk |- *.
      pose proof (lookup_lt_Some _ _ _ Hk). split; [by apply lookup_app_l_Some|lia]. }
  assert (Hx : (A ++ x :: M ++ [l]) !! length A = Some x) by (by rewrite lookup_app_r, Nat.sub_diag).
  assert (Hl : (A ++ x :: M ++ [l]) !! (length A + S (length M))%nat = Some l).
  { rewrite lookup_app_r by lia. replace (length A + S (length M) - length A)%nat with (S (length M)) by lia.
    change ((M ++ [l]) !! length M = Some l). by rewrite lookup_app_r, Nat.sub_diag. }
  assert (Hinj : forall k j t u, (A ++ x :: M ++ [l]) !! k = Some t -> (A ++ x :: M ++ [l]) !! j = Some u ->
    Transaction_ID t = Transaction_ID u -> k = j).
  { intros k j t u Hk Hj Heq. eapply NoDup_lookup; [exact Hnd|..]; rewrite list_lookup_fmap, ?Hk, ?Hj; cbn;
      [done|by rewrite Heq]. }
  split.
  - intros k t Hk. destruct (decide (k = length A)) as [->|Hne].
    + rewrite lookup_app_r, Nat.sub_diag in Hk by done. injection Hk as <-. by rewrite lookup_insert_eq.
    + destruct (Hother k t Hk Hne) as [Hk' Hne']. rewrite lookup_insert_ne by (intros Heq; apply Hne'; by eapply Hinj).
      rewrite lookup_delete_ne by (intros Heq; apply Hne; by eapply Hinj). by apply (ix_at _ _ H).
  - intros txid i Hi. rewrite fmap_app, fmap_cons, elem_of_app, elem_of_cons.
    apply lookup_insert_Some in Hi as [[<- _]|[Hne [Hnx Hi]%lookup_delete_Some]]; [by right; left|].
    apply (ix_dom _ _ H) in Hi. rewrite fmap_app, fmap_cons, fmap_app, elem_of_app, elem_of_cons, elem_of_app in Hi.
    destruct Hi as [?|[?|[?|Hi]]]; [tauto|by subst|tauto|]. by apply list_elem_of_singleton in Hi.
Qed.

Lemma split_at (T : list Transaction) k x : T !! k = Some x ->
  T = take k T ++ x :: drop (S k) T /\ length (take k T) = k.
Proof.
  intros Hk. pose proof (lookup_lt_Some _ _ _ Hk). split; [|rewrite length_take; lia].
  by rewrite <- (drop_S _ _ _ Hk), take_drop.
Qed.

(** What the code computes for the transaction at [k]. *)
Lemma shrink_at T idx k x l : indexed T idx -> T !! k = Some x -> last T = Some l ->
  if decide (k = pred (length T)) then l = x /\ shrunk T x x (take k T) /\
    indexed (take k T) (delete (Transaction_ID x) idx)
  else let T' := take (pred (length T)) (<[k := l]> T) in
    shrunk T x l T' /\ indexed T' (<[Transaction_ID l := Z.of_nat k]> (delete (Transaction_ID x) idx)).
Proof.
  intros H Hk Hl. destruct (split_at T k x Hk) as [Heq Hlen]. pose proof (lookup_lt_Some _ _ _ Hk) as Hlt.
  set (A := take k T) in *. set (R := drop (S k) T) in *. case_decide as Hd.
  - assert (HR : R = []) by (apply drop_ge; lia). rewrite HR in Heq. rewrite Heq, last_snoc in Hl. injection Hl as <-.
    split_and!; [done|by apply shrunk_last|]. apply indexed_last. by rewrite <- Heq.
  - assert (HR : exists M, R = M ++ [l]).
    { assert (Hpos : length R <> 0%nat) by (unfold R; rewrite length_drop; lia).
      destruct (decide (R = [])) as [HR|HR]; [by rewrite HR in Hpos|]. destruct (exists_last HR) as (M & y & HR').
      exists M. rewrite HR' in Heq |- *. rewrite Heq in Hl. rewrite app_comm_cons, app_assoc, last_snoc in Hl.
      by injection Hl as ->. }
    destruct HR as [M HR]. rewrite HR in Heq.
    assert (HT : take (pred (length T)) (<[k := l]> T) = A ++ l :: M).
    { rewrite Heq at 2. rewrite insert_app_r_alt by lia. rewrite Hlen, Nat.sub_diag. cbn [insert list_insert].
      rewrite app_comm_cons, app_assoc. apply take_app_length'. rewrite Heq, !length_app. cbn [length].
      rewrite length_app. cbn [length]. lia. }
    cbv zeta. rewrite HT. split; [by eapply shrunk_swap|]. rewrite <- Hlen at 1. apply indexed_swap. by rewrite <- Heq.
Qed.

(** ** The code that removes a set *)

(** The miner with another list of transactions and another index. *)
Definition set_block (T : list Transaction) (idx : gmap TransactionID Z) (m : Miner) : Miner :=
  set_unsolved T (with_blockIndex (fun _ => idx) m).

Lemma set_block_twice T1 idx1 T2 idx2 m : set_block T2 idx2 (set_block T1 idx1 m) = set_block T2 idx2 m.
Proof. done. Qed.

Lemma set_block_id m : set_block (unsolved m) (m_unsolvedBlockIndex m) m = m.
Proof. by destruct m as [? ? ? ? ? ? ? ? ? [? ? ? ? ? []]]. Qed.

Lemma removeTx_run m x : indexed (unsolved m) (m_unsolvedBlockIndex m) -> x ∈ unsolved m ->
  exists T' l idx', removeTxFromUnsolvedBlock (Transaction_ID x) m = Ret (Transaction_ID l) (set_block T' idx' m) /\
    shrunk (unsolved m) x l T' /\ indexed T' idx'.
Proof.
  intros H (k & Hk)%list_elem_of_lookup. pose proof (lookup_lt_Some _ _ _ Hk) as Hlt.
  destruct (last (unsolved m)) as [l|] eqn:Hl; [|apply last_None in Hl; by rewrite Hl in Hk].
  pose proof (shrink_at _ _ _ _ _ H Hk Hl) as Hs. unfold removeTxFromUnsolvedBlock, mbind, M_bind, get, modify.
  rewrite Hl, (ix_at _ _ H _ _ Hk). cbn [default from_option id]. unfold zlen.
  replace (Z.to_nat (Z.of_nat (length (unsolved m)) - 1)) with (pred (length (unsolved m))) by lia.
  case_decide as Hd.
  - destruct Hs as (-> & Hs & Hi). destruct (Z.eqb_spec (Z.of_nat k) (Z.of_nat (length (unsolved m)) - 1)); [|lia].
    rewrite <- Hd.
    exists (take k (unsolved m)), x, (delete (Transaction_ID x) (m_unsolvedBlockIndex m)).
    split; [reflexivity|by split].
  - destruct (Z.eqb_spec (Z.of_nat k) (Z.of_nat (length (unsolved m)) - 1)); [lia|].
    destruct Hs as [Hs Hi]. eexists _, l, _. split; [|split; [exact Hs|exact Hi]].
    unfold set_txn, mbind, M_bind, get. cbn [with_blockIndex m_persist].
    destruct (Z.leb_spec 0 (Z.of_nat k)); [|lia]. unfold zlen.
    destruct (Z.ltb_spec (Z.of_nat k) (Z.of_nat (length (unsolved m)))); [|lia].
    cbn [andb]. unfold modify. rewrite Nat2Z.id. reflexivity.
Qed.

(** All transactions of a set are removed; [W] are the IDs of the transactions
    that were moved. *)
Lemma remove_all_run S : forall i W0 m, indexed (unsolved m) (m_unsolvedBlockIndex m) -> NoDup (ids S) ->
  (forall x, x ∈ S -> x ∈ unsolved m) ->
  exists T' idx' (W : gset TransactionID),
    for_fold (fun _ txn swappedTxs => txID ← removeTxFromUnsolvedBlock (Transaction_ID txn);
      mret ({[txID]} ∪ swappedTxs)) i S W0 m =
      Ret W (set_block T' idx' m) /\
    indexed T' idx' /\ unsolved m ≡ₚ S ++ T' /\ W0 ⊆ W /\
      (forall txid, txid ∈ W -> txid ∈ W0 \/ txid ∈ ids (unsolved m)) /\
    forall X, (forall x, x ∈ S -> Transaction_ID x ∉ ids X) -> (forall txid, txid ∈ W -> txid ∉ ids X) ->
      picked X T' = picked X (unsolved m).
Proof.
  induction S as [|x S IH]; intros i W0 m H Hnd Hsub.
  { exists (unsolved m), (m_unsolvedBlockIndex m), W0. split_and!; try done; [by rewrite set_block_id|by left]. }
  destruct (removeTx_run m x H) as (T1 & l & idx1 & Hrun & Hs & H1); [apply Hsub; by left|].
  rewrite fmap_cons, NoDup_cons in Hnd. destruct Hnd as [Hx Hnd]. pose proof (indexed_NoDup _ _ H) as Hnt.
  destruct (IH (i + 1) ({[Transaction_ID l]} ∪ W0) (set_block T1 idx1 m)) as (T' & idx' & W & Hrun' & H' & Hp & HW & HWT & Hpick); [done|done| |].
  { intros y Hy. change (y ∈ T1). assert (Hin : y ∈ x :: T1) by (rewrite <- (shrunk_perm _ _ _ _ Hs); apply Hsub;
      by right).
    apply elem_of_cons in Hin as [->|]; [|done]. destruct Hx. by apply list_elem_of_fmap_2. }
  change (unsolved (set_block T1 idx1 m)) with T1 in *.
  exists T', idx', W. split_and!.
  - rewrite for_fold_cons. unfold mbind at 1, M_bind at 1. rewrite Hrun. unfold mret at 1, M_ret at 1. exact Hrun'.
  - done.
  - rewrite (shrunk_perm _ _ _ _ Hs), Hp. done.
  - set_solver.
  - intros txid [Hin|Hin]%HWT.
    + apply elem_of_union in Hin as [->%elem_of_singleton|]; [|by left]. right. apply list_elem_of_fmap_2.
      by eapply shrunk_in.
    + right. rewrite (shrunk_perm _ _ _ _ Hs). by right.
  - intros X HS HX. rewrite Hpick; [|intros y Hy; apply HS; by right|done].
    apply (shrunk_picked X _ x l); [done|apply HS; by left|]. apply HX, HW. set_solver.
Qed.
(** ** The code that restores the order of a set *)

(** The positions of the transactions of [Y], counted from [n]. *)
Fixpoint positions (n : nat) (Y T : list Transaction) : list nat :=
  match T with
  | [] => []
  | t :: T => if decide (Transaction_ID t ∈ ids Y) then n :: positions (S n) Y T else positions (S n) Y T
  end.

Lemma elem_of_positions n Y T k : k ∈ positions n Y T <->
  (n <= k)%nat /\ exists t, T !! (k - n)%nat = Some t /\ Transaction_ID t ∈ ids Y.
Proof.
  revert n. induction T as [|t T IH]; intros n; cbn [positions].
  { rewrite elem_of_nil. split; [done|]. intros (_ & t & Ht & _). done. }
  assert (Hrest : k ∈ positions (S n) Y T <-> (S n <= k)%nat /\ exists u, (t :: T) !! (k - n)%nat = Some u /\
    Transaction_ID u ∈ ids Y).
  { rewrite IH. split; intros [Hk H]; (split; [done|]); replace (k - n)%nat with (S (k - S n)) in * by lia; done. }
  case_decide as Hd; rewrite ?elem_of_cons, Hrest; split.
  - intros [->|[Hk H]]; [split; [done|]; rewrite Nat.sub_diag; eauto|split; [lia|done]].
  - intros [Hk H]. destruct (decide (k = n)); [by left|right; split; [lia|done]].
  - intros [Hk H]. split; [lia|done].
  - intros [Hk (u & Hu & Hid)]. destruct (decide (k = n)) as [->|]; [|split; [lia|eauto]].
    rewrite Nat.sub_diag in Hu. by injection Hu as ->.
Qed.

Lemma positions_sorted n Y T : StronglySorted lt (positions n Y T).
Proof.
  revert n. induction T as [|t T IH]; intros n; cbn [positions]; [constructor|]. case_decide; [|apply IH].
  constructor; [apply IH|]. apply Forall_forall. intros k [Hk _]%elem_of_positions. lia.
Qed.

Lemma positions_NoDup n Y T : NoDup (positions n Y T).
Proof.
  induction (positions_sorted n Y T) as [|k l _ IH Hk]; constructor; [|done].
  intros Hin. rewrite Forall_forall in Hk. specialize (Hk k Hin). lia.
Qed.

Lemma picked_positions n Y T : picked Y T = omap (fun k => T !! (k - n)%nat) (positions n Y T).
Proof.
  revert n. induction T as [|t T IH]; intros n; [done|]. cbn [positions].
  assert (Hrest : omap (fun k => (t :: T) !! (k - n)%nat) (positions (S n) Y T) = picked Y T).
  { rewrite (IH (S n)). apply list_omap_ext. apply Forall_Forall2_diag, Forall_forall.
    intros k [Hk _]%elem_of_positions.
    by replace (k - n)%nat with (S (k - S n)) by lia. }
  unfold picked in *. case_decide as Hd.
  - rewrite filter_cons_True by done. cbn [omap list_omap]. rewrite Nat.sub_diag. cbn. by rewrite Hrest.
  - by rewrite filter_cons_False.
Qed.

Lemma positions_ext n Y T T' : length T' = length T ->
  (forall k t t', T !! k = Some t -> T' !! k = Some t' -> (Transaction_ID t ∈ ids Y) <-> (Transaction_ID t' ∈ ids Y)) ->
  positions n Y T' = positions n Y T.
Proof.
  revert n T'. induction T as [|t T IH]; intros n [|t' T'] Hl H; try done. cbn [positions].
  rewrite (IH (S n) T') by (try (injection Hl; done); intros k; apply (H (S k))).
  specialize (H 0%nat t t' eq_refl eq_refl). repeat case_decide; tauto || done.
Qed.

Lemma filter_ext_at (P : Transaction -> Prop) `{!forall t, Decision (P t)} T T' : length T' = length T ->
  (forall k t t', T !! k = Some t -> T' !! k = Some t' -> t = t' \/ ~ P t /\ ~ P t') -> filter P T' = filter P T.
Proof.
  revert T'. induction T as [|t T IH]; intros [|t' T'] Hl Hat; try done.
  assert (HT : filter P T' = filter P T) by (apply IH; [by injection Hl|intros k; apply (Hat (S k))]).
  destruct (Hat 0%nat t t' eq_refl eq_refl) as [->|[H1 H2]]; rewrite !filter_cons, HT; repeat case_decide; done.
Qed.

(** Writing the transactions of a list to their places. *)
Definition write_all (L : list (Transaction * nat)) (T : list Transaction) : list Transaction :=
  fold_left (fun T '(t, k) => <[k := t]> T) L T.
Definition note_all (L : list (Transaction * nat)) (idx : gmap TransactionID Z) : gmap TransactionID Z :=
  fold_left (fun idx '(t, k) => <[Transaction_ID t := Z.of_nat k]> idx) L idx.

Lemma write_all_length L T : length (write_all L T) = length T.
Proof.
  unfold write_all. revert T. induction L as [|[t k] L IH]; intros T; cbn [fold_left]; [done|].
  by rewrite IH, length_insert.
Qed.
Lemma write_all_other L T k : k ∉ L.*2 -> write_all L T !! k = T !! k.
Proof.
  unfold write_all. revert T. induction L as [|[t j] L IH]; intros T Hk; cbn [fold_left]; [done|]. cbn in Hk.
  rewrite not_elem_of_cons in Hk. destruct Hk. by rewrite IH, list_lookup_insert_ne.
Qed.
Lemma write_all_at L T t k : NoDup L.*2 -> (t, k) ∈ L -> (k < length T)%nat -> write_all L T !! k = Some t.
Proof.
  revert T. induction L as [|[u j] L IH]; intros T Hnd Hin Hlt; [by apply elem_of_nil in Hin|].
  cbn in Hnd. apply NoDup_cons in Hnd as [Hj Hnd]. apply elem_of_cons in Hin as [[= -> ->]|Hin].
  - change (write_all L (<[j := u]> T) !! j = Some u). by rewrite write_all_other, list_lookup_insert_eq.
  - apply (IH (<[j := u]> T)); [done..|]. by rewrite length_insert.
Qed.
Lemma note_all_other L idx txid : txid ∉ ids L.*1 -> note_all L idx !! txid = idx !! txid.
Proof.
  unfold note_all. revert idx. induction L as [|[t j] L IH]; intros idx Hk; cbn [fold_left]; [done|]. cbn in Hk.
  rewrite not_elem_of_cons in Hk. destruct Hk. by rewrite IH, lookup_insert_ne.
Qed.
Lemma note_all_at L idx t k : NoDup (ids L.*1) -> (t, k) ∈ L -> note_all L idx !! Transaction_ID t = Some (Z.of_nat k).
Proof.
  revert idx. induction L as [|[u j] L IH]; intros idx Hnd Hin; [by apply elem_of_nil in Hin|].
  cbn in Hnd. apply NoDup_cons in Hnd as [Hj Hnd]. apply elem_of_cons in Hin as [[= -> ->]|Hin].
  - change (note_all L (<[Transaction_ID u := Z.of_nat j]> idx) !! Transaction_ID u = Some (Z.of_nat j)).
    by rewrite note_all_other, lookup_insert_eq.
  - by apply (IH (<[Transaction_ID u := Z.of_nat j]> idx)).
Qed.

(** The loop of [fixSplitSetOrdering] writes them all: where it does nothing,
    the transaction is in its place. *)
Lemma fix_loop_run L : forall m, NoDup L.*2 -> NoDup (ids L.*1) ->
  (forall t k, (t, k) ∈ L -> (k < length (unsolved m))%nat /\
    exists j, m_unsolvedBlockIndex m !! Transaction_ID t = Some (Z.of_nat j) /\
    (j = k -> unsolved m !! k = Some t)) ->
  for_each put_in_place ((fun '(t, k) => (t, Z.of_nat k)) <$> L) m =
  Ret () (set_block (write_all L (unsolved m)) (note_all L (m_unsolvedBlockIndex m)) m).
Proof.
  induction L as [|[t k] L IH]; intros m Hnd Hid HL; cbn [fmap list_fmap for_each].
  { change (Ret () m = Ret () (set_block (unsolved m) (m_unsolvedBlockIndex m) m)). by rewrite set_block_id. }
  cbn in Hnd, Hid. apply NoDup_cons in Hnd as [Hk Hnd]. apply NoDup_cons in Hid as [Ht Hid].
  destruct (HL t k) as (Hlt & j & Hj & Hjk); [by left|].
  assert (Hstep : exists m1, m1 = set_block (<[k := t]> (unsolved m)) (<[Transaction_ID t := Z.of_nat k]> (m_unsolvedBlockIndex m)) m /\
    put_in_place (t, Z.of_nat k) m = Ret () m1).
  { eexists. split; [reflexivity|]. unfold put_in_place, mbind at 1, M_bind at 1, get. rewrite Hj.
    cbn [default from_option id]. destruct (Z.eqb_spec (Z.of_nat j) (Z.of_nat k)) as [Heq|Hne]; cbn [negb].
    - assert (j = k) as -> by lia. rewrite list_insert_id, insert_id by auto. by rewrite set_block_id.
    - unfold set_txn, mbind, M_bind, get. destruct (Z.leb_spec 0 (Z.of_nat k)); [|lia]. unfold zlen.
      destruct (Z.ltb_spec (Z.of_nat k) (Z.of_nat (length (unsolved m)))); [|lia]. cbn [andb]. unfold modify.
      by rewrite Nat2Z.id. }
  destruct Hstep as (m1 & Hm1 & Hrun). unfold mbind at 1, M_bind at 1. rewrite Hrun.
  rewrite (IH m1 Hnd Hid), Hm1; [done|]. intros u i Hin. destruct (HL u i) as (Hlt' & j' & Hj' & Hjk'); [by right|].
  assert (Hu1 : unsolved m1 = <[k := t]> (unsolved m)) by (by rewrite Hm1).
  assert (Hi1 : m_unsolvedBlockIndex m1 = <[Transaction_ID t := Z.of_nat k]> (m_unsolvedBlockIndex m)) by (by rewrite Hm1).
  rewrite Hu1, Hi1, length_insert. split; [done|]. exists j'.
  rewrite lookup_insert_ne by (intros Heq; apply Ht; rewrite Heq;
    apply list_elem_of_fmap_2, (list_elem_of_fmap_2 fst _ _ Hin)).
  split; [done|]. intros ->. rewrite list_lookup_insert_ne; [auto|].
  intros ->. apply Hk. apply (list_elem_of_fmap_2 snd _ _ Hin).
Qed.

(** The sorted indices are the positions of the set. *)
Lemma sorted_indices T idx Y : indexed T idx -> NoDup (ids Y) -> (forall t, t ∈ Y -> t ∈ T) ->
  merge_sort Z.le ((fun txID => default 0 (idx !! txID)) <$> ids Y) = Z.of_nat <$> positions 0 Y T.
Proof.
  intros H HY Hsub. pose proof (indexed_NoDup _ _ H) as Hnd.
  apply (Sorted_unique Z.le).
  - apply Sorted_merge_sort. intros x y. lia.
  - apply StronglySorted_Sorted, (StronglySorted_fmap Z.of_nat lt); [intros; lia|apply positions_sorted].
  - rewrite merge_sort_Permutation. apply NoDup_Permutation.
    + apply NoDup_fmap_2_strong; [|done].
      intros x y (t & -> & Ht)%list_elem_of_fmap (u & -> & Hu)%list_elem_of_fmap Heq.
      apply Hsub, list_elem_of_lookup in Ht as [j Hj], Hu as [k Hk].
      rewrite (ix_at _ _ H _ _ Hj), (ix_at _ _ H _ _ Hk) in Heq. cbn in Heq. assert (j = k) by lia. congruence.
    + apply (NoDup_fmap_2 Z.of_nat), positions_NoDup.
    + intros z. rewrite !list_elem_of_fmap. split.
      * intros (txid & -> & (t & -> & Ht)%list_elem_of_fmap). pose proof Ht as [k Hk]%Hsub%list_elem_of_lookup.
        exists k. rewrite (ix_at _ _ H _ _ Hk). split; [done|]. apply elem_of_positions. split; [lia|]. exists t.
        rewrite Nat.sub_0_r. split; [done|by apply list_elem_of_fmap_2].
      * intros (k & -> & (_ & t & Hk & Hid)%elem_of_positions). rewrite Nat.sub_0_r in Hk. exists (Transaction_ID t).
        by rewrite (ix_at _ _ H _ _ Hk).
Qed.

Lemma zip_places (Y : list Transaction) P : zip Y (Z.of_nat <$> P) = (fun '(t, k) => (t, Z.of_nat k)) <$> zip Y P.
Proof. revert P. induction Y as [|y Y IH]; intros [|k P]; try done. cbn. f_equal. apply IH. Qed.

(** Writing a set to its positions puts it in order and moves nothing else. *)
(** The transactions [Y] of a set, written to the places where they are. *)
Section written.
Context (T Y : list Transaction) (idx : gmap TransactionID Z) (H : indexed T idx) (HY : NoDup (ids Y)).
Context (Hsub : forall t, t ∈ Y -> t ∈ T) (Hlen : length (positions 0 Y T) = length Y).
Abbreviation P := (positions 0 Y T).
Abbreviation L := (zip Y P).
Abbreviation T' := (write_all L T).

Lemma zip_txns : L.*1 = Y.
Proof. apply fst_zip. lia. Qed.
Lemma zip_positions : L.*2 = P.
Proof. apply snd_zip. lia. Qed.
Lemma position_lt k : k ∈ P -> (k < length T)%nat.
Proof. intros (_ & t & Ht & _)%elem_of_positions. rewrite Nat.sub_0_r in Ht. by eapply lookup_lt_Some. Qed.

Lemma written_at t k : (t, k) ∈ L -> T' !! k = Some t.
Proof.
  intros Hx. apply write_all_at; [rewrite zip_positions; apply positions_NoDup|done|].
  apply position_lt. rewrite <- zip_positions. apply (list_elem_of_fmap_2 snd _ _ Hx).
Qed.

Lemma written_in k : k ∈ P -> exists t, t ∈ Y /\ T' !! k = Some t /\
  note_all L idx !! Transaction_ID t = Some (Z.of_nat k).
Proof.
  intros Hk. rewrite <- zip_positions in Hk. apply list_elem_of_fmap in Hk as ([t j] & -> & Ht). exists t. split_and!.
  - rewrite <- zip_txns. apply (list_elem_of_fmap_2 fst _ _ Ht).
  - by apply written_at.
  - apply note_all_at; [by rewrite zip_txns|done].
Qed.

(** At every place there is the same transaction as before, or one of [Y] for
    one of [Y]. *)
Lemma written_same k t t' : T !! k = Some t -> T' !! k = Some t' ->
  t = t' \/ (Transaction_ID t ∈ ids Y) /\ (Transaction_ID t' ∈ ids Y).
Proof.
  intros Ht Ht'. destruct (decide (k ∈ P)) as [Hk|Hk].
  - right. destruct (written_in k Hk) as (t2 & HY2 & Ht2 & _). apply elem_of_positions in Hk as (_ & t1 & Ht1 & Hid).
    rewrite Nat.sub_0_r in Ht1. simplify_eq. split; [done|by apply list_elem_of_fmap_2].
  - left. rewrite write_all_other in Ht' by (by rewrite zip_positions). congruence.
Qed.

Lemma omap_lookup_zip (l : list (Transaction * nat)) (U : list Transaction) :
  (forall x, x ∈ l -> U !! x.2 = Some x.1) -> omap (fun k => U !! (k - 0)%nat) l.*2 = l.*1.
Proof.
  induction l as [|[t k] l IH]; intros Hall; [done|].
  cbn [fmap list_fmap omap list_omap]. rewrite Nat.sub_0_r, (Hall (t, k)) by (by left). cbn. f_equal.
  apply IH. intros x Hx. apply Hall. by right.
Qed.

Lemma written_picked : picked Y T' = Y.
Proof.
  rewrite (picked_positions 0), (positions_ext 0 Y T T').
  - etrans; [|apply zip_txns]. rewrite <- (omap_lookup_zip L T'); [by rewrite zip_positions|]. intros [t k].
    apply written_at.
  - apply write_all_length.
  - intros k t t' Ht Ht'. destruct (written_same k t t' Ht Ht') as [->|[? ?]]; tauto.
Qed.

Lemma written_others X : (forall t, t ∈ Y -> Transaction_ID t ∉ ids X) -> picked X T' = picked X T.
Proof.
  intros HX. unfold picked. apply filter_ext_at; [apply write_all_length|]. intros k t t' Ht Ht'.
  assert (HX' : forall u, Transaction_ID u ∈ ids Y -> Transaction_ID u ∉ ids X)
    by (intros u (y & -> & Hy)%list_elem_of_fmap; auto).
  destruct (written_same k t t' Ht Ht') as [->|[? ?]]; [by left|right; split; auto].
Qed.

Lemma written_perm : T' ≡ₚ T.
Proof.
  etrans; [symmetry; apply (filter_app_complement (fun t => Transaction_ID t ∈ ids Y))|].
  etrans; [|apply (filter_app_complement (fun t => Transaction_ID t ∈ ids Y))].
  change (filter (fun t => Transaction_ID t ∈ ids Y) T') with (picked Y T').
  change (filter (fun t => Transaction_ID t ∈ ids Y) T) with (picked Y T).
  rewrite written_picked, (picked_perm Y T) by (done || by eapply indexed_NoDup). f_equiv.
  rewrite (filter_ext_at (fun t => Transaction_ID t ∉ ids Y) T T'); [done|apply write_all_length|].
  intros k t t' Ht Ht'. destruct (written_same k t t' Ht Ht') as [->|[? ?]]; [by left|right; tauto].
Qed.

Lemma written_indexed : indexed T' (note_all L idx).
Proof.
  split.
  - intros k t Hk. destruct (decide (k ∈ P)) as [HkP|HkP].
    + destruct (written_in k HkP) as (t' & _ & Ht' & Hn). by simplify_eq.
    + rewrite write_all_other in Hk by (by rewrite zip_positions). rewrite note_all_other; [by apply (ix_at _ _ H)|].
      rewrite zip_txns. intros Hid. apply HkP, elem_of_positions. rewrite Nat.sub_0_r. split; [lia|eauto].
  - intros txid i Hi. rewrite written_perm. destruct (decide (txid ∈ ids Y)) as [Hid|Hid].
    + apply list_elem_of_fmap in Hid as (t & -> & Ht). apply list_elem_of_fmap_2. auto.
    + rewrite note_all_other in Hi by (by rewrite zip_txns). by eapply (ix_dom _ _ H).
Qed.

Lemma write_positions : indexed T' (note_all L idx) /\ T' ≡ₚ T /\ picked Y T' = Y /\
  forall X, (forall t, t ∈ Y -> Transaction_ID t ∉ ids X) -> picked X T' = picked X T.
Proof. split_and!; [exact written_indexed|exact written_perm|exact written_picked|exact written_others]. Qed.
End written.

Lemma fix_run m id set : let Y := sp_transactions set in
  indexed (unsolved m) (m_unsolvedBlockIndex m) -> m_splitSets m !! id = Some set -> NoDup (ids Y) ->
  (forall t, t ∈ Y -> t ∈ unsolved m) ->
  exists T' idx', fixSplitSetOrdering id m = Ret () (set_block T' idx' m) /\ indexed T' idx' /\ T' ≡ₚ unsolved m /\
    picked Y T' = Y /\ forall X, (forall t, t ∈ Y -> Transaction_ID t ∉ ids X) -> picked X T' = picked X (unsolved m).
Proof.
  intros Y H Hset HY Hsub. pose proof (indexed_NoDup _ _ H) as Hnd. pose proof (picked_perm Y _ HY Hnd Hsub) as Hpp.
  unfold fixSplitSetOrdering, mbind, M_bind, get. rewrite Hset. fold Y. unfold zlen.
  destruct (Z.ltb_spec (Z.of_nat (length Y)) 2) as [Hlt|Hge].
  { exists (unsolved m), (m_unsolvedBlockIndex m). rewrite set_block_id. split_and!; try done.
    destruct Y as [|y [|]]; [by apply Permutation_nil_r|by apply Permutation_singleton_r|cbn in Hlt; lia]. }
  rewrite (sorted_indices (unsolved m)) by done.
  assert (Hlen : length (positions 0 Y (unsolved m)) = length Y).
  { rewrite <- (length_fmap Z.of_nat), <- (sorted_indices _ (m_unsolvedBlockIndex m)) by done.
    by rewrite merge_sort_Permutation, !length_fmap. }
  destruct (write_positions (unsolved m) Y (m_unsolvedBlockIndex m) H HY Hsub Hlen) as (H1 & H2 & H3 & H4).
  set (L := zip Y (positions 0 Y (unsolved m))) in *.
  exists (write_all L (unsolved m)), (note_all L (m_unsolvedBlockIndex m)).
  split_and!; [|done..].
  assert (HL1 : L.*1 = Y) by (apply fst_zip; lia).
  assert (HL2 : L.*2 = positions 0 Y (unsolved m)) by (apply snd_zip; lia).
  replace (zip Y (Z.of_nat <$> positions 0 Y (unsolved m))) with ((fun '(t, k) => (t, Z.of_nat k)) <$> L).
  - apply fix_loop_run; [rewrite HL2; apply positions_NoDup|by rewrite HL1|]. intros t k Htk.
    assert (Ht : t ∈ Y) by (rewrite <- HL1; apply (list_elem_of_fmap_2 fst _ _ Htk)).
    assert (Hk : k ∈ positions 0 Y (unsolved m)) by (rewrite <- HL2; apply (list_elem_of_fmap_2 snd _ _ Htk)).
    apply elem_of_positions in Hk as (_ & u & Hu & _). rewrite Nat.sub_0_r in Hu. split; [by eapply lookup_lt_Some|].
    pose proof Ht as [j Hj]%Hsub%list_elem_of_lookup. exists j. split; [by apply (ix_at _ _ H)|by intros <-].
  - symmetry. apply zip_places.
Qed.

(** ** The sets of a block *)

Definition txns_of (bs : gmap splitSetID splitSet) : list Transaction := map_to_list bs ≫= (fun x => sp_transactions x.2).

(** The transactions [T] with their index are those of the sets [bs], each set
    in its order. *)
Record holds (bs : gmap splitSetID splitSet) (T : list Transaction) (idx : gmap TransactionID Z) : Prop := mkHolds {
  hd_index : indexed T idx;
  hd_txns : T ≡ₚ txns_of bs;
  hd_order id set : bs !! id = Some set -> picked (sp_transactions set) T = sp_transactions set
}.

(** The sets the miner knows are found by the IDs of their transactions. *)
Record named (splits : gmap splitSetID splitSet) (setIDs : gmap TransactionID splitSetID) : Prop := mkNamed {
  nm_id id set t : splits !! id = Some set -> t ∈ sp_transactions set -> setIDs !! Transaction_ID t = Some id;
  nm_once id set : splits !! id = Some set -> NoDup (ids (sp_transactions set))
}.

Lemma elem_of_txns bs t : t ∈ txns_of bs <-> exists id set, bs !! id = Some set /\ t ∈ sp_transactions set.
Proof.
  unfold txns_of. rewrite list_elem_of_bind. split.
  - intros ([id set] & Ht & Hin%elem_of_map_to_list). eauto.
  - intros (id & set & Hid & Ht). exists (id, set). split; [done|by apply elem_of_map_to_list].
Qed.

Lemma txns_insert bs id set : bs !! id = None -> txns_of (<[id := set]> bs) ≡ₚ sp_transactions set ++ txns_of bs.
Proof. intros H. unfold txns_of. rewrite (map_to_list_insert bs id set H). by rewrite bind_cons. Qed.
Lemma txns_delete bs id set : bs !! id = Some set -> txns_of bs ≡ₚ sp_transactions set ++ txns_of (delete id bs).
Proof. intros H. rewrite <- (insert_delete_id bs id set H) at 1. apply txns_insert, lookup_delete_eq. Qed.

Lemma named_disjoint splits setIDs id1 id2 set1 set2 t : named splits setIDs -> splits !! id1 = Some set1 ->
  splits !! id2 = Some set2 ->
  t ∈ sp_transactions set1 -> Transaction_ID t ∈ ids (sp_transactions set2) -> id1 = id2.
Proof.
  intros Hn H1 H2 Ht (u & Heq & Hu)%list_elem_of_fmap.
  pose proof (nm_id _ _ Hn _ _ _ H1 Ht) as E1. pose proof (nm_id _ _ Hn _ _ _ H2 Hu) as E2. rewrite Heq in E1.
  congruence.
Qed.

(** The loop that fixes the sets of the transactions [R]. *)
Lemma fix_sets_run bs gone R : forall i fixed m, gone ∉ dom bs -> bs ⊆ m_splitSets m ->
  named (m_splitSets m) (m_splitSetIDFromTxID m) ->
  indexed (unsolved m) (m_unsolvedBlockIndex m) -> (forall t, t ∈ txns_of bs -> t ∈ unsolved m) ->
  (forall txid, txid ∈ R -> m_splitSetIDFromTxID m !! txid = Some gone \/
    exists id' set, bs !! id' = Some set /\ m_splitSetIDFromTxID m !! txid = Some id') ->
  (forall id' set, bs !! id' = Some set -> picked (sp_transactions set) (unsolved m) = sp_transactions set \/
    (id' ∉ fixed) /\ exists txid, (txid ∈ R) /\ m_splitSetIDFromTxID m !! txid = Some id') ->
  exists T' idx' fixed', for_fold (fix_swapped gone) i R fixed m = Ret fixed' (set_block T' idx' m) /\
    indexed T' idx' /\ T' ≡ₚ unsolved m /\
      (forall id' set, bs !! id' = Some set -> picked (sp_transactions set) T' = sp_transactions set).
Proof.
  induction R as [|txid R IH]; intros i fixed m Hid Hsub Hn Hix Hin HR Hord.
  { exists (unsolved m), (m_unsolvedBlockIndex m), fixed. rewrite set_block_id. split_and!; try done. intros id' set Hs.
    destruct (Hord id' set Hs) as [?|(_ & ? & Hx & _)]; [done|]. by apply elem_of_nil in Hx. }
  rewrite for_fold_cons. unfold fix_swapped at 1, mbind at 1, M_bind at 1, get.
  destruct (HR txid) as [Hown|(id0 & set0 & Hs0 & Hown)]; [by left| |]; rewrite Hown; cbn [default from_option id].
  - rewrite (bool_decide_true (gone = gone)) by done. rewrite orb_true_r. unfold mret at 1, M_ret at 1.
    apply IH; [done..|intros x Hx; apply HR; by right|]. intros id' set Hs.
    destruct (Hord id' set Hs) as [?|(Hf & x & Hx & Hx')]; [by left|].
    right. split; [done|]. exists x. split; [|done]. apply elem_of_cons in Hx as [->|?]; [|done].
    destruct Hid. apply elem_of_dom. assert (id' = gone) as <- by congruence. eauto.
  - assert (Hne : id0 <> gone) by (intros ->; apply Hid, elem_of_dom; eauto).
    rewrite (bool_decide_false (id0 = gone)), orb_false_r by done.
    case_bool_decide as Hfix.
    + unfold mret at 1, M_ret at 1. apply IH; [done..|intros x Hx; apply HR; by right|]. intros id' set Hs.
      destruct (Hord id' set Hs) as [?|(Hf & x & Hx & Hx')]; [by left|]. right. split; [done|]. exists x.
      split; [|done].
      apply elem_of_cons in Hx as [->|?]; [|done]. by assert (id' = id0) as -> by congruence.
    + assert (Hsp : m_splitSets m !! id0 = Some set0) by (by eapply lookup_weaken).
      destruct (fix_run m id0 set0 Hix Hsp (nm_once _ _ Hn _ _ Hsp)) as (T1 & idx1 & Hrun & Hix1 & Hp1 & Hpk & Hoth).
      { intros t Ht. apply Hin, elem_of_txns. eauto. }
      unfold mbind at 1, M_bind at 1. rewrite Hrun. unfold mret at 1, M_ret at 1.
      destruct (IH (i + 1) ({[id0]} ∪ fixed) (set_block T1 idx1 m)) as (T' & idx' & fixed' & Hrun' & Hix' & Hp' & Hord'); [done..| | | |].
      * intros t Ht. change (t ∈ T1). rewrite Hp1. auto.
      * intros x Hx. apply HR. by right.
      * intros id' set Hs. change (unsolved (set_block T1 idx1 m)) with T1. destruct (decide (id' = id0)) as [->|Hne'].
        { left. by simplify_eq. }
        assert (Hs' : m_splitSets m !! id' = Some set) by (by eapply lookup_weaken).
        rewrite Hoth by (intros t Ht Ht'; apply Hne'; symmetry; by eapply named_disjoint).
        destruct (Hord id' set Hs) as [?|(Hf & x & Hx & Hx')]; [by left|]. right. split; [set_solver|].
        exists x. split; [|done]. apply elem_of_cons in Hx as [->|?]; [|done]. congruence.
      * exists T', idx', fixed'. split_and!; try done. by rewrite Hp'.
Qed.

Section range.
Context (range : list TransactionID -> list TransactionID) (Hrange : forall l, range l ≡ₚ l).

(** Removing a set from the block. *)
Lemma removeSplitSet_run m bs gone set : holds bs (unsolved m) (m_unsolvedBlockIndex m) -> bs ⊆ m_splitSets m ->
  named (m_splitSets m) (m_splitSetIDFromTxID m) -> bs !! gone = Some set ->
  exists T' idx', removeSplitSetFromUnsolvedBlock range gone m = Ret () (set_block T' idx' m) /\
    holds (delete gone bs) T' idx'.
Proof.
  intros [Hix Htx Hord] Hsub Hn Hset. assert (Hsp : m_splitSets m !! gone = Some set) by (by eapply lookup_weaken).
  set (S := sp_transactions set).
  destruct (remove_all_run S 0 ∅ m Hix) as (T1 & idx1 & W & Hrun & Hix1 & Hp1 & _ & HW & Hpk);
    [by apply (nm_once _ _ Hn gone)| |].
  { intros x Hx. rewrite Htx. apply elem_of_txns. eauto. }
  assert (HT1 : T1 ≡ₚ txns_of (delete gone bs)) by (apply (Permutation_app_inv_l S);
    by rewrite <- Hp1, Htx, (txns_delete bs gone set)).
  assert (Howner : forall txid, txid ∈ ids (unsolved m) -> exists id' set', bs !! id' = Some set' /\
    m_splitSetIDFromTxID m !! txid = Some id').
  { intros txid (t & -> & Ht)%list_elem_of_fmap. rewrite Htx in Ht. apply elem_of_txns in Ht as (id' & set' & Hid & Ht).
    exists id', set'. split; [done|]. eapply (nm_id _ _ Hn); [by eapply lookup_weaken|done]. }
  destruct (fix_sets_run (delete gone bs) gone (range (elements W)) 0 ∅ (set_block T1 idx1 m)) as (T' & idx' & fixed & Hrun' & Hix' & Hp' & Hord').
  - rewrite dom_delete_L. set_solver.
  - etrans; [apply delete_subseteq|done].
  - done.
  - done.
  - intros t Ht. change (t ∈ T1). by rewrite HT1.
  - intros txid Htx'. rewrite Hrange, elem_of_elements in Htx'.
    destruct (HW txid Htx') as [?%elem_of_empty|Hin]; [done|].
    destruct (Howner txid Hin) as (id' & set' & Hid & Ho). destruct (decide (id' = gone)) as [->|Hne]; [by left|].
    right. exists id', set'. split; [by rewrite lookup_delete_ne|done].
  - intros id' set' [Hne Hid]%lookup_delete_Some. change (unsolved (set_block T1 idx1 m)) with T1.
    destruct (decide (exists txid, txid ∈ W /\ m_splitSetIDFromTxID m !! txid = Some id')) as [(x & Hx & Hx')|Hno].
    + right. split; [set_solver|]. exists x. by rewrite Hrange, elem_of_elements.
    + left. rewrite Hpk; [by apply (Hord id')| |].
      * intros x Hx Hx'. apply Hne. eapply named_disjoint; [done| | |exact Hx|exact Hx']; by eapply lookup_weaken.
      * intros txid HtW (t & -> & Ht)%list_elem_of_fmap. apply Hno. exists (Transaction_ID t). split; [done|].
        eapply (nm_id _ _ Hn); [by eapply lookup_weaken|done].
  - exists T', idx'. split.
    + unfold removeSplitSetFromUnsolvedBlock, mbind at 1, M_bind at 1, get. rewrite Hsp.
      unfold mbind at 1, M_bind at 1. fold S.
      rewrite Hrun. unfold mbind at 1, M_bind at 1. by rewrite Hrun'.
    + split; [done|etrans; [exact Hp'|exact HT1]|done].
Qed.
End range.

(** Appending a set to the block. *)
Abbreviation append_txn := (fun txn => modify (fun m =>
  set_unsolved (unsolved m ++ [txn]) (with_blockIndex <[Transaction_ID txn := zlen (unsolved m)]> m))).

Lemma append_run S : forall m, indexed (unsolved m) (m_unsolvedBlockIndex m) -> NoDup (ids S) ->
  (forall t, t ∈ S -> Transaction_ID t ∉ ids (unsolved m)) ->
  exists idx', for_each append_txn S m = Ret () (set_block (unsolved m ++ S) idx' m) /\ indexed (unsolved m ++ S) idx'.
Proof.
  induction S as [|x S IH]; intros m Hix Hnd Hfresh.
  { exists (m_unsolvedBlockIndex m). rewrite app_nil_r, set_block_id. done. }
  rewrite fmap_cons, NoDup_cons in Hnd. destruct Hnd as [Hx Hnd].
  set (m1 := set_block (unsolved m ++ [x]) (<[Transaction_ID x := zlen (unsolved m)]> (m_unsolvedBlockIndex m)) m).
  assert (Hix1 : indexed (unsolved m1) (m_unsolvedBlockIndex m1)).
  { change (indexed (unsolved m ++ [x]) (<[Transaction_ID x := zlen (unsolved m)]> (m_unsolvedBlockIndex m))). split.
    - intros k t [Hk|[Hl Hk]]%lookup_app_Some.
      + rewrite lookup_insert_ne; [by apply (ix_at _ _ Hix)|]. intros Heq. apply (Hfresh x); [by left|]. rewrite Heq.
        apply list_elem_of_fmap_2. by eapply list_elem_of_lookup_2.
      + apply list_lookup_singleton_Some in Hk as [Hk ->]. rewrite lookup_insert_eq. unfold zlen. f_equal. lia.
    - intros txid j Hj. rewrite fmap_app, elem_of_app.
      apply lookup_insert_Some in Hj as [[<- _]|[_ Hj]]; [right; by left|].
      left. by eapply (ix_dom _ _ Hix). }
  destruct (IH m1 Hix1 Hnd) as (idx' & Hrun & Hix').
  { intros t Ht. change (Transaction_ID t ∉ ids (unsolved m ++ [x])). rewrite fmap_app, not_elem_of_app.
    split; [apply Hfresh; by right|].
    intros Heq%list_elem_of_singleton. apply Hx. rewrite <- Heq. by apply list_elem_of_fmap_2. }
  exists idx'. change (unsolved m1) with (unsolved m ++ [x]) in *. rewrite <- app_assoc in Hrun, Hix'.
  split; [exact Hrun|done].
Qed.

Lemma holds_append bs T idx id set idx' : holds bs T idx -> bs !! id = None -> NoDup (ids (sp_transactions set)) ->
  (forall t, t ∈ sp_transactions set -> Transaction_ID t ∉ ids T) -> indexed (T ++ sp_transactions set) idx' ->
  holds (<[id := set]> bs) (T ++ sp_transactions set) idx'.
Proof.
  intros [Hix Htx Hord] Hid Hnd Hfresh Hix'. pose proof (indexed_NoDup _ _ Hix') as Hnd'. split; [done| |].
  - by rewrite (txns_insert bs id set Hid), Htx, Permutation_app_comm.
  - intros id' set' [[<- <-]|[Hne Hs]]%lookup_insert_Some; rewrite picked_app.
    + rewrite picked_self, picked_none; [done|]. intros t Ht (u & Heq & Hu)%list_elem_of_fmap.
      apply (Hfresh u Hu). rewrite <- Heq. by apply list_elem_of_fmap_2.
    + rewrite (Hord id' set' Hs), picked_none; [by rewrite app_nil_r|]. intros t Ht (u & Heq & Hu)%list_elem_of_fmap.
      apply (Hfresh t Ht). rewrite Heq. apply list_elem_of_fmap_2. rewrite Htx. apply elem_of_txns. eauto.
Qed.
End positions.

(** ** Where the sets are *)

(** The sets [splits] are those of two heaps with the elements [d1] and [d2] and
    the contents [c1] and [c2], and those of the elements [out]. *)
Record accounted (parts : gmap elemPtr (splitSet * splitSetID)) (splits : gmap splitSetID splitSet) (out : list elemPtr)
    (d1 : list elemPtr) (c1 : gmap splitSetID splitSet) (d2 : list elemPtr) (c2 : gmap splitSetID splitSet) : Prop := mkAccounted {
  ac_ptrs : NoDup (out ++ d1 ++ d2);
  ac_out p : p ∈ out -> exists id set, parts !! p = Some (set, id) /\ splits !! id = Some set /\ c1 !! id = None /\
    c2 !! id = None;
  ac_inj p q set1 set2 id : p ∈ out -> q ∈ out -> parts !! p = Some (set1, id) -> parts !! q = Some (set2, id) -> p = q;
  ac_disj : c1 ##ₘ c2;
  ac_in1 : c1 ⊆ splits;
  ac_in2 : c2 ⊆ splits;
  ac_where id set : splits !! id = Some set -> c1 !! id = Some set \/ c2 !! id = Some set \/ exists p, (p ∈ out) /\
    parts !! p = Some (set, id)
}.

Section accounted.
Context (parts : gmap elemPtr (splitSet * splitSetID)).

Lemma ac_sym splits out d1 c1 d2 c2 : accounted parts splits out d1 c1 d2 c2 -> accounted parts splits out d2 c2 d1 c1.
Proof.
  intros [A1 A2 A3 A4 A5 A6 A7]. split; try done.
  - by rewrite (Permutation_app_comm d2).
  - intros p Hp. destruct (A2 p Hp) as (id & set & ? & ? & ? & ?). eauto 10.
  - intros id set Hs. destruct (A7 id set Hs) as [?|[?|?]]; tauto.
Qed.

Lemma ac_perm splits out out' d1 c1 d2 c2 : out ≡ₚ out' -> accounted parts splits out d1 c1 d2 c2 ->
  accounted parts splits out' d1 c1 d2 c2.
Proof.
  intros Hp [A1 A2 A3 A4 A5 A6 A7]. split; try done.
  - by rewrite <- Hp.
  - intros p. rewrite <- Hp. apply A2.
  - intros p q set1 set2 id. rewrite <- !Hp. apply A3.
  - intros id set Hs. destruct (A7 id set Hs) as [?|[?|(p & Hin & ?)]]; [tauto..|]. right. right. exists p.
    by rewrite <- Hp.
Qed.

Lemma ac_push splits p out d1 d1' c1 d2 c2 id set : accounted parts splits (p :: out) d1 c1 d2 c2 ->
  parts !! p = Some (set, id) ->
  d1' ≡ₚ p :: d1 -> accounted parts splits out d1' (<[id := set]> c1) d2 c2.
Proof.
  intros [A1 A2 A3 A4 A5 A6 A7] Hp Hd. destruct (A2 p) as (id' & set' & Hp' & Hs & H1 & H2); [by left|].
  rewrite Hp in Hp'. injection Hp' as <- <-.
  assert (Hne : forall q set0 id0, q ∈ out -> parts !! q = Some (set0, id0) -> id0 <> id).
  { intros q set0 id0 Hq Hq' ->. assert (p = q) as -> by (eapply A3; [by left|by right|done|done]).
    cbn [app] in A1. apply NoDup_cons in A1 as [Hn _]. apply Hn, elem_of_app. by left. }
  split.
  - rewrite Hd. cbn [app]. rewrite <- Permutation_middle. exact A1.
  - intros q Hq. destruct (A2 q) as (id0 & set0 & Hq1 & Hq2 & Hq3 & Hq4); [by right|]. exists id0, set0.
    split_and!; [done..| |done].
    rewrite lookup_insert_ne; [done|]. intros Heq. by eapply (Hne q set0 id0).
  - intros q1 q2 s1 s2 id0 H1' H2'. apply A3; by right.
  - by apply map_disjoint_insert_l_2.
  - by apply insert_subseteq_l.
  - done.
  - intros id0 set0 Hs0. destruct (decide (id0 = id)) as [->|Hne0]; [left; rewrite lookup_insert_eq; congruence|].
    rewrite lookup_insert_ne by done. destruct (A7 id0 set0 Hs0) as [?|[?|(q & Hq & Hq')]]; [tauto..|]. right. right.
    exists q.
    split; [|done]. apply elem_of_cons in Hq as [->|?]; [|done]. congruence.
Qed.

Lemma ac_take splits p out d1 d1' c1 d2 c2 id set : accounted parts splits out d1 c1 d2 c2 ->
  parts !! p = Some (set, id) ->
  d1 ≡ₚ p :: d1' -> c1 !! id = Some set -> accounted parts splits (p :: out) d1' (delete id c1) d2 c2.
Proof.
  intros [A1 A2 A3 A4 A5 A6 A7] Hp Hd Hc.
  assert (Hne : forall q set0 id0, q ∈ out -> parts !! q = Some (set0, id0) -> id0 <> id).
  { intros q set0 id0 Hq Hq' ->. destruct (A2 q Hq) as (? & ? & ? & _ & ? & _). simplify_eq. }
  split.
  - rewrite Hd in A1. cbn [app] in A1 |- *. by rewrite Permutation_middle.
  - intros q [->|Hq]%elem_of_cons.
    + exists id, set. split_and!; [done|by eapply lookup_weaken|by rewrite lookup_delete_eq|
        by eapply map_disjoint_Some_l].
    + destruct (A2 q Hq) as (id0 & set0 & Hq1 & Hq2 & Hq3 & Hq4). exists id0, set0. split_and!; [done..| |done].
      by apply lookup_delete_None; right.
  - intros q1 q2 s1 s2 id0 [->|H1]%elem_of_cons [->|H2]%elem_of_cons Hq1 Hq2; [done| | |by eapply A3]; exfalso.
    + simplify_eq. by eapply (Hne q2).
    + simplify_eq. by eapply (Hne q1).
  - by apply map_disjoint_delete_l.
  - etrans; [apply delete_subseteq|done].
  - done.
  - intros id0 set0 Hs0. destruct (decide (id0 = id)) as [->|Hne0].
    + right. right. exists p. split; [by left|]. assert (splits !! id = Some set) by (by eapply lookup_weaken).
      congruence.
    + rewrite lookup_delete_ne by done. destruct (A7 id0 set0 Hs0) as [?|[?|(q & Hq & Hq')]]; [tauto..|]. right. right.
      exists q.
      split; [by right|done].
Qed.

Lemma ac_forget splits p out d1 c1 d2 c2 id set : accounted parts splits (p :: out) d1 c1 d2 c2 ->
  parts !! p = Some (set, id) ->
  accounted parts (delete id splits) out d1 c1 d2 c2.
Proof.
  intros [A1 A2 A3 A4 A5 A6 A7] Hp. destruct (A2 p) as (id' & set' & Hp' & Hs & H1 & H2); [by left|].
  rewrite Hp in Hp'. injection Hp' as <- <-.
  cbn [app] in A1. apply NoDup_cons in A1 as [Hn A1].
  assert (Hne : forall q set0 id0, q ∈ out -> parts !! q = Some (set0, id0) -> id0 <> id).
  { intros q set0 id0 Hq Hq' ->. assert (p = q) as -> by (eapply A3; [by left|by right|done|done]).
    apply Hn, elem_of_app. by left. }
  split; try done.
  - intros q Hq. destruct (A2 q) as (id0 & set0 & Hq1 & Hq2 & Hq3 & Hq4); [by right|]. exists id0, set0.
    split_and!; try done.
    rewrite lookup_delete_ne; [done|]. intros Heq. by eapply (Hne q set0 id0).
  - intros q1 q2 s1 s2 id0 H1' H2'. apply A3; by right.
  - rewrite <- (delete_id c1 id) by done. by apply delete_mono.
  - rewrite <- (delete_id c2 id) by done. by apply delete_mono.
  - intros id0 set0 [Hne0 Hs0]%lookup_delete_Some. destruct (A7 id0 set0 Hs0) as [?|[?|(q & Hq & Hq')]]; [tauto..|].
    right. right. exists q.
    split; [|done]. apply elem_of_cons in Hq as [->|?]; [|done]. congruence.
Qed.

Lemma ac_new splits p out d1 c1 d2 c2 id set : accounted parts splits out d1 c1 d2 c2 -> parts !! p = Some (set, id) ->
  p ∉ out ++ d1 ++ d2 -> splits !! id = None -> accounted parts (<[id := set]> splits) (p :: out) d1 c1 d2 c2.
Proof.
  intros [A1 A2 A3 A4 A5 A6 A7] Hp Hn Hs.
  assert (Hne : forall q set0 id0, q ∈ out -> parts !! q = Some (set0, id0) -> id0 <> id).
  { intros q set0 id0 Hq Hq' ->. destruct (A2 q Hq) as (? & ? & ? & ? & _). simplify_eq. }
  split.
  - cbn [app]. by apply NoDup_cons.
  - intros q [->|Hq]%elem_of_cons.
    + exists id, set. rewrite lookup_insert_eq. split_and!; [done|done| |]; by eapply lookup_weaken_None.
    + destruct (A2 q Hq) as (id0 & set0 & Hq1 & Hq2 & Hq3 & Hq4). exists id0, set0. split_and!; try done.
      rewrite lookup_insert_ne; [done|]. intros Heq. by eapply (Hne q set0 id0).
  - intros q1 q2 s1 s2 id0 [->|H1]%elem_of_cons [->|H2]%elem_of_cons Hq1 Hq2; [done| | |by eapply A3]; exfalso.
    + simplify_eq. by eapply (Hne q2).
    + simplify_eq. by eapply (Hne q1).
  - done.
  - by apply insert_subseteq_r; [eapply lookup_weaken_None|].
  - by apply insert_subseteq_r; [eapply lookup_weaken_None|].
  - intros id0 set0 [[<- <-]|[Hne0 Hs0]]%lookup_insert_Some; [right; right; exists p; split; [by left|done]|].
    destruct (A7 id0 set0 Hs0) as [?|[?|(q & Hq & Hq')]]; [tauto..|]. right. right. exists q. split; [by right|done].
Qed.
End accounted.

(** ** The heaps and the block *)

Section selects.
Context {B : Build} {P : Params} {C : Crypto} {E : SiaEncoding}.
Context (range : list TransactionID -> list TransactionID) (Hrange : forall l, range l ≡ₚ l).

Abbreviation ids X := (Transaction_ID <$> X).
Abbreviation in_block m := (contents (blockHeap m)).
Abbreviation in_overflow m := (contents (overflowHeap m)).
(** The set and the ID of an element. *)
Abbreviation part m p := (fixed_part <$> m_elems m !! p).

(** Every set the miner knows is in one of the heaps, or an element of [out]
    that is between them; the unsolved block holds the sets of the first heap. *)
Record selects_but (out : list elemPtr) (m : Miner) : Prop := mkSelectsBut {
  sb_block : heap_ok (blockHeap m);
  sb_min : mh_minHeap (m_blockMapHeap m) = true;
  sb_over : heap_ok (overflowHeap m);
  sb_max : mh_minHeap (m_overflowMapHeap m) = false;
  sb_account : accounted (fixed_part <$> m_elems m) (m_splitSets m) out
    (mh_data (m_blockMapHeap m)) (in_block m) (mh_data (m_overflowMapHeap m)) (in_overflow m);
  sb_holds : holds (in_block m) (unsolved m) (m_unsolvedBlockIndex m);
  sb_named : named (m_splitSets m) (m_splitSetIDFromTxID m)
}.

(** [m'] differs from [m] in the heaps and the transactions of the block. *)
Record rearranged (m m' : Miner) : Prop := mkRearranged {
  rg_fixed : fixed_part <$> m_elems m' = fixed_part <$> m_elems m;
  rg_mem : m_mem m' = m_mem m;
  rg_full : m_fullSets m' = m_fullSets m;
  rg_counter : m_setCounter m' = m_setCounter m;
  rg_splits : m_splitSets m' = m_splitSets m;
  rg_setIDs : m_splitSetIDFromTxID m' = m_splitSetIDFromTxID m;
  rg_persist : with_unsolved (with_txns []) (m_persist m') = with_unsolved (with_txns []) (m_persist m)
}.

Lemma rearranged_refl m : rearranged m m.
Proof. done. Qed.
Lemma rearranged_trans m1 m2 m3 : rearranged m1 m2 -> rearranged m2 m3 -> rearranged m1 m3.
Proof. intros [] []. split; congruence. Qed.
Lemma rearranged_part m m' p : rearranged m m' -> part m' p = part m p.
Proof. intros H. by rewrite <- !lookup_fmap, (rg_fixed _ _ H). Qed.

(** A heap does not notice changes of elements it does not hold. *)
Lemma heap_frame elems elems' h : (forall p, p ∈ mh_data h -> elems' !! p = elems !! p) ->
  heap_ok (mkHeapState elems h) ->
  heap_ok (mkHeapState elems' h) /\ contents (mkHeapState elems' h) = contents (mkHeapState elems h).
Proof.
  intros Hsame [[Hd Hsel] Ho Hs]. cbn [hs_elems hs_heap] in *.
  assert (Hat : forall i p, mh_data h !! i = Some p ->
    elems' !! p = elems !! p) by (intros i p Hi; by eapply Hsame, list_elem_of_lookup_2).
  assert (Hc : contents (mkHeapState elems' h) = contents (mkHeapState elems h)).
  { apply map_eq. intros id. unfold contents. cbn [hs_elems hs_heap]. rewrite !lookup_omap.
    destruct (mh_selectID h !! id) as [p|] eqn:Hp; [|done].
    cbn. destruct (Hsel id p Hp) as (i & e & Hi & _). by rewrite (Hat i p Hi). }
  split; [|done]. split.
  - split; cbn [hs_elems hs_heap].
    + intros i p Hi. rewrite (Hat i p Hi). by apply Hd.
    + intros id p Hp. destruct (Hsel id p Hp) as (i & e & Hi & He & Hid). exists i, e. by rewrite (Hat i p Hi).
  - intros k Hk. assert (Hkey : forall i, key (mkHeapState elems' h) i = key (mkHeapState elems h) i).
    { intros i. unfold key. cbn [hs_elems hs_heap]. destruct (mh_data h !! Z.to_nat i) as [p|] eqn:Hi; [|done].
      cbn [mbind option_bind]. by rewrite (Hat _ _ Hi). }
    rewrite !Hkey. by apply Ho.
  - by rewrite Hc.
Qed.

Lemma part_elem m p id set : part m p = Some (set, id) -> exists e, m_elems m !! p = Some e /\ me_set e = set /\
  me_id e = id.
Proof. intros (e & He & Hp)%fmap_Some. exists e. split; [done|]. unfold fixed_part in Hp. naive_solver. Qed.

Lemma part_same (elems elems' : gmap elemPtr mapElement) p : fixed_part <$> elems' = fixed_part <$> elems ->
  fixed_part <$> elems' !! p = fixed_part <$> elems !! p.
Proof. intros H. by rewrite <- !lookup_fmap, H. Qed.

Lemma out_fresh p out m id set t : selects_but (p :: out) m -> part m p = Some (set, id) -> t ∈ sp_transactions set ->
  Transaction_ID t ∉ ids (unsolved m).
Proof.
  intros H Hp Ht Hin. pose proof (sb_account _ _ H) as Ha.
  destruct (ac_out _ _ _ _ _ _ _ Ha p) as (id' & set' & Hp' & Hs & Hb & _); [by left|]. rewrite lookup_fmap, Hp in Hp'.
  injection Hp' as <- <-.
  apply list_elem_of_fmap in Hin as (u & Heq & Hu). rewrite (hd_txns _ _ _ (sb_holds _ _ H)) in Hu.
  apply elem_of_txns in Hu as (id' & set' & Hid' & Hu).
  assert (id = id'); [|congruence].
  eapply (named_disjoint _ _ _ _ _ _ t); [apply H|exact Hs|eapply lookup_weaken; [exact Hid'|apply Ha]|done|].
  rewrite Heq. by apply list_elem_of_fmap_2.
Qed.

Lemma pushToBlock_run p out m : selects_but (p :: out) m -> exists m' id set, pushToBlock p m = Ret () m' /\
  part m p = Some (set, id) /\ selects_but out m' /\ rearranged m m' /\
  in_block m' = <[id := set]> (in_block m) /\ in_overflow m' = in_overflow m /\
    m_overflowMapHeap m' = m_overflowMapHeap m.
Proof.
  intros H. pose proof (sb_account _ _ H) as Ha.
  destruct (ac_out _ _ _ _ _ _ _ Ha p) as (id & set & Hpart & Hs & Hb & Hov); [by left|].
  rewrite lookup_fmap in Hpart. destruct (part_elem _ _ _ _ Hpart) as (e & He & <- & <-).
  destruct (push_run (blockHeap m) p e (sb_block _ _ H) He Hb) as ([el hp] & Hrun & [Pok Pc Pd Pm Pf Pfr]).
  cbn [hs_elems hs_heap] in *.
  pose proof (ac_ptrs _ _ _ _ _ _ _ Ha) as Hnd. cbn [app] in Hnd. apply NoDup_cons in Hnd as [Hpn Hnd].
  rewrite !not_elem_of_app in Hpn.
  rewrite !NoDup_app in Hnd. destruct Hnd as (_ & _ & _ & Hbo & _).
  destruct (heap_frame (m_elems m) el (m_overflowMapHeap m)) as [Ook Oc].
  { intros q Hq. apply Pfr. rewrite not_elem_of_cons. split; [intros ->; tauto|]. intros Hq'. by apply (Hbo q). }
  { apply H. }
  set (m1 := with_blockHeap (mkHeapState el hp) m).
  assert (Hel : fixed_part <$> el !! p = Some (fixed_part e)) by (rewrite (part_same _ _ p Pf), He; done).
  destruct (part_elem m1 p (me_id e) (me_set e) Hel) as (e' & He' & Hse & _).
  assert (Hfresh : forall t, t ∈ sp_transactions (me_set e) -> Transaction_ID t ∉ ids (unsolved m)).
  { intros t Ht. by eapply out_fresh. }
  assert (Honce : NoDup (ids (sp_transactions (me_set e)))) by (eapply (nm_once _ _ (sb_named _ _ H)); exact Hs).
  destruct (append_run (sp_transactions (me_set e)) m1 (hd_index _ _ _ (sb_holds _ _ H)) Honce Hfresh) as (idx' & Hrun' & Hix').
  change (unsolved m1) with (unsolved m) in *.
  exists (set_block (unsolved m ++ sp_transactions (me_set e)) idx' m1), (me_id e), (me_set e).
  assert (Hpush : pushToBlock p m = Ret () (set_block (unsolved m ++ sp_transactions (me_set e)) idx' m1)).
  { unfold pushToBlock, mbind at 1, M_bind at 1, on_heap at 1. rewrite Hrun.
    unfold mbind at 1, M_bind at 1, on_heap at 1, deref.
    cbn [with_blockHeap m_elems hs_elems]. change (el !! p = Some e') in He'. rewrite He', Hse. exact Hrun'. }
  split_and!; [done|done| |by split|done|done|done].
  split; [exact Pok|exact (eq_trans Pm (sb_min _ _ H))|exact Ook|apply H| | |apply H].
  - change (accounted (fixed_part <$> el) (m_splitSets m) out (mh_data hp) (contents (mkHeapState el hp)) (mh_data (m_overflowMapHeap m))
      (contents (mkHeapState el (m_overflowMapHeap m)))). rewrite Pf, Pc, Oc. eapply ac_push;
        [exact Ha|by rewrite lookup_fmap|done].
  - change (holds (contents (mkHeapState el hp)) (unsolved m ++ sp_transactions (me_set e)) idx'). rewrite Pc.
    eapply holds_append; [apply H|done..].
Qed.

Lemma pushToOverflow_run p out m : selects_but (p :: out) m -> exists m' id set, pushToOverflow p m = Ret () m' /\
  part m p = Some (set, id) /\ selects_but out m' /\ rearranged m m' /\
  in_block m' = in_block m /\ in_overflow m' = <[id := set]> (in_overflow m).
Proof.
  intros H. pose proof (sb_account _ _ H) as Ha.
  destruct (ac_out _ _ _ _ _ _ _ Ha p) as (id & set & Hpart & Hs & Hb & Hov); [by left|].
  rewrite lookup_fmap in Hpart. destruct (part_elem _ _ _ _ Hpart) as (e & He & <- & <-).
  destruct (push_run (overflowHeap m) p e (sb_over _ _ H) He Hov) as ([el hp] & Hrun & [Pok Pc Pd Pm Pf Pfr]).
  cbn [hs_elems hs_heap] in *.
  pose proof (ac_ptrs _ _ _ _ _ _ _ Ha) as Hnd. cbn [app] in Hnd. apply NoDup_cons in Hnd as [Hpn Hnd].
  rewrite !not_elem_of_app in Hpn.
  rewrite !NoDup_app in Hnd. destruct Hnd as (_ & _ & _ & Hbo & _).
  destruct (heap_frame (m_elems m) el (m_blockMapHeap m)) as [Ook Oc].
  { intros q Hq. apply Pfr. rewrite not_elem_of_cons. split; [intros ->; tauto|by apply Hbo]. }
  { apply H. }
  exists (with_overflowHeap (mkHeapState el hp) m), (me_id e), (me_set e). split_and!.
  - unfold pushToOverflow, on_heap. by rewrite Hrun.
  - done.
  - split; [exact Ook|apply H|exact Pok|exact (eq_trans Pm (sb_max _ _ H))| | |apply H].
    + change (accounted (fixed_part <$> el) (m_splitSets m) out (mh_data (m_blockMapHeap m)) (contents (mkHeapState el (m_blockMapHeap m)))
        (mh_data hp) (contents (mkHeapState el hp))). rewrite Pf, Pc, Oc.
      apply ac_sym. eapply ac_push; [apply ac_sym, Ha|by rewrite lookup_fmap|done].
    + change (holds (contents (mkHeapState el (m_blockMapHeap m))) (unsolved m) (m_unsolvedBlockIndex m)). rewrite Oc.
      apply H.
  - by split.
  - exact Oc.
  - exact Pc.
Qed.

(** An element that was taken from the heap of the block leaves the block. *)
Lemma take_block_run out m p e s' : selects_but out m -> taken (blockHeap m) p e s' ->
  exists m', removeSplitSetFromUnsolvedBlock range (me_id e) (with_blockHeap s' m) = Ret () m' /\
    part m p = Some (me_set e, me_id e) /\ selects_but (p :: out) m' /\ rearranged m m' /\
    in_block m' = delete (me_id e) (in_block m) /\ in_overflow m' = in_overflow m /\
    mh_data (m_blockMapHeap m) ≡ₚ p :: mh_data (m_blockMapHeap m').
Proof.
  intros H [Tok Te Tin Tc Td Tm Tf Tfr]. pose proof (sb_account _ _ H) as Ha. destruct s' as [el hp].
  cbn [hs_elems hs_heap] in *.
  assert (Hpart : part m p = Some (me_set e, me_id e)) by (rewrite <- (part_same _ _ p Tf), Te; done).
  pose proof (ac_ptrs _ _ _ _ _ _ _ Ha) as Hnd. rewrite !NoDup_app in Hnd. destruct Hnd as (_ & _ & _ & Hbo & _).
  destruct (heap_frame (m_elems m) el (m_overflowMapHeap m)) as [Ook Oc].
  { intros q Hq. apply Tfr. intros Hq'. by apply (Hbo q). }
  { apply H. }
  destruct (removeSplitSet_run range Hrange (with_blockHeap (mkHeapState el hp) m) (in_block m) (me_id e) (me_set e))
    as (T' & idx' & Hrun & Hh); [apply H|apply Ha|apply H|done|].
  eexists. split; [exact Hrun|]. split_and!; [done| |by split|exact Tc|exact Oc|exact Td].
  split; [exact Tok|exact (eq_trans Tm (sb_min _ _ H))|exact Ook|apply H| | |apply H].
  - change (accounted (fixed_part <$> el) (m_splitSets m) (p :: out) (mh_data hp) (contents (mkHeapState el hp)) (mh_data (m_overflowMapHeap m))
      (contents (mkHeapState el (m_overflowMapHeap m)))). rewrite Tf, Tc, Oc. eapply ac_take;
        [exact Ha|by rewrite lookup_fmap|done|done].
  - change (holds (contents (mkHeapState el hp)) T' idx'). by rewrite Tc.
Qed.

Lemma take_overflow out m p e s' : selects_but out m -> taken (overflowHeap m) p e s' ->
  let m' := with_overflowHeap s' m in
  part m p = Some (me_set e, me_id e) /\ selects_but (p :: out) m' /\ rearranged m m' /\
  in_block m' = in_block m /\ in_overflow m' = delete (me_id e) (in_overflow m).
Proof.
  intros H [Tok Te Tin Tc Td Tm Tf Tfr]. pose proof (sb_account _ _ H) as Ha. destruct s' as [el hp].
  cbn [hs_elems hs_heap] in *.
  assert (Hpart : part m p = Some (me_set e, me_id e)) by (rewrite <- (part_same _ _ p Tf), Te; done).
  pose proof (ac_ptrs _ _ _ _ _ _ _ Ha) as Hnd. rewrite !NoDup_app in Hnd. destruct Hnd as (_ & _ & _ & Hbo & _).
  destruct (heap_frame (m_elems m) el (m_blockMapHeap m)) as [Ook Oc].
  { intros q Hq. apply Tfr. by apply Hbo. }
  { apply H. }
  split_and!; [done| |by split|exact Oc|exact Tc].
  split; [exact Ook|apply H|exact Tok|exact (eq_trans Tm (sb_max _ _ H))| | |apply H].
  - change (accounted (fixed_part <$> el) (m_splitSets m) (p :: out) (mh_data (m_blockMapHeap m)) (contents (mkHeapState el (m_blockMapHeap m)))
      (mh_data hp) (contents (mkHeapState el hp))). rewrite Tf, Tc, Oc.
    apply ac_sym. eapply ac_take; [apply ac_sym, Ha|by rewrite lookup_fmap|done|done].
  - change (holds (contents (mkHeapState el (m_blockMapHeap m))) (unsolved m) (m_unsolvedBlockIndex m)). rewrite Oc.
    apply H.
Qed.

Lemma popFromBlock_run out m : selects_but out m -> in_block m <> ∅ ->
  exists p id set m', popFromBlock range m = Ret p m' /\
  part m p = Some (set, id) /\ selects_but (p :: out) m' /\ rearranged m m' /\ in_block m !! id = Some set /\
  in_block m' = delete id (in_block m) /\ in_overflow m' = in_overflow m /\
  mh_data (m_blockMapHeap m) ≡ₚ p :: mh_data (m_blockMapHeap m').
Proof.
  intros H Hne. destruct (pop_run (blockHeap m) (sb_block _ _ H) Hne) as (p & e & s' & Hrun & Ht & _).
  destruct (take_block_run out m p e s' H Ht) as (m' & Hrun' & Hp & Hs & Hr & Hb & Ho & Hd).
  exists p, (me_id e), (me_set e), m'. split_and!; try done; [|apply Ht].
  unfold popFromBlock, mbind at 1, M_bind at 1, on_heap at 1. rewrite Hrun.
  unfold mbind at 1, M_bind at 1, on_heap, deref.
  cbn [with_blockHeap m_elems hs_elems]. rewrite (ta_elem _ _ _ _ Ht). unfold mbind, M_bind.
  replace (with_blockHeap _ (with_blockHeap s' m)) with (with_blockHeap s' m) by (by destruct s'). by rewrite Hrun'.
Qed.

Lemma popFromOverflow_run out m : selects_but out m -> in_overflow m <> ∅ ->
  exists p id set m', popFromOverflow m = Ret p m' /\
  part m p = Some (set, id) /\ selects_but (p :: out) m' /\ rearranged m m' /\ in_overflow m !! id = Some set /\
  in_block m' = in_block m /\ in_overflow m' = delete id (in_overflow m) /\
  mh_data (m_overflowMapHeap m) ≡ₚ p :: mh_data (m_overflowMapHeap m').
Proof.
  intros H Hne. destruct (pop_run (overflowHeap m) (sb_over _ _ H) Hne) as (p & e & s' & Hrun & Ht & _).
  destruct (take_overflow out m p e s' H Ht) as (Hp & Hs & Hr & Hb & Ho).
  exists p, (me_id e), (me_set e), (with_overflowHeap s' m). split_and!; try done; [|apply Ht|apply Ht].
  unfold popFromOverflow, on_heap. by rewrite Hrun.
Qed.

Lemma popFromOverflow_empty out m : selects_but out m -> in_overflow m = ∅ ->
  popFromOverflow m = Panic "index out of range".
Proof. intros H He. unfold popFromOverflow, on_heap. by rewrite (pop_empty _ (sb_over _ _ H) He). Qed.

Lemma selects_perm out out' m : out ≡ₚ out' -> selects_but out m -> selects_but out' m.
Proof. intros Hp []. split; try done. by eapply ac_perm. Qed.

Lemma push_all_block l : forall out m, selects_but (l ++ out) m ->
  exists m', for_each pushToBlock l m = Ret () m' /\ selects_but out m' /\ rearranged m m' /\
    in_overflow m' = in_overflow m.
Proof.
  induction l as [|p l IH]; intros out m H; [by exists m|]. cbn [for_each]. unfold mbind, M_bind.
  destruct (pushToBlock_run p (l ++ out) m H) as (m1 & id & set & -> & _ & H1 & Hr1 & _ & Ho1 & _).
  destruct (IH out m1 H1) as (m' & Hrun & H' & Hr & Ho). exists m'.
  split_and!; [done|done|by eapply rearranged_trans|congruence].
Qed.
Lemma push_all_overflow l : forall out m, selects_but (l ++ out) m ->
  exists m', for_each pushToOverflow l m = Ret () m' /\ selects_but out m' /\ rearranged m m'.
Proof.
  induction l as [|p l IH]; intros out m H; [by exists m|]. cbn [for_each]. unfold mbind, M_bind.
  destruct (pushToOverflow_run p (l ++ out) m H) as (m1 & id & set & -> & _ & H1 & Hr1 & _).
  destruct (IH out m1 H1) as (m' & Hrun & H' & Hr). exists m'. split_and!; [done|done|by eapply rearranged_trans].
Qed.

Lemma deref_run m p id set : part m p = Some (set, id) -> exists e, on_block (deref p) m = Ret e m /\ me_set e = set /\
  me_id e = id.
Proof.
  intros Hp. destruct (part_elem _ _ _ _ Hp) as (e & He & H1 & H2). exists e. split; [|done].
  unfold on_heap, deref. cbn [hs_elems]. rewrite He. by destruct m.
Qed.

Definition sized (splits : gmap splitSetID splitSet) : Prop := map_Forall (fun _ set => 0 < sp_size set) splits /\
  set_sizes splits < 2 ^ 64.


Lemma set_sizes_nonneg c : map_Forall (fun _ set => 0 < sp_size set) c -> 0 <= set_sizes c.
Proof.
  induction c as [|id set c Hid IH] using map_ind; intros H; [done|]. rewrite set_sizes_insert by done.
  apply map_Forall_insert in H as [? ?]; [|done]. specialize (IH ltac:(done)). lia.
Qed.

Lemma set_sizes_mono c splits : c ⊆ splits -> map_Forall (fun _ set => 0 < sp_size set) splits ->
  set_sizes c <= set_sizes splits.
Proof.
  revert splits. induction c as [|id set c Hid IH] using map_ind; intros splits Hsub H.
  { by apply set_sizes_nonneg. }
  rewrite set_sizes_insert by done.
  assert (Hs : splits !! id = Some set) by (eapply lookup_weaken; [apply lookup_insert_eq|done]).
  rewrite (set_sizes_delete splits id set Hs). enough (set_sizes c <= set_sizes (delete id splits)) by lia. apply IH.
  - rewrite <- (delete_insert_id c id set Hid). by apply delete_mono.
  - by apply map_Forall_delete.
Qed.

(** The loop that makes room for the element [p]. *)
Lemma displace_run fuel : forall p id cand bottoms sz out m,
  selects_but (p :: bottoms ++ out) m -> part m p = Some (cand, id) ->
    (length (mh_data (m_blockMapHeap m)) < fuel)%nat ->
  map_Forall (fun _ set => 0 < sp_size set) (in_block m) -> 0 <= sz -> sz + set_sizes (in_block m) < 2 ^ 64 ->
  exists m', displace range fuel p cand bottoms sz m = Ret () m' /\ selects_but out m' /\ rearranged m m'.
Proof.
  induction fuel as [|fuel IH]; intros p id cand bottoms sz out m H Hp Hf Hpos Hsz Hlt; [lia|]. cbn [displace].
  unfold mbind at 1, M_bind at 1, get.
  (* the candidate goes to the overflow and the others back *)
  assert (Hback : forall q l m1, selects_but (q :: l ++ out) m1 -> rearranged m m1 ->
    exists m', (_ ← pushToOverflow q; for_each pushToBlock l) m1 = Ret () m' /\ selects_but out m' /\ rearranged m m').
  { intros q l m1 H1 Hr1. unfold mbind, M_bind.
    destruct (pushToOverflow_run q (l ++ out) m1 H1) as (m2 & ? & ? & -> & _ & H2 & Hr2 & _).
    destruct (push_all_block l out m2 H2) as (m' & -> & H' & Hr' & _). exists m'. split_and!; [done|done|].
    by do 2 (eapply rearranged_trans; [eassumption|]). }
  destruct (fits_in_block _ _).
  { unfold mbind, M_bind. destruct (pushToBlock_run p (bottoms ++ out) m H) as (m2 & ? & ? & -> & _ & H2 & Hr2 & _).
    destruct (push_all_overflow bottoms out m2 H2) as (m' & -> & H' & Hr'). exists m'.
    split_and!; [done|done|by eapply rearranged_trans]. }
  pose proof (peek_run (blockHeap m) (sb_block _ _ H)) as Hpk.
  destruct (peek (blockHeap m)) as [q0|]; [|by apply Hback].
  assert (Hne : in_block m <> ∅) by (destruct Hpk as (e & _ & He & _); intros Heq; by rewrite Heq, lookup_empty in He).
  destruct (popFromBlock_run _ m H Hne) as (q & id' & next & m1 & Hrun & Hq & H1 & Hr1 & Hin & Hb1 & _ & Hd1).
  unfold mbind at 1, M_bind at 1. rewrite Hrun.
  destruct (deref_run m1 q id' next) as (e & Hde & Hse & _); [by rewrite (rearranged_part _ _ _ Hr1)|].
  unfold mbind at 1, M_bind at 1. rewrite Hde, Hse. pose proof (Hpos _ _ Hin) as Hnext. cbn beta in Hnext.
  pose proof (set_sizes_delete _ _ _ Hin) as Hdel.
  assert (Hnn : 0 <= set_sizes (in_block m1)) by (rewrite Hb1; apply set_sizes_nonneg; by apply map_Forall_delete).
  rewrite <- Hb1 in Hdel. rewrite (u64_small (sz + sp_size next)) by (unfold is_u64; lia).
  unfold mbind at 1, M_bind at 1. destruct (Z.eqb_spec (sz + sp_size next) 0); [lia|]. cbn [panic_if].
  unfold mret at 1, M_ret at 1.
  assert (H1' : selects_but (p :: (bottoms ++ [q]) ++ out) m1).
  { eapply selects_perm; [|exact H1]. rewrite <- app_assoc. cbn [app]. rewrite <- Permutation_middle. constructor. }
  destruct (_ =? 1); [by apply Hback|].
  destruct (IH p id cand (bottoms ++ [q]) (sz + sp_size next) out m1) as (m' & Hrun' & H' & Hr'); [done| | | |lia|lia|].
  - by rewrite (rearranged_part _ _ _ Hr1).
  - rewrite Hd1 in Hf. cbn [length] in Hf. lia.
  - rewrite Hb1. by apply map_Forall_delete.
  - exists m'. split_and!; [done|done|by eapply rearranged_trans].
Qed.

Lemma addMapElementTxns_run p id set out m : selects_but (p :: out) m -> part m p = Some (set, id) ->
  sized (m_splitSets m) ->
  exists m', addMapElementTxns range p m = Ret () m' /\ selects_but out m' /\ rearranged m m' /\
    (fits_in_block (mh_size (m_blockMapHeap m)) (sp_size set) = true -> in_overflow m' = in_overflow m).
Proof.
  intros H Hp [Hpos Hlt]. unfold addMapElementTxns, mbind at 1, M_bind at 1.
  destruct (deref_run m p id set Hp) as (e & -> & -> & _). unfold mbind at 1, M_bind at 1, get.
  destruct (fits_in_block (mh_size (m_blockMapHeap m)) (sp_size set)) eqn:Hfit.
  - destruct (pushToBlock_run p out m H) as (m' & ? & ? & Hrun & _ & H' & Hr & _ & Ho & _). by exists m'.
  - assert (Hsub : in_block m ⊆ m_splitSets m) by apply (sb_account _ _ H).
    assert (Hpos' : map_Forall (fun _ s => 0 < sp_size s) (in_block m)) by (intros i x Hx; eapply Hpos, lookup_weaken;
      [exact Hx|done]).
    pose proof (set_sizes_mono _ _ Hsub Hpos).
    destruct (displace_run (S (length (mh_data (m_blockMapHeap m)))) p id set [] 0 out m) as (m' & Hrun & H' & Hr);
      [done|done|lia|done|lia|lia|].
    exists m'. split_and!; [done..|discriminate].
Qed.

(** ** Sets that leave the pool *)

Lemma select_contents s id : heap_ok s -> is_Some (select s !! id) <-> is_Some (contents s !! id).
Proof.
  intros [Hp _ _]. unfold contents. rewrite lookup_omap.
  destruct (select s !! id) as [p|] eqn:Hs; [|by split; intros [? ?]]. cbn.
  destruct (pl_select _ Hp _ _ Hs) as (i & e & _ & He & _). rewrite He. cbn. split; eauto.
Qed.

(** Once the overflow is empty, the loop panics if it goes on. *)
Lemma promote_run fuel : forall oset out m, selects_but out m -> (length (mh_data (m_overflowMapHeap m)) < fuel)%nat ->
  match promote fuel oset m with
  | Ret _ m' => selects_but out m' /\ rearranged m m' /\ in_overflow m' ⊆ in_overflow m
  | Err _ _ => False
  | Panic msg => msg = "index out of range"
  end.
Proof.
  induction fuel as [|fuel IH]; intros oset out m H Hf; [lia|]. cbn [promote]. unfold mbind at 1, M_bind at 1, get.
  destruct (fits_in_block _ _); [|by split_and!].
  unfold mbind at 1, M_bind at 1. destruct (decide (in_overflow m = ∅)) as [He|Hne];
    [by rewrite (popFromOverflow_empty _ _ H He)|].
  destruct (popFromOverflow_run _ m H Hne) as (p & id & set & m1 & -> & _ & H1 & Hr1 & _ & _ & Ho1 & Hd1).
  unfold mbind at 1, M_bind at 1. destruct (pushToBlock_run p out m1 H1) as (m2 & ? & ? & ->
    & _ & H2 & Hr2 & _ & Ho2 & Hh2).
  assert (Hf2 : (length (mh_data (m_overflowMapHeap m2)) < fuel)%nat) by (rewrite Hh2; rewrite Hd1 in Hf;
    cbn [length] in Hf; lia).
  specialize (IH oset out m2 H2 Hf2). destruct (promote fuel oset m2) as [[] m'| |]; [|done..].
  destruct IH as (H' & Hr' & Ho').
  split_and!; [done|by do 2 (eapply rearranged_trans; [eassumption|])|]. rewrite Ho2, Ho1 in Ho'.
  etrans; [exact Ho'|apply delete_subseteq].
Qed.

Lemma deleteMapElementTxns_run m id set : selects_but [] m -> m_splitSets m !! id = Some set ->
  match deleteMapElementTxns range id m with
  | Ret _ m' => exists p, part m' p = Some (set, id) /\ selects_but [p] m' /\ rearranged m m' /\
    in_overflow m' ⊆ in_overflow m
  | Err _ _ => False
  | Panic msg => msg = "index out of range" /\ in_overflow m <> ∅
  end.
Proof.
  intros H Hs. pose proof (sb_account _ _ H) as Ha. unfold deleteMapElementTxns, mbind at 1, M_bind at 1, get.
  change (mh_selectID (m_overflowMapHeap m)) with (select (overflowHeap m)).
  change (mh_selectID (m_blockMapHeap m)) with (select (blockHeap m)).
  destruct (in_overflow m !! id) as [set'|] eqn:Ho.
  { assert (set' = set) as -> by (assert (m_splitSets m !! id = Some set') by (eapply lookup_weaken;
      [exact Ho|apply Ha]); congruence).
    rewrite bool_decide_true by (apply select_contents; [apply H|eauto]).
    destruct (removeSetByID_run _ id set (sb_over _ _ H) Ho) as (p & e & s' & Hrun & Ht & <- & <-).
    destruct (take_overflow [] m p e s' H Ht) as (Hp & H' & Hr & _ & Ho'). unfold mbind, M_bind, on_heap. rewrite Hrun.
    exists p. split_and!; [by rewrite (rearranged_part _ _ _ Hr)|done..|]. rewrite Ho'. apply delete_subseteq. }
  rewrite bool_decide_false by (rewrite select_contents by apply H; rewrite Ho; by intros []).
  destruct (ac_where _ _ _ _ _ _ _ Ha id set Hs) as [Hb|[?|(p & Hp & _)]]; [|congruence|by apply elem_of_nil in Hp].
  rewrite bool_decide_true by (apply select_contents; [apply H|eauto]).
  destruct (removeSetByID_run _ id set (sb_block _ _ H) Hb) as (p & e & s' & Hrun & Ht & <- & <-).
  destruct (take_block_run [] m p e s' H Ht) as (m2 & Hrun2 & Hp & H2 & Hr2 & _ & Ho2 & _).
  unfold mbind at 1, M_bind at 1, on_heap at 1. rewrite Hrun. unfold mbind at 1, M_bind at 1. rewrite Hrun2.
  unfold mbind at 1, M_bind at 1.
  pose proof (peek_run (overflowHeap m2) (sb_over _ _ H2)) as Hpk. unfold peekAtOverflow.
  destruct (peek (overflowHeap m2)) as [q|].
  2: { exists p. split_and!; [by rewrite (rearranged_part _ _ _ Hr2)|done..|by rewrite Ho2]. }
  destruct Hpk as (o & Hq & Hoin & _). unfold mbind at 1, M_bind at 1, on_heap at 1, deref. cbn [hs_elems] in Hq |- *.
  rewrite Hq.
  replace (with_overflowHeap (overflowHeap m2) m2) with m2 by (by destruct m2).
  pose proof (promote_run (S (S (length (mh_data (m_overflowMapHeap m2))))) (me_set o) [p] m2 H2 ltac:(lia)) as Hpr.
  destruct (promote _ _ m2) as [[] m'|e' m'|msg]; [|done|].
  - destruct Hpr as (H' & Hr' & Ho'). pose proof (rearranged_trans _ _ _ Hr2 Hr') as Hr. exists p.
    split_and!; [by rewrite (rearranged_part _ _ _ Hr)|done..|by rewrite <- Ho2].
  - split; [done|]. rewrite <- Ho2. intros Heq. by rewrite Heq, lookup_empty in Hoin.
Qed.

Lemma forget_set p out m id set : selects_but (p :: out) m -> part m p = Some (set, id) ->
  selects_but out (with_splitSets (delete id) m).
Proof.
  intros [H1 H2 H3 H4 H5 H6 [N1 N2]] Hp. split; try done.
  - by eapply ac_forget; [|rewrite lookup_fmap].
  - change (named (delete id (m_splitSets m)) (m_splitSetIDFromTxID m)). split.
    + intros id' set' t [_ Hs]%lookup_delete_Some. by apply N1.
    + intros id' set' [_ Hs]%lookup_delete_Some. by eapply N2.
Qed.
End selects.
