(* ===== verification/MinerPool.v ===== *)
(** * The miner as a subscriber of the transaction pool

    The miner knows exactly the sets of the pool it was told about.  Each is
    either in the unsolved block, with its transactions in their order, or in
    the overflow heap. *)

From S2P Require Import Prelude Bytes Interfaces Currency Types Params Encoding Transactions.
From S2P Require Import Subsidy ProcessedBlock ConsensusSubscribe MinimumSet TransactionPool TransactionPoolUpdate.
From S2P Require Import TransactionPoolFacts TransactionPoolSubscribers WalletPool MapHeap Miner MinerSelect.

Open Scope Z_scope.

Section pool.
Context {B : Build} {P : Params} {C : Crypto} {E : SiaEncoding}.
Context (range : list TransactionID -> list TransactionID) (Hrange : forall l, range l ≡ₚ l).

Abbreviation ids X := (Transaction_ID <$> X).
Abbreviation in_block m := (contents (blockHeap m)).
Abbreviation in_overflow m := (contents (overflowHeap m)).
Abbreviation part m p := (fixed_part <$> m_elems m !! p).

(** ** The split set of a set of the pool *)

Definition set_size (ut : UnconfirmedTransactionSet) : Z := fold_left (fun size s => u64 (size + s)) (ut_Sizes ut) 0.
Definition set_fees (ut : UnconfirmedTransactionSet) : Currency :=
  fold_left (fun fees t => fold_left Currency.Add (t_MinerFees t) fees) (ut_Transactions ut) Currency.ZeroCurrency.
Definition split_of (ut : UnconfirmedTransactionSet) : splitSet :=
  mkSplitSet (Currency.Div64 (set_fees ut) (set_size ut)) (set_size ut) (ut_Transactions ut).

Lemma sum_loop_run (l : list TransactionID) (sizes : list Z) (txns : list Transaction) : forall i pre preT acc fees (m : Miner),
  length sizes = length l -> length txns = length l -> i = Z.of_nat (length pre) -> length preT = length pre ->
  for_fold (fun i _ '(size, totalFees) =>
    match (pre ++ sizes) !! Z.to_nat i, (preT ++ txns) !! Z.to_nat i with
    | Some s, Some txn => mret (u64 (size + s), fold_left Currency.Add (t_MinerFees txn) totalFees)
    | _, _ => panic "index out of range"
    end) i l (acc, fees) m =
  Ret (fold_left (fun size s => u64 (size + s)) sizes acc,
       fold_left (fun fees t => fold_left Currency.Add (t_MinerFees t) fees) txns fees) m.
Proof.
  revert sizes txns. induction l as [|x l IH]; intros [|s sizes] [|t txns] i pre preT acc fees m Hs Ht Hi Hp; try done.
  rewrite for_fold_cons, Hi, Nat2Z.id. rewrite lookup_app_r, Nat.sub_diag by lia.
  rewrite lookup_app_r, Hp, Nat.sub_diag by lia.
  cbn [lookup list_lookup]. unfold mret at 1, M_ret at 1. cbn [fold_left].
  replace (pre ++ s :: sizes) with ((pre ++ [s]) ++ sizes) by (by rewrite <- app_assoc).
  replace (preT ++ t :: txns) with ((preT ++ [t]) ++ txns) by (by rewrite <- app_assoc).
  apply IH; rewrite ?length_app; cbn in *; lia.
Qed.

Lemma sum_set_run id ut m : names_set id ut -> sum_set ut m = Ret (set_size ut, set_fees ut) m.
Proof.
  intros (_ & _ & Hids & Hsz). unfold sum_set.
  apply (sum_loop_run (ut_IDs ut) (ut_Sizes ut) (ut_Transactions ut) 0 [] []); try done;
    by rewrite ?Hids, ?Hsz, !length_fmap.
Qed.

(** ** The sets of the pool and those of the miner *)

(** The miner has a number [nums] for every set it was told about.  It knows the
    sets [view]; the elements [pending] are yet to be added. *)
Record mined_but (view : gmap Hash UnconfirmedTransactionSet) (pending : list (elemPtr * UnconfirmedTransactionSet))
    (nums : gmap Hash splitSetID) (m : Miner) : Prop := mkMinedBut {
  mb_selects : selects_but [] m;
  mb_full : m_fullSets m = (fun n => [n]) <$> nums;
  mb_inj h1 h2 n : nums !! h1 = Some n -> nums !! h2 = Some n -> h1 = h2;
  mb_counter h n : nums !! h = Some n -> 0 < n <= m_setCounter m;
  mb_positive : 0 <= m_setCounter m;
  mb_view h ut : view !! h = Some ut -> exists n, nums !! h = Some n /\ m_splitSets m !! n = Some (split_of ut);
  mb_back n set : m_splitSets m !! n = Some set -> exists h ut, view !! h = Some ut /\ nums !! h = Some n;
  mb_pending p ut : (p, ut) ∈ pending -> view !! ut_ID ut = None /\
    exists n, nums !! ut_ID ut = Some n /\ part m p = Some (split_of ut, n);
  mb_once : NoDup (ut_ID <$> pending.*2);
  mb_known h n : nums !! h = Some n -> is_Some (view !! h) \/ h ∈ ut_ID <$> pending.*2
}.

Definition mined (view : gmap Hash UnconfirmedTransactionSet) (m : Miner) : Prop := exists nums, mined_but view [] nums m.

(** ** Sets that leave the pool *)

Lemma selects_fullSets out f m : selects_but out m -> selects_but out (with_fullSets f m).
Proof. intros []. by split. Qed.

Lemma drop_one_run h view m : mined view m ->
  match delete_full_set range h m with
  | Ret _ m' => mined (delete h view) m' /\ in_overflow m' ⊆ in_overflow m /\ m_setCounter m' = m_setCounter m
  | Err _ _ => False
  | Panic msg => msg = "index out of range" /\ in_overflow m <> ∅
  end.
Proof.
  intros [nums [M1 M2 M3 M4 M5 M6 M7 _ _ M10]]. unfold delete_full_set, mbind at 1, M_bind at 1, get.
  rewrite M2, lookup_fmap.
  destruct (nums !! h) as [n|] eqn:Hn; cbn [fmap option_fmap option_map default from_option id].
  2: { unfold mbind, M_bind, for_each, mret, M_ret, modify. assert (Hv : view !! h = None).
    { destruct (view !! h) as [ut|] eqn:Hv; [|done]. destruct (M6 h ut Hv) as (? & ? & _). congruence. }
    split_and!; [|done..]. exists nums. rewrite delete_id by done.
    split; try done; [by apply selects_fullSets| |by intros p ut ?%elem_of_nil|apply NoDup_nil_2].
    cbn [with_fullSets m_fullSets]. rewrite M2. by rewrite delete_id by (by rewrite lookup_fmap, Hn). }
  destruct (M10 h n Hn) as [[ut Hv]|Hin]; [|by apply elem_of_nil in Hin].
  destruct (M6 h ut Hv) as (n' & Hn' & Hs). assert (n' = n) as -> by congruence.
  pose proof (deleteMapElementTxns_run range Hrange m n (split_of ut) M1 Hs) as Hd.
  cbn [for_each]. unfold mbind, M_bind. destruct (deleteMapElementTxns range n m) as [[] m1|e m1|msg]; [|done..].
  destruct Hd as (p & Hp & H1 & Hr & Ho). unfold modify, mret, M_ret.
  split_and!; [|exact Ho|apply Hr]. exists (delete h nums). pose proof (rg_splits _ _ Hr) as Hsp. split.
  - apply selects_fullSets. exact (forget_set p [] m1 n (split_of ut) H1 Hp).
  - cbn [with_fullSets with_splitSets m_fullSets]. by rewrite (rg_full _ _ Hr), M2, fmap_delete.
  - intros h1 h2 n0 [_ H1']%lookup_delete_Some [_ H2']%lookup_delete_Some. by eapply M3.
  - intros h' n0 [_ H1']%lookup_delete_Some. cbn [with_fullSets with_splitSets m_setCounter].
    rewrite (rg_counter _ _ Hr). by eapply M4.
  - cbn [with_fullSets with_splitSets m_setCounter]. by rewrite (rg_counter _ _ Hr).
  - intros h' ut' [Hne Hv']%lookup_delete_Some. destruct (M6 h' ut' Hv') as (n0 & Hn0 & Hs0). exists n0.
    rewrite lookup_delete_ne by done. split; [done|]. cbn [with_fullSets with_splitSets m_splitSets].
    rewrite Hsp, lookup_delete_ne; [done|].
    intros ->. apply Hne. by eapply M3.
  - cbn [with_fullSets with_splitSets m_splitSets]. rewrite Hsp. intros n0 set [Hne Hs0]%lookup_delete_Some.
    destruct (M7 n0 set Hs0) as (h' & ut' & Hv' & Hn0). exists h', ut'. rewrite !lookup_delete_ne by congruence. done.
  - by intros p' ut' ?%elem_of_nil.
  - apply NoDup_nil_2.
  - intros h' n0 [Hne Hn0]%lookup_delete_Some. left. rewrite lookup_delete_ne by done.
    destruct (M10 h' n0 Hn0) as [?|Hin]; [done|by apply elem_of_nil in Hin].
Qed.

Lemma drop_run_miner l : forall view m, mined view m ->
  match for_each (delete_full_set range) l m with
  | Ret _ m' => mined (fold_left (fun v id => delete id v) l view) m' /\ in_overflow m' ⊆ in_overflow m /\
    m_setCounter m' = m_setCounter m
  | Err _ _ => False
  | Panic msg => msg = "index out of range" /\ in_overflow m <> ∅
  end.
Proof.
  induction l as [|h l IH]; intros view m Hm; [done|]. cbn [for_each].
  pose proof (drop_one_run h view m Hm) as H1. unfold mbind at 1, M_bind at 1.
  destruct (delete_full_set range h m) as [[] m1|e m1|msg]; [|done..]. destruct H1 as (Hm1 & Ho1 & Hc1).
  specialize (IH _ m1 Hm1). destruct (for_each (delete_full_set range) l m1) as [[] m'|e m'|msg]; [|done|].
  - destruct IH as (H' & Ho' & Hc'). split_and!; [done|by etrans|congruence].
  - destruct IH as [-> Ho']. split; [done|]. intros He. rewrite He in Ho1.
    apply Ho', (anti_symm (⊆)); [done|apply map_empty_subseteq].
Qed.

(** ** Sets that enter the pool *)

(** Nothing of the miner changes but what new sets need before they are added. *)
(** A new element in memory does not touch the selection. *)
Lemma new_elem_selects p e f n m : m_elems m !! p = None -> selects_but [] m ->
  let m' := with_new_elem p e (with_fullSets f (with_setCounter n m)) in
  selects_but [] m' /\ in_overflow m' = in_overflow m.
Proof.
  intros Hp M1. assert (Hframe : forall h, heap_ok (mkHeapState (m_elems m) h) ->
    heap_ok (mkHeapState (<[p := e]> (m_elems m)) h) /\
    contents (mkHeapState (<[p := e]> (m_elems m)) h) = contents (mkHeapState (m_elems m) h)).
  { intros h Hok. apply heap_frame; [|done]. intros q Hq. rewrite lookup_insert_ne; [done|]. intros <-.
    apply list_elem_of_lookup in Hq as [j Hj]. destruct (pl_data _ (ho_placed _ Hok) j p Hj) as (e' & He & _). cbn in He.
    congruence. }
  destruct M1 as [S1 S2 S3 S4 S5 S6 S7]. destruct (Hframe _ S1) as [Bok Bc], (Hframe _ S3) as [Ook Oc].
  cbv zeta. split; [|exact Oc]. split; [exact Bok|exact S2|exact Ook|exact S4| | |exact S7];
    cbn [with_new_elem with_fullSets with_setCounter m_elems m_blockMapHeap m_overflowMapHeap m_splitSets].
  - destruct S5 as [A1 A2 A3 A4 A5 A6 A7]. rewrite Bc, Oc.
    split; [exact A1|by intros q ?%elem_of_nil|by intros q ? ? ? ? ?%elem_of_nil|exact A4|exact A5|exact A6|].
    intros id set Hs. destruct (A7 id set Hs) as [?|[?|(q & Hq & _)]]; [tauto..|by apply elem_of_nil in Hq].
  - change (holds (contents (mkHeapState (<[p := e]> (m_elems m)) (m_blockMapHeap m))) (unsolved m) (m_unsolvedBlockIndex m)).
    by rewrite Bc.
Qed.

Lemma new_set_run ut elems0 view pending nums m i : mined_but view pending nums m -> names_set (ut_ID ut) ut ->
  0 < set_size ut ->
  view !! ut_ID ut = None -> ut_ID ut ∉ ut_ID <$> pending.*2 -> m_setCounter m + 1 < 2 ^ 63 ->
  exists p m', new_split_set i ut elems0 m = Ret (elems0 ++ [p]) m' /\
    mined_but view (pending ++ [(p, ut)]) (<[ut_ID ut := m_setCounter m + 1]> nums) m' /\
    m_setCounter m' = m_setCounter m + 1 /\ m_splitSets m' = m_splitSets m /\ in_overflow m' = in_overflow m.
Proof.
  intros [M1 M2 M3 M4 M5 M6 M7 M8 M9 M10] Hnm Hsz Hv Hpend Hlt. set (n := m_setCounter m + 1) in *.
  set (p := fresh (dom (m_elems m))). assert (Hp : m_elems m !! p = None) by (apply not_elem_of_dom, is_fresh).
  exists p, (with_new_elem p (mkMapElement (split_of ut) n 0) (with_fullSets <[ut_ID ut := [n]]> (with_setCounter n m))).
  assert (Hn : nums !! ut_ID ut = None).
  { destruct (nums !! ut_ID ut) as [n0|] eqn:Hn; [|done]. destruct (M10 _ _ Hn) as [[? ?]|?]; [congruence|done]. }
  assert (Hnew : forall h n0, nums !! h = Some n0 -> n0 <> n) by (intros h n0 Hh; specialize (M4 h n0 Hh); lia).
  destruct (new_elem_selects p (mkMapElement (split_of ut) n 0) <[ut_ID ut := [n]]> n m Hp M1) as [M1' Oc].
  split_and!; [| |done|done|exact Oc].
  { unfold new_split_set, mbind at 1, M_bind at 1, modify at 1. unfold mbind at 1, M_bind at 1, modify at 1.
    cbn [with_setCounter m_setCounter].
    unfold mbind at 1, M_bind at 1. rewrite (sum_set_run _ ut _ Hnm). unfold mbind at 1, M_bind at 1.
    destruct (Z.eqb_spec (set_size ut) 0); [lia|]. cbn [panic_if]. unfold mret at 1, M_ret at 1.
    unfold mbind at 1, M_bind at 1, get.
    unfold mbind at 1, M_bind at 1, modify at 1. fold n. rewrite (i64_small n) by lia. reflexivity. }
  split.
  - exact M1'.
  - cbn [with_new_elem with_fullSets m_fullSets with_setCounter]. by rewrite M2, fmap_insert.
  - intros h1 h2 n0 H1 H2. apply lookup_insert_Some in H1 as [[<- <-]|[Hne1 H1]], H2 as [[<- H2]|[Hne2 H2]];
      [done| | |by eapply M3].
    + by destruct (Hnew _ _ H2).
    + subst n0. by destruct (Hnew _ _ H1).
  - intros h n0 [[<- <-]|[_ Hh]]%lookup_insert_Some; cbn [with_new_elem with_fullSets with_setCounter m_setCounter];
      [lia|].
    specialize (M4 h n0 Hh). lia.
  - cbn [with_new_elem with_fullSets with_setCounter m_setCounter]. lia.
  - intros h ut' Hh. destruct (M6 h ut' Hh) as (n0 & Hn0 & Hs). exists n0. rewrite lookup_insert_ne by congruence. done.
  - intros n0 set Hs. destruct (M7 n0 set Hs) as (h & ut' & Hh & Hn0). exists h, ut'.
    rewrite lookup_insert_ne by congruence. done.
  - intros q ut' Hin. cbn [with_new_elem with_fullSets with_setCounter m_elems]. apply elem_of_app in Hin as [Hin|Hin].
    + destruct (M8 q ut' Hin) as (Hv' & n0 & Hn0 & Hq). split; [done|]. exists n0.
      rewrite lookup_insert_ne by congruence. split; [done|].
      rewrite lookup_insert_ne; [done|]. intros <-. rewrite Hp in Hq. done.
    + apply list_elem_of_singleton in Hin as [= -> ->]. split; [done|]. exists n. by rewrite !lookup_insert_eq.
  - rewrite fmap_app, fmap_app. apply NoDup_app. split_and!; [done| |apply NoDup_singleton].
    intros h Hh ->%list_elem_of_singleton. done.
  - intros h n0 [[<- <-]|[_ Hh]]%lookup_insert_Some; rewrite !fmap_app, elem_of_app; [right; right; by left|].
    destruct (M10 h n0 Hh); [by left|right; by left].
Qed.

Lemma new_sets_run view l : forall i elems0 pending nums m, mined_but view pending nums m ->
  Forall (fun ut => names_set (ut_ID ut) ut /\ 0 < set_size ut /\ view !! ut_ID ut = None) l ->
  NoDup (ut_ID <$> pending.*2 ++ l) -> m_setCounter m + Z.of_nat (length l) < 2 ^ 63 ->
  exists ps nums' m', for_fold new_split_set i l elems0 m = Ret (elems0 ++ ps) m' /\ length ps = length l /\
    mined_but view (pending ++ zip ps l) nums' m' /\ m_setCounter m' = m_setCounter m + Z.of_nat (length l) /\
    m_splitSets m' = m_splitSets m /\ in_overflow m' = in_overflow m.
Proof.
  induction l as [|ut l IH]; intros i elems0 pending nums m Hm Hl Hnd Hlt.
  { exists [], nums, m. rewrite !app_nil_r. split_and!; try done. cbn. lia. }
  apply Forall_cons in Hl as [(H1 & H2 & H3) Hl]. cbn [length] in Hlt.
  assert (Hnp : ut_ID ut ∉ ut_ID <$> pending.*2).
  { rewrite fmap_app, NoDup_app in Hnd. destruct Hnd as (_ & Hd & _). intros Hin. apply (Hd _ Hin). by left. }
  destruct (new_set_run ut elems0 view pending nums m i Hm H1 H2 H3 Hnp) as (p & m1 & Hrun & Hm1 & Hc1 & Hs1 & Ho1);
    [lia|].
  destruct (IH (i + 1) (elems0 ++ [p]) (pending ++ [(p, ut)]) _ m1 Hm1 Hl) as (ps & nums' & m' & Hrun' & Hlen & Hm' & Hc & Hs & Ho).
  - replace ((pending ++ [(p, ut)]).*2 ++ l) with (pending.*2 ++ ut :: l); [done|]. by rewrite fmap_app, <- app_assoc.
  - lia.
  - exists (p :: ps), nums', m'. rewrite for_fold_cons, Hrun, Hrun', <- app_assoc. rewrite <- app_assoc in Hm'.
    split_and!; [done|cbn; lia|exact Hm'|cbn [length]; lia|congruence|congruence].
Qed.

(** The sizes of the sets of the pool, which the miner has under its numbers. *)
Definition total (view : gmap Hash UnconfirmedTransactionSet) : Z := map_fold (fun _ ut acc => set_size ut + acc) 0 view.

Lemma total_insert view h ut : view !! h = None -> total (<[h := ut]> view) = set_size ut + total view.
Proof. intros H. unfold total. rewrite map_fold_insert_L; [done| |done]. intros. lia. Qed.

Lemma total_splits (nums : gmap Hash splitSetID) view : forall splits,
  (forall h1 h2 n, nums !! h1 = Some n -> nums !! h2 = Some n -> h1 = h2) ->
  (forall h ut, view !! h = Some ut -> exists n, nums !! h = Some n /\ splits !! n = Some (split_of ut)) ->
  (forall n set, splits !! n = Some set -> exists h ut, view !! h = Some ut /\ nums !! h = Some n) ->
  set_sizes splits = total view.
Proof.
  induction view as [|h ut view Hh IH] using map_ind; intros splits Hinj Hv Hb.
  { replace splits with (∅ : gmap splitSetID splitSet); [done|]. symmetry. apply map_eq. intros n. rewrite lookup_empty.
    destruct (splits !! n) as [set|] eqn:Hn; [|done]. destruct (Hb n set Hn) as (h & ut & Hh & _).
    by rewrite lookup_empty in Hh. }
  destruct (Hv h ut) as (n & Hn & Hs); [apply lookup_insert_eq|].
  rewrite total_insert, (set_sizes_delete splits n _ Hs) by done. cbn [split_of sp_size]. f_equal. apply IH; [done| |].
  - intros h' ut' Hh'. assert (h' <> h) by congruence.
    destruct (Hv h' ut') as (n' & Hn' & Hs'); [by rewrite lookup_insert_ne|].
    exists n'. split; [done|]. rewrite lookup_delete_ne; [done|]. intros ->. by assert (h' = h) by (by eapply Hinj).
  - intros n' set [Hne Hs']%lookup_delete_Some. destruct (Hb n' set Hs') as (h' & ut' & Hh' & Hn'). exists h', ut'.
    split; [|done].
    rewrite lookup_insert_ne in Hh'; [done|]. intros <-. congruence.
Qed.

Definition view_sized (view : gmap Hash UnconfirmedTransactionSet) : Prop :=
  map_Forall (fun _ ut => 0 < set_size ut) view /\ total view < 2 ^ 64.

Lemma note_set_lookup n S (setIDs : gmap TransactionID splitSetID) txid :
  fold_left (fun ids tx => <[Transaction_ID tx := n]> ids) S setIDs !! txid =
  if decide (txid ∈ ids S) then Some n else setIDs !! txid.
Proof.
  revert setIDs. induction S as [|t S IH]; intros setIDs; cbn [fold_left fmap list_fmap].
  { by rewrite decide_False by apply not_elem_of_nil. }
  rewrite IH. destruct (decide (txid ∈ ids S)) as [Hin|Hin].
  - rewrite decide_True; [done|]. by right.
  - destruct (decide (txid = Transaction_ID t)) as [->|Hne].
    + rewrite lookup_insert_eq, decide_True; [done|]. by left.
    + rewrite lookup_insert_ne, decide_False; [done| |done]. by rewrite not_elem_of_cons.
Qed.

Lemma new_element_selects view p ut pending nums n m : mined_but view ((p, ut) :: pending) nums m ->
  nums !! ut_ID ut = Some n ->
  part m p = Some (split_of ut, n) -> view !! ut_ID ut = None -> NoDup (ids (ut_Transactions ut)) ->
  (forall h ut' t, view !! h = Some ut' -> t ∈ ut_Transactions ut' -> Transaction_ID t ∉ ids (ut_Transactions ut)) ->
  m_splitSets m !! n = None /\
  selects_but [p] (with_setIDs (fun ids => fold_left (fun ids tx => <[Transaction_ID tx := n]> ids) (ut_Transactions ut) ids)
    (with_splitSets <[n := split_of ut]> m)).
Proof.
  intros [M1 _ M3 _ _ M6 M7 _ _ _] Hn Hp Hv Hnd Hdis.
  assert (Hs : m_splitSets m !! n = None).
  { destruct (m_splitSets m !! n) as [set|] eqn:Hs; [|done]. destruct (M7 n set Hs) as (h & ut' & Hh & Hn').
    assert (h = ut_ID ut) as -> by (by eapply M3). congruence. }
  split; [done|]. destruct M1 as [S1 S2 S3 S4 S5 S6 [N1 N2]]. split; try done.
  - eapply ac_new; [exact S5|by rewrite lookup_fmap| |done]. cbn [app].
    destruct (part_elem _ _ _ _ Hp) as (e & He & _ & Hid).
    assert (Hno : forall s j, heap_ok s -> hs_elems s = m_elems m -> contents s ⊆ m_splitSets m ->
      data s !! j = Some p -> False).
    { intros s j Hok Hel Hsub Hj. assert (Hc : contents s !! n = Some (me_set e)).
      { apply heap_contents_lookup; [apply Hok|]. exists j, p, e. by rewrite Hel. }
      eapply lookup_weaken in Hc; [|done]. congruence. }
    rewrite not_elem_of_app. split; intros [j Hj]%list_elem_of_lookup.
    + by eapply (Hno (blockHeap m)); [| |apply S5|].
    + by eapply (Hno (overflowHeap m)); [| |apply S5|].
  - cbn [with_setIDs with_splitSets m_splitSets m_splitSetIDFromTxID]. split.
    + intros id set t Hset Ht. rewrite note_set_lookup. apply lookup_insert_Some in Hset as [[<- <-]|[Hne Hset]].
      * rewrite decide_True; [done|]. by apply list_elem_of_fmap_2.
      * destruct (M7 id set Hset) as (h & ut' & Hh & Hn'). destruct (M6 h ut' Hh) as (n0 & Hn0 & Hs0).
        assert (n0 = id) as -> by congruence. assert (set = split_of ut') as -> by congruence.
        rewrite decide_False; [by eapply N1|]. by eapply Hdis.
    + intros id set [[<- <-]|[Hne Hset]]%lookup_insert_Some; [done|by eapply N2].
Qed.

(** A set fits if all sets together do. *)
Lemma new_set_fits out m n set : selects_but out m -> m_splitSets m !! n = None ->
  let splits := <[n := set]> (m_splitSets m) in
  map_Forall (fun _ set => 0 < sp_size set) splits -> set_sizes splits < BlockSizeLimit - 5000 ->
  fits_in_block (mh_size (m_blockMapHeap m)) (sp_size set) = true.
Proof.
  intros M1 Hn splits Hpos Hlim. apply map_Forall_insert in Hpos as [Hset Hpos]; [|done].
  assert (Hbs : in_block m ⊆ m_splitSets m) by apply (sb_account _ _ M1).
  assert (Hle : set_sizes (in_block m) + sp_size set <= set_sizes splits).
  { unfold splits. rewrite set_sizes_insert by done.
    enough (set_sizes (in_block m) <= set_sizes (m_splitSets m)) by lia. by apply set_sizes_mono. }
  assert (H0 : 0 <= set_sizes (in_block m)).
  { apply set_sizes_nonneg. intros n0 set0 Hs0. apply (Hpos n0). by eapply lookup_weaken. }
  unfold fits_in_block. change (mh_size (m_blockMapHeap m)) with (mh_size (hs_heap (blockHeap m))).
  rewrite (ho_size _ (sb_block _ _ M1)). unfold BlockSizeLimit in *. cbn beta in Hset.
  rewrite (u64_small (set_sizes (in_block m))) by (unfold is_u64; lia).
  rewrite !u64_small by (unfold is_u64; lia). apply Z.ltb_lt. lia.
Qed.

Lemma add_one_run view p ut pending nums m : mined_but view ((p, ut) :: pending) nums m ->
  NoDup (ids (ut_Transactions ut)) -> view_sized (<[ut_ID ut := ut]> view) ->
  (forall h ut' t, view !! h = Some ut' -> t ∈ ut_Transactions ut' -> Transaction_ID t ∉ ids (ut_Transactions ut)) ->
  exists m', add_new_element range p m = Ret () m' /\ mined_but (<[ut_ID ut := ut]> view) pending nums m' /\
    m_setCounter m' = m_setCounter m /\
    (total (<[ut_ID ut := ut]> view) < BlockSizeLimit - 5000 -> in_overflow m' = in_overflow m).
Proof.
  intros Hm Hnd [Hpos Htot] Hdis. pose proof Hm as [M1 M2 M3 M4 M5 M6 M7 M8 M9 M10].
  destruct (M8 p ut) as (Hv & n & Hn & Hp); [by left|].
  destruct (new_element_selects view p ut pending nums n m Hm Hn Hp Hv Hnd Hdis) as [Hs H1].
  set (m1 := with_setIDs _ _) in H1.
  assert (Hview : forall h ut', <[ut_ID ut := ut]> view !! h = Some ut' -> exists n0, nums !! h = Some n0 /\
    m_splitSets m1 !! n0 = Some (split_of ut')).
  { intros h ut' [[<- <-]|[Hne Hh]]%lookup_insert_Some; cbn [m1 with_setIDs with_splitSets m_splitSets].
    - exists n. by rewrite lookup_insert_eq.
    - destruct (M6 h ut' Hh) as (n0 & Hn0 & Hs0). exists n0. rewrite lookup_insert_ne by congruence. done. }
  assert (Hback : forall n0 set, m_splitSets m1 !! n0 = Some set ->
    exists h ut', <[ut_ID ut := ut]> view !! h = Some ut' /\ nums !! h = Some n0).
  { cbn [m1 with_setIDs with_splitSets m_splitSets]. intros n0 set [[<- <-]|[Hne Hs0]]%lookup_insert_Some.
    - exists (ut_ID ut), ut. by rewrite lookup_insert_eq.
    - destruct (M7 n0 set Hs0) as (h & ut' & Hh & Hn0). exists h, ut'. rewrite lookup_insert_ne by congruence. done. }
  pose proof (total_splits nums _ _ M3 Hview Hback) as Htotal.
  assert (Hszd : map_Forall (fun _ set => 0 < sp_size set) (m_splitSets m1)).
  { intros n0 set Hs0. destruct (Hback n0 set Hs0) as (h & ut' & Hh & Hn0).
    destruct (Hview h ut' Hh) as (n1 & Hn1 & Hs1).
    assert (set = split_of ut') as -> by congruence. exact (Hpos h ut' Hh). }
  destruct (addMapElementTxns_run range Hrange p n (split_of ut) [] m1 H1 Hp) as (m' & Hrun & H' & Hr & Hfit);
    [split; [done|lia]|].
  exists m'. split_and!.
  - unfold add_new_element, mbind at 1, M_bind at 1. destruct (deref_run m p n (split_of ut) Hp) as (e & -> & -> & ->).
    exact Hrun.
  - split.
    + done.
    + rewrite (rg_full _ _ Hr). exact M2.
    + done.
    + intros h n0. rewrite (rg_counter _ _ Hr). apply M4.
    + rewrite (rg_counter _ _ Hr). exact M5.
    + rewrite (rg_splits _ _ Hr). exact Hview.
    + rewrite (rg_splits _ _ Hr). exact Hback.
    + intros q ut' Hin. destruct (M8 q ut') as (Hv' & Hq); [by right|]. cbn in M9. apply NoDup_cons in M9 as [Hni _].
      split.
      * rewrite lookup_insert_ne; [done|]. intros Heq. apply Hni. rewrite Heq.
        apply list_elem_of_fmap_2, (list_elem_of_fmap_2 snd _ _ Hin).
      * by rewrite (rearranged_part _ _ _ Hr).
    + cbn in M9. by apply NoDup_cons in M9 as [_ ?].
    + intros h n0 Hh. destruct (M10 h n0 Hh) as [[ut' Hh']|Hin].
      * left. destruct (decide (ut_ID ut = h)) as [<-|Hne];
          [rewrite lookup_insert_eq|rewrite lookup_insert_ne by done]; eauto.
      * cbn in Hin. apply elem_of_cons in Hin as [->|Hin]; [left; rewrite lookup_insert_eq; eauto|by right].
  - apply Hr.
  - intros Hlim. rewrite <- Htotal in Hlim. apply Hfit. by apply (new_set_fits _ m n (split_of ut) M1 Hs Hszd).
Qed.

Lemma total_delete view h ut : view !! h = Some ut -> total view = set_size ut + total (delete h view).
Proof. intros H. rewrite <- (insert_delete_id view h ut H) at 1. apply total_insert, lookup_delete_eq. Qed.

Lemma view_sized_subseteq v v' : v ⊆ v' -> view_sized v' -> view_sized v /\ total v <= total v'.
Proof.
  intros Hsub [Hpos Htot]. assert (Hle : total v <= total v').
  { revert v' Hsub Hpos Htot. induction v as [|h ut v Hh IH] using map_ind; intros v' Hsub Hpos Htot.
    - clear Htot Hsub. induction v' as [|h ut v' Hh IH] using map_ind; [done|]. rewrite total_insert by done.
      apply map_Forall_insert in Hpos as [? ?]; [|done]. specialize (IH ltac:(done)). lia.
    - assert (Hs : v' !! h = Some ut) by (eapply lookup_weaken; [apply lookup_insert_eq|done]).
      pose proof (Hpos h ut Hs) as Hp. cbn beta in Hp. rewrite total_insert, (total_delete v' h ut Hs) by done.
      pose proof (total_delete v' h ut Hs). enough (total v <= total (delete h v')) by lia.
      apply IH; [|by apply map_Forall_delete|lia].
      rewrite <- (delete_insert_id v h ut Hh). by apply delete_mono. }
  split; [|done]. split; [|lia]. intros h ut Hh. eapply Hpos, lookup_weaken; [exact Hh|done].
Qed.

Abbreviation with_sets l v := (fold_left (fun m ut => <[ut_ID ut := ut]> m) l v).

Lemma with_sets_subseteq l : forall (view : gmap Hash UnconfirmedTransactionSet), NoDup (ut_ID <$> l) ->
  (forall ut, ut ∈ l -> view !! ut_ID ut = None) -> view ⊆ with_sets l view.
Proof.
  induction l as [|ut l IH]; intros view Hnd Hf; cbn [fold_left]; [done|]. rewrite fmap_cons, NoDup_cons in Hnd.
  destruct Hnd as [Hni Hnd].
  etrans; [apply insert_subseteq, Hf; by left|]. apply IH; [done|]. intros ut' Hin.
  rewrite lookup_insert_ne; [apply Hf; by right|].
  intros Heq. apply Hni. rewrite Heq. by apply list_elem_of_fmap_2.
Qed.

Lemma add_all_run pending : forall view nums m, mined_but view pending nums m ->
  map_Forall names_set (with_sets pending.*2 view) -> ids_once (with_sets pending.*2 view) ->
    view_sized (with_sets pending.*2 view) ->
  exists m', for_each (add_new_element range) pending.*1 m = Ret () m' /\
    mined_but (with_sets pending.*2 view) [] nums m' /\
    m_setCounter m' = m_setCounter m /\
    (total (with_sets pending.*2 view) < BlockSizeLimit - 5000 -> in_overflow m' = in_overflow m).
Proof.
  induction pending as [|[p ut] pending IH]; intros view nums m Hm Hnames Honce Hsized; [by exists m|].
  change (with_sets ((p, ut) :: pending).*2 view) with (with_sets pending.*2 (<[ut_ID ut := ut]> view)) in *.
  assert (Hv : view !! ut_ID ut = None) by (apply (mb_pending _ _ _ _ Hm p ut); by left).
  pose proof (mb_once _ _ _ _ Hm) as Hnd. cbn in Hnd. apply NoDup_cons in Hnd as [Hni Hnd].
  assert (Hsub : <[ut_ID ut := ut]> view ⊆ with_sets pending.*2 (<[ut_ID ut := ut]> view)).
  { apply with_sets_subseteq; [done|]. intros ut' Hin. pose proof Hin as Hin'.
    apply list_elem_of_fmap in Hin as ([q u] & Hu & Hin). cbn in Hu. subst u.
    rewrite lookup_insert_ne; [apply (mb_pending _ _ _ _ Hm q ut'); by right|]. intros Heq. apply Hni. rewrite Heq.
    by apply list_elem_of_fmap_2. }
  destruct (view_sized_subseteq _ _ Hsub Hsized) as [Hsized1 Hle].
  assert (Hat : forall h u, <[ut_ID ut := ut]> view !! h = Some u ->
    with_sets pending.*2 (<[ut_ID ut := ut]> view) !! h = Some u)
    by (intros h u Hu; eapply lookup_weaken; [exact Hu|done]).
  pose proof (Hat _ _ (lookup_insert_eq view (ut_ID ut) ut)) as Hut. destruct (Hnames _ _ Hut) as (_ & _ & Hids & _).
  destruct (add_one_run view p ut pending nums m Hm) as (m1 & Hrun & Hm1 & Hc1 & Ho1).
  - rewrite <- Hids. eapply (io_set _ Honce), Hut.
  - done.
  - intros h ut' t Hh Ht. assert (Hne : h <> ut_ID ut) by congruence.
    assert (Hh' : <[ut_ID ut := ut]> view !! h = Some ut') by (by rewrite lookup_insert_ne).
    rewrite <- Hids. intros Hin. apply Hne. eapply (io_sets _ Honce); [by apply Hat|exact Hut| |exact Hin].
    destruct (Hnames _ _ (Hat _ _ Hh')) as (_ & _ & -> & _). by apply list_elem_of_fmap_2.
  - destruct (IH _ nums m1 Hm1 Hnames Honce Hsized) as (m' & Hrun' & Hm' & Hc & Ho). exists m'.
    split_and!; [|done|congruence|].
    + change (((add_new_element range p) ≫= fun _ => for_each (add_new_element range) pending.*1) m = Ret () m').
      unfold mbind, M_bind. by rewrite Hrun.
    + intros Hlim. rewrite Ho by done. apply Ho1. lia.
Qed.

(** One update of the pool. *)
Lemma miner_receive_run view d m : mined view m -> diff_ok view d -> map_Forall names_set (apply_diff view d) ->
  ids_once (apply_diff view d) -> view_sized (apply_diff view d) ->
  m_setCounter m + Z.of_nat (length (tpd_AppliedTransactions d)) < 2 ^ 63 ->
  match Miner_ReceiveUpdatedUnconfirmedTransactions range d m with
  | Ret _ m' => mined (apply_diff view d) m' /\
      m_setCounter m' = m_setCounter m + Z.of_nat (length (tpd_AppliedTransactions d)) /\
      (in_overflow m = ∅ -> total (apply_diff view d) < BlockSizeLimit - 5000 -> in_overflow m' = ∅)
  | Err _ _ => False
  | Panic msg => msg = "index out of range" /\ in_overflow m <> ∅
  end.
Proof.
  intros Hm [Hnd Hok] Hnames Honce Hsized Hlt. unfold apply_diff in *. set (rev := tpd_RevertedTransactions d) in *.
  set (app := tpd_AppliedTransactions d) in *. set (view1 := fold_left (fun m id => delete id m) rev view) in *.
  unfold Miner_ReceiveUpdatedUnconfirmedTransactions, deleteReverts, mbind at 1, M_bind at 1. fold rev.
  pose proof (drop_run_miner rev view m Hm) as Hd.
  destruct (for_each (delete_full_set range) rev m) as [[] m1|e m1|msg]; [|done..].
  destruct Hd as (Hm1 & Ho1 & Hc1). fold view1 in Hm1. destruct Hm1 as [nums Hm1].
  assert (Hfresh : forall ut, ut ∈ app ->
    view1 !! ut_ID ut = None) by (rewrite Forall_forall in Hok; intros ut Hut; by apply Hok).
  unfold addNewTxns, getNewSplitSets, mbind at 1, M_bind at 1. fold app.
  destruct (new_sets_run view1 app 0 [] [] nums m1 Hm1) as (ps & nums' & m2 & -> & Hlen & Hm2 & Hc2 & _ & Ho2).
  - rewrite Forall_forall in Hok |- *. intros ut Hut. destruct (Hok ut Hut) as (Hn & _ & Hv). split_and!; [done| |done].
    apply (proj1 Hsized (ut_ID ut) ut).
    assert (Hkey : forall v w, v ∈ app -> w ∈ app -> ut_ID v = ut_ID w -> v = w).
    { intros v w [i Hi]%list_elem_of_lookup [j Hj]%list_elem_of_lookup Heq. assert (i = j); [|congruence].
      eapply NoDup_lookup; [exact Hnd|..]; rewrite list_lookup_fmap, ?Hi, ?Hj; cbn; [done|by rewrite Heq]. }
    destruct (fold_insert_keyed ut_ID app view1 (ut_ID ut) Hkey) as [(v & Hvin & Hvk & Hl)|[Hno _]];
      [|by destruct (Hno ut Hut)].
    by rewrite Hl, (Hkey v ut).
  - done.
  - lia.
  - cbn [app] in Hm2. assert (Hz2 : (zip ps app).*2 = app) by (apply snd_zip; lia).
    assert (Hz1 : (zip ps app).*1 = ps) by (apply fst_zip; lia).
    destruct (add_all_run (zip ps app) view1 nums' m2 Hm2) as (m' & Hrun & Hm' & Hc & Ho); [by rewrite Hz2..|].
    rewrite Hz1 in Hrun. rewrite Hz2 in Hm', Ho. cbn [Datatypes.app]. rewrite Hrun. split_and!.
    + by exists nums'.
    + lia.
    + intros He Hlim. rewrite Ho, Ho2 by done. rewrite He in Ho1.
      apply (anti_symm (⊆)); [done|apply map_empty_subseteq].
Qed.

(** ** What the block holds *)

(** The set is in the block, in its order. *)
Definition whole (ut : UnconfirmedTransactionSet) (m : Miner) : Prop :=
  filter (fun t => Transaction_ID t ∈ ids (ut_Transactions ut)) (unsolved m) = ut_Transactions ut.

Record fills (view : gmap Hash UnconfirmedTransactionSet) (m : Miner) : Prop := mkFills {
  fi_once : NoDup (ids (unsolved m));
  fi_only t : t ∈ unsolved m -> exists h ut, view !! h = Some ut /\ t ∈ ut_Transactions ut;
  fi_sets h ut : view !! h = Some ut -> whole ut m \/ forall t, t ∈ ut_Transactions ut -> t ∉ unsolved m;
  fi_all h ut : in_overflow m = ∅ -> view !! h = Some ut -> whole ut m
}.

Lemma mined_fills view m : mined view m -> fills view m.
Proof.
  intros [nums [M1 M2 M3 M4 M5 M6 M7 _ _ M10]]. pose proof (sb_holds _ _ M1) as [Hix Htx Hord].
  pose proof (sb_account _ _ M1) as Ha.
  assert (Hin : forall h ut, view !! h = Some ut -> exists n, m_splitSets m !! n = Some (split_of ut) /\
    (in_block m !! n = Some (split_of ut) \/ in_overflow m !! n = Some (split_of ut))).
  { intros h ut Hh. destruct (M6 h ut Hh) as (n & _ & Hs). exists n. split; [done|].
    destruct (ac_where _ _ _ _ _ _ _ Ha n _ Hs) as [?|[?|(p & Hp & _)]]; [tauto..|by apply elem_of_nil in Hp]. }
  assert (Hblk : forall n ut, in_block m !! n = Some (split_of ut) -> whole ut m).
  { intros n ut Hn. exact (Hord n _ Hn). }
  split.
  - by eapply indexed_NoDup.
  - intros t Ht. rewrite Htx in Ht. apply elem_of_txns in Ht as (n & set & Hn & Ht).
    assert (Hs : m_splitSets m !! n = Some set) by (eapply lookup_weaken; [exact Hn|apply Ha]).
    destruct (M7 n set Hs) as (h & ut & Hh & Hn'). destruct (M6 h ut Hh) as (n0 & Hn0 & Hs0). exists h, ut.
    split; [done|].
    assert (set = split_of ut) as -> by congruence. exact Ht.
  - intros h ut Hh. destruct (Hin h ut Hh) as (n & Hs & [Hb|Ho]); [left; by eapply Hblk|right]. intros t Ht Htu.
    rewrite Htx in Htu. apply elem_of_txns in Htu as (n' & set' & Hn' & Ht').
    assert (n' = n) as ->.
    { eapply (named_disjoint _ _ _ _ _ _ t (sb_named _ _ M1));
        [eapply lookup_weaken; [exact Hn'|apply Ha]|exact Hs|done|].
      cbn. by apply list_elem_of_fmap_2. }
    pose proof (map_disjoint_Some_l _ _ _ _ (ac_disj _ _ _ _ _ _ _ Ha) Hn'). congruence.
  - intros h ut He Hh. destruct (Hin h ut Hh) as (n & _ & [Hb|Ho]); [by eapply Hblk|].
    by rewrite He, lookup_empty in Ho.
Qed.

(** What the miner keeps for the pool. *)
Definition pool_part (m : Miner) :=
  (m_fullSets m, m_blockMapHeap m, m_overflowMapHeap m, m_setCounter m, m_splitSets m, m_splitSetIDFromTxID m,
   m_unsolvedBlockIndex m, m_elems m, unsolved m).

Lemma mined_pool_part view m m' : pool_part m' = pool_part m -> mined view m -> mined view m'.
Proof.
  unfold pool_part. intros [= H1 H2 H3 H4 H5 H6 H7 H8 H9] [nums [M1 M2 M3 M4 M5 M6 M7 M8 M9 M10]]. exists nums.
  destruct M1 as [S1 S2 S3 S4 S5 S6 S7]. split; try (by rewrite ?H1, ?H4, ?H5, ?H8).
  split; by rewrite ?H2, ?H3, ?H5, ?H6, ?H7, ?H8, ?H9.
Qed.

Lemma new_miner_mined `{MinerParams} : mined ∅ new_miner.
Proof.
  exists ∅. split; try done; try (intros *; by rewrite ?lookup_empty); try (by intros p ut ?%elem_of_nil);
    [|apply NoDup_nil_2].
  assert (Hc : forall b, contents (mkHeapState ∅ (mkMapHeap ∅ [] 0 b)) = ∅) by (intros b; unfold contents;
    apply omap_empty).
  split; try done; cbn [new_miner m_elems m_splitSets m_blockMapHeap m_overflowMapHeap m_persist mp_UnsolvedBlock b_Transactions m_unsolvedBlockIndex]; try apply empty_heap_ok; rewrite ?Hc.
  split; try done; [apply NoDup_nil_2|by intros p ?%elem_of_nil].
Qed.

(** ** The pool and the miner *)

Context (tp_range : nat -> list Hash -> list Hash) (Htp_range : forall n l, tp_range n l ≡ₚ l) (me : Z).

Abbreviation next tp := (updateSubscribersTransactions tp_range tp).
Abbreviation told_sets tp := (tp_subscriberSets tp).
(** The sets can be told apart by their transactions, and have a size. *)
Definition proper_sets (view : gmap Hash UnconfirmedTransactionSet) : Prop := ids_once view /\ view_sized view.
Abbreviation counts d m := (m_setCounter m + Z.of_nat (length (tpd_AppliedTransactions d)) < 2 ^ 63).

(** The pool and the miner, which subscribed to it under the name [me].  In
    between the pool changes its sets without telling, and the miner follows
    the consensus set and gives out work. *)
Inductive mines : TransactionPool -> Miner -> Prop :=
| mines_subscribe tp m tp' d m' :
    in_sync tp -> map_Forall (fun _ ut => is_Some (ut_Change ut)) (told_sets tp) ->
    me ∉ tp_subscribers tp -> tp_sent tp !! me = None -> proper_sets (told_sets tp) -> mined ∅ m ->
    TransactionPoolSubscribe tp_range me tp = Ret () tp' -> tp_sent tp' !! me = Some [d] -> counts d m ->
    Miner_ReceiveUpdatedUnconfirmedTransactions range d m = Ret () m' -> mines tp' m'
| mines_update tp m sent d m' :
    mines tp m -> sets_named tp -> proper_sets (told_sets (next tp)) ->
    tp_sent (next tp) !! me = Some (sent ++ [d]) -> counts d m ->
    Miner_ReceiveUpdatedUnconfirmedTransactions range d m = Ret () m' -> mines (next tp) m'
| mines_pool tp m tp' : mines tp m -> told tp' = told tp -> mines tp' m
| mines_work tp m m' : mines tp m -> pool_part m' = pool_part m -> mines tp m'.

Lemma mines_mined tp m : mines tp m -> in_sync tp /\ me ∈ tp_subscribers tp /\ mined (told_sets tp) m.
Proof.
  induction 1 as [tp m tp' d m' Hsync Hch Hme Hnone [Honce Hsz] Hm Hrun Hsent Hc Hrec
    |tp m sent d m' _ (Hsync & Hme & Hm) Hnamed [Honce Hsz] Hsent Hc Hrec
    |tp m tp' _ (Hsync & Hme & Hm) Ht|tp m m' _ (Hsync & Hme & Hm) Hp].
  - destruct (subscribe_sends tp_range Htp_range me tp tp' d Hsync Hch Hnone Hrun Hsent) as (Hsets & Hap & Hd).
    pose proof (miner_receive_run ∅ d m Hm Hd) as Hr. rewrite Hap in Hr.
    specialize (Hr (sy_names _ Hsync) Honce Hsz Hc). rewrite Hrec in Hr.
    rewrite Hsets. split_and!; [by eapply (subscribe_in_sync tp_range Htp_range)| |apply Hr].
    unfold TransactionPoolSubscribe in Hrun. inv_run. cbn. apply elem_of_app. right. by apply list_elem_of_singleton.
  - destruct (update_sends tp_range Htp_range me tp sent d Hsync Hme Hnamed Hsent) as [Hap Hd].
    assert (Hsync' : in_sync (next tp)) by (apply update_in_sync; [done| |done]; intros id ts Hts;
      apply (Hnamed id ts Hts)).
    pose proof (miner_receive_run _ d m Hm Hd) as Hr. rewrite <- Hap in Hr.
    specialize (Hr (sy_names _ Hsync') Honce Hsz Hc). rewrite Hrec in Hr.
    split_and!; [done|done|apply Hr].
  - split; [by eapply in_sync_told|]. unfold told in Ht. injection Ht as -> -> _. done.
  - split_and!; try done. by eapply mined_pool_part.
Qed.

(** C39. The miner follows the transaction pool it subscribed to: the unsolved
    block holds each transaction once, and only transactions of the sets the
    miner was told about; each of these sets is in the block as a whole, its
    transactions in their order, or not at all.  The next update ends, never
    with an error, and after it this holds for the sets of the pool.  If all
    sets were in the block before and their sizes stay below the limit, the
    block holds all of them again.  An update panics only if some set was left
    out of the block. *)
Theorem miner_follows_pool tp m : mines tp m ->
  fills (told_sets tp) m /\
  (sets_named tp -> proper_sets (told_sets (next tp)) ->
   exists sent d, tp_sent (next tp) !! me = Some (sent ++ [d]) /\
     (counts d m ->
      match Miner_ReceiveUpdatedUnconfirmedTransactions range d m with
      | Ret _ m' => fills (told_sets (next tp)) m' /\
          (in_overflow m = ∅ -> total (told_sets (next tp)) < BlockSizeLimit - 5000 ->
           forall h ut, told_sets (next tp) !! h = Some ut -> whole ut m')
      | Err _ _ => False
      | Panic msg => msg = "index out of range" /\ in_overflow m <> ∅
      end)).
Proof.
  intros Hl. destruct (mines_mined tp m Hl) as (Hsync & Hme & Hm). split; [by apply mined_fills|].
  intros Hnamed [Honce Hsz].
  assert (Hsent : exists sent d, tp_sent (next tp) !! me = Some (sent ++ [d])).
  { unfold updateSubscribersTransactions. cbn [with_subscribers tp_sent].
    rewrite (send_diff_lookup tp_range), decide_True by (done || apply Hsync). eauto. }
  destruct Hsent as (sent & d & Hsent). exists sent, d. split; [done|]. intros Hc.
  destruct (update_sends tp_range Htp_range me tp sent d Hsync Hme Hnamed Hsent) as [Hap Hd].
  assert (Hsync' : in_sync (next tp)) by (apply update_in_sync; [done| |done]; intros id ts Hts;
    apply (Hnamed id ts Hts)).
  pose proof (miner_receive_run _ d m Hm Hd) as Hr. rewrite <- Hap in Hr.
  specialize (Hr (sy_names _ Hsync') Honce Hsz Hc).
  destruct (Miner_ReceiveUpdatedUnconfirmedTransactions range d m) as [[] m'|e m'|msg]; [|done|done].
  destruct Hr as (Hm' & _ & Ho). pose proof (mined_fills _ _ Hm') as Hf. split; [done|]. intros He Hlim h ut Hh.
  eapply (fi_all _ _ Hf); [by apply Ho|exact Hh].
Qed.
End pool.
