(* ===== verification/MinerWork.v ===== *)
(** * Headers given out and blocks rebuilt

    blockmanager.go: a header that [HeaderForWork] gave out is recognised, and
    its block is rebuilt exactly, until [HeaderMemory] slots of the header
    memory have been passed, whatever the miner does in between.  The source
    blocks are shared: the headers of one source block differ by the arbitrary
    data that is written into the block each time. *)

From S2P Require Import Prelude Bytes Interfaces Currency Types Params Encoding Transactions.
From S2P Require Import Subsidy Signatures ProcessedBlock ConsensusSubscribe TransactionPool TransactionPoolUpdate.
From S2P Require Import Frames MapHeap Miner MinerSelect MinerPool.

Open Scope Z_scope.

(** ** What the transaction pool's updates leave alone *)

(** All of the miner but the selection of transactions. *)
Definition work_part (m : Miner) : headerMemory * persistence :=
  (m_mem m, with_unsolved (with_txns []) (m_persist m)).

Section receive.
Context {B : Build} {P : Params} {C : Crypto} {E : SiaEncoding}.
Context (range : list TransactionID -> list TransactionID).

Lemma keeps_on_block {A} (act : M heapState A) : keeps work_part (on_block act).
Proof. intros m a m'. unfold on_heap. destruct (act _); [|done..]. by intros [= <- <-]. Qed.
Lemma keeps_on_overflow {A} (act : M heapState A) : keeps work_part (on_overflow act).
Proof. intros m a m'. unfold on_heap. destruct (act _); [|done..]. by intros [= <- <-]. Qed.
#[local] Hint Resolve keeps_on_block keeps_on_overflow : keeps.

Lemma keeps_removeTx id : keeps work_part (removeTxFromUnsolvedBlock id).
Proof. unfold removeTxFromUnsolvedBlock, set_txn. keeps_run. Qed.
#[local] Hint Resolve keeps_removeTx : keeps.
Lemma keeps_fixOrdering id : keeps work_part (fixSplitSetOrdering id).
Proof. unfold fixSplitSetOrdering, put_in_place, set_txn. keeps_run. Qed.
#[local] Hint Resolve keeps_fixOrdering : keeps.
Lemma keeps_removeSplitSet id : keeps work_part (removeSplitSetFromUnsolvedBlock range id).
Proof. unfold removeSplitSetFromUnsolvedBlock, fix_swapped. keeps_run. Qed.
#[local] Hint Resolve keeps_removeSplitSet : keeps.

Lemma keeps_popFromBlock : keeps work_part (popFromBlock range).
Proof. unfold popFromBlock. keeps_run. Qed.
Lemma keeps_pushToBlock p : keeps work_part (pushToBlock p).
Proof. unfold pushToBlock. keeps_run. Qed.
#[local] Hint Resolve keeps_popFromBlock keeps_pushToBlock : keeps.

Lemma keeps_displace fuel : forall p set bottom size, keeps work_part (displace range fuel p set bottom size).
Proof. induction fuel as [|fuel IH]; intros; cbn [displace]; unfold pushToOverflow; keeps_run. Qed.
Lemma keeps_promote fuel : forall set, keeps work_part (promote fuel set).
Proof. induction fuel as [|fuel IH]; intros; cbn [promote]; unfold popFromOverflow; keeps_run. Qed.
#[local] Hint Resolve keeps_displace keeps_promote : keeps.

Lemma keeps_Receive diff : keeps work_part (Miner_ReceiveUpdatedUnconfirmedTransactions range diff).
Proof.
  unfold Miner_ReceiveUpdatedUnconfirmedTransactions, deleteReverts, delete_full_set, deleteMapElementTxns,
    addNewTxns, getNewSplitSets, new_split_set, sum_set, add_new_element, addMapElementTxns.
  keeps_run.
Qed.
End receive.

(** ** What the work leaves alone *)

(** Giving out headers and following the blocks does not touch the selection of
    transactions, so that [mines] allows for it. *)
Section selection.
Context {B : Build} {P : Params} {C : Crypto} {E : SiaEncoding} {MP : MinerParams}.

Lemma keeps_checkAddress w : keeps pool_part (checkAddress w).
Proof. unfold checkAddress. keeps_run. Qed.
Lemma keeps_logged w : keeps pool_part (logged (checkAddress w)).
Proof.
  intros m a m'. unfold logged. pose proof (keeps_checkAddress w m) as Hk.
  unfold checkAddress, mbind, M_bind, get, throw, modify, mret, M_ret in *.
  repeat case_match; intros [= <- <-]; by simplify_eq.
Qed.
#[local] Hint Resolve keeps_checkAddress keeps_logged : keeps.
Lemma keeps_skip fuel : keeps pool_part (skip_slots fuel).
Proof. induction fuel as [|fuel IH]; cbn [skip_slots]; unfold forget_header, next_slot; keeps_run. Qed.
#[local] Hint Resolve keeps_skip : keeps.
Lemma keeps_newSourceBlock o : keeps pool_part (newSourceBlock o).
Proof.
  unfold newSourceBlock, blockForWork, blockForWorkWithDevFund, blockForWorkWithoutDevFund, block_for_work. keeps_run.
Qed.
#[local] Hint Resolve keeps_newSourceBlock : keeps.
Lemma keeps_HeaderForWork o : keeps pool_part (HeaderForWork o).
Proof. unfold HeaderForWork, mark_source, forget_header, next_slot. keeps_run. Qed.
Lemma keeps_ProcessConsensusChange o cc : keeps pool_part (Miner_ProcessConsensusChange o cc).
Proof. unfold Miner_ProcessConsensusChange, miner_height_step. keeps_run. Qed.
End selection.

(** ** The memory of headers *)

(** The block with the arbitrary data of a header in its first transaction. *)
Definition marked (a : array 32) (b : Block) : Block :=
  match b_Transactions b with
  | [] => b
  | t :: txns => with_txns (with_arb [vec_to_list a] t :: txns) b
  end.

(** A block made by [blockForWork], whatever was written into it. *)
Definition workable (b : Block) : Prop :=
  b_Nonce b = zero_array 8 /\
  exists t txns data, b_Transactions b = t :: txns /\ t_ArbitraryData t = [data] /\ length data = 32%nat.

Lemma marked_again a a' b : marked a (marked a' b) = marked a b.
Proof. unfold marked. by destruct (b_Transactions b) as [|t txns] eqn:E; rewrite ?E. Qed.
Lemma marked_workable a b : workable b -> workable (marked a b).
Proof.
  intros (Hn & t & txns & data & Ht & _). unfold marked. rewrite Ht. split; [done|].
  exists (with_arb [vec_to_list a] t), txns, (vec_to_list a). by rewrite length_vec_to_list.
Qed.

Section memory.
Context {B : Build} {P : Params} {C : Crypto} {E : SiaEncoding} {MP : MinerParams}.

Lemma header_with_nonce n b : Block_Header (with_nonce n b) = header_nonce n (Block_Header b).
Proof. done. Qed.

(** Forgetting the header of a slot, and leaving the slot. *)
Definition slot (s : headerMemory) : BlockHeader := default zero_header (hm_headerMem s !! Z.to_nat (hm_memProgress s)).
Definition forget (s : headerMemory) : headerMemory := with_arbDataMem (delete (slot s)) (with_blockMem (delete (slot s)) s).
Definition next (s : headerMemory) : headerMemory :=
  let progress := hm_memProgress s + 1 in with_memProgress (if progress =? HeaderMemory then 0 else progress) s.
Definition pass (s : headerMemory) : headerMemory := next (forget s).
(** Filling the slot. *)
Definition fill (h : BlockHeader) (p : nat) (a : array 32) (s : headerMemory) : headerMemory :=
  let s := with_arbDataMem <[h := a]> (with_blockMem <[h := p]> (forget s)) in
  next (with_headerMem (<[Z.to_nat (hm_memProgress s) := h]> (hm_headerMem s)) s).
(** The slots that [newSourceBlock] leaves. *)
Definition skipped (s : headerMemory) : nat :=
  let r := hm_memProgress s mod (HeaderMemory / BlockMemory) in
  Z.to_nat (if r =? 0 then 0 else Z.min (HeaderMemory / BlockMemory - r) (HeaderMemory - hm_memProgress s)).

Record mem_ok (s : headerMemory) : Prop := mkMemOk {
  mo_slots : length (hm_headerMem s) = Z.to_nat HeaderMemory;
  mo_progress : 0 <= hm_memProgress s < HeaderMemory;
  mo_headers h p : hm_blockMem s !! h = Some p -> exists b a,
    hm_blocks s !! p = Some b /\ workable b /\ hm_arbDataMem s !! h = Some a /\ Block_Header (marked a b) = h;
  mo_source p : hm_sourceBlock s = Some p -> exists b, hm_blocks s !! p = Some b /\ workable b
}.

Lemma mem_ok_forget s : mem_ok s -> mem_ok (forget s).
Proof.
  intros [Hs Hp Hh Hb]. split; [done|done| |done]. intros h p. cbn.
  intros [Hne Hl]%lookup_delete_Some. destruct (Hh h p Hl) as (b & a & ? & ? & ? & ?). exists b, a.
  by rewrite lookup_delete_ne.
Qed.
Lemma mem_ok_next s : mem_ok s -> mem_ok (next s).
Proof. intros [Hs Hp Hh Hb]. split; [done| |done|done]. cbn.
destruct (Z.eqb_spec (hm_memProgress s + 1) HeaderMemory); lia. Qed.
Lemma mem_ok_pass s : mem_ok s -> mem_ok (pass s).
Proof. intros Hs. by apply mem_ok_next, mem_ok_forget. Qed.
Lemma mem_ok_source b time s : workable b -> mem_ok s -> mem_ok (with_source b time s).
Proof.
  intros Hw [Hs Hp Hh Hb]. split; [done|done| |]; cbn.
  - intros h p Hl. destruct (Hh h p Hl) as (b' & a & Hb' & ?). exists b', a. by rewrite (lookup_app_l_Some _ _ _ _ Hb').
  - intros p [= <-]. exists b. by rewrite lookup_app_r, Nat.sub_diag.
Qed.
(** Writing into a source block. *)
Lemma mem_ok_mark s p b a : hm_blocks s !! p = Some b -> mem_ok s ->
  mem_ok (with_blocks (<[p := marked a b]> (hm_blocks s)) s).
Proof.
  intros Hpb [Hs Hp Hh Hb]. assert (Hlt := lookup_lt_Some _ _ _ Hpb).
  assert (Hsame : forall q b', hm_blocks s !! q = Some b' -> workable b' ->
    exists b'', <[p := marked a b]> (hm_blocks s) !! q = Some b'' /\
    workable b'' /\ forall a', marked a' b'' = marked a' b').
  { intros q b' Hq Hw. destruct (decide (q = p)) as [->|Hne].
    - rewrite list_lookup_insert_eq by done. exists (marked a b). assert (b' = b) as -> by congruence.
      split; [done|]. split; [by apply marked_workable|]. intros a'. apply marked_again.
    - exists b'. by rewrite list_lookup_insert_ne. }
  split; [done|done| |]; cbn.
  - intros h q Hl. destruct (Hh h q Hl) as (b' & a' & Hb' & Hw & Ha' & Heq).
    destruct (Hsame q b' Hb' Hw) as (b'' & ? & ? & Hm). exists b'', a'. by rewrite Hm.
  - intros q Hq. destruct (Hb q Hq) as (b' & Hb' & Hw). destruct (Hsame q b' Hb' Hw) as (b'' & ? & ? & _).
    by exists b''.
Qed.
Lemma mem_ok_fill s p b a : hm_blocks s !! p = Some b -> workable b -> mem_ok s ->
  mem_ok (fill (Block_Header (marked a b)) p a s).
Proof.
  intros Hpb Hw Hok%mem_ok_forget. apply mem_ok_next. destruct Hok as [Hs Hp Hh Hb]. split; [|done| |done]; cbn.
  - by rewrite length_insert.
  - intros h q. rewrite !lookup_insert_Some. intros [[<- <-]|[Hne Hl]].
    + exists b, a. by rewrite lookup_insert_eq.
    + rewrite lookup_insert_ne by done. by apply Hh.
Qed.

(** ** A header that is remembered *)

(** The slots before slot [j] is reached. *)
Definition before (s : headerMemory) (j : Z) : Z :=
  if hm_memProgress s <=? j then j - hm_memProgress s else j - hm_memProgress s + HeaderMemory.

Record remembers (i : Z) (h : BlockHeader) (b : Block) (s : headerMemory) : Prop := mkRemembers {
  re_range : 0 <= i < HeaderMemory;
  re_next j : 0 <= j < HeaderMemory -> before s j < before s i -> hm_headerMem s !! Z.to_nat j <> Some h;
  re_block : exists p a b', hm_blockMem s !! h = Some p /\ hm_arbDataMem s !! h = Some a /\
    hm_blocks s !! p = Some b' /\ marked a b' = b
}.

Lemma before_next s i : mem_ok s -> 0 <= i < HeaderMemory -> 0 < before s i -> before (next s) i = before s i - 1.
Proof.
  intros [_ Hp _ _] Hi. unfold before. cbn.
  destruct (Z.eqb_spec (hm_memProgress s + 1) HeaderMemory); repeat case_match; lia.
Qed.
Lemma before_slot s i : mem_ok s -> 0 <= i < HeaderMemory -> 0 < before s i -> forall j, 0 <= j < HeaderMemory ->
  before (next s) j < before (next s) i -> before s j < before s i.
Proof.
  intros [_ Hp _ _] Hi. unfold before. cbn. intros Hpos j Hj.
  destruct (Z.eqb_spec (hm_memProgress s + 1) HeaderMemory); repeat case_match; lia.
Qed.

Lemma slot_lookup s : mem_ok s -> hm_headerMem s !! Z.to_nat (hm_memProgress s) = Some (slot s).
Proof.
  intros [Hs Hp _ _]. unfold slot. destruct (hm_headerMem s !! Z.to_nat (hm_memProgress s)) eqn:El; [done|].
  apply lookup_ge_None in El. lia.
Qed.

Lemma remembers_slot i h b s : mem_ok s -> remembers i h b s -> 0 < before s i -> slot s <> h.
Proof.
  intros Hok [Hi Hn _] Hpos Heq. apply (Hn (hm_memProgress s)); [apply (mo_progress _ Hok)| |].
  - unfold before at 1. rewrite Z.leb_refl. lia.
  - by rewrite slot_lookup, Heq.
Qed.

Lemma remembers_forget i h b s : mem_ok s -> remembers i h b s -> 0 < before s i -> remembers i h b (forget s).
Proof.
  intros Hok Hr Hpos. pose proof (remembers_slot _ _ _ _ Hok Hr Hpos) as Hne.
  destruct Hr as [Hi Hn (p & a & b' & ? & ? & ? & ?)].
  split; [done|done|]. exists p, a, b'. cbn. by rewrite !lookup_delete_ne.
Qed.
Lemma remembers_pass i h b s : mem_ok s -> remembers i h b s -> 0 < before s i ->
  remembers i h b (pass s) /\ before (pass s) i = before s i - 1.
Proof.
  intros Hok Hr Hpos. pose proof (remembers_forget _ _ _ _ Hok Hr Hpos) as [Hi Hn Hb].
  apply mem_ok_forget in Hok. split; [|by apply (before_next (forget s))]. split; [done| |done].
  intros j Hj Hlt. apply Hn; [done|]. by eapply (before_slot (forget s)).
Qed.
Lemma remembers_passes i h b n : forall s, mem_ok s -> remembers i h b s -> Z.of_nat n <= before s i ->
  mem_ok (Nat.iter n pass s) /\ remembers i h b (Nat.iter n pass s) /\
    before (Nat.iter n pass s) i = before s i - Z.of_nat n.
Proof.
  induction n as [|n IH]; intros s Hok Hr Hle; [change (Nat.iter 0 pass s) with s; split_and!; [done|done|lia]|].
  rewrite Nat.iter_succ_r. destruct (remembers_pass i h b s Hok Hr) as [Hr' Hb]; [lia|].
  destruct (IH (pass s)) as (? & ? & ?); [by apply mem_ok_pass|done|lia|]. split_and!; [done|done|lia].
Qed.
Lemma remembers_source i h b b' time s : remembers i h b s -> remembers i h b (with_source b' time s).
Proof.
  intros [Hi Hn (p & a & c & Hp & Ha & Hc & Hm)]. split; [done|done|]. exists p, a, c. cbn.
  by rewrite (lookup_app_l_Some _ _ _ _ Hc).
Qed.
Lemma remembers_mark i h b p c a s : hm_blocks s !! p = Some c -> remembers i h b s ->
  remembers i h b (with_blocks (<[p := marked a c]> (hm_blocks s)) s).
Proof.
  intros Hpc [Hi Hn (q & a' & b' & Hq & Ha & Hb & Hm)]. split; [done|done|]. destruct (decide (q = p)) as [->|Hne].
  - exists p, a', (marked a c). cbn. rewrite list_lookup_insert_eq by (by eapply lookup_lt_Some).
    rewrite marked_again. by assert (c = b') as -> by congruence.
  - exists q, a', b'. cbn. by rewrite list_lookup_insert_ne.
Qed.
Lemma remembers_fill i h b h' p a s : mem_ok s -> remembers i h b s -> 0 < before s i -> h' <> h ->
  remembers i h b (fill h' p a s) /\ before (fill h' p a s) i = before s i - 1.
Proof.
  intros Hok Hr Hpos Hne. pose proof (remembers_pass _ _ _ _ Hok Hr Hpos) as [[Hi Hn (q & a' & b' & Hq & Ha & Hb & Hm)] Hbe].
  split; [|done]. split; [done| |].
  - intros j Hj Hlt. cbn. destruct (decide (Z.to_nat j = Z.to_nat (hm_memProgress s))) as [Hj'|Hj'].
    + rewrite Hj', list_lookup_insert_eq; [congruence|]. rewrite (mo_slots _ Hok). pose proof (mo_progress _ Hok). lia.
    + rewrite list_lookup_insert_ne by done. by apply (Hn j).
  - exists q, a', b'. cbn in *. by rewrite !lookup_insert_ne.
Qed.
(** A header that was in no slot is remembered for a whole round. *)
Lemma fill_remembers h p a b s : mem_ok s -> h ∉ hm_headerMem s -> hm_blocks s !! p = Some b ->
  remembers (hm_memProgress s) h (marked a b) (fill h p a s) /\
    before (fill h p a s) (hm_memProgress s) = HeaderMemory - 1.
Proof.
  intros Hok Hnew Hb. pose proof (mo_progress _ Hok) as Hp. split.
  - split; [done| |].
    + intros j Hj Hlt. cbn. rewrite list_lookup_insert_ne.
      * intros ?%list_elem_of_lookup_2. done.
      * intros Heq. assert (j = hm_memProgress s) as -> by lia. lia.
    + exists p, a, b. cbn. by rewrite !lookup_insert_eq.
  - unfold before. cbn. destruct (Z.eqb_spec (hm_memProgress s + 1) HeaderMemory); case_match; lia.
Qed.

(** ** Steps of the memory *)

(** [mem_step k hs s s']: from [s] to [s'], [k] slots are left and the headers
    [hs] are given out. *)
Inductive mem_step : nat -> list BlockHeader -> headerMemory -> headerMemory -> Prop :=
| ms_same s : mem_step 0 [] s s
| ms_source b time s : workable b ->
    mem_step (skipped s) [] s (with_source b time (Nat.iter (skipped s) pass s))
| ms_header p b a s : hm_sourceBlock s = Some p -> hm_blocks s !! p = Some b -> workable b ->
    mem_step 1 [Block_Header (marked a b)] s
      (fill (Block_Header (marked a b)) p a (with_blocks (<[p := marked a b]> (hm_blocks s)) s))
| ms_trans k1 k2 hs1 hs2 s1 s2 s3 : mem_step k1 hs1 s1 s2 -> mem_step k2 hs2 s2 s3 ->
    mem_step (k1 + k2) (hs1 ++ hs2) s1 s3.

Definition started (s : headerMemory) : Prop := hm_sourceBlock s = None -> hm_memProgress s = 0.

Lemma mem_ok_passes n s : mem_ok s -> mem_ok (Nat.iter n pass s).
Proof. intros Hs. apply Nat.iter_invariant; [|done]. intros. by apply mem_ok_pass. Qed.

Lemma marked_lookup s p b a : hm_blocks s !! p = Some b ->
  hm_blocks (with_blocks (<[p := marked a b]> (hm_blocks s)) s) !! p = Some (marked a b).
Proof. intros Hb. cbn. apply list_lookup_insert_eq. by eapply lookup_lt_Some. Qed.

Lemma mem_step_ok k hs s s' : mem_step k hs s s' -> mem_ok s /\ started s -> mem_ok s' /\ started s'.
Proof.
  induction 1 as [s|b time s Hw|p b a s Hp Hb Hw|k1 k2 hs1 hs2 s1 s2 s3 _ IH1 _ IH2]; intros [Hok Hst].
  - done.
  - split; [|done]. by apply mem_ok_source, mem_ok_passes.
  - split; [|unfold started; cbn; congruence].
    pose proof (mem_ok_fill (with_blocks (<[p := marked a b]> (hm_blocks s)) s) p (marked a b) a) as Hf.
    rewrite marked_again in Hf. apply Hf; [by apply marked_lookup|by apply marked_workable|by apply mem_ok_mark].
  - by apply IH2, IH1.
Qed.

Lemma mem_step_remembers k hs s s' : mem_step k hs s s' -> forall i h b, mem_ok s /\ started s -> remembers i h b s ->
  Z.of_nat k <= before s i -> h ∉ hs -> remembers i h b s' /\ before s' i = before s i - Z.of_nat k.
Proof.
  induction 1 as [s|c time s Hw|p c a s Hp Hc Hw|k1 k2 hs1 hs2 s1 s2 s3 H1 IH1 H2 IH2]; intros i h b Hok Hr Hk Hh.
  - split; [done|lia].
  - destruct (remembers_passes i h b (skipped s) s (proj1 Hok) Hr Hk) as (? & ? & <-).
    split; [by apply remembers_source|done].
  - change (before s i - Z.of_nat 1) with (before (with_blocks (<[p := marked a c]> (hm_blocks s)) s) i - 1).
    apply (remembers_fill i h b); [by apply mem_ok_mark, Hok|by apply remembers_mark|unfold before in *; cbn in *;
      lia|].
    intros Heq. apply Hh. rewrite Heq. by left.
  - rewrite not_elem_of_app in Hh. destruct Hh as [Hh1 Hh2].
    destruct (IH1 i h b Hok Hr) as [Hr1 Hb1]; [lia|done|]. apply (mem_step_ok _ _ _ _ H1) in Hok.
    destruct (IH2 i h b Hok Hr1) as [Hr2 Hb2]; [lia|done|]. split; [done|lia].
Qed.

(** ** The operations *)

Lemma forget_header_run m : mem_ok (m_mem m) -> forget_header m = Ret () (with_mem forget m).
Proof.
  intros Hok. unfold forget_header, mbind, M_bind, get. cbv beta iota. by rewrite (slot_lookup _ Hok).
Qed.

Lemma skipped_next s : mem_ok s -> 0 < BlockMemory <= HeaderMemory ->
  hm_memProgress s mod (HeaderMemory / BlockMemory) <> 0 ->
  skipped s = S (skipped (pass s)).
Proof.
  intros [_ Hp _ _] Hm Hr. unfold skipped, pass, next.
  cbn [with_memProgress hm_memProgress forget with_arbDataMem with_blockMem].
  set (d := HeaderMemory / BlockMemory) in *. set (p := hm_memProgress s) in *.
  assert (Hd : 0 < d) by (apply Z.div_str_pos; lia). pose proof (Z.mod_pos_bound p d Hd).
  destruct (Z.eqb_spec (p mod d) 0) as [|_]; [done|]. destruct (Z.eqb_spec (p + 1) HeaderMemory) as [Hw|Hw].
  - rewrite Z.mod_0_l by lia. rewrite Z.eqb_refl. lia.
  - assert (Hs : (p + 1) mod d = if p mod d + 1 =? d then 0 else p mod d + 1).
    { rewrite <- Zplus_mod_idemp_l. destruct (Z.eqb_spec (p mod d + 1) d) as [->|]; [by apply Z_mod_same_full|].
      apply Z.mod_small. lia. }
    rewrite Hs. destruct (Z.eqb_spec (p mod d + 1) d); [cbn; lia|].
    destruct (Z.eqb_spec (p mod d + 1) 0); lia.
Qed.

Lemma skip_slots_run fuel : forall m, mem_ok (m_mem m) -> 0 < BlockMemory <= HeaderMemory ->
  (skipped (m_mem m) < fuel)%nat -> skip_slots fuel m = Ret () (with_mem (Nat.iter (skipped (m_mem m)) pass) m).
Proof.
  induction fuel as [|fuel IH]; intros m Hok Hm Hf; [lia|]. cbn [skip_slots].
  unfold mbind at 1, M_bind at 1, get. cbv beta iota.
  destruct (Z.eqb_spec (hm_memProgress (m_mem m) mod (HeaderMemory / BlockMemory)) 0) as [Hz|Hz].
  - assert (skipped (m_mem m) = O) as -> by (unfold skipped; by rewrite Hz). by destruct m.
  - unfold mbind at 1, M_bind at 1. rewrite (forget_header_run m Hok).
    unfold mbind at 1, M_bind at 1, next_slot, modify.
    rewrite (skipped_next _ Hok Hm Hz) in Hf |- *.
    change (with_mem _ (with_mem forget m)) with (with_mem pass m).
    rewrite IH; [|by apply mem_ok_pass|done|cbn; lia]. unfold with_mem. by rewrite Nat.iter_succ_r.
Qed.

Lemma skipped_bound s : 0 < BlockMemory <= HeaderMemory -> (skipped s < Z.to_nat (HeaderMemory / BlockMemory))%nat.
Proof.
  intros Hm. unfold skipped. assert (Hd : 0 < HeaderMemory / BlockMemory) by (apply Z.div_str_pos; lia).
  pose proof (Z.mod_pos_bound (hm_memProgress s) _ Hd). case_match; lia.
Qed.

Lemma checkAddress_cases w m : (exists a, checkAddress w m = Ret () (with_persist (with_address a) m)) \/
  exists e, checkAddress w m = Err e m.
Proof.
  unfold checkAddress. destruct (wa_AllAddresses w) as [e|addrs]; [right; by exists e|].
  unfold mbind, M_bind, get. destruct (negb _ && _).
  - left. exists (mp_Address (m_persist m)). by destruct m as [? ? ? ? ? ? ? ? ? []].
  - destruct (wa_NextAddress w) as [e|uc]; [right; by exists e|left]. by eexists.
Qed.

Lemma logged_checkAddress w m : exists a, logged (checkAddress w) m = Ret () (with_persist (with_address a) m).
Proof.
  unfold logged. destruct (checkAddress_cases w m) as [[a ->]|[e ->]]; [by exists a|].
  exists (mp_Address (m_persist m)). by destruct m as [? ? ? ? ? ? ? ? ? []].
Qed.

(** The block to work on, but for its payouts. *)
Definition base_block (o : outside) (m : Miner) : Block :=
  let b := mp_UnsolvedBlock (m_persist m) in
  if b_Timestamp b <? o_now o then with_timestamp (o_now' o) b else b.
Definition rand_txn (o : outside) : Transaction :=
  with_arb [vec_to_list PrefixNonSia ++ vec_to_list (o_randBytes o)] empty_transaction.
(** The payouts of the next block. *)
Definition work_payouts (b : Block) (m : Miner) : list SiacoinOutput :=
  let height := u64 (mp_Height (m_persist m) + 1) in
  if DevFundEnabled && (DevFundInitialBlockHeight <=? height) then
    let '(minerPayoutVal, subsidyPayoutVal) := CalculateSubsidies b height in
    [mkSiacoinOutput minerPayoutVal (mp_Address (m_persist m)); mkSiacoinOutput subsidyPayoutVal DevFundUnlockHash]
  else [mkSiacoinOutput (CalculateSubsidy b height) (mp_Address (m_persist m))].
Definition work_block (o : outside) (m : Miner) : Block :=
  let b := base_block o m in with_txns (rand_txn o :: b_Transactions b) (with_payouts (work_payouts b m) b).

Lemma blockForWork_run o m : exists a, let m' := with_persist (with_address a) m in
  blockForWork o m = Ret (work_block o m') m'.
Proof.
  destruct (logged_checkAddress (o_wallet' o) m) as [a Ha]. exists a. cbv zeta.
  unfold blockForWork, work_block, work_payouts. unfold mbind at 1, M_bind at 1, get.
  change (mp_Height (m_persist (with_persist (with_address a) m))) with (mp_Height (m_persist m)).
  destruct (DevFundEnabled && _); unfold blockForWorkWithDevFund, blockForWorkWithoutDevFund, block_for_work, gets, mbind, M_bind, get;
    rewrite Ha; reflexivity.
Qed.

Lemma work_block_workable o m : b_Nonce (mp_UnsolvedBlock (m_persist m)) = zero_array 8 -> workable (work_block o m).
Proof.
  intros Hn. split.
  - unfold work_block, base_block. cbn. by destruct (_ <? _).
  - exists (rand_txn o), (b_Transactions (base_block o m)), (vec_to_list PrefixNonSia ++ vec_to_list (o_randBytes o)).
    split_and!; [done|done|]. by rewrite length_app, !length_vec_to_list.
Qed.

Record ready (m : Miner) : Prop := mkReady {
  rd_sizes : 0 < BlockMemory <= HeaderMemory;
  rd_mem : mem_ok (m_mem m) /\ started (m_mem m);
  rd_nonce : b_Nonce (mp_UnsolvedBlock (m_persist m)) = zero_array 8
}.

Lemma newSourceBlock_run o m : ready m -> exists a, let m' := with_persist (with_address a) m in
  newSourceBlock o m = Ret ()
    (with_mem (fun s => with_source (work_block o m') (o_time o) (Nat.iter (skipped s) pass s)) m').
Proof.
  intros [Hm [Hok _] _]. unfold newSourceBlock, mbind, M_bind.
  rewrite skip_slots_run by (try apply skipped_bound; done).
  destruct (blockForWork_run o (with_mem (Nat.iter (skipped (m_mem m)) pass) m)) as [a Ha]. exists a.
  cbv zeta in *. by rewrite Ha.
Qed.

Lemma copy_all (data : bytes) (a : array 32) : length data = 32%nat -> copy_bytes data (vec_to_list a) = vec_to_list a.
Proof.
  intros Hl. unfold copy_bytes. rewrite length_vec_to_list, Hl, drop_ge, app_nil_r by lia.
  apply take_ge. by rewrite length_vec_to_list.
Qed.

Lemma mark_source_run a m p b : hm_sourceBlock (m_mem m) = Some p -> hm_blocks (m_mem m) !! p = Some b -> workable b ->
  mark_source a m = Ret (p, marked a b) (with_mem (fun s => with_blocks (<[p := marked a b]> (hm_blocks s)) s) m).
Proof.
  intros Hp Hb (_ & t & txns & data & Ht & Hd & Hl). unfold mark_source, marked. unfold mbind at 1, M_bind at 1, get.
  by rewrite Hp, Hb, Ht, Hd, copy_all.
Qed.

(** Whether a header needs a new source block. *)
Definition refreshes (o : outside) (s : headerMemory) : bool :=
  (MaxSourceBlockAge <? o_since o - hm_sourceBlockTime s) || (hm_memProgress s mod (HeaderMemory / BlockMemory) =? 0).
(** The slots that a header takes. *)
Definition header_slots (o : outside) (s : headerMemory) : nat := ((if refreshes o s then skipped s else 0) + 1)%nat.

Lemma refresh_run o m : ready m ->
  exists m', (if refreshes o (m_mem m) then newSourceBlock o else mret ()) m = Ret () m' /\
  ready m' /\ (exists a, m_persist m' = with_address a (m_persist m)) /\ is_Some (hm_sourceBlock (m_mem m')) /\
  hm_headerMem (m_mem m') = hm_headerMem (m_mem m) /\
  mem_step (if refreshes o (m_mem m) then skipped (m_mem m) else 0) [] (m_mem m) (m_mem m').
Proof.
  intros Hrd. pose proof Hrd as [Hm Hok Hn]. destruct (refreshes o (m_mem m)) eqn:Er.
  - destruct (newSourceBlock_run o m Hrd) as [a Ha]. cbv zeta in Ha. rewrite Ha. eexists. split; [done|].
    assert (Hs : mem_step (skipped (m_mem m)) [] (m_mem m) (with_source (work_block o (with_persist (with_address a) m)) (o_time o)
      (Nat.iter (skipped (m_mem m)) pass (m_mem m)))) by (by apply ms_source, work_block_workable).
    split_and!; [|by exists a|done| |done].
    + split; [done|by eapply mem_step_ok|done].
    + apply (Nat.iter_invariant (skipped (m_mem m)) _ pass (fun s => hm_headerMem s = hm_headerMem (m_mem m))); [|done].
      by intros s Hs'.
  - exists m. split_and!; [done|done|exists (mp_Address (m_persist m)); by destruct (m_persist m)| |done|constructor].
    destruct (hm_sourceBlock (m_mem m)) eqn:Es; [done|]. apply (proj2 Hok) in Es. unfold refreshes in Er.
    rewrite Es in Er.
    assert (0 < HeaderMemory / BlockMemory) by (apply Z.div_str_pos; lia).
    rewrite Z.mod_0_l, Z.eqb_refl, orb_true_r in Er by lia. done.
Qed.

(** The memory after a header was given out. *)
Definition gives (o : outside) (s : headerMemory) (h : BlockHeader) (s' : headerMemory) : Prop :=
  exists s1 p b, mem_step (if refreshes o s then skipped s else 0) [] s s1 /\ mem_ok s1 /\
    hm_headerMem s1 = hm_headerMem s /\
    hm_sourceBlock s1 = Some p /\ hm_blocks s1 !! p = Some b /\ workable b /\
      h = Block_Header (marked (o_arbData o) b) /\
    s' = fill h p (o_arbData o) (with_blocks (<[p := marked (o_arbData o) b]> (hm_blocks s1)) s1).

Lemma HeaderForWork_cases o m : ready m ->
  (exists e, HeaderForWork o m = Err e m /\
     (o_Unlocked o = inr true -> checkAddress (o_wallet o) m = Err e m)) \/
  exists h m', HeaderForWork o m = Ret (h, mp_Target (m_persist m)) m' /\ ready m' /\ gives o (m_mem m) h (m_mem m') /\
    exists a, m_persist m' = with_address a (m_persist m).
Proof.
  intros Hrd. unfold HeaderForWork. destruct (o_Unlocked o) as [e|[|]]; [left; by exists e| |left; by eexists].
  destruct (checkAddress_cases (o_wallet o) m) as [[a Ha]|[e He]];
    [right|left; exists e; unfold mbind, M_bind; by rewrite He].
  unfold mbind at 1, M_bind at 1. rewrite Ha. unfold mbind at 1, M_bind at 1, get. cbv beta iota.
  set (m1 := with_persist (with_address a) m). assert (Hrd1 : ready m1) by (by destruct Hrd).
  change (_ || _) with (refreshes o (m_mem m1)).
  destruct (refresh_run o m1 Hrd1) as (m2 & Hrun & Hrd2 & [a2 Ha2] & [p Hp] & Hh & Hs).
  assert (Ht : mp_Target (m_persist m2) = mp_Target (m_persist m1)) by (by rewrite Ha2).
  unfold mbind at 1, M_bind at 1. rewrite Hrun. pose proof (rd_mem _ Hrd2) as [Hok2 _].
  destruct (mo_source _ Hok2 p Hp) as (b & Hb & Hw).
  unfold mbind at 1, M_bind at 1. rewrite (mark_source_run _ _ _ _ Hp Hb Hw).
  unfold mbind at 1, M_bind at 1. rewrite forget_header_run by (by apply mem_ok_mark).
  unfold next_slot, mbind, M_bind, modify, mret, M_ret.
  change (mp_Target (m_persist m)) with (mp_Target (m_persist m1)). rewrite <- Ht. eexists _, _. split; [reflexivity|].
  assert (Hg : gives o (m_mem m1) (Block_Header (marked (o_arbData o) b)) (fill (Block_Header (marked (o_arbData o) b)) p (o_arbData o)
    (with_blocks (<[p := marked (o_arbData o) b]> (hm_blocks (m_mem m2))) (m_mem m2)))) by (by exists (m_mem m2), p, b).
  split; [|split; [exact Hg|exists a2; cbn; by rewrite Ha2]]. destruct Hrd2 as [Hsz Hok Hn]. split; [done| |done].
  by apply (mem_step_ok _ _ _ _ (ms_header p b (o_arbData o) (m_mem m2) Hp Hb Hw)).
Qed.

Lemma recover_run m h p a b n : mem_ok (m_mem m) -> hm_blockMem (m_mem m) !! h = Some p ->
  hm_arbDataMem (m_mem m) !! h = Some a ->
  hm_blocks (m_mem m) !! p = Some b ->
  header_nonce (zero_array 8) h = h /\ Block_Header (marked a b) = h /\
  recover_block (header_nonce n h) m = Ret (with_nonce n (marked a b)) m.
Proof.
  intros Hok Hp Ha Hb. destruct (mo_headers _ Hok h p Hp) as (b' & a' & Hb' & Hw & Ha' & Hh).
  assert (b' = b) as -> by congruence. assert (a' = a) as -> by congruence.
  destruct (marked_workable a b Hw) as [Hn _]. destruct Hw as (_ & t & txns & _ & Ht & _).
  assert (Hz : header_nonce (zero_array 8) h = h) by (rewrite <- Hh, <- Hn; done). split_and!; [done|done|].
  unfold recover_block. unfold mbind at 1, M_bind at 1, get. cbv beta iota.
  change (header_nonce (zero_array 8) (header_nonce n h)) with (header_nonce (zero_array 8) h).
  rewrite Hz, Hp, Ha, Hb, Ht. cbn [h_Nonce header_nonce].
  assert (Hm : with_txns (with_arb [vec_to_list a] t :: txns) b = marked a b) by (unfold marked; by rewrite Ht).
  rewrite Hm.
  rewrite bool_decide_eq_false_2, andb_false_r; [done|]. intros Hne. apply Hne. unfold Block_ID.
  by rewrite header_with_nonce, Hh.
Qed.

Lemma recover_cases m bh : mem_ok (m_mem m) ->
  recover_block bh m = Err errLateHeader m \/ exists b, recover_block bh m = Ret b m /\ Block_Header b = bh.
Proof.
  intros Hok. assert (Hbh : bh = header_nonce (h_Nonce bh) (header_nonce (zero_array 8) bh)) by (by destruct bh).
  destruct (hm_blockMem (m_mem m) !! header_nonce (zero_array 8) bh) as [p|] eqn:Hp.
  - destruct (mo_headers _ Hok _ _ Hp) as (b & a & Hb & _ & Ha & _).
    destruct (recover_run m _ p a b (h_Nonce bh) Hok Hp Ha Hb) as (_ & Hh & Hr). rewrite <- Hbh in Hr.
    right. eexists. split; [exact Hr|]. by rewrite header_with_nonce, Hh.
  - left. unfold recover_block, mbind, M_bind, get. by rewrite Hp.
Qed.

(** ** Everything the miner does *)

(** [work k hs m m']: one operation, in which [k] slots are left and the headers
    [hs] are given out. *)
Inductive work : nat -> list BlockHeader -> Miner -> Miner -> Prop :=
| work_header o h target m m' : HeaderForWork o m = Ret (h, target) m' -> work (header_slots o (m_mem m)) [h] m m'
| work_refused o e m m' : HeaderForWork o m = Err e m' -> work 0 [] m m'
| work_change o cc m m' : Miner_ProcessConsensusChange o cc m = Ret () m' ->
    work (if cc_Synced cc then skipped (m_mem m) else 0) [] m m'
| work_pool range diff m m' : Miner_ReceiveUpdatedUnconfirmedTransactions range diff m = Ret () m' -> work 0 [] m m'
| work_found id m : work 0 [] m (with_persist (with_found id) m)
| work_address a m : work 0 [] m (with_persist (with_address a) m)
| work_rescan m : work 0 [] m (startupRescan_reset m).

Inductive worked : nat -> list BlockHeader -> Miner -> Miner -> Prop :=
| worked_none m : worked 0 [] m m
| worked_more k1 k2 hs1 hs2 m1 m2 m3 : worked k1 hs1 m1 m2 -> work k2 hs2 m2 m3 -> worked (k1 + k2) (hs1 ++ hs2) m1 m3.

(** A miner that [New] made, with any settings. *)
Definition fresh_miner (m : Miner) : Prop :=
  m_mem m = m_mem new_miner /\ b_Nonce (mp_UnsolvedBlock (m_persist m)) = zero_array 8.

Lemma fresh_ready m : 0 < BlockMemory <= HeaderMemory -> fresh_miner m -> ready m.
Proof.
  intros Hm [Hmem Hn]. split; [done| |done]. rewrite Hmem. split; [|done]. split; cbn.
  - by rewrite length_replicate.
  - lia.
  - intros h p. by rewrite lookup_empty.
  - done.
Qed.

Lemma height_step_persist step block m m' : miner_height_step step block m = Ret () m' ->
  exists h, m' = with_persist (with_height h) m.
Proof.
  unfold miner_height_step. intros H. inv_run. destruct (_ || _); [|destruct (negb _)]; inv_run; try by eexists.
  exists (mp_Height (m_persist m)). by destruct m as [? ? ? ? ? ? ? ? ? []].
Qed.

Lemma gives_step o s h s' : gives o s h s' -> mem_step (header_slots o s) [h] s s'.
Proof.
  intros (s1 & p & b & Hs & _ & _ & Hp & Hb & Hw & -> & ->). unfold header_slots.
  apply (ms_trans _ _ [] [_] _ s1); [done|]. by apply ms_header.
Qed.

(** Heights do not matter to the memory. *)
Lemma heights_run step blocks m m' : for_each (miner_height_step step) blocks m = Ret () m' -> ready m ->
  ready m' /\ m_mem m' = m_mem m.
Proof.
  intros Hrun Hrd. apply (for_each_inv _ (fun x => ready x /\ m_mem x = m_mem m)) in Hrun; [done| |done].
  intros b x x' _ [[Hm Hok Hn] Hmem] (h & ->)%height_step_persist. done.
Qed.

Lemma work_ready k hs m m' : work k hs m m' -> ready m -> ready m' /\ mem_step k hs (m_mem m) (m_mem m').
Proof.
  intros Hw Hrd. pose proof Hrd as [Hm Hok Hn].
  destruct Hw as [o h t m m' Hrun|o e m m' Hrun|o cc m m' Hrun|range diff m m' Hrun|id m|a m|m];
    try (split; [done|constructor]).
  - destruct (HeaderForWork_cases o m Hrd) as [(e & He & _)|(h' & m'' & Hr & Hrd' & Hg & _)]; [congruence|].
    rewrite Hr in Hrun. injection Hrun as <- <- <-. split; [done|]. by apply gives_step.
  - destruct (HeaderForWork_cases o m Hrd) as [(e' & He & _)|(h' & m'' & Hr & _)]; [|congruence].
    rewrite He in Hrun. injection Hrun as <- <-. split; [done|constructor].
  - unfold Miner_ProcessConsensusChange in Hrun. inv_run.
    match goal with H : for_each _ (cc_RevertedBlocks cc) _ = _ |- _ => apply heights_run in H as [Hrd1 Hm1];
      [|done] end.
    match goal with H : for_each _ (cc_AppliedBlocks cc) _ = _ |- _ => apply heights_run in H as [Hrd2 Hm2];
      [|done] end.
    destruct (last _) as [block|]; [|done]. inv_run. rewrite <- Hm1, <- Hm2.
    match goal with H : (if cc_Synced cc then _ else _) ?x = Ret () ?y |- _ =>
      assert (Hrd3 : ready x) by (by destruct Hrd2); rename H into Hsync end.
    destruct (cc_Synced cc).
    + destruct (newSourceBlock_run o _ Hrd3) as [a Ha]. cbv zeta in Ha. rewrite Ha in Hsync. injection Hsync as <-.
      match goal with |- _ /\ mem_step _ _ ?s ?s' => assert (Hs : mem_step (skipped s) [] s s')
        by (apply ms_source, work_block_workable; apply (rd_nonce _ Hrd3)) end.
      split; [|exact Hs]. split; [done| |exact (rd_nonce _ Hrd3)]. eapply mem_step_ok; [exact Hs|apply (rd_mem _ Hrd2)].
    + inv_run. split; [|constructor]. by destruct Hrd3.
  - pose proof (keeps_Receive range diff _ _ _ Hrun) as Hk.
    pose proof (f_equal fst Hk) as Hmem. apply (f_equal (fun x => b_Nonce (mp_UnsolvedBlock x.2))) in Hk.
    cbn in Hmem, Hk.
    rewrite Hmem. split; [|constructor]. split; [done|by rewrite Hmem|]. by rewrite Hk.
Qed.

Lemma worked_ready k hs m m' : worked k hs m m' -> ready m -> ready m' /\ mem_step k hs (m_mem m) (m_mem m').
Proof.
  induction 1 as [m|k1 k2 hs1 hs2 m1 m2 m3 _ IH Hw]; intros Hrd; [split; [done|constructor]|].
  destruct (IH Hrd) as [Hrd2 Hs]. destruct (work_ready _ _ _ _ Hw Hrd2) as [Hrd3 Hs']. split; [done|].
  by eapply ms_trans.
Qed.

Lemma gives_remembers o s h s' : gives o s h s' -> h ∉ hm_headerMem s -> exists i p b,
  hm_sourceBlock s' = Some p /\ hm_blocks s' !! p = Some b /\ Block_Header b = h /\
  remembers i h b s' /\ before s' i = HeaderMemory - 1.
Proof.
  intros (s1 & p & b & _ & Hok & Hmem & Hp & Hb & Hw & Hh & ->) Hnew. rewrite <- Hmem in Hnew.
  set (s2 := with_blocks (<[p := marked (o_arbData o) b]> (hm_blocks s1)) s1).
  assert (Hb2 : hm_blocks s2 !! p = Some (marked (o_arbData o) b)) by (by apply marked_lookup).
  destruct (fill_remembers h p (o_arbData o) _ s2 (mem_ok_mark s1 p b _ Hb Hok) Hnew Hb2) as [Hr Hbe].
  rewrite marked_again in Hr. exists (hm_memProgress s1), p, (marked (o_arbData o) b). by split_and!.
Qed.

(** C9. The miner gives out headers and takes them back.  In whatever state its
    work has brought it to since [New] made it, with an unlocked wallet that has
    an address for it, [HeaderForWork] returns a header and the current target;
    a header that comes back is either refused as late or turned into a block
    with exactly that header, so that the check of [SubmitHeader] never fails;
    and a header that was not yet in the memory when it was given out is turned
    into the source block of that moment with the returned nonce, although the
    source block has been written to since, as long as fewer than [HeaderMemory]
    slots have been left and the header has not been given out again, whatever
    other headers, blocks and transactions there were in between. *)
Theorem header_round_trip m0 k0 hs0 m : 0 < BlockMemory <= HeaderMemory -> fresh_miner m0 -> worked k0 hs0 m0 m ->
  (forall o, o_Unlocked o = inr true -> (forall e, checkAddress (o_wallet o) m <> Err e m) ->
     exists h m', HeaderForWork o m = Ret (h, mp_Target (m_persist m)) m') /\
  (forall bh, recover_block bh m = Err errLateHeader m \/ exists b, recover_block bh m = Ret b m /\
    Block_Header b = bh) /\
  (forall o h target m1 k hs m2, HeaderForWork o m = Ret (h, target) m1 -> h ∉ hm_headerMem (m_mem m) ->
     worked k hs m1 m2 -> Z.of_nat k < HeaderMemory -> h ∉ hs ->
     exists p b, hm_sourceBlock (m_mem m1) = Some p /\ hm_blocks (m_mem m1) !! p = Some b /\ Block_Header b = h /\
       forall n, recover_block (header_nonce n h) m2 = Ret (with_nonce n b) m2).
Proof.
  intros Hm Hf Hw. destruct (worked_ready _ _ _ _ Hw (fresh_ready _ Hm Hf)) as [Hrd _]. split_and!.
  - intros o Ho Ha. destruct (HeaderForWork_cases o m Hrd) as [(e & _ & He)|(h & m' & Hr & _)]; [|by exists h, m'].
    by destruct (Ha e (He Ho)).
  - intros bh. apply recover_cases, (rd_mem _ Hrd).
  - intros o h target m1 k hs m2 Hrun Hnew Hw2 Hk Hh.
    destruct (HeaderForWork_cases o m Hrd) as [(e & He & _)|(h' & m' & Hr & Hrd1 & Hg & _)]; [congruence|].
    rewrite Hr in Hrun. injection Hrun as -> _ ->. destruct (worked_ready _ _ _ _ Hw2 Hrd1) as [Hrd2 Hs].
    destruct (gives_remembers _ _ _ _ Hg Hnew) as (i & p & b & Hp & Hb & Hbh & Hrem & Hbe). exists p, b.
    split_and!; [done..|]. intros n.
    destruct (mem_step_remembers _ _ _ _ Hs i h b (rd_mem _ Hrd1) Hrem) as [[_ _ (q & a & b' & Hq & Ha & Hb' & <-)] _];
      [lia|done|].
    by destruct (recover_run m2 h q a b' n (proj1 (rd_mem _ Hrd2)) Hq Ha Hb') as (_ & _ & ->).
Qed.
End memory.
