(* ===== verification/NodeMiner.v ===== *)
(** * The miner of a node

    The miner composed with the consensus set it subscribes to: whatever blocks
    arrive and whatever it does in between, it works on a child of the current
    block, for the height, target and timestamp that the consensus set asks
    for, and a solved block that is new, not too large and not ahead of the
    clocks passes the checks of the consensus set. *)

From S2P Require Import Prelude Bytes Interfaces Currency Types Params Target Encoding Transactions.
From S2P Require Import Subsidy Signatures ConsensusDB ProcessedBlock BlockValidation Fork Accept.
From S2P Require Import ConsensusSubscribe Agree Chain ChainFork ChainAccept ChainState ChangeLog Subscription Replay Node.
From S2P Require Import TransactionPool TransactionPoolUpdate TransactionPoolFollow NodePool Frames MapHeap Miner MinerWork.

Open Scope Z_scope.

(** ** Payouts *)

Section payouts.
Context {P : Params}.

Lemma work_payouts_ok b0 b m : b_MinerPayouts b = work_payouts b0 m -> block_fees b = block_fees b0 ->
  checkMinerPayouts b (u64 (mp_Height (m_persist m) + 1)) = true.
Proof.
  intros Hb Hf. set (height := u64 (mp_Height (m_persist m) + 1)).
  assert (Hu : is_u64 height) by apply u64_range. unfold work_payouts in Hb. fold height in Hb.
  unfold checkMinerPayouts. destruct (DevFundEnabled && _).
  - unfold CalculateSubsidies in Hb. pose proof (CalculateDevSubsidy_le height Hu) as Hle.
    rewrite (CalculateCoinbase_value height) in Hb, Hle.
    apply (checkMinerPayoutsWithDevFund_snoc b height [mkSiacoinOutput _ (mp_Address (m_persist m))] _ Hu Hb).
    unfold Currency.Add in *. rewrite Sub_sub, CalculateMinerFees_sum in *.
    rewrite Hb, CalculateSubsidy_sum, CalculateCoinbase_value, !sum_of_cons, sum_of_nil, Hf. cbn.
    split_and!; [done| |lia|done]. intros o ->%list_elem_of_singleton. cbn. lia.
  - unfold checkMinerPayoutsWithoutDevFund. rewrite Hb. cbn [payout_sum sco_Value].
    rewrite !CalculateSubsidy_sum, CalculateCoinbase_value, Hf. unfold Currency.IsZero.
    destruct (N.leb_spec (30 * 10 ^ 27 + block_fees b0) 0); [lia|].
    apply Currency.Equals_true. unfold Currency.Add, Currency.ZeroCurrency. lia.
Qed.
End payouts.

Section miner.
Context {P : Params} {C : Crypto} {E : SiaEncoding} {MP : MinerParams} (r : release) (Hr : r <> Testing).
#[local] Hint Extern 0 Build => exact (debug_build r) : typeclass_instances.
(** What the wallet, the clock and the random source answer. *)
Context (outs : DB -> ConsensusChange -> Miner -> outside).

(** ** The miner as a subscriber *)

Definition miner_process (d : DB) (cc : ConsensusChange) : M Miner () := fun m =>
  Miner_ProcessConsensusChange (outs d cc m) cc m.

(** A miner that [New] made and that is about to subscribe. *)
Definition miner_initial (m : Miner) : Prop := exists m0,
  0 < BlockMemory <= HeaderMemory /\ fresh_miner m0 /\ m = startupRescan_reset m0.

(** What the miner does between two changes. *)
Inductive miner_step (d : DB) (m : Miner) : Miner -> Prop :=
| step_header o h target m' : HeaderForWork o m = Ret (h, target) m' -> miner_step d m m'
| step_refused o e m' : HeaderForWork o m = Err e m' -> miner_step d m m'
| step_pool range diff m' : Miner_ReceiveUpdatedUnconfirmedTransactions range diff m = Ret () m' -> miner_step d m m'
| step_found id : miner_step d m (with_persist (with_found id) m)
| step_address a : miner_step d m (with_persist (with_address a) m).

Definition miner_node : Z -> ConsensusSet -> Miner -> Prop := node r miner_process miner_initial miner_step.

(** What the work is on. *)
Definition work_base (m : Miner) : Z * Target * BlockID * Timestamp :=
  (mp_Height (m_persist m), mp_Target (m_persist m), b_ParentID (mp_UnsolvedBlock (m_persist m)),
   b_Timestamp (mp_UnsolvedBlock (m_persist m))).

(** The miner works on a child of the end of the path. *)
Record miner_at (t : tree) (lp : list BlockID) (m : Miner) : Prop := mkMinerAt {
  mt_ready : ready m;
  mt_base : exists tip pb ts, last lp = Some tip /\ t !! tip = Some pb /\ pb_DiffsGenerated pb = true /\
    minimumValidChildTimestamp t pb = Some ts /\
    work_base m = (Z.of_nat (pred (length lp)), pb_ChildTarget pb, tip, ts)
}.

Lemma window_grows t t' n : forall previous parent times, grows t t' ->
  window_times t n previous parent = Some times -> window_times t' n previous parent = Some times.
Proof.
  induction n as [|n IH]; intros previous parent times Hg; cbn [window_times]; [done|]. case_bool_decide.
  - intros (l & Hl & ->)%fmap_Some. by rewrite (IH _ _ _ Hg Hl).
  - intros (pb & Hpb & (l & Hl & ->)%fmap_Some)%bind_Some. destruct (Hg _ _ Hpb) as (pb' & -> & [Hb _ _ _]).
    cbn [mbind option_bind]. by rewrite Hb, (IH _ _ _ Hg Hl).
Qed.

Lemma miner_at_grows t t' lp m : grows t t' -> miner_at t lp m -> miner_at t' lp m.
Proof.
  intros Hg [Hrd (tip & pb & ts & Hl & Hpb & Hgen & Hts & Hb)]. split; [done|]. exists tip, pb, ts.
  split_and!; [done|by eapply grows_generated|done| |done].
  unfold minimumValidChildTimestamp in *. apply bind_Some in Hts as (times & Hw & Hts).
  by rewrite (window_grows t t' _ _ _ _ Hg Hw).
Qed.

Lemma header_base o m : ready m -> match HeaderForWork o m with
  | Ret _ m' | Err _ m' => work_base m' = work_base m
  | Panic _ => False
  end.
Proof.
  intros Hrd. destruct (HeaderForWork_cases o m Hrd) as [(e & -> & _)|(h & m' & Hrun & _ & _ & [a Hp])]; [done|].
  rewrite Hrun. unfold work_base. by rewrite Hp.
Qed.

Lemma miner_own d lp m m' : miner_at (db_BlockMap d) lp m -> miner_step d m m' -> miner_at (db_BlockMap d) lp m'.
Proof.
  intros [Hrd Hb] Hs.
  assert (ready m' /\ work_base m' = work_base m) as [Hrd' Hb']; [|split; [done|by rewrite Hb']].
  pose proof (fun k hs Hw => proj1 (work_ready k hs m m' Hw Hrd)) as Hwork.
  destruct Hs as [o h target m' Hrun|o e m' Hrun|range diff m' Hrun|id|a].
  - split; [by eapply Hwork, work_header|]. pose proof (header_base o m Hrd) as Hh. by rewrite Hrun in Hh.
  - split; [by eapply Hwork, work_refused|]. pose proof (header_base o m Hrd) as Hh. by rewrite Hrun in Hh.
  - split; [by eapply Hwork, work_pool|]. pose proof (keeps_Receive range diff _ _ _ Hrun) as Hk.
    unfold work_base. apply (f_equal snd) in Hk. cbn in Hk.
    pose proof (f_equal mp_Height Hk). pose proof (f_equal mp_Target Hk).
    pose proof (f_equal (fun p => b_ParentID (mp_UnsolvedBlock p)) Hk).
    pose proof (f_equal (fun p => b_Timestamp (mp_UnsolvedBlock p)) Hk). cbn in *. congruence.
  - by destruct Hrd.
  - by destruct Hrd.
Qed.

(** ** One change *)

Lemma height_step_run step b m : 0 <= mp_Height (m_persist m) -> miner_height_step step b m =
  Ret () (with_persist (with_height (step_height step (Block_ID b) (mp_Height (m_persist m)))) m).
Proof.
  intros Hh. unfold miner_height_step, step_height. unfold mbind at 1, M_bind at 1, get. cbv beta iota.
  change (Block_ID GenesisBlock) with GenesisID. destruct (Z.ltb_spec 0 (mp_Height (m_persist m))); cbn [orb]; [done|].
  case_bool_decide; [done|]. assert (mp_Height (m_persist m) = 0) as Hz by lia. rewrite Hz. cbn.
  rewrite <- Hz. by destruct m as [? ? ? ? ? ? ? ? ? []].
Qed.

Lemma heights_steps step bs : forall m, 0 <= mp_Height (m_persist m) ->
  for_each (miner_height_step step) bs m =
    Ret () (with_persist (with_height (heights_along step bs (mp_Height (m_persist m)))) m) /\
  0 <= heights_along step bs (mp_Height (m_persist m)).
Proof.
  induction bs as [|b bs IH]; intros m Hh.
  - split; [|done]. by destruct m as [? ? ? ? ? ? ? ? ? []].
  - cbn [for_each]. unfold mbind, M_bind. rewrite (height_step_run step b m Hh).
    apply (IH (with_persist (with_height (step_height step (Block_ID b) (mp_Height (m_persist m)))) m)).
    cbn. unfold step_height. case_match; [apply u64_range|done].
Qed.

Lemma miner_change_run o cc m block : ready m -> 0 <= mp_Height (m_persist m) ->
  last (cc_AppliedBlocks cc) = Some block ->
  exists m', Miner_ProcessConsensusChange o cc m = Ret () m' /\ ready m' /\
    work_base m' = (heights_along 1 (cc_AppliedBlocks cc) (heights_along (-1) (cc_RevertedBlocks cc) (mp_Height (m_persist m))),
      cc_ChildTarget cc, Block_ID block, cc_MinimumValidChildTimestamp cc).
Proof.
  intros Hrd Hh Hl. assert (exists m', Miner_ProcessConsensusChange o cc m = Ret () m' /\
    work_base m' = (heights_along 1 (cc_AppliedBlocks cc) (heights_along (-1) (cc_RevertedBlocks cc) (mp_Height (m_persist m))),
      cc_ChildTarget cc, Block_ID block, cc_MinimumValidChildTimestamp cc)) as (m' & Hrun & Hb).
  2: { exists m'. split; [done|]. split; [|done]. by eapply work_ready; [eapply work_change|]. }
  unfold Miner_ProcessConsensusChange. destruct (heights_steps (-1) (cc_RevertedBlocks cc) m Hh) as [R1 H1].
  unfold mbind at 1, M_bind at 1. rewrite R1. set (m1 := with_persist _ m).
  destruct (heights_steps 1 (cc_AppliedBlocks cc) m1 H1) as [R2 H2].
  unfold mbind at 1, M_bind at 1. rewrite R2, Hl. unfold mbind, M_bind, modify. destruct (cc_Synced cc).
  - match goal with |- context [newSourceBlock o ?x] => set (m2 := x) end.
    destruct (newSourceBlock_run o m2) as [a ->]; [by destruct Hrd|]. by eexists.
  - by eexists.
Qed.

Lemma miner_outcome d lp lp' cc m : change_between d lp lp' cc ->
  arrived miner_initial miner_at (fun _ _ => True) d lp m ->
  exists m', miner_process d cc m = Ret () m' /\ miner_at (db_BlockMap d) lp' m'.
Proof.
  intros Hcb Harr. destruct (change_follows _ _ _ _ Hcb) as (Hh & block & Hl & Hl').
  assert (ready m /\ mp_Height (m_persist m) = Z.of_nat (pred (length lp))) as [Hrd Hm].
  { destruct Harr as [[-> (m0 & Hsz & Hf & ->)]|[[Hrd (tip & pb & ts & _ & _ & _ & _ & Hb)] _]].
    - split; [|done]. pose proof (fresh_ready _ Hsz Hf) as Hrd.
      exact (proj1 (work_ready _ _ _ _ (work_rescan m0) Hrd)).
    - split; [done|]. by injection Hb. }
  destruct (miner_change_run (outs d cc m) cc m block Hrd) as (m' & Hrun & Hrd' & Hb); [lia|done|].
  exists m'. split; [done|]. split; [done|]. rewrite Hm, Hh in Hb.
  destruct (cb_child _ _ _ _ Hcb) as (tip & pb & Ht & Hpb & Hct & Hts).
  exists tip, pb, (cc_MinimumValidChildTimestamp cc).
  rewrite Ht in Hl'. injection Hl' as ->. split_and!; try done; [|by rewrite Hb, Hct].
  pose proof (cb_new _ _ _ _ Hcb) as Hch. rewrite last_lookup in Ht.
  destruct (ch_block _ _ Hch _ _ Ht) as (pb' & Hpb' & Hgen & _). congruence.
Qed.

Lemma miner_keeps_up : keeps_up miner_process miner_initial miner_step miner_at (fun _ _ => True).
Proof.
  split; [intros t t' lp m Hg _; by apply miner_at_grows|done|..].
  - intros d lp m m' Hat _ Hs. split; [by eapply miner_own|done].
  - intros d lp lp' cc m m' Hcb Harr Hrun. destruct (miner_outcome d lp lp' cc m Hcb Harr) as (m'' & Hrun' & Hat).
    rewrite Hrun' in Hrun. by injection Hrun as <-.
Qed.

Lemma miner_proceeds : proceeds miner_process miner_initial miner_at (fun _ _ => True) (fun _ => True) (fun _ _ => False).
Proof. intros d lp lp' cc m _ Hcb Harr. by destruct (miner_outcome d lp lp' cc m Hcb Harr) as (m' & -> & _). Qed.

(** ** A solved block *)

Lemma marked_fees a o m : block_fees (marked a (work_block o m)) = block_fees (base_block o m).
Proof. unfold block_fees, marked, work_block. cbn [b_Transactions with_txns]. rewrite sum_of_cons. done. Qed.

Lemma base_timestamp o m : o_now o <= o_now' o ->
  b_Timestamp (mp_UnsolvedBlock (m_persist m)) <= b_Timestamp (base_block o m).
Proof. intros Ho. unfold base_block. case_match; bool_prop; cbn; lia. Qed.

(** The block to work on, with arbitrary data and a nonce. *)
Lemma solved_valid s parent ts o m a nonce clock :
  let b := with_nonce nonce (marked a (work_block o m)) in
  work_base m = (pb_Height parent, pb_ChildTarget parent, b_ParentID b, ts) ->
  db_BlockMap (cs_db s) !! b_ParentID b = Some parent ->
  minimumValidChildTimestamp (db_BlockMap (cs_db s)) parent = Some ts ->
  o_now o <= o_now' o -> checkTarget b (Block_ID b) (pb_ChildTarget parent) = true ->
  u64 (zlen (Block_MarshalSia b)) <= BlockSizeLimit ->
  b_Timestamp b <= u64 (clock.1 + ExtremeFutureThreshold) -> b_Timestamp b <= u64 (clock.2 + FutureThreshold) ->
  Block_ID b ∉ cs_dosBlocks s -> db_BlockMap (cs_db s) !! Block_ID b = None ->
  validateHeaderAndBlock clock b (Block_ID b) s = Ret parent s.
Proof.
  intros b Hbase Hpar Hmin Ho Htarget Hsize Hfar Hnear Hdos Hnew. injection Hbase as Hh Ht Hp Hts.
  assert (Hpay : checkMinerPayouts b (u64 (pb_Height parent + 1)) = true).
  { rewrite <- Hh. apply (work_payouts_ok (base_block o m)); [done|]. apply (marked_fees a o m). }
  assert (Hmint : ts <= b_Timestamp b) by (rewrite <- Hts; apply (base_timestamp o m Ho)).
  assert (Hv : ValidateBlock clock.1 clock.2 b (Block_ID b) ts (pb_ChildTarget parent) (u64 (pb_Height parent + 1)) = None).
  { unfold ValidateBlock. rewrite Htarget, Hpay.
    rewrite (proj2 (Z.ltb_ge _ _) Hmint), (proj2 (Z.ltb_ge _ _) Hsize), (proj2 (Z.ltb_ge _ _) Hfar), (proj2 (Z.ltb_ge _ _) Hnear).
    change (_ mod ASICHardforkFactor) with (le_val (vec_to_list (b_Nonce b)) mod 1).
    by rewrite Z.mod_1_r, andb_false_r. }
  unfold validateHeaderAndBlock, mbind, M_bind, get.
  rewrite Hnew, (bool_decide_eq_false_2 _ Hdos), Hpar, Hmin, bool_decide_eq_false_2 by (by intros []).
  unfold or_panic, mret, M_ret. cbn [check err_if]. unfold mret, M_ret. by rewrite Hv.
Qed.

(** C8. The miner of a node: after any sequence of accepted and rejected blocks,
    with forks among them, of headers given out, of updates of the transaction
    pool and of blocks found, the miner is at the height of the consensus set
    and works on a child of the current block for the target the consensus set
    asks of it.  It makes a block to work on whenever it needs one, and that
    block, with whatever arbitrary data and nonce, passes the checks of the
    consensus set on headers and blocks if its ID meets the target, it is not
    too large, the clocks agree and the block is new: parent, payouts, height
    and timestamp are right.  The next changes are taken without an error or a
    panic. *)
Theorem node_miner_follows n s m : below_forks n -> miner_node n s m ->
  (exists parent, let base := mp_UnsolvedBlock (m_persist m) in
     mp_Height (m_persist m) = db_BlockHeight (cs_db s) /\
     db_BlockPath (cs_db s) !! db_BlockHeight (cs_db s) = Some (b_ParentID base) /\
     db_BlockMap (cs_db s) !! b_ParentID base = Some parent /\
     mp_Target (m_persist m) = pb_ChildTarget parent /\
     forall o, o_now o <= o_now' o -> exists b m', blockForWork o m = Ret b m' /\
       forall a nonce clock, let b' := with_nonce nonce (marked a b) in
         checkTarget b' (Block_ID b') (mp_Target (m_persist m)) = true ->
         u64 (zlen (Block_MarshalSia b')) <= BlockSizeLimit ->
         b_Timestamp b' <= u64 (clock.1 + ExtremeFutureThreshold) ->
           b_Timestamp b' <= u64 (clock.2 + FutureThreshold) ->
         Block_ID b' ∉ cs_dosBlocks s -> db_BlockMap (cs_db s) !! Block_ID b' = None ->
         validateHeaderAndBlock clock b' (Block_ID b') s = Ret parent s) /\
  forall clock blocks extended s' new synced,
    below_forks (n + Z.of_nat (length blocks)) -> Forall admissible blocks ->
    managedAcceptBlocks clock blocks s = Ret extended s' -> cs_published s' = cs_published s ++ new ->
    exists m', deliver r miner_process synced (cs_db s') new m = Ret () m'.
Proof.
  intros Hn Hnode. split.
  - destruct (node_keeps r Hr _ _ _ _ _ miner_keeps_up n s m Hn Hnode) as (lp & [Hlen Hpath] & Hch & Hat & _).
    destruct Hat as [Hrd (tip & parent & ts & Hl & Hpb & _ & Hts & Hb)].
    pose proof Hb as Hb'. injection Hb as Hh Ht Hp Hs. exists parent. cbv zeta. rewrite Hp, Ht.
    pose proof (lookup_lt_Some _ _ _ (ch_genesis _ _ Hch)) as Hpos. rewrite last_lookup in Hl.
    destruct (ch_block _ _ Hch _ _ Hl) as (pb' & Hpb' & _ & _ & Hhp & _). assert (pb' = parent) as -> by congruence.
    split_and!; [lia| |done|done|].
    + replace (db_BlockHeight (cs_db s)) with (Z.of_nat (pred (length lp))) by lia. by rewrite Hpath.
    + intros o Ho. destruct (blockForWork_run o m) as [w Hrun]. cbv zeta in Hrun. eexists _, _. split; [exact Hrun|].
      intros a nonce clock. set (b' := with_nonce _ _). intros Htarget Hsize Hfar Hnear Hdos Hnew.
      assert (Hpar : b_ParentID b' = tip) by (cbn; unfold marked, work_block, base_block; cbn; by case_match).
      eapply (solved_valid s parent ts o (with_persist (with_address w) m) a nonce clock); fold b'; try done.
      * rewrite Hpar, Hhp. exact Hb'.
      * by rewrite Hpar.
  - intros clock blocks extended s' new synced Hn' Hadm Hrun Hpub.
    pose proof (node_proceeds r Hr _ _ _ _ _ miner_keeps_up _ _ n s m clock blocks extended s' new synced
      miner_proceeds I Hn' Hnode Hadm Hrun Hpub) as Hd.
    destruct (deliver _ _ _ _ _ _) as [[] m'| |]; [by exists m'|done..].
Qed.
End miner.
