(* ===== verification/Examples.v ===== *)
(** * A concrete chain

    A database created for the standard constants, with the cryptography and
    encoding of [Instances] and addresses that need no signature, and a block
    on top of it that spends a siacoin and a siafund output, forms a contract
    and pays a fee.  The witnesses of the theorems about blocks run them. *)

From S2P Require Import Prelude Bytes Interfaces Currency Types Params Encoding Transactions.
From S2P Require Import Signatures ValidTransaction Subsidy BlockValidation ConsensusDB.
From S2P Require Import ApplyTransaction ConsensusValid GenerateDiffs Fork.
From S2P Require Import ProcessedBlock Accept Instances Records Steps Revert RevertApply.
From S2P Require Import Agree Conservation ConservationBlock.

Open Scope Z_scope.

Ltac decide_by_vm := apply (bool_decide_eq_true_1 _); vm_compute; reflexivity.

(** Unlock conditions without keys. *)
Definition ex_free : UnlockConditions := mkUnlockConditions 0 [] 0.
Definition ex_free_hash : UnlockHash := UnlockConditions_UnlockHash ex_free.
Definition ex_net : Params := standard_params (fun _ => ex_free_hash).

#[local] Hint Extern 0 Params => exact ex_net : typeclass_instances.
#[local] Hint Extern 0 Build => exact (debug_build Standard) : typeclass_instances.

Definition ret_state {S A} (o : outcome S A) (s : S) : S :=
  match o with Ret _ s' => s' | _ => s end.

Definition ex_genesis : DB := ret_state (loadDB empty_DB) empty_DB.

Definition ex_contract : FileContract :=
  mkFileContract 0 zero_hash 5 6 1000000%N
    [mkSiacoinOutput 970000%N ex_free_hash]
    [mkSiacoinOutput 900000%N ex_free_hash; mkSiacoinOutput 70000%N zero_hash]
    ex_free_hash 0.

Definition ex_txn : Transaction :=
  mkTransaction
    [mkSiacoinInput (Transaction_SiacoinOutputID genesis_siacoin_txn 5) ex_free]
    [mkSiacoinOutput (AirdropPoolValue - 1001000)%N ex_free_hash]
    [ex_contract] [] []
    [mkSiafundInput (Transaction_SiafundOutputID genesis_siafund_txn 0) ex_free zero_hash]
    [mkSiafundOutput 10000%N ex_free_hash 0%N]
    [1000%N] [] [].

Definition ex_block1 : Block :=
  mkBlock GenesisID (zero_array 8) (GenesisTimestamp + 720)
    [mkSiacoinOutput (27 * 10 ^ 27 + 1000)%N zero_hash;
     mkSiacoinOutput (3 * 10 ^ 27)%N ex_free_hash] [ex_txn].

Definition ex_pb1 : processedBlock := new_processedBlock ex_block1 1 RootDepth RootTarget.

Definition ex_run1 : outcome blockState () := generateAndApplyDiff (mkBlockState ex_genesis ex_pb1).
Definition ex_after1 : blockState := ret_state ex_run1 (mkBlockState ex_genesis ex_pb1).

Definition is_ret {S A} (o : outcome S A) : bool :=
  match o with Ret _ _ => true | _ => false end.

Lemma is_ret_state {S} (o : outcome S ()) s : is_ret o = true -> o = Ret () (ret_state o s).
Proof. by destruct o as [[]| |]. Qed.

Lemma ex_run1_Ret : ex_run1 = Ret () ex_after1.
Proof. apply is_ret_state. vm_compute. reflexivity. Qed.

Lemma ex_genesis_fcex : fcex_ok ex_genesis.
Proof.
  assert (Hfc : db_FileContracts ex_genesis = ∅) by decide_by_vm.
  assert (Hx : db_FCEX ex_genesis = ∅) by decide_by_vm.
  unfold fcex_ok, expirations_ok. rewrite Hfc, Hx. clear Hfc Hx.
  intros h id. rewrite !lookup_empty. split.
  - intros Hid. by apply not_elem_of_empty in Hid.
  - by intros (fc & ? & _).
Qed.

Lemma ex_genesis_accounts : accounts_ok ex_genesis.
Proof.
  assert (Hs : db_SiafundOutputs ex_genesis =
    {[Transaction_SiafundOutputID genesis_siafund_txn 0 :=
      mkSiafundOutput 10000%N ex_free_hash 0%N]})
    by decide_by_vm.
  assert (Hfc : db_FileContracts ex_genesis = ∅) by decide_by_vm.
  assert (Hp : db_SiafundPool ex_genesis = 0%N) by decide_by_vm.
  unfold accounts_ok, claims_ok, contracts_ok, funds. rewrite Hs, Hp, Hfc. clear Hs Hp Hfc.
  split_and!.
  - decide_by_vm.
  - intros id sfo [_ <-]%lookup_singleton_Some. by vm_compute.
  - intros id fc. by rewrite lookup_empty.
Qed.

Lemma ex_pb1_ordinary : ordinary ex_pb1.
Proof. split; vm_compute; [discriminate|reflexivity]. Qed.

Lemma ex_run1_Ret_pair :
  generateAndApplyDiff (mkBlockState ex_genesis ex_pb1)
  = Ret () (mkBlockState (bs_db ex_after1) (bs_pb ex_after1)).
Proof. fold ex_run1. rewrite ex_run1_Ret. by destruct ex_after1. Qed.

Lemma commitDiffSet_undoes_block_witness :
  exists e0 e1,
    commitDiffSet (B:=release_build Standard) (bs_pb ex_after1) DiffRevert (bs_db ex_after1)
      = Ret () e0 /\
    db_SiacoinOutputs e0 = db_SiacoinOutputs (with_block (bs_pb ex_after1) ex_genesis) /\
    commitDiffSet (B:=release_build Standard) (bs_pb ex_after1) DiffApply e0 = Ret () e1 /\
    db_SiacoinOutputs e1 = db_SiacoinOutputs (bs_db ex_after1).
Proof.
  destruct (commitDiffSet_undoes_block Standard Standard ex_genesis ex_pb1 (bs_db ex_after1)
    (bs_pb ex_after1)) as (e0 & e1 & H1 & [S1 _] & H2 & [S2 _]).
  - exact ex_genesis_fcex.
  - exact ex_pb1_ordinary.
  - repeat split.
  - vm_compute. split; [discriminate|reflexivity].
  - decide_by_vm.
  - exact ex_run1_Ret_pair.
  - exact (ex_intro _ e0 (ex_intro _ e1
      (conj H1 (conj (sc_sco _ _ _ S1) (conj H2 (sc_sco _ _ _ S2)))))).
Defined.

Lemma generateAndApplyDiff_mints_coinbase_witness :
  total_coins (bs_db ex_after1) = (320126060000000000000000000000000002)%N.
Proof.
  destruct (generateAndApplyDiff_mints_coinbase Standard ex_genesis ex_pb1 (bs_db ex_after1)
    (bs_pb ex_after1)) as [Ht _].
  - exact ex_genesis_accounts.
  - exact ex_genesis_fcex.
  - exact ex_pb1_ordinary.
  - apply (Z.leb_le _ _). vm_compute. reflexivity.
  - split; [discriminate|reflexivity].
  - vm_compute. reflexivity.
  - exact ex_run1_Ret_pair.
  - rewrite Ht. decide_by_vm.
Defined.

(** The transaction of the block on the database before it. *)
Definition ex_before_txn : blockState := mkBlockState (with_upcoming ex_genesis ex_pb1) ex_pb1.
Definition ex_txn_run : outcome blockState () :=
  (_ ← on_db (validTransaction ex_txn); applyTransaction ex_txn) ex_before_txn.

Lemma with_upcoming_accounts d pb : accounts_ok d -> accounts_ok (with_upcoming d pb).
Proof. done. Qed.
Lemma with_upcoming_fcex d pb : fcex_ok d -> fcex_ok (with_upcoming d pb).
Proof. done. Qed.

Lemma ex_txn_run_Ret : ex_txn_run = Ret () (ret_state ex_txn_run ex_before_txn).
Proof. apply is_ret_state. vm_compute. reflexivity. Qed.

Lemma applyTransaction_conserves_witness :
  (total_coins (bs_db (ret_state ex_txn_run ex_before_txn)) + 1000
   = total_coins (bs_db ex_before_txn))%N.
Proof.
  destruct (applyTransaction_conserves Standard ex_txn ex_before_txn
    (ret_state ex_txn_run ex_before_txn)) as (Ht & _).
  - exact (with_upcoming_accounts ex_genesis ex_pb1 ex_genesis_accounts).
  - exact (with_upcoming_fcex ex_genesis ex_pb1 ex_genesis_fcex).
  - apply (Z.leb_le _ _). vm_compute. reflexivity.
  - exact ex_txn_run_Ret.
  - exact Ht.
Defined.
