(* ===== verification/ExamplesChain.v ===== *)
(** * A concrete reorganisation

    A block with a contract is accepted on the genesis block of [Examples], then
    a side block is stored, and its child makes the side chain the heavier one.
    The witnesses of the theorems about chains run these calls. *)

From S2P Require Import Prelude Bytes Interfaces Currency Types Params Encoding Transactions.
From S2P Require Import Subsidy ConsensusDB ProcessedBlock BlockValidation Fork Accept.
From S2P Require Import Instances Agree Frames Conservation Chain ChainFork ChainAccept ChainState.
From S2P Require Import Examples.

Open Scope Z_scope.

#[local] Hint Extern 0 Params => exact ex_net : typeclass_instances.
#[local] Hint Extern 0 Build => exact (debug_build Standard) : typeclass_instances.

Definition ex_pay : Transaction :=
  mkTransaction
    [mkSiacoinInput (Transaction_SiacoinOutputID genesis_siacoin_txn 5) ex_free]
    [mkSiacoinOutput (AirdropPoolValue - 1001000)%N ex_free_hash]
    [ex_contract] [] [] [] [] [1000%N] [] [].
Definition ex_payouts (fee : N) : list SiacoinOutput :=
  [mkSiacoinOutput (27 * 10 ^ 27 + fee)%N zero_hash; mkSiacoinOutput (3 * 10 ^ 27)%N ex_free_hash].
Definition ex_a1 : Block :=
  mkBlock GenesisID (zero_array 8) (GenesisTimestamp + 720) (ex_payouts 1000) [ex_pay].
Definition ex_b1 : Block :=
  mkBlock GenesisID (zero_array 8) (GenesisTimestamp + 721) (ex_payouts 0) [].
Definition ex_b2 : Block :=
  mkBlock (Block_ID ex_b1) (zero_array 8) (GenesisTimestamp + 1440) (ex_payouts 0) [].

Definition ex_clock (i : Z) : Timestamp * Timestamp :=
  (GenesisTimestamp + 2000, GenesisTimestamp + 2000).
Definition out_state {S A} (o : outcome S A) (s : S) : S :=
  match o with Ret _ s' | Err _ s' => s' | Panic _ => s end.
Definition ex_accept (blocks : list Block) (s : ConsensusSet) : ConsensusSet :=
  out_state (managedAcceptBlocks ex_clock blocks s) s.
Definition ex_s0 := new_set ex_genesis.
Definition ex_s1 := ex_accept [ex_a1] ex_s0.
Definition ex_s2 := ex_accept [ex_b1] ex_s1.
Definition ex_s3 := ex_accept [ex_b2] ex_s2.

Definition is_panic {S A} (o : outcome S A) : bool :=
  match o with Panic _ => true | _ => false end.

Lemma ex_genesis_Ret : loadDB empty_DB = Ret () ex_genesis.
Proof. apply is_ret_state. vm_compute. reflexivity. Qed.

Lemma ex_reach n s blocks :
  reachable Standard n s -> Forall admissible blocks ->
  is_panic (managedAcceptBlocks ex_clock blocks s) = false ->
  reachable Standard (n + Z.of_nat (length blocks)) (ex_accept blocks s).
Proof.
  intros Hs Hadm. unfold ex_accept.
  destruct (managedAcceptBlocks ex_clock blocks s) as [x s'|e s'|] eqn:Hrun; cbn; intros Hp.
  - by eapply reachable_accept.
  - by eapply reachable_reject.
  - discriminate.
Qed.

(** Blocks without siafund inputs. *)
Definition no_siafunds (b : Block) : bool :=
  forallb (fun t => match t_SiafundInputs t with [] => true | _ => false end) (b_Transactions b)
  && negb (bool_decide (Block_ID b = zero_hash)).

Lemma no_siafunds_admissible b : no_siafunds b = true -> admissible b.
Proof.
  unfold no_siafunds. intros [Ht Hid]%andb_true_iff. split.
  - intros t sfi Hin Hsfi. rewrite forallb_forall in Ht. apply list_elem_of_In in Hin.
    specialize (Ht t Hin). destruct (t_SiafundInputs t); [|done]. by apply elem_of_nil in Hsfi.
  - by apply negb_true_iff, bool_decide_eq_false_1 in Hid.
Qed.

Lemma ex_one b : no_siafunds b = true -> Forall admissible [b].
Proof. intros. constructor; [by apply no_siafunds_admissible|constructor]. Qed.

Lemma ex_reachable : reachable Standard 4 ex_s3.
Proof.
  apply (ex_reach 3 ex_s2 [ex_b2]); [apply (ex_reach 2 ex_s1 [ex_b1]);
    [apply (ex_reach 1 ex_s0 [ex_a1])| |]| |].
  - exact (reachable_new Standard ex_genesis ex_genesis_Ret).
  - apply ex_one. vm_compute. reflexivity.
  - vm_compute. reflexivity.
  - apply ex_one. vm_compute. reflexivity.
  - vm_compute. reflexivity.
  - apply ex_one. vm_compute. reflexivity.
  - vm_compute. reflexivity.
Qed.

Lemma ex_below : below_forks 4.
Proof. apply (bool_decide_eq_true_1 _). vm_compute. reflexivity. Qed.

Lemma ex_below3 : below_forks 3.
Proof. apply (bool_decide_eq_true_1 _). vm_compute. reflexivity. Qed.

Lemma ex_funds : genesis_funds_ok.
Proof. split; [vm_compute; reflexivity|repeat constructor]. Qed.

Lemma ex_path_b2 : db_BlockPath (cs_db ex_s3) !! 2 = Some (Block_ID ex_b2).
Proof.
  apply (@bool_decide_eq_true_1 _ (option_eq_dec _ _)). vm_compute. reflexivity.
Qed.

(** After the reorganisation the state is that of the side chain. *)
Lemma managedAcceptBlocks_state_witness :
  exists bs d, history Standard bs d /\ same_tip (cs_db ex_s3) d /\
    Block_ID <$> bs !! 2%nat = Some (Block_ID ex_b2).
Proof.
  destruct (managedAcceptBlocks_state Standard 4 ex_s3 ltac:(discriminate) ex_below ex_reachable)
    as (bs & d & Hh & Ht & _ & Hp).
  exact (ex_intro _ bs (ex_intro _ d (conj Hh (conj Ht (eq_trans (eq_sym (Hp 2%nat)) ex_path_b2))))).
Defined.

Lemma ex_height : db_BlockHeight (cs_db ex_s3) = 2.
Proof. decide_by_vm. Qed.
Lemma ex_supply : supply (S (Z.to_nat 2)) = 320126090000000000000000000000000002%N.
Proof. decide_by_vm. Qed.

Lemma managedAcceptBlocks_supply_witness :
  total_coins (cs_db ex_s3) = 320126090000000000000000000000000002%N.
Proof.
  destruct (managedAcceptBlocks_supply Standard 4 ex_s3 ltac:(discriminate) ex_funds ex_below
    ex_reachable) as [_ Ht].
  rewrite ex_height, ex_supply in Ht. exact Ht.
Defined.

Lemma ex_published : cs_published ex_s3 =
  [mkChangeEntry [] [Block_ID ex_a1];
   mkChangeEntry [Block_ID ex_a1] [Block_ID ex_b1; Block_ID ex_b2]].
Proof. decide_by_vm. Qed.

Lemma ex_reachable_s2 : reachable Standard 3 ex_s2.
Proof.
  apply (ex_reach 2 ex_s1 [ex_b1]); [apply (ex_reach 1 ex_s0 [ex_a1])| |].
  - exact (reachable_new Standard ex_genesis ex_genesis_Ret).
  - apply ex_one. vm_compute. reflexivity.
  - vm_compute. reflexivity.
  - apply ex_one. vm_compute. reflexivity.
  - vm_compute. reflexivity.
Qed.

Lemma ex_s3_Ret : exists x, managedAcceptBlocks ex_clock [ex_b2] ex_s2 = Ret x ex_s3.
Proof.
  assert (H : is_ret (managedAcceptBlocks ex_clock [ex_b2] ex_s2) = true)
    by (vm_compute; reflexivity).
  unfold ex_s3, ex_accept.
  destruct (managedAcceptBlocks ex_clock [ex_b2] ex_s2) as [x s| |]; [|discriminate H..].
  exists x. reflexivity.
Qed.

(** The block that makes the side chain the heavier one. *)
Lemma managedAcceptBlocks_outcome_witness : gains (cs_db ex_s2) (cs_db ex_s3).
Proof.
  pose proof (managedAcceptBlocks_outcome Standard 3 ex_s2 ex_clock [ex_b2] ltac:(discriminate)
    ex_below ex_reachable_s2 (ex_one ex_b2 ltac:(vm_compute; reflexivity))) as H.
  destruct ex_s3_Ret as [x Hx]. rewrite Hx in H. exact (proj1 H).
Defined.

Lemma published_changes_follow_path_witness :
  exists lp, follow_all
    [mkChangeEntry [] [Block_ID ex_a1];
     mkChangeEntry [Block_ID ex_a1] [Block_ID ex_b1; Block_ID ex_b2]] [GenesisID] = Some lp /\
    path_list (cs_db ex_s3) lp.
Proof.
  pose proof (published_changes_follow_path Standard 4 ex_s3 ltac:(discriminate) ex_below
    ex_reachable) as H.
  rewrite ex_published in H. exact H.
Defined.

(** The side block before its child arrives. *)
Definition ex_node_b1 : processedBlock :=
  default blockRoot (db_BlockMap (cs_db ex_s2) !! Block_ID ex_b1).

Lemma ex_node_b1_in : in_tree (db_BlockMap (cs_db ex_s2)) ex_node_b1.
Proof.
  assert (Hkey : block_id ex_node_b1 = Block_ID ex_b1) by decide_by_vm.
  assert (Hin : match db_BlockMap (cs_db ex_s2) !! Block_ID ex_b1 with
                | Some _ => true | None => false end = true) by (vm_compute; reflexivity).
  unfold in_tree. rewrite Hkey. unfold ex_node_b1.
  destruct (db_BlockMap (cs_db ex_s2) !! Block_ID ex_b1) as [pb|]; [reflexivity|discriminate Hin].
Qed.

Lemma fork_loops_terminate_witness :
  exists parent rest,
    backtrackToCurrentPath (B:=release_build Standard) ex_node_b1 (cs_db ex_s2)
      = Ret (parent :: rest) (cs_db ex_s2) /\
    trail (db_BlockMap (cs_db ex_s2)) (db_BlockPath (cs_db ex_s2)) ex_node_b1 (parent :: rest).
Proof.
  destruct (fork_loops_terminate Standard ltac:(discriminate) (mret ()) 3 ex_s2 ex_node_b1
    ex_below3 ex_reachable_s2 ex_node_b1_in) as (parent & rest & _ & _ & H1 & H2 & _).
  exact (ex_intro _ parent (ex_intro _ rest (conj H1 H2))).
Defined.
