(* ===== verification/ExamplesPool.v ===== *)
(** * A concrete transaction pool

    On the genesis state of [Examples] a payment enters the pool, then a
    transaction that spends both of its outputs, which is merged with it; a
    block that confirms the payment leaves the child.  The witnesses of the
    theorems about the pool run these calls. *)

From S2P Require Import Prelude Bytes Interfaces Currency Types Params Encoding Transactions.
From S2P Require Import Subsidy ConsensusDB ProcessedBlock BlockValidation Fork Accept.
From S2P Require Import Instances Agree Chain ChainState Examples ExamplesChain.
From S2P Require Import MinimumSet ConsensusSubscribe TransactionPool TransactionPoolUpdate FindSets TransactionPoolFacts.
From S2P Require Import TransactionPoolSubscribers TransactionPoolConsensus TransactionPoolFollow.

Open Scope Z_scope.

#[local] Hint Extern 0 Params => exact ex_net : typeclass_instances.
#[local] Hint Extern 0 Build => exact (debug_build Standard) : typeclass_instances.

Definition ex_half : N := (AirdropPoolValue / 2)%N.
Definition ex_parent : Transaction :=
  mkTransaction
    [mkSiacoinInput (Transaction_SiacoinOutputID genesis_siacoin_txn 5) ex_free]
    [mkSiacoinOutput ex_half ex_free_hash;
     mkSiacoinOutput (AirdropPoolValue - ex_half - 1000)%N ex_free_hash]
    [] [] [] [] [] [1000%N] [] [].
Definition ex_child : Transaction :=
  mkTransaction
    [mkSiacoinInput (Transaction_SiacoinOutputID ex_parent 0) ex_free;
     mkSiacoinInput (Transaction_SiacoinOutputID ex_parent 1) ex_free]
    [mkSiacoinOutput (AirdropPoolValue - 3000)%N ex_free_hash]
    [] [] [] [] [] [2000%N] [] [].

(** The iteration orders: that of the elements, and its reverse. *)
Definition ex_range (n : nat) (l : list Hash) : list Hash := if Nat.even n then l else reverse l.
Definition ex_range_int (l : list nat) : list nat := reverse l.

Lemma ex_range_perm n l : ex_range n l ≡ₚ l.
Proof. unfold ex_range. destruct (Nat.even n); [done|apply reverse_Permutation]. Qed.
Lemma ex_range_int_perm l : ex_range_int l ≡ₚ l.
Proof. apply reverse_Permutation. Qed.

Definition ex_pool_db : poolDB := mkPoolDB ∅ (Some ConsensusChangeBeginning) (Some GenesisID) (Some 0) None.
Definition ex_pool0 : TransactionPool :=
  ret_state (TransactionPoolSubscribe ex_range 7 (initPersist ex_pool_db).1)
    (initPersist ex_pool_db).1.
Definition ex_try : txn_fn := consensus_txnFn ex_genesis.
Definition ex_pool1 : TransactionPool :=
  out_state (acceptTransactionSet ex_range [ex_parent] ex_try ex_pool0) ex_pool0.
Definition ex_pool2 : TransactionPool :=
  out_state (acceptTransactionSet ex_range [ex_child] ex_try ex_pool1) ex_pool1.

Definition ret_ids (o : outcome TransactionPool (list Transaction)) : option (list Hash) :=
  match o with Ret l _ => Some (Transaction_ID <$> l) | _ => None end.

Lemma ret_ids_Ret o ids tp :
  ret_ids o = Some ids -> exists l, o = Ret l (out_state o tp) /\ Transaction_ID <$> l = ids.
Proof. destruct o as [l s| |]; [|discriminate..]. cbn. intros [= <-]. by exists l. Qed.

(** ** The pool with the payment *)

Lemma ex_pool0_ok U : pool_ok U ex_try ex_pool0.
Proof. by apply emptied_ok. Qed.

Definition ex_universe : list Transaction := [ex_parent; ex_child].

Lemma ex_ids : ids_name_objects ex_universe.
Proof.
  assert (Hne : Transaction_ID ex_parent <> Transaction_ID ex_child)
    by (apply (@bool_decide_eq_true_1 _ (not_dec _)); vm_compute; reflexivity).
  intros t t' [->|[->|[]%elem_of_nil]%elem_of_cons]%elem_of_cons
    [->|[->|[]%elem_of_nil]%elem_of_cons]%elem_of_cons Heq; [done| | |done].
  - destruct (Hne Heq).
  - destruct (Hne (eq_sym Heq)).
Qed.

Lemma ex_run_parent :
  ret_ids (acceptTransactionSet ex_range [ex_parent] ex_try ex_pool0) = Some [Transaction_ID ex_parent].
Proof. vm_compute. reflexivity. Qed.

Lemma ex_run_child :
  ret_ids (acceptTransactionSet ex_range [ex_child] ex_try ex_pool1) =
    Some [Transaction_ID ex_parent; Transaction_ID ex_child].
Proof. vm_compute. reflexivity. Qed.

Lemma ex_accept_ok ts tp ids :
  pool_ok (fun t => t ∈ ex_universe) ex_try tp -> (forall t, t ∈ ts -> t ∈ ex_universe) ->
  ret_ids (acceptTransactionSet ex_range ts ex_try tp) = Some ids ->
  pool_ok (fun t => t ∈ ex_universe) ex_try (out_state (acceptTransactionSet ex_range ts ex_try tp) tp) /\
  chain_part (out_state (acceptTransactionSet ex_range ts ex_try tp) tp) = chain_part tp.
Proof.
  intros Hok Hts Hrun. destruct (ret_ids_Ret _ _ tp Hrun) as (l & Heq & _).
  pose proof (acceptTransactionSet_outcome ex_range ex_range_perm _ ex_ids ex_try
    (consensus_diffs_cover ex_genesis) tp ts Hok Hts) as Ho.
  rewrite Heq in Ho. rewrite Heq. destruct Ho as [Ho (merged & new & Hacc)].
  split; [exact Ho|exact (ac_chain _ _ _ _ _ _ _ Hacc)].
Qed.

Lemma ex_singleton t : t ∈ ex_universe -> forall t', t' ∈ [t] -> t' ∈ ex_universe.
Proof. by intros Ht t' ->%list_elem_of_singleton. Qed.

Lemma ex_parent_in : ex_parent ∈ ex_universe.
Proof. left. Qed.
Lemma ex_child_in : ex_child ∈ ex_universe.
Proof. right. left. Qed.

Lemma ex_pool1_ok : pool_ok (fun t => t ∈ ex_universe) ex_try ex_pool1.
Proof.
  exact (proj1 (ex_accept_ok _ _ _ (ex_pool0_ok _) (ex_singleton _ ex_parent_in) ex_run_parent)).
Qed.

Lemma ex_pool2_ok : pool_ok (fun t => t ∈ ex_universe) ex_try ex_pool2.
Proof.
  exact (proj1 (ex_accept_ok _ _ _ ex_pool1_ok (ex_singleton _ ex_child_in) ex_run_child)).
Qed.

(** The child is merged with its parent. *)
Lemma acceptTransactionSet_spec_witness :
  pool_ok (fun t => t ∈ ex_universe) ex_try ex_pool2 /\
  exists superset merged new,
    accepted ex_range ex_pool1 [ex_child] superset ex_pool2 merged new /\
    Transaction_ID <$> superset = [Transaction_ID ex_parent; Transaction_ID ex_child].
Proof.
  pose proof (acceptTransactionSet_spec ex_range ex_genesis ex_universe ex_pool1 [ex_child]
    ex_range_perm ex_ids (ex_singleton _ ex_child_in) ex_pool1_ok) as H.
  destruct (ret_ids_Ret _ _ ex_pool1 ex_run_child) as (l & Heq & Hl).
  fold ex_try in H. rewrite Heq in H. destruct H as [H1 (merged & new & H2)].
  exact (conj H1 (ex_intro _ l (ex_intro _ merged (ex_intro _ new (conj H2 Hl))))).
Defined.

(** ** The minimum set

    The child spends two outputs of its parent, and the parent is in the result
    twice: the map of included transactions only ever holds the required
    ones. *)
Lemma ex_minimum_ids :
  option_map (fun l => Transaction_ID <$> l)
    (MinimumTransactionSet (ex_range 6) [ex_child] [ex_parent; ex_child]) =
  Some [Transaction_ID ex_parent; Transaction_ID ex_parent; Transaction_ID ex_child].
Proof. vm_compute. reflexivity. Qed.

Lemma MinimumTransactionSet_spec_witness :
  exists parents, MinimumTransactionSet (ex_range 6) [ex_child] ex_universe = Some (parents ++ [ex_child]) /\
    Transaction_ID <$> parents = [Transaction_ID ex_parent; Transaction_ID ex_parent] /\
    forall t, t ∈ parents -> needed [ex_child] ex_universe t.
Proof.
  destruct (MinimumTransactionSet_spec (ex_range 6) [ex_child] ex_universe (ex_range_perm 6))
    as (parents & Heq & Hneed).
  pose proof ex_minimum_ids as Hids. fold ex_universe in Hids. rewrite Heq in Hids.
  cbn [option_map] in Hids. apply Some_inj in Hids. rewrite fmap_app in Hids.
  apply (app_inj_tail (Transaction_ID <$> parents) [_; _]) in Hids. destruct Hids as [Hids _].
  exact (ex_intro _ parents (conj Heq (conj Hids (fun t => proj1 (Hneed t))))).
Defined.

(** ** The sets of a block *)

Lemma ex_last_source : last_source [ex_parent] (Transaction_SiacoinOutputID ex_parent 0) = Some ex_parent.
Proof.
  unfold last_source. rewrite filter_cons_True; [done|]. unfold source_ids.
  apply elem_of_app. left. cbn [ex_parent t_SiacoinOutputs imap]. left.
Qed.

Lemma findSets_spec_witness :
  exists sets S pre post, findSets ex_range_int ex_universe = Some sets /\ S ∈ sets /\
    S = pre ++ ex_child :: post /\ Transaction_ID ex_parent ∈ Transaction_ID <$> pre.
Proof.
  destruct (findSets_spec ex_range_int ex_range_int_perm ex_universe) as (sets & Heq & _ & _ & Hdep).
  destruct (Hdep [ex_parent] ex_child [] (Transaction_SiacoinOutputID ex_parent 0) ex_parent eq_refl
    ltac:(left) ex_last_source) as (S & pre & post & H).
  exact (ex_intro _ sets (ex_intro _ S (ex_intro _ pre (ex_intro _ post (conj Heq H))))).
Defined.

(** ** A subscriber *)

Lemma ex_pool0_in_sync : in_sync ex_pool0.
Proof.
  split.
  - apply NoDup_singleton.
  - apply map_Forall_empty.
  - intros s ->%list_elem_of_singleton. reflexivity.
Qed.

Lemma ex_pool1_in_sync : in_sync ex_pool1.
Proof.
  apply (in_sync_chain ex_pool0); [|exact ex_pool0_in_sync].
  exact (proj2 (ex_accept_ok _ _ _ (ex_pool0_ok _) (ex_singleton _ ex_parent_in) ex_run_parent)).
Qed.

Lemma ex_pool1_ids : map_Forall (fun id ts => id = set_id ts) (tp_transactionSets ex_pool1).
Proof.
  intros id ts Hts. exact (st_id _ _ _ _ _ (po_sets _ _ _ _ ex_pool1_ok id ts Hts)).
Qed.

Lemma subscribers_keep_up_witness :
  in_sync (updateSubscribersTransactions ex_range ex_pool1) /\
  dom (tp_subscriberSets (updateSubscribersTransactions ex_range ex_pool1)) =
    dom (tp_transactionSets ex_pool1).
Proof.
  destruct (subscribers_keep_up ex_range ex_range_perm ex_pool1 CallUpdate _ ex_pool1_ids
    ex_pool1_in_sync ltac:(discriminate) eq_refl) as (H1 & _ & H2).
  exact (conj H1 (H2 eq_refl)).
Defined.

(** ** A block that confirms the payment *)

Definition ex_p1 : Block :=
  mkBlock GenesisID (zero_array 8) (GenesisTimestamp + 720) (ex_payouts 1000) [ex_parent].
Definition ex_db_p1 : DB := cs_db (ex_accept [ex_p1] ex_s0).
Definition ex_change : ConsensusChange := add_applied ex_p1 (mkConsensusChangeDiffs [] [] [] [] []) (new_change zero_hash).
Definition ex_pool3_run : outcome TransactionPool () :=
  TransactionPool_ProcessConsensusChange (PP:=standard_pool_params) ex_range ex_range_int
    (consensus_txnFn ex_db_p1) ex_change ex_pool2.

Lemma ex_pool3_Ret : is_ret ex_pool3_run = true.
Proof. vm_compute. reflexivity. Qed.

Lemma ex_pool2_db : tp_db ex_pool2 = ex_pool_db.
Proof.
  pose proof (proj2 (ex_accept_ok _ _ _ ex_pool1_ok (ex_singleton _ ex_child_in) ex_run_child)) as H2.
  pose proof (proj2 (ex_accept_ok _ _ _ (ex_pool0_ok _) (ex_singleton _ ex_parent_in) ex_run_parent)) as H1.
  exact (eq_trans (chain_part_db _ _ H2) (chain_part_db _ _ H1)).
Qed.

Lemma ex_change_fits : change_fits (tp_db ex_pool2) ex_change.
Proof.
  rewrite ex_pool2_db. unfold change_fits.
  assert (getRecentBlockID ex_pool_db = Some GenesisID) as ->
    by (apply (@bool_decide_eq_true_1 _ (option_eq_dec _ _)); vm_compute; reflexivity).
  exists GenesisID, (Block_ID ex_p1). repeat split.
Qed.

Lemma ProcessConsensusChange_spec_witness :
  exists tp', ex_pool3_run = Ret () tp' /\
    pool_ok (fun t => pooled ex_pool2 t \/ t ∈ []) (consensus_txnFn ex_db_p1) tp' /\
    pd_RecentBlockID (tp_db tp') = Some (Block_ID ex_p1) /\
    median_of (tp_recentMedians tp') (tp_recentMedianFee tp').
Proof.
  pose proof (ProcessConsensusChange_spec (PP:=standard_pool_params) ex_range ex_range_perm
    ex_range_int ex_range_int_perm ex_genesis ex_db_p1 ex_universe ex_pool2 ex_change ex_ids
    ltac:(intros t Ht; destruct (not_elem_of_nil t Ht)) ex_pool2_ok ex_change_fits ltac:(discriminate)) as H.
  pose proof (is_ret_state ex_pool3_run ex_pool2 ex_pool3_Ret) as Hr.
  change (TransactionPool_ProcessConsensusChange _ _ _ _ _) with ex_pool3_run in H.
  rewrite Hr in H. destruct H as (H1 & tp1 & Hf & Hdb & _ & Hm & Hfee).
  pose proof (fl_median _ _ _ _ Hf) as Hmed. rewrite <- Hm, <- Hfee in Hmed.
  exact (ex_intro _ _ (conj Hr (conj H1 (conj (eq_trans (f_equal pd_RecentBlockID Hdb)
    (fl_recent _ _ _ _ Hf ex_p1 eq_refl)) Hmed)))).
Defined.
