(* ===== verification/ExamplesNode.v ===== *)
(** * A concrete node

    The calls of [ExamplesChain] with modules that subscribe: one subscribes
    while the blocks arrive, and the transaction pool follows them through the
    reorganisation.  The witnesses of the theorems about nodes run these calls. *)

From S2P Require Import Prelude Bytes Interfaces Currency Types Params Encoding Transactions.
From S2P Require Import Subsidy ConsensusDB ProcessedBlock BlockValidation Fork Accept.
From S2P Require Import Instances Agree Chain ChainFork ChainAccept ChainState ChangeLog Examples ExamplesChain.
From S2P Require Import ConsensusSubscribe Subscription Replay Node.
From S2P Require Import MinimumSet TransactionPool TransactionPoolUpdate TransactionPoolFacts.
From S2P Require Import TransactionPoolConsensus TransactionPoolFollow NodePool ExamplesPool.

Open Scope Z_scope.

#[local] Hint Extern 0 Params => exact ex_net : typeclass_instances.
#[local] Hint Extern 0 PoolParams => exact standard_pool_params : typeclass_instances.
#[local] Hint Extern 0 Build => exact (debug_build Standard) : typeclass_instances.

(** ** Subscribing while blocks arrive *)

(** The blocks arrive before the second and the fourth time the lock is held. *)
Definition ex_view_set (k : nat) : ConsensusSet :=
  match k with 0%nat => ex_s0 | 1%nat | 2%nat => ex_s1 | _ => ex_s3 end.
Definition ex_view_count (k : nat) : Z :=
  match k with 0%nat => 1 | 1%nat | 2%nat => 2 | _ => 4 end.
Definition ex_views (k : nat) : csView unit := mkCsView (ex_view_set k) false [].

Lemma ex_steps n s blocks :
  Forall admissible blocks -> is_panic (managedAcceptBlocks ex_clock blocks s) = false ->
  forall n0 s0, steps Standard n0 s0 n s ->
  steps Standard n0 s0 (n + Z.of_nat (length blocks)) (ex_accept blocks s).
Proof.
  intros Hadm Hp n0 s0 Hs. unfold ex_accept.
  destruct (managedAcceptBlocks ex_clock blocks s) as [x s'|e s'|] eqn:Hrun; cbn.
  - by eapply steps_accept.
  - by eapply steps_reject.
  - discriminate Hp.
Qed.

Lemma ex_schedule : schedule Standard ex_views ex_view_count 4.
Proof.
  split.
  - exact (reachable_new Standard ex_genesis ex_genesis_Ret).
  - intros [|[|[|k]]]; cbn [ex_views v_set ex_view_set ex_view_count].
    + apply (ex_steps 1 ex_s0 [ex_a1]); [apply ex_one; vm_compute; reflexivity|vm_compute; reflexivity|constructor].
    + constructor.
    + apply (ex_steps 3 ex_s2 [ex_b2]); [apply ex_one; vm_compute; reflexivity|vm_compute; reflexivity|].
      apply (ex_steps 2 ex_s1 [ex_b1]); [apply ex_one; vm_compute; reflexivity|vm_compute; reflexivity|constructor].
    + constructor.
  - intros [|[|[|k]]]; cbn; lia.
  - exact ex_below.
Qed.

Lemma ids_distinct_decide l :
  bool_decide (NoDup (changeEntry_ID <$> l)) &&
  bool_decide (Forall (fun id => id <> zero_hash /\ id <> ConsensusChangeRecent) (changeEntry_ID <$> l)) = true ->
  ids_distinct l.
Proof.
  intros [Hnd%bool_decide_eq_true_1 Hall%bool_decide_eq_true_1]%andb_true_iff. split.
  - intros ce ce' [i Hi]%list_elem_of_lookup [j Hj]%list_elem_of_lookup Heq.
    assert (i = j) as ->; [|congruence].
    eapply (NoDup_lookup (changeEntry_ID <$> l)); [done|by rewrite list_lookup_fmap, Hi|].
    rewrite list_lookup_fmap, Hj, Heq. done.
  - intros ce Hce. rewrite Forall_forall in Hall. apply Hall. by apply list_elem_of_fmap_2.
Qed.

Lemma ex_distinct : ids_distinct (all_changes ex_s3).
Proof. apply ids_distinct_decide. unfold all_changes. rewrite ex_published. vm_compute. reflexivity. Qed.

(** The subscriber keeps the IDs of the changes. *)
Definition ex_collect (cc : ConsensusChange) (l : list Hash) : list Hash := l ++ [cc_ID cc].

Lemma ConsensusSetSubscribe_delivers_witness :
  exists k ccs polls,
    ConsensusSetSubscribe (fun (_ : unit) cc => modify (ex_collect cc)) ex_views
      (fun _ => false) (fun _ => false) 4 4 tt ConsensusChangeBeginning (mkSubscribing 0%nat 0%nat [])
    = Ret (ex_views k, [tt]) (mkSubscribing (S k) polls (after ex_collect ccs [])) /\
    Forall2 (computed_by Standard ex_views k) (drop 0 (all_changes (ex_view_set k))) ccs.
Proof.
  refine (ConsensusSetSubscribe_delivers Standard (fun (_ : unit) cc => modify (ex_collect cc))
    ex_collect ex_views (fun _ => false) (fun _ => false) ex_view_count 4 3 tt ConsensusChangeBeginning 0 []
    4 4 ltac:(discriminate) ex_schedule _ ex_distinct (fun _ _ => eq_refl) (fun _ => eq_refl)
    (fun _ => eq_refl) _ _ _ _).
  - intros [|[|[|k]]] Hk; [lia..|reflexivity].
  - intros k Hk. by apply elem_of_nil in Hk.
  - left. split; reflexivity.
  - cbn [ex_views v_set ex_view_set]. unfold all_changes. rewrite ex_published. cbn. lia.
  - lia.
Defined.

(** ** A module through the reorganisation *)

Lemma out_state_Ret {S} (o : outcome S ()) s : is_ret o = true -> o = Ret () (out_state o s).
Proof. destruct o as [[] s'| |]; [done|discriminate..]. Qed.

Lemma ex_published_s0 : cs_published ex_s0 = [].
Proof. reflexivity. Qed.
Lemma ex_published_s1 : cs_published ex_s1 = [mkChangeEntry [] [Block_ID ex_a1]].
Proof. decide_by_vm. Qed.
Lemma ex_published_s2 : cs_published ex_s2 = [mkChangeEntry [] [Block_ID ex_a1]].
Proof. decide_by_vm. Qed.

Section through.
Context {T : Type} (process : DB -> ConsensusChange -> M T ()) (initial : T -> Prop) (own : DB -> T -> T -> Prop).

Definition ex_taken (s : ConsensusSet) (l : list changeEntry) (x : T) : outcome T () :=
  deliver Standard process false (cs_db s) l x.
Definition ex_deliver (s : ConsensusSet) (l : list changeEntry) (x : T) : T := out_state (ex_taken s l x) x.
Definition ex_change1 : list changeEntry := [mkChangeEntry [] [Block_ID ex_a1]].
Definition ex_change3 : list changeEntry := [mkChangeEntry [Block_ID ex_a1] [Block_ID ex_b1; Block_ID ex_b2]].
Definition ex_x1 (x0 : T) : T := ex_deliver ex_s1 ex_change1 x0.
Definition ex_x3 (x0 : T) : T := ex_deliver ex_s3 ex_change3 (ex_x1 x0).

Lemma ex_node_new x : initial x -> is_ret (ex_taken ex_s0 [genesisEntry] x) = true ->
  node Standard process initial own 1 ex_s0 (ex_deliver ex_s0 [genesisEntry] x).
Proof.
  intros Hi Hd. apply (node_new Standard _ _ _ ex_genesis false x _ ex_genesis_Ret Hi).
  exact (out_state_Ret _ x Hd).
Qed.

Lemma ex_node_accept n s s' x blocks new :
  node Standard process initial own n s x -> ex_accept blocks s = s' -> Forall admissible blocks ->
  is_ret (managedAcceptBlocks ex_clock blocks s) = true -> cs_published s' = cs_published s ++ new ->
  is_ret (ex_taken s' new x) = true ->
  node Standard process initial own (n + Z.of_nat (length blocks)) s' (ex_deliver s' new x).
Proof.
  intros Hn Hs' Hadm Hret Hpub Hdel. unfold ex_accept in Hs'.
  destruct (managedAcceptBlocks ex_clock blocks s) as [y s1| |] eqn:Hrun; [|discriminate Hret..].
  cbn [out_state] in Hs'. subst s1.
  exact (node_accept Standard _ _ _ n s x ex_clock blocks y s' new false _ Hn Hadm Hrun Hpub
    (out_state_Ret _ x Hdel)).
Qed.

Lemma ex_node_s2 x : node Standard process initial own 1 ex_s0 x -> is_ret (ex_taken ex_s1 ex_change1 x) = true ->
  node Standard process initial own 3 ex_s2 (ex_x1 x).
Proof.
  intros H0 Hd. assert (H1 : node Standard process initial own 2 ex_s1 (ex_x1 x)).
  { apply (ex_node_accept 1 ex_s0 ex_s1 x [ex_a1] ex_change1); [exact H0|reflexivity| | | |exact Hd].
    - apply ex_one. vm_compute. reflexivity.
    - vm_compute. reflexivity.
    - rewrite ex_published_s0. exact ex_published_s1. }
  assert (Hret : is_panic (managedAcceptBlocks ex_clock [ex_b1] ex_s1) ||
    is_ret (managedAcceptBlocks ex_clock [ex_b1] ex_s1) = false) by (vm_compute; reflexivity).
  unfold ex_s2, ex_accept.
  destruct (managedAcceptBlocks ex_clock [ex_b1] ex_s1) as [y s|e s|] eqn:Hrun; [discriminate Hret| |discriminate Hret].
  apply (node_reject Standard _ _ _ 2 ex_s1 (ex_x1 x) ex_clock [ex_b1] e s H1); [|exact Hrun].
  apply ex_one. vm_compute. reflexivity.
Qed.

Lemma ex_node_s3 x : node Standard process initial own 1 ex_s0 x -> is_ret (ex_taken ex_s1 ex_change1 x) = true ->
  is_ret (ex_taken ex_s3 ex_change3 (ex_x1 x)) = true -> node Standard process initial own 4 ex_s3 (ex_x3 x).
Proof.
  intros H0 Hd1 Hd3. unfold ex_x3.
  apply (ex_node_accept 3 ex_s2 ex_s3 (ex_x1 x) [ex_b2] ex_change3); [exact (ex_node_s2 x H0 Hd1)|reflexivity| | | |exact Hd3].
  - apply ex_one. vm_compute. reflexivity.
  - vm_compute. reflexivity.
  - rewrite ex_published_s2. exact ex_published.
Qed.
End through.

(** ** The transaction pool *)

Abbreviation ex_pool := (pool_process Standard ex_range ex_range_int).
Definition ex_tp_new : TransactionPool := fst (initPersist (mkPoolDB ∅ None None None None)).
Definition ex_tp0 := ex_deliver ex_pool ex_s0 [genesisEntry] ex_tp_new.
Definition ex_tp0' := out_state (submitTransactionSet ex_range (cs_db ex_s0) [ex_pay] ex_tp0) ex_tp0.
Definition ex_tp3 := ex_x3 ex_pool ex_tp0'.

Definition ex_txns : list Transaction := b_Transactions GenesisBlock ++ [ex_pay].

Lemma ex_txns_ids : ids_name_objects ex_txns.
Proof.
  assert (Hnd : NoDup (Transaction_ID <$> ex_txns))
    by (apply (bool_decide_eq_true_1 _); vm_compute; reflexivity).
  intros t t' [i Hi]%list_elem_of_lookup [j Hj]%list_elem_of_lookup Heq.
  assert (i = j) as ->; [|congruence].
  eapply (NoDup_lookup (Transaction_ID <$> ex_txns)); [exact Hnd| |].
  - rewrite list_lookup_fmap, Hi. reflexivity.
  - rewrite list_lookup_fmap, Hj, Heq. reflexivity.
Qed.

Lemma ex_txns_in : txns_in ex_txns (db_BlockMap (cs_db ex_s3)).
Proof.
  assert (Hall : map_Forall (fun _ pb => Forall (fun tx => tx ∈ ex_txns) (b_Transactions (pb_Block pb)))
    (db_BlockMap (cs_db ex_s3))) by (apply (bool_decide_eq_true_1 _); vm_compute; reflexivity).
  intros bid pb Hpb. apply Forall_forall, (Hall bid pb Hpb).
Qed.

Abbreviation ex_node := (pool_node Standard ex_range ex_range_int ex_txns).

Lemma ex_node_s0 : ex_node 1 ex_s0 ex_tp0'.
Proof.
  apply (node_own Standard _ _ _ 1 ex_s0 ex_tp0).
  - unfold ex_tp0. apply ex_node_new; [reflexivity|]. vm_compute. reflexivity.
  - assert (Hret : is_ret (submitTransactionSet ex_range (cs_db ex_s0) [ex_pay] ex_tp0) = true)
      by (vm_compute; reflexivity).
    unfold ex_tp0'. destruct (submitTransactionSet ex_range (cs_db ex_s0) [ex_pay] ex_tp0) as [x s| |] eqn:Hrun;
      [|discriminate Hret..].
    eapply step_submit; [|exact Hrun]. intros t ->%list_elem_of_singleton.
    apply elem_of_app. right. by apply list_elem_of_singleton.
Qed.

Lemma ex_pool_s3 : ex_node 4 ex_s3 ex_tp3.
Proof. unfold ex_tp3. apply ex_node_s3; [exact ex_node_s0|vm_compute; reflexivity..]. Qed.

(** The payment is back in the pool after the block with it was reverted. *)
Lemma node_pool_follows_witness :
  tp_blockHeight ex_tp3 = 2 /\ size (tp_transactionSets ex_tp3) = 1%nat /\
  exists lp, path_list (cs_db ex_s3) lp /\ pool_at (db_BlockMap (cs_db ex_s3)) lp ex_tp3 /\
    pool_ok (fun t => t ∈ ex_txns) (consensus_txnFn (cs_db ex_s3)) ex_tp3.
Proof.
  split; [vm_compute; reflexivity|]. split; [vm_compute; reflexivity|].
  exact (proj1 (node_pool_follows Standard ex_range ex_range_int ltac:(discriminate) ex_range_perm
    ex_range_int_perm ex_txns ex_txns_ids 4 ex_s3 ex_tp3 ex_below ex_pool_s3) ex_txns_in).
Defined.
