(* ===== verification/ExamplesWallet.v ===== *)
(** * A concrete wallet

    A wallet that watches the address the blocks of [ExamplesChain] pay, and
    follows them through the reorganisation; and a wallet with one output that
    sends coins.  The witnesses of the theorems about the wallet run these
    calls. *)

From S2P Require Import Prelude Bytes Interfaces Currency Types Params Encoding Transactions.
From S2P Require Import Decoding Signatures Subsidy ConsensusDB ProcessedBlock BlockValidation Fork Accept.
From S2P Require Import Instances Agree Chain ChainFork ChainAccept ChainState ChangeLog Examples ExamplesChain.
From S2P Require Import ConsensusSubscribe Subscription Replay Node TransactionPool ExamplesNode.
From S2P Require Import Wallet WalletUpdate WalletBuilder WalletKeys WalletHistory WalletMoves NodeWallet WalletSpend.
From S2P Require Import SeedScan TransactionPoolSubscribers WalletPool ExamplesPool.

Open Scope Z_scope.

#[local] Hint Extern 0 Params => exact ex_net : typeclass_instances.
#[local] Hint Extern 0 Build => exact (debug_build Standard) : typeclass_instances.
#[local] Hint Extern 0 WalletParams => exact testing_wallet_params : typeclass_instances.

(** ** A signature scheme *)

Definition twice (l : array 32) : array 64 := copy_array 64 (vec_to_list l ++ vec_to_list l).

(** The seed is the public key; a signature is what [toy_crypto] accepts. *)
#[export] Instance toy_ed25519 : Ed25519 := {
  ed25519_GenerateKey seed := (seed, twice seed);
  ed25519_Sign sk msg := twice (toy_hash (drop 32 (vec_to_list sk) ++ msg))
}.

Lemma twice_to_list (l : array 32) : vec_to_list (twice l) = vec_to_list l ++ vec_to_list l.
Proof. apply copy_array_to_list. by rewrite length_app, !length_vec_to_list. Qed.

#[export] Instance toy_ed25519_laws : Ed25519Laws toy_crypto toy_ed25519.
Proof.
  assert (Hdrop : forall l : array 32, drop 32 (vec_to_list (twice l)) = vec_to_list l).
  { intros l. rewrite twice_to_list. by rewrite drop_app_length' by (by rewrite length_vec_to_list). }
  split.
  - intros seed. apply Hdrop.
  - intros seed m. cbn [ed25519_verify ed25519_GenerateKey ed25519_Sign toy_crypto toy_ed25519 fst snd].
    rewrite Hdrop. apply bool_decide_eq_true_2. rewrite twice_to_list.
    by rewrite take_app_length' by (by rewrite length_vec_to_list).
Qed.

(** ** The wallet *)

Definition ex_wseed : array 32 := toy_hash [Byte.x07].
Definition ex_N : Z := 70.
Definition ex_watched : gset UnlockHash := {[ex_free_hash]}.
Definition ex_wallet0 : Wallet :=
  mkWallet true ex_wseed [] ∅ ∅ ex_watched ∅ [] (dbPutPrimarySeedProgress 1 dbReset) false false.
Definition ex_wallet : Wallet := regenerateLookahead 1 (integrateSeed ex_wseed 1 ex_wallet0).

Lemma ex_addrs_differ : addrs_differ ex_wseed ex_N.
Proof.
  assert (Hnd : NoDup (addr ex_wseed <$> seqZ 0 ex_N)) by (apply (bool_decide_eq_true_1 _); vm_compute; reflexivity).
  intros i j Hi Hj Heq. assert (Z.to_nat i = Z.to_nat j); [|lia].
  eapply (NoDup_lookup (addr ex_wseed <$> seqZ 0 ex_N)); [exact Hnd|..];
    rewrite list_lookup_fmap, lookup_seqZ_lt by lia; cbn [fmap option_fmap option_map]; f_equal.
  rewrite !Z.add_0_l, !Z2Nat.id by lia. by rewrite Heq.
Qed.

Lemma ex_new_wallet : new_wallet ex_wseed 1 ex_watched ex_wallet.
Proof.
  exists ex_wallet0. split_and!; [reflexivity..|]. intros uh ->%elem_of_singleton. reflexivity.
Qed.

Abbreviation ex_cursor := (fun V : Type => @map_to_list Hash V (gmap Hash V) _).
Definition at_least (x y : SiacoinOutputID * SiacoinOutput) : Prop := (sco_Value y.2 <= sco_Value x.2)%N.
#[local] Instance at_least_dec : RelDecision at_least.
Proof. intros x y. unfold at_least. apply _. Defined.
Definition ex_sort : list (SiacoinOutputID * SiacoinOutput) -> list (SiacoinOutputID * SiacoinOutput) :=
  merge_sort at_least.
Lemma ex_sort_perm l : ex_sort l ≡ₚ l.
Proof. apply merge_sort_Permutation. Qed.

Definition ex_wn : walletNode := mkWalletNode ex_wallet [].
Lemma ex_wallet_initial : wallet_initial ex_wseed 1 ex_watched ex_wn.
Proof. exact (conj ex_new_wallet eq_refl). Qed.

(** ** Following the blocks *)

Abbreviation ex_wallet_process := (wallet_process Standard).
Definition ex_w0 := ex_deliver ex_wallet_process ex_s0 [genesisEntry] ex_wn.
Definition ex_w0' := mkWalletNode
  (out_state (run_op ex_cursor ex_sort (OpAddresses 1) (wn_wallet ex_w0)) (wn_wallet ex_w0)) (wn_started ex_w0).
Definition ex_w3 := ex_x3 ex_wallet_process ex_w0'.

Abbreviation ex_wnode := (wallet_node Standard ex_cursor ex_sort ex_wseed ex_N 1 ex_watched).

Lemma op_step d op p x w' :
  wd_PrimarySeedProgress (w_db (wn_wallet x)) = Some p -> 0 <= op_cost ex_cursor op (wn_wallet x) ->
  fits ex_N (p + op_cost ex_cursor op (wn_wallet x)) -> run_op ex_cursor ex_sort op (wn_wallet x) = Ret () w' ->
  wallet_step Standard ex_cursor ex_sort ex_N d x (mkWalletNode w' (wn_started x)).
Proof. intros H1 H2 H3 H4. exists op, p. cbn. split_and!; [done..|by left|done]. Qed.

Lemma ex_wnode_s0 : ex_wnode 1 ex_s0 ex_w0'.
Proof.
  apply (node_own Standard _ _ _ 1 ex_s0 ex_w0).
  - unfold ex_w0. apply ex_node_new; [exact ex_wallet_initial|]. vm_compute. reflexivity.
  - unfold ex_w0'. apply (op_step _ (OpAddresses 1) 1).
    + vm_compute. reflexivity.
    + cbn. lia.
    + unfold fits, ex_N. vm_compute. discriminate.
    + apply out_state_Ret. vm_compute. reflexivity.
Qed.

Lemma ex_wnode_s3 : ex_wnode 4 ex_s3 ex_w3.
Proof. unfold ex_w3. apply ex_node_s3; [exact ex_wnode_s0|vm_compute; reflexivity..]. Qed.

(** ** The conditions on the tree *)

Definition tree_ids (t : tree) : list TransactionID := map_to_list t ≫= fun kv => block_ids (pb_Block kv.2).

Lemma history_fits_tree t : NoDup (tree_ids t) -> Z.of_nat (length (tree_ids t)) < 2 ^ 64 -> history_fits t.
Proof.
  intros Hnd Hlen lp Hch.
  assert (Hlp : exists l, path_ids t lp = l ≫= (fun kv => block_ids (pb_Block kv.2)) /\ l.*1 = lp /\
    forall kv, kv ∈ l -> t !! kv.1 = Some kv.2).
  { assert (Hin : forall bid, bid ∈ lp -> exists pb, t !! bid = Some pb).
    { intros bid Hb. destruct (chained_generated _ _ _ Hch Hb) as (pb & Hpb & _). by exists pb. }
    clear Hch. induction lp as [|bid lp IH]; [exists []; split_and!; [done|done|by intros ? ?%elem_of_nil]|].
    destruct IH as (l & Hl & Hf & Ht); [intros b Hb; apply Hin; by right|].
    destruct (Hin bid) as [pb Hpb]; [by left|]. exists ((bid, pb) :: l). split_and!.
    - unfold path_ids in *. cbn [omap list_omap]. rewrite Hpb. cbn. by rewrite <- Hl.
    - cbn. by rewrite Hf.
    - intros kv [->|Hkv]%elem_of_cons; [done|by apply Ht]. }
  destruct Hlp as (l & -> & Hf & Ht).
  assert (Hsub : l ⊆+ map_to_list t).
  { apply NoDup_submseteq.
    - apply (NoDup_fmap_1 fst). rewrite Hf. apply Hch.
    - intros [bid pb] Hkv. apply elem_of_map_to_list. by apply (Ht (bid, pb)). }
  destruct (submseteq_Permutation _ _ Hsub) as [k Hk]. unfold tree_ids in *.
  rewrite Hk, bind_app in Hnd, Hlen. rewrite length_app in Hlen. split; [by apply NoDup_app in Hnd as [? _]|lia].
Qed.

Lemma ex_history_fits : history_fits (db_BlockMap (cs_db ex_s3)).
Proof.
  apply history_fits_tree.
  - apply (bool_decide_eq_true_1 _). vm_compute. reflexivity.
  - apply Z.ltb_lt. vm_compute. reflexivity.
Qed.

Lemma ex_pays_within : pays_within ex_wseed ex_N 1 5 (db_BlockMap (cs_db ex_s3)).
Proof.
  assert (Hall : map_Forall (fun _ pb => Forall (fun uh => uh ∉ addr ex_wseed <$> seqZ 0 ex_N)
    (change_hashes (applied_diffs pb))) (db_BlockMap (cs_db ex_s3)))
    by (apply (bool_decide_eq_true_1 _); vm_compute; reflexivity).
  intros bid pb Hpb _ uh i Hu Hi ->. exfalso.
  pose proof (Hall bid pb Hpb) as Hf. cbn beta in Hf. rewrite Forall_forall in Hf. apply (Hf _ Hu).
  apply list_elem_of_fmap_2, elem_of_seqZ. lia.
Qed.

Lemma ex_fits p : (p + (p + lookaheadRescanThreshold + lookaheadBuffer + p / 10) <=? ex_N) = true -> fits ex_N p.
Proof. apply Z.leb_le. Qed.

Lemma ex_thr : 0 <= lookaheadRescanThreshold.
Proof. cbn. lia. Qed.
Lemma ex_buf : 0 <= lookaheadBuffer.
Proof. cbn. lia. Qed.

(** ** Witnesses *)

(** No index of the example reaches the threshold of a rescan. *)
Lemma ex_limit : 0 < 5 <= lookaheadRescanThreshold + lookaheadBuffer.
Proof. cbn. lia. Qed.
Lemma ex_no_rescan : 5 <= 1 + lookaheadRescanThreshold.
Proof. cbn. lia. Qed.

(** After the reorganisation the wallet has the outputs of the side chain. *)
Lemma node_wallet_outputs_witness :
  size (wd_SiacoinOutputs (w_db (wn_wallet ex_w3))) <> 0%nat /\ threadedResetSubscriptions ∉ wn_started ex_w3 /\
  wd_SiacoinOutputs (w_db (wn_wallet ex_w3)) = kept (mine_sco (wn_wallet ex_w3)) (db_SiacoinOutputs (cs_db ex_s3)) /\
  wd_ConsensusHeight (w_db (wn_wallet ex_w3)) = db_BlockHeight (cs_db ex_s3).
Proof.
  destruct (proj1 (node_wallet_outputs Standard ex_cursor ex_sort ex_wseed ex_N 1 5 ex_watched ex_addrs_differ
    eq_refl ex_thr ex_buf ltac:(lia) (ex_fits 1 eq_refl) (ex_fits 5 eq_refl) ex_limit
    ltac:(discriminate) 4 ex_s3 ex_w3 ex_below ex_wnode_s3) ex_pays_within ex_history_fits) as (Hno & Hw).
  pose proof (Hno ex_no_rescan) as Hx. destruct (Hw Hx) as (H1 & _ & _ & H4 & _).
  split; [vm_compute; discriminate|exact (conj Hx (conj H1 H4))].
Defined.

(** The entry of the payment is gone, those of the payouts of the side chain
    are there. *)
Lemma node_wallet_history_witness :
  wd_Sequence (w_db (wn_wallet ex_w3)) <> 0 /\
  exists lp pts, path_list (cs_db ex_s3) lp /\ stack (w_db (wn_wallet ex_w3)) pts /\
    wallet_history ex_watched (has (wn_wallet ex_w3)) (db_BlockMap (cs_db ex_s3)) lp pts.
Proof.
  split; [vm_compute; discriminate|].
  destruct (node_wallet_history Standard ex_cursor ex_sort ex_wseed ex_N 1 5 ex_watched ex_addrs_differ
    eq_refl ex_thr ex_buf ltac:(lia) (ex_fits 1 eq_refl) (ex_fits 5 eq_refl) ex_limit
    ltac:(discriminate) 4 ex_s3 ex_w3 ex_below ex_wnode_s3 ex_pays_within ex_history_fits) as [Hno Hw].
  exact (Hw (Hno ex_no_rescan)).
Defined.

(** ** Sending *)

(** The wallet with an output for its first address. *)
Definition ex_funded : Wallet :=
  with_wdb (dbPutConsensusHeight 10 (dbPutSiacoinOutput (toy_hash [Byte.x01])
    (mkSiacoinOutput 1000 (addr ex_wseed 0)) (w_db ex_wallet))) ex_wallet.
Abbreviation ex_two := (two_addresses ex_wseed 1 ex_funded).
Abbreviation ex_send :=
  (managedSendSiacoins ex_cursor ex_sort true (pool_answer [] None) (1%N, 1%N) 500%N 10%N ex_free_hash ex_funded).

Lemma ex_funded_keys : keys_at ex_wseed ex_N 1 1 ex_funded.
Proof.
  apply (keys_at_part ex_wseed ex_N 1 1 ex_wallet); [reflexivity|].
  destruct (wa_keys _ _ _ _ _ _ _ (new_wallet_at ex_wseed ex_N 1 ex_watched ex_addrs_differ eq_refl
    ex_thr ex_buf ltac:(lia) (ex_fits 1 eq_refl) ∅ ex_wallet ex_new_wallet)) as (p & Hk & _).
  pose proof (ka_progress _ _ _ _ _ Hk) as Hp. injection Hp as <-. exact Hk.
Qed.

Lemma ex_funded_sound : keys_sound ex_funded.
Proof.
  intros uh k Hk. change (w_keys ex_funded) with
    (<[addr ex_wseed 0 := generateSpendableKey ex_wseed 0]> (∅ : gmap UnlockHash spendableKey)) in Hk.
  apply lookup_insert_Some in Hk as [[<- <-]|[_ Hk]]; [|by rewrite lookup_empty in Hk].
  split; [reflexivity|]. by exists ex_wseed, 0.
Qed.

Lemma ex_available : available ex_cursor ex_two =
  [(toy_hash [Byte.x01], mkSiacoinOutput 1000 (addr ex_wseed 0))].
Proof. decide_by_vm. Qed.

Lemma ex_spendable : spendable ex_cursor ex_two.
Proof.
  intros x. rewrite ex_available. intros ->%list_elem_of_singleton. cbn [snd sco_UnlockHash].
  rewrite two_addresses_keys.
  rewrite !lookup_insert_is_Some'. right. right. change (w_keys ex_funded) with
    (<[addr ex_wseed 0 := generateSpendableKey ex_wseed 0]> (∅ : gmap UnlockHash spendableKey)).
  rewrite lookup_insert_eq. eauto.
Qed.

Lemma ex_send_ret : match ex_send with Ret _ _ => true | _ => false end = true.
Proof. vm_compute. reflexivity. Qed.

Lemma managedSendSiacoins_spec_witness :
  exists chosen parent txn w', ex_send = Ret [parent; txn] w' /\
    pays ex_cursor ex_two (1%N, 1%N) 500 10 ex_free_hash chosen parent txn.
Proof.
  assert (Hnd : NoDup (available ex_cursor ex_two).*1) by (rewrite ex_available; apply NoDup_singleton).
  assert (Hh : 0 <= wd_ConsensusHeight (w_db ex_funded)) by (vm_compute; discriminate).
  pose proof (managedSendSiacoins_spec ex_cursor ex_sort ex_sort_perm ex_wseed ex_N 1 ex_addrs_differ eq_refl
    ex_thr ex_buf ltac:(lia) None (1%N, 1%N) 500 10 ex_free_hash 1 ex_funded
    ex_funded_keys (ex_fits 3 eq_refl) ex_funded_sound eq_refl Hh ex_spendable Hnd) as H.
  pose proof ex_send_ret as Hret.
  destruct (managedSendSiacoins _ _ _ _ _ _ _ _ _) as [txns w'|e w'|msg]; [|discriminate Hret..].
  destruct H as (_ & chosen & parent & txn & -> & Hp & _). exists chosen, parent, txn, w'.
  split; [reflexivity|exact Hp].
Defined.

(** ** Scanning *)

Definition ex_scan_params : ScanParams := {| maxScanKeys := ex_N; numInitialKeys := 10 |}.
#[local] Hint Extern 0 ScanParams => exact ex_scan_params : typeclass_instances.

Abbreviation ex_scan :=
  (seedScanner_scan tt ex_views (fun _ => false) (fun _ => false) 6 4 4 (mkSubscribing 0%nat 0%nat (newSeedScanner 3 ex_wseed))).

Lemma ex_scan_rounds : maxScanKeys <= numInitialKeys * scanMultiplier ^ (Z.of_nat 6 - 2).
Proof. vm_compute. discriminate. Qed.
Lemma ex_scan_width : maxScanKeys * scanMultiplier < 2 ^ 64.
Proof. vm_compute. reflexivity. Qed.
Lemma ex_scan_initial : 0 < numInitialKeys <= maxScanKeys.
Proof. split; vm_compute; [reflexivity|discriminate]. Qed.

(** The scan runs while the blocks of [ex_views] arrive. *)
Lemma seedScanner_scan_spec_witness : exists k m st',
  (ex_scan = Ret () st' \/ ex_scan = Err (WalletError errMaxKeys) st') /\ found ex_views ex_wseed k m (sb_state st').
Proof.
  assert (Hfuel : (length (all_changes (v_set (ex_views 3))) < 4)%nat).
  { cbn [ex_views v_set ex_view_set]. unfold all_changes. rewrite ex_published. cbn. lia. }
  assert (Hstable : forall k, (3 <= k)%nat -> v_set (ex_views k) = v_set (ex_views 3)).
  { intros [|[|[|k]]] Hk; [lia..|reflexivity]. }
  assert (Hnew : forall k, tt ∉ v_subscribers (ex_views k)) by (intros k Hk; by apply elem_of_nil in Hk).
  destruct (seedScanner_scan_spec Standard ltac:(discriminate) tt ex_views (fun _ => false) (fun _ => false)
    (fun _ => eq_refl) (fun _ => eq_refl) ex_view_count 4 ex_schedule 3 Hstable ex_distinct Hnew ex_wseed ex_addrs_differ
    ex_scan_initial ex_scan_width 6 4 4 3%N Hfuel ltac:(lia) ltac:(lia) ex_scan_rounds)
    as (k & m & st' & _ & _ & _ & Hf & _ & Ho).
  exists k, m, st'. split; [|exact Hf]. destruct Ho as [[Ho _]|[Ho _]]; [by left|by right].
Defined.

(** ** Listening to the pool *)

(** The wallet subscribes to the pool of [ExamplesNode], which holds a payment
    to the address the wallet watches. *)
Definition ex_ut : UnconfirmedTransactionSet :=
  default (unconfirmed_set ex_tp0' (set_id [ex_pay])) (tp_subscriberSets ex_tp0' !! set_id [ex_pay]).
Abbreviation ex_news := (mkTransactionPoolDiff [ex_ut] []).
Definition ex_tp_heard : TransactionPool := out_state (TransactionPoolSubscribe ex_range 7 ex_tp0') ex_tp0'.
Definition ex_w_heard : Wallet := out_state (ReceiveUpdatedUnconfirmedTransactions ex_news ex_wallet) ex_wallet.

Lemma singleton_of_dom {V} (m : gmap Hash V) id d : dom m = {[id]} -> m = {[id := default d (m !! id)]}.
Proof.
  intros Hdom. apply map_eq. intros id'. destruct (decide (id' = id)) as [->|Hne].
  - rewrite lookup_singleton_eq. destruct (m !! id) eqn:Hid; [done|]. apply not_elem_of_dom in Hid. set_solver.
  - rewrite lookup_singleton_ne by done. apply not_elem_of_dom. set_solver.
Qed.
Lemma ex_told_sets : tp_subscriberSets ex_tp0' = {[set_id [ex_pay] := ex_ut]}.
Proof.
  apply singleton_of_dom. apply (bool_decide_eq_true_1 _). vm_compute. reflexivity.
Qed.
Lemma ex_ut_names : names_set (set_id [ex_pay]) ex_ut.
Proof. unfold names_set. split_and!; apply (bool_decide_eq_true_1 _); vm_compute; reflexivity. Qed.
Lemma ex_once_singleton : ids_once {[set_id [ex_pay] := ex_ut]}.
Proof.
  split.
  - intros id ut [<- <-]%lookup_singleton_Some. apply (bool_decide_eq_true_1 _). vm_compute. reflexivity.
  - intros id1 id2 ut1 ut2 txid [<- _]%lookup_singleton_Some [<- _]%lookup_singleton_Some. done.
Qed.

Lemma subscribe_sent tp id ut tp' :
  TransactionPoolSubscribe ex_range 7 tp = Ret () tp' -> tp_sent tp !! 7 = None ->
  tp_subscriberSets tp = {[id := ut]} -> tp_sent tp' !! 7 = Some [mkTransactionPoolDiff [ut] []].
Proof.
  intros Hrun Hnone Hsets. unfold TransactionPoolSubscribe in Hrun. inv_run.
  cbn [with_subscribers tp_sent send_diff fold_left].
  rewrite lookup_insert_eq, Hnone, Hsets, dom_singleton_L, elements_singleton.
  cbn [ex_range Nat.even reverse rev_append omap list_omap]. by rewrite lookup_singleton_eq.
Qed.

Lemma ex_subscribed : TransactionPoolSubscribe ex_range 7 ex_tp0' = Ret () ex_tp_heard.
Proof. apply out_state_Ret. vm_compute. reflexivity. Qed.

Lemma ex_no_subscribers : tp_subscribers ex_tp0' = [].
Proof. vm_compute. reflexivity. Qed.
Lemma ex_never_sent : tp_sent ex_tp0' !! 7 = None.
Proof. vm_compute. reflexivity. Qed.
Lemma ex_changes : is_Some (ut_Change ex_ut).
Proof. apply (bool_decide_eq_true_1 _). vm_compute. reflexivity. Qed.
Lemma ex_heard : ReceiveUpdatedUnconfirmedTransactions ex_news ex_wallet = Ret () ex_w_heard.
Proof. apply out_state_Ret. vm_compute. reflexivity. Qed.
Lemma hears_nothing K w : w_unconfirmedSets w = ∅ -> w_unconfirmedProcessedTransactions w = [] ->
  (forall uh, uh ∈ K -> isWalletAddress w uh = true) -> hears K ∅ w.
Proof.
  intros Hs Hp HK. split; rewrite ?Hp, ?Hs;
    [by rewrite fmap_empty|apply NoDup_nil_2|by intros pt ?%elem_of_nil| |exact HK].
  intros id ut txn uh Hv. by rewrite lookup_empty in Hv.
Qed.
Lemma ex_hears_nothing : hears ex_watched ∅ ex_wallet.
Proof.
  apply hears_nothing.
  - apply (bool_decide_eq_true_1 _). vm_compute. reflexivity.
  - vm_compute. reflexivity.
  - intros uh ->%elem_of_singleton. vm_compute. reflexivity.
Qed.

Lemma in_sync_fresh tp id ut : tp_subscribers tp = [] -> tp_subscriberSets tp = {[id := ut]} -> names_set id ut ->
  in_sync tp.
Proof.
  intros Hs Ht Hn. split; rewrite ?Hs, ?Ht; [apply NoDup_nil_2|by apply map_Forall_singleton|by intros s ?%elem_of_nil].
Qed.

Lemma ex_listening : listening ex_watched ex_range 7 ex_tp_heard ex_w_heard.
Proof.
  apply (listening_subscribe ex_watched ex_range 7 ex_tp0' ex_wallet ex_tp_heard ex_news ex_w_heard).
  - exact (in_sync_fresh _ _ _ ex_no_subscribers ex_told_sets ex_ut_names).
  - rewrite ex_told_sets. apply map_Forall_singleton, ex_changes.
  - rewrite ex_no_subscribers. by intros ?%elem_of_nil.
  - exact ex_never_sent.
  - rewrite ex_told_sets. exact ex_once_singleton.
  - exact ex_hears_nothing.
  - exact ex_subscribed.
  - exact (subscribe_sent ex_tp0' _ ex_ut ex_tp_heard ex_subscribed ex_never_sent ex_told_sets).
  - exact ex_heard.
Qed.

Lemma wallet_follows_pool_witness :
  length (w_unconfirmedProcessedTransactions ex_w_heard) = 1%nat /\
  hears ex_watched (tp_subscriberSets ex_tp_heard) ex_w_heard.
Proof.
  split; [vm_compute; reflexivity|].
  exact (proj1 (wallet_follows_pool ex_watched ex_range ex_range_perm 7 ex_tp_heard ex_w_heard ex_listening)).
Defined.
