(* ===== verification/ExamplesMiner.v ===== *)
(** * A concrete miner

    A miner that gives out headers, listens to the pool of [ExamplesWallet] and
    follows the blocks of [ExamplesChain] through the reorganisation.  The
    witnesses of the theorems about the miner run these calls. *)

From S2P Require Import Prelude Bytes Interfaces Currency Types Params Encoding Transactions.
From S2P Require Import Signatures Subsidy ConsensusDB ProcessedBlock BlockValidation Fork Accept.
From S2P Require Import Instances Agree Chain ChainFork ChainAccept ChainState ChangeLog Examples ExamplesChain.
From S2P Require Import ConsensusSubscribe Subscription Replay Node TransactionPool TransactionPoolUpdate ExamplesNode.
From S2P Require Import TransactionPoolSubscribers WalletPool ExamplesPool ExamplesWallet.
From S2P Require Import MapHeap Miner MinerSelect MinerPool MinerWork NodeMiner.

Open Scope Z_scope.

#[local] Hint Extern 0 Params => exact ex_net : typeclass_instances.
#[local] Hint Extern 0 Build => exact (debug_build Standard) : typeclass_instances.
#[local] Hint Extern 0 MinerParams => exact testing_miner_params : typeclass_instances.

(** ** A heap *)

Definition ex_split (fee : N) : splitSet := mkSplitSet fee 100 [].
(** Two elements in memory, and an empty heap. *)
Definition ex_elems : gmap nat mapElement :=
  {[1%nat := mkMapElement (ex_split 5) 11 0; 2%nat := mkMapElement (ex_split 3) 12 0]}.
Definition ex_heap : heapState := mkHeapState ex_elems (mkMapHeap ∅ [] 0 true).

(** One element is pushed, and taken back by its ID. *)
Lemma mapHeap_refines_map_witness : exists s1 p s2,
  push 1%nat ex_heap = Ret () s1 /\ contents s1 !! 11 = Some (ex_split 5) /\
  removeSetByID 11 s1 = Ret p s2 /\ contents s2 !! 11 = None /\ heap_ok s2.
Proof.
  destruct (mapHeap_refines_map ex_heap) as [Hpush _].
  destruct (proj1 (Hpush (empty_heap_ok ex_elems true)) 1%nat (mkMapElement (ex_split 5) 11 0) eq_refl eq_refl)
    as (s1 & Hrun & Hok & Hc).
  assert (H11 : contents s1 !! 11 = Some (ex_split 5)) by (rewrite Hc; apply lookup_insert_eq).
  destruct (mapHeap_refines_map s1) as [Hremove _]. destruct (Hremove Hok) as (_ & _ & Hr).
  specialize (Hr 11). rewrite H11 in Hr. destruct Hr as (p & e & s2 & Hrem & _ & _ & _ & Hok2 & Hc2).
  exists s1, p, s2. split_and!; [exact Hrun|exact H11|exact Hrem| |exact Hok2]. rewrite Hc2. apply lookup_delete_eq.
Defined.

(** ** Headers *)

Definition ex_answers : walletAnswers := mkWalletAnswers (inr [ex_free_hash]) (inr ex_free).
(** The clock at the second [t], and some random bytes. *)
Definition ex_outside (t : Z) (x : Byte.byte) : outside :=
  mkOutside (inr true) ex_answers ex_answers t t (t * 1000000000) (t * 1000000000) (zero_array 16) (toy_hash [x]).

Definition ex_o1 : outside := ex_outside 10 Byte.x01.
Definition ex_o2 : outside := ex_outside 10 Byte.x02.
Definition ex_given1 := HeaderForWork ex_o1 new_miner.
Definition ex_m1 : Miner := out_state ex_given1 new_miner.
Definition ex_given2 := HeaderForWork ex_o2 ex_m1.
Definition ex_m2 : Miner := out_state ex_given2 ex_m1.
Definition given {S} (o : outcome S (BlockHeader * Target)) : BlockHeader * Target :=
  match o with Ret x _ => x | _ => (zero_header, zero_hash) end.

Lemma given_Ret {S} (o : outcome S (BlockHeader * Target)) s :
  is_ret o = true -> o = Ret ((given o).1, (given o).2) (out_state o s).
Proof. by destruct o as [[h t] s'| |]. Qed.

Lemma ex_given1_Ret : HeaderForWork ex_o1 new_miner = Ret ((given ex_given1).1, (given ex_given1).2) ex_m1.
Proof. unfold ex_m1, ex_given1. apply given_Ret. vm_compute. reflexivity. Qed.
Lemma ex_given2_Ret : HeaderForWork ex_o2 ex_m1 = Ret ((given ex_given2).1, (given ex_given2).2) ex_m2.
Proof. unfold ex_m2, ex_given2. apply given_Ret. vm_compute. reflexivity. Qed.

Lemma ex_header_new : (given ex_given1).1 ∉ hm_headerMem (m_mem new_miner).
Proof. apply (bool_decide_eq_true_1 _). vm_compute. reflexivity. Qed.
Lemma ex_headers_differ : (given ex_given1).1 ∉ [(given ex_given2).1].
Proof. apply (bool_decide_eq_true_1 _). vm_compute. reflexivity. Qed.

(** The first header comes back after the second one was given out from the
    same source block. *)
Lemma header_round_trip_witness : exists b,
  Block_Header b = (given ex_given1).1 /\
  recover_block (header_nonce (zero_array 8) (given ex_given1).1) ex_m2 = Ret (with_nonce (zero_array 8) b) ex_m2.
Proof.
  assert (Hsz : 0 < BlockMemory <= HeaderMemory) by (cbn; lia).
  destruct (header_round_trip new_miner 0 [] new_miner Hsz (conj eq_refl eq_refl) (worked_none _)) as (_ & _ & H).
  pose proof (worked_more _ _ _ _ _ _ _ (worked_none ex_m1) (work_header _ _ _ _ _ ex_given2_Ret)) as Hw.
  assert (Hk : Z.of_nat (0 + header_slots ex_o2 (m_mem ex_m1)) < HeaderMemory) by (vm_compute; reflexivity).
  destruct (H ex_o1 _ _ ex_m1 _ _ ex_m2 ex_given1_Ret ex_header_new Hw Hk ex_headers_differ) as (p & b & _ & _ & Hb & Hr).
  exists b. split; [exact Hb|apply Hr].
Defined.

(** ** Listening to the pool *)

Definition ex_txid_range (l : list TransactionID) : list TransactionID := reverse l.
Definition ex_m_heard : Miner :=
  out_state (Miner_ReceiveUpdatedUnconfirmedTransactions ex_txid_range ex_news new_miner) new_miner.

Lemma ex_m_heard_Ret : Miner_ReceiveUpdatedUnconfirmedTransactions ex_txid_range ex_news new_miner = Ret () ex_m_heard.
Proof. apply out_state_Ret. vm_compute. reflexivity. Qed.

Lemma view_sized_singleton id ut : 0 < set_size ut -> set_size ut < 2 ^ 64 -> view_sized {[id := ut]}.
Proof.
  intros Hpos Hlt. split; [by apply map_Forall_singleton|].
  rewrite <- insert_empty, total_insert by apply lookup_empty. unfold total. rewrite map_fold_empty. lia.
Qed.
Lemma ex_sized : view_sized {[set_id [ex_pay] := ex_ut]}.
Proof. apply view_sized_singleton; vm_compute; reflexivity. Qed.

Lemma ex_mines : mines ex_txid_range ex_range 7 ex_tp_heard ex_m_heard.
Proof.
  apply (mines_subscribe ex_txid_range ex_range 7 ex_tp0' new_miner ex_tp_heard ex_news ex_m_heard).
  - exact (in_sync_fresh _ _ _ ex_no_subscribers ex_told_sets ex_ut_names).
  - rewrite ex_told_sets. apply map_Forall_singleton, ex_changes.
  - rewrite ex_no_subscribers. by intros ?%elem_of_nil.
  - exact ex_never_sent.
  - rewrite ex_told_sets. exact (conj ex_once_singleton ex_sized).
  - exact new_miner_mined.
  - exact ex_subscribed.
  - exact (subscribe_sent ex_tp0' _ ex_ut ex_tp_heard ex_subscribed ex_never_sent ex_told_sets).
  - cbn. lia.
  - exact ex_m_heard_Ret.
Qed.

(** The payment is in the block. *)
Lemma miner_follows_pool_witness :
  length (unsolved ex_m_heard) = 1%nat /\ fills (tp_subscriberSets ex_tp_heard) ex_m_heard.
Proof.
  split; [vm_compute; reflexivity|].
  exact (proj1 (miner_follows_pool ex_txid_range (fun l => reverse_Permutation l) ex_range ex_range_perm 7
    ex_tp_heard ex_m_heard ex_mines)).
Defined.

(** ** Following the blocks *)

Definition ex_outs (_ : DB) (_ : ConsensusChange) (_ : Miner) : outside := ex_o1.
Abbreviation ex_miner := (miner_process Standard ex_outs).
Definition ex_m0 : Miner := ex_deliver ex_miner ex_s0 [genesisEntry] (startupRescan_reset new_miner).
Definition ex_m3 : Miner := ex_x3 ex_miner ex_m0.

Lemma ex_miner_initial : miner_initial (startupRescan_reset new_miner).
Proof. exists new_miner. split_and!; [cbn; lia..|split; reflexivity|reflexivity]. Qed.

Lemma ex_mnode_s3 : miner_node Standard ex_outs 4 ex_s3 ex_m3.
Proof.
  unfold ex_m3. apply ex_node_s3; [|vm_compute; reflexivity..].
  unfold ex_m0. apply ex_node_new; [exact ex_miner_initial|vm_compute; reflexivity].
Qed.

(** The block the miner then works on, solved. *)
Definition ex_work : Block := match blockForWork ex_o1 ex_m3 with Ret b _ => b | _ => GenesisBlock end.
Definition ex_solved : Block := with_nonce (zero_array 8) (marked (toy_hash [Byte.x05]) ex_work).

Lemma ex_work_Ret b m' : blockForWork ex_o1 ex_m3 = Ret b m' -> b = ex_work.
Proof. unfold ex_work. by intros ->. Qed.

Lemma ex_solved_target : checkTarget ex_solved (Block_ID ex_solved) (mp_Target (m_persist ex_m3)) = true.
Proof. vm_compute. reflexivity. Qed.
Lemma ex_solved_size : u64 (zlen (Block_MarshalSia ex_solved)) <= BlockSizeLimit.
Proof. vm_compute. discriminate. Qed.
Lemma ex_solved_times : b_Timestamp ex_solved <= u64 ((ex_clock 0).1 + ExtremeFutureThreshold) /\
  b_Timestamp ex_solved <= u64 ((ex_clock 0).2 + FutureThreshold).
Proof. split; vm_compute; discriminate. Qed.
Lemma ex_solved_new : Block_ID ex_solved ∉ cs_dosBlocks ex_s3 /\ db_BlockMap (cs_db ex_s3) !! Block_ID ex_solved = None.
Proof. split; apply (bool_decide_eq_true_1 _); vm_compute; reflexivity. Qed.

(** After the reorganisation the miner works on a child of the side chain, and
    the solved block passes the checks. *)
Lemma node_miner_follows_witness :
  mp_Height (m_persist ex_m3) = 2 /\ b_ParentID (mp_UnsolvedBlock (m_persist ex_m3)) = Block_ID ex_b2 /\
  exists parent, db_BlockMap (cs_db ex_s3) !! Block_ID ex_b2 = Some parent /\
    mp_Target (m_persist ex_m3) = pb_ChildTarget parent /\
    validateHeaderAndBlock (ex_clock 0) ex_solved (Block_ID ex_solved) ex_s3 = Ret parent ex_s3.
Proof.
  assert (Hp : b_ParentID (mp_UnsolvedBlock (m_persist ex_m3)) = Block_ID ex_b2) by (vm_compute; reflexivity).
  split; [vm_compute; reflexivity|]. split; [exact Hp|].
  destruct (proj1 (node_miner_follows Standard ltac:(discriminate) ex_outs 4 ex_s3 ex_m3 ex_below ex_mnode_s3))
    as (parent & _ & _ & Hpar & Ht & Hw).
  destruct (Hw ex_o1 ltac:(reflexivity)) as (b & m' & Hrun & Hv). rewrite (ex_work_Ret b m' Hrun) in Hv.
  rewrite Hp in Hpar.
  exists parent. exact (conj Hpar (conj Ht (Hv (toy_hash [Byte.x05]) (zero_array 8) (ex_clock 0) ex_solved_target ex_solved_size
    (proj1 ex_solved_times) (proj2 ex_solved_times) (proj1 ex_solved_new) (proj2 ex_solved_new)))).
Defined.
